(* ===== verification/_CoqProject ===== *)
-Q . S2P
Prelude.v
Rounding.v
PyText.v
PyTime.v
Identifiers.v
RmsModels.v
Margin.v
Checks.v
Engine.v
Parser.v
Sizer.v
Accounts.v
TradeBook.v
Strategy.v
RateLimiter.v
Watchdog.v
WatchdogDaemon.v
SafetyGates.v
Notices.v
RiskExit.v
SessionClock.v
Instruments.v
Oms.v
SimBroker.v
Coordinator.v
BasketLogic.v
Baskets.v
Adapter.v
AdapterFacts.v
Fills.v
Announcements.v
Claims.v
Sha256.v
JobQueue.v
QueueConcurrency.v
QueueFacts.v
SignalInbox.v
Positions.v
OrderLedger.v
Persistence.v
RejectReasons.v
RuntimeState.v
ExposureLocks.v
OrderManager.v
OrderFlow.v
Inbound.v
Worker.v
WorkerFacts.v
RedZoneRelease.v
TradingPause.v
TradeExecutions.v
ManualLedger.v
ManualLedgerFacts.v
ManualCallbacks.v
KillSwitch.v
ManualTrading.v
ManualFlatten.v
ManualRuns.v
EngineFlatten.v
Reconcile.v
ReconcileFacts.v
LivePnl.v
Settings.v
LossThreshold.v
RiskMonitor.v
CriticalRecovery.v
BrokerAlign.v
AccountFlatten.v
