(* ===== verification/Prelude.v ===== *)
(** * A verification of the trading core of the IBKR paper trading system

    The program (Python, [backend/app]) turns webhook signals of a pair-trading
    strategy into baskets of orders at Interactive Brokers, for several
    accounts, keeps the ledgers of what was ordered and filled, and guards all
    of it with risk checks, a manual desk, a kill switch, reconciliation and a
    watchdog.  This library models that core, operation by operation, and
    proves what makes it correct.  Paths below are relative to [backend/app].

    ** How the parts interact

    A webhook ([api/routes/webhooks.py]) stores a signal and one job per
    account ([JobQueue], [SignalInbox]).  Workers claim jobs under a lease
    ([QueueConcurrency]) and execute them ([Worker]): the payload is parsed
    ([Inbound], [Parser]), the red zone and the pause are looked up
    ([SessionClock], [TradingPause]), and the order manager ([OrderManager])
    asks the strategy for an intent ([Strategy], [Sizer], [TradeBook]), fans it
    out over the accounts ([Accounts]), takes the locks of what it will read
    and write ([ExposureLocks], [RuntimeState]), resolves instruments
    ([Instruments]), runs the risk checks ([Engine], [Checks], [Margin],
    [RmsModels]), takes the durable claim of the intent ([Claims]) and hands it
    to the basket coordinator ([Coordinator]), which drives the order service
    ([Oms]) over the broker adapter ([Adapter]) paced by the rate limiter
    ([RateLimiter]).  What was filled becomes positions, order rows and events
    in one transaction ([Persistence] over [Positions], [OrderLedger]); the
    texts of refusals of several accounts are merged ([RejectReasons]).

    Beside this path: the manual desk ([ManualLedger], [ManualTrading],
    [ManualCallbacks]), the kill switch and its flattens ([KillSwitch],
    [ManualFlatten], [EngineFlatten], [AccountFlatten]), risk exits
    ([RiskExit], [RiskMonitor]) on live profits ([LivePnl]), the recovery of
    critical baskets ([CriticalRecovery]), the reconciliation with the broker
    ([Reconcile], [BrokerAlign]), the trade book ([TradeExecutions]), the release of deferred
    jobs ([RedZoneRelease]) and the watchdog ([Watchdog], [WatchdogDaemon],
    [SafetyGates], [Notices]).  Operators configure accounts and strategies ([Settings]),
    and a monitor tells when an account's losses cross its threshold
    ([LossThreshold]).

    ** Files and sources

    Foundations.  [Prelude]: comparisons of rationals, the error type [result]
    and its notations, lists.  [Rounding]: Python's decimals and floats.
    [PyText]: numerals, JSON values, splitting.  [PyTime]: dates and instants.
    [Sha256]: the hash of keys.

    Signals and risk.  [Identifiers]: core/identifiers.py.  [RmsModels]:
    rms/models.py.  [Margin]: rms/margin_estimate.py, market_value.py.
    [Checks]: rms/checks/.  [Engine]: rms/engine.py.  [Parser]:
    models/signal.py, services/model_blue/parser.py.  [Sizer]: sizer.py,
    allocation.py.  [TradeBook], [Strategy]: trade_book.py, strategy.py.
    [Accounts]: accounts/context.py, router.py.  [Instruments]:
    instruments/resolver.py, execution_override.py.  [SessionClock]:
    services/session_clock.py.  [Inbound]: services/strategies/.

    Execution.  [Oms]: oms/models.py, basket.py, retry_policy.py,
    oms_service.py, a monad over a heap of shared orders, an environment (the
    adapter, the database, the clocks) and exceptions.  [Coordinator]:
    oms/coordinator.py.  [BasketLogic]: a weakest-precondition calculus for
    that monad.  [Baskets]: the theorems.  [SimBroker]: a scripted
    environment for instances.  [Adapter], [AdapterFacts], [Fills],
    [Announcements]: oms/ibkr_adapter.py, over an arbitrary outside, and its
    proof that it is an environment as [Baskets] assumes one.  [RateLimiter]:
    broker/ibkr/gateway_rate_limiter.py.  [OrderManager], [OrderFlow],
    [RuntimeState], [ExposureLocks]: services/order_manager.py.  [Claims]:
    db/repositories/execution_claim_repository.py.

    Jobs.  [JobQueue], [QueueFacts], [QueueConcurrency], [SignalInbox]:
    db/repositories/signal_repository.py, services/recovery.py.  [Worker],
    [WorkerFacts]: services/worker_pool.py.  [RedZoneRelease]:
    services/red_zone_release.py.  [TradingPause]: services/trading_pause.py.
    [RejectReasons]: services/account_reject_reason.py.

    Ledgers.  [Positions]: db/repositories/position_repository.py and
    services/model_blue/db_trade_book.py.  [OrderLedger]: order, basket and
    event repositories.  [Persistence]: services/model_blue/persistence.py.
    [TradeExecutions]: broker/ibkr/executions.py, the trade execution
    repository, services/trade_book_sync_service.py.

    Desk, exits and repair.  [ManualLedger], [ManualLedgerFacts]:
    db/repositories/manual_repository.py.  [ManualCallbacks]:
    services/manual_callbacks.py, manual_recovery.py.  [ManualTrading]:
    services/manual_trading.py.  [KillSwitch], [ManualFlatten],
    [EngineFlatten], [AccountFlatten]: services/kill_switch.py, with
    flatten_inflight.py and position_close_service.py in [EngineFlatten].
    [ManualRuns]: all of the desk together.  [RiskExit]:
    services/risk_exit_rules.py.  [RiskMonitor]:
    services/risk_exit_monitor.py.  [LivePnl]: services/pnl.py.
    [CriticalRecovery]: services/critical_recovery.py,
    broker_flatten_service.py.  [Reconcile], [ReconcileFacts]:
    services/position_reconciler.py.  [BrokerAlign]:
    services/broker_align_service.py, reconcile_service.py.  [Settings]:
    accounts/config_service.py.  [LossThreshold]:
    services/loss_threshold_monitor.py.  [Watchdog], [WatchdogDaemon],
    [SafetyGates], [Notices]: services/watchdog/.

    ** What is proved

    Nothing is ordered without clearance, and never twice: the order flow
    reaches the broker only past every gate and with the claim taken
    ([OrderFlow]); claims are granted once ([Claims]); at most one job of a
    trade is under a lease under any interleaving of READ COMMITTED
    transactions ([QueueConcurrency]); a worker's writes are fenced and an
    execution that returns leaves a verdict ([WorkerFacts]); the manual desk
    places each order once and counts each execution once over all runs of
    operators, callbacks, restarts and flattens ([ManualRuns]).

    A basket's outcome says what happened: for every behaviour of the broker
    the execution returns while the database accepts writes, and the status
    it leaves tells what was filled, reversed or latched ([Baskets]); the
    adapter implements the interface that this is proved against
    ([AdapterFacts.adapter_lawful]), orders at rest stay at rest, fills are
    counted and announced once ([Fills], [Announcements]).

    The risk engine is sound: a PASS means that every limit holds for the
    intent as submitted, a CLOSE is never blocked ([Engine]); sizes respect
    the budget ([Sizer]); executions that share a bucket exclude each other
    and never deadlock ([ExposureLocks]); the buckets rebuilt from the ledger
    are the ledger ([RuntimeState]).

    The ledgers hold: states of positions only advance, columns keep their
    types, what was opened is closed with its legs reversed, once
    ([Positions], [Strategy], [Persistence]); terminal orders are final
    ([OrderLedger]); the manual books balance up to the columns' rounding
    ([ManualLedgerFacts]).

    Emergencies: an armed account stays blocked until an operator clears it
    ([KillSwitch]); flattens close rows on evidence only and end COMPLETE
    exactly when nothing is open ([EngineFlatten], [ManualFlatten],
    [AccountFlatten]); what the answer of a pair close says is what it did
    ([EngineFlatten.pair_close_answers]); the monitor exits only what the rules
    call for, with bounded attempts ([RiskMonitor]); the latch of a basket
    opens on a flat snapshot only ([CriticalRecovery]); a reconcile sweep
    reports exactly the differences ([ReconcileFacts]), and an alignment
    removes the difference it was asked to ([BrokerAlign]); profits that are
    shown are those at the current marks ([LivePnl]); the rate limiter's
    grants are bounded ([RateLimiter]), a service that stays down is
    escalated ([WatchdogDaemon]), and the watchdog's flag says whether trading
    may be called ready, by conditions that are listed
    ([SafetyGates.trading_blocked_exact]); its notices leave in the order of
    their class, and each one that is not sent is counted ([Notices]).

    Configuration: whatever operators do, stored rows keep their ranges and
    keys, and the enabled allocations of an account fit its capital
    ([Settings]); a loss is told once for each crossing of its threshold
    ([LossThreshold]).

    Several theorems name the condition without which the code does not keep
    its promise; examples next to them evaluate the code where it does not.

    ** Conventions, bounds and fuel

    Decimals are rationals rounded to 28 digits after every operation
    ([rnd 10 28]), floats rationals rounded to 53 bits ([rnd 2 53]); sums of
    floats follow the compensated summation of CPython 3.12; numeric columns
    round half away from zero and overflow as the database does.  Infinities
    and exponent ranges are left out, and prices of orders are finite.
    Strings are ASCII.  Instants are microseconds, monotonic clocks rationals.

    Recursion without a structural argument has fuel, taken from the bound of
    the loop in the source: the retries of a basket have [max_retries] rounds; the search
    for a trading day looks at 15 days, as the code does; the claiming loop
    has as much fuel as its limit and the jobs there are; scanners of texts
    have the length of the text.  The passes of the limiter's waiting loop
    and the polls of a run are given by the run itself.

    What lies outside is a parameter, or an arbitrary machine where it may
    act at any time: the exchange calendar and the time zone, the hash of
    advisory locks, texts of UUIDs and prices, the order in which a set of
    Python is iterated, the answers of the broker, the database and the
    clocks, and what other sessions commit between two transactions
    ([Environment], [Outside], [Surroundings], [PoolSurroundings], [Weather]).
    In [EngineFlatten] and [CriticalRecovery] the answers of the coordinator
    are given, since [Baskets] says what they can be; in [RiskMonitor] the
    close service and the live profits are.

    A callback or transaction is one step, except where its interleaving is
    the subject ([QueueConcurrency], [ExposureLocks], [RateLimiter],
    [LivePnl], [Adapter]).  The accounts of a fan-out and the positions of a
    flatten are run one after the other where the code gathers them.

    ** Not modelled

    Log lines, notifications and the texts they build; time stamps that are
    only shown; the HTTP routes and their schemas, authentication, the
    tables' definitions and migrations beyond the constraints the operations
    rely on; screens' queries and paged listings; the loops that only sleep
    and call a modelled cycle; the tables of running tasks by which a second
    request awaits the first; opening and closing sockets; the watchdog's
    probes and Telegram commands, the system monitor, the margin
    scanner and the instance credit, which read and display; the demo, the
    scripts, the prototype and the front end, which are not part of the
    trading core. *)

From Stdlib Require Export ZArith QArith Qabs Qround Qpower Ascii Lia Lqa.
From stdpp Require Export base gmap sets list strings.

#[global] Open Scope Z_scope.

(** ** Boolean comparisons on rationals

    Python's [Decimal] and [float] comparisons return booleans; these are the
    decision procedures they translate to, with their reflection lemmas. *)
Definition Qltb (x y : Q) : bool := negb (Qle_bool y x).

Create HintDb decimal.

Declare Scope py_scope.
Delimit Scope py_scope with py.
Notation "x <=? y" := (Qle_bool x y) : Q_scope.
Notation "x <? y" := (Qltb x y) : Q_scope.

Lemma Qleb_spec (x y : Q) : reflect (x <= y)%Q (x <=? y)%Q.
Proof.
  destruct (Qle_bool x y) eqn:E; constructor.
  - by apply Qle_bool_iff.
  - intros H%Qle_bool_iff. congruence.
Qed.

Lemma Qltb_spec (x y : Q) : reflect (x < y)%Q (x <? y)%Q.
Proof.
  unfold Qltb. destruct (Qleb_spec y x); constructor; lra.
Qed.

Lemma Qleb_true (x y : Q) : (x <=? y)%Q = true <-> (x <= y)%Q.
Proof. apply Qle_bool_iff. Qed.

Lemma Qleb_false (x y : Q) : (x <=? y)%Q = false <-> (y < x)%Q.
Proof. destruct (Qleb_spec x y); split; intros; try done; lra. Qed.

Lemma Qltb_true (x y : Q) : (x <? y)%Q = true <-> (x < y)%Q.
Proof. destruct (Qltb_spec x y); split; intros; try done; lra. Qed.

Lemma Qltb_false (x y : Q) : (x <? y)%Q = false <-> (y <= x)%Q.
Proof. destruct (Qltb_spec x y); split; intros; try done; lra. Qed.

#[global] Instance Qle_bool_proper : Proper (Qeq ==> Qeq ==> eq) Qle_bool.
Proof.
  intros x x' Hx y y' Hy.
  destruct (Qleb_spec x y), (Qleb_spec x' y'); try done; lra.
Qed.

#[global] Instance Qltb_proper : Proper (Qeq ==> Qeq ==> eq) Qltb.
Proof. intros x x' Hx y y' Hy. unfold Qltb. by rewrite Hx, Hy. Qed.

(** [Decimal] and [float] built-ins [max], [min]: Python returns the first
    argument unless the second one is strictly greater (smaller). *)
Definition Qmaxb (x y : Q) : Q := if (x <? y)%Q then y else x.
Definition Qminb (x y : Q) : Q := if (y <? x)%Q then y else x.

(** Turns every boolean comparison among the hypotheses into the
    inequality it decides. *)
Ltac bool_to_prop :=
  repeat match goal with
  | H : (_ <=? _)%Q = true |- _ => apply Qleb_true in H
  | H : (_ <=? _)%Q = false |- _ => apply Qleb_false in H
  | H : (_ <? _)%Q = true |- _ => apply Qltb_true in H
  | H : (_ <? _)%Q = false |- _ => apply Qltb_false in H
  | H : (_ <=? _)%Z = true |- _ => apply Z.leb_le in H
  | H : (_ <=? _)%Z = false |- _ => apply Z.leb_gt in H
  | H : (_ <? _)%Z = true |- _ => apply Z.ltb_lt in H
  | H : (_ <? _)%Z = false |- _ => apply Z.ltb_ge in H
  | H : (_ =? _)%Z = true |- _ => apply Z.eqb_eq in H
  | H : (_ =? _)%Z = false |- _ => apply Z.eqb_neq in H
  | H : (_ =? _)%string = true |- _ => apply String.eqb_eq in H
  | H : (_ =? _)%string = false |- _ => apply String.eqb_neq in H
  | H : bool_decide _ = true |- _ => apply bool_decide_eq_true in H
  | H : bool_decide _ = false |- _ => apply bool_decide_eq_false in H
  | H : andb _ _ = true |- _ => apply andb_true_iff in H; destruct H
  | H : orb _ _ = false |- _ => apply orb_false_iff in H; destruct H
  | H : negb _ = true |- _ => apply negb_true_iff in H
  | H : negb _ = false |- _ => apply negb_false_iff in H
  end.

Lemma Qmaxb_spec (x y : Q) : (x <= Qmaxb x y /\ y <= Qmaxb x y)%Q.
Proof. unfold Qmaxb. destruct (x <? y)%Q eqn:E; bool_to_prop; split; lra. Qed.

Lemma Qminb_spec (x y : Q) : (Qminb x y <= x /\ Qminb x y <= y)%Q.
Proof. unfold Qminb. destruct (y <? x)%Q eqn:E; bool_to_prop; split; lra. Qed.

Lemma Qminb_glb (x y z : Q) : (z <= x -> z <= y -> z <= Qminb x y)%Q.
Proof. unfold Qminb. by destruct (y <? x)%Q. Qed.

Lemma Qmaxb_lub (x y z : Q) : (x <= z -> y <= z -> Qmaxb x y <= z)%Q.
Proof. unfold Qmaxb. by destruct (x <? y)%Q. Qed.

(** ** Python exceptions and the error monad

    A method that can raise returns a [result]; [Raise] carries the exception
    class and the code its message starts with. *)
Inductive exn : Type :=
  | ModelBlueValidationError (code : string)
  | InvalidOperation
  | DivisionByZero
  | ValueError (msg : string)
  | TypeError
  | KeyError (key : string)
  | IndexError
  | AttributeError
  | OverflowError
  | TimeoutError
  | InstrumentResolutionError (code : string)
  | OtherError (msg : string).

#[global] Instance exn_eq_dec : EqDecision exn.
Proof. solve_decision. Defined.

Inductive result (A : Type) : Type :=
  | Ok (a : A)
  | Raise (e : exn).
Arguments Ok {A} a.
Arguments Raise {A} e.

Definition rbind {A B} (m : result A) (k : A -> result B) : result B :=
  match m with Ok a => k a | Raise e => Raise e end.

Notation "'let!' x ':=' m 'in' k" := (rbind m (fun x => k))
  (at level 10, x pattern, m at level 100, k at level 200) : py_scope.

Definition is_ok {A} (m : result A) : bool :=
  match m with Ok _ => true | Raise _ => false end.

Lemma rbind_ok {A B} (m : result A) (k : A -> result B) (b : B) :
  rbind m k = Ok b <-> exists a, m = Ok a /\ k a = Ok b.
Proof.
  destruct m; simpl; split; [by eauto | by intros (a' & [= <-] & ?) | done
  | by intros (a' & [=] & ?)].
Qed.

Lemma rbind_raise {A B} (m : result A) (k : A -> result B) (e : exn) :
  rbind m k = Raise e <->
  m = Raise e \/ exists a, m = Ok a /\ k a = Raise e.
Proof.
  destruct m; simpl; split; [by eauto | by intros [[=]|(a' & [= <-] & ?)]
  | by intros [= <-]; left | by intros [[= <-]|(a' & [=] & ?)]].
Qed.

(** [for x in l: ...append(f(x))] where the body may raise: the first
    exception leaves the loop. *)
Fixpoint mapR {A B} (f : A -> result B) (l : list A) : result (list B) :=
  match l with
  | [] => Ok []
  | x :: l' => rbind (f x) (fun y => rbind (mapR f l') (fun ys => Ok (y :: ys)))
  end.

Lemma mapR_ok {A B} (f : A -> result B) (l : list A) (ys : list B) :
  mapR f l = Ok ys <-> Forall2 (fun x y => f x = Ok y) l ys.
Proof.
  revert ys. induction l as [|x l IH]; intros ys; simpl.
  - split; [intros [= <-]; constructor | by inversion 1].
  - rewrite rbind_ok. split.
    + intros (y & Hy & H). apply rbind_ok in H as (ys' & H & [= <-]).
      constructor; [done | by apply IH].
    + inversion 1 as [|? y ? ys' Hy H']; subst.
      exists y. split; [done|]. apply IH in H'. by rewrite H'.
Qed.

(** [enumerate(l, start=i)]. *)
Fixpoint enumerate_from {A} (i : Z) (l : list A) : list (Z * A) :=
  match l with [] => [] | x :: l' => (i, x) :: enumerate_from (i + 1) l' end.
Definition enumerate {A} (l : list A) : list (Z * A) := enumerate_from 0 l.
Lemma elem_enumerate_from {A} (i : Z) (l : list A) (x : A) :
  x ∈ l -> exists j, (j, x) ∈ enumerate_from i l.
Proof.
  revert i. induction l as [|y l IH]; intros i; [by intros ?%not_elem_of_nil|]. simpl.
  intros [->|H]%elem_of_cons; [exists i; by left|].
  destruct (IH (i + 1) H) as [j J]. exists j. by right.
Qed.
Lemma elem_enumerate {A} (l : list A) (x : A) : x ∈ l -> exists j, (j, x) ∈ enumerate l.
Proof. apply elem_enumerate_from. Qed.

(** ** State and exceptions

    An operation on a shared state that may raise: the state it leaves is kept
    when it raises, as the program's objects are. *)
Definition St (S A : Type) : Type := S -> S * result A.

Section StateMonad.
Context {S : Type}.

Definition ret {A} (a : A) : St S A := fun w => (w, Ok a).
Definition raise {A} (e : exn) : St S A := fun w => (w, Raise e).
Definition bind {A B} (m : St S A) (k : A -> St S B) : St S B := fun w =>
  match m w with (w, Ok a) => k a w | (w, Raise e) => (w, Raise e) end.
Definition get {A} (f : S -> A) : St S A := fun w => (w, Ok (f w)).
Definition modify (f : S -> S) : St S unit := fun w => (f w, Ok tt).
Definition lift {A} (r : result A) : St S A := fun w => (w, r).
(** [try: m except Exception as e: h]. *)
Definition catch {A} (m : St S A) (h : exn -> St S A) : St S A := fun w =>
  match m w with (w, Ok a) => (w, Ok a) | (w, Raise e) => h e w end.

(** A [for] loop that threads a value. *)
Fixpoint loop {A B} (body : B -> A -> St S B) (l : list A) (s : B) : St S B :=
  match l with
  | [] => ret s
  | x :: l => bind (body s x) (loop body l)
  end.

(** Stepping through a run. *)
Lemma bind_run {A B} (m : St S A) (k : A -> St S B) w :
  bind m k w = match m w with (w1, Ok a) => k a w1 | (w1, Raise e) => (w1, Raise e) end.
Proof. done. Qed.
Lemma ran_ok {A B} (m : St S A) (k : A -> St S B) w w' b :
  bind m k w = (w', Ok b) -> exists w1 a, m w = (w1, Ok a) /\ k a w1 = (w', Ok b).
Proof. unfold bind. destruct (m w) as [w1 [a|e]]; [eauto|done]. Qed.
End StateMonad.

Notation "'do!' x ':=' m 'in' k" := (bind m (fun x => k))
  (at level 10, x pattern, m at level 100, k at level 200) : py_scope.
Notation "m ;;; k" := (bind m (fun _ => k)) (at level 100, right associativity) : py_scope.

(** ** Lists and the values of a map *)
Lemma filter_elem {A} (p : A -> bool) (l : list A) (x : A) :
  x ∈ List.filter p l <-> x ∈ l /\ p x = true.
Proof. rewrite !list_elem_of_In. apply filter_In. Qed.

Lemma filter_perm {A} (p : A -> bool) (l k : list A) : l ≡ₚ k -> List.filter p l ≡ₚ List.filter p k.
Proof.
  induction 1 as [|x l k _ IH|x y l|l k j _ IH1 _ IH2]; simpl; [done| | |by etrans].
  - destruct (p x); [by constructor|done].
  - destruct (p x), (p y); try done. by constructor.
Qed.

Section Values.
Context `{Countable K} {A : Type}.
Implicit Types (m : gmap K A) (p : A -> bool).

Lemma values_elem m (x : A) : x ∈ map snd (map_to_list m) <-> exists i, m !! i = Some x.
Proof.
  split.
  - intros E. apply list_elem_of_fmap in E as ([i y] & -> & E). exists i.
    by apply elem_of_map_to_list in E.
  - intros [i E]. apply list_elem_of_fmap. exists (i, x). split; [done|].
    by apply elem_of_map_to_list.
Qed.

(** Rows that can only be found under one key. *)
Lemma filter_values_at m p (k : K) :
  (forall i x, m !! i = Some x -> p x = true -> i = k) ->
  List.filter p (map snd (map_to_list m))
  = match m !! k with Some x => if p x then [x] else [] | None => [] end.
Proof.
  intros U.
  assert (N : forall m', (forall x i, m' !! i = Some x -> p x = false) ->
    List.filter p (map snd (map_to_list m')) = []).
  { intros m' F. destruct (List.filter _ _) as [|x l] eqn:E; [done|].
    assert (X : x ∈ x :: l) by (by left). rewrite <- E in X. apply filter_elem in X as [X P].
    apply values_elem in X as [i X]. rewrite (F x i X) in P. done. }
  destruct (m !! k) as [x|] eqn:E.
  - pose proof (map_to_list_delete m k x E) as P. symmetry in P.
    apply (Permutation_map snd), (filter_perm p) in P. simpl in P.
    rewrite (N (delete k m)) in P.
    + destruct (p x); [by apply Permutation_singleton_r in P|by apply Permutation_nil_r in P].
    + intros y i Y. apply lookup_delete_Some in Y as [Ne Y]. destruct (p y) eqn:Py; [|done].
      destruct Ne. by rewrite (U i y Y Py).
  - apply N. intros y i Y. destruct (p y) eqn:Py; [|done].
    rewrite (U i y Y Py) in Y. congruence.
Qed.
End Values.

(** ** Python strings

    Strings are ASCII strings; [strip], [lower], [upper] are the ASCII
    restrictions of the [str] methods of those names. *)
Definition is_space (c : Ascii.ascii) : bool :=
  let n := Ascii.N_of_ascii c in
  ((9 <=? n)%N && (n <=? 13)%N) || (n =? 32)%N
  || ((28 <=? n)%N && (n <=? 31)%N).

Definition lower_char (c : Ascii.ascii) : Ascii.ascii :=
  let n := Ascii.N_of_ascii c in
  if ((65 <=? n)%N && (n <=? 90)%N) then Ascii.ascii_of_N (n + 32) else c.

Definition upper_char (c : Ascii.ascii) : Ascii.ascii :=
  let n := Ascii.N_of_ascii c in
  if ((97 <=? n)%N && (n <=? 122)%N) then Ascii.ascii_of_N (n - 32) else c.

Fixpoint str_map (f : Ascii.ascii -> Ascii.ascii) (s : string) : string :=
  match s with
  | EmptyString => EmptyString
  | String c s' => String (f c) (str_map f s')
  end.

Definition str_lower : string -> string := str_map lower_char.
Definition str_upper : string -> string := str_map upper_char.

Fixpoint lstrip (s : string) : string :=
  match s with
  | String c s' => if is_space c then lstrip s' else s
  | EmptyString => EmptyString
  end.

(** Drops the trailing white space: a white character is kept only when
    something other than white space follows it. *)
Fixpoint rstrip (s : string) : string :=
  match s with
  | EmptyString => EmptyString
  | String c s' =>
      match rstrip s' with
      | EmptyString => if is_space c then EmptyString else String c EmptyString
      | r => String c r
      end
  end.

Definition str_strip (s : string) : string := rstrip (lstrip s).

Definition str_empty (s : string) : bool :=
  match s with EmptyString => true | _ => false end.

(** [s or d] for a string operand. *)
Definition str_or (s d : string) : string := if str_empty s then d else s.

(** [o or EMPTY] for an optional string operand, EMPTY the empty string. *)
Definition opt_str (o : option string) : string := default EmptyString o.

(** [a in b] for strings. *)
Definition str_in (a b : string) : bool := bool_decide (is_Some (String.index 0 a b)).

(** [s.endswith(suffix)]. *)
Definition str_ends_with (suffix s : string) : bool :=
  (String.length suffix <=? String.length s)%nat
  && String.eqb (String.substring (String.length s - String.length suffix)
                   (String.length suffix) s) suffix.
