(* ===== verification/Rounding.v ===== *)
(** * Rounding: Python's [Decimal] context and binary64 floats

    [rnd b p q] rounds the rational [q] to [p] significant digits in base [b],
    ties to even.  [rnd 10 28] is the default context of Python's [decimal]
    module (precision 28, ROUND_HALF_EVEN) and [rnd 2 53] is binary64
    arithmetic.  Exponent ranges are not modelled: amounts of money and share
    counts stay far from the limits 10^999999 and 2^1024. *)

From S2P Require Import Prelude.

#[local] Open Scope Q_scope.

(** ** Rounding a rational to an integer *)

(** ROUND_HALF_EVEN. *)
Definition half_even (q : Q) : Z :=
  let f := Qfloor q in
  match Qcompare (q - inject_Z f) (1 # 2) with
  | Lt => f
  | Gt => (f + 1)%Z
  | Eq => if Z.even f then f else (f + 1)%Z
  end.

(** ROUND_DOWN: towards zero. *)
Definition round_down (q : Q) : Z :=
  if 0 <=? q then Qfloor q else (- Qfloor (- q))%Z.

(** ROUND_HALF_UP: ties away from zero. *)
Definition round_half_up (q : Q) : Z :=
  if 0 <=? q then Qfloor (q + (1 # 2)) else (- Qfloor (- q + (1 # 2)))%Z.

#[global] Instance half_even_proper : Proper (Qeq ==> eq) half_even.
Proof.
  intros x y H. unfold half_even. rewrite (Qfloor_comp _ _ H).
  by setoid_rewrite H.
Qed.

Lemma Qfloor_bounds (q : Q) : inject_Z (Qfloor q) <= q < inject_Z (Qfloor q) + 1.
Proof.
  split; [apply Qfloor_le|]. pose proof (Qlt_floor q) as H.
  rewrite inject_Z_plus in H. exact H.
Qed.

Lemma half_even_err (q : Q) :
  inject_Z (half_even q) - (1 # 2) <= q <= inject_Z (half_even q) + (1 # 2).
Proof.
  pose proof (Qfloor_bounds q). unfold half_even.
  destruct (Qcompare_spec (q - inject_Z (Qfloor q)) (1 # 2));
    [destruct (Z.even _)| |]; rewrite ?inject_Z_plus; change (inject_Z 1) with 1; lra.
Qed.

Lemma half_even_tie (q : Q) :
  q == inject_Z (half_even q) + (1 # 2) \/ q == inject_Z (half_even q) - (1 # 2) ->
  Z.even (half_even q) = true.
Proof.
  pose proof (Qfloor_bounds q). unfold half_even.
  destruct (Qcompare_spec (q - inject_Z (Qfloor q)) (1 # 2)).
  - destruct (Z.even (Qfloor q)) eqn:E; [done|]. intros _.
    by rewrite Z.even_add, E.
  - intros [?|?]; lra.
  - rewrite inject_Z_plus. change (inject_Z 1) with 1. intros [?|?]; lra.
Qed.

Lemma inject_Z_lt_succ (a b : Z) : inject_Z a < inject_Z b -> inject_Z a + 1 <= inject_Z b.
Proof.
  rewrite <- Zlt_Qlt. intros H. change 1 with (inject_Z 1).
  rewrite <- inject_Z_plus, <- Zle_Qle. lia.
Qed.

Lemma half_even_mono (x y : Q) : x <= y -> (half_even x <= half_even y)%Z.
Proof.
  intros Hxy. pose proof (half_even_err x). pose proof (half_even_err y).
  destruct (Z_le_gt_dec (half_even x) (half_even y)) as [|Hgt]; [done|exfalso].
  assert (Hlt : inject_Z (half_even y) < inject_Z (half_even x)).
  { rewrite <- Zlt_Qlt. lia. }
  pose proof (inject_Z_lt_succ _ _ Hlt) as Hs.
  assert (Hx : Z.even (half_even x) = true) by (apply half_even_tie; right; lra).
  assert (Hy : Z.even (half_even y) = true) by (apply half_even_tie; left; lra).
  assert (E : inject_Z (half_even x) == inject_Z (half_even y + 1)).
  { rewrite inject_Z_plus. change (inject_Z 1) with 1. lra. }
  apply (proj1 (inject_Z_injective _ _)) in E. rewrite E, Z.even_add, Hy in Hx. done.
Qed.

Lemma half_even_int (z : Z) : half_even (inject_Z z) = z.
Proof.
  unfold half_even. rewrite Qfloor_Z.
  destruct (Qcompare_spec (inject_Z z - inject_Z z) (1 # 2)); [lra|done|lra].
Qed.

Lemma half_even_opp (q : Q) : half_even (- q) = (- half_even q)%Z.
Proof.
  pose proof (half_even_err q) as Hq. pose proof (half_even_err (- q)) as Hn.
  assert (Ho : inject_Z (- half_even q) == - inject_Z (half_even q)) by (rewrite inject_Z_opp; reflexivity).
  destruct (Z.lt_trichotomy (half_even (- q)) (- half_even q)) as [H|[H|H]]; [|done|];
    exfalso; rewrite Zlt_Qlt in H; pose proof (inject_Z_lt_succ _ _ H) as Hs.
  - assert (H1 : Z.even (half_even q) = true) by (apply half_even_tie; left; lra).
    assert (H2 : Z.even (half_even (- q)) = true) by (apply half_even_tie; left; lra).
    assert (E : inject_Z (- half_even q) == inject_Z (half_even (- q) + 1)).
    { rewrite inject_Z_plus. change (inject_Z 1) with 1. lra. }
    apply (proj1 (inject_Z_injective _ _)) in E.
    by rewrite <- Z.even_opp, E, Z.even_add, H2 in H1.
  - assert (H1 : Z.even (half_even q) = true) by (apply half_even_tie; right; lra).
    assert (H2 : Z.even (half_even (- q)) = true) by (apply half_even_tie; right; lra).
    assert (E : inject_Z (half_even (- q)) == inject_Z (- half_even q + 1)).
    { rewrite inject_Z_plus. change (inject_Z 1) with 1. lra. }
    apply (proj1 (inject_Z_injective _ _)) in E.
    by rewrite E, Z.even_add, Z.even_opp, H1 in H2.
Qed.

Lemma round_down_nonneg (q : Q) :
  0 <= q -> inject_Z (round_down q) <= q < inject_Z (round_down q) + 1.
Proof.
  intros H. unfold round_down. destruct (Qleb_spec 0 q); [|lra]. apply Qfloor_bounds.
Qed.

#[global] Instance round_down_proper : Proper (Qeq ==> eq) round_down.
Proof.
  intros x y H. unfold round_down. rewrite H.
  destruct (0 <=? y); [by apply Qfloor_comp|]. f_equal. apply Qfloor_comp. lra.
Qed.

(** ** The number of digits of a positive integer in base [b] *)
Section Base.
Variable b : Z.
Hypothesis b_ge_2 : (2 <= b)%Z.

Fixpoint digits_fuel (fuel : nat) (n : Z) : Z :=
  match fuel with
  | O => 0
  | S fuel' => if (n <=? 0)%Z then 0 else 1 + digits_fuel fuel' (n / b)
  end.

(** [Z.log2 n + 1] divisions by [b >= 2] bring [n] to zero. *)
Definition digits (n : Z) : Z := digits_fuel (Z.to_nat (Z.log2 n + 1)) n.

Lemma digits_fuel_spec (fuel : nat) (n : Z) :
  (0 < n < 2 ^ Z.of_nat fuel)%Z ->
  (1 <= digits_fuel fuel n /\
   b ^ (digits_fuel fuel n - 1) <= n < b ^ digits_fuel fuel n)%Z.
Proof.
  revert n. induction fuel as [|fuel IH]; intros n [H0 Hn]; [simpl in Hn; lia|].
  cbn [digits_fuel]. destruct (Z.leb_spec n 0); [lia|].
  assert (Hdm : (n = b * (n / b) + n mod b)%Z) by (apply Z.div_mod; lia).
  pose proof (Z.mod_pos_bound n b ltac:(lia)).
  destruct (Z.le_gt_cases (n / b) 0) as [Hz|Hz].
  - assert (E : (n / b = 0)%Z) by nia. rewrite E.
    assert (F : digits_fuel fuel 0 = 0%Z) by (by destruct fuel).
    rewrite F. rewrite Z.pow_1_r. simpl. lia.
  - assert (Hp : (n / b < 2 ^ Z.of_nat fuel)%Z).
    { rewrite Nat2Z.inj_succ, Z.pow_succ_r in Hn by lia.
      apply Z.div_lt_upper_bound; [lia|]. nia. }
    destruct (IH _ (conj Hz Hp)) as [Hd [Hlo Hhi]].
    set (d := digits_fuel fuel (n / b)) in *.
    replace (1 + d - 1)%Z with (Z.succ (d - 1)) by lia.
    replace (1 + d)%Z with (Z.succ d) by lia.
    rewrite !Z.pow_succ_r by lia. nia.
Qed.

Lemma digits_spec (n : Z) :
  (0 < n)%Z -> (1 <= digits n /\ b ^ (digits n - 1) <= n < b ^ digits n)%Z.
Proof.
  intros Hn. apply digits_fuel_spec. split; [done|].
  pose proof (Z.log2_nonneg n).
  rewrite Z2Nat.id by lia. rewrite Z.add_1_r. by apply Z.log2_spec.
Qed.

(** ** Powers of the base *)
Definition pw (e : Z) : Q := Qpower (inject_Z b) e.

Lemma inject_b_gt_1 : 1 < inject_Z b.
Proof. change 1 with (inject_Z 1). rewrite <- Zlt_Qlt. lia. Qed.

Lemma pw_pos (e : Z) : 0 < pw e.
Proof. apply Qpower_0_lt. pose proof inject_b_gt_1. lra. Qed.

Lemma pw_plus (e f : Z) : pw (e + f) == pw e * pw f.
Proof. apply Qpower_plus. pose proof inject_b_gt_1. lra. Qed.

Lemma pw_opp_l (e : Z) : pw (- e) * pw e == 1.
Proof. rewrite <- pw_plus. by rewrite Z.add_opp_diag_l. Qed.

Lemma pw_le (e f : Z) : (e <= f)%Z -> pw e <= pw f.
Proof.
  intros. apply Qpower_le_compat_l; [done|]. pose proof inject_b_gt_1. lra.
Qed.

Lemma pw_lt_inv (e f : Z) : pw e < pw f -> (e < f)%Z.
Proof. intros H. eapply Qpower_lt_compat_l_inv; [exact H|apply inject_b_gt_1]. Qed.

Lemma pw_nonneg_int (e : Z) : (0 <= e)%Z -> pw e == inject_Z (b ^ e).
Proof. intros. unfold pw. by rewrite Zpower_Qpower by done. Qed.

(** Scaling by a power of the base is an order isomorphism. *)
Lemma scale_le (e : Z) (x y : Q) : x <= y <-> x * pw e <= y * pw e.
Proof. pose proof (pw_pos e). split; intros; [nra|]. nra. Qed.

Lemma scale_back (e : Z) (x : Q) : x * pw (- e) * pw e == x.
Proof. rewrite <- Qmult_assoc, pw_opp_l. lra. Qed.

(** ** Magnitude: [pw (mag q - 1) <= |q| < pw (mag q)] *)
Definition mag (q : Q) : Z :=
  let n := Z.abs (Qnum q) in
  let d := Z.pos (Qden q) in
  let k := (digits n - digits d)%Z in
  if (Qabs q <? pw k) then k else (k + 1)%Z.

Lemma Qabs_num_den (q : Q) :
  Qabs q * inject_Z (Z.pos (Qden q)) == inject_Z (Z.abs (Qnum q)).
Proof. destruct q as [n d]. unfold Qeq. simpl. lia. Qed.

Lemma digits_pw (n : Z) :
  (0 < n)%Z -> pw (digits n - 1) <= inject_Z n < pw (digits n).
Proof.
  intros Hn. destruct (digits_spec n Hn) as (H1 & Hlo & Hhi).
  rewrite !pw_nonneg_int by lia. by rewrite <- Zle_Qle, <- Zlt_Qlt.
Qed.

Lemma mag_spec (q : Q) : ~ q == 0 -> pw (mag q - 1) <= Qabs q < pw (mag q).
Proof.
  intros Hq. assert (Hn : (0 < Z.abs (Qnum q))%Z).
  { destruct q as [n d]. unfold Qeq in Hq. simpl in *. lia. }
  destruct (digits_pw _ Hn) as [Hn1 Hn2].
  destruct (digits_pw (Z.pos (Qden q)) ltac:(lia)) as [Hd1 Hd2].
  pose proof (Qabs_num_den q) as Hnd. unfold mag.
  set (kn := digits (Z.abs (Qnum q))) in *. set (kd := digits (Z.pos (Qden q))) in *.
  assert (En : pw kn == pw (kn - kd) * pw kd) by (rewrite <- pw_plus; f_equiv; lia).
  assert (En1 : pw (kn - 1) == pw (kn - kd - 1) * pw kd)
    by (rewrite <- pw_plus; f_equiv; lia).
  assert (Ek : pw (kn - kd + 1) == pw (kn - kd) * pw 1) by (by rewrite <- pw_plus).
  assert (Ed : pw kd == pw (kd - 1) * pw 1) by (rewrite <- pw_plus; f_equiv; lia).
  pose proof (pw_pos kd). pose proof (pw_pos (kd - 1)). pose proof (pw_pos (kn - kd)).
  pose proof (pw_pos 1). pose proof (Qabs_nonneg q).
  destruct (Qltb_spec (Qabs q) (pw (kn - kd))) as [Hlt|Hge].
  - split; [|done]. rewrite En1 in Hn1. rewrite <- Hnd in Hn1.
    pose proof (pw_pos (kn - kd - 1)). nra.
  - replace (kn - kd + 1 - 1)%Z with (kn - kd)%Z by lia. split; [lra|].
    rewrite Ek. rewrite En, Ed in Hn2. nra.
Qed.

(** The magnitude is determined by its defining inequality. *)
Lemma mag_unique (q : Q) (k : Z) :
  pw (k - 1) <= Qabs q -> Qabs q < pw k -> mag q = k.
Proof.
  intros Hlo Hhi. assert (Hq : ~ q == 0).
  { intros E. rewrite E in Hlo. pose proof (pw_pos (k - 1)).
    change (Qabs 0) with 0 in Hlo. lra. }
  destruct (mag_spec q Hq) as [H1 H2].
  assert (mag q - 1 < k)%Z by (apply pw_lt_inv; lra).
  assert (k - 1 < mag q)%Z by (apply pw_lt_inv; lra). lia.
Qed.

Lemma mag_eq (x y : Q) : x == y -> ~ x == 0 -> mag x = mag y.
Proof.
  intros E Hx. destruct (mag_spec x Hx). symmetry. apply mag_unique; by rewrite <- E.
Qed.

Lemma mag_mono (x y : Q) : 0 < x -> x <= y -> (mag x <= mag y)%Z.
Proof.
  intros Hx Hxy. destruct (mag_spec x ltac:(lra)) as [H1 _].
  destruct (mag_spec y ltac:(lra)) as [_ H2].
  rewrite Qabs_pos in H1, H2 by lra.
  enough (mag x - 1 < mag y)%Z by lia. apply pw_lt_inv. lra.
Qed.

Lemma mag_opp (q : Q) : mag (- q) = mag q.
Proof.
  unfold mag. change (Qnum (- q)) with (- Qnum q)%Z. change (Qden (- q)) with (Qden q).
  by rewrite Z.abs_opp, Qabs_opp.
Qed.

(** ** Rounding to [p] significant digits, ties to even *)
Section Precision.
Variable p : Z.
Hypothesis p_ge_1 : (1 <= p)%Z.

Definition rnd (q : Q) : Q :=
  if Qeq_bool q 0 then 0
  else
    let e := (mag q - p)%Z in
    Qred (inject_Z (half_even (q * pw (- e))) * pw e).

(** [q] has a representation with at most [p] digits. *)
Definition representable (q : Q) : Prop :=
  exists z e : Z, (Z.abs z <= b ^ p)%Z /\ q == inject_Z z * pw e.

Lemma rnd_zero (q : Q) : q == 0 -> rnd q = 0.
Proof. intros H. unfold rnd. by rewrite (Qeq_eq_bool _ _ H). Qed.

Lemma rnd_nonzero (q : Q) :
  ~ q == 0 ->
  rnd q == inject_Z (half_even (q * pw (- (mag q - p)))) * pw (mag q - p).
Proof.
  intros H. unfold rnd. destruct (Qeq_bool q 0) eqn:E.
  - by apply Qeq_bool_eq in E.
  - apply Qred_correct.
Qed.

#[local] Instance rnd_proper : Proper (Qeq ==> Qeq) rnd.
Proof.
  intros x y E. destruct (Qeq_dec x 0) as [Hx|Hx].
  - rewrite (rnd_zero x) by done. by rewrite (rnd_zero y) by (by rewrite <- E).
  - rewrite (rnd_nonzero x), (rnd_nonzero y) by (by rewrite <- ?E).
    rewrite (mag_eq x y E Hx). by rewrite E.
Qed.
Lemma rnd_eq (x y : Q) : x == y -> rnd x = rnd y.
Proof.
  intros E. destruct (Qeq_dec x 0) as [Hx|Hx].
  - rewrite (rnd_zero x) by done. by rewrite (rnd_zero y) by (by rewrite <- E).
  - unfold rnd. rewrite (Qeq_bool_comm x), (Qeq_bool_comm y).
    assert (forall z, z == x -> Qeq_bool 0 z = false) as N.
    { intros z Z. destruct (Qeq_bool 0 z) eqn:B; [|done]. apply Qeq_bool_eq in B. destruct Hx. lra. }
    rewrite (N x), (N y) by (done || by symmetry). rewrite (mag_eq x y E Hx).
    apply Qred_complete. apply Qmult_comp; [|reflexivity].
    assert (x * pw (- (mag y - p)) == y * pw (- (mag y - p))) by (by rewrite E).
    apply inject_Z_injective, Z.le_antisymm; apply half_even_mono; lra.
Qed.

Lemma rnd_opp (q : Q) : rnd (- q) == - rnd q.
Proof.
  destruct (Qeq_dec q 0) as [Hq|Hq].
  - rewrite !rnd_zero; [done|done|lra].
  - rewrite !rnd_nonzero by lra. rewrite mag_opp.
    assert (E : - q * pw (- (mag q - p)) == - (q * pw (- (mag q - p)))) by ring.
    rewrite E, half_even_opp, inject_Z_opp. ring.
Qed.

(** The scaled significand of a non-zero rational has exactly [p] digits. *)
Lemma scaled_bounds (q : Q) :
  0 < q -> pw (p - 1) <= q * pw (- (mag q - p)) < pw p.
Proof.
  intros Hq. destruct (mag_spec q ltac:(lra)) as [H1 H2]. rewrite Qabs_pos in H1, H2 by lra.
  assert (E1 : pw (p - 1) == pw (mag q - 1) * pw (- (mag q - p)))
    by (rewrite <- pw_plus; f_equiv; lia).
  assert (E2 : pw p == pw (mag q) * pw (- (mag q - p)))
    by (rewrite <- pw_plus; f_equiv; lia).
  pose proof (pw_pos (- (mag q - p))). rewrite E1, E2. split; nra.
Qed.

Lemma half_even_scaled_bounds (q : Q) :
  0 < q -> (b ^ (p - 1) <= half_even (q * pw (- (mag q - p))) <= b ^ p)%Z.
Proof.
  intros Hq. destruct (scaled_bounds q Hq) as [H1 H2].
  rewrite (pw_nonneg_int (p - 1)) in H1 by lia. rewrite (pw_nonneg_int p) in H2 by lia. split.
  - rewrite <- (half_even_int (b ^ (p - 1))). by apply half_even_mono.
  - rewrite <- (half_even_int (b ^ p)). apply half_even_mono. lra.
Qed.

Lemma rnd_range (q : Q) : 0 < q -> pw (mag q - 1) <= rnd q <= pw (mag q).
Proof.
  intros Hq. rewrite rnd_nonzero by lra.
  destruct (half_even_scaled_bounds q Hq) as [H1 H2].
  rewrite Zle_Qle, <- (pw_nonneg_int (p - 1)) in H1 by lia.
  rewrite Zle_Qle, <- (pw_nonneg_int p) in H2 by lia.
  assert (E1 : pw (mag q - 1) == pw (p - 1) * pw (mag q - p))
    by (rewrite <- pw_plus; f_equiv; lia).
  assert (E2 : pw (mag q) == pw p * pw (mag q - p))
    by (rewrite <- pw_plus; f_equiv; lia).
  rewrite E1, E2. split; by apply scale_le.
Qed.

Lemma rnd_pos (q : Q) : 0 < q -> 0 < rnd q.
Proof.
  intros Hq. destruct (rnd_range q Hq) as [H _]. pose proof (pw_pos (mag q - 1)). lra.
Qed.

Lemma rnd_nonneg (q : Q) : 0 <= q -> 0 <= rnd q.
Proof.
  intros Hq. destruct (Qeq_dec q 0) as [E|E]; [rewrite rnd_zero by done; lra|].
  pose proof (rnd_pos q ltac:(lra)). lra.
Qed.

Lemma rnd_mono_pos (x y : Q) : 0 < x -> x <= y -> rnd x <= rnd y.
Proof.
  intros Hx Hxy. pose proof (mag_mono x y Hx Hxy) as Hm.
  destruct (Z.eq_dec (mag x) (mag y)) as [E|E].
  - rewrite !rnd_nonzero by lra. rewrite E. apply scale_le.
    rewrite <- Zle_Qle. apply half_even_mono. by apply scale_le.
  - destruct (rnd_range x Hx) as [_ H1]. destruct (rnd_range y ltac:(lra)) as [H2 _].
    pose proof (pw_le (mag x) (mag y - 1) ltac:(lia)). lra.
Qed.

Lemma rnd_mono (x y : Q) : x <= y -> rnd x <= rnd y.
Proof.
  intros Hxy. destruct (Qlt_le_dec 0 x) as [Hx|Hx]; [by apply rnd_mono_pos|].
  destruct (Qlt_le_dec y 0) as [Hy|Hy].
  - pose proof (rnd_mono_pos (- y) (- x) ltac:(lra) ltac:(lra)) as H.
    rewrite !rnd_opp in H. lra.
  - pose proof (rnd_nonneg y Hy). pose proof (rnd_nonneg (- x) ltac:(lra)) as H'.
    rewrite rnd_opp in H'. lra.
Qed.

(** ** Exactness *)
Lemma rnd_exact_pos (q : Q) : 0 < q -> representable q -> rnd q == q.
Proof.
  intros Hq (z & e & Hz & Eq).
  assert (Hmag : (mag q <= p + e + 1)%Z).
  { destruct (mag_spec q ltac:(lra)) as [H1 _]. rewrite Qabs_pos in H1 by lra.
    assert (H2 : q <= pw (p + e)).
    { rewrite Eq, pw_plus. apply scale_le. rewrite pw_nonneg_int by lia.
      rewrite <- Zle_Qle. lia. }
    enough (mag q - 1 < p + e + 1)%Z by lia. apply pw_lt_inv.
    pose proof (pw_pos (p + e)).
    assert (E1 : pw (p + e + 1) == pw (p + e) * pw 1) by (by rewrite <- pw_plus).
    assert (E2 : pw 1 == inject_Z b) by (rewrite pw_nonneg_int by lia; by rewrite Z.pow_1_r).
    pose proof inject_b_gt_1. rewrite E1, E2. nra. }
  rewrite rnd_nonzero by lra. set (f := (mag q - p)%Z) in *.
  destruct (Z.le_gt_cases f e) as [Hf|Hf].
  - assert (E : q * pw (- f) == inject_Z (z * b ^ (e - f))).
    { rewrite Eq, <- Qmult_assoc, <- pw_plus, inject_Z_mult.
      rewrite <- (pw_nonneg_int (e - f)) by lia. by rewrite Z.add_opp_r. }
    rewrite E, half_even_int, <- E. apply scale_back.
  - assert (f = e + 1)%Z as Hfe by lia.
    assert (Hz' : z = (b ^ p)%Z).
    { destruct (mag_spec q ltac:(lra)) as [H1 _]. rewrite Qabs_pos in H1 by lra.
      replace (mag q - 1)%Z with (p + e)%Z in H1 by lia.
      rewrite Eq, pw_plus in H1. apply scale_le in H1.
      rewrite pw_nonneg_int in H1 by lia. rewrite <- Zle_Qle in H1. lia. }
    assert (E : q * pw (- f) == inject_Z (b ^ (p - 1))).
    { rewrite Eq, Hz', <- !pw_nonneg_int by lia. rewrite <- !pw_plus. f_equiv. lia. }
    rewrite E, half_even_int, <- E. apply scale_back.
Qed.

Lemma representable_opp (q : Q) : representable q -> representable (- q).
Proof.
  intros (z & e & Hz & E). exists (- z)%Z, e. split; [lia|].
  rewrite E, inject_Z_opp. ring.
Qed.

Lemma rnd_exact (q : Q) : representable q -> rnd q == q.
Proof.
  intros H. destruct (Q_dec q 0) as [[Hq|Hq]|Hq].
  - pose proof (rnd_exact_pos (- q) ltac:(lra) (representable_opp _ H)) as E.
    rewrite rnd_opp in E. lra.
  - by apply rnd_exact_pos.
  - by rewrite rnd_zero.
Qed.

Lemma rnd_representable (q : Q) : representable (rnd q).
Proof.
  assert (Hpos : forall x, 0 < x -> representable (rnd x)).
  { intros x Hx. pose proof (half_even_scaled_bounds x Hx) as Hb.
    pose proof (Z.pow_pos_nonneg b (p - 1) ltac:(lia) ltac:(lia)).
    eexists _, _. split; [|apply rnd_nonzero; lra]. lia. }
  destruct (Q_dec q 0) as [[Hq|Hq]|Hq].
  - destruct (representable_opp _ (Hpos (- q) ltac:(lra))) as (z & e & Hz & E).
    exists z, e. split; [done|]. rewrite <- E, rnd_opp. ring.
  - by apply Hpos.
  - exists 0%Z, 0%Z. split; [pose proof (Z.pow_nonneg b p); lia|].
    rewrite rnd_zero by done. ring.
Qed.

Lemma rnd_idemp (q : Q) : rnd (rnd q) == rnd q.
Proof. apply rnd_exact, rnd_representable. Qed.

(** A rounded value never crosses a representable one. *)
Lemma rnd_le_repr (x y : Q) : representable y -> x <= y -> rnd x <= y.
Proof. intros Hy H. rewrite <- (rnd_exact y Hy). by apply rnd_mono. Qed.

Lemma rnd_ge_repr (x y : Q) : representable y -> y <= x -> y <= rnd x.
Proof. intros Hy H. rewrite <- (rnd_exact y Hy). by apply rnd_mono. Qed.

Lemma representable_int (z : Z) : (Z.abs z <= b ^ p)%Z -> representable (inject_Z z).
Proof. intros H. exists z, 0%Z. split; [done|]. unfold pw. simpl. ring. Qed.

(** ** Relative error *)
Lemma rnd_err_pos (q : Q) :
  0 < q -> Qabs (rnd q - q) <= (1 # 2) * pw (1 - p) * q.
Proof.
  intros Hq. rewrite rnd_nonzero by lra. set (e := (mag q - p)%Z).
  pose proof (half_even_err (q * pw (- e))) as [H1 H2].
  pose proof (scale_back e q) as Es. pose proof (pw_pos e) as He.
  set (m := inject_Z (half_even (q * pw (- e)))) in *.
  assert (Ha : Qabs (m * pw e - q) <= (1 # 2) * pw e).
  { assert (E : m * pw e - q == (m - q * pw (- e)) * pw e) by (rewrite <- Es at 1; ring).
    rewrite E. apply Qabs_Qle_condition. split; nra. }
  eapply Qle_trans; [exact Ha|].
  destruct (mag_spec q ltac:(lra)) as [H3 _]. rewrite Qabs_pos in H3 by lra.
  assert (Ee : pw e == pw (1 - p) * pw (mag q - 1)) by (rewrite <- pw_plus; f_equiv; lia).
  rewrite Ee. pose proof (pw_pos (1 - p)). nra.
Qed.
End Precision.
End Base.

#[export] Existing Instance rnd_proper.

(** ** Python's [Decimal] under the default context *)
Lemma ten_ge_2 : (2 <= 10)%Z. Proof. lia. Qed.
Lemma prec28_ge_1 : (1 <= 28)%Z. Proof. lia. Qed.

Definition ctx : Q -> Q := rnd 10 28.

(** [ctx] is the only thing a client of decimal arithmetic looks at: these are
    the laws it may use. *)
Class Rounds (f : Q -> Q) (repr : Q -> Prop) : Prop := {
  rounds_proper : Proper (Qeq ==> Qeq) f;
  rounds_mono : forall x y, x <= y -> f x <= f y;
  rounds_exact : forall x, repr x -> f x == x;
  rounds_repr : forall x, repr (f x);
  rounds_opp : forall x, f (- x) == - f x;
  rounds_zero : repr 0
}.

Lemma rnd_rounds (b p : Z) : (2 <= b)%Z -> (1 <= p)%Z -> Rounds (rnd b p) (representable b p).
Proof.
  intros Hb Hp. constructor.
  - by apply rnd_proper.
  - intros. by apply rnd_mono.
  - intros. by apply rnd_exact.
  - intros. by apply rnd_representable.
  - intros. by apply rnd_opp.
  - exists 0%Z, 0%Z. split; [pose proof (Z.pow_nonneg b p); lia|ring].
Qed.

Definition dec_repr : Q -> Prop := representable 10 28.
#[export] Instance ctx_rounds : Rounds ctx dec_repr := rnd_rounds 10 28 ten_ge_2 prec28_ge_1.

(** binary64 *)
Lemma two_ge_2 : (2 <= 2)%Z. Proof. lia. Qed.
Lemma prec53_ge_1 : (1 <= 53)%Z. Proof. lia. Qed.
Definition fl : Q -> Q := rnd 2 53.
Definition flt_repr : Q -> Prop := representable 2 53.
#[export] Instance fl_rounds : Rounds fl flt_repr := rnd_rounds 2 53 two_ge_2 prec53_ge_1.

Section RoundsFacts.
Context {f : Q -> Q} {repr : Q -> Prop} {Hf : Rounds f repr}.

#[export] Instance rounds_proper' : Proper (Qeq ==> Qeq) f := rounds_proper.

Lemma rounds_0 : f 0 == 0.
Proof. apply rounds_exact, rounds_zero. Qed.

Lemma rounds_nonneg (x : Q) : 0 <= x -> 0 <= f x.
Proof. intros H. rewrite <- rounds_0. by apply rounds_mono. Qed.

Lemma rounds_nonpos (x : Q) : x <= 0 -> f x <= 0.
Proof. intros H. rewrite <- rounds_0. by apply rounds_mono. Qed.

Lemma rounds_le (x y : Q) : repr y -> x <= y -> f x <= y.
Proof. intros Hy H. rewrite <- (rounds_exact y Hy). by apply rounds_mono. Qed.

Lemma rounds_ge (x y : Q) : repr y -> y <= x -> y <= f x.
Proof. intros Hy H. rewrite <- (rounds_exact y Hy). by apply rounds_mono. Qed.
End RoundsFacts.

(** The operators of [Decimal]: the exact result, rounded once. *)
Definition dadd (x y : Q) : Q := ctx (x + y).
Definition dsub (x y : Q) : Q := ctx (x - y).
Definition dmul (x y : Q) : Q := ctx (x * y).
Definition ddiv (x y : Q) : Q := ctx (x / y).
(** [abs(x)] rounds as every operator does. *)
Definition dabs (x : Q) : Q := ctx (Qabs x).

(** [sum(l, Decimal(0))]. *)
Definition dsum (l : list Q) : Q := fold_left dadd l 0.

(** *** Order properties of the operators *)

#[export] Instance dadd_proper : Proper (Qeq ==> Qeq ==> Qeq) dadd.
Proof. intros x y E u v F. unfold dadd. by rewrite E, F. Qed.
#[export] Instance dsub_proper : Proper (Qeq ==> Qeq ==> Qeq) dsub.
Proof. intros x y E u v F. unfold dsub. by rewrite E, F. Qed.
#[export] Instance dmul_proper : Proper (Qeq ==> Qeq ==> Qeq) dmul.
Proof. intros x y E u v F. unfold dmul. by rewrite E, F. Qed.
#[export] Instance ddiv_proper : Proper (Qeq ==> Qeq ==> Qeq) ddiv.
Proof. intros x y E u v F. unfold ddiv. by rewrite E, F. Qed.
#[export] Instance dabs_proper : Proper (Qeq ==> Qeq) dabs.
Proof. intros x y E. unfold dabs. by rewrite E. Qed.
Lemma ctx_nonneg (x : Q) : 0 <= x -> 0 <= ctx x.
Proof. apply (rounds_nonneg (f := ctx)). Qed.

Lemma dabs_nonneg (x : Q) : 0 <= dabs x.
Proof. apply ctx_nonneg, Qabs_nonneg. Qed.

Lemma dmul_nonneg (x y : Q) : 0 <= x -> 0 <= y -> 0 <= dmul x y.
Proof. intros Hx Hy. apply ctx_nonneg. by apply Qmult_le_0_compat. Qed.

Lemma dadd_ge_l (x y : Q) : dec_repr x -> 0 <= y -> x <= dadd x y.
Proof. intros Hx Hy. apply (rounds_ge (f := ctx)); [done|lra]. Qed.

Lemma dadd_ge_r (x y : Q) : dec_repr y -> 0 <= x -> y <= dadd x y.
Proof. intros Hy Hx. apply (rounds_ge (f := ctx)); [done|lra]. Qed.

Lemma dadd_repr (x y : Q) : dec_repr (dadd x y).
Proof. apply (rounds_repr (f := ctx)). Qed.
Lemma dmul_repr (x y : Q) : dec_repr (dmul x y).
Proof. apply (rounds_repr (f := ctx)). Qed.
Lemma dabs_repr (x : Q) : dec_repr (dabs x).
Proof. apply (rounds_repr (f := ctx)). Qed.
Lemma zero_repr : dec_repr 0.
Proof. apply (rounds_zero (f := ctx)). Qed.

#[export] Hint Resolve ctx_nonneg dabs_nonneg dmul_nonneg dadd_repr dmul_repr dabs_repr
  zero_repr : decimal.

(** A left fold of [dadd] over non-negative terms never decreases, and it
    dominates every term. *)
Lemma dsum_from_ge (l : list Q) (a : Q) :
  dec_repr a -> Forall (Qle 0) l -> a <= fold_left dadd l a.
Proof.
  intros Ha Hl. revert a Ha. induction Hl as [|x l Hx _ IH]; intros a Ha; simpl; [lra|].
  pose proof (dadd_ge_l a x Ha Hx). pose proof (IH (dadd a x) (dadd_repr a x)). lra.
Qed.

Lemma dsum_nonneg (l : list Q) : Forall (Qle 0) l -> 0 <= dsum l.
Proof. apply dsum_from_ge. apply zero_repr. Qed.

Lemma dsum_from_ge_elem (l : list Q) (a x : Q) :
  0 <= a -> Forall (Qle 0) l -> Forall dec_repr l -> x ∈ l -> x <= fold_left dadd l a.
Proof.
  intros Ha Hl Hr. revert a Ha. induction Hl as [|y l Hy Hl IH]; intros a Ha Hx; simpl.
  - by apply not_elem_of_nil in Hx.
  - apply Forall_cons_1 in Hr as [Hry Hr]. apply elem_of_cons in Hx as [->|Hx].
    + pose proof (dadd_ge_r a y Hry Ha).
      pose proof (dsum_from_ge l (dadd a y) (dadd_repr a y) Hl). lra.
    + apply IH; [done| |done]. apply ctx_nonneg. lra.
Qed.

Lemma dsub_mono_l (x y z : Q) : x <= y -> dsub x z <= dsub y z.
Proof. intros. apply (rounds_mono (f := ctx)). lra. Qed.

Lemma dmul_mono_l (x y z : Q) : 0 <= z -> x <= y -> dmul x z <= dmul y z.
Proof. intros. apply (rounds_mono (f := ctx)). by apply Qmult_le_compat_r. Qed.

Lemma dabs_eq (x : Q) : dec_repr x -> 0 <= x -> dabs x == x.
Proof. intros Hr Hx. unfold dabs. rewrite Qabs_pos by done. by apply (rounds_exact (f := ctx)). Qed.

(** One rounding moves a value by at most [dec_u] of it. *)
Definition dec_u : Q := 1 # 2000000000000000000000000000.

Lemma ctx_err (x : Q) : 0 <= x -> x * (1 - dec_u) <= ctx x <= x * (1 + dec_u).
Proof.
  intros Hx. destruct (Qeq_dec x 0) as [E|E].
  - unfold ctx. rewrite (rnd_zero 10 28 x E), E. split; unfold dec_u; lra.
  - pose proof (rnd_err_pos 10 ten_ge_2 28 x ltac:(lra)) as H.
    change (1 # 2) with (1 / 2) in H.
    assert (Eu : (1 / 2) * pw 10 (1 - 28) == dec_u) by reflexivity.
    rewrite Eu in H. apply Qabs_Qle_condition in H. fold (ctx x) in H.
    unfold dec_u in *. split; lra.
Qed.

(** One float rounding moves a value by at most [flt_u] of it. *)
Definition flt_u : Q := 1 # 9007199254740992.

Lemma fl_err (x : Q) : 0 <= x -> x * (1 - flt_u) <= fl x <= x * (1 + flt_u).
Proof.
  intros Hx. destruct (Qeq_dec x 0) as [E|E].
  - unfold fl. rewrite (rnd_zero 2 53 x E), E. split; unfold flt_u; lra.
  - pose proof (rnd_err_pos 2 two_ge_2 53 x ltac:(lra)) as H.
    change (1 # 2) with (1 / 2) in H.
    assert (Eu : (1 / 2) * pw 2 (1 - 53) == flt_u) by reflexivity.
    rewrite Eu in H. apply Qabs_Qle_condition in H. fold (fl x) in H.
    unfold flt_u in *. split; lra.
Qed.

Lemma fl_pos_inv (x : Q) : 0 < fl x -> 0 < x.
Proof.
  intros H. destruct (Qlt_le_dec 0 x) as [|Hx]; [done|].
  pose proof (rounds_nonpos (f := fl) x Hx). lra.
Qed.

Lemma dmul_upper (x y : Q) : 0 <= x -> 0 <= y -> dmul x y <= x * y * (1 + dec_u).
Proof. intros Hx Hy. apply ctx_err. by apply Qmult_le_0_compat. Qed.

Lemma ddiv_bounds (x y : Q) :
  0 <= x -> 0 < y -> x * (1 - dec_u) <= ddiv x y * y <= x * (1 + dec_u).
Proof.
  intros Hx Hy. assert (Hd : 0 <= x / y).
  { apply Qle_shift_div_l; lra. }
  destruct (ctx_err (x / y) Hd) as [H1 H2].
  assert (E : x == x / y * y) by (field; lra).
  unfold ddiv. split; [rewrite E at 1|rewrite E at 2]; unfold dec_u in *; nra.
Qed.

(** [x.quantize(step, rounding=r)] for [step = 10^-places]: raises
    [InvalidOperation] when the result needs more than 28 digits. *)
Definition quantize (r : Q -> Z) (places : Z) (x : Q) : result Q :=
  let m := r (x * pw 10 places) in
  if (Z.abs m <? 10 ^ 28)%Z then Ok (Qred (inject_Z m * pw 10 (- places)))
  else Raise InvalidOperation.

(** ** Floats and their decimal representation

    [repr(x)] of a float is the shortest decimal that rounds back to it; 17
    significant digits always do.  [repr_dec x] is the decimal value of that
    string, so that [Decimal(str(x))] is [repr_dec x] and [float(s)] is
    [fl (value of s)]. *)
Fixpoint shortest (tries : nat) (digits : Z) (x : Q) : Q :=
  match tries with
  | O => rnd 10 17 x
  | S t =>
      let c := rnd 10 digits x in
      if Qeq_bool (fl c) x then c else shortest t (digits + 1) x
  end.
Definition repr_dec (x : Q) : Q := shortest 16 1 x.

(** Whole numbers up to 2^53 survive printing and parsing. *)
Lemma fl_shortest (n : nat) (d : Z) (x : Q) :
  fl (rnd 10 17 x) == x -> fl (shortest n d x) == x.
Proof.
  intros Hx. revert d. induction n as [|n IH]; intros d; simpl; [done|].
  destruct (Qeq_bool _ x) eqn:E; [by apply Qeq_bool_eq|apply IH].
Qed.

Lemma fl_int (x : Q) (z : Z) : x == inject_Z z -> (Z.abs z <= 2 ^ 53)%Z -> fl x == x.
Proof.
  intros E Hz. rewrite E. apply (rounds_exact (f := fl)).
  apply representable_int. lia.
Qed.

Lemma fl_repr_int (x : Q) (z : Z) :
  x == inject_Z z -> (Z.abs z <= 2 ^ 53)%Z -> fl (repr_dec x) == x.
Proof.
  intros E Hz. apply fl_shortest.
  pose proof (rnd_rounds 10 17 ten_ge_2 ltac:(lia)) as Hr.
  assert (H17 : rnd 10 17 x == x).
  { pose proof (@rounds_proper _ _ Hr) as Hp. rewrite E. apply (@rounds_exact _ _ Hr).
    apply representable_int. lia. }
  rewrite H17. by eapply fl_int.
Qed.

(** Printing a float and reading it back as a decimal moves it hardly. *)
Lemma shortest_err (n : nat) (d : Z) (x : Q) :
  0 <= x -> x * (1 - 2 * flt_u) <= shortest n d x <= x * (1 + 2 * flt_u).
Proof.
  intros Hx. revert d. induction n as [|n IH]; intros d; simpl.
  - destruct (Qeq_dec x 0) as [E|E].
    + rewrite (rnd_zero 10 17 x E), E. unfold flt_u. split; lra.
    + pose proof (rnd_err_pos 10 ten_ge_2 17 x ltac:(lra)) as H. change (1 # 2) with (1 / 2) in H.
      assert (Eu : (1 / 2) * pw 10 (1 - 17) == 1 # 20000000000000000) by reflexivity.
      rewrite Eu in H. apply Qabs_Qle_condition in H. unfold flt_u. split; lra.
  - destruct (Qeq_bool (fl (rnd 10 d x)) x) eqn:E; [|apply IH]. apply Qeq_bool_eq in E.
    assert (Hc : 0 <= rnd 10 d x).
    { destruct (Qlt_le_dec (rnd 10 d x) 0) as [L|]; [|done].
      pose proof (rounds_nonpos (f := fl) _ (Qlt_le_weak _ _ L)).
      assert (Z0 : x == 0) by lra. rewrite (rnd_zero 10 d x Z0) in L. lra. }
    pose proof (fl_err _ Hc) as [L U]. rewrite E in L, U. unfold flt_u in *. split; lra.
Qed.
Lemma repr_nonpos (x : Q) : x <= 0 -> repr_dec x <= 0.
Proof.
  intros H. assert (R : forall d, (1 <= d)%Z -> rnd 10 d x <= 0)
    by (intros d D; exact (@rounds_nonpos _ _ (rnd_rounds 10 d ten_ge_2 D) x H)).
  unfold repr_dec. cut (forall n d, (1 <= d)%Z -> shortest n d x <= 0); [intros S; by apply S|].
  induction n as [|n IH]; intros d D; simpl; [by apply R|].
  destruct (Qeq_bool _ x); [by apply R|apply IH; lia].
Qed.
Lemma repr_fl_err (x : Q) :
  0 <= x -> x * (1 - 4 * flt_u) <= repr_dec (fl x) <= x * (1 + 4 * flt_u).
Proof.
  intros Hx. pose proof (fl_err x Hx) as [L U].
  pose proof (shortest_err 16 1 (fl x) (rounds_nonneg (f := fl) x Hx)) as [L' U'].
  fold (repr_dec (fl x)) in L', U'. unfold flt_u in *. split; lra.
Qed.

Example repr_tenth : repr_dec (fl (1 # 10)) = 1 # 10.
Proof. by vm_compute. Qed.
Example fl_tenth : fl (1 # 10) = 3602879701896397 # 36028797018963968.
Proof. by vm_compute. Qed.
Example ddiv_third : ddiv 1 3 = 3333333333333333333333333333 # 10000000000000000000000000000.
Proof. by vm_compute. Qed.
