(* ===== verification/PyText.v ===== *)
(** * Python text: decimal integers, numeric literals, JSON values

    What the program uses of Python's text processing: [int(s)], [f"{n:04d}"],
    [s.split(sep)], [Decimal(s)], [float(s)], [str(v)] of a JSON value, and
    the JSON values themselves as [json.loads] returns them. *)

From S2P Require Import Prelude Rounding.

#[local] Open Scope Z_scope.
#[local] Open Scope py_scope.

(** ** Characters and digits *)
Definition is_digit (c : Ascii.ascii) : bool :=
  let n := Ascii.N_of_ascii c in ((48 <=? n)%N && (n <=? 57)%N).
Definition digit_val (c : Ascii.ascii) : Z := Z.of_N (Ascii.N_of_ascii c) - 48.
Definition digit_char (d : Z) : Ascii.ascii := Ascii.ascii_of_N (Z.to_N (d + 48)).

Abbreviation chars := String.list_ascii_of_string.
Abbreviation of_chars := String.string_of_list_ascii.

Lemma digit_val_char (d : Z) : 0 <= d <= 9 -> digit_val (digit_char d) = d.
Proof.
  intros H. unfold digit_val, digit_char. rewrite Ascii.N_ascii_embedding; lia.
Qed.

Lemma is_digit_char (d : Z) : 0 <= d <= 9 -> is_digit (digit_char d) = true.
Proof.
  intros H. unfold is_digit, digit_char. rewrite Ascii.N_ascii_embedding by lia.
  apply andb_true_iff. rewrite !N.leb_le. lia.
Qed.

(** ** Printing non-negative integers *)

(** [width] decimal digits of [n], most significant first. *)
Fixpoint digits_of (width : nat) (n : Z) : list Ascii.ascii :=
  match width with
  | O => []
  | S w => digits_of w (n / 10) ++ [digit_char (n mod 10)]
  end.

(** Number of decimal digits of [n]; one for zero. *)
Definition num_len (n : Z) : nat := Z.to_nat (Z.max 1 (digits 10 n)).

(** [f"{n:0<w>d}"] for a non-negative [n]: at least [w] digits. *)
Definition fmt_d (w : nat) (n : Z) : string := of_chars (digits_of (Nat.max w (num_len n)) n).

(** [str(n)]. *)
Definition str_Z (n : Z) : string :=
  if n <? 0 then String "-"%char (fmt_d 1 (- n)) else fmt_d 1 n.

(** ** [s.split(c)] for a one-character separator *)
Fixpoint split_on (c : Ascii.ascii) (l : list Ascii.ascii) : list (list Ascii.ascii) :=
  match l with
  | [] => [[]]
  | x :: l' =>
      if Ascii.eqb x c then [] :: split_on c l'
      else match split_on c l' with
           | [] => [[x]]
           | w :: ws => (x :: w) :: ws
           end
  end.
Definition str_split (c : Ascii.ascii) (s : string) : list string :=
  map of_chars (split_on c (chars s)).

(** ** [int(s)]

    White space around, an optional sign, digits with single underscores
    between them. *)
Fixpoint digits_value (acc : Z) (l : list Ascii.ascii) : option Z :=
  match l with
  | [] => Some acc
  | c :: l' => if is_digit c then digits_value (10 * acc + digit_val c) l' else None
  end.

(** Removes the underscores that stand between two digits; [None] when one
    stands anywhere else. *)
Fixpoint drop_underscores (prev_digit : bool) (l : list Ascii.ascii) : option (list Ascii.ascii) :=
  match l with
  | [] => Some []
  | c :: l' =>
      if Ascii.eqb c "_"%char then
        match prev_digit, l' with
        | true, d :: _ => if is_digit d then drop_underscores false l' else None
        | _, _ => None
        end
      else option_map (cons c) (drop_underscores (is_digit c) l')
  end.

Definition take_sign (l : list Ascii.ascii) : bool * list Ascii.ascii :=
  match l with
  | c :: l' =>
      if Ascii.eqb c "-"%char then (true, l')
      else if Ascii.eqb c "+"%char then (false, l') else (false, l)
  | [] => (false, [])
  end.

Definition py_int (s : string) : result Z :=
  let (neg, body) := take_sign (chars (str_strip s)) in
  match drop_underscores false body with
  | Some (c :: l) =>
      match digits_value 0 (c :: l) with
      | Some n => Ok (if neg then - n else n)
      | None => Raise (ValueError "invalid literal for int()")
      end
  | _ => Raise (ValueError "invalid literal for int()")
  end.

(** *** Printing then parsing is the identity *)
Lemma digits_value_app (l1 l2 : list Ascii.ascii) (acc : Z) :
  digits_value acc (l1 ++ l2) =
  match digits_value acc l1 with Some a => digits_value a l2 | None => None end.
Proof.
  revert acc. induction l1 as [|c l1 IH]; intros acc; simpl; [done|].
  destruct (is_digit c); [apply IH|done].
Qed.

Lemma digits_of_all (w : nat) (n : Z) :
  Forall (fun c => is_digit c = true) (digits_of w n).
Proof.
  revert n. induction w as [|w IH]; intros n; simpl; [constructor|].
  apply Forall_app. split; [apply IH|]. constructor; [|constructor].
  apply is_digit_char. pose proof (Z.mod_pos_bound n 10). lia.
Qed.

Lemma digits_of_value (w : nat) (n acc : Z) :
  0 <= n < 10 ^ Z.of_nat w ->
  digits_value acc (digits_of w n) = Some (acc * 10 ^ Z.of_nat w + n).
Proof.
  revert n acc. induction w as [|w IH]; intros n acc Hn.
  - simpl in *. f_equal. lia.
  - rewrite Nat2Z.inj_succ, Z.pow_succ_r in Hn |- * by lia. cbn [digits_of].
    pose proof (Z.div_mod n 10 ltac:(lia)). pose proof (Z.mod_pos_bound n 10 ltac:(lia)).
    rewrite digits_value_app, IH by (split; [apply Z.div_pos; lia|apply Z.div_lt_upper_bound; lia]).
    simpl. rewrite is_digit_char, digit_val_char by lia. f_equal. lia.
Qed.

Lemma digits_of_length (w : nat) (n : Z) : length (digits_of w n) = w.
Proof.
  revert n. induction w as [|w IH]; intros n; simpl; [done|].
  rewrite length_app, IH. simpl. lia.
Qed.

Lemma num_len_bound (n : Z) : 0 <= n -> n < 10 ^ Z.of_nat (num_len n).
Proof.
  intros Hn. unfold num_len. rewrite Z2Nat.id by lia.
  destruct (Z.eq_dec n 0) as [->|]; [simpl; by vm_compute|].
  destruct (digits_spec 10 ten_ge_2 n ltac:(lia)) as (H1 & _ & H2).
  by rewrite Z.max_r by lia.
Qed.

Lemma drop_underscores_digits (b : bool) (l : list Ascii.ascii) :
  Forall (fun c => is_digit c = true) l -> drop_underscores b l = Some l.
Proof.
  intros H. revert b. induction H as [|c l Hc _ IH]; intros b; simpl; [done|].
  destruct (Ascii.eqb_spec c "_"%char) as [->|_]; [by vm_compute in Hc|].
  by rewrite IH.
Qed.

(** A digit is neither white space nor a sign nor a dash. *)
Lemma digit_not_space (c : Ascii.ascii) : is_digit c = true -> is_space c = false.
Proof.
  unfold is_digit, is_space. intros H. bool_to_prop.
  repeat match goal with H : (_ <=? _)%N = true |- _ => apply N.leb_le in H end.
  repeat (apply orb_false_iff; split); try (apply andb_false_iff);
    rewrite ?N.leb_gt, ?N.eqb_neq; lia.
Qed.

Lemma lstrip_digits (c : Ascii.ascii) (s : string) :
  is_digit c = true -> lstrip (String c s) = String c s.
Proof. intros H. simpl. by rewrite (digit_not_space c H). Qed.

Lemma rstrip_digits (l : list Ascii.ascii) :
  Forall (fun c => is_digit c = true) l -> rstrip (of_chars l) = of_chars l.
Proof.
  induction 1 as [|c l Hc _ IH]; simpl; [done|]. rewrite IH.
  rewrite (digit_not_space c Hc). by destruct l.
Qed.

Lemma strip_digits (l : list Ascii.ascii) :
  Forall (fun c => is_digit c = true) l -> str_strip (of_chars l) = of_chars l.
Proof.
  intros H. unfold str_strip. destruct H as [|c l Hc Hl]; [done|].
  change (of_chars (c :: l)) with (String c (of_chars l)). rewrite lstrip_digits by done.
  apply (rstrip_digits (c :: l)). by constructor.
Qed.

Lemma take_sign_digits (l : list Ascii.ascii) :
  Forall (fun c => is_digit c = true) l -> take_sign l = (false, l).
Proof.
  intros H. destruct H as [|c l Hc Hl]; [done|]. simpl.
  destruct (Ascii.eqb_spec c "-"%char) as [->|_]; [by vm_compute in Hc|].
  destruct (Ascii.eqb_spec c "+"%char) as [->|_]; [by vm_compute in Hc|]. done.
Qed.

Lemma py_int_digits (w : nat) (n : Z) :
  (0 < w)%nat -> 0 <= n < 10 ^ Z.of_nat w -> py_int (of_chars (digits_of w n)) = Ok n.
Proof.
  intros Hw Hn. unfold py_int. pose proof (digits_of_all w n) as Hall.
  rewrite strip_digits, String.list_ascii_of_string_of_list_ascii, take_sign_digits,
    drop_underscores_digits by done.
  pose proof (digits_of_value w n 0 Hn) as Hv. pose proof (digits_of_length w n).
  destruct (digits_of w n) as [|c l]; [simpl in *; lia|]. rewrite Hv. f_equal.
Qed.

Lemma py_int_fmt (w : nat) (n : Z) : 0 <= n -> py_int (fmt_d w n) = Ok n.
Proof.
  intros Hn. apply py_int_digits.
  - unfold num_len. lia.
  - split; [done|]. eapply Z.lt_le_trans; [by apply num_len_bound|].
    apply Z.pow_le_mono_r; lia.
Qed.

(** ** Numeric literals: [Decimal(s)] and [float(s)] *)

(** A [Decimal]: finite, infinite or not a number.  Signed zeros and the
    exponent of a finite value are not distinguished. *)
Inductive pydec : Type :=
  | DFin (q : Q)
  | DInf (neg : bool)
  | DNaN.

(** A [float] is its exact value, an infinity or a NaN. *)
Inductive pyfloat : Type :=
  | FFin (q : Q)
  | FInf (neg : bool)
  | FNaN.

Fixpoint span_digits (l : list Ascii.ascii) : list Ascii.ascii * list Ascii.ascii :=
  match l with
  | c :: l' =>
      if is_digit c then let (d, r) := span_digits l' in (c :: d, r) else ([], l)
  | [] => ([], [])
  end.

Definition digits_Z (l : list Ascii.ascii) : Z := default 0 (digits_value 0 l).

(** [[eE][sign]digits] or nothing. *)
Definition parse_exponent (l : list Ascii.ascii) : option Z :=
  match l with
  | [] => Some 0
  | c :: l' =>
      if Ascii.eqb (lower_char c) "e"%char then
        let (neg, r) := take_sign l' in
        match span_digits r with
        | ((_ :: _) as d, []) => Some (if neg then - digits_Z d else digits_Z d)
        | _ => None
        end
      else None
  end.

(** [digits[.[digits]]] or [.digits], then an exponent. *)
Definition parse_unsigned (l : list Ascii.ascii) : option Q :=
  let (ip, r) := span_digits l in
  let (fp, r') :=
    match r with
    | c :: r1 => if Ascii.eqb c "."%char then span_digits r1 else ([], r)
    | [] => ([], [])
    end in
  match ip ++ fp with
  | [] => None
  | ds =>
      match parse_exponent r' with
      | Some e => Some (Qred (inject_Z (digits_Z ds) * pw 10 (e - Z.of_nat (length fp)))%Q)
      | None => None
      end
  end.

Definition is_infinity (s : string) : bool :=
  (str_lower s =? "inf")%string || (str_lower s =? "infinity")%string.

(** Underscores are dropped wherever they stand, as [Decimal] does. *)
Definition parse_decimal (s : string) : option pydec :=
  let body := filter (fun c => negb (Ascii.eqb c "_"%char)) (chars (str_strip s)) in
  let (neg, r) := take_sign body in
  if is_infinity (of_chars r) then Some (DInf neg)
  else if (str_lower (of_chars r) =? "nan")%string then Some DNaN
  else option_map (fun q => DFin (if neg then - q else q)%Q) (parse_unsigned r).

Definition parse_float (s : string) : result pyfloat :=
  let (neg, r) := take_sign (chars (str_strip s)) in
  if is_infinity (of_chars r) then Ok (FInf neg)
  else if (str_lower (of_chars r) =? "nan")%string then Ok FNaN
  else match drop_underscores false r with
       | Some r' =>
           match parse_unsigned r' with
           | Some q => Ok (FFin (fl (if neg then - q else q)%Q))
           | None => Raise (ValueError "could not convert string to float")
           end
       | None => Raise (ValueError "could not convert string to float")
       end.

(** ** JSON values *)
#[warnings="-register-all"]
Inductive json : Type :=
  | JNull
  | JBool (b : bool)
  | JInt (n : Z)
  | JFloat (f : pyfloat)
  | JStr (s : string)
  | JList (l : list json)
  | JObj (fields : list (string * json)).

(** [obj.get(key)]: [None] when the key is absent. *)
Fixpoint jget (key : string) (fields : list (string * json)) : json :=
  match fields with
  | [] => JNull
  | (k, v) :: rest => if (k =? key)%string then v else jget key rest
  end.

(** Truth value, as [x or y] tests it. *)
Definition truthy (v : json) : bool :=
  match v with
  | JNull => false
  | JBool b => b
  | JInt n => negb (n =? 0)
  | JFloat (FFin q) => negb (Qeq_bool q 0)
  | JFloat _ => true
  | JStr s => negb (str_empty s)
  | JList l => match l with [] => false | _ => true end
  | JObj l => match l with [] => false | _ => true end
  end.

(** [v or d]. *)
Definition jor (v d : json) : json := if truthy v then v else d.

(** ** [str(v)] *)
Fixpoint strip_zeros (fuel : nat) (m : Z) : Z :=
  match fuel with
  | O => m
  | S f => if (m mod 10 =? 0) then strip_zeros f (m / 10) else m
  end.

Definition zeros (n : Z) : list Ascii.ascii := repeat "0"%char (Z.to_nat n).

(** [repr] of a non-zero finite float: digits and decimal point position. *)
Definition float_text (q : Q) : string :=
  let c := repr_dec (Qabs q) in
  let decpt := mag 10 c in
  let m := strip_zeros 17 (Qfloor (c * pw 10 (17 - decpt))%Q) in
  let ds := digits_of (num_len m) m in
  let n := Z.of_nat (length ds) in
  let body :=
    if ((-4 <? decpt) && (decpt <=? 16)) then
      if decpt <=? 0 then chars "0." ++ zeros (- decpt) ++ ds
      else if n <=? decpt then ds ++ zeros (decpt - n) ++ chars ".0"
      else take (Z.to_nat decpt) ds ++ "."%char :: drop (Z.to_nat decpt) ds
    else
      let e := decpt - 1 in
      match ds with
      | d :: _ :: _ => d :: "."%char :: drop 1 ds
      | _ => ds
      end ++ chars (if e <? 0 then "e-" else "e+") ++ chars (fmt_d 2 (Z.abs e)) in
  of_chars (if (q <? 0)%Q then "-"%char :: body else body).

Definition str_float (f : pyfloat) : string :=
  match f with
  | FNaN => "nan"
  | FInf neg => if neg then "-inf" else "inf"
  | FFin q => if Qeq_bool q 0 then "0.0" else float_text q
  end.

(** [repr] of a string: single quotes, unless it holds a single quote and no
    double quote; the backslash, the quote and the control characters are
    escaped. *)
Definition quote_char : Ascii.ascii := "'"%char.
Definition dquote_char : Ascii.ascii := Ascii.ascii_of_N 34.
Definition has_char (c : Ascii.ascii) (s : string) : bool := existsb (Ascii.eqb c) (chars s).

Definition hex_digit (n : Z) : Ascii.ascii :=
  Ascii.ascii_of_N (Z.to_N (if n <? 10 then 48 + n else 87 + n)).
Definition repr_char (q c : Ascii.ascii) : list Ascii.ascii :=
  let n := Z.of_N (Ascii.N_of_ascii c) in
  if Ascii.eqb c "\"%char || Ascii.eqb c q then ["\"%char; c]
  else if n =? 9 then ["\"; "t"]%char else if n =? 10 then ["\"; "n"]%char
  else if n =? 13 then ["\"; "r"]%char
  else if (n <? 32) || (n =? 127) then ["\"%char; "x"%char; hex_digit (n / 16); hex_digit (n mod 16)]
  else [c].
Definition str_repr (s : string) : string :=
  let q := if has_char quote_char s && negb (has_char dquote_char s)
           then dquote_char else quote_char in
  of_chars (q :: concat (map (repr_char q) (chars s)) ++ [q]).

Fixpoint py_repr (v : json) : string :=
  match v with
  | JNull => "None"
  | JBool true => "True"
  | JBool false => "False"
  | JInt n => str_Z n
  | JFloat f => str_float f
  | JStr s => str_repr s
  | JList l => ("[" +:+ String.concat ", " (map py_repr l) +:+ "]")%string
  | JObj fs =>
      ("{" +:+ String.concat ", "
         (map (fun kv => str_repr (fst kv) +:+ ": " +:+ py_repr (snd kv)) fs) +:+ "}")%string
  end.

Definition py_str (v : json) : string :=
  match v with JStr s => s | _ => py_repr v end.

(** [float(v)]: a [bool] is an [int]; [None], lists and objects are
    [TypeError]s. *)
Definition py_float (v : json) : result pyfloat :=
  match v with
  | JBool b => Ok (FFin (if b then 1 else 0)%Q)
  | JInt n => Ok (FFin (fl (inject_Z n)))
  | JFloat f => Ok f
  | JStr s => parse_float s
  | JNull | JList _ | JObj _ => Raise TypeError
  end.

(** [int(v)]: floats are truncated; the infinities and NaN raise. *)
Definition py_int_of (v : json) : result Z :=
  match v with
  | JBool b => Ok (if b then 1 else 0)
  | JInt n => Ok n
  | JFloat (FFin q) => Ok (round_down q)
  | JFloat (FInf _) => Raise OverflowError
  | JFloat FNaN => Raise (ValueError "cannot convert float NaN to integer")
  | JStr s => py_int s
  | JNull | JList _ | JObj _ => Raise TypeError
  end.

(** [Decimal(str(x))] of a finite float. *)
Definition dec_of_float (f : pyfloat) : pydec :=
  match f with
  | FFin q => DFin (repr_dec q)
  | FInf neg => DInf neg
  | FNaN => DNaN
  end.

(** ** Texts joined by a separator *)
Lemma chars_app (s s' : string) : chars (s ++ s')%string = chars s ++ chars s'.
Proof. induction s as [|c s IH]; simpl; [done|]. by rewrite IH. Qed.
Lemma chars_inj (s s' : string) : chars s = chars s' -> s = s'.
Proof.
  intros H. rewrite <- (String.string_of_list_ascii_of_string s), H.
  apply String.string_of_list_ascii_of_string.
Qed.

(** The part before the first separator determines the split. *)
Lemma separated_inj (c : Ascii.ascii) (a a' b b' : string) :
  has_char c a = false -> has_char c a' = false ->
  (a ++ String c b = a' ++ String c b')%string -> a = a' /\ b = b'.
Proof.
  unfold has_char. revert a'.
  induction a as [|x a IH]; intros [|x' a']; simpl; intros Ha Ha' [= E]; subst.
  - done.
  - by rewrite Ascii.eqb_refl in Ha'.
  - by rewrite Ascii.eqb_refl in Ha.
  - bool_to_prop. match goal with H : String.append _ _ = _ |- _ => apply IH in H as [-> ->]; [done..] end.
Qed.

Lemma fmt_d_chars (w : nat) (n : Z) : chars (fmt_d w n) = digits_of (Nat.max w (num_len n)) n.
Proof. apply String.list_ascii_of_string_of_list_ascii. Qed.
Lemma digits_no_char (c : Ascii.ascii) (l : list Ascii.ascii) :
  is_digit c = false -> Forall (fun x => is_digit x = true) l -> existsb (Ascii.eqb c) l = false.
Proof.
  intros Hc. induction 1 as [|x l Hx _ IH]; simpl; [done|]. rewrite IH, orb_false_r.
  apply Ascii.eqb_neq. congruence.
Qed.
Lemma str_Z_no_char (c : Ascii.ascii) (n : Z) :
  is_digit c = false -> c <> "-"%char -> has_char c (str_Z n) = false.
Proof.
  intros Hc Hm. unfold has_char, str_Z.
  assert (D : forall m, existsb (Ascii.eqb c) (chars (fmt_d 1 m)) = false)
    by (intros m; rewrite fmt_d_chars; apply digits_no_char, digits_of_all; done).
  destruct (n <? 0); simpl; rewrite ?D; [|done]. rewrite orb_false_r. by apply Ascii.eqb_neq.
Qed.

Lemma str_Z_digits (n : Z) : 0 <= n -> exists c s, str_Z n = String c s /\ is_digit c = true.
Proof.
  intros Hn. unfold str_Z. rewrite (proj2 (Z.ltb_ge n 0)) by lia.
  pose proof (digits_of_all (Nat.max 1 (num_len n)) n) as F.
  pose proof (digits_of_length (Nat.max 1 (num_len n)) n) as L. unfold fmt_d.
  destruct (digits_of _ n) as [|c l]; [simpl in L; lia|]. apply Forall_cons in F as [F _].
  by exists c, (of_chars l).
Qed.
Lemma str_Z_not_dash (n : Z) : str_Z n <> "-"%string.
Proof.
  destruct (Z.ltb_spec n 0) as [Hn|Hn].
  - destruct (str_Z_digits (- n)) as (c & s & E & _); [lia|]. unfold str_Z in *.
    rewrite (proj2 (Z.ltb_lt n 0)), (proj2 (Z.ltb_ge (- n) 0)) in * by lia. by rewrite E.
  - destruct (str_Z_digits n Hn) as (c & s & -> & D). intros [= -> ->]. by vm_compute in D.
Qed.
Lemma str_Z_inj (m n : Z) : str_Z m = str_Z n -> m = n.
Proof.
  assert (P : forall a b, 0 <= a -> 0 <= b -> fmt_d 1 a = fmt_d 1 b -> a = b).
  { intros a b Ha Hb E. pose proof (py_int_fmt 1 a Ha) as Pa. pose proof (py_int_fmt 1 b Hb) as Pb.
    rewrite E in Pa. congruence. }
  assert (S : forall a b, 0 <= a -> b < 0 -> str_Z a <> str_Z b).
  { intros a b Ha Hb E. destruct (str_Z_digits a Ha) as (c & s & E' & D). rewrite E' in E.
    unfold str_Z in E. rewrite (proj2 (Z.ltb_lt b 0)) in E by lia. by simplify_eq. }
  intros E. destruct (Z.ltb_spec m 0), (Z.ltb_spec n 0).
  - unfold str_Z in E. rewrite !(proj2 (Z.ltb_lt _ 0)) in E by lia. injection E as E.
    apply P in E; lia.
  - by destruct (S n m).
  - by destruct (S m n).
  - unfold str_Z in E. rewrite !(proj2 (Z.ltb_ge _ 0)) in E by lia. by apply P.
Qed.

(** ** [repr] can be read back *)
Definition hex_value (c : Ascii.ascii) : Z :=
  let n := Z.of_N (Ascii.N_of_ascii c) in if n <? 58 then n - 48 else n - 87.
Definition unrepr_char (l : list Ascii.ascii) : option (Ascii.ascii * list Ascii.ascii) :=
  match l with
  | [] => None
  | c :: l =>
      if negb (Ascii.eqb c "\"%char) then Some (c, l)
      else match l with
           | [] => None
           | d :: l =>
               if Ascii.eqb d "t"%char then Some (Ascii.ascii_of_N 9, l)
               else if Ascii.eqb d "n"%char then Some (Ascii.ascii_of_N 10, l)
               else if Ascii.eqb d "r"%char then Some (Ascii.ascii_of_N 13, l)
               else if Ascii.eqb d "x"%char then
                 match l with
                 | h :: h' :: l => Some (Ascii.ascii_of_N (Z.to_N (hex_value h * 16 + hex_value h')), l)
                 | _ => None
                 end
               else Some (d, l)
           end
  end.
#[local] Arguments repr_char : simpl never.
#[local] Arguments unrepr_char : simpl never.
Definition is_quote (q : Ascii.ascii) : Prop := q = quote_char \/ q = dquote_char.
Lemma unrepr_repr (q c : Ascii.ascii) (l : list Ascii.ascii) :
  is_quote q -> unrepr_char (repr_char q c ++ l) = Some (c, l).
Proof. intros [-> | ->]; destruct c as [[] [] [] [] [] [] [] []]; reflexivity. Qed.
Lemma repr_char_head (q c : Ascii.ascii) :
  is_quote q -> exists x l, repr_char q c = x :: l /\ x <> q.
Proof.
  intros [-> | ->]; destruct c as [[] [] [] [] [] [] [] []]; (eexists _, _; split; [reflexivity|discriminate]).
Qed.
Lemma repr_body_inj (q : Ascii.ascii) (l l' r r' : list Ascii.ascii) :
  is_quote q ->
  concat (map (repr_char q) l) ++ q :: r = concat (map (repr_char q) l') ++ q :: r' -> l = l' /\ r = r'.
Proof.
  intros Hq. revert l'. induction l as [|c l IH]; intros [|c' l']; simpl; intros E.
  - by injection E.
  - destruct (repr_char_head q c' Hq) as (x & y & F & N). rewrite F in E. by injection E.
  - destruct (repr_char_head q c Hq) as (x & y & F & N). rewrite F in E. by injection E.
  - rewrite <- !app_assoc in E. apply (f_equal unrepr_char) in E. rewrite !unrepr_repr in E by done.
    injection E as -> E. by apply IH in E as [-> ->].
Qed.
(** A text that starts with the [repr] of a string determines the string. *)
Lemma str_repr_inj (s s' t t' : string) : (str_repr s ++ t = str_repr s' ++ t')%string -> s = s' /\ t = t'.
Proof.
  intros E. apply (f_equal chars) in E. rewrite !chars_app in E. unfold str_repr in E.
  set (q := if has_char quote_char s && _ then _ else _) in E.
  set (q' := if has_char quote_char s' && _ then _ else _) in E.
  assert (Q : is_quote q) by (unfold q; case_match; [by right|by left]).
  unfold chars, of_chars in E. rewrite !String.list_ascii_of_string_of_list_ascii in E. simpl in E.
  injection E as -> E. rewrite <- !app_assoc in E.
  apply repr_body_inj in E as [E E']; [|done]. split; by apply chars_inj.
Qed.

Example str_float_1 : str_float (FFin (fl (3 # 2))) = "1.5"%string.
Proof. by vm_compute. Qed.
Example str_float_2 : str_float (FFin (fl (1 # 100000))) = "1e-05"%string.
Proof. by vm_compute. Qed.
Example str_float_3 : str_float (FFin (fl 250)) = "250.0"%string.
Proof. by vm_compute. Qed.
Example py_str_list : py_str (JList [JInt 1; JStr "a"]) = "[1, 'a']"%string.
Proof. by vm_compute. Qed.
Example parse_decimal_ok : parse_decimal " -1_0.50e1 " = Some (DFin (-105)).
Proof. by vm_compute. Qed.
Example parse_decimal_inf : parse_decimal "Infinity" = Some (DInf false).
Proof. by vm_compute. Qed.
Example parse_decimal_bad : parse_decimal "12a" = None.
Proof. by vm_compute. Qed.
Example str_repr_1 : str_repr (of_chars ["a"; "'"; Ascii.ascii_of_N 10; Ascii.ascii_of_N 1; "\"]%char)
  = of_chars (dquote_char :: chars "a'\n\x01\\" ++ [dquote_char]).
Proof. by vm_compute. Qed.
