(* ===== verification/PyTime.v ===== *)
(** * Python's [datetime], [date] and [timedelta]

    A [date] is its number of days since 1970-01-01; a [datetime] is a number
    of microseconds since the epoch together with whether it carries a time
    zone (an aware one is counted in UTC); a [timedelta] is a number of
    microseconds. *)

From S2P Require Import Prelude Rounding.

#[local] Open Scope Z_scope.

Record datetime : Type := mk_datetime { dt_us : Z; dt_aware : bool }.

Definition second : Z := 1000000.
Definition day_us : Z := 86400 * second.

(** [td.days]: whole days, rounded down. *)
Definition td_days (td : Z) : Z := td / day_us.

(** [td.total_seconds()], and [timedelta(seconds=s)] for a float [s]: the
    whole seconds exactly, the fraction to the nearest microsecond. *)
Definition total_seconds (td : Z) : Q := fl (td # 1000000).
Definition timedelta_seconds (s : Q) : Z :=
  let whole := round_down s in
  whole * second + half_even (fl ((s - inject_Z whole) * 1000000)).

(** Days since the epoch of a proleptic Gregorian date. *)
Definition days_from_civil (y m d : Z) : Z :=
  let y' := if m <=? 2 then y - 1 else y in
  let era := y' / 400 in
  let yoe := y' - era * 400 in
  let mp := (m + 9) mod 12 in
  let doy := (153 * mp + 2) / 5 + d - 1 in
  let doe := yoe * 365 + yoe / 4 - yoe / 100 + doy in
  era * 146097 + doe - 719468.

(** The month a day falls in: its first day is the largest one not after it. *)
Definition civil_from_days (days : Z) : Z * Z * Z :=
  let z := days + 719468 in
  let era := z / 146097 in
  let doe := z - era * 146097 in
  let yoe := (doe - doe / 1460 + doe / 36524 - doe / 146096) / 365 in
  let doy := doe - (365 * yoe + yoe / 4 - yoe / 100) in
  let mp := (5 * doy + 2) / 153 in
  let d := doy - (153 * mp + 2) / 5 + 1 in
  let m := if mp <? 10 then mp + 3 else mp - 9 in
  let y := yoe + era * 400 + (if m <=? 2 then 1 else 0) in
  (y, m, d).

(** [date.weekday()]: Monday is 0. *)
Definition weekday (days : Z) : Z := (days + 3) mod 7.

(** [datetime(y, m, 1)] as days since the epoch; [ValueError] outside of the
    supported years and months. *)
Definition month_start (y m : Z) : result Z :=
  if ((1 <=? y) && (y <=? 9999) && (1 <=? m) && (m <=? 12))
  then Ok (days_from_civil y m 1)
  else Raise (ValueError "date out of range").

(** A [datetime] with its wall clock and the UTC offset of its time zone, if
    it has one; its instant. *)
Record moment : Type := { mo_wall : Z; mo_offset : option Z }.
Definition utc_of (m : moment) : Z := mo_wall m - default 0 (mo_offset m).

(** The last microsecond of the year 9999. *)
Definition max_wall : Z := days_from_civil 10000 1 1 * day_us - 1.

Example epoch : days_from_civil 1970 1 1 = 0.
Proof. by vm_compute. Qed.
Example leap : days_from_civil 2024 3 1 = days_from_civil 2024 2 29 + 1.
Proof. by vm_compute. Qed.
Example civil_back : civil_from_days (days_from_civil 2026 9 15) = (2026, 9, 15).
Proof. by vm_compute. Qed.
Example tuesday : weekday (days_from_civil 2026 9 15) = 1.
Proof. by vm_compute. Qed.
