(* ===== verification/Identifiers.v ===== *)
(** * Canonical identifiers: [backend/app/core/identifiers.py]

    An identifier arrives as an arbitrary object or [None]: here a JSON value,
    [JNull] for [None]. *)

From S2P Require Import Prelude PyText.

Definition DEFAULT_STRATEGY_ID : string := "default_strategy".

Definition normalize_strategy_id (value : json) : string :=
  let text := match value with
              | JNull => EmptyString
              | v => str_lower (str_strip (py_str v))
              end in
  str_or text DEFAULT_STRATEGY_ID.

Definition normalize_trade_id (value : json) : string :=
  match value with JNull => EmptyString | v => str_strip (py_str v) end.

Definition normalize_symbol (value : json) : string :=
  match value with JNull => EmptyString | v => str_upper (str_strip (py_str v)) end.

Definition normalize_account (value : json) : string :=
  match value with JNull => EmptyString | v => str_upper (str_strip (py_str v)) end.

Definition normalize_signal_id (value : json) : string :=
  match value with JNull => EmptyString | v => str_strip (py_str v) end.

(** ** Normal forms *)

Lemma lower_char_idemp (c : Ascii.ascii) : lower_char (lower_char c) = lower_char c.
Proof. destruct c as [[] [] [] [] [] [] [] []]; by vm_compute. Qed.

Lemma upper_char_idemp (c : Ascii.ascii) : upper_char (upper_char c) = upper_char c.
Proof. destruct c as [[] [] [] [] [] [] [] []]; by vm_compute. Qed.

Lemma lower_upper_char (c : Ascii.ascii) : lower_char (upper_char c) = lower_char c.
Proof. destruct c as [[] [] [] [] [] [] [] []]; by vm_compute. Qed.

Lemma is_space_lower (c : Ascii.ascii) : is_space (lower_char c) = is_space c.
Proof. destruct c as [[] [] [] [] [] [] [] []]; by vm_compute. Qed.

Lemma is_space_upper (c : Ascii.ascii) : is_space (upper_char c) = is_space c.
Proof. destruct c as [[] [] [] [] [] [] [] []]; by vm_compute. Qed.

Section StrMap.
Variable f : Ascii.ascii -> Ascii.ascii.
Hypothesis f_idemp : forall c, f (f c) = f c.
Hypothesis f_space : forall c, is_space (f c) = is_space c.

Lemma str_map_idemp (s : string) : str_map f (str_map f s) = str_map f s.
Proof. induction s as [|c s IH]; simpl; [done|]. by rewrite f_idemp, IH. Qed.

Lemma lstrip_str_map (s : string) : lstrip (str_map f s) = str_map f (lstrip s).
Proof. induction s as [|c s IH]; simpl; [done|]. rewrite f_space. by destruct (is_space c). Qed.

Lemma rstrip_str_map (s : string) : rstrip (str_map f s) = str_map f (rstrip s).
Proof.
  induction s as [|c s IH]; simpl; [done|]. rewrite IH, f_space.
  destruct (rstrip s); simpl; [by destruct (is_space c)|done].
Qed.

Lemma strip_str_map (s : string) : str_strip (str_map f s) = str_map f (str_strip s).
Proof. unfold str_strip. by rewrite lstrip_str_map, rstrip_str_map. Qed.
End StrMap.

Lemma rstrip_idemp (s : string) : rstrip (rstrip s) = rstrip s.
Proof.
  induction s as [|c s IH]; simpl; [done|].
  destruct (rstrip s) as [|c' r] eqn:E.
  - destruct (is_space c) eqn:Ec; simpl; [done|]. by rewrite Ec.
  - cbn [rstrip] in IH |- *. by rewrite IH.
Qed.

Lemma lstrip_rstrip_idemp (s : string) :
  lstrip s = s -> lstrip (rstrip s) = rstrip s.
Proof.
  destruct s as [|c s]; simpl; [done|]. destruct (is_space c) eqn:Ec.
  - intros H. exfalso.
    assert (Hlen : forall t, (String.length (lstrip t) <= String.length t)%nat).
    { induction t as [|d t IHt]; simpl; [done|]. destruct (is_space d); simpl; lia. }
    pose proof (Hlen s) as Hs. rewrite H in Hs. simpl in Hs. lia.
  - intros _. destruct (rstrip s); simpl; by rewrite Ec.
Qed.

Lemma lstrip_idemp (s : string) : lstrip (lstrip s) = lstrip s.
Proof.
  induction s as [|c s IH]; simpl; [done|].
  destruct (is_space c) eqn:Ec; [done|]. simpl. by rewrite Ec.
Qed.

Lemma strip_idemp (s : string) : str_strip (str_strip s) = str_strip s.
Proof.
  unfold str_strip. rewrite lstrip_rstrip_idemp by apply lstrip_idemp. apply rstrip_idemp.
Qed.

Lemma normalize_strategy_id_str (s : string) :
  normalize_strategy_id (JStr s) = str_or (str_lower (str_strip s)) DEFAULT_STRATEGY_ID.
Proof. done. Qed.

(** Two spellings of a strategy that differ in case or in surrounding white
    space have one normal form. *)
Lemma normalize_strategy_id_case (s t : string) :
  str_lower (str_strip s) = str_lower (str_strip t) ->
  normalize_strategy_id (JStr s) = normalize_strategy_id (JStr t).
Proof. rewrite !normalize_strategy_id_str. by intros ->. Qed.

Lemma normalize_strategy_id_idemp_aux (v : json) :
  normalize_strategy_id (JStr (normalize_strategy_id v)) = normalize_strategy_id v.
Proof.
  rewrite normalize_strategy_id_str.
  assert (H : forall t, str_or (str_lower (str_strip (str_or (str_lower (str_strip t))
      DEFAULT_STRATEGY_ID))) DEFAULT_STRATEGY_ID
    = str_or (str_lower (str_strip t)) DEFAULT_STRATEGY_ID).
  { intros t. unfold str_or at 2 3. destruct (str_empty (str_lower (str_strip t))) eqn:E.
    - by vm_compute.
    - unfold str_lower.
      rewrite (strip_str_map _ is_space_lower), (str_map_idemp _ lower_char_idemp), strip_idemp.
      unfold str_or. fold str_lower. by rewrite E. }
  destruct v; unfold normalize_strategy_id; try apply H. by vm_compute.
Qed.
