(* ===== verification/RmsModels.v ===== *)
(** * RMS domain model: [backend/app/rms/models.py]

    With the instrument and account-margin records it refers to
    ([instruments/models.py], [services/account_margin.py]). *)

From S2P Require Import Prelude Rounding PyText PyTime Identifiers.

#[local] Open Scope Q_scope.

(** A quantity is declared [float]; the basket coordinator puts [Decimal]s
    in the same field. *)
Inductive pynum : Type :=
  | NFloat (q : Q)
  | NDec (q : Q).

(** Its value, and [Decimal(str(n))]. *)
Definition num_val (n : pynum) : Q := match n with NFloat q => q | NDec q => q end.
Definition dec_of_num (n : pynum) : Q :=
  match n with NFloat q => repr_dec q | NDec q => q end.

Inductive OrderAction : Type := OPEN | CLOSE.
Inductive ExecutionIntentMode : Type := MODE_OPEN | NORMAL_CLOSE | EMERGENCY_FLATTEN.
Inductive OrderSide : Type := BUY | SELL.
Inductive RMSOutcome : Type := PASS | REJECT | ADJUST | HALT.

#[global] Instance OrderAction_eq_dec : EqDecision OrderAction.
Proof. solve_decision. Defined.
#[global] Instance ExecutionIntentMode_eq_dec : EqDecision ExecutionIntentMode.
Proof. solve_decision. Defined.
#[global] Instance OrderSide_eq_dec : EqDecision OrderSide.
Proof. solve_decision. Defined.
#[global] Instance RMSOutcome_eq_dec : EqDecision RMSOutcome.
Proof. solve_decision. Defined.

(** [side.value]. *)
Definition side_value (s : OrderSide) : string :=
  match s with BUY => "BUY" | SELL => "SELL" end.

Record ResolvedInstrument : Type := {
  ri_symbol : string;
  ri_requested_instrument_type : string;
  ri_sec_type : string;
  ri_exchange : string;
  ri_currency : string;
  ri_con_id : option Z;
  ri_market_data_con_id : option Z;
  ri_multiplier : Q;
  ri_primary_exchange : option string;
  ri_size_increment : option Q
}.

Record OrderLeg : Type := {
  leg_symbol : string;
  leg_side : OrderSide;
  leg_quantity : pynum;
  leg_price : Q;
  leg_contract_month : option string;
  leg_con_id : option Z;
  leg_notional : option Q;
  leg_instrument_type : option string;
  leg_weight : option pyfloat;
  leg_leg_index : option Z;
  leg_metadata : option json;
  leg_exchange : option string;
  leg_currency : option string;
  leg_resolved : option ResolvedInstrument
}.

Definition effective_notional (leg : OrderLeg) : Q :=
  match leg_notional leg with
  | Some n => n
  | None => dmul (dec_of_num (leg_quantity leg)) (leg_price leg)
  end.

Record OrderIntent : Type := {
  signal_id : string;
  strategy_id : string;
  action : OrderAction;
  legs : list OrderLeg;
  account_id : option Z;
  ibkr_account : option string;
  market : option string;
  timestamp : Z;
  intent_mode : ExecutionIntentMode
}.

(** Keys are tuples of two shapes: with an account and without one. *)
Abbreviation dup_key := (Z * string * string + string * string)%type.
Abbreviation acct_key := (Z * string + string)%type.

Definition duplicate_lookup_key (intent : OrderIntent) : dup_key :=
  let strategy := normalize_strategy_id (JStr (strategy_id intent)) in
  let signal := normalize_signal_id (JStr (signal_id intent)) in
  match account_id intent with
  | Some a => inl (a, strategy, signal)
  | None => inr (strategy, signal)
  end.

Definition open_position_key (intent : OrderIntent) : acct_key :=
  let strategy := normalize_strategy_id (JStr (strategy_id intent)) in
  match account_id intent with Some a => inl (a, strategy) | None => inr strategy end.

Definition exposure_key (intent : OrderIntent) (symbol : string) : acct_key :=
  let key := normalize_symbol (JStr symbol) in
  match account_id intent with Some a => inl (a, key) | None => inr key end.

Definition model_value_key (intent : OrderIntent) : option (Z * string) :=
  match account_id intent with
  | None => None
  | Some a => Some (a, normalize_strategy_id (JStr (strategy_id intent)))
  end.

Record MarginPolicy : Type := {
  check_enabled : bool;
  gate_basis : string;
  min_free_buffer : Q;
  min_free_pct_of_netliq : Q;
  comfort_ratio : Q;
  confirm_borderline : bool;
  enforce_look_ahead : bool;
  reject_on_stale_snapshot : bool;
  default_rate : Q;
  rate_safety_multiplier : Q
}.

Definition default_margin_policy : MarginPolicy := {|
  check_enabled := false;
  gate_basis := "available_funds";
  min_free_buffer := 0;
  min_free_pct_of_netliq := 5 # 100;
  comfort_ratio := 80 # 100;
  confirm_borderline := true;
  enforce_look_ahead := true;
  reject_on_stale_snapshot := true;
  default_rate := 30 # 100;
  rate_safety_multiplier := 110 # 100
|}.

Record StrategyConfig : Type := {
  cfg_strategy_id : string;
  max_open_positions : option Z;
  money_limit_per_symbol : option Q
}.

(** [AccountMarginSnapshot]; [as_of] is an aware instant in microseconds. *)
Record AccountMarginSnapshot : Type := {
  snap_ibkr_account : string;
  as_of : option Z;
  net_liquidation : option Q;
  available_funds : option Q;
  excess_liquidity : option Q;
  look_ahead_available_funds : option Q;
  look_ahead_excess_liquidity : option Q;
  max_age_sec : Z
}.

(** [now] is the wall clock the property reads. *)
Definition is_stale (now : Z) (s : AccountMarginSnapshot) : bool :=
  match as_of s with
  | None => true
  | Some t => (max_age_sec s * second <? now - t)%Z
  end.

Definition free_margin (s : AccountMarginSnapshot) (basis : string) : option Q :=
  if (basis =? "excess_liquidity")%string then excess_liquidity s else available_funds s.

Definition look_ahead_free_margin (s : AccountMarginSnapshot) (basis : string) : option Q :=
  if (basis =? "excess_liquidity")%string
  then look_ahead_excess_liquidity s else look_ahead_available_funds s.

Record RMSContext : Type := {
  processed_signals : gset dup_key;
  strategy_configs : gmap string StrategyConfig;
  open_positions : gmap acct_key Z;
  symbol_exposures : gmap acct_key Q;
  per_symbol_limits : gmap (Z * string) Q;
  default_symbol_limits : gmap Z Q;
  account_open_limits : gmap (Z * string) Z;
  model_value_limit : gmap (Z * string) Q;
  model_value_used : gmap (Z * string) Q;
  market_value_check_enabled : bool;
  margin_snapshots : gmap string AccountMarginSnapshot;
  margin_commitments : gmap string (list (datetime * Q));
  margin_rates : gmap (string * string * string) Q;
  margin_rate_sources : gmap (string * string * string) string;
  margin_policy : MarginPolicy;
  current_time : Z;
  rollover_window_days : Z;
  target_rollover_month : option string;
  rollover_checker : option (option string -> Z -> Z -> bool)
}.

(** The reason of a check result: the code its message starts with and the
    values the message shows. *)
Inductive reason : Type :=
  | MARGIN_CHECK_DISABLED
  | MARGIN_SNAPSHOT_UNAVAILABLE (account : string)
  | MARGIN_SNAPSHOT_STALE (account : string) (max_age : Z)
  | MARGIN_ZERO_REQUIRED
  | MARGIN_INSUFFICIENT (account : string) (required effective : Q)
  | MARGIN_COMFORTABLE (required effective : Q)
  | MARGIN_BORDERLINE (required effective : Q)
  | DUPLICATE_SIGNAL (signal strategy : string)
  | MISSING_STRATEGY_ID
  | UNKNOWN_STRATEGY (strategy : string)
  | CONTRACT_MONTH_ROLLOVER (from : option string) (to : option string)
  | MISSING_STRATEGY_CONFIG (strategy : string)
  | INVALID_MAX_POSITIONS_LIMIT (strategy : string) (limit : option Z)
  | OPEN_POSITION_LIMIT_REACHED (strategy : string) (current limit : Z)
  | NO_SYMBOL_LIMIT_CONFIGURED (account : option Z) (symbol : string)
  | MONEY_LIMIT_EXCEEDED (symbol : string) (total existing new limit : Q)
  | MARKET_VALUE_CHECK_DISABLED
  | NO_ACCOUNT_SCOPE
  | MODEL_VALUE_LIMIT_UNKNOWN (account : Z) (strategy : string)
  | MODEL_VALUE_EXCEEDED (account : Z) (strategy : string) (projected used required limit : Q).

Record CheckResult : Type := {
  check_number : Z;
  check_name : string;
  outcome : RMSOutcome;
  check_reason : option reason;
  adjusted_intent : option OrderIntent
}.

Record RMSResult : Type := {
  res_outcome : RMSOutcome;
  res_intent : OrderIntent;
  original_intent : OrderIntent;
  res_check_number : option Z;
  res_reason : option reason;
  check_results : list CheckResult
}.

(** [intent.action == CLOSE or intent.intent_mode == EMERGENCY_FLATTEN], the
    guard of the checks that must not block a reduction. *)
Definition reduces (intent : OrderIntent) : bool :=
  bool_decide (action intent = CLOSE)
  || bool_decide (intent_mode intent = EMERGENCY_FLATTEN).

(** ** Sample data for the concrete instances of the theorems *)
Definition ex_leg (sym : string) (s : OrderSide) (qty : Q) (px : Q) : OrderLeg := {|
  leg_symbol := sym; leg_side := s; leg_quantity := NFloat qty; leg_price := px;
  leg_contract_month := None; leg_con_id := None; leg_notional := None;
  leg_instrument_type := Some "STK"; leg_weight := Some (FFin (1 # 2)); leg_leg_index := None;
  leg_metadata := None; leg_exchange := None; leg_currency := None; leg_resolved := None |}.

Definition ex_future (month : string) : OrderLeg := {|
  leg_symbol := "ES"; leg_side := BUY; leg_quantity := NFloat 1; leg_price := 5000;
  leg_contract_month := Some month; leg_con_id := None; leg_notional := None;
  leg_instrument_type := Some "FUT"; leg_weight := None; leg_leg_index := None;
  leg_metadata := None; leg_exchange := None; leg_currency := None; leg_resolved := None |}.

Definition ex_intent (a : OrderAction) (l : list OrderLeg) : OrderIntent := {|
  signal_id := "T1"; strategy_id := "model_blue"; action := a; legs := l;
  account_id := Some 7%Z; ibkr_account := Some "DU7"; market := Some "SMART";
  timestamp := 0%Z; intent_mode := MODE_OPEN |}.

Definition ex_pair : list OrderLeg := [ex_leg "SPY" BUY 10 500; ex_leg "QQQ" SELL 12 400].

Definition ex_snapshot : AccountMarginSnapshot := {|
  snap_ibkr_account := "DU7"; as_of := Some 0%Z; net_liquidation := Some 100000;
  available_funds := Some 50000; excess_liquidity := Some 60000;
  look_ahead_available_funds := Some 50000; look_ahead_excess_liquidity := Some 60000;
  max_age_sec := 300 |}.

Definition ex_context : RMSContext := {|
  processed_signals := ∅;
  strategy_configs := {[ "model_blue" := {| cfg_strategy_id := "model_blue";
                           max_open_positions := Some 5%Z; money_limit_per_symbol := None |} ]};
  open_positions := {[ inl (7%Z, "model_blue") := 1%Z ]};
  symbol_exposures := {[ inl (7%Z, "SPY") := 1000 ]};
  per_symbol_limits := {[ (7%Z, "SPY") := 10000 ]};
  default_symbol_limits := {[ 7%Z := 8000 ]};
  account_open_limits := ∅;
  model_value_limit := {[ (7%Z, "model_blue") := 20000 ]};
  model_value_used := ∅;
  market_value_check_enabled := true;
  margin_snapshots := {[ "DU7" := ex_snapshot ]};
  margin_commitments := ∅; margin_rates := ∅; margin_rate_sources := ∅;
  margin_policy := {| check_enabled := true; gate_basis := "available_funds";
     min_free_buffer := 0; min_free_pct_of_netliq := 5 # 100; comfort_ratio := 80 # 100;
     confirm_borderline := true; enforce_look_ahead := true; reject_on_stale_snapshot := true;
     default_rate := 30 # 100; rate_safety_multiplier := 110 # 100 |};
  current_time := 0%Z; rollover_window_days := 7%Z;
  target_rollover_month := None; rollover_checker := None
|}.
