(* ===== verification/Margin.v ===== *)
(** * Margin and market-value arithmetic

    [backend/app/rms/margin_estimate.py] and [backend/app/rms/market_value.py]. *)

From S2P Require Import Prelude Rounding PyText PyTime RmsModels.

#[local] Open Scope Q_scope.

Definition SOURCE_WHAT_IF : string := "WHAT_IF".
Definition SOURCE_DEFAULT : string := "DEFAULT".
Definition COMMITMENT_GRACE : Z := 5 * second.

Inductive MarginBand : Type := COMFORTABLE | BORDERLINE | INSUFFICIENT.
#[global] Instance MarginBand_eq_dec : EqDecision MarginBand.
Proof. solve_decision. Defined.

Abbreviation rate_table := (gmap (string * string * string) Q).
Abbreviation source_table := (gmap (string * string * string) string).

Definition rate_for (symbol : string) (instrument_type : option string) (side : OrderSide)
    (rates : rate_table) (sources : source_table) (policy : MarginPolicy) : Q * string :=
  let side_key := side_value side in
  let itype := str_or (str_upper (str_strip (str_or (opt_str instrument_type) "STK"))) "STK" in
  let key := (str_upper (str_strip symbol), itype, side_key) in
  match rates !! key with
  | Some stored =>
      if 0 <? stored then
        let source := default SOURCE_WHAT_IF (sources !! key) in
        if (source =? SOURCE_WHAT_IF)%string
        then (dmul stored (rate_safety_multiplier policy), SOURCE_WHAT_IF)
        else (stored, source)
      else (default_rate policy, SOURCE_DEFAULT)
  | None => (default_rate policy, SOURCE_DEFAULT)
  end.

Definition leg_required_margin (leg : OrderLeg) (rates : rate_table)
    (sources : source_table) (policy : MarginPolicy) : Q * string :=
  let (rate, source) :=
    rate_for (leg_symbol leg) (leg_instrument_type leg) (leg_side leg) rates sources policy in
  (dmul (dabs (effective_notional leg)) rate, source).

Definition estimate_step (rates : rate_table) (sources : source_table) (policy : MarginPolicy)
    (acc : Q * gmap string string) (leg : OrderLeg) : Q * gmap string string :=
  let (required, source) := leg_required_margin leg rates sources policy in
  (dadd (fst acc) required, <[leg_symbol leg := source]> (snd acc)).

Definition estimate_required_margin (intent : OrderIntent) (rates : rate_table)
    (sources : source_table) (policy : MarginPolicy) : Q * gmap string string :=
  fold_left (estimate_step rates sources policy) (legs intent) (0, ∅).

Definition classify_headroom (required effective_free : Q) (policy : MarginPolicy) : MarginBand :=
  let usable := dsub effective_free (min_free_buffer policy) in
  if usable <=? required then INSUFFICIENT
  else if required <? dmul usable (comfort_ratio policy) then COMFORTABLE
  else BORDERLINE.

(** A naive timestamp is read as UTC. *)
Definition pending_commitments (commitments : list (datetime * Q))
    (snapshot_as_of : option Z) (grace : Z) : Q :=
  match commitments with
  | [] => 0
  | _ =>
      match snapshot_as_of with
      | None => dsum (map snd commitments)
      | Some t =>
          let cutoff := (t - grace)%Z in
          fold_left (fun total c =>
            if (cutoff <=? dt_us (fst c))%Z then dadd total (snd c) else total)
            commitments 0
      end
  end.

Definition headroom_floor (snapshot : AccountMarginSnapshot) (policy : MarginPolicy) : Q :=
  let floor := min_free_buffer policy in
  match net_liquidation snapshot with
  | Some nl =>
      if 0 <? min_free_pct_of_netliq policy
      then Qmaxb floor (dmul nl (min_free_pct_of_netliq policy)) else floor
  | None => floor
  end.

Definition effective_free_margin (snapshot : AccountMarginSnapshot)
    (commitments : list (datetime * Q)) (policy : MarginPolicy) : option Q :=
  match free_margin snapshot (gate_basis policy) with
  | None => None
  | Some free => Some (dsub free (pending_commitments commitments (as_of snapshot) COMMITMENT_GRACE))
  end.

Definition look_ahead_effective_free (snapshot : AccountMarginSnapshot)
    (commitments : list (datetime * Q)) (policy : MarginPolicy) : option Q :=
  match look_ahead_free_margin snapshot (gate_basis policy) with
  | None => None
  | Some free => Some (dsub free (pending_commitments commitments (as_of snapshot) COMMITMENT_GRACE))
  end.

Record HeadroomView : Type := {
  hv_snapshot_free : Q;
  hv_pending : Q;
  hv_effective_free : Q;
  hv_floor : Q;
  hv_look_ahead_free : option Q;
  hv_look_ahead_effective : option Q
}.

(** ** Market value *)
Definition leg_market_value (leg : OrderLeg) : Q := dabs (effective_notional leg).

Definition intent_market_value (intent : OrderIntent) : Q :=
  dsum (map leg_market_value (legs intent)).

(** The columns of a [positions] row that the market value reads. *)
Record position_row : Type := {
  leg_a_signed_qty : Q;
  leg_a_entry_mark : Q;
  leg_b_symbol : option string;
  leg_b_signed_qty : option Q;
  leg_b_entry_mark : option Q
}.

Definition position_row_market_value (row : position_row) : Q :=
  let total := dmul (dabs (leg_a_signed_qty row)) (dabs (leg_a_entry_mark row)) in
  match leg_b_signed_qty row, leg_b_entry_mark row with
  | Some q, Some m =>
      if negb (str_empty (opt_str (leg_b_symbol row)))
      then dadd total (dmul (dabs q) (dabs m)) else total
  | _, _ => total
  end.

(** ** Required margin *)
Section Required.
Context (rates : rate_table) (sources : source_table) (policy : MarginPolicy).
Hypothesis default_nonneg : 0 <= default_rate policy.
Hypothesis multiplier_nonneg : 0 <= rate_safety_multiplier policy.

Lemma rate_for_nonneg (s : string) (t : option string) (sd : OrderSide) :
  0 <= fst (rate_for s t sd rates sources policy).
Proof using default_nonneg multiplier_nonneg.
  unfold rate_for. case_match; [|done]. case_match; [|done]. bool_to_prop.
  case_match; simpl; [apply dmul_nonneg; lra|lra].
Qed.

Lemma leg_required_nonneg (leg : OrderLeg) :
  0 <= fst (leg_required_margin leg rates sources policy).
Proof using default_nonneg multiplier_nonneg.
  unfold leg_required_margin.
  pose proof (rate_for_nonneg (leg_symbol leg) (leg_instrument_type leg) (leg_side leg)) as H.
  destruct (rate_for _ _ _ _ _ _). simpl in *. by auto with decimal.
Qed.

Lemma leg_required_repr (leg : OrderLeg) :
  dec_repr (fst (leg_required_margin leg rates sources policy)).
Proof.
  unfold leg_required_margin. destruct (rate_for _ _ _ _ _ _). apply dmul_repr.
Qed.

Lemma estimate_fold (l : list OrderLeg) (acc : Q * gmap string string) :
  fst (fold_left (estimate_step rates sources policy) l acc) =
  fold_left dadd (map (fun leg => fst (leg_required_margin leg rates sources policy)) l) (fst acc).
Proof.
  revert acc. induction l as [|x l IH]; intros acc; simpl; [done|]. rewrite IH. f_equal.
  unfold estimate_step. by destruct (leg_required_margin x rates sources policy).
Qed.

(** The estimate is the sum of the legs' requirements, long and short alike. *)
Lemma estimate_is_sum (intent : OrderIntent) :
  fst (estimate_required_margin intent rates sources policy) =
  dsum (map (fun leg => fst (leg_required_margin leg rates sources policy)) (legs intent)).
Proof. apply estimate_fold. Qed.

Lemma required_terms_nonneg (l : list OrderLeg) :
  Forall (Qle 0) (map (fun leg => fst (leg_required_margin leg rates sources policy)) l).
Proof using default_nonneg multiplier_nonneg.
  apply Forall_map, Forall_true. intros. apply leg_required_nonneg.
Qed.

Lemma required_terms_repr (l : list OrderLeg) :
  Forall dec_repr (map (fun leg => fst (leg_required_margin leg rates sources policy)) l).
Proof. apply Forall_map, Forall_true. intros. apply leg_required_repr. Qed.
End Required.

(** ** The three bands *)
Definition band_rank (b : MarginBand) : Z :=
  match b with COMFORTABLE => 0 | BORDERLINE => 1 | INSUFFICIENT => 2 end.

Definition worse_or_equal (a b : MarginBand) : Prop := (band_rank a <= band_rank b)%Z.

(** The estimate is gross: with non-negative default rate and safety
    multiplier, the margin required for an intent is non-negative and at least
    the margin required for each one of its legs, whatever the sides -- a long
    and a short leg are never netted against each other. *)
Theorem required_margin_gross (intent : OrderIntent) (rates : rate_table)
    (sources : source_table) (policy : MarginPolicy) :
  0 <= default_rate policy -> 0 <= rate_safety_multiplier policy ->
  let required := fst (estimate_required_margin intent rates sources policy) in
  0 <= required /\
  forall leg, leg ∈ legs intent ->
    0 <= fst (leg_required_margin leg rates sources policy) <= required.
Proof.
  intros Hd Hm. simpl. rewrite estimate_is_sum.
  pose proof (required_terms_nonneg rates sources policy Hd Hm (legs intent)) as Hn.
  split; [by apply dsum_nonneg|]. intros leg Hleg. split; [by apply leg_required_nonneg|].
  apply dsum_from_ge_elem; [lra|done|apply required_terms_repr|].
  apply list_elem_of_fmap. eauto.
Qed.

Lemma classify_spec (required free : Q) (policy : MarginPolicy) :
  let usable := dsub free (min_free_buffer policy) in
  match classify_headroom required free policy with
  | INSUFFICIENT => usable <= required
  | COMFORTABLE => required < usable /\ required < dmul usable (comfort_ratio policy)
  | BORDERLINE => required < usable /\ dmul usable (comfort_ratio policy) <= required
  end.
Proof.
  simpl. unfold classify_headroom.
  destruct (_ <=? required) eqn:E1; bool_to_prop; [done|].
  destruct (required <? _) eqn:E2; bool_to_prop; done.
Qed.

(** The three margin bands are monotone under the decimal rounding of
    [usable] and of the comfort threshold: requiring less margin, or having
    more free margin, never moves an order to a worse band, for any
    non-negative comfort ratio.  In particular an order that passes keeps
    passing when margin is released. *)
Theorem classify_headroom_monotone (req req' free free' : Q) (policy : MarginPolicy) :
  0 <= comfort_ratio policy -> req <= req' -> free' <= free ->
  worse_or_equal (classify_headroom req free policy) (classify_headroom req' free' policy).
Proof.
  intros Hr Hreq Hfree.
  pose proof (dsub_mono_l free' free (min_free_buffer policy) Hfree) as Hu.
  pose proof (dmul_mono_l _ _ (comfort_ratio policy) Hr Hu) as Hc.
  pose proof (classify_spec req free policy) as H1.
  pose proof (classify_spec req' free' policy) as H2. simpl in H1, H2.
  unfold worse_or_equal, band_rank.
  destruct (classify_headroom req free policy), (classify_headroom req' free' policy);
    first [lia | lra].
Qed.

Lemma required_margin_gross_witness :
  let req := fst (estimate_required_margin (ex_intent OPEN ex_pair) ∅ ∅
                    (margin_policy ex_context)) in
  0 <= req /\
  forall leg, leg ∈ ex_pair ->
    0 <= fst (leg_required_margin leg ∅ ∅ (margin_policy ex_context)) <= req.
Proof.
  apply (required_margin_gross (ex_intent OPEN ex_pair) ∅ ∅ (margin_policy ex_context));
    by vm_compute.
Defined.

Lemma classify_headroom_monotone_witness :
  worse_or_equal (classify_headroom 2940 50000 (margin_policy ex_context))
                 (classify_headroom 60000 49000 (margin_policy ex_context)).
Proof.
  apply (classify_headroom_monotone 2940 60000 50000 49000 (margin_policy ex_context));
    by vm_compute.
Defined.
