(* ===== verification/Checks.v ===== *)
(** * The RMS checks: [backend/app/rms/checks/*.py]

    A check is a record of its number, its name and its [evaluate] method, the
    interface [BaseRMSCheck].  [evaluate] may raise: only the contract-month
    check does. *)

From S2P Require Import Prelude Rounding PyText PyTime Identifiers RmsModels Margin.

#[local] Open Scope Q_scope.
#[local] Open Scope py_scope.

Record BaseRMSCheck : Type := {
  bc_number : Z;
  bc_name : string;
  bc_evaluate : OrderIntent -> RMSContext -> result CheckResult
}.

(** [CheckResult(check_number=..., check_name=..., outcome=..., reason=...)]. *)
Definition verdict (num : Z) (name : string) (o : RMSOutcome) (r : option reason) : CheckResult :=
  {| check_number := num; check_name := name; outcome := o;
     check_reason := r; adjusted_intent := None |}.

(** ** Check 1: margin *)
Section MarginCheck.
Variable now : Z.

Definition margin_evaluate (intent : OrderIntent) (context : RMSContext) : CheckResult :=
  let v := verdict 1 "MARGIN" in
  let policy := margin_policy context in
  if negb (check_enabled policy) then v PASS (Some MARGIN_CHECK_DISABLED)
  else if reduces intent then v PASS None
  else
    let account := str_upper (str_strip (opt_str (ibkr_account intent))) in
    if str_empty account then v REJECT (Some (MARGIN_SNAPSHOT_UNAVAILABLE EmptyString))
    else
      match margin_snapshots context !! account with
      | None => v REJECT (Some (MARGIN_SNAPSHOT_UNAVAILABLE account))
      | Some snapshot =>
          if is_stale now snapshot && reject_on_stale_snapshot policy
          then v REJECT (Some (MARGIN_SNAPSHOT_STALE account (max_age_sec snapshot)))
          else
            let (required, sources) :=
              estimate_required_margin intent (margin_rates context)
                (margin_rate_sources context) policy in
            if required <=? 0 then v PASS (Some MARGIN_ZERO_REQUIRED)
            else
              match effective_free_margin snapshot
                      (default [] (margin_commitments context !! account)) policy with
              | None => v REJECT (Some (MARGIN_SNAPSHOT_UNAVAILABLE account))
              | Some effective =>
                  match classify_headroom required effective policy with
                  | INSUFFICIENT =>
                      v REJECT (Some (MARGIN_INSUFFICIENT account required effective))
                  | COMFORTABLE => v PASS (Some (MARGIN_COMFORTABLE required effective))
                  | BORDERLINE => v PASS (Some (MARGIN_BORDERLINE required effective))
                  end
              end
      end.

Definition MarginCheck : BaseRMSCheck := {|
  bc_number := 1; bc_name := "MARGIN";
  bc_evaluate := fun i c => Ok (margin_evaluate i c) |}.
End MarginCheck.

(** ** Check 2: duplicate *)
Definition duplicate_evaluate (intent : OrderIntent) (context : RMSContext) : CheckResult :=
  let v := verdict 2 "DUPLICATE" in
  if bool_decide (action intent = CLOSE) then v PASS None
  else if bool_decide (duplicate_lookup_key intent ∈ processed_signals context)
  then v REJECT (Some (DUPLICATE_SIGNAL (signal_id intent) (strategy_id intent)))
  else v PASS None.

Definition DuplicateCheck : BaseRMSCheck := {|
  bc_number := 2; bc_name := "DUPLICATE";
  bc_evaluate := fun i c => Ok (duplicate_evaluate i c) |}.

(** ** Check 3: strategy *)
Definition strategy_evaluate (intent : OrderIntent) (context : RMSContext) : CheckResult :=
  let v := verdict 3 "STRATEGY" in
  if reduces intent then v PASS None
  else if str_empty (strategy_id intent) || str_empty (str_strip (strategy_id intent))
  then v REJECT (Some MISSING_STRATEGY_ID)
  else
    match strategy_configs context !! strategy_id intent with
    | None => v REJECT (Some (UNKNOWN_STRATEGY (strategy_id intent)))
    | Some _ => v PASS None
    end.

Definition StrategyCheck : BaseRMSCheck := {|
  bc_number := 3; bc_name := "STRATEGY";
  bc_evaluate := fun i c => Ok (strategy_evaluate i c) |}.

(** ** Check 4: contract month *)

(** [instruments/resolver.py]: which instrument types expire. *)
Definition ibkr_sec_type_or_none (requested : option string) : option string :=
  let raw := str_upper (str_strip (opt_str requested)) in
  if str_empty raw then None
  else if (raw =? "ETF")%string then Some "STK" else Some raw.

Definition is_expiry_sec_type (raw : string) : bool :=
  (raw =? "FUT")%string || (raw =? "FOP")%string || (raw =? "OPT")%string.

Definition is_expiry_instrument (instrument_type : option string) : bool :=
  let raw := str_upper (str_strip (opt_str instrument_type)) in
  if is_expiry_sec_type raw then true
  else match ibkr_sec_type_or_none (Some raw) with
       | Some t => is_expiry_sec_type t
       | None => false
       end.

(** [year, month = int(parts[0]), int(parts[1])] after splitting at the dash. *)
Definition parse_month (s : string) : result (Z * Z) :=
  match str_split "-"%char s with
  | y :: m :: _ => let! year := py_int y in let! month := py_int m in Ok (year, month)
  | y :: _ => let! _ := py_int y in Raise IndexError
  | [] => Raise IndexError
  end.

(** [f"{n:0<w>d}"], any sign. *)
Definition fmt_signed (w : nat) (n : Z) : string :=
  if (n <? 0)%Z then String "-"%char (fmt_d (w - 1) (- n)) else fmt_d w n.

Definition month_text (year month : Z) : string :=
  (fmt_signed 4 year +:+ "-" +:+ fmt_signed 2 month)%string.

Definition get_next_contract_month (current : option string) : result string :=
  match current with
  | None => Raise AttributeError
  | Some s =>
      match parse_month s with
      | Ok (year, month) =>
          if (month =? 12)%Z then Ok (fmt_signed 4 (year + 1) +:+ "-01")%string
          else Ok (month_text year (month + 1))
      | Raise (ValueError _) | Raise IndexError => Ok s
      | Raise e => Raise e
      end
  end.

(** The instants here are aware; [tzinfo=current_time.tzinfo] is UTC. *)
Definition is_default_rollover_active (contract_month : option string)
    (now window_days : Z) : result bool :=
  match contract_month with
  | None => Raise AttributeError
  | Some s =>
      match (let! ym := parse_month s in
             let (year, month) := ym : Z * Z in
             let! start := (if (month =? 12)%Z then month_start (year + 1) 1
                            else month_start year (month + 1)) in
             let days_remaining := td_days (start * day_us - now) in
             Ok ((0 <=? days_remaining) && (days_remaining <=? window_days))%Z) with
      | Raise (ValueError _) | Raise TypeError | Raise OverflowError => Ok false
      | r => r
      end
  end.

(** [replace(leg, contract_month=target)]. *)
Definition set_contract_month (target : option string) (leg : OrderLeg) : OrderLeg := {|
  leg_symbol := leg_symbol leg; leg_side := leg_side leg;
  leg_quantity := leg_quantity leg; leg_price := leg_price leg;
  leg_contract_month := target; leg_con_id := leg_con_id leg;
  leg_notional := leg_notional leg; leg_instrument_type := leg_instrument_type leg;
  leg_weight := leg_weight leg; leg_leg_index := leg_leg_index leg;
  leg_metadata := leg_metadata leg; leg_exchange := leg_exchange leg;
  leg_currency := leg_currency leg; leg_resolved := leg_resolved leg |}.

(** [OrderIntent(...)] without [intent_mode]: the field takes its default. *)
Definition adjust_intent (intent : OrderIntent) (target : option string) : OrderIntent := {|
  signal_id := signal_id intent; strategy_id := strategy_id intent;
  action := action intent; legs := map (set_contract_month target) (legs intent);
  account_id := account_id intent; ibkr_account := ibkr_account intent;
  market := market intent; timestamp := timestamp intent;
  intent_mode := MODE_OPEN |}.

Definition expiry_legs (intent : OrderIntent) : list OrderLeg :=
  List.filter (fun leg => is_expiry_instrument (leg_instrument_type leg)) (legs intent).

(** The rollover condition, evaluated for OPEN intents only. *)
Definition should_rollover (intent : OrderIntent) (context : RMSContext)
    (first_month : option string) : result bool :=
  if bool_decide (action intent = OPEN) then
    match rollover_checker context with
    | Some f => Ok (f first_month (current_time context) (rollover_window_days context))
    | None =>
        match target_rollover_month context with
        | Some _ => Ok true
        | None =>
            is_default_rollover_active first_month (current_time context)
              (rollover_window_days context)
        end
    end
  else Ok false.

Definition contract_month_evaluate (intent : OrderIntent) (context : RMSContext)
    : result CheckResult :=
  let v := verdict 4 "CONTRACT_MONTH" in
  match expiry_legs intent with
  | [] => Ok (v PASS None)
  | (first :: _) as expiring =>
      let first_month := leg_contract_month first in
      let mismatched :=
        existsb (fun leg => negb (bool_decide (leg_contract_month leg = first_month))) expiring in
      let! roll := should_rollover intent context first_month in
      if negb roll && negb mismatched then Ok (v PASS None)
      else
        let! target_month :=
          match target_rollover_month context with
          | Some m => Ok (Some m)
          | None =>
              if roll then let! m := get_next_contract_month first_month in Ok (Some m)
              else Ok first_month
          end in
        Ok {| check_number := 4; check_name := "CONTRACT_MONTH"; outcome := ADJUST;
              check_reason := Some (CONTRACT_MONTH_ROLLOVER first_month target_month);
              adjusted_intent := Some (adjust_intent intent target_month) |}
  end.

Definition ContractMonthCheck : BaseRMSCheck := {|
  bc_number := 4; bc_name := "CONTRACT_MONTH"; bc_evaluate := contract_month_evaluate |}.

(** ** Check 7: open-position limit *)
(** The account's own limit, when there is one, replaces the strategy's. *)
Definition position_cap (i : OrderIntent) (rc : RMSContext) (cfg : StrategyConfig) : option Z :=
  match account_id i with
  | Some a => match account_open_limits rc !! (a, strategy_id i) with
              | Some l => Some l
              | None => max_open_positions cfg
              end
  | None => max_open_positions cfg
  end.

Definition position_limit_evaluate (intent : OrderIntent) (context : RMSContext) : CheckResult :=
  let v := verdict 7 "OPEN_POSITION_LIMIT" in
  if bool_decide (action intent = CLOSE) then v PASS None
  else
    match strategy_configs context !! strategy_id intent with
    | None => v REJECT (Some (MISSING_STRATEGY_CONFIG (strategy_id intent)))
    | Some cfg =>
        let current_positions := default 0%Z (open_positions context !! open_position_key intent) in
        match position_cap intent context cfg with
        | None => v REJECT (Some (INVALID_MAX_POSITIONS_LIMIT (strategy_id intent) None))
        | Some limit =>
            if (limit <=? 0)%Z
            then v REJECT (Some (INVALID_MAX_POSITIONS_LIMIT (strategy_id intent) (Some limit)))
            else if (limit <=? current_positions)%Z
            then v REJECT (Some (OPEN_POSITION_LIMIT_REACHED (strategy_id intent)
                                   current_positions limit))
            else v PASS None
        end
    end.

Definition OpenPositionLimitCheck : BaseRMSCheck := {|
  bc_number := 7; bc_name := "OPEN_POSITION_LIMIT";
  bc_evaluate := fun i c => Ok (position_limit_evaluate i c) |}.

(** ** Check 8: money per stock *)

(** A Python [dict] of amounts, in insertion order. *)
Fixpoint dict_add (key : string) (amount : Q) (d : list (string * Q)) : list (string * Q) :=
  match d with
  | [] => [(key, dadd 0 amount)]
  | (k, x) :: d' =>
      if (k =? key)%string then (k, dadd x amount) :: d' else (k, x) :: dict_add key amount d'
  end.

Definition symbol_order_notionals (l : list OrderLeg) : list (string * Q) :=
  fold_left (fun d leg =>
    dict_add (normalize_symbol (JStr (leg_symbol leg))) (effective_notional leg) d) l [].

Definition symbol_limit (intent : OrderIntent) (context : RMSContext) (symbol : string) : option Q :=
  let strategy_limit :=
    match strategy_configs context !! strategy_id intent with
    | Some cfg => money_limit_per_symbol cfg
    | None => None
    end in
  let account_limit :=
    match account_id intent with
    | None => None
    | Some a =>
        match per_symbol_limits context !! (a, symbol) with
        | Some l => Some l
        | None => default_symbol_limits context !! a
        end
    end in
  match account_limit with Some l => Some l | None => strategy_limit end.

Fixpoint money_loop (intent : OrderIntent) (context : RMSContext)
    (d : list (string * Q)) : CheckResult :=
  let v := verdict 8 "MONEY_PER_STOCK" in
  match d with
  | [] => v PASS None
  | (symbol, order_notional) :: d' =>
      let missing := v REJECT (Some (NO_SYMBOL_LIMIT_CONFIGURED (account_id intent) symbol)) in
      match symbol_limit intent context symbol with
      | None => missing
      | Some limit =>
          if limit <=? 0 then missing
          else
            let existing := default 0 (symbol_exposures context !! exposure_key intent symbol) in
            let total := dadd existing order_notional in
            if limit <? total
            then v REJECT (Some (MONEY_LIMIT_EXCEEDED symbol total existing order_notional limit))
            else money_loop intent context d'
      end
  end.

Definition money_evaluate (intent : OrderIntent) (context : RMSContext) : CheckResult :=
  if reduces intent then verdict 8 "MONEY_PER_STOCK" PASS None
  else money_loop intent context (symbol_order_notionals (legs intent)).

Definition MoneyPerStockCheck : BaseRMSCheck := {|
  bc_number := 8; bc_name := "MONEY_PER_STOCK";
  bc_evaluate := fun i c => Ok (money_evaluate i c) |}.

(** ** Check 101: model market value *)
Definition market_value_evaluate (intent : OrderIntent) (context : RMSContext) : CheckResult :=
  let v := verdict 101 "MODEL_MARKET_VALUE" in
  if negb (market_value_check_enabled context) then v PASS (Some MARKET_VALUE_CHECK_DISABLED)
  else if reduces intent then v PASS None
  else
    match model_value_key intent with
    | None => v PASS (Some NO_ACCOUNT_SCOPE)
    | Some key =>
        let unknown := v REJECT (Some (MODEL_VALUE_LIMIT_UNKNOWN (fst key) (snd key))) in
        match model_value_limit context !! key with
        | None => unknown
        | Some limit =>
            if limit <=? 0 then unknown
            else
              let required := intent_market_value intent in
              if required <=? 0 then v PASS None
              else
                let used := default 0 (model_value_used context !! key) in
                let projected := dadd used required in
                if limit <? projected
                then v REJECT (Some (MODEL_VALUE_EXCEEDED (fst key) (snd key)
                                       projected used required limit))
                else v PASS None
        end
    end.

Definition ModelMarketValueCheck : BaseRMSCheck := {|
  bc_number := 101; bc_name := "MODEL_MARKET_VALUE";
  bc_evaluate := fun i c => Ok (market_value_evaluate i c) |}.

(** ** Contract months: printing, parsing, and the next month *)
Lemma of_chars_app (a b : list Ascii.ascii) :
  of_chars (a ++ b) = (of_chars a +:+ of_chars b)%string.
Proof. induction a as [|c a IH]; simpl; [done|]. by rewrite IH. Qed.

Lemma split_on_none (c : Ascii.ascii) (l : list Ascii.ascii) :
  Forall (fun x => x <> c) l -> split_on c l = [l].
Proof.
  induction 1 as [|x l Hx _ IH]; simpl; [done|]. rewrite IH.
  by destruct (Ascii.eqb_spec x c).
Qed.

Lemma split_on_app (c : Ascii.ascii) (l1 l2 : list Ascii.ascii) :
  Forall (fun x => x <> c) l1 -> split_on c (l1 ++ c :: l2) = l1 :: split_on c l2.
Proof.
  induction 1 as [|x l Hx _ IH]; simpl.
  - by rewrite Ascii.eqb_refl.
  - rewrite IH. by destruct (Ascii.eqb_spec x c).
Qed.

Lemma digits_no_dash (w : nat) (n : Z) : Forall (fun x => x <> "-"%char) (digits_of w n).
Proof.
  eapply Forall_impl; [apply digits_of_all|]. intros c Hc ->. by vm_compute in Hc.
Qed.

Lemma fmt_signed_pos (w : nat) (n : Z) : (0 <= n)%Z -> fmt_signed w n = fmt_d w n.
Proof. intros H. unfold fmt_signed. destruct (Z.ltb_spec n 0); [lia|done]. Qed.

Lemma month_text_chars (y m : Z) :
  (0 <= y)%Z -> (0 <= m)%Z ->
  month_text y m = of_chars (digits_of (Nat.max 4 (num_len y)) y ++ "-"%char ::
                             digits_of (Nat.max 2 (num_len m)) m).
Proof.
  intros Hy Hm. unfold month_text. rewrite !fmt_signed_pos by done.
  by rewrite of_chars_app.
Qed.

Lemma parse_month_text (y m : Z) :
  (0 <= y)%Z -> (0 <= m)%Z -> parse_month (month_text y m) = Ok (y, m).
Proof.
  intros Hy Hm. unfold parse_month, str_split. rewrite month_text_chars by done.
  rewrite String.list_ascii_of_string_of_list_ascii, split_on_app, split_on_none
    by apply digits_no_dash.
  cbn [map]. fold (fmt_d 4 y) (fmt_d 2 m). by rewrite !py_int_fmt by done.
Qed.

(** A month without a dash splits into one part. *)
Lemma parse_month_compact (w : nat) (n : Z) :
  (0 <= n)%Z -> parse_month (fmt_d w n) = Raise IndexError.
Proof.
  intros Hn. unfold parse_month, str_split. unfold fmt_d at 1.
  rewrite String.list_ascii_of_string_of_list_ascii, split_on_none by apply digits_no_dash.
  cbn [map]. fold (fmt_d w n). by rewrite py_int_fmt by done.
Qed.

Definition next_month (ym : Z * Z) : Z * Z :=
  if (snd ym =? 12)%Z then (fst ym + 1, 1)%Z else (fst ym, snd ym + 1)%Z.
Definition month_string (ym : Z * Z) : string := month_text (fst ym) (snd ym).

Lemma next_contract_month_text (y m : Z) :
  (0 <= y)%Z -> (1 <= m <= 12)%Z ->
  get_next_contract_month (Some (month_string (y, m))) = Ok (month_string (next_month (y, m))).
Proof.
  intros Hy Hm. unfold get_next_contract_month, month_string, next_month. cbn [fst snd].
  rewrite parse_month_text by lia.
  destruct (Z.eqb_spec m 12) as [->|]; [|done]. cbn [fst snd]. unfold month_text.
  do 2 f_equal.
Qed.

(** A month as a number of months, and back. *)
Definition month_index (ym : Z * Z) : Z := (12 * fst ym + snd ym - 1)%Z.
Definition month_of_index (k : Z) : Z * Z := (k / 12, k mod 12 + 1)%Z.

Lemma month_of_index_next (k : Z) : next_month (month_of_index k) = month_of_index (k + 1).
Proof.
  unfold next_month, month_of_index. cbn [fst snd].
  destruct (Z.eqb_spec (k mod 12 + 1) 12); f_equal; Z.div_mod_to_equations; lia.
Qed.

Lemma month_index_of (ym : Z * Z) :
  (1 <= snd ym <= 12)%Z -> month_of_index (month_index ym) = ym.
Proof.
  destruct ym as [y m]. unfold month_of_index, month_index. cbn [fst snd]. intros Hm.
  f_equal; Z.div_mod_to_equations; lia.
Qed.

(** Rolling [n] times. *)
Fixpoint roll (n : nat) (s : string) : result string :=
  match n with
  | O => Ok s
  | S n' => let! s' := get_next_contract_month (Some s) in roll n' s'
  end.

(** Rolling a contract month forward never loses a month: starting from a
    month printed YYYY-MM, [n] applications of [get_next_contract_month]
    succeed and print the month exactly [n] calendar months later, December
    carrying into the year, so that parsing the result gives it back. *)
Theorem roll_contract_month (n : nat) (y m : Z) :
  (0 <= y)%Z -> (1 <= m <= 12)%Z ->
  let target := month_of_index (month_index (y, m) + Z.of_nat n) in
  roll n (month_string (y, m)) = Ok (month_string target) /\
  parse_month (month_string target) = Ok target.
Proof.
  intros Hy Hm. set (k := month_index (y, m)). assert (Hk : (0 <= k)%Z).
  { unfold k, month_index. simpl. lia. }
  assert (Hb : forall j, (0 <= j)%Z -> (0 <= fst (month_of_index j))%Z /\
      (1 <= snd (month_of_index j) <= 12)%Z).
  { intros j Hj. unfold month_of_index. cbn [fst snd].
    pose proof (Z.mod_pos_bound j 12 ltac:(lia)). pose proof (Z.div_pos j 12). lia. }
  rewrite <- (month_index_of (y, m)) by done. fold k. clearbody k. split.
  - revert k Hk. induction n as [|n IH]; intros k Hk; cbn [roll].
    + by rewrite Z.add_0_r.
    + destruct (Hb k Hk) as [H1 H2]. destruct (month_of_index k) as [y' m'] eqn:E.
      rewrite next_contract_month_text by done. cbn [rbind]. rewrite <- E, month_of_index_next.
      rewrite IH by lia. do 3 f_equal. lia.
  - destruct (Hb (k + Z.of_nat n)%Z ltac:(lia)) as [H1 H2].
    unfold month_string. rewrite parse_month_text by lia. by destruct (month_of_index _).
Qed.

(** An adjustment aligns: when the contract-month check adjusts, the
    intent it produces has as many legs as before, all of them with one and
    the same contract month, and the same identity, action, account, market
    and timestamp; but its [intent_mode] is reset to OPEN, whatever it was.
    On a CLOSE the adjustment is idempotent: checking the adjusted intent
    again passes without another adjustment. *)
Theorem contract_month_adjusts (i : OrderIntent) (rc : RMSContext) (r : CheckResult) :
  contract_month_evaluate i rc = Ok r -> outcome r = ADJUST ->
  exists m, adjusted_intent r = Some (adjust_intent i m) /\
    Forall (fun leg => leg_contract_month leg = m) (legs (adjust_intent i m)) /\
    length (legs (adjust_intent i m)) = length (legs i) /\
    intent_mode (adjust_intent i m) = MODE_OPEN /\
    (action i = CLOSE ->
     contract_month_evaluate (adjust_intent i m) rc = Ok (verdict 4 "CONTRACT_MONTH" PASS None)).
Proof.
  intros H Ho. unfold contract_month_evaluate in H.
  destruct (expiry_legs i) as [|f l] eqn:El; [by injection H as <-|].
  apply rbind_ok in H as (roll & _ & H). case_match; [by injection H as <-|].
  apply rbind_ok in H as (m & _ & [= <-]). exists m.
  assert (Hall : Forall (fun leg => leg_contract_month leg = m) (legs (adjust_intent i m))).
  { apply Forall_map, Forall_true. done. }
  split; [done|]. split; [done|]. split; [by apply length_map|]. split; [done|].
  intros Hc. unfold contract_month_evaluate.
  assert (Hex : Forall (fun leg => leg_contract_month leg = m) (expiry_legs (adjust_intent i m))).
  { apply List.Forall_forall. intros x Hx. apply filter_In in Hx as [Hx _].
    rewrite List.Forall_forall in Hall. by apply Hall. }
  destruct (expiry_legs (adjust_intent i m)) as [|g l']; [done|].
  unfold should_rollover. rewrite bool_decide_eq_false_2 by (simpl; congruence). simpl.
  inversion Hex as [|? ? Hg Hl']; subst. rewrite bool_decide_eq_true_2 by done. simpl.
  replace (existsb _ l') with false; [done|]. symmetry. apply not_true_iff_false.
  rewrite existsb_exists. intros (x & Hx & Hne). rewrite List.Forall_forall in Hl'.
  by rewrite (Hl' x Hx), bool_decide_eq_true_2 in Hne.
Qed.

(** The default rollover test does not accept IBKR's compact month format:
    for any contract month printed as digits only, such as 202609, an OPEN
    whose first expiring leg carries it makes check 4 raise [IndexError]
    (which the function does not catch), where the sibling
    [get_next_contract_month] returns the month unchanged. *)
Theorem compact_month_raises (w : nat) (n : Z) (i : OrderIntent) (rc : RMSContext)
    (first : OrderLeg) (rest : list OrderLeg) :
  (0 <= n)%Z -> action i = OPEN -> expiry_legs i = first :: rest ->
  leg_contract_month first = Some (fmt_d w n) ->
  rollover_checker rc = None -> target_rollover_month rc = None ->
  contract_month_evaluate i rc = Raise IndexError /\
  get_next_contract_month (Some (fmt_d w n)) = Ok (fmt_d w n).
Proof.
  intros Hn Ha He Hm Hr Ht. unfold get_next_contract_month. rewrite parse_month_compact by done.
  split; [|done]. unfold contract_month_evaluate, should_rollover.
  rewrite He, Ha, Hr, Ht, Hm. simpl. by rewrite parse_month_compact.
Qed.

Lemma roll_contract_month_witness :
  roll 3 "2026-11" = Ok "2027-02" /\ parse_month "2027-02" = Ok (2027%Z, 2%Z).
Proof. apply (roll_contract_month 3 2026 11); lia. Defined.

Lemma contract_month_adjusts_witness :
  exists m, adjusted_intent
    {| check_number := 4; check_name := "CONTRACT_MONTH"; outcome := ADJUST;
       check_reason := Some (CONTRACT_MONTH_ROLLOVER (Some "2026-09") (Some "2026-09"));
       adjusted_intent := Some (adjust_intent
         (ex_intent CLOSE [ex_future "2026-09"; ex_future "2026-12"]) (Some "2026-09")) |}
    = Some (adjust_intent (ex_intent CLOSE [ex_future "2026-09"; ex_future "2026-12"]) m).
Proof.
  edestruct (contract_month_adjusts (ex_intent CLOSE [ex_future "2026-09"; ex_future "2026-12"])
               ex_context) as (m & Hm & _); [vm_compute; reflexivity|reflexivity|].
  exists m. exact Hm.
Defined.

Lemma compact_month_raises_witness :
  contract_month_evaluate (ex_intent OPEN [ex_future "202609"]) ex_context = Raise IndexError /\
  get_next_contract_month (Some "202609"%string) = Ok "202609"%string.
Proof.
  apply (compact_month_raises 6 202609 (ex_intent OPEN [ex_future "202609"]) ex_context
           (ex_future "202609") []); [lia|reflexivity..].
Defined.
