(* ===== verification/Engine.v ===== *)
(** * The RMS engine: [backend/app/rms/engine.py]

    The pipeline of checks, and what its outcome guarantees. *)

From S2P Require Import Prelude Rounding PyText PyTime Identifiers RmsModels Margin Checks.

#[local] Open Scope Q_scope.
#[local] Open Scope py_scope.

(** [now] is the clock that the margin check reads for staleness. *)
Definition get_default_checks (now : Z) : list BaseRMSCheck :=
  [ MarginCheck now; DuplicateCheck; StrategyCheck; ContractMonthCheck;
    OpenPositionLimitCheck; MoneyPerStockCheck; ModelMarketValueCheck ].

Definition stops (o : RMSOutcome) : bool :=
  match o with REJECT | HALT => true | _ => false end.

(** The intent the next check sees. *)
Definition next_intent (r : CheckResult) (current : OrderIntent) : OrderIntent :=
  match outcome r, adjusted_intent r with
  | ADJUST, Some i => i
  | _, _ => current
  end.

(** The loop [for check in self.checks]; [audit] is [check_results]. *)
Fixpoint run_checks (checks : list BaseRMSCheck) (original current : OrderIntent)
    (context : RMSContext) (audit : list CheckResult) : result RMSResult :=
  match checks with
  | [] =>
      Ok {| res_outcome := PASS; res_intent := current; original_intent := original;
            res_check_number := None; res_reason := None; check_results := audit |}
  | check :: checks' =>
      let! r := bc_evaluate check current context in
      let audit' := audit ++ [r] in
      if stops (outcome r) then
        Ok {| res_outcome := outcome r; res_intent := current; original_intent := original;
              res_check_number := Some (check_number r); res_reason := check_reason r;
              check_results := audit' |}
      else run_checks checks' original (next_intent r current) context audit'
  end.

Definition evaluate (checks : list BaseRMSCheck) (order_intent : OrderIntent)
    (context : RMSContext) : result RMSResult :=
  run_checks checks order_intent order_intent context [].

(** ** Specification: the first check that stops decides

    [passes cs i j rs]: every check of [cs] lets the intent through, starting
    from [i] and ending with [j], with results [rs]. *)
Inductive passes (rc : RMSContext) :
    list BaseRMSCheck -> OrderIntent -> OrderIntent -> list CheckResult -> Prop :=
  | passes_nil i : passes rc [] i i []
  | passes_cons c cs i j r rs :
      bc_evaluate c i rc = Ok r -> stops (outcome r) = false ->
      passes rc cs (next_intent r i) j rs ->
      passes rc (c :: cs) i j (r :: rs).

Inductive decides (rc : RMSContext) (cs : list BaseRMSCheck) (i : OrderIntent) :
    RMSResult -> Prop :=
  | decides_pass j rs :
      passes rc cs i j rs ->
      decides rc cs i
        {| res_outcome := PASS; res_intent := j; original_intent := i;
           res_check_number := None; res_reason := None; check_results := rs |}
  | decides_stop cs1 c cs2 j rs r :
      cs = cs1 ++ c :: cs2 -> passes rc cs1 i j rs ->
      bc_evaluate c j rc = Ok r -> stops (outcome r) = true ->
      decides rc cs i
        {| res_outcome := outcome r; res_intent := j; original_intent := i;
           res_check_number := Some (check_number r); res_reason := check_reason r;
           check_results := rs ++ [r] |}.

Lemma passes_snoc rc cs i j rs c r :
  passes rc cs i j rs -> bc_evaluate c j rc = Ok r -> stops (outcome r) = false ->
  passes rc (cs ++ [c]) i (next_intent r j) (rs ++ [r]).
Proof. induction 1; intros; simpl; econstructor; eauto using passes_nil. Qed.

Lemma run_checks_decides rc cs0 cs original current audit res :
  passes rc cs0 original current audit ->
  run_checks cs original current rc audit = Ok res ->
  decides rc (cs0 ++ cs) original res.
Proof.
  revert cs0 current audit. induction cs as [|c cs IH]; intros cs0 current audit Hp; simpl.
  - intros [= <-]. rewrite app_nil_r. by constructor.
  - intros H. apply rbind_ok in H as (r & Hr & H). destruct (stops (outcome r)) eqn:Es.
    + injection H as <-. by eapply decides_stop.
    + replace (cs0 ++ c :: cs) with ((cs0 ++ [c]) ++ cs) by (by rewrite <- app_assoc).
      eapply IH; [|exact H]. by eapply passes_snoc.
Qed.

Lemma run_checks_pass rc cs original current audit j rs :
  passes rc cs current j rs ->
  run_checks cs original current rc audit =
    Ok {| res_outcome := PASS; res_intent := j; original_intent := original;
          res_check_number := None; res_reason := None; check_results := audit ++ rs |}.
Proof.
  intros H. revert audit. induction H as [i|c cs i j r rs Hr Hs _ IH]; intros audit; simpl.
  - by rewrite app_nil_r.
  - rewrite Hr. simpl. rewrite Hs, IH. by rewrite <- app_assoc.
Qed.

Lemma run_checks_stop rc cs1 c cs2 original current audit j rs r :
  passes rc cs1 current j rs -> bc_evaluate c j rc = Ok r -> stops (outcome r) = true ->
  run_checks (cs1 ++ c :: cs2) original current rc audit =
    Ok {| res_outcome := outcome r; res_intent := j; original_intent := original;
          res_check_number := Some (check_number r); res_reason := check_reason r;
          check_results := (audit ++ rs) ++ [r] |}.
Proof.
  intros H. revert audit. induction H as [i|c' cs i j r' rs Hr' Hs' _ IH];
    intros audit Hr Hs; simpl.
  - rewrite Hr. simpl. rewrite Hs. by rewrite app_nil_r.
  - rewrite Hr'. simpl. rewrite Hs', IH by done. by rewrite <- (app_assoc audit).
Qed.

Lemma evaluate_decides_aux cs i rc res :
  evaluate cs i rc = Ok res -> decides rc cs i res.
Proof. intros H. change cs with ([] ++ cs). by eapply run_checks_decides; [constructor|]. Qed.

(** The engine implements the first-stop specification: [evaluate] returns
    a result exactly when the specification relation [decides] allows it -- the
    outcome is that of the first check that rejects or halts, on the intent as
    adjusted by the checks before it, and PASS when there is none; the audit
    trail lists the results of exactly the checks that ran, in order. *)
Theorem evaluate_decides cs i rc res :
  evaluate cs i rc = Ok res <-> decides rc cs i res.
Proof.
  split.
  - apply evaluate_decides_aux.
  - destruct 1 as [j rs Hp|cs1 c cs2 j rs r -> Hp Hr Hs]; unfold evaluate.
    + by rewrite (run_checks_pass rc cs i i [] j rs Hp).
    + by rewrite (run_checks_stop rc cs1 c cs2 i i [] j rs r Hp Hr Hs).
Qed.

(** ** Reductions are never blocked *)

(** The default checks other than the contract-month check let a CLOSE
    through unadjusted. *)
Lemma reduces_close i : action i = CLOSE -> reduces i = true.
Proof. intros H. unfold reduces. by rewrite bool_decide_eq_true_2. Qed.

Lemma margin_close now i c :
  action i = CLOSE -> outcome (margin_evaluate now i c) = PASS.
Proof. intros H. unfold margin_evaluate. rewrite (reduces_close _ H). by case_match. Qed.

Lemma duplicate_close i c : action i = CLOSE -> outcome (duplicate_evaluate i c) = PASS.
Proof. intros H. unfold duplicate_evaluate. by rewrite bool_decide_eq_true_2. Qed.

Lemma strategy_close i c : action i = CLOSE -> outcome (strategy_evaluate i c) = PASS.
Proof. intros H. unfold strategy_evaluate. by rewrite (reduces_close _ H). Qed.

Lemma position_limit_close i c : action i = CLOSE -> outcome (position_limit_evaluate i c) = PASS.
Proof. intros H. unfold position_limit_evaluate. by rewrite bool_decide_eq_true_2. Qed.

Lemma money_close i c : action i = CLOSE -> outcome (money_evaluate i c) = PASS.
Proof. intros H. unfold money_evaluate. by rewrite (reduces_close _ H). Qed.

Lemma market_value_close i c : action i = CLOSE -> outcome (market_value_evaluate i c) = PASS.
Proof. intros H. unfold market_value_evaluate. rewrite (reduces_close _ H). by case_match. Qed.

(** The expiring legs of an intent agree on their contract month. *)
Definition months_agree (i : OrderIntent) : Prop :=
  forall l l', l ∈ expiry_legs i -> l' ∈ expiry_legs i ->
    leg_contract_month l = leg_contract_month l'.

(** [j] is [i] with the month [m] on every leg -- and with the default
    [intent_mode], which the rebuilt intent does not copy. *)
Record realigned (m : option string) (i j : OrderIntent) : Prop := {
  ra_signal : signal_id j = signal_id i;
  ra_strategy : strategy_id j = strategy_id i;
  ra_action : action j = action i;
  ra_account : account_id j = account_id i;
  ra_ibkr : ibkr_account j = ibkr_account i;
  ra_market : market j = market i;
  ra_timestamp : timestamp j = timestamp i;
  ra_mode : intent_mode j = MODE_OPEN;
  ra_legs : Forall2 (fun l l' =>
    leg_contract_month l' = m /\ l = set_contract_month (leg_contract_month l) l')
    (legs i) (legs j)
}.

Lemma adjust_realigned i m : realigned m i (adjust_intent i m).
Proof.
  split; try done. simpl. induction (legs i) as [|l ls IH]; simpl; constructor; [|done].
  split; [done|]. by destruct l.
Qed.

(** On a CLOSE the contract-month check never raises and never stops; it
    aligns the contract months when the expiring legs disagree on them. *)
Lemma contract_month_close i c :
  action i = CLOSE ->
  exists r, contract_month_evaluate i c = Ok r /\ stops (outcome r) = false /\
    (months_agree i -> next_intent r i = i) /\
    (~ months_agree i -> exists first, head (expiry_legs i) = Some first /\
       next_intent r i = adjust_intent i
         (match target_rollover_month c with Some m => Some m | None => leg_contract_month first end)).
Proof.
  intros H. unfold contract_month_evaluate, should_rollover, months_agree.
  rewrite bool_decide_eq_false_2 by congruence.
  destruct (expiry_legs i) as [|f l].
  { eexists. split; [done|]. split; [done|]. split; [done|]. intros Hx. destruct Hx.
    intros ? ? Hin. by apply not_elem_of_nil in Hin. }
  cbn [rbind negb andb].
  destruct (existsb _ (f :: l)) eqn:Em; cbn [negb andb].
  - assert (Hno : ~ forall l0 l', l0 ∈ f :: l -> l' ∈ f :: l ->
              leg_contract_month l0 = leg_contract_month l').
    { intros Ha. apply existsb_exists in Em as (x & Hx & Hn). apply negb_true_iff in Hn.
      apply bool_decide_eq_false in Hn. apply Hn, Ha; [by apply list_elem_of_In|by left]. }
    destruct (target_rollover_month c) as [m|]; cbn [rbind];
      (eexists; split; [done|]; split; [done|]; split; [done|]; intros _; by exists f).
  - eexists. split; [done|]. split; [done|]. split; [done|]. intros Hx. destruct Hx.
    assert (Hs : forall x, x ∈ f :: l -> leg_contract_month x = leg_contract_month f).
    { intros x Hx. destruct (decide (leg_contract_month x = leg_contract_month f)) as [|Hn]; [done|].
      rewrite <- not_true_iff_false in Em. destruct Em. apply existsb_exists. exists x.
      split; [by apply list_elem_of_In|]. by rewrite bool_decide_eq_false_2. }
    intros x y Hx Hy. by rewrite (Hs x Hx), (Hs y Hy).
Qed.

Lemma contract_month_action i c r :
  contract_month_evaluate i c = Ok r ->
  adjusted_intent r = None \/ forall j, adjusted_intent r = Some j -> action j = action i.
Proof.
  unfold contract_month_evaluate. destruct (expiry_legs i) as [|f l]; [intros [= <-]; by left|].
  intros (roll & _ & H)%rbind_ok. case_match; [injection H as <-; by left|].
  apply rbind_ok in H as (t & _ & H). injection H as <-. right. by intros j [= <-].
Qed.

Create HintDb rms.
#[export] Hint Resolve margin_close duplicate_close strategy_close position_limit_close
  money_close market_value_close : rms.

Lemma passes_one rc c cs i i' j r rs :
  bc_evaluate c i rc = Ok r -> stops (outcome r) = false -> next_intent r i = i' ->
  passes rc cs i' j rs -> passes rc (c :: cs) i j (r :: rs).
Proof. intros ? ? <-. by econstructor. Qed.

Lemma pass_not_stops r : outcome r = PASS -> stops (outcome r) = false.
Proof. by intros ->. Qed.

Lemma pass_next_intent r i : outcome r = PASS -> next_intent r i = i.
Proof. unfold next_intent. by intros ->. Qed.

(** A check whose [evaluate] is total and passes leaves the intent alone. *)
Ltac pass_step :=
  eapply passes_one; [reflexivity
    | apply pass_not_stops; eauto with rms
    | apply pass_next_intent; eauto with rms |].

Lemma close_after_month rc j :
  action j = CLOSE ->
  exists rs, passes rc [OpenPositionLimitCheck; MoneyPerStockCheck; ModelMarketValueCheck] j j rs
    /\ length rs = 3%nat.
Proof. intros Hc. eexists. split; [do 3 pass_step; constructor|done]. Qed.

(** C15: a CLOSE is never blocked: for every CLOSE intent and every RMS state,
    the default pipeline returns (it raises no exception), its outcome is PASS
    and all seven checks ran.  When the expiring legs of the intent agree on
    their contract month, the intent handed on is the original one; when they
    do not, every leg of it has the context's rollover month, or without one
    the month of the first expiring leg, its [intent_mode] is reset to the
    default (the check rebuilds the intent without that field), and nothing
    else of it changed. *)
Theorem close_never_blocked (now : Z) (i : OrderIntent) (rc : RMSContext) :
  action i = CLOSE ->
  exists res, evaluate (get_default_checks now) i rc = Ok res /\
    res_outcome res = PASS /\ length (check_results res) = 7%nat /\
    (months_agree i -> res_intent res = i) /\
    (~ months_agree i -> exists first, head (expiry_legs i) = Some first /\
       realigned (match target_rollover_month rc with
                  | Some m => Some m
                  | None => leg_contract_month first
                  end) i (res_intent res)).
Proof.
  intros Hc. destruct (contract_month_close i rc Hc) as (r & Hr & Hs & Hsame & Hadj).
  assert (Hj : action (next_intent r i) = CLOSE).
  { unfold next_intent. destruct (outcome r) eqn:Eo; [done|done| |done].
    destruct (adjusted_intent r) as [j|] eqn:Ej; [|done].
    destruct (contract_month_action i rc r Hr) as [E|E]; [congruence|]. by rewrite (E j Ej). }
  destruct (close_after_month rc (next_intent r i) Hj) as (rs & Hp & Hl).
  eexists. split; [|split; [|split; [|split]]].
  - unfold evaluate, get_default_checks. eapply run_checks_pass.
    do 3 pass_step. eapply passes_cons; [exact Hr|exact Hs|exact Hp].
  - done.
  - simpl. by rewrite Hl.
  - exact Hsame.
  - intros Hn. destruct (Hadj Hn) as (first & Hf & E). exists first. split; [done|].
    simpl. rewrite E. apply adjust_realigned.
Qed.

(** ** What PASS guarantees for an OPEN *)

(** The limits of each check, read from the RMS state. *)
Definition not_duplicate (i : OrderIntent) (rc : RMSContext) : Prop :=
  duplicate_lookup_key i ∉ processed_signals rc.

Definition strategy_known (i : OrderIntent) (rc : RMSContext) : Prop :=
  is_Some (strategy_configs rc !! strategy_id i).

Definition position_room (i : OrderIntent) (rc : RMSContext) : Prop :=
  exists cfg limit, strategy_configs rc !! strategy_id i = Some cfg /\
    position_cap i rc cfg = Some limit /\
    (default 0 (open_positions rc !! open_position_key i) < limit)%Z.

Definition symbol_room (i : OrderIntent) (rc : RMSContext) (symbol : string) (amount : Q) : Prop :=
  exists limit, symbol_limit i rc symbol = Some limit /\ 0 < limit /\
    dadd (default 0 (symbol_exposures rc !! exposure_key i symbol)) amount <= limit.

Definition money_room (i : OrderIntent) (rc : RMSContext) : Prop :=
  Forall (fun d => symbol_room i rc (fst d) (snd d)) (symbol_order_notionals (legs i)).

Definition model_value_room (i : OrderIntent) (rc : RMSContext) : Prop :=
  forall key, model_value_key i = Some key ->
  exists limit, model_value_limit rc !! key = Some limit /\ 0 < limit /\
    (0 < intent_market_value i ->
     dadd (default 0 (model_value_used rc !! key)) (intent_market_value i) <= limit).

Definition margin_room (now : Z) (i : OrderIntent) (rc : RMSContext) : Prop :=
  exists snapshot,
    margin_snapshots rc !! str_upper (str_strip (opt_str (ibkr_account i))) = Some snapshot /\
    (reject_on_stale_snapshot (margin_policy rc) = true -> is_stale now snapshot = false) /\
    let required := fst (estimate_required_margin i (margin_rates rc)
                           (margin_rate_sources rc) (margin_policy rc)) in
    (0 < required -> exists free,
      effective_free_margin snapshot
        (default [] (margin_commitments rc !!
                       str_upper (str_strip (opt_str (ibkr_account i))))) (margin_policy rc)
        = Some free /\
      required < dsub free (min_free_buffer (margin_policy rc))).

Lemma reduces_false i : action i = OPEN -> intent_mode i <> EMERGENCY_FLATTEN -> reduces i = false.
Proof.
  intros H1 H2. unfold reduces. rewrite H1.
  by rewrite (bool_decide_eq_false_2 _ H2), bool_decide_eq_false_2.
Qed.

Lemma duplicate_pass i rc :
  action i = OPEN -> stops (outcome (duplicate_evaluate i rc)) = false -> not_duplicate i rc.
Proof.
  intros H. unfold duplicate_evaluate, not_duplicate.
  rewrite bool_decide_eq_false_2 by congruence. by case_bool_decide.
Qed.

Lemma strategy_pass i rc :
  reduces i = false -> stops (outcome (strategy_evaluate i rc)) = false -> strategy_known i rc.
Proof.
  intros H. unfold strategy_evaluate, strategy_known. rewrite H.
  case_match; [done|]. destruct (strategy_configs rc !! strategy_id i); eauto. done.
Qed.

Lemma position_limit_pass i rc :
  action i = OPEN -> stops (outcome (position_limit_evaluate i rc)) = false -> position_room i rc.
Proof.
  intros H. unfold position_limit_evaluate. rewrite bool_decide_eq_false_2 by congruence.
  destruct (strategy_configs rc !! strategy_id i) as [cfg|] eqn:Ec; [|done].
  destruct (position_cap i rc cfg) as [limit|] eqn:El; [|done].
  destruct (limit <=? 0)%Z eqn:E0; [done|].
  destruct (limit <=? default 0 (open_positions rc !! open_position_key i))%Z eqn:E1;
    [done|]. intros _. bool_to_prop.
  exists cfg, limit. auto.
Qed.

(** Check 8 passes exactly when every symbol of the order has room. *)
Lemma money_loop_iff i rc d :
  stops (outcome (money_loop i rc d)) = false <->
  Forall (fun d => symbol_room i rc (fst d) (snd d)) d.
Proof.
  induction d as [|[s x] d IH]; cbn [money_loop]; [split; [constructor|done]|].
  rewrite Forall_cons, <- IH. cbn [fst snd]. unfold symbol_room.
  destruct (symbol_limit i rc s) as [limit|]; [|split; [done|by intros [(? & ? & _) _]]].
  destruct (limit <=? 0) eqn:E0; bool_to_prop.
  { split; [done|]. intros [(? & [= <-] & ? & _) _]. lra. }
  destruct (limit <? _) eqn:E1; bool_to_prop.
  { split; [done|]. intros [(? & [= <-] & _ & ?) _]. lra. }
  split; [eauto 10|tauto].
Qed.

Lemma money_pass i rc :
  reduces i = false -> stops (outcome (money_evaluate i rc)) = false -> money_room i rc.
Proof. intros H. unfold money_evaluate. rewrite H. apply money_loop_iff. Qed.

Lemma market_value_pass i rc :
  reduces i = false -> market_value_check_enabled rc = true ->
  stops (outcome (market_value_evaluate i rc)) = false -> model_value_room i rc.
Proof.
  intros H He. unfold market_value_evaluate, model_value_room. rewrite He, H. simpl.
  intros Hs key Hk. rewrite Hk in Hs.
  destruct (model_value_limit rc !! key) as [limit|]; [|done].
  destruct (limit <=? 0) eqn:E0; [done|]. bool_to_prop. exists limit.
  split; [done|split; [done|]]. intros Hpos.
  destruct (intent_market_value i <=? 0) eqn:E1; bool_to_prop; [lra|].
  destruct (limit <? _) eqn:E2; [done|]. by bool_to_prop.
Qed.

Lemma margin_pass now i rc :
  reduces i = false -> check_enabled (margin_policy rc) = true ->
  stops (outcome (margin_evaluate now i rc)) = false -> margin_room now i rc.
Proof.
  intros H He. unfold margin_evaluate, margin_room. rewrite He, H. cbn [negb].
  case_match; [done|].
  destruct (margin_snapshots rc !! _) as [sn|] eqn:Esn; [|done].
  destruct (is_stale now sn && _) eqn:Est; [done|].
  destruct (estimate_required_margin _ _ _ _) as [req srcs] eqn:Er.
  intros Hs. exists sn. split; [done|]. split.
  { intros Hr. rewrite Hr, andb_true_r in Est. done. }
  simpl. intros Hpos. destruct (req <=? 0) eqn:E0; bool_to_prop; [lra|].
  destruct (effective_free_margin _ _ _) as [free|]; [|done]. exists free. split; [done|].
  unfold classify_headroom in Hs. destruct (_ <=? req) eqn:E1; [done|]. by bool_to_prop.
Qed.

(** Contract months do not enter any limit. *)
Lemma symbol_order_notionals_adjust m l :
  symbol_order_notionals (map (set_contract_month m) l) = symbol_order_notionals l.
Proof.
  unfold symbol_order_notionals. generalize (@nil (string * Q)).
  induction l as [|x l IH]; intros d; [done|]. apply IH.
Qed.

Lemma intent_market_value_adjust m i :
  intent_market_value (adjust_intent i m) = intent_market_value i.
Proof. unfold intent_market_value. simpl. by rewrite map_map. Qed.

Lemma money_room_adjust i m rc : money_room (adjust_intent i m) rc <-> money_room i rc.
Proof. unfold money_room. simpl. by rewrite symbol_order_notionals_adjust. Qed.

Lemma model_value_room_adjust i m rc :
  model_value_room (adjust_intent i m) rc <-> model_value_room i rc.
Proof. unfold model_value_room. by rewrite intent_market_value_adjust. Qed.

(** What check 4 hands to the later checks. *)
Lemma contract_month_next i rc r :
  contract_month_evaluate i rc = Ok r ->
  next_intent r i = i \/ exists m, next_intent r i = adjust_intent i m.
Proof.
  unfold contract_month_evaluate. destruct (expiry_legs i) as [|f l]; [intros [= <-]; by left|].
  intros H. apply rbind_ok in H as (roll & _ & H).
  case_match; [injection H as <-; by left|].
  apply rbind_ok in H as (t & _ & [= <-]). right. by exists t.
Qed.

Lemma passes_cons_inv rc c cs i j rs :
  passes rc (c :: cs) i j rs ->
  exists r rs', bc_evaluate c i rc = Ok r /\ stops (outcome r) = false /\
    passes rc cs (next_intent r i) j rs' /\ rs = r :: rs'.
Proof. inversion 1; subst; eauto 10. Qed.

(** The checks that return only PASS, REJECT or HALT do not adjust. *)
Lemma verdict_next num name o r i : next_intent (verdict num name o r) i = i.
Proof. by destruct o. Qed.

Lemma no_adjust_next (r : CheckResult) i : adjusted_intent r = None -> next_intent r i = i.
Proof. unfold next_intent. intros ->. by destruct (outcome r). Qed.

Lemma margin_no_adjust now i rc : adjusted_intent (margin_evaluate now i rc) = None.
Proof. unfold margin_evaluate. by repeat case_match. Qed.
Lemma duplicate_no_adjust i rc : adjusted_intent (duplicate_evaluate i rc) = None.
Proof. unfold duplicate_evaluate. by repeat case_match. Qed.
Lemma strategy_no_adjust i rc : adjusted_intent (strategy_evaluate i rc) = None.
Proof. unfold strategy_evaluate. by repeat case_match. Qed.
Lemma position_no_adjust i rc : adjusted_intent (position_limit_evaluate i rc) = None.
Proof. unfold position_limit_evaluate. by repeat case_match. Qed.
Lemma money_no_adjust i rc : adjusted_intent (money_evaluate i rc) = None.
Proof.
  unfold money_evaluate. case_match; [done|]. generalize (symbol_order_notionals (legs i)).
  intros d. induction d as [|[s x] d IH]; simpl; [done|]. by repeat case_match.
Qed.

(** The five facts, all read on the intent as submitted. *)
Record open_admitted (now : Z) (i : OrderIntent) (rc : RMSContext) : Prop := {
  adm_duplicate : not_duplicate i rc;
  adm_strategy : strategy_known i rc;
  adm_position : position_room i rc;
  adm_money : money_room i rc;
  adm_value : market_value_check_enabled rc = true -> model_value_room i rc;
  adm_margin : check_enabled (margin_policy rc) = true -> margin_room now i rc
}.

Lemma later_checks_admit i j rc rs k :
  action i = OPEN -> intent_mode i <> EMERGENCY_FLATTEN ->
  (j = i \/ exists m, j = adjust_intent i m) ->
  passes rc [OpenPositionLimitCheck; MoneyPerStockCheck; ModelMarketValueCheck] j k rs ->
  position_room i rc /\ money_room i rc /\
  (market_value_check_enabled rc = true -> model_value_room i rc).
Proof.
  intros Ha Hm Hj Hp.
  assert (Hja : action j = OPEN /\ intent_mode j <> EMERGENCY_FLATTEN)
    by (destruct Hj as [->|[m ->]]; done).
  destruct Hja as [Hja Hjm]. pose proof (reduces_false j Hja Hjm) as Hred.
  apply passes_cons_inv in Hp as (r1 & rs1 & [= <-] & H1 & Hp & _).
  rewrite no_adjust_next in Hp by apply position_no_adjust.
  apply passes_cons_inv in Hp as (r2 & rs2 & [= <-] & H2 & Hp & _).
  rewrite no_adjust_next in Hp by apply money_no_adjust.
  apply passes_cons_inv in Hp as (r3 & rs3 & [= <-] & H3 & _ & _).
  pose proof (position_limit_pass j rc Hja H1). pose proof (money_pass j rc Hred H2).
  assert (market_value_check_enabled rc = true -> model_value_room j rc)
    by (intros; by apply market_value_pass).
  destruct Hj as [->|[m ->]]; [done|].
  rewrite money_room_adjust, model_value_room_adjust in *. done.
Qed.

(** C16: what a PASS of the default pipeline guarantees for an opening intent
    that is not an emergency flatten: the signal is not a duplicate, its
    strategy is configured, the open-position count is strictly below the cap
    (the account's cap where there is one), for every symbol of the order the
    existing exposure plus the order's notional is within a positive limit,
    and, when the checks are enabled, the required margin is below the usable
    headroom of a fresh snapshot and the model's used market value plus the
    order's is within the published ceiling -- all on the intent as submitted,
    whatever contract-month adjustment check 4 made in between. *)
Theorem pass_guarantees_limits (now : Z) (i : OrderIntent) (rc : RMSContext) (res : RMSResult) :
  evaluate (get_default_checks now) i rc = Ok res ->
  res_outcome res = PASS -> action i = OPEN -> intent_mode i <> EMERGENCY_FLATTEN ->
  open_admitted now i rc.
Proof.
  intros He Ho Ha Hm. apply evaluate_decides_aux in He.
  destruct He as [j rs Hp|cs1 c cs2 j rs r Hcs Hp Hr Hs]; [|simpl in Ho; by rewrite Ho in Hs].
  pose proof (reduces_false i Ha Hm) as Hred.
  apply passes_cons_inv in Hp as (r1 & rs1 & [= <-] & H1 & Hp & _).
  rewrite no_adjust_next in Hp by apply margin_no_adjust.
  apply passes_cons_inv in Hp as (r2 & rs2 & [= <-] & H2 & Hp & _).
  rewrite no_adjust_next in Hp by apply duplicate_no_adjust.
  apply passes_cons_inv in Hp as (r3 & rs3 & [= <-] & H3 & Hp & _).
  rewrite no_adjust_next in Hp by apply strategy_no_adjust.
  apply passes_cons_inv in Hp as (r4 & rs4 & H4 & _ & Hp & _).
  destruct (later_checks_admit i _ rc _ _ Ha Hm (contract_month_next i rc r4 H4) Hp)
    as (Hpos & Hmon & Hval).
  constructor; auto using duplicate_pass, strategy_pass, margin_pass.
Qed.

(** ** Totality

    Only check 4 can raise, and only on an OPEN whose first expiring leg has no
    contract month, or one it cannot split at a dash. *)
Lemma run_checks_total cs original current rc audit :
  Forall (fun c => forall i, is_ok (bc_evaluate c i rc) = true) cs ->
  is_ok (run_checks cs original current rc audit) = true.
Proof.
  intros H. revert current audit. induction H as [|c cs Hc _ IH]; intros current audit; simpl; [done|].
  specialize (Hc current). destruct (bc_evaluate c current rc) as [r|]; [|done]. simpl.
  by case_match.
Qed.

Lemma run_checks_step c cs original i rc audit r :
  bc_evaluate c i rc = Ok r -> adjusted_intent r = None ->
  (forall audit, is_ok (run_checks cs original i rc audit) = true) ->
  is_ok (run_checks (c :: cs) original i rc audit) = true.
Proof. intros Hr Ha H. simpl. rewrite Hr. simpl. rewrite no_adjust_next by done. by case_match. Qed.

Lemma default_checks_total (now : Z) (i : OrderIntent) (rc : RMSContext) :
  is_ok (contract_month_evaluate i rc) = true -> is_ok (evaluate (get_default_checks now) i rc) = true.
Proof.
  intros H. unfold evaluate, get_default_checks. generalize (@nil CheckResult). intros audit.
  do 3 (eapply run_checks_step; [reflexivity|..|clear audit; intros audit];
    [first [apply margin_no_adjust|apply duplicate_no_adjust|apply strategy_no_adjust]|]).
  cbn [run_checks]. change (bc_evaluate ContractMonthCheck i rc) with (contract_month_evaluate i rc).
  destruct (contract_month_evaluate i rc) as [r|]; [|done].
  unfold rbind at 1. case_match; [done|].
  apply (run_checks_total [OpenPositionLimitCheck; MoneyPerStockCheck; ModelMarketValueCheck]).
  by repeat constructor.
Qed.

(** The contract month of an expiring leg can be split at a dash. *)
Definition month_splits (leg : OrderLeg) : bool :=
  match leg_contract_month leg with
  | Some s => match parse_month s with Raise IndexError => false | _ => true end
  | None => false
  end.
Definition dated (leg : OrderLeg) : Prop :=
  is_expiry_instrument (leg_instrument_type leg) = true -> month_splits leg = true.

Lemma parse_month_raises s e : parse_month s = Raise e -> e = IndexError \/ exists m, e = ValueError m.
Proof.
  assert (Hi : forall t e, py_int t = Raise e -> exists m, e = ValueError m).
  { intros t e'. unfold py_int. destruct (take_sign _) as [neg body].
    destruct (drop_underscores false body) as [[|c l]|]; [intros [= <-]; eauto| |intros [= <-]; eauto].
    destruct (digits_value 0 (c :: l)); [done|]. intros [= <-]; eauto. }
  unfold parse_month. destruct (str_split "-"%char s) as [|y [|m l]]; [intros [= <-]; by left| |].
  - intros [Hy|(v & _ & Hy)]%rbind_raise; [right; by eapply Hi|injection Hy as <-; by left].
  - intros [Hy|(v & _ & Hy)]%rbind_raise; [right; by eapply Hi|].
    apply rbind_raise in Hy as [Hy|(v' & _ & Hy)]; [right; by eapply Hi|done].
Qed.

Lemma dated_total (i : OrderIntent) (rc : RMSContext) :
  action i = CLOSE \/ Forall dated (legs i) -> is_ok (contract_month_evaluate i rc) = true.
Proof.
  intros [Hc|Hd]; [destruct (contract_month_close i rc Hc) as (r & -> & _); done|].
  unfold contract_month_evaluate. destruct (expiry_legs i) as [|f l] eqn:El; [done|].
  assert (Hf : month_splits f = true).
  { assert (Hin : f ∈ expiry_legs i) by (rewrite El; left).
    apply list_elem_of_In, List.filter_In in Hin as [Hin Ht]. rewrite Forall_forall in Hd.
    by apply Hd; [apply list_elem_of_In|]. }
  unfold month_splits in Hf. destruct (leg_contract_month f) as [s|]; [|done].
  assert (Hdef : forall now w, exists b, is_default_rollover_active (Some s) now w = Ok b).
  { intros now w. unfold is_default_rollover_active.
    destruct (parse_month s) as [[y m]|e] eqn:Ep; cbn [rbind].
    - assert (Hms : forall y m e, month_start y m = Raise e -> exists t, e = ValueError t).
      { intros y' m' e. unfold month_start. case_match; [done|]. intros [= <-]. eauto. }
      destruct (if (m =? 12)%Z then _ else _) as [st|e] eqn:Est; cbn [rbind]; [by eexists|].
      destruct (m =? 12)%Z; apply Hms in Est as [t ->]; by eexists.
    - destruct (parse_month_raises _ _ Ep) as [->|[t ->]]; [simpl in Hf; discriminate Hf|by eexists]. }
  assert (Hroll : exists b, should_rollover i rc (Some s) = Ok b).
  { unfold should_rollover. destruct (bool_decide (action i = OPEN)); [|by exists false].
    destruct (rollover_checker rc); [by eexists|].
    destruct (target_rollover_month rc); [by exists true|]. apply Hdef. }
  destruct Hroll as [roll ->]. cbn [rbind]. destruct (_ && _); [done|].
  destruct (target_rollover_month rc); [done|]. destruct roll; [|done].
  unfold get_next_contract_month. destruct (parse_month s) as [[y m]|e] eqn:Ep; [by case_match|].
  by destruct (parse_month_raises _ _ Ep) as [->|[t ->]].
Qed.

Lemma close_never_blocked_witness :
  let i := ex_intent CLOSE [ex_future "2026-09"; ex_future "2026-12"] in
  exists res, evaluate (get_default_checks 0) i ex_context = Ok res /\
    res_outcome res = PASS /\ realigned (Some "2026-09"%string) i (res_intent res).
Proof.
  destruct (close_never_blocked 0 (ex_intent CLOSE [ex_future "2026-09"; ex_future "2026-12"])
    ex_context) as (res & He & Ho & _ & _ & Hr); [reflexivity|].
  exists res. split; [exact He|]. split; [exact Ho|].
  destruct Hr as (first & Hf & Hr).
  - intros Ha. specialize (Ha (ex_future "2026-09") (ex_future "2026-12")).
    discriminate Ha; [left|right; left].
  - injection Hf as <-. exact Hr.
Defined.

Lemma pass_guarantees_limits_witness :
  open_admitted 0 (ex_intent OPEN ex_pair) ex_context.
Proof.
  destruct (evaluate (get_default_checks 0) (ex_intent OPEN ex_pair) ex_context)
    as [res|] eqn:E; [|vm_compute in E; discriminate].
  apply (pass_guarantees_limits 0 (ex_intent OPEN ex_pair) ex_context res E);
    [vm_compute in E; injection E as <-; reflexivity|reflexivity|discriminate].
Defined.
