(* ===== verification/Parser.v ===== *)
(** * Model Blue payloads: [models/signal.py] and [services/model_blue/parser.py]

    A TradingView webhook payload is a JSON object; parsing it gives a domain
    [Signal] or raises. *)

From S2P Require Import Prelude Rounding PyText Identifiers.

#[local] Open Scope py_scope.

Inductive SignalType : Type := SIG_BUY | SIG_SELL | SIG_HOLD.

Record SignalLeg : Type := {
  sl_symbol : string;
  sl_instrument_type : string;
  sl_weight : option pyfloat;
  sl_price : pydec;
  sl_payload_side : option string;
  sl_leg_index : option Z;
  sl_metadata : option json
}.

Record Signal : Type := {
  sig_signal_type : SignalType;
  sig_timestamp : Z;
  sig_reason : string;
  sig_signal_id : option string;
  sig_strategy_id : option string;
  sig_action : string;
  sig_symbol : option string;
  sig_side : option string;
  sig_price : option pydec;
  sig_quantity : option Z;
  sig_trade_id : option string;
  sig_direction : option Z;
  sig_market : option string;
  sig_legs : list SignalLeg;
  sig_raw_payload : option json
}.

Definition MODEL_BLUE_STRATEGY_ID : string := "model_blue".

Definition is_model_blue_strategy (strategy_id : option string) : bool :=
  (str_lower (str_strip (opt_str strategy_id)) =? MODEL_BLUE_STRATEGY_ID)%string.

(** [str(payload.get(key) or EMPTY).strip()]. *)
Definition text_field (key : string) (fields : list (string * json)) : string :=
  str_strip (py_str (jor (jget key fields) (JStr EmptyString))).

(** [raise ModelBlueValidationError(code: ...)]. *)
Definition invalid {A} (code : string) : result A := Raise (ModelBlueValidationError code).

(** [int(raw)] under [except (TypeError, ValueError)]. *)
Definition parse_direction (raw : json) : result Z :=
  match py_int_of raw with
  | Ok d => if (d =? 1)%Z || (d =? -1)%Z then Ok d else invalid "MODEL_BLUE_INVALID_DIRECTION"
  | Raise TypeError | Raise (ValueError _) => invalid "MODEL_BLUE_INVALID_DIRECTION"
  | Raise e => Raise e
  end.

(** [Decimal(str(raw))]; the comparison with zero is outside of the [try]:
    comparing a NaN raises [InvalidOperation]. *)
Definition decimal_of_json (raw : json) : option pydec :=
  match raw with
  | JFloat f => Some (dec_of_float f)
  | JInt n => Some (DFin (inject_Z n))
  | v => parse_decimal (py_str v)
  end.

Definition parse_price (raw : json) : result pydec :=
  match raw with
  | JNull => invalid "MODEL_BLUE_MISSING_PRICE"
  | _ =>
      match decimal_of_json raw with
      | None => invalid "MODEL_BLUE_INVALID_PRICE"
      | Some DNaN => Raise InvalidOperation
      | Some (DInf true) => invalid "MODEL_BLUE_INVALID_PRICE"
      | Some (DInf false) => Ok (DInf false)
      | Some (DFin q) => if (q <=? 0)%Q then invalid "MODEL_BLUE_INVALID_PRICE" else Ok (DFin q)
      end
  end.

(** [weight == 0]. *)
Definition float_is_zero (f : pyfloat) : bool :=
  match f with FFin q => Qeq_bool q 0 | _ => false end.

(** [raw_leg[key]]: present with any value, [null] included. *)
Definition jfind (key : string) (fields : list (string * json)) : option json :=
  option_map snd (List.find (fun kv => (fst kv =? key)%string) fields).

Definition parse_weight (raw_leg : list (string * json)) : result pyfloat :=
  match jfind "weight" raw_leg with
  | None => invalid "MODEL_BLUE_MISSING_WEIGHT"
  | Some v =>
      match py_float v with
      | Ok w => if float_is_zero w then invalid "MODEL_BLUE_INVALID_WEIGHT" else Ok w
      | Raise TypeError | Raise (ValueError _) => invalid "MODEL_BLUE_MISSING_WEIGHT"
      | Raise e => Raise e
      end
  end.

(** The body of the loop over the buckets. *)
Definition parse_bucket (ib : Z * json) : result SignalLeg :=
  let (index, b) := ib in
  match b with
  | JObj bucket =>
      match jget "legs" bucket with
      | JList (raw :: _) =>
          match raw with
          | JObj raw_leg =>
              let symbol := str_upper (str_strip (py_str
                (jor (jget "underlying" raw_leg)
                   (jor (jget "underlying" bucket) (JStr EmptyString))))) in
              if str_empty symbol then invalid "MODEL_BLUE_MISSING_SYMBOL" else
              let instrument_type := text_field "instrument_type" raw_leg in
              if str_empty instrument_type then invalid "MODEL_BLUE_MISSING_INSTRUMENT_TYPE" else
              let! weight := parse_weight raw_leg in
              let! price := parse_price (jget "price" raw_leg) in
              Ok {| sl_symbol := symbol; sl_instrument_type := instrument_type;
                    sl_weight := Some weight; sl_price := price;
                    sl_payload_side := match jget "side" raw_leg with
                                       | JNull => None
                                       | v => Some (str_upper (py_str v))
                                       end;
                    sl_leg_index := Some index; sl_metadata := None |}
          | _ => invalid "MODEL_BLUE_INVALID_LEG"
          end
      | _ => invalid "MODEL_BLUE_MISSING_LEG"
      end
  | _ => invalid "MODEL_BLUE_INVALID_BUCKET"
  end.

Definition parse_open_legs (buckets : json) : result (list SignalLeg) :=
  match buckets with
  | JList l =>
      if negb (Nat.eqb (length l) 2) then invalid "MODEL_BLUE_INVALID_LEG_COUNT"
      else mapR parse_bucket (enumerate l)
  | _ => invalid "MODEL_BLUE_MISSING_BUCKETS"
  end.

Definition parse_model_blue_payload (payload : list (string * json)) (timestamp : Z)
    (reason : string) (raw_payload : option json) : result Signal :=
  let strategy := text_field "strategy" payload in
  if negb (is_model_blue_strategy (Some strategy)) then invalid "MODEL_BLUE_STRATEGY_MISMATCH" else
  let action := str_upper (text_field "action" payload) in
  if negb ((action =? "OPEN")%string || (action =? "CLOSE")%string)
  then invalid "MODEL_BLUE_INVALID_ACTION" else
  let trade_id := text_field "trade_id" payload in
  if str_empty trade_id then invalid "MODEL_BLUE_MISSING_TRADE_ID" else
  let! direction := parse_direction (jget "direction" payload) in
  let m := text_field "market" payload in
  let market := if str_empty m then None else Some m in
  let signal st act legs := {|
    sig_signal_type := st; sig_timestamp := timestamp; sig_reason := reason;
    sig_signal_id := Some trade_id; sig_strategy_id := Some MODEL_BLUE_STRATEGY_ID;
    sig_action := act; sig_symbol := None; sig_side := None; sig_price := None;
    sig_quantity := None; sig_trade_id := Some trade_id; sig_direction := Some direction;
    sig_market := market; sig_legs := legs; sig_raw_payload := raw_payload |} in
  if (action =? "CLOSE")%string then Ok (signal SIG_SELL "CLOSE" [])
  else
    let! legs := parse_open_legs (jget "buckets" payload) in
    Ok (signal SIG_BUY "OPEN" legs).

(** ** Well-formed signals *)

(** What a leg of a parsed signal satisfies. *)
Definition price_ok (p : pydec) : Prop :=
  match p with DFin q => (0 < q)%Q | DInf neg => neg = false | DNaN => False end.

Definition weight_ok (w : option pyfloat) : Prop :=
  match w with Some (FFin q) => ~ (q == 0)%Q | Some _ => True | None => False end.

Record leg_ok (index : Z) (l : SignalLeg) : Prop := {
  lo_symbol : str_empty (sl_symbol l) = false;
  lo_type : str_empty (sl_instrument_type l) = false;
  lo_weight : weight_ok (sl_weight l);
  lo_price : price_ok (sl_price l);
  lo_index : sl_leg_index l = Some index
}.

(** What a parsed signal satisfies. *)
Record signal_ok (s : Signal) : Prop := {
  so_strategy : sig_strategy_id s = Some MODEL_BLUE_STRATEGY_ID;
  so_trade : exists t, sig_trade_id s = Some t /\ sig_signal_id s = Some t /\
               str_empty t = false /\ str_strip t = t;
  so_direction : sig_direction s = Some 1%Z \/ sig_direction s = Some (-1)%Z;
  so_shape :
    (sig_action s = "CLOSE"%string /\ sig_signal_type s = SIG_SELL /\ sig_legs s = []) \/
    (sig_action s = "OPEN"%string /\ sig_signal_type s = SIG_BUY /\
     exists a b, sig_legs s = [a; b] /\ leg_ok 0 a /\ leg_ok 1 b)
}.

(** The exceptions parsing may raise: [ModelBlueValidationError], the error
    the caller handles, or one of two that escape. *)
Definition parse_exn (e : exn) : Prop :=
  (exists code, e = ModelBlueValidationError code) \/ e = InvalidOperation \/ e = OverflowError.

Lemma str_empty_false (s : string) : str_empty s = false -> s <> EmptyString.
Proof. by destruct s. Qed.

(** Case analysis on the first test of a parsing function. *)
Ltac parse_step :=
  match goal with
  | H : rbind _ _ = Ok _ |- _ => apply rbind_ok in H as (? & ? & H)
  | H : rbind _ _ = Raise _ |- _ => apply rbind_raise in H as [H|(? & ? & H)]
  | H : invalid _ = Ok _ |- _ => discriminate H
  | H : invalid _ = Raise ?e |- _ => injection H as <-
  | H : Raise _ = Ok _ |- _ => discriminate H
  | H : Ok _ = Raise _ |- _ => discriminate H
  | H : Ok _ = Ok _ |- _ => injection H as <-
  | H : Raise _ = Raise _ |- _ => injection H as <-
  end.

Lemma parse_weight_ok fs w : parse_weight fs = Ok w -> weight_ok (Some w).
Proof.
  unfold parse_weight. destruct (jfind "weight" fs) as [v|]; [|done].
  destruct (py_float v) as [f|[]]; try done.
  destruct (float_is_zero f) eqn:Ez; [done|]. intros [= <-].
  destruct f as [q| |]; simpl in *; [|done..]. by apply Qeq_bool_neq.
Qed.

Lemma parse_price_ok raw p : parse_price raw = Ok p -> price_ok p.
Proof.
  unfold parse_price. intros H. destruct raw; [done|..];
    (destruct (decimal_of_json _) as [[q|[]|]|]; try discriminate H;
     [|by injection H as <-]);
    (destruct (q <=? 0)%Q eqn:E; [discriminate H|]; injection H as <-; by bool_to_prop).
Qed.

Lemma parse_bucket_ok index b l : parse_bucket (index, b) = Ok l -> leg_ok index l.
Proof.
  unfold parse_bucket. intros H. repeat case_match; try discriminate H.
  all: repeat parse_step; constructor;
    [done|done|by eapply parse_weight_ok|by eapply parse_price_ok|done].
Qed.

Lemma parse_open_legs_ok v l :
  parse_open_legs v = Ok l -> exists a b, l = [a; b] /\ leg_ok 0 a /\ leg_ok 1 b.
Proof.
  destruct v as [| | | | |bs|]; try done. simpl.
  destruct (Nat.eqb_spec (length bs) 2) as [E|]; [|done]. simpl. intros H.
  apply mapR_ok in H. destruct bs as [|x [|y [|? ?]]]; try discriminate E.
  unfold enumerate in H. simpl in H.
  inversion H as [|? a ? ? Ha H']; subst. inversion H' as [|? b ? ? Hb H'']; subst.
  inversion H''; subst. exists a, b. eauto using parse_bucket_ok.
Qed.

Lemma parse_direction_ok v d : parse_direction v = Ok d -> d = 1%Z \/ d = (-1)%Z.
Proof.
  unfold parse_direction. destruct (py_int_of v) as [n|[]]; try done.
  destruct (n =? 1)%Z eqn:E1; [intros [= <-]; bool_to_prop; auto|].
  destruct (n =? -1)%Z eqn:E2; [intros [= <-]; bool_to_prop; auto|done].
Qed.

(** A payload that parses gives a well-formed signal: the strategy is
    model_blue, the trade id is non-empty, trimmed and doubles as signal id,
    the direction is +1 or -1, a CLOSE carries no legs, and an OPEN carries
    exactly two legs numbered 0 and 1, each with a symbol, an instrument type,
    a non-zero weight and a positive price (possibly infinite, never NaN). *)
Lemma parsed_signal_ok (payload : list (string * json)) (ts : Z) (why : string)
    (raw : option json) (s : Signal) :
  parse_model_blue_payload payload ts why raw = Ok s -> signal_ok s.
Proof.
  unfold parse_model_blue_payload. intros H.
  destruct (is_model_blue_strategy _); [|discriminate H]. cbn [negb] in H.
  destruct (_ || _)%bool; [|discriminate H]. cbn [negb] in H.
  destruct (str_empty (text_field "trade_id" payload)) eqn:Et; [discriminate H|].
  apply rbind_ok in H as (d & Hd%parse_direction_ok & H).
  assert (Hst : str_strip (text_field "trade_id" payload) = text_field "trade_id" payload)
    by apply strip_idemp.
  destruct (_ =? "CLOSE")%string.
  - injection H as <-. constructor; simpl; eauto 10. destruct Hd as [->| ->]; auto.
  - apply rbind_ok in H as (l & Hl%parse_open_legs_ok & [= <-]).
    constructor; simpl; eauto 10. destruct Hd as [->| ->]; auto.
Qed.

(** ** Errors *)
Lemma mapR_raise {A B} (f : A -> result B) (l : list A) (e : exn) :
  mapR f l = Raise e -> exists x, x ∈ l /\ f x = Raise e.
Proof.
  induction l as [|x l IH]; simpl; [done|]. intros H.
  apply rbind_raise in H as [H|(y & Hy & H)]; [exists x; split; [left|done]|].
  apply rbind_raise in H as [H|(ys & Hys & H)]; [|discriminate H].
  destruct (IH H) as (z & Hz & Hf). exists z. split; [by right|done].
Qed.

Lemma invalid_exn {A} code e : @invalid A code = Raise e -> parse_exn e.
Proof. intros [= <-]. left. eauto. Qed.

Lemma py_int_value_error s e : py_int s = Raise e -> exists m, e = ValueError m.
Proof. unfold py_int. repeat case_match; intros; simplify_eq; eauto. Qed.

Lemma parse_direction_raise v e : parse_direction v = Raise e -> parse_exn e.
Proof.
  unfold parse_direction. intros H. destruct v as [|b|n|[q|neg|]|s|l|l]; simpl in H;
    try (destruct (_ || _)%bool; [discriminate H|]); try by eapply invalid_exn.
  - injection H as <-. unfold parse_exn. auto.
  - destruct (py_int s) as [d|e'] eqn:Ei; simpl in H.
    + destruct (_ || _)%bool; [discriminate H|]. by eapply invalid_exn.
    + destruct (py_int_value_error _ _ Ei) as [m ->]. by eapply invalid_exn.
Qed.

Lemma parse_float_value_error s e : parse_float s = Raise e -> exists m, e = ValueError m.
Proof. unfold parse_float. repeat case_match; intros; simplify_eq; eauto. Qed.

Lemma parse_weight_raise fs e : parse_weight fs = Raise e -> parse_exn e.
Proof.
  unfold parse_weight. destruct (jfind "weight" fs) as [v|]; [|apply invalid_exn].
  destruct (py_float v) as [f|e'] eqn:Ef.
  - destruct (float_is_zero f); [apply invalid_exn|done].
  - destruct v; simpl in Ef; simplify_eq; try apply invalid_exn.
    destruct (parse_float_value_error _ _ Ef) as [m ->]. apply invalid_exn.
Qed.

Lemma parse_price_raise raw e : parse_price raw = Raise e -> parse_exn e.
Proof.
  unfold parse_price, parse_exn. intros H.
  destruct raw; [by eapply invalid_exn|..];
    (destruct (decimal_of_json _) as [[q|[]|]|]; [..|by eapply invalid_exn];
     [destruct (q <=? 0)%Q; [by eapply invalid_exn|discriminate H]
     |by eapply invalid_exn|discriminate H|injection H as <-; auto]).
Qed.

Lemma parse_bucket_raise ib e : parse_bucket ib = Raise e -> parse_exn e.
Proof.
  destruct ib as [index b]. unfold parse_bucket. intros H.
  repeat case_match; try (by eapply invalid_exn).
  all: apply rbind_raise in H as [H|(w & _ & H)]; [by eapply parse_weight_raise|].
  all: apply rbind_raise in H as [H|(p & _ & H)]; [by eapply parse_price_raise|discriminate H].
Qed.

Lemma parse_open_legs_raise v e : parse_open_legs v = Raise e -> parse_exn e.
Proof.
  destruct v; simpl; try apply invalid_exn.
  destruct (negb _); [apply invalid_exn|]. intros (x & _ & Hx)%mapR_raise.
  by eapply parse_bucket_raise.
Qed.

(** Rejection is a validation error, up to two exceptions that escape:
    a payload that does not parse raises [ModelBlueValidationError], except
    that [InvalidOperation] (a NaN price) or [OverflowError] (an infinite
    direction) may get out. *)
Theorem parse_model_blue_errors (payload : list (string * json)) (ts : Z) (why : string)
    (raw : option json) (e : exn) :
  parse_model_blue_payload payload ts why raw = Raise e -> parse_exn e.
Proof.
  unfold parse_model_blue_payload. intros H.
  repeat (case_match; [by eapply invalid_exn|]).
  apply rbind_raise in H as [H|(d & _ & H)]; [by eapply parse_direction_raise|].
  case_match; [discriminate H|].
  apply rbind_raise in H as [H|(l & _ & H)]; [by eapply parse_open_legs_raise|discriminate H].
Qed.

(** ** Payloads as TradingView sends them *)
Record leg_data : Type := {
  ld_symbol : string; ld_type : string; ld_weight : pyfloat; ld_price : pyfloat }.

Definition render_raw_leg (l : leg_data) : list (string * json) :=
  [("underlying"%string, JStr (ld_symbol l));
   ("instrument_type"%string, JStr (ld_type l));
   ("weight"%string, JFloat (ld_weight l));
   ("price"%string, JFloat (ld_price l))].
Definition render_bucket (l : leg_data) : list (string * json) :=
  [("legs"%string, JList [JObj (render_raw_leg l)])].
Definition render_leg (l : leg_data) : json := JObj (render_bucket l).

Definition render_open (trade_id market : string) (direction : Z) (a b : leg_data)
    : list (string * json) :=
  [("strategy"%string, JStr MODEL_BLUE_STRATEGY_ID); ("action"%string, JStr "OPEN");
   ("trade_id"%string, JStr trade_id); ("direction"%string, JInt direction);
   ("market"%string, JStr market); ("buckets"%string, JList [render_leg a; render_leg b])].

(** Trimmed and not empty. *)
Definition tidy (s : string) : Prop := s <> EmptyString /\ str_strip s = s.

Record leg_data_ok (l : leg_data) : Prop := {
  ldo_symbol : tidy (ld_symbol l) /\ str_upper (ld_symbol l) = ld_symbol l;
  ldo_type : tidy (ld_type l);
  ldo_weight : float_is_zero (ld_weight l) = false
}.

Definition signal_leg (index : Z) (l : leg_data) (price : pydec) : SignalLeg := {|
  sl_symbol := ld_symbol l; sl_instrument_type := ld_type l;
  sl_weight := Some (ld_weight l); sl_price := price; sl_payload_side := None;
  sl_leg_index := Some index; sl_metadata := None |}.

Lemma jor_str s : s <> EmptyString -> py_str (jor (JStr s) (JStr EmptyString)) = s.
Proof. by destruct s. Qed.

Lemma text_field_str key fs s :
  jget key fs = JStr s -> tidy s -> text_field key fs = s.
Proof. intros H [Hne Hs]. unfold text_field. by rewrite H, jor_str. Qed.

Lemma str_not_empty s : s <> EmptyString -> str_empty s = false.
Proof. by destruct s. Qed.

Lemma parse_bucket_render index l :
  leg_data_ok l ->
  parse_bucket (index, render_leg l) =
  rbind (parse_price (JFloat (ld_price l))) (fun p => Ok (signal_leg index l p)).
Proof.
  intros [[[Hs Hss] Hsu] [Ht Hts] Hw]. unfold parse_bucket, render_leg.
  change (jget "legs" (render_bucket l)) with (JList [JObj (render_raw_leg l)]).
  cbv iota beta.
  change (jget "underlying" (render_raw_leg l)) with (JStr (ld_symbol l)).
  change (jget "underlying" (render_bucket l)) with JNull.
  change (jget "price" (render_raw_leg l)) with (JFloat (ld_price l)).
  change (jget "side" (render_raw_leg l)) with JNull.
  assert (E1 : py_str (jor (JStr (ld_symbol l)) (jor JNull (JStr EmptyString))) = ld_symbol l)
    by (by destruct (ld_symbol l)).
  rewrite E1, Hss, Hsu, str_not_empty by done.
  rewrite (text_field_str _ _ (ld_type l)), str_not_empty by done.
  unfold parse_weight.
  change (jfind "weight" (render_raw_leg l)) with (Some (JFloat (ld_weight l))).
  cbn [py_float]. by rewrite Hw.
Qed.

Lemma parse_open_legs_render a b :
  leg_data_ok a -> leg_data_ok b ->
  parse_open_legs (JList [render_leg a; render_leg b]) =
  rbind (parse_price (JFloat (ld_price a))) (fun pa =>
  rbind (parse_price (JFloat (ld_price b))) (fun pb =>
  Ok [signal_leg 0 a pa; signal_leg 1 b pb])).
Proof.
  intros Ha Hb. unfold parse_open_legs, enumerate. cbn [length Nat.eqb negb enumerate_from mapR].
  rewrite !parse_bucket_render by done.
  by destruct (parse_price (JFloat (ld_price a))), (parse_price (JFloat (ld_price b))).
Qed.

Definition open_signal (ts : Z) (why : string) (raw : option json) (trade_id market : string)
    (direction : Z) (legs : list SignalLeg) : Signal := {|
  sig_signal_type := SIG_BUY; sig_timestamp := ts; sig_reason := why;
  sig_signal_id := Some trade_id; sig_strategy_id := Some MODEL_BLUE_STRATEGY_ID;
  sig_action := "OPEN"; sig_symbol := None; sig_side := None; sig_price := None;
  sig_quantity := None; sig_trade_id := Some trade_id; sig_direction := Some direction;
  sig_market := Some market; sig_legs := legs; sig_raw_payload := raw |}.

Lemma parse_render ts why raw t m d a b :
  tidy t -> tidy m -> d = 1%Z \/ d = (-1)%Z -> leg_data_ok a -> leg_data_ok b ->
  parse_model_blue_payload (render_open t m d a b) ts why raw =
  rbind (parse_open_legs (JList [render_leg a; render_leg b]))
    (fun l => Ok (open_signal ts why raw t m d l)).
Proof.
  intros Ht Hm Hd Ha Hb. unfold parse_model_blue_payload.
  rewrite (text_field_str "trade_id" _ t) by done.
  rewrite (text_field_str "market" _ m) by done.
  rewrite (str_not_empty t), (str_not_empty m) by apply Ht || apply Hm.
  destruct Hd as [->| ->]; reflexivity.
Qed.

(** Round trip: the payload of an OPEN with tidy fields, non-zero float
    weights and finite float prices whose decimal representation is positive
    parses to exactly the signal it renders, each price being the decimal
    [str] prints for the float. *)
Theorem parse_render_open (ts : Z) (why : string) (raw : option json) (t m : string) (d : Z)
    (a b : leg_data) (pa pb : Q) :
  tidy t -> tidy m -> d = 1%Z \/ d = (-1)%Z -> leg_data_ok a -> leg_data_ok b ->
  ld_price a = FFin pa -> ld_price b = FFin pb ->
  (0 < repr_dec pa)%Q -> (0 < repr_dec pb)%Q ->
  parse_model_blue_payload (render_open t m d a b) ts why raw =
  Ok (open_signal ts why raw t m d
        [signal_leg 0 a (DFin (repr_dec pa)); signal_leg 1 b (DFin (repr_dec pb))]).
Proof.
  intros Ht Hm Hd Ha Hb Hpa Hpb H1 H2. rewrite parse_render, parse_open_legs_render by done.
  rewrite Hpa, Hpb. cbn [parse_price decimal_of_json dec_of_float].
  apply Qlt_not_le in H1. apply Qlt_not_le in H2.
  destruct (Qleb_spec (repr_dec pa) 0); [done|]. destruct (Qleb_spec (repr_dec pb) 0); [done|].
  done.
Qed.

(** Non-finite prices are not validated: on a payload that is well formed
    otherwise, a NaN price makes parsing raise [InvalidOperation] instead of
    [ModelBlueValidationError], and an infinite price of the second leg is
    accepted and reaches the signal. *)
Theorem nonfinite_price (ts : Z) (why : string) (raw : option json) (t m : string) (d : Z)
    (a b : leg_data) (pa : Q) :
  tidy t -> tidy m -> d = 1%Z \/ d = (-1)%Z -> leg_data_ok a -> leg_data_ok b ->
  ld_price a = FFin pa -> (0 < repr_dec pa)%Q ->
  (ld_price b = FNaN ->
   parse_model_blue_payload (render_open t m d a b) ts why raw = Raise InvalidOperation) /\
  (ld_price b = FInf false ->
   parse_model_blue_payload (render_open t m d a b) ts why raw =
   Ok (open_signal ts why raw t m d
         [signal_leg 0 a (DFin (repr_dec pa)); signal_leg 1 b (DInf false)])).
Proof.
  intros Ht Hm Hd Ha Hb Hpa H1. apply Qlt_not_le in H1.
  rewrite parse_render, parse_open_legs_render by done.
  rewrite Hpa. cbn [parse_price decimal_of_json dec_of_float].
  destruct (Qleb_spec (repr_dec pa) 0); [done|].
  split; intros ->; reflexivity.
Qed.

(** ** Concrete payloads *)
Definition ex_ld (s : string) (w p : Q) : leg_data :=
  {| ld_symbol := s; ld_type := "STK"; ld_weight := FFin w; ld_price := FFin p |}.
Definition ex_payload : list (string * json) :=
  render_open "T1" "SMART" 1 (ex_ld "SPY" (1 # 2) 500) (ex_ld "QQQ" (- (1 # 2)) 400).

Lemma parse_model_blue_errors_witness : parse_exn (ModelBlueValidationError "MODEL_BLUE_STRATEGY_MISMATCH").
Proof. apply (parse_model_blue_errors [] 0 "r" None). reflexivity. Defined.

Lemma tidy_T1 : tidy "T1". Proof. by split. Defined.
Lemma tidy_SMART : tidy "SMART". Proof. by split. Defined.
Lemma ex_ld_ok s w p :
  tidy s -> str_upper s = s -> Qeq_bool w 0 = false -> leg_data_ok (ex_ld s w p).
Proof. intros. constructor; simpl; auto. by split. Qed.

Lemma parse_render_open_witness :
  parse_model_blue_payload ex_payload 0 "r" None =
  Ok (open_signal 0 "r" None "T1" "SMART" 1
        [signal_leg 0 (ex_ld "SPY" (1 # 2) 500) (DFin (repr_dec 500));
         signal_leg 1 (ex_ld "QQQ" (- (1 # 2)) 400) (DFin (repr_dec 400))]).
Proof.
  apply (parse_render_open 0 "r" None "T1" "SMART" 1 (ex_ld "SPY" (1 # 2) 500)
           (ex_ld "QQQ" (- (1 # 2)) 400) 500 400);
    [by split|by split|by left|by apply ex_ld_ok|by apply ex_ld_ok|reflexivity|reflexivity
    |by vm_compute|by vm_compute].
Defined.

Lemma nonfinite_price_witness :
  parse_model_blue_payload
    (render_open "T1" "SMART" 1 (ex_ld "SPY" (1 # 2) 500)
       {| ld_symbol := "QQQ"; ld_type := "STK"; ld_weight := FFin 1; ld_price := FNaN |})
    0 "r" None = Raise InvalidOperation.
Proof.
  apply (nonfinite_price 0 "r" None "T1" "SMART" 1 (ex_ld "SPY" (1 # 2) 500)
           {| ld_symbol := "QQQ"; ld_type := "STK"; ld_weight := FFin 1; ld_price := FNaN |} 500);
    [by split|by split|by left|by apply ex_ld_ok|by constructor|reflexivity|by vm_compute
    |reflexivity].
Defined.
