(* ===== verification/Sizer.v ===== *)
(** * The Model Blue pair sizer: [services/model_blue/sizer.py] and
    [services/model_blue/allocation.py] *)

From S2P Require Import Prelude Rounding PyText Identifiers RmsModels Parser.

#[local] Open Scope Q_scope.
#[local] Open Scope py_scope.

Definition MIN_ORDER_NOTIONAL : Q := 100.
Definition WEIGHT_SUM_TOLERANCE : Q := 1 # 1000000.
Definition DEFAULT_RATIO_TOLERANCE : Q := 5 # 100.
Definition DEFAULT_MIN_DEPLOYMENT : Q := 0.

(** [CommittedCapitalProvider]: the protocol, and the settings provider. *)
Definition CommittedCapitalProvider : Type := string -> option Q.

Definition TemporarySettingsCommittedCapitalProvider (committed : option Q)
    : CommittedCapitalProvider :=
  fun strategy_id =>
    if negb (is_model_blue_strategy (Some strategy_id)) then None
    else match committed with
         | Some c => if c <=? 0 then None else Some c
         | None => None
         end.

Record SizedModelBlueLeg : Type := {
  sz_symbol : string;
  sz_instrument_type : string;
  sz_side : OrderSide;
  sz_quantity : Q;
  sz_price : Q;
  sz_notional : Q;
  sz_weight : Q
}.

Record ModelBlueSizer : Type := {
  committed_capital_provider : CommittedCapitalProvider;
  min_order_notional : Q;
  ratio_tolerance : Q;
  min_deployment : Q
}.

(** [__init__]: omitted settings take the module defaults. *)
Definition new_sizer (provider : CommittedCapitalProvider)
    (min_notional tolerance deployment : option Q) : ModelBlueSizer := {|
  committed_capital_provider := provider;
  min_order_notional := default MIN_ORDER_NOTIONAL min_notional;
  ratio_tolerance := default DEFAULT_RATIO_TOLERANCE tolerance;
  min_deployment := default DEFAULT_MIN_DEPLOYMENT deployment
|}.

(** [Decimal(str(abs(w)))] and its sum, non-finite weights included. *)
Definition float_abs (f : pyfloat) : pyfloat :=
  match f with FFin q => FFin (Qabs q) | FInf _ => FInf false | FNaN => FNaN end.

Definition pydec_add (x y : pydec) : pydec :=
  match x, y with
  | DNaN, _ | _, DNaN => DNaN
  | DFin a, DFin b => DFin (dadd a b)
  | DInf s, DInf t => if Bool.eqb s t then DInf s else DNaN
  | DInf s, _ | _, DInf s => DInf s
  end.

Definition weight_sum (ws : list pyfloat) : pydec :=
  fold_left (fun acc w => pydec_add acc (dec_of_float (float_abs w))) ws (DFin 0).

Definition is_whole_share_type (instrument_type : string) : bool :=
  let t := str_upper (str_or instrument_type "STK") in
  (t =? "STK")%string || (t =? "ETF")%string.

Section Sizer.
Variable sizer : ModelBlueSizer.

(** The part of [_size_leg] after the quantity, for a finite price. *)
Definition finish_leg (symbol instrument_type : string) (weight price : Q) (direction : Z)
    (quantity : Q) : result SizedModelBlueLeg :=
  let notional := dmul quantity price in
  if notional <? min_order_notional sizer then invalid "MODEL_BLUE_MIN_NOTIONAL"
  else
    let signed := fl (weight * inject_Z direction) in
    if Qeq_bool signed 0 then invalid "MODEL_BLUE_INVALID_SIDE"
    else Ok {| sz_symbol := symbol; sz_instrument_type := instrument_type;
               sz_side := if 0 <? signed then BUY else SELL;
               sz_quantity := quantity; sz_price := price; sz_notional := notional;
               sz_weight := weight |}.

(** Whole shares rounded down for STK and ETF, four decimals otherwise. *)
Definition sized_quantity (instrument_type : string) (target price : Q) : result Q :=
  if is_whole_share_type instrument_type then
    let! quantity := quantize round_down 0 (ddiv target price) in
    if quantity <? 1 then invalid "MODEL_BLUE_MIN_SHARE" else Ok quantity
  else quantize round_half_up 4 (ddiv target price).

Definition size_leg (symbol instrument_type : string) (weight : Q) (price : pydec)
    (direction : Z) (target : Q) : result SizedModelBlueLeg :=
  match price with
  | DNaN => Raise InvalidOperation
  | DInf true => invalid "MODEL_BLUE_INVALID_PRICE"
  | DInf false =>
      (* the quantity is zero; zero times infinity is invalid *)
      if is_whole_share_type instrument_type then invalid "MODEL_BLUE_MIN_SHARE"
      else Raise InvalidOperation
  | DFin p =>
      if p <=? 0 then invalid "MODEL_BLUE_INVALID_PRICE"
      else
        let! quantity := sized_quantity instrument_type target p in
        finish_leg symbol instrument_type weight p direction quantity
  end.

(** The legs' deviations from the intended split, the worst one last seen. *)
Definition realised_dev (total wsum : Q) (leg : SizedModelBlueLeg) : Q :=
  dabs (dsub (ddiv (sz_notional leg) total) (ddiv (repr_dec (Qabs (sz_weight leg))) wsum)).

Definition worse (total wsum : Q) (worst : Q) (leg : SizedModelBlueLeg) : Q :=
  let dev := realised_dev total wsum leg in if worst <? dev then dev else worst.
Definition worst_deviation (total wsum : Q) (sized : list SizedModelBlueLeg) : Q :=
  fold_left (worse total wsum) sized 0.

Definition validate_realised_ratio (sized : list SizedModelBlueLeg) (budget : Q) : result unit :=
  let total_notional := dsum (map sz_notional sized) in
  if total_notional <=? 0 then invalid "MODEL_BLUE_ZERO_NOTIONAL"
  else
    let wsum := dsum (map (fun l => repr_dec (Qabs (sz_weight l))) sized) in
    if Qeq_bool wsum 0 then Raise InvalidOperation (* 0 / 0 *)
    else
      let worst_dev := worst_deviation total_notional wsum sized in
      let deployment := ddiv total_notional budget in
      if ratio_tolerance sizer <? worst_dev then invalid "MODEL_BLUE_RATIO_DRIFT"
      else if (0 <? min_deployment sizer) && (deployment <? min_deployment sizer)
      then invalid "MODEL_BLUE_UNDER_DEPLOYED"
      else Ok tt.

(** One leg of the generator expression; a weight that is not finite has been
    refused by the weight-sum test before. *)
Definition size_signal_leg (direction : Z) (budget : Q) (leg : SignalLeg)
    : result SizedModelBlueLeg :=
  match sl_weight leg with
  | Some (FFin w) =>
      size_leg (sl_symbol leg) (sl_instrument_type leg) w (sl_price leg) direction
        (dmul budget (repr_dec (Qabs w)))
  | _ => Raise InvalidOperation
  end.

Definition resolve_budget (signal : Signal) (pair_budget : option Q) : option Q :=
  match pair_budget with
  | Some b => Some b
  | None => committed_capital_provider sizer (opt_str (sig_strategy_id signal))
  end.

(** [abs(weight_sum - 1) > WEIGHT_SUM_TOLERANCE]. *)
Definition check_weight_sum (ws : list pyfloat) : result unit :=
  match weight_sum ws with
  | DNaN => Raise InvalidOperation
  | DInf _ => invalid "MODEL_BLUE_WEIGHT_SUM_INVALID"
  | DFin s =>
      if WEIGHT_SUM_TOLERANCE <? dabs (dsub s 1)
      then invalid "MODEL_BLUE_WEIGHT_SUM_INVALID" else Ok tt
  end.

Definition leg_weights (l : list SignalLeg) : result (list pyfloat) :=
  mapR (fun leg => match sl_weight leg with
                   | Some w => Ok w
                   | None => invalid "MODEL_BLUE_MISSING_WEIGHT"
                   end) l.

Definition valid_direction (d : option Z) : option Z :=
  match d with
  | Some d => if (d =? 1)%Z || (d =? -1)%Z then Some d else None
  | None => None
  end.

Definition size_open (signal : Signal) (pair_budget : option Q)
    : result (list SizedModelBlueLeg) :=
  if negb (is_model_blue_strategy (sig_strategy_id signal))
  then invalid "MODEL_BLUE_STRATEGY_MISMATCH"
  else if negb (str_upper (sig_action signal) =? "OPEN")%string
  then invalid "MODEL_BLUE_INVALID_ACTION"
  else match valid_direction (sig_direction signal) with
  | None => invalid "MODEL_BLUE_INVALID_DIRECTION"
  | Some direction =>
    if negb (Nat.eqb (length (sig_legs signal)) 2) then invalid "MODEL_BLUE_INVALID_LEG_COUNT"
    else match resolve_budget signal pair_budget with
    | None => invalid "MODEL_BLUE_PAIR_BUDGET_NOT_CONFIGURED"
    | Some budget =>
      if budget <=? 0 then invalid "MODEL_BLUE_PAIR_BUDGET_NOT_CONFIGURED"
      else
        let! ws := leg_weights (sig_legs signal) in
        let! _ := check_weight_sum ws in
        let! sized := mapR (size_signal_leg direction budget) (sig_legs signal) in
        let! _ := validate_realised_ratio sized budget in
        Ok sized
    end
  end.
End Sizer.

(** ** Facts about the shortest decimal of a float *)
Lemma shortest_nonneg (n : nat) (d : Z) (x : Q) :
  (1 <= d)%Z -> 0 <= x -> 0 <= shortest n d x.
Proof.
  revert d. induction n as [|n IH]; intros d Hd Hx; simpl.
  - apply rnd_nonneg; lia || done.
  - destruct (Qeq_bool _ _); [apply rnd_nonneg; lia || done|apply IH; [lia|done]].
Qed.

Lemma repr_dec_nonneg (x : Q) : 0 <= x -> 0 <= repr_dec x.
Proof. by apply shortest_nonneg. Qed.

(** ** The quantity of whole-share legs *)
Lemma quantize_0 (r : Q -> Z) (H : Proper (Qeq ==> eq) r) (x q : Q) :
  quantize r 0 x = Ok q -> q == inject_Z (r x) /\ (Z.abs (r x) < 10 ^ 28)%Z.
Proof.
  unfold quantize. assert (E : r (x * pw 10 0) = r x) by (apply H; change (pw 10 0) with 1; ring).
  rewrite E. destruct (Z.ltb_spec (Z.abs (r x)) (10 ^ 28)); [|done]. intros [= <-].
  split; [|done]. rewrite Qred_correct. change (pw 10 (- 0)) with 1. ring.
Qed.

(** What whole-share rounding promises: a positive number of shares, the
    largest one the target pays for (up to one decimal rounding). *)
Definition whole_shares (target price quantity : Q) : Prop :=
  exists n : Z, quantity == inject_Z n /\ (1 <= n)%Z /\
    quantity * price <= target * (1 + dec_u) /\ target < (quantity + 1) * price.

Lemma sized_quantity_whole (t : string) (target price q : Q) :
  is_whole_share_type t = true -> 0 <= target -> 0 < price ->
  sized_quantity t target price = Ok q -> whole_shares target price q.
Proof.
  intros Ht Htg Hp H. unfold sized_quantity in H. rewrite Ht in H.
  apply rbind_ok in H as (q' & Hq & H).
  destruct (q' <? 1) eqn:E1; [discriminate H|]. injection H as ->. bool_to_prop.
  apply quantize_0 in Hq as [Eq Hlt]; [|apply _].
  destruct (ddiv_bounds target price Htg Hp) as [Hlo Hhi].
  assert (Hd : 0 <= ddiv target price).
  { apply ctx_nonneg. apply Qle_shift_div_l; lra. }
  destruct (round_down_nonneg _ Hd) as [Hf1 Hf2].
  set (n := round_down (ddiv target price)) in *.
  assert (Hn1 : (1 <= n)%Z) by (rewrite Zle_Qle, <- Eq; exact E1).
  exists n. split; [done|]. split; [done|]. split.
  - rewrite Eq. eapply Qle_trans; [|exact Hhi].
    apply Qmult_le_compat_r; [done|lra].
  - destruct (Qlt_le_dec target ((q + 1) * price)) as [|Hge]; [done|exfalso].
    assert (Hr : inject_Z (n + 1) <= ddiv target price).
    { apply (rounds_ge (f := ctx)); [apply representable_int; lia|].
      apply Qle_shift_div_l; [done|]. rewrite inject_Z_plus. change (inject_Z 1) with 1.
      by rewrite <- Eq. }
    rewrite inject_Z_plus in Hr. change (inject_Z 1) with 1 in Hr. lra.
Qed.

(** ** Sized legs *)
Record sized_ok (sizer : ModelBlueSizer) (direction : Z) (budget : Q)
    (leg : SignalLeg) (z : SizedModelBlueLeg) : Prop := {
  so_symbol : sz_symbol z = sl_symbol leg;
  so_type : sz_instrument_type z = sl_instrument_type leg;
  so_weight : sl_weight leg = Some (FFin (sz_weight z));
  so_price : sl_price leg = DFin (sz_price z) /\ 0 < sz_price z;
  so_side : fl (sz_weight z * inject_Z direction) > 0 /\ sz_side z = BUY \/
            fl (sz_weight z * inject_Z direction) < 0 /\ sz_side z = SELL;
  so_notional : sz_notional z = dmul (sz_quantity z) (sz_price z) /\
                min_order_notional sizer <= sz_notional z;
  so_quantity : is_whole_share_type (sl_instrument_type leg) = true ->
                whole_shares (dmul budget (repr_dec (Qabs (sz_weight z)))) (sz_price z)
                  (sz_quantity z)
}.

Lemma size_signal_leg_ok sizer d budget leg z :
  0 < budget -> size_signal_leg sizer d budget leg = Ok z -> sized_ok sizer d budget leg z.
Proof.
  intros Hb. unfold size_signal_leg, size_leg.
  destruct (sl_weight leg) as [[w| |]|] eqn:Ew; try done.
  destruct (sl_price leg) as [p|[]|] eqn:Ep; try done; [|by case_match].
  destruct (p <=? 0) eqn:E0; [done|]. bool_to_prop. intros H.
  apply rbind_ok in H as (q & Hq & H). unfold finish_leg in H.
  destruct (dmul q p <? min_order_notional sizer) eqn:Em; [done|]. bool_to_prop.
  destruct (Qeq_bool (fl _) 0) eqn:Es; [done|]. apply Qeq_bool_neq in Es.
  injection H as <-. constructor; simpl; try done.
  - destruct (0 <? fl _) eqn:E1; bool_to_prop; [by left|right; split; [lra|done]].
  - intros Ht. eapply sized_quantity_whole; [exact Ht| |exact E0|exact Hq].
    apply dmul_nonneg; [lra|]. apply repr_dec_nonneg, Qabs_nonneg.
Qed.

Lemma size_open_inv sizer s pb sized :
  size_open sizer s pb = Ok sized ->
  exists d budget ws,
    sig_direction s = Some d /\ (d = 1 \/ d = -1)%Z /\
    resolve_budget sizer s pb = Some budget /\ 0 < budget /\
    length (sig_legs s) = 2%nat /\
    leg_weights (sig_legs s) = Ok ws /\ check_weight_sum ws = Ok tt /\
    mapR (size_signal_leg sizer d budget) (sig_legs s) = Ok sized /\
    validate_realised_ratio sizer sized budget = Ok tt.
Proof.
  unfold size_open. intros H.
  destruct (is_model_blue_strategy _); [|discriminate H]. cbn [negb] in H.
  destruct (_ =? "OPEN")%string; [|discriminate H]. cbn [negb] in H.
  destruct (sig_direction s) as [d|]; [|discriminate H]. cbn [valid_direction] in H.
  destruct ((d =? 1)%Z || (d =? -1)%Z) eqn:Ed; [|discriminate H].
  destruct (Nat.eqb_spec (length (sig_legs s)) 2) as [El|]; [|discriminate H]. cbn [negb] in H.
  destruct (resolve_budget sizer s pb) as [budget|] eqn:Eb; [|discriminate H].
  destruct (budget <=? 0) eqn:E0; [discriminate H|]. bool_to_prop.
  apply rbind_ok in H as (ws & Hws & H). apply rbind_ok in H as ([] & Hc & H).
  apply rbind_ok in H as (z & Hz & H). apply rbind_ok in H as ([] & Hv & [= <-]).
  exists d, budget, ws. apply orb_true_iff in Ed. rewrite !Z.eqb_eq in Ed. auto 10.
Qed.

(** C35: what sizing promises: when [size_open] returns, the budget was
    positive and there is one sized leg per signal leg, in order, with the
    leg's symbol, type, weight and (finite, positive) price; the side is the
    sign of weight times direction; the notional is quantity times price and
    at least the minimum order notional; and a STK or ETF leg holds a positive
    whole number of shares that costs at most the leg's target up to one
    decimal rounding (relative error 5e-28) and that no larger whole number
    would satisfy. *)
Theorem size_open_sound (sizer : ModelBlueSizer) (s : Signal) (pb : option Q)
    (sized : list SizedModelBlueLeg) :
  size_open sizer s pb = Ok sized ->
  exists d budget, sig_direction s = Some d /\ resolve_budget sizer s pb = Some budget /\
    0 < budget /\ length sized = 2%nat /\
    Forall2 (sized_ok sizer d budget) (sig_legs s) sized.
Proof.
  intros (d & budget & ws & Hd & _ & Hb & Hpos & Hl & _ & _ & Hm & _)%size_open_inv.
  exists d, budget. apply mapR_ok in Hm. do 3 (split; [done|]). split.
  - by rewrite <- (Forall2_length _ _ _ Hm).
  - eapply Forall2_impl; [exact Hm|]. intros. by apply size_signal_leg_ok.
Qed.

(** ** The realised split *)
Lemma worst_deviation_ge (total wsum : Q) (l : list SizedModelBlueLeg) (w0 : Q) :
  w0 <= fold_left (worse total wsum) l w0 /\
  Forall (fun leg => realised_dev total wsum leg <= fold_left (worse total wsum) l w0) l.
Proof.
  revert w0. induction l as [|leg l IH]; intros w0; simpl; [split; [lra|constructor]|].
  destruct (IH (worse total wsum w0 leg)) as [H1 H2].
  assert (Hw : w0 <= worse total wsum w0 leg /\
               realised_dev total wsum leg <= worse total wsum w0 leg).
  { unfold worse. destruct (w0 <? _) eqn:E; bool_to_prop; split; lra. }
  split; [lra|constructor; [lra|exact H2]].
Qed.

Definition weights_sum (sized : list SizedModelBlueLeg) : Q :=
  dsum (map (fun l => repr_dec (Qabs (sz_weight l))) sized).

(** Hedge ratio: every leg of a pair that [size_open] returns holds its
    intended share of the pair's notional up to the configured tolerance
    (shares computed in decimal arithmetic), the total is positive, and when a
    deployment floor is configured the pair deploys at least that fraction of
    the budget. *)
Theorem size_open_ratio (sizer : ModelBlueSizer) (s : Signal) (pb : option Q)
    (sized : list SizedModelBlueLeg) :
  size_open sizer s pb = Ok sized ->
  let total := dsum (map sz_notional sized) in
  0 < total /\
  Forall (fun leg => realised_dev total (weights_sum sized) leg <= ratio_tolerance sizer) sized /\
  (exists budget, resolve_budget sizer s pb = Some budget /\
     (0 < min_deployment sizer -> min_deployment sizer <= ddiv total budget)).
Proof.
  intros (d & budget & ws & _ & _ & Hb & Hpos & _ & _ & _ & _ & Hv)%size_open_inv total.
  unfold validate_realised_ratio in Hv. fold total in Hv. fold (weights_sum sized) in Hv.
  destruct (total <=? 0) eqn:E0; [discriminate Hv|].
  destruct (Qeq_bool _ 0); [discriminate Hv|].
  destruct (ratio_tolerance sizer <? _) eqn:Et; [discriminate Hv|].
  destruct ((0 <? min_deployment sizer) && _) eqn:Ed; [discriminate Hv|]. bool_to_prop.
  split; [done|]. split.
  - destruct (worst_deviation_ge total (weights_sum sized) sized 0) as [_ H].
    unfold worst_deviation in Et. eapply Forall_impl; [exact H|]. simpl. intros. lra.
  - exists budget. split; [done|]. intros Hm. apply andb_false_iff in Ed as [Ed|Ed];
      bool_to_prop; lra.
Qed.

(** ** The budget *)
Lemma check_weight_sum_two (w1 w2 : Q) :
  check_weight_sum [FFin w1; FFin w2] = Ok tt ->
  repr_dec (Qabs w1) + repr_dec (Qabs w2) <= 1 + (1 # 900000).
Proof.
  unfold check_weight_sum, weight_sum.
  cbn [fold_left dec_of_float float_abs pydec_add].
  set (a := repr_dec (Qabs w1)). set (b := repr_dec (Qabs w2)). set (s := dadd (dadd 0 a) b).
  intros H. destruct (WEIGHT_SUM_TOLERANCE <? dabs (dsub s 1)) eqn:E; [discriminate H|].
  bool_to_prop.
  assert (Ha : 0 <= a) by apply repr_dec_nonneg, Qabs_nonneg.
  assert (Hb : 0 <= b) by apply repr_dec_nonneg, Qabs_nonneg.
  assert (Ha0 : 0 <= dadd 0 a) by (apply ctx_nonneg; lra).
  destruct (ctx_err (0 + a) ltac:(lra)) as [H1 _]. fold (dadd 0 a) in H1.
  destruct (ctx_err (dadd 0 a + b) ltac:(lra)) as [H2 _].
  fold (dadd (dadd 0 a) b) in H2. fold s in H2.
  assert (H3 : s <= 1 + (1 # 950000)).
  { destruct (Qlt_le_dec s 1) as [|Hs]; [lra|].
    assert (Hd : 0 <= dsub s 1) by (apply ctx_nonneg; lra).
    rewrite dabs_eq in E; [|apply (rounds_repr (f := ctx))|done].
    destruct (ctx_err (s - 1) ltac:(lra)) as [H3 _]. fold (dsub s 1) in H3.
    unfold WEIGHT_SUM_TOLERANCE, dec_u in *. lra. }
  unfold dec_u in *. lra.
Qed.

Lemma sized_leg_notional_le sizer d budget leg z :
  0 < budget -> sized_ok sizer d budget leg z ->
  is_whole_share_type (sl_instrument_type leg) = true ->
  0 <= sz_notional z /\
  sz_notional z <= budget * repr_dec (Qabs (sz_weight z)) * (1 + 4 * dec_u).
Proof.
  intros Hb Hz Ht. destruct (so_quantity _ _ _ _ _ Hz Ht) as (n & Eq & Hn & Hup & _).
  destruct (so_notional _ _ _ _ _ Hz) as [-> _]. destruct (so_price _ _ _ _ _ Hz) as [_ Hp].
  pose proof (repr_dec_nonneg (Qabs (sz_weight z)) (Qabs_nonneg _)) as Hw.
  set (w := repr_dec _) in *.
  assert (Hq : 0 <= sz_quantity z) by (rewrite Eq, <- (Zle_Qle 0); lia).
  split; [apply dmul_nonneg; lra|].
  pose proof (dmul_upper (sz_quantity z) (sz_price z) Hq ltac:(lra)) as H1.
  pose proof (dmul_upper budget w ltac:(lra) Hw) as H2.
  assert (H0 : 0 <= budget * w) by (apply Qmult_le_0_compat; lra).
  unfold dec_u in *. lra.
Qed.

Lemma pair_within_budget (sizer : ModelBlueSizer) (s : Signal) (pb : option Q)
    (sized : list SizedModelBlueLeg) (budget : Q) :
  size_open sizer s pb = Ok sized ->
  resolve_budget sizer s pb = Some budget ->
  Forall (fun leg => is_whole_share_type (sl_instrument_type leg) = true) (sig_legs s) ->
  dsum (map sz_notional sized) <= budget * (1 + (1 # 500000)).
Proof.
  intros (d & budget' & ws & _ & _ & Hb' & Hpos & Hl & Hws & Hc & Hm & _)%size_open_inv Hb Ht.
  rewrite Hb in Hb'. injection Hb' as <-. apply mapR_ok in Hm, Hws.
  destruct (sig_legs s) as [|l1 [|l2 [|? ?]]]; try discriminate Hl.
  inversion Hm as [|? z1 ? ? Hz1 Hm']; subst. inversion Hm' as [|? z2 ? ? Hz2 Hm'']; subst.
  inversion Hm''; subst. apply Forall_cons_1 in Ht as [Ht1 Ht2].
  apply Forall_cons_1 in Ht2 as [Ht2 _].
  apply size_signal_leg_ok in Hz1, Hz2; [|done..].
  inversion Hws as [|? w1 ? ? Hw1 Hws']; subst. inversion Hws' as [|? w2 ? ? Hw2 Hws'']; subst.
  inversion Hws''; subst.
  rewrite (so_weight _ _ _ _ _ Hz1) in Hw1. rewrite (so_weight _ _ _ _ _ Hz2) in Hw2.
  injection Hw1 as <-. injection Hw2 as <-. apply check_weight_sum_two in Hc.
  destruct (sized_leg_notional_le _ _ _ _ _ Hpos Hz1 Ht1) as [N1 U1].
  destruct (sized_leg_notional_le _ _ _ _ _ Hpos Hz2 Ht2) as [N2 U2].
  unfold dsum. cbn [map fold_left].
  set (n1 := sz_notional z1) in *. set (n2 := sz_notional z2) in *.
  set (r1 := repr_dec (Qabs (sz_weight z1))) in *. set (r2 := repr_dec (Qabs (sz_weight z2))) in *.
  destruct (ctx_err (0 + n1) ltac:(lra)) as [_ H1]. fold (dadd 0 n1) in H1.
  assert (H0 : 0 <= dadd 0 n1) by (apply ctx_nonneg; lra).
  destruct (ctx_err (dadd 0 n1 + n2) ltac:(lra)) as [_ H2]. fold (dadd (dadd 0 n1) n2) in H2.
  assert (Hs : budget * r1 + budget * r2 <= budget * (1 + (1 # 900000))) by nra.
  unfold dec_u in *. lra.
Qed.

(** A pair of STK or ETF legs never deploys more than its budget, up to
    the weight-sum tolerance: the notionals sum to at most the budget times
    1 + 1/500000. *)
Theorem size_open_within_budget (sizer : ModelBlueSizer) (s : Signal) (pb : option Q)
    (sized : list SizedModelBlueLeg) (budget : Q) :
  size_open sizer s pb = Ok sized ->
  resolve_budget sizer s pb = Some budget ->
  Forall (fun leg => is_whole_share_type (sl_instrument_type leg) = true) (sig_legs s) ->
  dsum (map sz_notional sized) <= budget * (1 + (1 # 500000)).
Proof. apply pair_within_budget. Qed.

(** Documented promise "notional never exceeds the allocated target": for
    amounts on a common decimal grid 10^s whose target has at most 27 digits,
    the shares bought cost at most the target, exactly. *)
Theorem whole_shares_never_exceed (instrument_type : string) (target price q : Q) (s a b : Z) :
  is_whole_share_type instrument_type = true ->
  sized_quantity instrument_type target price = Ok q -> 0 < price ->
  target == inject_Z a * pw 10 s -> price == inject_Z b * pw 10 s ->
  (0 <= a < 2 * 10 ^ 27)%Z -> q * price <= target.
Proof.
  intros Ht Hq Hp Et Ep [Ha Hb]. pose proof (pw_pos 10 ten_ge_2 s) as Hs.
  assert (Htg : 0 <= target).
  { rewrite Et. apply Qmult_le_0_compat; [by rewrite <- (Zle_Qle 0)|lra]. }
  destruct (sized_quantity_whole _ _ _ _ Ht Htg Hp Hq) as (n & En & _ & Hup & _).
  destruct (Qlt_le_dec target (q * price)) as [Hgt|]; [exfalso|done].
  rewrite Et, Ep, En in Hup, Hgt.
  assert (H1 : inject_Z a < inject_Z (n * b)) by (rewrite inject_Z_mult; nra).
  pose proof (inject_Z_lt_succ _ _ H1) as H2. rewrite inject_Z_mult in H2.
  assert (H3 : inject_Z n * inject_Z b <= inject_Z a * (1 + dec_u)) by nra.
  assert (H4 : inject_Z a < 2000000000000000000000000000).
  { change 2000000000000000000000000000 with (inject_Z 2000000000000000000000000000).
    by rewrite <- Zlt_Qlt. }
  unfold dec_u in H3. lra.
Qed.

(** ** A sized pair *)
Definition ex_sizer : ModelBlueSizer :=
  new_sizer (TemporarySettingsCommittedCapitalProvider None) None None None.
Definition ex_open : Signal :=
  open_signal 0 "r" None "T1" "SMART" 1
    [signal_leg 0 (ex_ld "SPY" (1 # 2) 500) (DFin 500);
     signal_leg 1 (ex_ld "QQQ" (- (1 # 2)) 400) (DFin 400)].
Definition ex_sized : list SizedModelBlueLeg :=
  [{| sz_symbol := "SPY"; sz_instrument_type := "STK"; sz_side := BUY; sz_quantity := 10;
      sz_price := 500; sz_notional := 5000; sz_weight := 1 # 2 |};
   {| sz_symbol := "QQQ"; sz_instrument_type := "STK"; sz_side := SELL; sz_quantity := 12;
      sz_price := 400; sz_notional := 4800; sz_weight := - (1 # 2) |}].

Example ex_size_open : size_open ex_sizer ex_open (Some 10000) = Ok ex_sized.
Proof. by vm_compute. Qed.

Lemma size_open_sound_witness :
  exists d budget, sig_direction ex_open = Some d /\
    resolve_budget ex_sizer ex_open (Some 10000) = Some budget /\
    0 < budget /\ length ex_sized = 2%nat /\
    Forall2 (sized_ok ex_sizer d budget) (sig_legs ex_open) ex_sized.
Proof. exact (size_open_sound ex_sizer ex_open (Some 10000) ex_sized ex_size_open). Defined.

Lemma size_open_ratio_witness :
  Forall (fun leg => realised_dev 9800 (weights_sum ex_sized) leg <= 5 # 100) ex_sized.
Proof.
  destruct (size_open_ratio ex_sizer ex_open (Some 10000) ex_sized ex_size_open) as (_ & H & _).
  exact H.
Defined.

Lemma size_open_within_budget_witness : dsum (map sz_notional ex_sized) <= 10000 * (1 + (1 # 500000)).
Proof.
  apply (size_open_within_budget ex_sizer ex_open (Some 10000) ex_sized 10000);
    [exact ex_size_open|reflexivity|repeat constructor].
Defined.

Lemma whole_shares_never_exceed_witness : 12 * 400 <= 5000.
Proof.
  apply (whole_shares_never_exceed "ETF" 5000 400 12 0 5000 400);
    [reflexivity|by vm_compute|lra|reflexivity|reflexivity|lia].
Defined.
