(* ===== verification/Accounts.v ===== *)
(** * Account contexts and the account router

    [accounts/context.py] and [accounts/router.py]: which enabled accounts
    execute a strategy's signal, and with which budget. *)

From S2P Require Import Prelude Rounding PyText.
From stdpp Require Import sorting.

#[local] Open Scope Q_scope.
#[local] Open Scope py_scope.

Record AccountExecutionContext : Type := {
  ax_account_id : Z;
  ax_ibkr_account : string;
  ax_strategy_id : string;
  ax_total_margin : Q;
  ax_alloc_pct : Q;
  ax_committed_notional : Q;
  ax_pair_max_allocation_pct : Q;
  ax_pair_budget : Q;
  ax_target : Q;
  ax_stop : Q;
  ax_time_limit : Z;
  ax_max_open_positions : Z
}.

(** The columns the router and the trade book read. *)
Record AccountRow : Type := {
  ar_id : Z;
  ar_ibkr_account : string;
  ar_enabled : bool;
  ar_total_margin : Q
}.
Record AllocationRow : Type := {
  al_account_id : Z;
  al_strategy_id : string;
  al_enabled : bool;
  al_alloc_pct : Q;
  al_pair_max_allocation_pct : Q;
  al_target : Q;
  al_stop : Q;
  al_time_limit : Z;
  al_max_open_positions : Z;
  al_target_unit : string;
  al_stop_unit : string;
  al_exit_automation_enabled : bool
}.
Record StrategyRow : Type := { st_strategy_id : string; st_enabled : bool }.

Record Database : Type := {
  accounts : list AccountRow;
  allocations : list AllocationRow;
  strategies : list StrategyRow
}.

(** [context_from_rows]. *)
Definition context_from_rows (a : AccountRow) (l : AllocationRow) (s : StrategyRow)
    : AccountExecutionContext :=
  let committed := dmul (ar_total_margin a) (al_alloc_pct l) in
  let pair_pct := al_pair_max_allocation_pct l in {|
    ax_account_id := ar_id a; ax_ibkr_account := ar_ibkr_account a;
    ax_strategy_id := st_strategy_id s; ax_total_margin := ar_total_margin a;
    ax_alloc_pct := al_alloc_pct l; ax_committed_notional := committed;
    ax_pair_max_allocation_pct := pair_pct; ax_pair_budget := dmul committed pair_pct;
    ax_target := al_target l; ax_stop := al_stop l; ax_time_limit := al_time_limit l;
    ax_max_open_positions := al_max_open_positions l |}.

(** The rows the query returns: a join of the three tables with its [where]
    clause, ordered by account id. *)
Definition join_ok (wanted : string) (r : AccountRow * AllocationRow * StrategyRow) : bool :=
  let '(a, l, s) := r in
  (al_account_id l =? ar_id a)%Z && (st_strategy_id s =? al_strategy_id l)%string
  && (al_strategy_id l =? wanted)%string && ar_enabled a && st_enabled s && al_enabled l
  && (0 <? ar_total_margin a) && (0 <? al_alloc_pct l).

Definition row_le (r r' : AccountRow * AllocationRow * StrategyRow) : Prop :=
  (ar_id r.1.1 <= ar_id r'.1.1)%Z.
#[global] Instance row_le_dec : RelDecision row_le.
Proof. unfold row_le. intros r r'. apply _. Defined.

Definition enabled_rows (db : Database) (wanted : string)
    : list (AccountRow * AllocationRow * StrategyRow) :=
  merge_sort row_le
    (List.filter (join_ok wanted)
       (list_prod (list_prod (accounts db) (allocations db)) (strategies db))).

(** The loop of [_resolve]. *)
Fixpoint resolve_rows (rows : list (AccountRow * AllocationRow * StrategyRow))
    : list AccountExecutionContext :=
  match rows with
  | [] => []
  | (account, allocation, strategy) :: rows =>
      let committed := dmul (ar_total_margin account) (al_alloc_pct allocation) in
      if committed <=? 0 then resolve_rows rows
      else
        let pair_budget := dmul committed (al_pair_max_allocation_pct allocation) in
        if pair_budget <=? 0 then resolve_rows rows
        else
          {| ax_account_id := ar_id account; ax_ibkr_account := ar_ibkr_account account;
             ax_strategy_id := st_strategy_id strategy;
             ax_total_margin := ar_total_margin account;
             ax_alloc_pct := al_alloc_pct allocation; ax_committed_notional := committed;
             ax_pair_max_allocation_pct := al_pair_max_allocation_pct allocation;
             ax_pair_budget := pair_budget; ax_target := al_target allocation;
             ax_stop := al_stop allocation; ax_time_limit := al_time_limit allocation;
             ax_max_open_positions := al_max_open_positions allocation |}
          :: resolve_rows rows
  end.

Definition resolve (db : Database) (strategy_id : string) : list AccountExecutionContext :=
  let wanted := str_strip strategy_id in
  if str_empty wanted then [] else resolve_rows (enabled_rows db wanted).

(** [StaticStrategyAccountRouter.resolve]. *)
Definition static_resolve (contexts : list AccountExecutionContext) (strategy_id : string)
    : list AccountExecutionContext :=
  let wanted := str_strip strategy_id in
  List.filter (fun c => (ax_strategy_id c =? wanted)%string) contexts.

(** ** What routing promises *)
Lemma resolve_rows_elem (rows : list (AccountRow * AllocationRow * StrategyRow)) c :
  c ∈ resolve_rows rows <->
  exists a l s, (a, l, s) ∈ rows /\ c = context_from_rows a l s /\
    0 < ax_committed_notional c /\ 0 < ax_pair_budget c.
Proof.
  induction rows as [|[[a l] s] rows IH]; simpl.
  { split; [by intros ?%not_elem_of_nil|]. intros (? & ? & ? & ?%not_elem_of_nil & _). done. }
  assert (Hcons :
    (exists a' l' s', (a', l', s') ∈ (a, l, s) :: rows /\ c = context_from_rows a' l' s' /\
      0 < ax_committed_notional c /\ 0 < ax_pair_budget c) <->
     (c = context_from_rows a l s /\ 0 < ax_committed_notional c /\ 0 < ax_pair_budget c) \/
     c ∈ resolve_rows rows).
  { rewrite IH. setoid_rewrite elem_of_cons. split.
    - intros (a' & l' & s' & [[= -> -> ->]|Hin] & Hc); [by left|right; eauto 10].
    - intros [Hc|(a' & l' & s' & Hin & Hc)]; [exists a, l, s; auto|exists a', l', s'; auto]. }
  rewrite Hcons. clear Hcons IH.
  destruct (dmul _ _ <=? 0) eqn:E1; bool_to_prop; [|destruct (dmul (dmul _ _) _ <=? 0) eqn:E2];
    bool_to_prop.
  - split; [by right|]. intros [(-> & H & _)|H]; [|done]. simpl in H. lra.
  - split; [by right|]. intros [(-> & _ & H)|H]; [|done]. simpl in H. lra.
  - rewrite elem_of_cons. split; [intros [->|H]; [left|by right]|intros [(-> & _)|H]; auto].
    unfold context_from_rows; simpl. auto.
Qed.

(** Routing is exact: the contexts the database router resolves for a
    strategy are those of the join rows with account, strategy and allocation
    enabled whose committed capital and pair budget are positive, no others
    and none left out; they are ordered by account id, and a blank strategy id
    resolves to nobody. *)
Theorem resolve_exact (db : Database) (strategy_id : string) :
  let wanted := str_strip strategy_id in
  (str_empty wanted = true -> resolve db strategy_id = []) /\
  (str_empty wanted = false ->
    (forall c, c ∈ resolve db strategy_id <->
       exists a l s, a ∈ accounts db /\ l ∈ allocations db /\ s ∈ strategies db /\
         join_ok wanted (a, l, s) = true /\ c = context_from_rows a l s /\
         0 < ax_committed_notional c /\ 0 < ax_pair_budget c)) /\
  StronglySorted (fun c c' => (ax_account_id c <= ax_account_id c')%Z) (resolve db strategy_id).
Proof.
  intros wanted. unfold resolve. fold wanted. split; [by intros ->|]. split.
  - intros ->. intros c. rewrite resolve_rows_elem. unfold enabled_rows.
    setoid_rewrite merge_sort_Permutation. setoid_rewrite list_elem_of_In.
    setoid_rewrite filter_In. setoid_rewrite in_prod_iff. setoid_rewrite in_prod_iff.
    split.
    + intros (a & l & s & ([[? ?] ?] & ?) & ->& ?). exists a, l, s. auto 10.
    + intros (a & l & s & ? & ? & ? & ? & -> & ?). exists a, l, s. auto 10.
  - destruct (str_empty wanted); [constructor|].
    assert (Hs : StronglySorted row_le (enabled_rows db wanted)).
    { apply StronglySorted_merge_sort; [intros ???; unfold row_le; lia|].
      intros x y. unfold row_le. lia. }
    induction Hs as [|[[a l] s] rows Hs IH Hall]; simpl; [constructor|].
    destruct (_ <=? 0); [done|]. destruct (_ <=? 0); [done|]. constructor; [done|].
    apply Forall_forall. intros c (a' & l' & s' & Hin & -> & _)%resolve_rows_elem. simpl.
    rewrite Forall_forall in Hall. exact (Hall _ Hin).
Qed.
