(* ===== verification/TradeBook.v ===== *)
(** * Open Model Blue trades: [models/model_blue_trade.py] and
    [services/model_blue/trade_book.py]

    The protocol [ModelBlueTradeBook] is a class, its promise to the strategy
    handler a second class of laws; the in-memory book implements both. *)

From S2P Require Import Prelude Rounding PyText RmsModels.

#[local] Open Scope py_scope.

Record OpenModelBlueTradeLeg : Type := {
  ol_symbol : string;
  ol_instrument_type : option string;
  ol_side : OrderSide;
  ol_quantity : Q;
  ol_price : Q
}.

Record OpenModelBlueTrade : Type := {
  ot_trade_id : string;
  ot_strategy_id : string;
  ot_direction : Z;
  ot_legs : list OpenModelBlueTradeLeg
}.

(** [ModelBlueTradeBook]; a row is known by its [risk_state]. *)
Class ModelBlueTradeBook (B : Type) : Type := {
  book_get : string -> option Z -> B -> result (option OpenModelBlueTrade);
  book_record_open : OpenModelBlueTrade -> option Z -> B -> result B;
  book_close : string -> option Z -> B -> result (OpenModelBlueTrade * B);
  book_get_row : string -> option Z -> B -> result (option string)
}.

(** What every implementation promises: a recorded trade is found under its
    id, it also blocks the id, closing removes and returns what [get] finds,
    and closing something unknown raises. *)
Class LawfulTradeBook (B : Type) `{ModelBlueTradeBook B} : Prop := {
  book_get_recorded (t : OpenModelBlueTrade) (a : option Z) (b b' : B) :
    book_record_open t a b = Ok b' -> book_get (ot_trade_id t) a b' = Ok (Some t);
  book_row_recorded (id : string) (a : option Z) (b : B) (t : OpenModelBlueTrade) :
    book_get id a b = Ok (Some t) -> exists st, book_get_row id a b = Ok (Some st);
  book_close_get (id : string) (a : option Z) (b : B) (t : OpenModelBlueTrade) :
    book_get id a b = Ok (Some t) ->
    exists b', book_close id a b = Ok (t, b') /\ book_get id a b' = Ok None;
  book_close_none (id : string) (a : option Z) (b : B) :
    book_get id a b = Ok None -> book_close id a b = Raise (KeyError id)
}.

(** ** The in-memory book *)
Module InMemory.

Abbreviation Book := (gmap (Z * string) OpenModelBlueTrade).

Definition key (trade_id : string) (account_id : option Z) : Z * string :=
  (default 0 account_id, trade_id).

Definition get (trade_id : string) (account_id : option Z) (b : Book)
    : result (option OpenModelBlueTrade) := Ok (b !! key trade_id account_id).

Definition record_open (trade : OpenModelBlueTrade) (account_id : option Z) (b : Book)
    : result Book := Ok (<[key (ot_trade_id trade) account_id := trade]> b).

Definition close (trade_id : string) (account_id : option Z) (b : Book)
    : result (OpenModelBlueTrade * Book) :=
  match b !! key trade_id account_id with
  | None => Raise (KeyError trade_id)
  | Some trade => Ok (trade, delete (key trade_id account_id) b)
  end.

Definition get_row (trade_id : string) (account_id : option Z) (b : Book)
    : result (option string) :=
  Ok (match b !! key trade_id account_id with None => None | Some _ => Some "OPEN"%string end).

#[global] Instance InMemoryModelBlueTradeBook : ModelBlueTradeBook Book := {|
  book_get := get; book_record_open := record_open; book_close := close;
  book_get_row := get_row |}.

#[global] Instance in_memory_lawful : LawfulTradeBook Book.
Proof.
  split; cbn [book_get book_record_open book_close book_get_row InMemoryModelBlueTradeBook];
    unfold get, record_open, close, get_row.
  - intros t a b b' [= <-]. by rewrite lookup_insert_eq.
  - intros id a b t [= ->]. by eexists.
  - intros id a b t [= ->]. eexists. split; [done|]. by rewrite lookup_delete_eq.
  - by intros id a b [= ->].
Qed.

(** The in-memory book keeps accounts and trades apart: recording or
    closing a trade of one (account, trade id) pair leaves every other pair's
    trade as it was, except that a missing account is the account 0. *)
Theorem book_frame (t : OpenModelBlueTrade) (id : string) (a a' : option Z) (b b1 b2 : Book)
    (t' : OpenModelBlueTrade) :
  (default 0 a', id) <> (default 0 a, ot_trade_id t) ->
  record_open t a b = Ok b1 ->
  close (ot_trade_id t) a b = Ok (t', b2) ->
  get id a' b1 = get id a' b /\ get id a' b2 = get id a' b.
Proof.
  intros Hne [= <-]. unfold close. destruct (b !! _) as [t0|]; [|done]. intros [= -> <-].
  unfold get. fold (key id a') in Hne.
  by rewrite lookup_insert_ne, lookup_delete_ne by (unfold key in *; congruence).
Qed.

Definition ex_trade (id : string) : OpenModelBlueTrade := {|
  ot_trade_id := id; ot_strategy_id := "model_blue"; ot_direction := 1; ot_legs := [] |}.

Lemma book_frame_witness :
  get "T2" (Some 1) (<[(1, "T1"%string) := ex_trade "T1"]> {[(1, "T2"%string) := ex_trade "T2"]})
  = Ok (Some (ex_trade "T2")).
Proof.
  destruct (book_frame (ex_trade "T1") "T2" (Some 1) (Some 1)
    (<[(1, "T1"%string) := ex_trade "T1"]> {[(1, "T2"%string) := ex_trade "T2"]})
    (<[(1, "T1"%string) := ex_trade "T1"]>
       (<[(1, "T1"%string) := ex_trade "T1"]> {[(1, "T2"%string) := ex_trade "T2"]}))
    (delete (1, "T1"%string)
       (<[(1, "T1"%string) := ex_trade "T1"]> {[(1, "T2"%string) := ex_trade "T2"]}))
    (ex_trade "T1")) as [H _]; [by intros [=]|reflexivity|by vm_compute|].
  rewrite <- H. by vm_compute.
Defined.

End InMemory.
