(* ===== verification/Strategy.v ===== *)
(** * The Model Blue strategy handler: [services/model_blue/strategy.py]

    Signals become order intents: an OPEN is sized, a CLOSE is rebuilt from
    the recorded open trade with every side reversed. *)

From S2P Require Import Prelude Rounding PyText Identifiers RmsModels Parser Sizer Accounts TradeBook.

#[local] Open Scope Q_scope.
#[local] Open Scope py_scope.

(** The settings [_sizer_from_provider] reads ([core/config.py]). *)
Record SizerSettings : Type := {
  cfg_min_order_notional : Q;
  cfg_pair_ratio_tolerance : Q;
  cfg_pair_min_deployment_pct : Q
}.

(** A provider whose [get_committed] is or is not a coroutine function. *)
Record Provider : Type := { get_committed : string -> option Q; is_coroutine : bool }.

(** [(signal.trade_id or signal.signal_id or EMPTY).strip()]. *)
Definition signal_trade_id (signal : Signal) : string :=
  str_strip (str_or (opt_str (sig_trade_id signal)) (opt_str (sig_signal_id signal))).

(** [_order_leg_from_sized]. *)
Definition order_leg_from_sized (index : Z) (sized : SizedModelBlueLeg) : OrderLeg := {|
  leg_symbol := sz_symbol sized; leg_side := sz_side sized;
  leg_quantity := NFloat (fl (sz_quantity sized)); leg_price := sz_price sized;
  leg_contract_month := None; leg_con_id := None; leg_notional := Some (sz_notional sized);
  leg_instrument_type := Some (sz_instrument_type sized);
  leg_weight := Some (FFin (sz_weight sized)); leg_leg_index := Some index;
  leg_metadata := None; leg_exchange := None; leg_currency := None; leg_resolved := None |}.

Definition opposite (s : OrderSide) : OrderSide := match s with BUY => SELL | SELL => BUY end.

(** The loop body of [_build_close_intent]. *)
Definition close_leg (il : Z * OpenModelBlueTradeLeg) : OrderLeg :=
  let (index, open_leg) := il in {|
    leg_symbol := ol_symbol open_leg; leg_side := opposite (ol_side open_leg);
    leg_quantity := NFloat (fl (ol_quantity open_leg)); leg_price := ol_price open_leg;
    leg_contract_month := None; leg_con_id := None;
    leg_notional := Some (dmul (ol_quantity open_leg) (ol_price open_leg));
    leg_instrument_type := ol_instrument_type open_leg; leg_weight := None;
    leg_leg_index := Some index; leg_metadata := None; leg_exchange := None;
    leg_currency := None; leg_resolved := None |}.

Definition open_leg_of (leg : OrderLeg) : OpenModelBlueTradeLeg := {|
  ol_symbol := leg_symbol leg; ol_instrument_type := leg_instrument_type leg;
  ol_side := leg_side leg; ol_quantity := dec_of_num (leg_quantity leg);
  ol_price := leg_price leg |}.

(** [int or 0]. *)
Definition trade_of (signal : Signal) (intent : OrderIntent) : OpenModelBlueTrade := {|
  ot_trade_id := signal_trade_id signal; ot_strategy_id := strategy_id intent;
  ot_direction := default 0%Z (sig_direction signal);
  ot_legs := map open_leg_of (legs intent) |}.

Section Strategy.
Context {B : Type} `{ModelBlueTradeBook B}.
(** The orders of an execution result, and the database writer. *)
Variable Orders : Type.

Record Persistence : Type := {
  persist_open : Signal -> OpenModelBlueTrade -> Orders -> option Z -> B -> result B;
  persist_close : Signal -> string -> Orders -> option Z -> B -> result B
}.

Record ModelBlueStrategy : Type := {
  committed_provider : option Provider;
  strategy_sizer : option ModelBlueSizer;
  persistence : option Persistence;
  settings : SizerSettings
}.

Definition sizer_from_provider (s : SizerSettings) (p : CommittedCapitalProvider)
    : ModelBlueSizer :=
  new_sizer p (Some (cfg_min_order_notional s)) (Some (cfg_pair_ratio_tolerance s))
    (Some (cfg_pair_min_deployment_pct s)).

(** [__init__]: a synchronous provider gives a sizer at once. *)
Definition new_strategy (provider : option Provider) (sizer : option ModelBlueSizer)
    (pers : option Persistence) (s : SizerSettings) : ModelBlueStrategy := {|
  committed_provider := provider;
  strategy_sizer := match sizer, provider with
                    | None, Some p => if is_coroutine p then None
                                      else Some (sizer_from_provider s (get_committed p))
                    | _, _ => sizer
                    end;
  persistence := pers; settings := s |}.

Definition resolve_committed (h : ModelBlueStrategy) (strategy_id : string) : option Q :=
  match committed_provider h with None => None | Some p => get_committed p strategy_id end.

(** The sizer and the pair budget an OPEN is sized with. *)
Definition choose_sizer (h : ModelBlueStrategy) (signal : Signal)
    (account : option AccountExecutionContext) : result (ModelBlueSizer * option Q) :=
  match account, strategy_sizer h with
  | Some a, Some sizer => Ok (sizer, Some (ax_pair_budget a))
  | Some a, None =>
      Ok (sizer_from_provider (settings h) (TemporarySettingsCommittedCapitalProvider None),
          Some (ax_pair_budget a))
  | None, Some sizer => Ok (sizer, None)
  | None, None =>
      match resolve_committed h (str_or (opt_str (sig_strategy_id signal)) MODEL_BLUE_STRATEGY_ID) with
      | None => invalid "MODEL_BLUE_COMMITTED_NOT_CONFIGURED"
      | Some c =>
          if c <=? 0 then invalid "MODEL_BLUE_COMMITTED_NOT_CONFIGURED"
          else Ok (sizer_from_provider (settings h)
                     (TemporarySettingsCommittedCapitalProvider (Some c)), None)
      end
  end.

Definition ctx_account_id (a : option AccountExecutionContext) : option Z :=
  option_map ax_account_id a.

Definition build_open_intent (h : ModelBlueStrategy) (signal : Signal)
    (account : option AccountExecutionContext) (b : B) : result OrderIntent :=
  let trade_id := signal_trade_id signal in
  if str_empty trade_id then invalid "MODEL_BLUE_MISSING_TRADE_ID"
  else
    let! existing := book_get_row trade_id (ctx_account_id account) b in
    match existing with
    | Some _ => invalid "TRADE_ID_NOT_UNIQUE"
    | None =>
        let! (sizer, pair_budget) := choose_sizer h signal account in
        let! sized := size_open sizer signal pair_budget in
        let ls := map (fun il => order_leg_from_sized (fst il) (snd il)) (enumerate sized) in
        if negb (Nat.eqb (length ls) 2) then invalid "MODEL_BLUE_INVALID_LEG_COUNT"
        else Ok {| signal_id := trade_id; strategy_id := MODEL_BLUE_STRATEGY_ID; action := OPEN;
                   legs := ls; account_id := ctx_account_id account;
                   ibkr_account := option_map ax_ibkr_account account;
                   market := sig_market signal; timestamp := sig_timestamp signal;
                   intent_mode := MODE_OPEN |}
    end.

Definition build_close_intent (signal : Signal) (account : option AccountExecutionContext) (b : B)
    : result OrderIntent :=
  let trade_id := signal_trade_id signal in
  if str_empty trade_id then invalid "MODEL_BLUE_MISSING_TRADE_ID"
  else
    let! open_trade := book_get trade_id (ctx_account_id account) b in
    match open_trade with
    | None => invalid "NO_OPEN_POSITION"
    | Some t =>
        Ok {| signal_id := (trade_id ++ ":CLOSE")%string; strategy_id := MODEL_BLUE_STRATEGY_ID;
              action := CLOSE; legs := map close_leg (enumerate (ot_legs t));
              account_id := ctx_account_id account;
              ibkr_account := option_map ax_ibkr_account account;
              market := sig_market signal; timestamp := sig_timestamp signal;
              intent_mode := MODE_OPEN |}
    end.

Definition build_intent (h : ModelBlueStrategy) (signal : Signal)
    (account : option AccountExecutionContext) (b : B) : result OrderIntent :=
  let action_val := str_upper (sig_action signal) in
  if (action_val =? "CLOSE")%string then build_close_intent signal account b
  else if (action_val =? "OPEN")%string then build_open_intent h signal account b
  else invalid "MODEL_BLUE_INVALID_ACTION".

Definition after_submit (h : ModelBlueStrategy) (signal : Signal) (intent : OrderIntent)
    (orders : Orders) (b : B) : result B :=
  match action intent with
  | OPEN =>
      let trade := trade_of signal intent in
      match persistence h with
      | Some p => persist_open p signal trade orders (account_id intent) b
      | None => book_record_open trade (account_id intent) b
      end
  | CLOSE =>
      match persistence h with
      | Some p => persist_close p signal (signal_trade_id signal) orders (account_id intent) b
      | None => let! tb := book_close (signal_trade_id signal) (account_id intent) b in Ok (snd tb)
      end
  end.
End Strategy.

(** ** The life of a pair *)

(** [c] closes what [l] opened: same symbol, type and price, opposite side;
    the quantity passes through [Decimal(str(...))] and back. *)
Record flattens (l c : OrderLeg) : Prop := {
  fl_symbol : leg_symbol c = leg_symbol l;
  fl_type : leg_instrument_type c = leg_instrument_type l;
  fl_side : leg_side c = opposite (leg_side l);
  fl_price : leg_price c = leg_price l;
  fl_quantity : leg_quantity c = NFloat (fl (dec_of_num (leg_quantity l)));
  fl_whole : forall q n, leg_quantity l = NFloat q -> q == inject_Z n ->
               (Z.abs n <= 2 ^ 53)%Z -> num_val (leg_quantity c) == num_val (leg_quantity l)
}.

Lemma close_leg_flattens (i : Z) (l : OrderLeg) : flattens l (close_leg (i, open_leg_of l)).
Proof.
  constructor; try done. simpl. intros q n -> Hq Hn. simpl. by eapply fl_repr_int.
Qed.

Lemma close_legs_flatten (i : Z) (ls : list OrderLeg) :
  Forall2 flattens ls (map close_leg (enumerate_from i (map open_leg_of ls))).
Proof.
  revert i. induction ls as [|l ls IH]; intros i; simpl; constructor;
    [apply close_leg_flattens|apply IH].
Qed.

Section Lifecycle.
Context {B : Type} `{LawfulTradeBook B}.
Context {Orders : Type}.
Implicit Types (h : ModelBlueStrategy (B := B) Orders) (b : B).

Lemma build_intent_open h signal account b intent :
  build_intent Orders h signal account b = Ok intent -> action intent = OPEN ->
  build_open_intent Orders h signal account b = Ok intent.
Proof.
  unfold build_intent. destruct (_ =? "CLOSE")%string.
  - unfold build_close_intent. destruct (str_empty _); [done|].
    intros (t & _ & Ht)%rbind_ok. destruct t; [|done]. by injection Ht as <-.
  - by destruct (_ =? "OPEN")%string.
Qed.

(** Everything an intent built for an OPEN tells about its making. *)
Lemma build_open_inv h signal account b intent :
  build_open_intent Orders h signal account b = Ok intent ->
  str_empty (signal_trade_id signal) = false /\
  book_get_row (signal_trade_id signal) (ctx_account_id account) b = Ok None /\
  signal_id intent = signal_trade_id signal /\
  account_id intent = ctx_account_id account /\
  exists sizer pb sized, choose_sizer Orders h signal account = Ok (sizer, pb) /\
    size_open sizer signal pb = Ok sized /\
    legs intent = map (fun il => order_leg_from_sized (fst il) (snd il)) (enumerate sized).
Proof.
  unfold build_open_intent. destruct (str_empty _); [done|].
  intros (row & Hrow & Hk)%rbind_ok. destruct row; [done|].
  apply rbind_ok in Hk as ([sizer pb] & Hs & Hk). apply rbind_ok in Hk as (sized & Hz & Hk).
  destruct (negb _); [done|]. injection Hk as <-. eauto 10.
Qed.

(** Open, then close: once an OPEN intent was built and recorded, any
    CLOSE signal for the same trade and account builds an intent that flattens
    it leg by leg: same symbols, types and prices, opposite sides, and the same
    quantities (up to the float/decimal passage, which whole numbers up to
    2^53 survive unchanged), under the signal id suffixed with :CLOSE. *)
Theorem close_flattens_open h (s_open s_close : Signal)
    (account : option AccountExecutionContext) (orders : Orders) (intent : OrderIntent) b b' :
  persistence Orders h = None ->
  build_intent Orders h s_open account b = Ok intent ->
  action intent = OPEN ->
  after_submit Orders h s_open intent orders b = Ok b' ->
  str_upper (sig_action s_close) = "CLOSE"%string ->
  signal_trade_id s_close = signal_trade_id s_open ->
  exists close, build_intent Orders h s_close account b' = Ok close /\
    action close = CLOSE /\ account_id close = account_id intent /\
    signal_id close = (signal_id intent ++ ":CLOSE")%string /\
    Forall2 flattens (legs intent) (legs close).
Proof.
  intros Hp Hi Ha Hs Hc Ht. apply build_intent_open in Hi; [|done].
  destruct (build_open_inv _ _ _ _ _ Hi) as (He & _ & Hid & Hacc & _).
  unfold after_submit in Hs. rewrite Ha, Hp in Hs. apply book_get_recorded in Hs. simpl in Hs.
  unfold build_intent. rewrite Hc. cbn [String.eqb Ascii.eqb Bool.eqb].
  unfold build_close_intent. rewrite Ht, He, <- Hacc, Hs. cbn [rbind].
  eexists. split; [reflexivity|]. simpl. rewrite Hid. split_and!; try done.
  apply close_legs_flatten.
Qed.

(** The order leg made of a sized leg. *)
Record ordered_leg (z : SizedModelBlueLeg) (l : OrderLeg) : Prop := {
  og_symbol : leg_symbol l = sz_symbol z;
  og_side : leg_side l = sz_side z;
  og_quantity : leg_quantity l = NFloat (fl (sz_quantity z));
  og_price : leg_price l = sz_price z;
  og_notional : effective_notional l = sz_notional z
}.

(** C24: An OPEN built for an account, from a book of either kind: the book
    has no row of the trade on that account, in any state; the intent names the
    trade and the account; its two legs are those of the signal in order, each
    sized as [size_open] promises ([sized_ok]: the signal's symbol, BUY or SELL
    by the sign of weight times direction, whole shares of STK and ETF within
    the leg's target) with the account's own pair budget, whatever provider the
    strategy is configured with; and two legs of STK and ETF cost together at
    most that budget, up to the weight tolerance. *)
Theorem open_intent_within_account_budget h (signal : Signal) (a : AccountExecutionContext)
    (intent : OrderIntent) b :
  build_open_intent Orders h signal (Some a) b = Ok intent ->
  book_get_row (signal_trade_id signal) (Some (ax_account_id a)) b = Ok None /\
  action intent = OPEN /\ signal_id intent = signal_trade_id signal /\
  account_id intent = Some (ax_account_id a) /\ ibkr_account intent = Some (ax_ibkr_account a) /\
  0 < ax_pair_budget a /\
  (exists sizer d sized,
     choose_sizer Orders h signal (Some a) = Ok (sizer, Some (ax_pair_budget a)) /\
     sig_direction signal = Some d /\ length sized = 2%nat /\
     Forall2 (sized_ok sizer d (ax_pair_budget a)) (sig_legs signal) sized /\
     Forall2 ordered_leg sized (legs intent)) /\
  (Forall (fun leg => is_whole_share_type (sl_instrument_type leg) = true) (sig_legs signal) ->
   dsum (map effective_notional (legs intent)) <= ax_pair_budget a * (1 + (1 # 500000))).
Proof.
  intros HB. assert (Hs : action intent = OPEN /\ ibkr_account intent = Some (ax_ibkr_account a)).
  { unfold build_open_intent in HB. destruct (str_empty _); [done|].
    apply rbind_ok in HB as ([row|] & _ & HB); [done|]. apply rbind_ok in HB as ([] & _ & HB).
    apply rbind_ok in HB as (? & _ & HB). destruct (negb _); [done|]. by injection HB as <-. }
  apply build_open_inv in HB as (_ & Hrow & Hid & Hacc & sizer & pb & sized & Hc & Hz & Hl).
  assert (Hpb : pb = Some (ax_pair_budget a)).
  { unfold choose_sizer in Hc. destruct (strategy_sizer _ h); by injection Hc. }
  subst pb. destruct (size_open_inv _ _ _ _ Hz) as (d & budget & ws & Hd & _ & Hb & Hpos & Hl2 & _ & _ & Hm & _).
  injection Hb as <-. apply mapR_ok in Hm. pose proof (Forall2_length _ _ _ Hm) as Hlen. rewrite Hl2 in Hlen.
  assert (Hso : Forall2 (sized_ok sizer d (ax_pair_budget a)) (sig_legs signal) sized)
    by (eapply Forall2_impl; [exact Hm|]; intros; by apply size_signal_leg_ok).
  assert (Hleg : Forall2 ordered_leg sized (legs intent)).
  { rewrite Hl. unfold enumerate. generalize 0%Z as z. clear.
    induction sized as [|x l IH]; intros z; simpl; constructor; [by split|apply IH]. }
  split_and!; try done; [apply Hs|apply Hs|by exists sizer, d, sized|].
  intros Hw. pose proof (pair_within_budget sizer signal _ _ _ Hz eq_refl Hw) as Hsum.
  assert (E : map effective_notional (legs intent) = map sz_notional sized).
  { clear -Hleg. induction Hleg as [|x y l l' [] _ IH]; simpl; congruence. }
  by rewrite E.
Qed.
End Lifecycle.

(** ** A pair opened and closed *)
Definition ex_strategy : ModelBlueStrategy (B := InMemory.Book) unit :=
  new_strategy unit None None None
    {| cfg_min_order_notional := 100; cfg_pair_ratio_tolerance := 1 # 2;
       cfg_pair_min_deployment_pct := 0 |}.
Definition ex_account : AccountExecutionContext :=
  context_from_rows
    {| ar_id := 7; ar_ibkr_account := "DU7"; ar_enabled := true; ar_total_margin := 100000 |}
    {| al_account_id := 7; al_strategy_id := "model_blue"; al_enabled := true;
       al_alloc_pct := 1 # 2; al_pair_max_allocation_pct := 2 # 10; al_target := 500;
       al_stop := 300; al_time_limit := 5; al_max_open_positions := 10;
       al_target_unit := "ABSOLUTE"; al_stop_unit := "ABSOLUTE"; al_exit_automation_enabled := false |}
    {| st_strategy_id := "model_blue"; st_enabled := true |}.
Definition ex_close : Signal := {|
  sig_signal_type := SIG_SELL; sig_timestamp := 0; sig_reason := "r";
  sig_signal_id := Some "T1"%string; sig_strategy_id := Some MODEL_BLUE_STRATEGY_ID;
  sig_action := "CLOSE"; sig_symbol := None; sig_side := None; sig_price := None;
  sig_quantity := None; sig_trade_id := Some "T1"%string; sig_direction := Some 1%Z;
  sig_market := None; sig_legs := []; sig_raw_payload := None |}.
Definition ex_open_intent : OrderIntent := {|
  signal_id := "T1"; strategy_id := "model_blue"; action := OPEN;
  legs := map (fun il => order_leg_from_sized (fst il) (snd il)) (enumerate ex_sized);
  account_id := Some 7%Z; ibkr_account := Some "DU7"%string; market := Some "SMART"%string;
  timestamp := 0; intent_mode := MODE_OPEN |}.

Example ex_build_open :
  build_intent unit ex_strategy ex_open (Some ex_account) ∅ = Ok ex_open_intent.
Proof. by vm_compute. Qed.

Definition ex_book : InMemory.Book := {[ (7%Z, "T1"%string) := trade_of ex_open ex_open_intent ]}.

Lemma close_flattens_open_witness :
  exists close, build_intent unit ex_strategy ex_close (Some ex_account) ex_book = Ok close /\
    Forall2 flattens (legs ex_open_intent) (legs close).
Proof.
  destruct (close_flattens_open ex_strategy ex_open ex_close (Some ex_account) tt ex_open_intent
    ∅ ex_book eq_refl ex_build_open eq_refl) as (close & H1 & _ & _ & _ & H2);
    [by vm_compute..|].
  exists close. by split.
Defined.

Lemma open_intent_within_account_budget_witness :
  length (legs ex_open_intent) = 2%nat /\ ibkr_account ex_open_intent = Some "DU7"%string /\
  dsum (map effective_notional (legs ex_open_intent)) <= 10000 * (1 + (1 # 500000)).
Proof.
  destruct (open_intent_within_account_budget ex_strategy ex_open ex_account ex_open_intent
    (∅ : InMemory.Book)) as (_ & _ & _ & _ & Hacc & _ & _ & Hsum); [by vm_compute|].
  split_and!; [done|exact Hacc|]. apply Hsum. repeat constructor.
Defined.

Example ex_resolve :
  resolve {| accounts := [{| ar_id := 7; ar_ibkr_account := "DU7"; ar_enabled := true;
                             ar_total_margin := 100000 |}];
             allocations := [{| al_account_id := 7; al_strategy_id := "model_blue";
               al_enabled := true; al_alloc_pct := 1 # 2; al_pair_max_allocation_pct := 2 # 10;
               al_target := 500; al_stop := 300; al_time_limit := 5;
               al_max_open_positions := 10;
       al_target_unit := "ABSOLUTE"; al_stop_unit := "ABSOLUTE"; al_exit_automation_enabled := false |}];
             strategies := [{| st_strategy_id := "model_blue"; st_enabled := true |}] |}
    " model_blue " = [ex_account].
Proof. by vm_compute. Qed.
