(* ===== verification/RateLimiter.v ===== *)
(** * The gateway rate limiter: [broker/ibkr/gateway_rate_limiter.py]

    A token bucket with a second bucket for normal traffic, an Error 100
    cooldown and a queue of waiters.  Every critical section under the lock is
    one operation on the state; each reading of the monotonic clock is an
    argument.  Amounts are binary64 values: every arithmetic operation rounds
    with [fl]. *)

From S2P Require Import Prelude Rounding.
From Stdlib Require Import Sorted.

#[local] Open Scope Q_scope.
#[local] Open Scope py_scope.

Definition DEFAULT_MAX_MSG_PER_SEC : Q := 30.
Definition DEFAULT_NORMAL_MSG_PER_SEC : Q := 24.
Definition DEFAULT_EMERGENCY_RESERVE_PER_SEC : Q := 6.
Definition DEFAULT_MAX_WAIT_SEC : Q := 8.
Definition DEFAULT_ERROR100_COOLDOWN_SEC : Q := 2.

Definition PRIORITY_EMERGENCY_FLATTEN : Z := 0.
Definition PRIORITY_ORDER_EXECUTION : Z := 1.
Definition PRIORITY_CONTRACT_DETAILS : Z := 2.
Definition PRIORITY_MARKET_DATA : Z := 3.
Definition PRIORITY_DIAGNOSTIC : Z := 4.

Record AcquireResult : Type := {
  res_delayed : bool;
  res_priority : Z;
  res_request_type : string;
  res_waited_sec : Q
}.

(** The attributes set once by [__init__]. *)
Record Limits : Type := {
  max_msg_per_sec : Q;
  normal_msg_per_sec : Q;
  emergency_reserve_per_sec : Q;
  max_wait_sec : Q;
  error100_cooldown_sec : Q;
  global_burst_cap : Q;
  normal_burst_cap : Q
}.

Record Metrics : Type := {
  total_acquired : Z;
  delayed_count : Z;
  timeout_count : Z;
  try_acquire_denied : Z;
  error100_cooldowns : Z;
  requests_by_priority : gmap Z Z;
  requests_by_type : gmap string Z
}.

(** A waiter: its priority, its sequence number and whether its event is set. *)
Record Waiter : Type := { w_priority : Z; w_seq : Z; w_event : bool }.

(** The attributes the lock protects.  The heap is the list of its items in
    increasing order of (priority, sequence number). *)
Record Bucket : Type := {
  global_tokens : Q;
  normal_tokens : Q;
  last_refill : Q;
  cooldown_until : Q;
  wait_seq : Z;
  wait_heap : list Waiter;
  metrics : Metrics
}.

Definition set_tokens (b : Bucket) (g n : Q) : Bucket := {|
  global_tokens := g; normal_tokens := n; last_refill := last_refill b;
  cooldown_until := cooldown_until b; wait_seq := wait_seq b; wait_heap := wait_heap b;
  metrics := metrics b |}.
Definition set_last_refill (b : Bucket) (t : Q) : Bucket := {|
  global_tokens := global_tokens b; normal_tokens := normal_tokens b; last_refill := t;
  cooldown_until := cooldown_until b; wait_seq := wait_seq b; wait_heap := wait_heap b;
  metrics := metrics b |}.
Definition set_cooldown (b : Bucket) (t : Q) : Bucket := {|
  global_tokens := global_tokens b; normal_tokens := normal_tokens b;
  last_refill := last_refill b; cooldown_until := t; wait_seq := wait_seq b;
  wait_heap := wait_heap b; metrics := metrics b |}.
Definition set_waiters (b : Bucket) (seq : Z) (h : list Waiter) : Bucket := {|
  global_tokens := global_tokens b; normal_tokens := normal_tokens b;
  last_refill := last_refill b; cooldown_until := cooldown_until b; wait_seq := seq;
  wait_heap := h; metrics := metrics b |}.
Definition set_metrics (b : Bucket) (m : Metrics) : Bucket := {|
  global_tokens := global_tokens b; normal_tokens := normal_tokens b;
  last_refill := last_refill b; cooldown_until := cooldown_until b; wait_seq := wait_seq b;
  wait_heap := wait_heap b; metrics := m |}.

Definition empty_metrics : Metrics := {|
  total_acquired := 0; delayed_count := 0; timeout_count := 0; try_acquire_denied := 0;
  error100_cooldowns := 0;
  requests_by_priority := list_to_map [(0, 0); (1, 0); (2, 0); (3, 0); (4, 0)]%Z;
  requests_by_type := ∅ |}.

(** [__init__] at clock reading [now]. *)
Definition new_limiter (max_rate normal_rate reserve max_wait cooldown : Q) (max_burst : option Q)
    (now : Q) : result (Limits * Bucket) :=
  if max_rate <=? 0 then Raise (ValueError "max_msg_per_sec must be positive")
  else if normal_rate <=? 0 then Raise (ValueError "normal_msg_per_sec must be positive")
  else if max_rate <? normal_rate
  then Raise (ValueError "normal_msg_per_sec must be <= max_msg_per_sec")
  else if reserve <? 0 then Raise (ValueError "emergency_reserve_per_sec must be >= 0")
  else if max_wait <=? 0 then Raise (ValueError "max_wait_sec must be positive")
  else if cooldown <? 0 then Raise (ValueError "error100_cooldown_sec must be >= 0")
  else
    let burst_cap := Qmaxb 1 (default max_rate max_burst) in
    let normal_cap := Qminb burst_cap normal_rate in
    Ok ({| max_msg_per_sec := max_rate;
           normal_msg_per_sec := if reserve <? max_rate
                                 then Qminb normal_rate (fl (max_rate - reserve))
                                 else normal_rate;
           emergency_reserve_per_sec := reserve; max_wait_sec := max_wait;
           error100_cooldown_sec := cooldown; global_burst_cap := burst_cap;
           normal_burst_cap := normal_cap |},
        {| global_tokens := burst_cap; normal_tokens := normal_cap; last_refill := now;
           cooldown_until := 0; wait_seq := 0; wait_heap := []; metrics := empty_metrics |}).

(** The order of the heap items: tuples compare lexicographically. *)
Definition waiter_lt (p s : Z) (w : Waiter) : bool :=
  (p <? w_priority w)%Z || ((p =? w_priority w) && (s <? w_seq w))%Z.

Fixpoint heappush (w : Waiter) (h : list Waiter) : list Waiter :=
  match h with
  | [] => [w]
  | w' :: h' => if waiter_lt (w_priority w) (w_seq w) w' then w :: h else w' :: heappush w h'
  end.

Definition is_key (key : Z * Z) (w : Waiter) : bool :=
  ((w_priority w =? key.1) && (w_seq w =? key.2))%Z.

Definition remove_waiter (key : Z * Z) (b : Bucket) : Bucket :=
  set_waiters b (wait_seq b) (List.filter (fun w => negb (is_key key w)) (wait_heap b)).

Definition is_highest_waiter (key : Z * Z) (b : Bucket) : bool :=
  match wait_heap b with [] => false | w :: _ => is_key key w end.

Definition in_cooldown (b : Bucket) (now : Q) : bool := now <? cooldown_until b.

Section Limiter.
Variable lim : Limits.

Definition could_grant (b : Bucket) (priority : Z) (now : Q) : bool :=
  if in_cooldown b now then false
  else if global_tokens b <? 1 then false
  else if (priority =? PRIORITY_EMERGENCY_FLATTEN)%Z then true
  else if (priority =? PRIORITY_ORDER_EXECUTION)%Z then
    let remaining_after := fl (global_tokens b - 1) in
    negb ((remaining_after <? emergency_reserve_per_sec lim) && (normal_tokens b <? 1))
  else 1 <=? normal_tokens b.

(** The loop around it leaves after its first iteration. *)
Definition notify_highest_waiter (b : Bucket) (now : Q) : Bucket :=
  match wait_heap b with
  | [] => b
  | w :: h =>
      if could_grant b (w_priority w) now
      then set_waiters b (wait_seq b)
             ({| w_priority := w_priority w; w_seq := w_seq w; w_event := true |} :: h)
      else b
  end.

Definition refill (b : Bucket) (now now' : Q) : Bucket :=
  let elapsed := Qmaxb 0 (fl (now - last_refill b)) in
  if elapsed <=? 0 then b
  else
    let b := set_last_refill b now in
    let b := set_tokens b
      (Qminb (global_burst_cap lim)
         (fl (global_tokens b + fl (elapsed * max_msg_per_sec lim))))
      (Qminb (normal_burst_cap lim)
         (fl (normal_tokens b + fl (elapsed * normal_msg_per_sec lim)))) in
    notify_highest_waiter b now'.

Definition try_consume (b : Bucket) (priority : Z) (now now' : Q) : Bucket * bool :=
  if in_cooldown b now then (b, false)
  else
    let b := refill b now now' in
    if global_tokens b <? 1 then (b, false)
    else if (priority =? PRIORITY_EMERGENCY_FLATTEN)%Z
    then (set_tokens b (fl (global_tokens b - 1)) (normal_tokens b), true)
    else if (priority =? PRIORITY_ORDER_EXECUTION)%Z then
      let remaining_after := fl (global_tokens b - 1) in
      if (remaining_after <? emergency_reserve_per_sec lim) && (normal_tokens b <? 1)
      then (b, false)
      else (set_tokens b (fl (global_tokens b - 1))
              (if 1 <=? normal_tokens b then fl (normal_tokens b - 1) else normal_tokens b), true)
    else if normal_tokens b <? 1 then (b, false)
    else (set_tokens b (fl (global_tokens b - 1)) (fl (normal_tokens b - 1)), true).

Definition millisecond : Q := fl (1 # 1000).

Definition seconds_until_available (b : Bucket) (priority : Z) (now now' : Q) : Bucket * Q :=
  if in_cooldown b now then (b, Qmaxb millisecond (fl (cooldown_until b - now)))
  else
    let b := refill b now now' in
    if 1 <=? global_tokens b then
      if (priority =? PRIORITY_EMERGENCY_FLATTEN)%Z then (b, 0)
      else if 1 <=? normal_tokens b then (b, 0)
      else (b, Qmaxb millisecond (fl (fl (1 - normal_tokens b) / normal_msg_per_sec lim)))
    else (b, Qmaxb millisecond (fl (fl (1 - global_tokens b) / max_msg_per_sec lim))).

Definition count {K} `{Countable K} (k : K) (m : gmap K Z) : gmap K Z :=
  <[k := (default 0 (m !! k) + 1)%Z]> m.

Definition record_acquire (b : Bucket) (priority : Z) (request_type : string) (delayed : bool)
    : Bucket :=
  let m := metrics b in
  set_metrics b {|
    total_acquired := total_acquired m + 1;
    delayed_count := if delayed then delayed_count m + 1 else delayed_count m;
    timeout_count := timeout_count m; try_acquire_denied := try_acquire_denied m;
    error100_cooldowns := error100_cooldowns m;
    requests_by_priority := count (Z.max 0 (Z.min 4 priority)) (requests_by_priority m);
    requests_by_type := count request_type (requests_by_type m) |}.

Definition notify_error_100 (b : Bucket) (now : Q) : Bucket :=
  let b := set_tokens b 0 0 in
  let b := set_cooldown b (fl (now + error100_cooldown_sec lim)) in
  let b := set_last_refill b now in
  let m := metrics b in
  set_metrics b {|
    total_acquired := total_acquired m; delayed_count := delayed_count m;
    timeout_count := timeout_count m; try_acquire_denied := try_acquire_denied m;
    error100_cooldowns := error100_cooldowns m + 1;
    requests_by_priority := requests_by_priority m; requests_by_type := requests_by_type m |}.

Definition try_acquire (b : Bucket) (priority : Z) (request_type : string) (now now' : Q)
    : Bucket * option AcquireResult :=
  let (b, granted) := try_consume b priority now now' in
  if negb granted then
    let m := metrics b in
    (set_metrics b {|
       total_acquired := total_acquired m; delayed_count := delayed_count m;
       timeout_count := timeout_count m; try_acquire_denied := try_acquire_denied m + 1;
       error100_cooldowns := error100_cooldowns m;
       requests_by_priority := requests_by_priority m; requests_by_type := requests_by_type m |},
     None)
  else
    (record_acquire b priority request_type false,
     Some {| res_delayed := false; res_priority := priority; res_request_type := request_type;
             res_waited_sec := 0 |}).

(** ** Waiting for a token

    One pass through the loop of [acquire] (and of [blocking_acquire], whose
    body is the same) has two critical sections, each an operation below, with
    operations of other threads before and after them.  The clock readings of
    a pass, in the order in which they are taken: *)
Record Readings : Type := {
  rd_consume : Q;     (* in _try_consume_locked *)
  rd_consume' : Q;    (* in the wake-up of its refill *)
  rd_wait : Q;        (* in _seconds_until_available_locked *)
  rd_wait' : Q        (* in the wake-up of its refill *)
}.

Inductive SectionResult : Type :=
  | Granted (res : AcquireResult)
  | Waiting (wait_sec : Q) (key : Z * Z).

(** [if my_event is None: ...] at the end of the section. *)
Definition enqueue (b : Bucket) (priority : Z) (my_key : option (Z * Z)) : Bucket * (Z * Z) :=
  match my_key with
  | Some key => (b, key)
  | None =>
      let seq := (wait_seq b + 1)%Z in
      (set_waiters b seq
         (heappush {| w_priority := priority; w_seq := seq; w_event := false |} (wait_heap b)),
       (priority, seq))
  end.

(** The first critical section of a pass. *)
Definition acquire_section (b : Bucket) (my_key : option (Z * Z)) (priority : Z)
    (request_type : string) (delayed : bool) (total_waited : Q) (r : Readings)
    : Bucket * SectionResult :=
  let wait b :=
    let (b, wait_sec) := seconds_until_available b priority (rd_wait r) (rd_wait' r) in
    let (b, key) := enqueue b priority my_key in
    (b, Waiting wait_sec key) in
  if match my_key with Some key => negb (is_highest_waiter key b) | None => false end
  then wait b
  else
    let (b, granted) := try_consume b priority (rd_consume r) (rd_consume' r) in
    if granted then
      let b := record_acquire b priority request_type delayed in
      (match my_key with Some key => remove_waiter key b | None => b end,
       Granted {| res_delayed := delayed; res_priority := priority;
                  res_request_type := request_type; res_waited_sec := total_waited |})
    else wait b.

(** The critical section of a timeout. *)
Definition expire (b : Bucket) (key : Z * Z) : Bucket :=
  let b := remove_waiter key b in
  let m := metrics b in
  set_metrics b {|
    total_acquired := total_acquired m; delayed_count := delayed_count m;
    timeout_count := timeout_count m + 1; try_acquire_denied := try_acquire_denied m;
    error100_cooldowns := error100_cooldowns m;
    requests_by_priority := requests_by_priority m; requests_by_type := requests_by_type m |}.

(** [my_event.clear()]: the event is shared with the heap item. *)
Definition clear_event (b : Bucket) (key : Z * Z) : Bucket :=
  set_waiters b (wait_seq b)
    (map (fun w => if is_key key w
                   then {| w_priority := w_priority w; w_seq := w_seq w; w_event := false |}
                   else w) (wait_heap b)).

(** The operations of any thread, with the grants each makes. *)
Inductive op : Type :=
  | OpError100 (now : Q)
  | OpTryAcquire (priority : Z) (request_type : string) (now now' : Q)
  | OpAcquire (my_key : option (Z * Z)) (priority : Z) (request_type : string)
      (delayed : bool) (total_waited : Q) (r : Readings)
  | OpExpire (key : Z * Z)
  | OpClear (key : Z * Z).

Definition run_op (b : Bucket) (o : op) : Bucket * bool :=
  match o with
  | OpError100 now => (notify_error_100 b now, false)
  | OpTryAcquire p ty now now' =>
      let (b, res) := try_acquire b p ty now now' in (b, bool_decide (is_Some res))
  | OpAcquire key p ty delayed total r =>
      let (b, s) := acquire_section b key p ty delayed total r in
      (b, match s with Granted _ => true | Waiting _ _ => false end)
  | OpExpire key => (expire b key, false)
  | OpClear key => (clear_event b key, false)
  end.

(** A trace: the state after it and the number of grants. *)
Fixpoint run (b : Bucket) (ops : list op) : Bucket * Z :=
  match ops with
  | [] => (b, 0%Z)
  | o :: ops =>
      let (b, granted) := run_op b o in
      let (b, n) := run b ops in (b, (if granted then n + 1 else n)%Z)
  end.

(** ** The loop of [acquire]

    The environment of a pass: what other threads do before its first
    critical section, the readings, what others do until the reading compared
    with the deadline, and what they do after it (while this thread sleeps,
    or before the critical section of its timeout). *)
Record Pass : Type := {
  pass_before : list op;
  pass_readings : Readings;
  pass_between : list op;
  pass_now : Q;
  pass_after : list op
}.

Inductive Outcome : Type :=
  | Acquired (b : Bucket) (res : AcquireResult)
  | TimedOut (b : Bucket) (key : Z * Z)
  | Running (b : Bucket) (my_key : option (Z * Z)).

Fixpoint acquire_loop (passes : list Pass) (b : Bucket) (my_key : option (Z * Z)) (priority : Z)
    (request_type : string) (deadline : Q) (delayed : bool) (total_waited : Q) : Outcome :=
  match passes with
  | [] => Running b my_key
  | p :: passes =>
      let b := fst (run b (pass_before p)) in
      match acquire_section b my_key priority request_type delayed total_waited
              (pass_readings p) with
      | (b, Granted res) => Acquired b res
      | (b, Waiting wait_sec key) =>
          let b := fst (run b (pass_between p)) in
          let remaining := fl (deadline - pass_now p) in
          let b := fst (run b (pass_after p)) in
          if remaining <=? 0 then TimedOut (expire b key) key
          else
            let sleep_for := Qminb (Qminb wait_sec remaining) (1 # 4) in
            if 0 <? sleep_for then
              acquire_loop passes (clear_event b key) (Some key) priority request_type deadline
                true (fl (total_waited + sleep_for))
            else
              acquire_loop passes b (Some key) priority request_type deadline delayed total_waited
      end
  end.

(** [acquire] started at reading [now]; a timeout raises. *)
Definition acquire (passes : list Pass) (b : Bucket) (priority : Z) (request_type : string)
    (now : Q) : option (Bucket * result AcquireResult) :=
  match acquire_loop passes b None priority request_type (fl (now + max_wait_sec lim)) false 0 with
  | Acquired b res => Some (b, Ok res)
  | TimedOut b _ => Some (b, Raise (OtherError "GatewayPacingTimeout"))
  | Running _ _ => None
  end.

(** [blocking_acquire]: a timeout returns [None]. *)
Definition blocking_acquire (passes : list Pass) (b : Bucket) (priority : Z)
    (request_type : string) (timeout : option Q) (now : Q)
    : option (Bucket * option AcquireResult) :=
  let max_wait := default (max_wait_sec lim) timeout in
  match acquire_loop passes b None priority request_type (fl (now + max_wait)) false 0 with
  | Acquired b res => Some (b, Some res)
  | TimedOut b _ => Some (b, None)
  | Running _ _ => None
  end.
End Limiter.

(** ** Well-formed limiters *)
Record limits_ok (lim : Limits) : Prop := {
  lo_max : 0 < max_msg_per_sec lim;
  lo_normal : 0 < normal_msg_per_sec lim <= max_msg_per_sec lim;
  lo_reserve : 0 <= emergency_reserve_per_sec lim;
  lo_cooldown : 0 <= error100_cooldown_sec lim;
  lo_cap : 1 <= global_burst_cap lim;
  lo_normal_cap : 0 < normal_burst_cap lim <= global_burst_cap lim;
  lo_cap_repr : flt_repr (global_burst_cap lim);
  lo_normal_cap_repr : flt_repr (normal_burst_cap lim)
}.

Definition waiter_lt_w (w w' : Waiter) : Prop := waiter_lt (w_priority w) (w_seq w) w' = true.

(** The queue is strictly ordered and its sequence numbers were handed out. *)
Record queue_ok (b : Bucket) : Prop := {
  qo_sorted : StronglySorted waiter_lt_w (wait_heap b);
  qo_seq : Forall (fun w => (0 < w_seq w <= wait_seq b)%Z) (wait_heap b);
  qo_nonneg : (0 <= wait_seq b)%Z
}.

(** *** The queue *)
Lemma waiter_lt_spec (p s : Z) (w : Waiter) :
  waiter_lt p s w = true <-> (p < w_priority w \/ p = w_priority w /\ s < w_seq w)%Z.
Proof. unfold waiter_lt. rewrite orb_true_iff, andb_true_iff, !Z.ltb_lt, Z.eqb_eq. done. Qed.

Lemma is_key_spec (key : Z * Z) (w : Waiter) :
  is_key key w = true <-> (w_priority w, w_seq w) = key.
Proof.
  unfold is_key. destruct key as [p s]. simpl. rewrite andb_true_iff, !Z.eqb_eq.
  split; [by intros [-> ->]|by intros [= -> ->]].
Qed.

Lemma Forall_filter {A} (P : A -> Prop) (f : A -> bool) (l : list A) :
  Forall P l -> Forall P (List.filter f l).
Proof. induction 1; simpl; [constructor|]. destruct (f x); [by constructor|done]. Qed.

Lemma StronglySorted_filter {A} (R : A -> A -> Prop) (f : A -> bool) (l : list A) :
  StronglySorted R l -> StronglySorted R (List.filter f l).
Proof.
  induction 1 as [|x l Hs IH Hall]; simpl; [constructor|].
  destruct (f x); [|done]. constructor; [done|by apply Forall_filter].
Qed.

Lemma heappush_Forall (P : Waiter -> Prop) (w : Waiter) (h : list Waiter) :
  P w -> Forall P h -> Forall P (heappush w h).
Proof.
  intros Hw. induction 1 as [|w' h Hw' Hh IH]; simpl; [by repeat constructor|].
  destruct (waiter_lt _ _ _); repeat constructor; auto.
Qed.

Lemma heappush_sorted (w : Waiter) (h : list Waiter) :
  Forall (fun w' => (w_seq w' < w_seq w)%Z) h ->
  StronglySorted waiter_lt_w h -> StronglySorted waiter_lt_w (heappush w h).
Proof.
  intros Hq Hs. induction Hs as [|w' h Hs IH Hall]; simpl; [repeat constructor|].
  apply Forall_cons_1 in Hq as [Hw Hq]. destruct (waiter_lt _ _ _) eqn:E.
  - constructor; [by constructor|]. constructor; [done|].
    eapply Forall_impl; [exact Hall|]. unfold waiter_lt_w. intros x Hx.
    rewrite waiter_lt_spec in *. lia.
  - constructor; [by apply IH|]. apply heappush_Forall; [|done].
    apply not_true_iff_false in E. rewrite waiter_lt_spec in E.
    unfold waiter_lt_w. rewrite waiter_lt_spec. lia.
Qed.

(** Operations on the queue that keep its keys, or some of them. *)
Lemma queue_ok_same (b b' : Bucket) :
  queue_ok b -> wait_seq b' = wait_seq b -> wait_heap b' = wait_heap b -> queue_ok b'.
Proof. intros [H1 H2 H3] Es Eh. constructor; by rewrite ?Es, ?Eh. Qed.

Definition keys (h : list Waiter) : list (Z * Z) := map (fun w => (w_priority w, w_seq w)) h.

Lemma sorted_keys (h : list Waiter) :
  StronglySorted waiter_lt_w h <->
  StronglySorted (fun k k' => (k.1 < k'.1 \/ k.1 = k'.1 /\ k.2 < k'.2)%Z) (keys h).
Proof.
  induction h as [|w h IH]; simpl; [split; constructor|].
  assert (HF : Forall (waiter_lt_w w) h <->
    Forall (fun k' => (w_priority w < k'.1 \/ w_priority w = k'.1 /\ w_seq w < k'.2)%Z) (keys h)).
  { unfold keys. rewrite Forall_map. apply Forall_iff. intros w'.
    unfold waiter_lt_w. by rewrite waiter_lt_spec. }
  split; intros H; apply StronglySorted_inv in H as [H1 H2]; constructor; tauto.
Qed.

Lemma queue_ok_keys (b b' : Bucket) :
  queue_ok b -> wait_seq b' = wait_seq b -> keys (wait_heap b') = keys (wait_heap b) ->
  queue_ok b'.
Proof.
  intros [H1 H2 H3] Es Ek. constructor; [|rewrite Es|by rewrite Es].
  - apply sorted_keys. rewrite Ek. by apply sorted_keys.
  - apply (Forall_map (fun w => (w_priority w, w_seq w)) (fun k => (0 < k.2 <= wait_seq b)%Z)).
    fold (keys (wait_heap b')). rewrite Ek. by apply Forall_map.
Qed.

Lemma queue_ok_remove (key : Z * Z) (b : Bucket) : queue_ok b -> queue_ok (remove_waiter key b).
Proof.
  intros [H1 H2 H3]. constructor; simpl; [by apply StronglySorted_filter|by apply Forall_filter|done].
Qed.

Lemma remove_waiter_gone (key : Z * Z) (b : Bucket) :
  key ∉ keys (wait_heap (remove_waiter key b)).
Proof.
  unfold keys. simpl. rewrite list_elem_of_fmap. intros (w & -> & Hw).
  apply list_elem_of_In, filter_In in Hw as [_ Hw]. apply negb_true_iff in Hw.
  assert (is_key (w_priority w, w_seq w) w = true) by by apply is_key_spec. congruence.
Qed.

(** ** What an operation does to the tokens

    Seen from the tokens alone, every operation is a short sequence of
    refills, grants and resets. *)
Record Tok : Type := { tg : Q; tn : Q; tl : Q; tc : Q }.
Definition tok_of (b : Bucket) : Tok := {|
  tg := global_tokens b; tn := normal_tokens b; tl := last_refill b; tc := cooldown_until b |}.

Inductive event : Type :=
  | ERefill (now : Q)
  | EGrant (priority : Z) (now : Q)
  | EReset (now : Q).

Definition event_time (e : event) : Q :=
  match e with ERefill t | EGrant _ t | EReset t => t end.

Section Steps.
Variable lim : Limits.

Definition elapsed_since (t : Tok) (now : Q) : Q := fl (now - tl t).

Inductive tstep (t : Tok) : event -> Tok -> Prop :=
  | StepRefill now :
      tc t <= now -> 0 < elapsed_since t now ->
      tstep t (ERefill now)
        {| tg := Qminb (global_burst_cap lim)
                   (fl (tg t + fl (elapsed_since t now * max_msg_per_sec lim)));
           tn := Qminb (normal_burst_cap lim)
                   (fl (tn t + fl (elapsed_since t now * normal_msg_per_sec lim)));
           tl := now; tc := tc t |}
  | StepEmergency now :
      tc t <= now -> 1 <= tg t ->
      tstep t (EGrant PRIORITY_EMERGENCY_FLATTEN now)
        {| tg := fl (tg t - 1); tn := tn t; tl := tl t; tc := tc t |}
  | StepOrder now :
      tc t <= now -> 1 <= tg t -> tn t < 1 -> emergency_reserve_per_sec lim <= fl (tg t - 1) ->
      tstep t (EGrant PRIORITY_ORDER_EXECUTION now)
        {| tg := fl (tg t - 1); tn := tn t; tl := tl t; tc := tc t |}
  | StepNormal p now :
      p <> PRIORITY_EMERGENCY_FLATTEN -> tc t <= now -> 1 <= tg t -> 1 <= tn t ->
      tstep t (EGrant p now)
        {| tg := fl (tg t - 1); tn := fl (tn t - 1); tl := tl t; tc := tc t |}
  | StepReset now :
      tstep t (EReset now)
        {| tg := 0; tn := 0; tl := now; tc := fl (now + error100_cooldown_sec lim) |}.

Inductive tsteps : Tok -> list event -> Tok -> Prop :=
  | steps_nil t : tsteps t [] t
  | steps_cons t e t' es t'' : tstep t e t' -> tsteps t' es t'' -> tsteps t (e :: es) t''.

Lemma tsteps_one t e t' : tstep t e t' -> tsteps t [e] t'.
Proof. intros H. econstructor; [exact H|constructor]. Qed.

Lemma tsteps_app t es t' es' t'' :
  tsteps t es t' -> tsteps t' es' t'' -> tsteps t (es ++ es') t''.
Proof. induction 1; simpl; [done|]. intros. econstructor; eauto. Qed.

Definition is_grant (e : event) : bool := match e with EGrant _ _ => true | _ => false end.
Definition grants (es : list event) : Z := Z.of_nat (length (List.filter is_grant es)).

(** The readings of an operation, and the events it may cause. *)
Definition op_times (o : op) : list Q :=
  match o with
  | OpError100 now => [now]
  | OpTryAcquire _ _ now _ => [now]
  | OpAcquire _ _ _ _ _ r => [rd_consume r; rd_wait r]
  | OpExpire _ | OpClear _ => []
  end.

Definition op_priority (o : op) : option Z :=
  match o with
  | OpTryAcquire p _ _ _ | OpAcquire _ p _ _ _ _ => Some p
  | _ => None
  end.
Definition is_error100 (o : op) : bool := match o with OpError100 _ => true | _ => false end.

Definition op_event (o : op) (e : event) : Prop :=
  event_time e ∈ op_times o /\
  match e with
  | ERefill _ => True
  | EGrant p _ => op_priority o = Some p
  | EReset _ => is_error100 o = true
  end.

(** Operations that leave the tokens alone. *)
Lemma tok_notify b now : tok_of (notify_highest_waiter lim b now) = tok_of b.
Proof. unfold notify_highest_waiter. destruct (wait_heap b); [done|]. by destruct could_grant. Qed.

Lemma refill_steps b now now' :
  in_cooldown b now = false ->
  exists es, tsteps (tok_of b) es (tok_of (refill lim b now now')) /\
    (es = [] \/ es = [ERefill now]).
Proof.
  unfold in_cooldown, refill. intros Hc. bool_to_prop.
  destruct (Qmaxb 0 _ <=? 0) eqn:E; bool_to_prop.
  - exists []. split; [constructor|by left].
  - exists [ERefill now]. split; [|by right]. rewrite tok_notify.
    assert (Em : Qmaxb 0 (fl (now - last_refill b)) = fl (now - last_refill b)).
    { unfold Qmaxb in *. destruct (0 <? fl (now - last_refill b)); [done|lra]. }
    rewrite Em in *. apply tsteps_one. by apply (StepRefill (tok_of b) now).
Qed.

Lemma refill_cooldown b now now' :
  cooldown_until (refill lim b now now') = cooldown_until b.
Proof.
  unfold refill. destruct (_ <=? 0); [done|].
  change (cooldown_until ?x) with (tc (tok_of x)). by rewrite tok_notify.
Qed.

(** The events of one attempt to consume a token at [now] with priority [p]:
    at most one refill, then at most one grant. *)
Definition attempt (p : Z) (now : Q) (t t' : Tok) (granted : bool) : Prop :=
  exists es, tsteps t es t' /\ (length es <= 2)%nat /\
    grants es = (if granted then 1 else 0)%Z /\
    Forall (fun e => event_time e = now /\
              match e with EGrant p' _ => p' = p | EReset _ => False | _ => True end) es.

Lemma attempt_refused p now t es t' :
  tsteps t es t' -> es = [] \/ es = [ERefill now] -> attempt p now t t' false.
Proof.
  intros Hs [-> | ->]; eexists; (split; [exact Hs|]); split_and!; simpl;
    first [lia|done|by repeat constructor].
Qed.

Lemma attempt_granted p now t es t' t'' :
  tsteps t es t' -> es = [] \/ es = [ERefill now] -> tstep t' (EGrant p now) t'' ->
  attempt p now t t'' true.
Proof.
  intros Hs Hes Hg. exists (es ++ [EGrant p now]).
  split; [by eapply tsteps_app, tsteps_one|].
  destruct Hes as [-> | ->]; split_and!; simpl; first [lia|done|by repeat constructor].
Qed.

Lemma try_consume_steps b p now now' b' granted :
  try_consume lim b p now now' = (b', granted) ->
  attempt p now (tok_of b) (tok_of b') granted.
Proof.
  unfold try_consume. destruct (in_cooldown b now) eqn:Hc.
  { intros [= <- <-]. by eapply attempt_refused; [constructor|left]. }
  destruct (refill_steps b now now' Hc) as (es & Hes & Hshape).
  pose proof (refill_cooldown b now now') as Htc. unfold in_cooldown in Hc.
  set (b1 := refill lim b now now') in *. bool_to_prop. rewrite <- Htc in Hc.
  destruct (global_tokens b1 <? 1) eqn:Eg;
    [intros [= <- <-]; by eapply attempt_refused|]. bool_to_prop.
  destruct (p =? PRIORITY_EMERGENCY_FLATTEN)%Z eqn:E0; bool_to_prop.
  { intros [= <- <-]. eapply attempt_granted; [done..|]. subst p. by apply StepEmergency. }
  destruct (p =? PRIORITY_ORDER_EXECUTION)%Z eqn:E1; bool_to_prop.
  - destruct ((fl (global_tokens b1 - 1) <? _) && _) eqn:Er;
      [intros [= <- <-]; by eapply attempt_refused|].
    intros [= <- <-]. eapply attempt_granted; [done..|].
    destruct (1 <=? normal_tokens b1) eqn:En; bool_to_prop; [by apply StepNormal|].
    apply andb_false_iff in Er. subst p. apply StepOrder; [done..|].
    destruct Er; bool_to_prop; simpl; [done|lra].
  - destruct (normal_tokens b1 <? 1) eqn:En;
      [intros [= <- <-]; by eapply attempt_refused|]. bool_to_prop.
    intros [= <- <-]. eapply attempt_granted; [done..|]. by apply StepNormal.
Qed.

Lemma seconds_until_steps b p now now' :
  attempt p now (tok_of b) (tok_of (fst (seconds_until_available lim b p now now'))) false.
Proof.
  unfold seconds_until_available. destruct (in_cooldown b now) eqn:Hc; simpl.
  { eapply attempt_refused; [constructor|by left]. }
  destruct (refill_steps b now now' Hc) as (es & Hes & Hshape).
  repeat case_match; simpl; by eapply attempt_refused.
Qed.

(** The events of an operation. *)
Definition events_of (o : op) (t t' : Tok) (granted : bool) : Prop :=
  exists es, tsteps t es t' /\ (length es <= 4)%nat /\
    grants es = (if granted then 1 else 0)%Z /\ Forall (op_event o) es.

Lemma attempt_events o p now t t' g :
  attempt p now t t' g -> now ∈ op_times o -> op_priority o = Some p ->
  exists es, tsteps t es t' /\ (length es <= 2)%nat /\
    grants es = (if g then 1 else 0)%Z /\ Forall (op_event o) es.
Proof.
  intros (es & H1 & H2 & H3 & H4) Hin Hp. exists es. split_and!; try done.
  eapply Forall_impl; [exact H4|]. intros [t0|p' t0|t0] [<- He]; split; try done. by subst.
Qed.

Lemma grants_app es es' : grants (es ++ es') = (grants es + grants es')%Z.
Proof. unfold grants. rewrite List.filter_app, length_app. lia. Qed.

Lemma enqueue_tok b p key : tok_of (fst (enqueue b p key)) = tok_of b.
Proof. by destruct key. Qed.

Lemma acquire_section_steps b key p ty d tot r b' s :
  acquire_section lim b key p ty d tot r = (b', s) ->
  events_of (OpAcquire key p ty d tot r) (tok_of b) (tok_of b')
    (match s with Granted _ => true | Waiting _ _ => false end).
Proof.
  unfold acquire_section. set (o := OpAcquire key p ty d tot r).
  assert (Hwait : forall b1 b' s,
    (let (b, wait_sec) := seconds_until_available lim b1 p (rd_wait r) (rd_wait' r) in
     let (b, key) := enqueue b p key in (b, Waiting wait_sec key)) = (b', s) ->
    exists es, tsteps (tok_of b1) es (tok_of b') /\ (length es <= 2)%nat /\
      grants es = 0%Z /\ Forall (op_event o) es /\
      match s with Granted _ => true | Waiting _ _ => false end = false).
  { intros b1 b2 s2. pose proof (seconds_until_steps b1 p (rd_wait r) (rd_wait' r)) as Ha.
    destruct (seconds_until_available _ _ _ _ _) as [b3 w]. simpl in Ha.
    pose proof (enqueue_tok b3 p key) as Hq. destruct (enqueue b3 p key) as [b4 k].
    intros [= <- <-]. simpl in Hq. rewrite Hq.
    destruct (attempt_events o _ _ _ _ _ Ha) as (es & ? & ? & ? & ?); [|done|by eauto 10].
    right. left. }
  destruct (match key with Some _ => _ | None => _ end).
  { intros H. destruct (Hwait _ _ _ H) as (es & ? & ? & ? & ? & ->).
    exists es. split_and!; first [done|lia]. }
  destruct (try_consume lim b p (rd_consume r) (rd_consume' r)) as [b1 g] eqn:E.
  apply try_consume_steps in E.
  destruct (attempt_events o _ _ _ _ _ E) as (es & H1 & H2 & H3 & H4); [by left|done|].
  destruct g.
  - intros [= <- <-]. exists es. split_and!; try first [done|lia]. by destruct key.
  - intros H. destruct (Hwait _ _ _ H) as (es' & H1' & H2' & H3' & H4' & ->).
    exists (es ++ es'). split_and!.
    + by eapply tsteps_app.
    + rewrite length_app. lia.
    + rewrite grants_app. lia.
    + by apply Forall_app.
Qed.

Lemma run_op_steps b o b' granted :
  run_op lim b o = (b', granted) -> events_of o (tok_of b) (tok_of b') granted.
Proof.
  destruct o as [now|p ty now now'|key p ty d tot r|key|key]; simpl.
  - intros [= <- <-]. exists [EReset now]. split; [apply tsteps_one; constructor|].
    split; [simpl; lia|]. split; [done|]. repeat constructor.
  - unfold try_acquire. destruct (try_consume lim b p now now') as [b1 g] eqn:E.
    apply try_consume_steps in E.
    destruct (attempt_events (OpTryAcquire p ty now now') _ _ _ _ _ E)
      as (es & H1 & H2 & H3 & H4); [by left|done|].
    destruct g; simpl; intros [= <- <-]; exists es; split_and!; first [done|lia].
  - destruct (acquire_section _ _ _ _ _ _ _ _) as [b1 s] eqn:E. intros [= <- <-].
    by apply acquire_section_steps in E.
  - intros [= <- <-]. exists []. split_and!; [constructor|simpl; lia|done|constructor].
  - intros [= <- <-]. exists []. split_and!; [constructor|simpl; lia|done|constructor].
Qed.
End Steps.

(** ** Invariants of the tokens *)
Record tok_ok (lim : Limits) (t : Tok) : Prop := {
  to_global : 0 <= tg t <= global_burst_cap lim;
  to_normal : 0 <= tn t <= normal_burst_cap lim;
  to_global_repr : flt_repr (tg t);
  to_normal_repr : flt_repr (tn t)
}.

Section Invariants.
Variable lim : Limits.
Hypothesis Hlim : limits_ok lim.
Local Abbreviation cap := (global_burst_cap lim).

Lemma Qminb_repr (x y : Q) : flt_repr x -> flt_repr y -> flt_repr (Qminb x y).
Proof. unfold Qminb. by destruct (y <? x). Qed.

Lemma fl_pred (x : Q) : 1 <= x -> flt_repr x -> 0 <= fl (x - 1) <= x.
Proof.
  intros H1 Hr. split; [apply (rounds_nonneg (f := fl)); lra|].
  apply (rounds_le (f := fl)); [done|lra].
Qed.

Lemma fl_pred_err (x : Q) : 1 <= x -> (x - 1) * (1 - flt_u) <= fl (x - 1) <= (x - 1) * (1 + flt_u).
Proof. intros. apply fl_err. lra. Qed.

Lemma fl_mul_nonneg (x y : Q) : 0 <= x -> 0 <= y -> 0 <= fl (x * y).
Proof. intros. apply (rounds_nonneg (f := fl)). by apply Qmult_le_0_compat. Qed.

(** Filling a bucket up to its cap [c]. *)
Lemma fill_bounds (c s : Q) :
  0 <= s -> 0 <= c -> 0 <= Qminb c (fl s) <= c /\ Qminb c (fl s) <= s + flt_u * c.
Proof.
  intros Hs Hc. pose proof (Qminb_spec c (fl s)) as [H1 H2].
  pose proof (rounds_nonneg (f := fl) s Hs). destruct (fl_err s Hs) as [_ H3].
  split; [split; [by apply Qminb_glb|done]|].
  destruct (Qlt_le_dec c s); unfold flt_u in *; lra.
Qed.

(** Its loss by rounding when it is not full. *)
Lemma fill_lower (c s : Q) :
  0 <= s -> 0 <= c -> Qminb c (fl s) == c \/ s - 2 * flt_u * c <= Qminb c (fl s).
Proof.
  intros Hs Hc. destruct (fl_err s Hs) as [H1 _]. unfold Qminb.
  destruct (fl s <? c) eqn:E; bool_to_prop; [right|by left]. unfold flt_u in *. lra.
Qed.

Lemma refill_amounts (t : Tok) (now : Q) :
  0 < elapsed_since t now ->
  let a := fl (elapsed_since t now * max_msg_per_sec lim) in
  let b := fl (elapsed_since t now * normal_msg_per_sec lim) in
  0 <= b <= a /\ tl t < now /\
  a <= max_msg_per_sec lim * (1 + 3 * flt_u) * (now - tl t).
Proof.
  intros He a b. destruct Hlim as [Hm [Hn Hnm] _ _ _ _ _ _].
  assert (Ht : 0 < now - tl t) by by apply fl_pos_inv.
  split; [split; [apply fl_mul_nonneg; lra|]|split; [lra|]].
  { apply (rounds_mono (f := fl)). rewrite !(Qmult_comm (elapsed_since t now)).
    apply Qmult_le_compat_r; lra. }
  destruct (fl_err (now - tl t) ltac:(lra)) as [_ H1]. fold (elapsed_since t now) in H1.
  assert (H0 : 0 <= elapsed_since t now * max_msg_per_sec lim)
    by (apply Qmult_le_0_compat; lra).
  destruct (fl_err _ H0) as [_ H2]. fold a in H2.
  assert (H3 : elapsed_since t now * max_msg_per_sec lim
               <= (now - tl t) * (1 + flt_u) * max_msg_per_sec lim)
    by (apply Qmult_le_compat_r; lra).
  assert (H4 : 0 <= (now - tl t) * max_msg_per_sec lim) by (apply Qmult_le_0_compat; lra).
  unfold flt_u in *. lra.
Qed.

Lemma tstep_ok t e t' : tok_ok lim t -> tstep lim t e t' -> tok_ok lim t'.
Proof.
  intros [Hg Hn Hgr Hnr] Hs. pose proof (lo_cap _ Hlim) as Hc.
  pose proof (lo_normal_cap _ Hlim) as Hnc.
  destruct Hs as [now Hcd He|now Hcd H1|now Hcd H1 H2 H3|p now Hp Hcd H1 H2|now].
  - destruct (refill_amounts t now He) as [[Hb Hba] _]. constructor; simpl.
    + apply fill_bounds; lra.
    + apply fill_bounds; lra.
    + apply Qminb_repr; [apply Hlim|apply (rounds_repr (f := fl))].
    + apply Qminb_repr; [apply Hlim|apply (rounds_repr (f := fl))].
  - destruct (fl_pred (tg t) H1 Hgr). constructor; simpl; try done; [lra|].
    apply (rounds_repr (f := fl)).
  - destruct (fl_pred (tg t) H1 Hgr). constructor; simpl; try done; [lra|].
    apply (rounds_repr (f := fl)).
  - destruct (fl_pred (tg t) H1 Hgr), (fl_pred (tn t) H2 Hnr).
    constructor; simpl; try lra; apply (rounds_repr (f := fl)).
  - constructor; simpl; try lra; apply (rounds_zero (f := fl)).
Qed.



End Invariants.

(** ** Traces *)

(** [clocked t0 ops t1]: the readings of the operations lie, operation after
    operation, in consecutive intervals from [t0] to [t1]. *)
Fixpoint clocked (t0 : Q) (ops : list op) (t1 : Q) : Prop :=
  match ops with
  | [] => t0 <= t1
  | o :: ops => exists t, t0 <= t /\ Forall (fun r => t0 <= r <= t) (op_times o) /\ clocked t ops t1
  end.

Lemma clocked_le t0 ops t1 : clocked t0 ops t1 -> t0 <= t1.
Proof.
  revert t0. induction ops as [|o ops IH]; intros t0; simpl; [done|].
  intros (t & H1 & _ & H2%IH). lra.
Qed.

Section Traces.
Variable lim : Limits.
Hypothesis Hlim : limits_ok lim.
Local Abbreviation cap := (global_burst_cap lim).

Lemma grants_cons e es : grants (e :: es) = (grants [e] + grants es)%Z.
Proof. apply (grants_app [e] es). Qed.

Lemma tsteps_ok t es t' : tok_ok lim t -> tsteps lim t es t' -> tok_ok lim t'.
Proof. induction 2; [done|]. eauto using tstep_ok. Qed.

Definition is_reset (e : event) : bool := match e with EReset _ => true | _ => false end.


(** The events of an operation other than Error 100 that end by [t1]. *)
Lemma op_events_no_reset o es (P : Q -> Prop) :
  is_error100 o = false -> Forall P (op_times o) -> Forall (op_event o) es ->
  Forall (fun e => P (event_time e) /\ is_reset e = false) es.
Proof.
  intros Ho Ht He. rewrite Forall_forall in Ht. eapply Forall_impl; [exact He|].
  intros e [H1 H2]. split; [by apply Ht|]. destruct e; [done|done|]. congruence.
Qed.

Lemma op_ok b o b' g :
  tok_ok lim (tok_of b) -> run_op lim b o = (b', g) -> tok_ok lim (tok_of b').
Proof. intros Hok (es & Hs & _)%run_op_steps. by eapply tsteps_ok. Qed.

Lemma grant_budget (n : nat) : (n <= 4)%nat ->
  inject_Z (Z.of_nat n) * (flt_u * cap) <= 4 * flt_u * cap.
Proof.
  intros Hn. pose proof (lo_cap _ Hlim). assert (Hz : inject_Z (Z.of_nat n) <= 4).
  { change 4 with (inject_Z 4). rewrite <- Zle_Qle. lia. }
  assert (0 <= flt_u * cap) by (unfold flt_u; lra). nra.
Qed.


Lemma run_ok b ops : tok_ok lim (tok_of b) -> tok_ok lim (tok_of (fst (run lim b ops))).
Proof.
  revert b. induction ops as [|o ops IH]; intros b Hok; simpl; [done|].
  destruct (run_op lim b o) as [b1 g] eqn:E. pose proof (op_ok _ _ _ _ Hok E) as H1.
  specialize (IH _ H1). by destruct (run lim b1 ops).
Qed.

End Traces.


(** ** The queue under every operation *)
Section Queue.
Variable lim : Limits.

Lemma notify_queue b now : queue_ok b -> queue_ok (notify_highest_waiter lim b now).
Proof.
  intros H. unfold notify_highest_waiter. destruct (wait_heap b) as [|w h] eqn:E; [done|].
  destruct could_grant; [|done]. eapply queue_ok_keys; [exact H|done|]. simpl. by rewrite E.
Qed.

Lemma refill_queue b now now' : queue_ok b -> queue_ok (refill lim b now now').
Proof.
  intros H. unfold refill. destruct (_ <=? 0); [done|]. apply notify_queue.
  by eapply queue_ok_same.
Qed.

Lemma try_consume_queue b p now now' :
  queue_ok b -> queue_ok (fst (try_consume lim b p now now')).
Proof.
  intros H. unfold try_consume. pose proof (refill_queue b now now' H).
  repeat case_match; simpl; try done; by eapply queue_ok_same.
Qed.

Lemma seconds_until_queue b p now now' :
  queue_ok b -> queue_ok (fst (seconds_until_available lim b p now now')).
Proof.
  intros H. unfold seconds_until_available. pose proof (refill_queue b now now' H).
  by repeat case_match.
Qed.

Lemma enqueue_queue b p key : queue_ok b -> queue_ok (fst (enqueue b p key)).
Proof.
  intros [H1 H2 H3]. destruct key as [key|]; [done|]. constructor; simpl; [| |lia].
  - apply heappush_sorted; [|done]. eapply Forall_impl; [exact H2|]. simpl. lia.
  - apply heappush_Forall; [simpl; lia|]. eapply Forall_impl; [exact H2|]. simpl. lia.
Qed.

Lemma acquire_section_queue b key p ty d tot r :
  queue_ok b -> queue_ok (fst (acquire_section lim b key p ty d tot r)).
Proof.
  intros H. unfold acquire_section.
  assert (Hwait : forall b, queue_ok b -> queue_ok (fst
    (let (b, wait_sec) := seconds_until_available lim b p (rd_wait r) (rd_wait' r) in
     let (b, key) := enqueue b p key in (b, Waiting wait_sec key)))).
  { intros b1 H1. pose proof (seconds_until_queue b1 p (rd_wait r) (rd_wait' r) H1) as H2.
    destruct (seconds_until_available _ _ _ _ _) as [b2 w].
    pose proof (enqueue_queue b2 p key H2). by destruct (enqueue b2 p key). }
  destruct (match key with Some _ => _ | None => _ end); [by apply Hwait|].
  pose proof (try_consume_queue b p (rd_consume r) (rd_consume' r) H) as H1.
  destruct (try_consume _ _ _ _ _) as [b1 []]; [|by apply Hwait]. simpl in *.
  destruct key; [apply queue_ok_remove|]; by eapply queue_ok_same.
Qed.

Lemma run_op_queue b o : queue_ok b -> queue_ok (fst (run_op lim b o)).
Proof.
  intros H. destruct o as [now|p ty now now'|key p ty d tot r|key|key]; simpl.
  - by eapply queue_ok_same.
  - unfold try_acquire. pose proof (try_consume_queue b p now now' H).
    destruct (try_consume _ _ _ _ _) as [b1 []]; simpl in *; by eapply queue_ok_same.
  - pose proof (acquire_section_queue b key p ty d tot r H).
    by destruct (acquire_section _ _ _ _ _ _ _ _).
  - eapply queue_ok_same; [by apply (queue_ok_remove key)|done|done].
  - eapply queue_ok_keys; [exact H|done|]. simpl. unfold keys. rewrite map_map.
    apply map_ext. intros w. by destruct (is_key key w).
Qed.

Lemma run_queue b ops : queue_ok b -> queue_ok (fst (run lim b ops)).
Proof.
  revert b. induction ops as [|o ops IH]; intros b H; simpl; [done|].
  pose proof (run_op_queue b o H) as H1. destruct (run_op lim b o) as [b1 g].
  specialize (IH b1 H1). by destruct (run lim b1 ops).
Qed.
End Queue.

Lemma new_limiter_ok (m n res w c : Q) (burst : option Q) (now : Q) (lim : Limits) (b : Bucket) :
  Forall flt_repr [m; n; res; w; c; default m burst] ->
  new_limiter m n res w c burst now = Ok (lim, b) ->
  limits_ok lim /\ tok_ok lim (tok_of b) /\ queue_ok b /\
  global_tokens b == global_burst_cap lim /\ normal_tokens b == normal_burst_cap lim.
Proof.
  rewrite !Forall_cons. intros (Rm & Rn & Rr & Rw & Rc & Rb & _). unfold new_limiter.
  destruct (m <=? 0) eqn:E1; [done|]. destruct (n <=? 0) eqn:E2; [done|].
  destruct (m <? n) eqn:E3; [done|]. destruct (res <? 0) eqn:E4; [done|].
  destruct (w <=? 0) eqn:E5; [done|]. destruct (c <? 0) eqn:E6; [done|].
  bool_to_prop. intros [= <- <-].
  pose proof (Qmaxb_spec 1 (default m burst)) as [H1 H2].
  pose proof (Qminb_spec (Qmaxb 1 (default m burst)) n) as [H3 H4].
  assert (Hmin : 0 < Qminb (Qmaxb 1 (default m burst)) n).
  { unfold Qminb. destruct (_ <? _); lra. }
  assert (Hbr : flt_repr (Qmaxb 1 (default m burst))).
  { unfold Qmaxb. destruct (1 <? _).
    - done.
    - apply (representable_int 2 53). lia. }
  split; [|split; [|split; [|split; reflexivity]]].
  - constructor; simpl; [done| |done|done|done|split; lra|done|by apply Qminb_repr].
    destruct (res <? m) eqn:E7; bool_to_prop; [|lra].
    pose proof (Qminb_spec n (fl (m - res))) as [H5 H6]. split; [|lra].
    unfold Qminb. destruct (_ <? n) eqn:E8; bool_to_prop; [|done].
    apply (rnd_pos 2 two_ge_2 53 prec53_ge_1). lra.
  - constructor; simpl; [lra|lra|done|by apply Qminb_repr].
  - constructor; simpl; [constructor|constructor|lia].
Qed.

(** Invariants: a limiter that [__init__] accepts is well formed, and in
    every state that any sequence of operations of any threads reaches, both
    buckets hold between zero and their caps, and the waiter queue is strictly
    ordered by (priority, arrival). *)
Theorem limiter_invariant (m n res w c : Q) (burst : option Q) (now : Q) (lim : Limits)
    (b : Bucket) (ops : list op) :
  Forall flt_repr [m; n; res; w; c; default m burst] ->
  new_limiter m n res w c burst now = Ok (lim, b) ->
  let b' := fst (run lim b ops) in
  0 <= global_tokens b' <= global_burst_cap lim /\
  0 <= normal_tokens b' <= normal_burst_cap lim /\ queue_ok b'.
Proof.
  intros Hr (Hlim & Ht & Hq & _)%new_limiter_ok b'; [|done].
  destruct (run_ok lim Hlim b ops Ht) as [H1 H2 _ _].
  split; [exact H1|]. split; [exact H2|]. by apply run_queue.
Qed.

(** ** Cooldown *)
Lemma tsteps_cooldown lim t es t' (until : Q) :
  tsteps lim t es t' -> until <= tc t ->
  Forall (fun e => event_time e < until /\ is_reset e = false) es ->
  until <= tc t' /\ grants es = 0%Z.
Proof.
  induction 1 as [t|t e t' es t'' Hst Hs IH]; intros Hu Hes; [done|].
  apply Forall_cons_1 in Hes as [[He Hr] Hes]. rewrite grants_cons.
  inversion Hst; subst; simpl in *; try discriminate Hr; try lra.
Qed.

(** Error 100 backoff: after an Error 100 at [now], as long as every
    reading lies before [now] plus the cooldown, no operation of any thread
    is granted a token, further Error 100s included. *)
Theorem cooldown_blocks (lim : Limits) (b : Bucket) (now : Q) (ops : list op) :
  Forall (fun o => Forall (fun r => now <= r < fl (now + error100_cooldown_sec lim)) (op_times o)) ops ->
  snd (run lim (notify_error_100 lim b now) ops) = 0%Z.
Proof.
  set (until := fl (now + error100_cooldown_sec lim)).
  assert (Hgen : forall b, until <= cooldown_until b ->
    Forall (fun o => Forall (fun r => now <= r < until) (op_times o)) ops ->
    snd (run lim b ops) = 0%Z); [|intros Hops; apply Hgen; [apply Qle_refl|exact Hops]].
  clear b. induction ops as [|o ops IH]; intros b Hb Hops; simpl; [done|].
  apply Forall_cons_1 in Hops as [Ho Hops]. destruct (run_op lim b o) as [b1 g] eqn:E.
  assert (Hb1 : until <= cooldown_until b1 /\ g = false).
  { destruct (is_error100 o) eqn:Eo.
    - destruct o as [now'| | | |]; try discriminate Eo. injection E as <- <-.
      apply Forall_cons_1 in Ho as [Ho _]. split; [|done]. simpl.
      apply (rounds_mono (f := fl)). lra.
    - apply run_op_steps in E as (es & Hs & _ & Hg & Hes).
      apply (op_events_no_reset _ _ _ Eo Ho) in Hes.
      destruct (tsteps_cooldown _ _ _ _ until Hs Hb) as [H1 H2].
      { eapply Forall_impl; [exact Hes|]. simpl. intros e [? ?]. split; [lra|done]. }
      rewrite Hg in H2. split; [exact H1|by destruct g]. }
  destruct Hb1 as [Hb1 ->]. specialize (IH b1 Hb1 Hops). by destruct (run lim b1 ops).
Qed.

(** ** The emergency reserve *)
Section Reserve.
Variable lim : Limits.
Hypothesis Hlim : limits_ok lim.
Local Abbreviation cap := (global_burst_cap lim).

(** The tokens set aside: what separates the two buckets when they are full,
    and at most the configured reserve. *)
Definition reserve : Q :=
  Qminb (emergency_reserve_per_sec lim) (global_burst_cap lim - normal_burst_cap lim).

Definition reserved (d : Q) (t : Tok) : Prop := tn t + reserve - 1 - d <= tg t.

Definition emergency_event (e : event) : bool :=
  match e with EGrant p _ => (p =? PRIORITY_EMERGENCY_FLATTEN)%Z | _ => false end.

Lemma reserve_bounds :
  reserve <= emergency_reserve_per_sec lim /\
  reserve <= global_burst_cap lim - normal_burst_cap lim /\ 0 <= reserve.
Proof.
  pose proof (Qminb_spec (emergency_reserve_per_sec lim) (cap - normal_burst_cap lim)) as [H1 H2].
  fold reserve in H1, H2. split_and!; [done|done|].
  apply Qminb_glb; [apply Hlim|]. pose proof (lo_normal_cap _ Hlim). lra.
Qed.

Lemma tstep_reserved (d : Q) t e t' :
  tok_ok lim t -> tstep lim t e t' -> 0 <= d -> reserved d t ->
  is_reset e = false -> emergency_event e = false -> reserved (d + 4 * flt_u * cap) t'.
Proof.
  intros [Hg Hn Hgr Hnr] Hs Hd Hr Hnoreset He. pose proof (lo_cap _ Hlim) as Hc.
  pose proof (lo_normal_cap _ Hlim) as Hnc. destruct reserve_bounds as (Hm1 & Hm2 & Hm0).
  unfold reserved in *.
  destruct Hs as [now Hcd Hel|now Hcd H1|now Hcd H1 H2 H3|p now Hp Hcd H1 H2|now];
    cbn [tg tn]; try discriminate.
  - destruct (refill_amounts lim Hlim t now Hel) as ([Hb Hba] & _).
    set (a := fl (_ * max_msg_per_sec lim)) in *. set (b := fl (_ * normal_msg_per_sec lim)) in *.
    destruct (fill_bounds (normal_burst_cap lim) (tn t + b)) as [[_ Hn1] Hn2]; [lra..|].
    destruct (fill_lower cap (tg t + a)) as [Hg1|Hg1]; [lra..| |]; unfold flt_u in *; lra.
  - unfold flt_u in *. lra.
  - destruct (fl_pred_err (tg t) H1) as [G _]. destruct (fl_pred_err (tn t) H2) as [_ N].
    unfold flt_u in *. lra.
Qed.

Lemma tsteps_reserved (d : Q) t es t' :
  tok_ok lim t -> tsteps lim t es t' -> 0 <= d -> reserved d t ->
  Forall (fun e => is_reset e = false /\ emergency_event e = false) es ->
  reserved (d + inject_Z (Z.of_nat (length es)) * (4 * flt_u * cap)) t'.
Proof.
  intros Hok Hs. revert d. pose proof (lo_cap _ Hlim) as Hc.
  induction Hs as [t|t e t' es t'' Hst Hs IH]; intros d Hd Hr Hes.
  { unfold reserved in *. change (inject_Z (Z.of_nat (length []))) with 0. lra. }
  apply Forall_cons_1 in Hes as [[H1 H2] Hes].
  pose proof (tstep_reserved d t e t' Hok Hst Hd Hr H1 H2) as Hr'.
  apply IH in Hr'; [|by eapply tstep_ok|unfold flt_u; lra|done]. unfold reserved in *.
  cbn [length]. rewrite Nat2Z.inj_succ, <- Z.add_1_l, inject_Z_plus. change (inject_Z 1) with 1.
  lra.
Qed.

Definition normal_op (o : op) : Prop :=
  is_error100 o = false /\ op_priority o <> Some PRIORITY_EMERGENCY_FLATTEN.

Lemma run_reserved (d : Q) b ops :
  tok_ok lim (tok_of b) -> 0 <= d -> reserved d (tok_of b) -> Forall normal_op ops ->
  reserved (d + inject_Z (Z.of_nat (length ops)) * (16 * flt_u * cap))
    (tok_of (fst (run lim b ops))).
Proof.
  revert d b. pose proof (lo_cap _ Hlim) as Hc.
  induction ops as [|o ops IH]; intros d b Hok Hd Hr Hops; simpl.
  { unfold reserved in *. change (inject_Z (Z.of_nat 0)) with 0. lra. }
  apply Forall_cons_1 in Hops as [[Ho Hp] Hops]. destruct (run_op lim b o) as [b1 g] eqn:E.
  assert (Hr1 : reserved (d + 16 * flt_u * cap) (tok_of b1)).
  { destruct (run_op_steps _ _ _ _ _ E) as (es & Hs & Hlen & _ & Hes).
    eapply tsteps_reserved in Hs; [|done|exact Hd|exact Hr|].
    - pose proof (grant_budget lim Hlim _ Hlen). unfold reserved in *. lra.
    - eapply Forall_impl; [exact Hes|]. intros [| p' |] [_ He]; simpl; split; try done.
      + apply Z.eqb_neq. congruence.
      + congruence. }
  apply IH in Hr1; [|by eapply op_ok|unfold flt_u; lra|done].
  destruct (run lim b1 ops) as [b2 n]. unfold reserved in *. cbn [fst] in *. cbn [length].
  rewrite Nat2Z.inj_succ, <- Z.add_1_l, inject_Z_plus. change (inject_Z 1) with 1. lra.
Qed.
End Reserve.

(** The emergency reserve: from a fresh limiter, no sequence of requests
    of priority 1 or lower, refills and timeouts brings the tokens left for
    EMERGENCY_FLATTEN below the reserve minus one token, where the reserve is
    the configured one or the gap between the two burst caps if that is
    smaller (up to the rounding of the floats, 16/2^53 of the burst cap per
    operation). *)
Theorem reserve_kept (m n res w c : Q) (burst : option Q) (now : Q) (lim : Limits)
    (b : Bucket) (ops : list op) :
  Forall flt_repr [m; n; res; w; c; default m burst] ->
  new_limiter m n res w c burst now = Ok (lim, b) ->
  Forall normal_op ops ->
  reserve lim - 1 - inject_Z (Z.of_nat (length ops)) * (16 * flt_u * global_burst_cap lim)
  <= global_tokens (fst (run lim b ops)).
Proof.
  intros Hr Hnew Hops. destruct (new_limiter_ok _ _ _ _ _ _ _ _ _ Hr Hnew) as (Hlim & Ht & _ & Eg & En).
  destruct (reserve_bounds lim Hlim) as (_ & H2 & _).
  assert (H0 : reserved lim 0 (tok_of b)) by (unfold reserved; simpl; lra).
  pose proof (run_reserved lim Hlim 0 b ops Ht ltac:(lra) H0 Hops) as H.
  destruct (to_normal _ _ (run_ok lim Hlim b ops Ht)) as [H3 _].
  unfold reserved in H. simpl in *. lra.
Qed.

(** The gap between the burst caps is computed from the normal rate as
    configured, not from the rate after it was lowered to leave room for the
    reserve: with 30 messages per second, a normal rate of 30 and a reserve of
    6, thirty diagnostic requests in a row are all granted and leave nothing. *)
Theorem unclamped_burst_drains_reserve :
  exists lim b, new_limiter 30 30 6 8 2 None 0 = Ok (lim, b) /\
    normal_msg_per_sec lim == 24 /\
    snd (run lim b (repeat (OpTryAcquire PRIORITY_DIAGNOSTIC "diagnostic" 0 0) 30)) = 30%Z /\
    global_tokens (fst (run lim b (repeat (OpTryAcquire PRIORITY_DIAGNOSTIC "diagnostic" 0 0) 30)))
    == 0.
Proof. eexists _, _. split; [reflexivity|]. split; [reflexivity|]. by vm_compute. Qed.

(** Contrary to the class's documentation, a priority-1 request needs no
    normal token: outside of a cooldown it is granted with an empty normal
    bucket whenever the global bucket, after a refill, holds one token more than
    the reserve. *)
Theorem order_without_normal_token (lim : Limits) (b : Bucket) (now now' : Q) :
  in_cooldown b now = false ->
  normal_tokens (refill lim b now now') < 1 ->
  1 <= global_tokens (refill lim b now now') ->
  emergency_reserve_per_sec lim <= fl (global_tokens (refill lim b now now') - 1) ->
  exists b', try_consume lim b PRIORITY_ORDER_EXECUTION now now' = (b', true) /\
    normal_tokens b' = normal_tokens (refill lim b now now').
Proof.
  intros Hc Hn Hg Hr. unfold try_consume. rewrite Hc.
  set (b1 := refill lim b now now') in *.
  destruct (Qltb_spec (global_tokens b1) 1); [lra|].
  destruct (Qltb_spec (fl (global_tokens b1 - 1)) (emergency_reserve_per_sec lim)); [lra|].
  destruct (Qleb_spec 1 (normal_tokens b1)); [lra|]. simpl. eauto.
Qed.

(** ** Acquiring *)
Lemma acquire_section_key lim b key p ty d tot r b' s :
  acquire_section lim b (Some key) p ty d tot r = (b', s) ->
  match s with
  | Granted _ => is_highest_waiter key b = true /\ key ∉ keys (wait_heap b')
  | Waiting _ key' => key' = key
  end.
Proof.
  unfold acquire_section. destruct (negb (is_highest_waiter key b)) eqn:Eh.
  { destruct (seconds_until_available _ _ _ _ _). by intros [= <- <-]. }
  apply negb_false_iff in Eh. destruct (try_consume _ _ _ _ _) as [b1 []].
  - intros [= <- <-]. split; [done|]. apply remove_waiter_gone.
  - destruct (seconds_until_available _ _ _ _ _). by intros [= <- <-].
Qed.

(** Queued requests are served in order: when a request that waits in the
    queue is granted, no request of a higher priority, nor an earlier one of
    the same priority, was waiting, and the request has left the queue. *)
Theorem grant_in_priority_order (lim : Limits) (b : Bucket) (p s : Z) (ty : string) (d : bool)
    (tot : Q) (r : Readings) (b' : Bucket) (res : AcquireResult) :
  queue_ok b ->
  acquire_section lim b (Some (p, s)) p ty d tot r = (b', Granted res) ->
  Forall (fun w => (p < w_priority w \/ p = w_priority w /\ s <= w_seq w)%Z) (wait_heap b) /\
  (p, s) ∉ keys (wait_heap b').
Proof.
  intros [Hs _ _] H. apply acquire_section_key in H as [Hh Hk]. split; [|done].
  unfold is_highest_waiter in Hh. destruct (wait_heap b) as [|w h]; [done|].
  apply is_key_spec in Hh as [= <- <-]. apply StronglySorted_inv in Hs as [_ Hall].
  constructor; [lia|]. eapply Forall_impl; [exact Hall|].
  unfold waiter_lt_w. intros w'. rewrite waiter_lt_spec. lia.
Qed.

(** [acquire] ends and leaves no waiter behind: as soon as one of its
    passes reads the clock at or after the deadline, the call has returned,
    whatever other threads did; a timeout leaves no queue entry behind, and
    neither does the grant of a request that is in the queue when the loop is
    entered. *)
Theorem acquire_ends (lim : Limits) (passes : list Pass) (b : Bucket) (my_key : option (Z * Z))
    (p : Z) (ty : string) (deadline : Q) (d : bool) (tot : Q) :
  (Exists (fun pass => deadline <= pass_now pass) passes ->
   forall b' k, acquire_loop lim passes b my_key p ty deadline d tot <> Running b' k) /\
  match acquire_loop lim passes b my_key p ty deadline d tot with
  | Acquired b' _ => forall key, my_key = Some key -> key ∉ keys (wait_heap b')
  | TimedOut b' key =>
      (key ∉ keys (wait_heap b')) /\ (forall k, my_key = Some k -> k = key)
  | Running _ _ => True
  end.
Proof.
  revert b my_key d tot. induction passes as [|pass passes IH]; intros b key d tot; simpl.
  { split; [by inversion 1|done]. }
  set (b0 := fst (run lim b (pass_before pass))).
  destruct (acquire_section lim b0 key p ty d tot (pass_readings pass)) as [b1 [res|wt k]] eqn:E.
  { split; [done|]. intros k ->. by apply acquire_section_key in E as [_ ?]. }
  assert (Hk : forall k', key = Some k' -> k' = k).
  { intros k' ->. by apply acquire_section_key in E as ->. }
  set (b2 := fst (run lim b1 (pass_between pass))).
  set (b3 := fst (run lim b2 (pass_after pass))).
  destruct (fl (deadline - pass_now pass) <=? 0) eqn:Er; bool_to_prop.
  { split; [done|]. split; [|done]. apply (remove_waiter_gone k b3). }
  assert (Hd : pass_now pass < deadline) by (apply fl_pos_inv in Er; lra).
  destruct (0 <? _);
    match goal with |- context[acquire_loop lim passes ?b4 _ p ty deadline ?d' ?tot'] =>
      destruct (IH b4 (Some k) d' tot') as [IH1 IH2];
      destruct (acquire_loop lim passes b4 (Some k) p ty deadline d' tot') as [b5 res|b5 k5|b5 k5]
    end.
  all: split; [intros [Hx|Hx]%Exists_cons; [lra|by apply IH1]|].
  all: try done.
  all: try (intros k' H'; apply IH2; by rewrite (Hk _ H')).
  all: destruct IH2 as [? IH2]; split; [done|]; intros k' H'; rewrite (Hk _ H'); by apply IH2.
Qed.

(** ** A limiter with the default settings *)
Definition ex_new : result (Limits * Bucket) :=
  new_limiter DEFAULT_MAX_MSG_PER_SEC DEFAULT_NORMAL_MSG_PER_SEC DEFAULT_EMERGENCY_RESERVE_PER_SEC
    DEFAULT_MAX_WAIT_SEC DEFAULT_ERROR100_COOLDOWN_SEC None 0.
Definition ex_lim : Limits :=
  match ex_new with Ok (l, _) => l | Raise _ => {| max_msg_per_sec := 0; normal_msg_per_sec := 0;
    emergency_reserve_per_sec := 0; max_wait_sec := 0; error100_cooldown_sec := 0;
    global_burst_cap := 0; normal_burst_cap := 0 |} end.
Definition ex_bucket : Bucket := {|
  global_tokens := 30; normal_tokens := 24; last_refill := 0; cooldown_until := 0;
  wait_seq := 0; wait_heap := []; metrics := empty_metrics |}.

Lemma ex_args_repr : Forall flt_repr [30; 24; 6; 8; 2; default 30 None].
Proof.
  assert (H : forall z, (Z.abs z <= 2 ^ 53)%Z -> flt_repr (inject_Z z))
    by (intros; by apply representable_int).
  repeat constructor; [apply (H 30%Z)|apply (H 24%Z)|apply (H 6%Z)|apply (H 8%Z)|apply (H 2%Z)
    |apply (H 30%Z)]; lia.
Qed.



Definition ex_ops : list op :=
  [OpTryAcquire 1 "order" 1 1; OpTryAcquire 4 "diagnostic" 1 1; OpTryAcquire 1 "order" 2 2].


Lemma limiter_invariant_witness :
  0 <= global_tokens (fst (run ex_lim ex_bucket ex_ops)) <= 30.
Proof.
  apply (limiter_invariant 30 24 6 8 2 None 0 ex_lim ex_bucket ex_ops);
    [exact ex_args_repr|reflexivity].
Defined.

Lemma cooldown_blocks_witness :
  snd (run ex_lim (notify_error_100 ex_lim ex_bucket 0) [OpTryAcquire 0 "flatten" 1 1]) = 0%Z.
Proof.
  apply (cooldown_blocks ex_lim ex_bucket 0 [OpTryAcquire 0 "flatten" 1 1]).
  repeat constructor; by vm_compute.
Defined.

Lemma reserve_kept_witness :
  reserve ex_lim - 1 - inject_Z 3 * (16 * flt_u * 30)
  <= global_tokens (fst (run ex_lim ex_bucket ex_ops)).
Proof.
  apply (reserve_kept 30 24 6 8 2 None 0 ex_lim ex_bucket ex_ops);
    [exact ex_args_repr|reflexivity|repeat constructor; by intros [=]].
Defined.

Definition ex_low : Bucket := set_tokens ex_bucket 10 0.

Lemma order_without_normal_token_witness :
  exists b', try_consume ex_lim ex_low PRIORITY_ORDER_EXECUTION 0 0 = (b', true).
Proof.
  destruct (order_without_normal_token ex_lim ex_low 0 0) as (b' & H & _);
    [reflexivity|by vm_compute..|].
  exists b'. exact H.
Defined.

Definition ex_queued : Bucket :=
  set_waiters ex_bucket 2
    [{| w_priority := 1; w_seq := 2; w_event := false |};
     {| w_priority := 3; w_seq := 1; w_event := false |}].
Definition ex_readings : Readings :=
  {| rd_consume := 1; rd_consume' := 1; rd_wait := 1; rd_wait' := 1 |}.

Lemma grant_in_priority_order_witness :
  Forall (fun w => (1 < w_priority w \/ 1 = w_priority w /\ 2 <= w_seq w)%Z) (wait_heap ex_queued).
Proof.
  destruct (acquire_section ex_lim ex_queued (Some (1, 2)%Z) 1 "order" true 0 ex_readings)
    as [b' s] eqn:E.
  assert (Hs : exists res, s = Granted res) by (vm_compute in E; injection E as <- <-; eauto).
  destruct Hs as [res ->].
  refine (proj1 (grant_in_priority_order ex_lim ex_queued 1 2 "order" true 0 ex_readings b' res _ E)).
  constructor; simpl; [repeat constructor|repeat constructor; simpl; lia|lia].
Defined.

(** A low-priority request against a drained limiter times out after 8 s. *)
Definition ex_pass (t : Q) : Pass := {|
  pass_before := []; pass_readings := {| rd_consume := t; rd_consume' := t; rd_wait := t;
  rd_wait' := t |}; pass_between := []; pass_now := t; pass_after := [] |}.

Definition ex_waiting : Outcome :=
  acquire_loop ex_lim [ex_pass 0; ex_pass 8] (set_cooldown ex_bucket 100) None 4 "diagnostic" 8
    false 0.

(** The pass at the deadline ends the wait; the entry of the queue is gone. *)
Lemma acquire_ends_witness :
  match ex_waiting with
  | TimedOut b' key => (key ∉ keys (wait_heap b')) /\ wait_seq ex_bucket < wait_seq b'
  | _ => False
  end%Z.
Proof.
  assert (H : Exists (fun pass => 8 <= pass_now pass) [ex_pass 0; ex_pass 8]).
  { apply Exists_cons_tl, Exists_cons_hd. cbn [ex_pass pass_now]. lra. }
  assert (Ht : match ex_waiting with
               | Acquired _ _ => False
               | TimedOut b' _ => Z.lt (wait_seq ex_bucket) (wait_seq b')
               | Running _ _ => True end) by (vm_compute; trivial).
  destruct (acquire_ends ex_lim [ex_pass 0; ex_pass 8] (set_cooldown ex_bucket 100) None 4
    "diagnostic" 8 false 0) as [Hr Hk].
  specialize (Hr H). fold ex_waiting in Hr, Hk. destruct ex_waiting as [| |b' k].
  - exact Ht.
  - split; [apply Hk|exact Ht].
  - exact (Hr b' k eq_refl).
Defined.
