(* ===== verification/Watchdog.v ===== *)
(** * The watchdog's state machine: [services/watchdog/models.py] and
    [services/watchdog/state_machine.py] *)

From S2P Require Import Prelude.

Inductive ServiceName : Type := GATEWAY | BACKEND | WEBHOOK | DEMO | POSTGRES | REDIS.

Inductive ServiceState : Type :=
  | UNKNOWN | STARTING | HEALTHY | DEGRADED | FAILED | RECOVERING | VERIFYING | RECOVERED
  | MANUAL_INTERVENTION_REQUIRED | TRADING_BLOCKED | MARKET_CLOSED.

Inductive HealthStatus : Type := HS_HEALTHY | HS_DEGRADED | HS_FAILED | HS_UNKNOWN.

Inductive NotificationEvent : Type :=
  | EV_START | EV_STOP | EV_FAILURE | EV_UNHEALTHY | EV_RECOVERY_STARTED | EV_RECOVERED
  | EV_RECOVERY_FAILED | EV_MANUAL_INTERVENTION_REQUIRED | EV_TRADING_BLOCKED | EV_MARKET_CLOSED.

#[global] Instance ServiceName_eq_dec : EqDecision ServiceName.
Proof. solve_decision. Defined.
#[global] Instance ServiceState_eq_dec : EqDecision ServiceState.
Proof. solve_decision. Defined.
#[global] Instance HealthStatus_eq_dec : EqDecision HealthStatus.
Proof. solve_decision. Defined.
#[global] Instance NotificationEvent_eq_dec : EqDecision NotificationEvent.
Proof. solve_decision. Defined.

(** [svc.value]. *)
Definition service_value (s : ServiceName) : string :=
  match s with
  | GATEWAY => "gateway" | BACKEND => "backend" | WEBHOOK => "webhook" | DEMO => "demo"
  | POSTGRES => "postgres" | REDIS => "redis"
  end.

Definition is_trading_critical (service_name : string) : bool :=
  (service_name =? "gateway")%string || (service_name =? "backend")%string.

(** The state the service goes to when nothing special applies. *)
Definition by_health (health_failed health_degraded : bool) : ServiceState :=
  if health_failed then FAILED else if health_degraded then DEGRADED else HEALTHY.

(** The part of [next_state] after the two overrides. *)
Definition next_state_by_case (cur : ServiceState) (health_failed health_degraded : bool)
    (verifying_success : option bool) (safety_trading_blocked is_market_closed : bool)
    : ServiceState :=
  match cur with
  | UNKNOWN | STARTING | HEALTHY | RECOVERED => by_health health_failed health_degraded
  | DEGRADED =>
      if health_failed then FAILED
      else if negb health_failed && negb health_degraded then HEALTHY
      else DEGRADED
  | FAILED =>
      if negb health_failed && negb health_degraded then RECOVERED
      else if negb health_failed && health_degraded then DEGRADED
      else FAILED
  | RECOVERING => VERIFYING
  | VERIFYING =>
      match verifying_success with
      | Some true => RECOVERED
      | Some false => FAILED
      | None => VERIFYING
      end
  | MANUAL_INTERVENTION_REQUIRED | TRADING_BLOCKED =>
      if safety_trading_blocked then cur
      else if negb health_failed && negb health_degraded then HEALTHY
      else cur
  | MARKET_CLOSED =>
      if is_market_closed && health_failed then MARKET_CLOSED
      else if negb health_failed && negb health_degraded then HEALTHY
      else if negb is_market_closed && health_failed then FAILED
      else cur
  end.

Definition blockable (cur : ServiceState) : bool :=
  match cur with
  | MANUAL_INTERVENTION_REQUIRED | TRADING_BLOCKED | MARKET_CLOSED => false
  | _ => true
  end.

Definition next_state (cur : ServiceState) (health_failed health_degraded : bool)
    (verifying_success : option bool) (safety_trading_blocked is_market_closed : bool)
    : ServiceState :=
  if is_market_closed && health_failed then MARKET_CLOSED
  else if is_market_closed && bool_decide (cur = MARKET_CLOSED)
          && negb health_failed && negb health_degraded then HEALTHY
  else if safety_trading_blocked && blockable cur then TRADING_BLOCKED
  else next_state_by_case cur health_failed health_degraded verifying_success
         safety_trading_blocked is_market_closed.

(** The dictionary of [event_for_transition]. *)
Definition transition_mapping (prev nxt : ServiceState) : option NotificationEvent :=
  match prev, nxt with
  | UNKNOWN, HEALTHY | STARTING, HEALTHY => Some EV_START
  | UNKNOWN, FAILED | HEALTHY, FAILED | DEGRADED, FAILED => Some EV_FAILURE
  | HEALTHY, DEGRADED => Some EV_UNHEALTHY
  | FAILED, RECOVERING => Some EV_RECOVERY_STARTED
  | VERIFYING, RECOVERED => Some EV_RECOVERED
  | VERIFYING, FAILED => Some EV_RECOVERY_FAILED
  | FAILED, MANUAL_INTERVENTION_REQUIRED | RECOVERING, MANUAL_INTERVENTION_REQUIRED
  | VERIFYING, MANUAL_INTERVENTION_REQUIRED => Some EV_MANUAL_INTERVENTION_REQUIRED
  | MANUAL_INTERVENTION_REQUIRED, HEALTHY => Some EV_RECOVERED
  | _, _ => None
  end.

Definition event_for_transition (prev nxt : ServiceState) : option NotificationEvent :=
  if bool_decide (prev = nxt) then None
  else match prev, nxt with
       | _, TRADING_BLOCKED => Some EV_TRADING_BLOCKED
       | _, MARKET_CLOSED => Some EV_MARKET_CLOSED
       | MARKET_CLOSED, HEALTHY => Some EV_RECOVERED
       | MARKET_CLOSED, FAILED => Some EV_FAILURE
       | TRADING_BLOCKED, HEALTHY => Some EV_RECOVERED
       | TRADING_BLOCKED, RECOVERED => Some EV_RECOVERED
       | FAILED, RECOVERED => Some EV_RECOVERED
       | _, _ => transition_mapping prev nxt
       end.

(** ** What the machine promises *)

(** States in which the watchdog reports the service as serving. *)
Definition serving (s : ServiceState) : bool :=
  match s with HEALTHY | RECOVERED => true | _ => false end.

(** The machine is honest about health: it calls a service serving only
    if the check was healthy, or if a verification succeeded; an unhealthy
    check never leads to a serving state without a verification. *)
Theorem serving_is_honest (cur : ServiceState) (failed degraded : bool) (verified : option bool)
    (blocked closed : bool) :
  serving (next_state cur failed degraded verified blocked closed) = true ->
  (failed = false /\ degraded = false) \/ (cur = VERIFYING /\ verified = Some true).
Proof.
  destruct cur, failed, degraded, blocked, closed, verified as [[]|]; vm_compute; intros; auto;
    discriminate.
Qed.

(** A safety block holds: while the safety gates block trading and the
    market is open, no service leaves TRADING_BLOCKED or
    MANUAL_INTERVENTION_REQUIRED and every other service but a MARKET_CLOSED
    one goes to TRADING_BLOCKED. *)
Theorem safety_block_holds (cur : ServiceState) (failed degraded : bool)
    (verified : option bool) :
  next_state cur failed degraded verified true false =
  match cur with
  | TRADING_BLOCKED | MANUAL_INTERVENTION_REQUIRED => cur
  | MARKET_CLOSED => if failed then FAILED else if degraded then MARKET_CLOSED else HEALTHY
  | _ => TRADING_BLOCKED
  end.
Proof. by destruct cur, failed, degraded, verified as [[]|]. Qed.

(** A closed market launders a block: a service that trading safety or an
    operator has to clear goes to MARKET_CLOSED when it is down after hours,
    and from there to HEALTHY at the next healthy check although the gates
    still block, in and out of hours. *)
Theorem market_close_clears_block (cur : ServiceState) (degraded : bool) (verified : option bool)
    (closed : bool) :
  cur = TRADING_BLOCKED \/ cur = MANUAL_INTERVENTION_REQUIRED ->
  next_state cur true degraded verified true true = MARKET_CLOSED /\
  next_state MARKET_CLOSED false false verified true closed = HEALTHY.
Proof. intros [-> | ->]; destruct degraded, verified as [[]|], closed; by vm_compute. Qed.

(** Failures are announced, except two: a transition of the machine into
    FAILED raises FAILURE or RECOVERY_FAILED from every state but STARTING and
    RECOVERED, from which it is silent. *)
Theorem failure_announced_except (cur : ServiceState) (failed degraded : bool)
    (verified : option bool) (blocked closed : bool) :
  next_state cur failed degraded verified blocked closed = FAILED -> cur <> FAILED ->
  match cur with
  | STARTING | RECOVERED => event_for_transition cur FAILED = None
  | VERIFYING => event_for_transition cur FAILED = Some EV_RECOVERY_FAILED
  | _ => event_for_transition cur FAILED = Some EV_FAILURE
  end.
Proof.
  destruct cur, failed, degraded, blocked, closed, verified as [[]|]; vm_compute; intros; done.
Qed.

(** A degraded check still recovers a service that a verification confirms. *)
Lemma serving_is_honest_witness :
  exists verified, next_state VERIFYING true true verified false false = RECOVERED
    /\ ((true = false /\ true = false) \/ (VERIFYING = VERIFYING /\ verified = Some true)).
Proof.
  exists (Some true). split; [reflexivity|].
  apply (serving_is_honest VERIFYING true true (Some true) false false). reflexivity.
Defined.

Lemma market_close_clears_block_witness :
  next_state TRADING_BLOCKED true false None true true = MARKET_CLOSED.
Proof. apply (market_close_clears_block TRADING_BLOCKED false None false). by left. Defined.

Lemma failure_announced_except_witness : event_for_transition STARTING FAILED = None.
Proof.
  apply (failure_announced_except STARTING true false None false false); [by vm_compute|done].
Defined.
