(* ===== verification/WatchdogDaemon.v ===== *)
(** * The watchdog's poll: [services/watchdog/recovery_store.py] and the
    service checks of [services/watchdog/daemon.py]

    Instants are microseconds since the epoch.  One poll of one service reads
    the clock several times within moments; the model takes one reading per
    poll.  The wall-clock time of New York comes from the time zone database:
    it is a parameter. *)

From S2P Require Import Prelude PyTime Watchdog.

#[local] Open Scope Z_scope.
#[local] Open Scope py_scope.

(** ** The persisted recovery budget *)

(** The file: absent, unreadable, or its lists of timestamps, where an entry
    that does not parse is [None]. *)
Inductive BudgetFile : Type :=
  | Absent
  | Unreadable
  | Entries (services : gmap string (list (option Z))).

Record RecoveryBudgetStore : Type := { st_file : BudgetFile; st_corrupted : bool }.

Definition sixty : Z := 60 * second.

(** The inner loop of [load]: the accepted timestamps, and whether an entry
    was dropped. *)
Fixpoint load_entries (now : Z) (l : list (option Z)) : list Z * bool :=
  match l with
  | [] => ([], false)
  | e :: l =>
      let (parsed, bad) := load_entries now l in
      match e with
      | None => (parsed, true)
      | Some dt => if now + sixty <? dt then (parsed, true) else (dt :: parsed, bad)
      end
  end.

Definition load (now : Z) (s : RecoveryBudgetStore)
    : RecoveryBudgetStore * gmap string (list Z) :=
  match st_file s with
  | Absent => (s, ∅)
  | Unreadable => ({| st_file := st_file s; st_corrupted := true |}, ∅)
  | Entries m =>
      let bad := existsb (fun kv => snd (load_entries now kv.2)) (map_to_list m) in
      ({| st_file := st_file s; st_corrupted := st_corrupted s || bad |},
       (fun l => fst (load_entries now l)) <$> m)
  end.

(** [save]: an atomic replacement of the file, or an exception that leaves it
    as it was. *)
Definition save (write_ok : bool) (state : gmap string (list Z)) (s : RecoveryBudgetStore)
    : result RecoveryBudgetStore :=
  if write_ok
  then Ok {| st_file := Entries (map Some <$> state); st_corrupted := st_corrupted s |}
  else Raise (OtherError "OSError").

Definition get_attempts (now : Z) (s : RecoveryBudgetStore) (service : string)
    : RecoveryBudgetStore * list Z :=
  let (s, state) := load now s in (s, default [] (state !! service)).

Definition add_attempt (now : Z) (write_ok : bool) (s : RecoveryBudgetStore) (service : string)
    : result RecoveryBudgetStore :=
  let (s, state) := load now s in
  save write_ok (<[service := default [] (state !! service) ++ [now]]> state) s.

Definition recent_attempts (now window : Z) (l : list Z) : list Z :=
  List.filter (fun dt => (now - window <? dt) && (dt <=? now + sixty)) l.

Definition is_exhausted (now : Z) (s : RecoveryBudgetStore) (service : string)
    (max_attempts window : Z) : RecoveryBudgetStore * bool :=
  if st_corrupted s then (s, true)
  else
    let (s, attempts) := get_attempts now s service in
    (s, max_attempts <=? Z.of_nat (length (recent_attempts now window attempts))).

(** ** The daemon's state *)
Record HealthResult : Type := {
  hr_status : HealthStatus;
  hr_reason : option string;
  hr_detail : string;
  hr_underlying_error : option string
}.

Record ServiceSnapshot : Type := {
  sn_state : ServiceState;
  sn_last_health : option HealthResult;
  sn_last_transition_at : Z;
  sn_consecutive_failures : Z;
  sn_consecutive_successes : Z;
  sn_recovery_attempts : list Z;
  sn_last_recovery_at : option Z;
  sn_recovery_failed_count : Z;
  sn_failure_reason : string
}.

Record WatchdogSettings : Type := {
  recovery_max_attempts : Z;
  recovery_window : Z;                (* microseconds *)
  market_closed_enabled : bool
}.

Record Daemon : Type := {
  d_settings : WatchdogSettings;
  d_snapshots : gmap string ServiceSnapshot;
  d_store : RecoveryBudgetStore;
  d_safety_blocked : bool
}.

Definition new_snapshot (now : Z) : ServiceSnapshot := {|
  sn_state := UNKNOWN; sn_last_health := None; sn_last_transition_at := now;
  sn_consecutive_failures := 0; sn_consecutive_successes := 0; sn_recovery_attempts := [];
  sn_last_recovery_at := None; sn_recovery_failed_count := 0; sn_failure_reason := EmptyString |}.

Definition set_state (s : ServiceState) (sn : ServiceSnapshot) : ServiceSnapshot := {|
  sn_state := s; sn_last_health := sn_last_health sn;
  sn_last_transition_at := sn_last_transition_at sn;
  sn_consecutive_failures := sn_consecutive_failures sn;
  sn_consecutive_successes := sn_consecutive_successes sn;
  sn_recovery_attempts := sn_recovery_attempts sn; sn_last_recovery_at := sn_last_recovery_at sn;
  sn_recovery_failed_count := sn_recovery_failed_count sn;
  sn_failure_reason := sn_failure_reason sn |}.
Definition set_health (hr : HealthResult) (fails succs : Z) (reason : string)
    (sn : ServiceSnapshot) : ServiceSnapshot := {|
  sn_state := sn_state sn; sn_last_health := Some hr;
  sn_last_transition_at := sn_last_transition_at sn; sn_consecutive_failures := fails;
  sn_consecutive_successes := succs; sn_recovery_attempts := sn_recovery_attempts sn;
  sn_last_recovery_at := sn_last_recovery_at sn;
  sn_recovery_failed_count := sn_recovery_failed_count sn; sn_failure_reason := reason |}.
Definition set_attempts (l : list Z) (last : option Z) (sn : ServiceSnapshot)
    : ServiceSnapshot := {|
  sn_state := sn_state sn; sn_last_health := sn_last_health sn;
  sn_last_transition_at := sn_last_transition_at sn;
  sn_consecutive_failures := sn_consecutive_failures sn;
  sn_consecutive_successes := sn_consecutive_successes sn; sn_recovery_attempts := l;
  sn_last_recovery_at := last; sn_recovery_failed_count := sn_recovery_failed_count sn;
  sn_failure_reason := sn_failure_reason sn |}.
Definition set_transition (s : ServiceState) (now : Z) (sn : ServiceSnapshot)
    : ServiceSnapshot :=
  let cleared := match s with HEALTHY | RECOVERED => true | _ => false end in {|
  sn_state := s; sn_last_health := sn_last_health sn; sn_last_transition_at := now;
  sn_consecutive_failures := sn_consecutive_failures sn;
  sn_consecutive_successes := sn_consecutive_successes sn;
  sn_recovery_attempts := sn_recovery_attempts sn; sn_last_recovery_at := sn_last_recovery_at sn;
  sn_recovery_failed_count := if cleared then 0 else sn_recovery_failed_count sn;
  sn_failure_reason := if cleared then EmptyString else sn_failure_reason sn |}.

Definition with_snapshot (svc : ServiceName) (sn : ServiceSnapshot) (d : Daemon) : Daemon := {|
  d_settings := d_settings d; d_snapshots := <[service_value svc := sn]> (d_snapshots d);
  d_store := d_store d; d_safety_blocked := d_safety_blocked d |}.
Definition with_store (s : RecoveryBudgetStore) (d : Daemon) : Daemon := {|
  d_settings := d_settings d; d_snapshots := d_snapshots d; d_store := s;
  d_safety_blocked := d_safety_blocked d |}.

Section Poll.
(** The wall clock of America/New_York at an instant, in microseconds. *)
Variable new_york : Z -> Z.

Definition SESSION_START : Z := (9 * 3600 + 30 * 60) * second.
Definition SESSION_END : Z := 16 * 3600 * second.

Definition is_trading_session (now : Z) : bool :=
  let now_et := new_york now in
  if 5 <=? weekday (now_et / day_us) then false
  else (SESSION_START <=? now_et mod day_us) && (now_et mod day_us <? SESSION_END).

Definition is_market_closed_for (svc : ServiceName) (now : Z) : bool :=
  match svc with GATEWAY | WEBHOOK => negb (is_trading_session now) | _ => false end.

Definition is_recovery_budget_exhausted (now : Z) (svc : ServiceName) (sn : ServiceSnapshot)
    (d : Daemon) : Daemon * bool :=
  let cfg := d_settings d in
  if st_corrupted (d_store d) then (d, true)
  else if recovery_max_attempts cfg <=?
            Z.of_nat (length (recent_attempts now (recovery_window cfg) (sn_recovery_attempts sn)))
  then (d, true)
  else
    let (s, b) := is_exhausted now (d_store d) (service_value svc) (recovery_max_attempts cfg)
                    (recovery_window cfg) in (with_store s d, b).

(** Recording an attempt and persisting all of them; a failing write is
    logged. *)
Definition record_attempt (now : Z) (write_ok : bool) (svc : ServiceName) (sn : ServiceSnapshot)
    (d : Daemon) : Daemon * ServiceSnapshot :=
  let sn := set_attempts (sn_recovery_attempts sn ++ [now]) (Some now) sn in
  let d := with_snapshot svc sn d in
  match save write_ok (sn_recovery_attempts <$> d_snapshots d) (d_store d) with
  | Ok s => (with_store s d, sn)
  | Raise _ => (d, sn)
  end.

(** Outside of the session the backend's missing broker connection is
    expected. *)
Definition backend_expected (svc : ServiceName) (hr : HealthResult) (now : Z) (d : Daemon)
    : bool :=
  bool_decide (svc = BACKEND) && bool_decide (hr_status hr = HS_DEGRADED)
  && (market_closed_enabled (d_settings d) && negb (is_trading_session now))
  && (let reason := str_lower (opt_str (hr_reason hr)) in
      let detail := str_lower (hr_detail hr) in
      let underlying := str_lower (opt_str (hr_underlying_error hr)) in
      (reason =? "readiness_failed")%string || (reason =? "readiness_degraded")%string
      || (reason =? "tws_disconnected")%string || str_in "tws" detail || str_in "tws" underlying
      || str_in "readiness" detail || str_in "readiness" underlying).

Definition adjust_health (svc : ServiceName) (hr : HealthResult) (now : Z) (d : Daemon)
    : HealthResult :=
  if backend_expected svc hr now d
  then {| hr_status := HS_HEALTHY; hr_reason := Some "healthy_market_closed"%string;
          hr_detail := "Healthy (market closed, TWS expected unavailable)";
          hr_underlying_error := None |}
  else hr.

(** The counters and the failure reason after a check. *)
Definition count_health (hr : HealthResult) (sn : ServiceSnapshot) : ServiceSnapshot :=
  match hr_status hr with
  | HS_FAILED =>
      set_health hr (sn_consecutive_failures sn + 1) 0
        (str_or (opt_str (hr_underlying_error hr)) (hr_detail hr)) sn
  | HS_DEGRADED => set_health hr (sn_consecutive_failures sn + 1) 0 (sn_failure_reason sn) sn
  | _ =>
      let succs := sn_consecutive_successes sn + 1 in
      set_health hr (if 1 <=? succs then 0 else sn_consecutive_failures sn) succs
        (sn_failure_reason sn) sn
  end.

Definition closed_reason : string :=
  "outside trading window 09:30-16:00 ET (market closed) - service intentionally stopped".

(** The state the machine proposes, before the recovery budget. *)
Definition proposed_state (sn : ServiceSnapshot) (failed degraded closed : bool) : ServiceState :=
  let effective_degraded :=
    if degraded && negb failed && bool_decide (sn_state sn = HEALTHY)
       && (sn_consecutive_failures sn <? 2) then false else degraded in
  let nxt := next_state (sn_state sn) failed effective_degraded None false closed in
  if closed && failed
     && (match nxt with FAILED | RECOVERING | VERIFYING => true | _ => false end)
  then MARKET_CLOSED else nxt.

(** FAILED on two polls in a row: recover, or give up. *)
Definition budget_step (now : Z) (write_ok : bool) (svc : ServiceName) (nxt : ServiceState)
    (sn : ServiceSnapshot) (d : Daemon) : Daemon * ServiceSnapshot * ServiceState :=
  let prev := sn_state sn in
  let '(d, sn, nxt) :=
    if bool_decide (prev = FAILED) && bool_decide (nxt = FAILED) then
      let (d, exhausted) := is_recovery_budget_exhausted now svc sn d in
      if negb exhausted then
        let (d, sn) := record_attempt now write_ok svc sn d in (d, sn, RECOVERING)
      else (d, sn, MANUAL_INTERVENTION_REQUIRED)
    else (d, sn, nxt) in
  if bool_decide (prev = FAILED) && bool_decide (nxt = RECOVERING)
     && (match last (sn_recovery_attempts sn) with
         | None => true
         | Some t => second <? now - t
         end)
     && negb (match sn_last_recovery_at sn with
              | Some t => now - t <? second / 2
              | None => false
              end)
  then let (d, sn) := record_attempt now write_ok svc sn d in (d, sn, nxt)
  else (d, sn, nxt).

(** RECOVERING to VERIFYING to the outcome. *)
Definition verify_step (now : Z) (write_ok : bool) (svc : ServiceName) (nxt : ServiceState)
    (failed degraded : bool) (sn : ServiceSnapshot) (d : Daemon)
    : Daemon * ServiceSnapshot * ServiceState :=
  if bool_decide (nxt = VERIFYING) || bool_decide (sn_state sn = RECOVERING) then
    let verifying_success :=
      if negb failed && negb degraded && negb (d_safety_blocked d) then Some true
      else if failed then Some false else None in
    match sn_state sn with
    | RECOVERING =>
        if match sn_last_recovery_at sn with None => true | Some t => 2 * second <? now - t end
        then let (d, sn) := record_attempt now write_ok svc sn d in (d, sn, VERIFYING)
        else (d, sn, VERIFYING)
    | VERIFYING =>
        let nxt2 := next_state VERIFYING failed degraded verifying_success (d_safety_blocked d)
                      false in
        if bool_decide (nxt2 = FAILED) && bool_decide (verifying_success = Some false) then
          let (d, exhausted) := is_recovery_budget_exhausted now svc sn d in
          if exhausted then (d, sn, MANUAL_INTERVENTION_REQUIRED) else (d, sn, RECOVERING)
        else (d, sn, nxt2)
    | _ => (d, sn, nxt)
    end
  else (d, sn, nxt).

(** The event sent for the transition. *)
Definition poll_event (prev nxt : ServiceState) : option NotificationEvent :=
  match prev, nxt with
  | FAILED, RECOVERING => Some EV_RECOVERY_STARTED
  | FAILED, MANUAL_INTERVENTION_REQUIRED => Some EV_MANUAL_INTERVENTION_REQUIRED
  | _, TRADING_BLOCKED => Some EV_TRADING_BLOCKED
  | TRADING_BLOCKED, HEALTHY | TRADING_BLOCKED, RECOVERED => Some EV_RECOVERED
  | _, _ => event_for_transition prev nxt
  end.

(** [_check_one]: [check] is the checker's result, or the text of the
    exception it raised; the event is what the notifier is given. *)
Definition check_one (svc : ServiceName) (check : HealthResult + string) (now : Z)
    (write_ok : bool) (d : Daemon) : Daemon * option NotificationEvent :=
  let sn := default (new_snapshot now) (d_snapshots d !! service_value svc) in
  let prev := sn_state sn in
  let hr := match check with
            | inl hr => hr
            | inr exc => {| hr_status := HS_FAILED; hr_reason := None;
                            hr_detail := ("checker exception: " ++ exc)%string;
                            hr_underlying_error := None |}
            end in
  let hr := adjust_health svc hr now d in
  let failed := bool_decide (hr_status hr = HS_FAILED) in
  let degraded := bool_decide (hr_status hr = HS_DEGRADED) in
  let sn := count_health hr sn in
  let closed := market_closed_enabled (d_settings d) && is_market_closed_for svc now in
  let sn := if closed && failed
            then set_health hr (sn_consecutive_failures sn) (sn_consecutive_successes sn)
                   closed_reason sn
            else sn in
  let nxt := proposed_state sn failed degraded closed in
  let '(d, sn, nxt) := budget_step now write_ok svc nxt sn d in
  let '(d, sn, nxt) := verify_step now write_ok svc nxt failed degraded sn d in
  if bool_decide (nxt = prev) then (with_snapshot svc sn d, None)
  else (with_snapshot svc (set_transition nxt now sn) d, poll_event prev nxt).

(** [_loop] before its first poll. *)
Definition start_loop (d : Daemon) : Daemon := {|
  d_settings := d_settings d;
  d_snapshots := (fun sn => match sn_state sn with
                            | UNKNOWN => set_state STARTING sn
                            | _ => sn
                            end) <$> d_snapshots d;
  d_store := d_store d; d_safety_blocked := d_safety_blocked d |}.

(** [_check_safety_gates]: [gate] is the verdict of the checker, [None] when
    it raised; the event is sent with [force]. *)
Definition check_safety_gates (gate : option bool) (now : Z) (d : Daemon)
    : Daemon * option NotificationEvent :=
  let set b := {| d_settings := d_settings d; d_snapshots := d_snapshots d;
                  d_store := d_store d; d_safety_blocked := b |} in
  if market_closed_enabled (d_settings d) && negb (is_trading_session now) then (d, None)
  else match gate with
       | None => (d, None)
       | Some false =>
           if negb (d_safety_blocked d) then (set true, Some EV_TRADING_BLOCKED) else (d, None)
       | Some true =>
           if d_safety_blocked d then (set false, Some EV_RECOVERED) else (d, None)
       end.
End Poll.

(** [MONITORED_SERVICES]. *)
Definition MONITORED_SERVICES : list ServiceName := [GATEWAY; BACKEND; WEBHOOK; DEMO; POSTGRES; REDIS].

(** [__init__]: the attempts are hydrated from the store. *)
Definition new_daemon (cfg : WatchdogSettings) (file : BudgetFile) (now : Z) : Daemon :=
  let (s, persisted) := load now {| st_file := file; st_corrupted := false |} in {|
    d_settings := cfg;
    d_snapshots := list_to_map (map (fun svc =>
      (service_value svc,
       set_attempts (default [] (persisted !! service_value svc)) None (new_snapshot now)))
      MONITORED_SERVICES);
    d_store := s; d_safety_blocked := false |}.

(** ** A service that stays down *)
Section Failing.
Variable new_york : Z -> Z.

(** What one poll with a failed check does to the state, the recorded
    attempts and the instant of the last one, while the market is open and the
    safety gates do not block. *)
Inductive fails_to (limit window now : Z)
    : ServiceState * list Z * option Z -> ServiceState * list Z * option Z -> Prop :=
  | fails_new s l o :
      s <> FAILED -> s <> RECOVERING -> s <> VERIFYING -> s <> MANUAL_INTERVENTION_REQUIRED ->
      s <> TRADING_BLOCKED -> fails_to limit window now (s, l, o) (FAILED, l, o)
  | fails_give_up s l o :
      s = FAILED \/ s = VERIFYING ->
      fails_to limit window now (s, l, o) (MANUAL_INTERVENTION_REQUIRED, l, o)
  | fails_recover l o :
      Z.of_nat (length (recent_attempts now window l)) < limit ->
      fails_to limit window now (FAILED, l, o) (RECOVERING, l ++ [now], Some now)
  | fails_again l o :
      Z.of_nat (length (recent_attempts now window l)) < limit ->
      fails_to limit window now (VERIFYING, l, o) (RECOVERING, l, o)
  | fails_verify l t :
      now - t <= 2 * second ->
      fails_to limit window now (RECOVERING, l, Some t) (VERIFYING, l, Some t)
  | fails_verify_record l o :
      (match o with None => True | Some t => 2 * second < now - t end) ->
      fails_to limit window now (RECOVERING, l, o) (VERIFYING, l ++ [now], Some now)
  | fails_stay s l o :
      s = MANUAL_INTERVENTION_REQUIRED \/ s = TRADING_BLOCKED ->
      fails_to limit window now (s, l, o) (s, l, o).

Definition view (sn : ServiceSnapshot) : ServiceState * list Z * option Z :=
  (sn_state sn, sn_recovery_attempts sn, sn_last_recovery_at sn).

Definition failed_check (check : HealthResult + string) : Prop :=
  match check with inl hr => hr_status hr = HS_FAILED | inr _ => True end.

(** Recording an attempt: only the store, the snapshots and the attempts
    change. *)
Lemma record_attempt_spec now ok svc sn d :
  let r := record_attempt now ok svc sn d in
  d_settings (fst r) = d_settings d /\ d_safety_blocked (fst r) = d_safety_blocked d /\
  snd r = set_attempts (sn_recovery_attempts sn ++ [now]) (Some now) sn.
Proof. unfold record_attempt, save. by destruct ok. Qed.

Lemma exhausted_spec now svc sn d :
  let r := is_recovery_budget_exhausted now svc sn d in
  d_settings (fst r) = d_settings d /\ d_safety_blocked (fst r) = d_safety_blocked d /\
  (snd r = false ->
   st_corrupted (d_store d) = false /\
   Z.of_nat (length (recent_attempts now (recovery_window (d_settings d))
     (sn_recovery_attempts sn))) < recovery_max_attempts (d_settings d)).
Proof.
  unfold is_recovery_budget_exhausted. destruct (st_corrupted (d_store d)); [done|].
  destruct (_ <=? _) eqn:E; [done|]. bool_to_prop.
  destruct (is_exhausted _ _ _ _ _) as [s b]. simpl. auto.
Qed.

Lemma view_count_health hr sn : view (count_health hr sn) = view sn.
Proof. unfold count_health. by destruct (hr_status hr). Qed.

(** The two steps that follow the machine's proposal, on a failed check. *)
Definition after_proposal (now : Z) (ok : bool) (svc : ServiceName) (sn : ServiceSnapshot)
    (d : Daemon) : Daemon * ServiceSnapshot * ServiceState :=
  let '(d, sn, nxt) :=
    budget_step now ok svc (next_state (sn_state sn) true false None false false) sn d in
  verify_step now ok svc nxt true false sn d.

Lemma after_proposal_fails now ok svc sn d :
  d_safety_blocked d = false ->
  let '(d', sn', nxt) := after_proposal now ok svc sn d in
  sn_state sn' = sn_state sn /\ d_settings d' = d_settings d /\ d_safety_blocked d' = false /\
  fails_to (recovery_max_attempts (d_settings d)) (recovery_window (d_settings d)) now
    (view sn) (nxt, sn_recovery_attempts sn', sn_last_recovery_at sn').
Proof.
  intros Hs. unfold after_proposal, budget_step, verify_step, view.
  pose proof (exhausted_spec now svc sn d) as (E1 & E2 & E3).
  pose proof (record_attempt_spec now ok svc sn) as R.
  destruct (sn_state sn) eqn:Es; simpl; rewrite ?Es; simpl;
    try (split_and!; [done|done|done|constructor; by auto]).
  - destruct (is_recovery_budget_exhausted now svc sn d) as [d1 [|]]; simpl in *.
    { rewrite ?Es. simpl. split_and!; [done|done|congruence|]. apply fails_give_up. by left. }
    destruct (E3 eq_refl) as [_ Hlt].
    destruct (R d1) as (R1 & R2 & R3). destruct (record_attempt now ok svc sn d1) as [d2 sn2].
    simpl in R1, R2, R3. subst sn2. simpl. rewrite last_snoc.
    destruct (Z.ltb_spec second (now - now)) as [H|_]; [unfold second in H; lia|]. simpl.
    rewrite Es. simpl. split_and!; [done|congruence|congruence|]. by apply fails_recover.
  - assert (Hrec : match sn_last_recovery_at sn with None => True | Some t => 2 * second < now - t end ->
      let '(d', sn', nxt) := (let (d, sn) := record_attempt now ok svc sn d in (d, sn, VERIFYING)) in
      sn_state sn' = RECOVERING /\ d_settings d' = d_settings d /\ d_safety_blocked d' = false /\
      fails_to (recovery_max_attempts (d_settings d)) (recovery_window (d_settings d)) now
        (RECOVERING, sn_recovery_attempts sn, sn_last_recovery_at sn)
        (nxt, sn_recovery_attempts sn', sn_last_recovery_at sn')).
    { intros H. destruct (R d) as (R1 & R2 & R3).
      destruct (record_attempt now ok svc sn d) as [d2 sn2]. simpl in R1, R2, R3. subst sn2.
      simpl. split_and!; [done|congruence|congruence|]. by apply fails_verify_record. }
    destruct (sn_last_recovery_at sn) as [t|] eqn:Et; [|by apply Hrec].
    destruct (2 * second <? now - t) eqn:E; bool_to_prop; [by apply Hrec|].
    rewrite Et. split_and!; [done|done|done|]. by apply fails_verify.
  - rewrite Hs. simpl. destruct (is_recovery_budget_exhausted now svc sn d) as [d1 [|]]; simpl in *.
    + split_and!; [done|done|congruence|]. apply fails_give_up. by right.
    + destruct (E3 eq_refl) as [_ Hlt]. split_and!; [done|done|congruence|]. by apply fails_again.
Qed.

Lemma check_failing svc check now ok d sn :
  failed_check check -> d_snapshots d !! service_value svc = Some sn ->
  d_safety_blocked d = false ->
  market_closed_enabled (d_settings d) && is_market_closed_for new_york svc now = false ->
  let d' := fst (check_one new_york svc check now ok d) in
  d_settings d' = d_settings d /\ d_safety_blocked d' = false /\
  exists sn', d_snapshots d' !! service_value svc = Some sn' /\
    fails_to (recovery_max_attempts (d_settings d)) (recovery_window (d_settings d)) now
      (view sn) (view sn').
Proof.
  intros Hf Hsn Hs Hc. unfold check_one. rewrite Hsn, Hc.
  change (default (new_snapshot now) (Some sn)) with sn.
  set (hr := match check with inl hr => hr | inr _ => _ end).
  assert (Hhr : hr_status hr = HS_FAILED) by (destruct check; simpl in *; done).
  assert (Ha : adjust_health new_york svc hr now d = hr).
  { unfold adjust_health, backend_expected. rewrite Hhr.
    by rewrite (bool_decide_eq_false_2 (HS_FAILED = HS_DEGRADED)), andb_false_r by done. }
  rewrite Ha, Hhr. rewrite bool_decide_eq_true_2 by done.
  rewrite (bool_decide_eq_false_2 (HS_FAILED = HS_DEGRADED)) by done.
  set (sn1 := count_health hr sn). cbn [andb].
  pose proof (view_count_health hr sn) as Hv. fold sn1 in Hv.
  unfold proposed_state. cbn [andb].
  pose proof (after_proposal_fails now ok svc sn1 d Hs) as H. unfold after_proposal in H.
  destruct (budget_step _ _ _ _ _ _) as [[d1 sn2] n1].
  destruct (verify_step _ _ _ _ _ _ _ _) as [[d2 sn3] nxt].
  destruct H as (H0 & H1 & H2 & H3). rewrite Hv in H3.
  assert (Hst : sn_state sn1 = sn_state sn) by (unfold view in Hv; congruence).
  destruct (bool_decide (nxt = sn_state sn)) eqn:En; bool_to_prop; cbn [fst];
    (split; [exact H1|split; [exact H2|]]); eexists; (split; [apply lookup_insert_eq|]).
  - unfold view at 2. rewrite H0, Hst, <- En. exact H3.
  - exact H3.
Qed.

Lemma fails_to_recovering limit window now l o l' o' :
  fails_to limit window now (FAILED, l, o) (RECOVERING, l', o') ->
  l' = l ++ [now] /\ o' = Some now.
Proof. by inversion 1. Qed.

Lemma fails_from_recovering limit window now l t s l' o' :
  fails_to limit window now (RECOVERING, l, Some t) (s, l', o') -> 2 * second < now - t ->
  s = VERIFYING /\ l' = l ++ [now].
Proof.
  inversion 1; subst; intros; try done; try lia;
    match goal with H : _ \/ _ |- _ => by destruct H end.
Qed.

(** *** Polls in a row *)
Record Poll : Type := { po_now : Z; po_check : HealthResult + string; po_write_ok : bool }.

Fixpoint run_polls (svc : ServiceName) (polls : list Poll) (d : Daemon) : Daemon :=
  match polls with
  | [] => d
  | p :: polls =>
      run_polls svc polls (fst (check_one new_york svc (po_check p) (po_now p) (po_write_ok p) d))
  end.











End Failing.


(** The recovery budget fails closed: when the persisted budget was found
    corrupt, a poll never starts a recovery from FAILED: a service that is
    still down goes to MANUAL_INTERVENTION_REQUIRED, and reading an unreadable
    file is what marks the budget as corrupt. *)
Theorem corrupt_budget_fails_closed (new_york : Z -> Z) (svc : ServiceName)
    (check : HealthResult + string) (now : Z) (ok : bool) (d : Daemon) (sn : ServiceSnapshot)
    (cfg : WatchdogSettings) :
  failed_check check -> d_snapshots d !! service_value svc = Some sn -> sn_state sn = FAILED ->
  d_safety_blocked d = false -> st_corrupted (d_store d) = true ->
  market_closed_enabled (d_settings d) && is_market_closed_for new_york svc now = false ->
  (exists sn', d_snapshots (fst (check_one new_york svc check now ok d)) !! service_value svc
                = Some sn' /\ sn_state sn' = MANUAL_INTERVENTION_REQUIRED) /\
  st_corrupted (d_store (new_daemon cfg Unreadable now)) = true.
Proof.
  intros Hf Hsn Hst Hs Hco Hc. split; [|done].
  unfold check_one. rewrite Hsn, Hc.
  change (default (new_snapshot now) (Some sn)) with sn.
  set (hr := match check with inl hr => hr | inr _ => _ end).
  assert (Hhr : hr_status hr = HS_FAILED) by (destruct check; simpl in *; done).
  assert (Ha : adjust_health new_york svc hr now d = hr).
  { unfold adjust_health, backend_expected. rewrite Hhr.
    by rewrite (bool_decide_eq_false_2 (HS_FAILED = HS_DEGRADED)), andb_false_r by done. }
  rewrite Ha, Hhr. unfold count_health. rewrite Hhr. unfold proposed_state, budget_step. simpl.
  rewrite Hst. simpl. unfold is_recovery_budget_exhausted. rewrite Hco. simpl.
  unfold verify_step. simpl. rewrite Hst. simpl. eexists. split; [apply lookup_insert_eq|done].
Qed.

(** A recovery cycle costs two attempts: with polls more than two seconds
    apart, the poll that moves FAILED to RECOVERING records an attempt and the
    next poll, which moves RECOVERING to VERIFYING, records another one for
    the same cycle. *)
Theorem recovery_counted_twice (new_york : Z -> Z) (svc : ServiceName) (p q : Poll) (d : Daemon)
    (sn : ServiceSnapshot) (sn' : ServiceSnapshot) :
  failed_check (po_check p) -> failed_check (po_check q) ->
  market_closed_enabled (d_settings d) = false -> d_safety_blocked d = false ->
  d_snapshots d !! service_value svc = Some sn -> sn_state sn = FAILED ->
  2 * second < po_now q - po_now p ->
  let d1 := run_polls new_york svc [p] d in
  let d2 := run_polls new_york svc [p; q] d in
  d_snapshots d1 !! service_value svc = Some sn' -> sn_state sn' = RECOVERING ->
  exists sn'', d_snapshots d2 !! service_value svc = Some sn'' /\ sn_state sn'' = VERIFYING /\
    sn_recovery_attempts sn'' = sn_recovery_attempts sn ++ [po_now p; po_now q].
Proof.
  intros Hp Hq Hm Hs Hsn Hst Hgap d1 d2 Hsn' Hst'. unfold d1, d2 in *. cbn [run_polls] in *.
  assert (Hc : market_closed_enabled (d_settings d) && is_market_closed_for new_york svc (po_now p)
               = false) by (by rewrite Hm).
  destruct (check_failing new_york svc _ _ (po_write_ok p) d sn Hp Hsn Hs Hc)
    as (D1 & D2 & sn1 & H1 & Hs1).
  set (da := fst (check_one _ _ _ _ _ _)) in *. rewrite Hsn' in H1. injection H1 as <-.
  assert (Hc2 : market_closed_enabled (d_settings da) && is_market_closed_for new_york svc (po_now q)
               = false) by (by rewrite D1, Hm).
  destruct (check_failing new_york svc _ _ (po_write_ok q) da sn' Hq Hsn' D2 Hc2)
    as (_ & _ & sn2 & H2 & Hs2).
  exists sn2. split; [exact H2|]. unfold view in *. rewrite Hst, Hst' in Hs1. rewrite Hst' in Hs2.
  apply fails_to_recovering in Hs1 as [E1 E2]. rewrite E1, E2 in Hs2.
  destruct (fails_from_recovering _ _ _ _ _ _ _ _ Hs2 Hgap) as [-> ->].
  by rewrite <- app_assoc.
Qed.

(** After hours a recovery goes on: a gateway that is RECOVERING when the
    market closes and is found down is moved to VERIFYING, and an attempt is
    recorded when the last one is more than two seconds old, although a service
    that is down after hours is meant to be MARKET_CLOSED without recovery
    attempts. *)
Theorem closed_market_keeps_recovering (new_york : Z -> Z) (hr : HealthResult) (now t : Z)
    (ok : bool) (d : Daemon) (sn : ServiceSnapshot) :
  hr_status hr = HS_FAILED -> d_snapshots d !! service_value GATEWAY = Some sn ->
  sn_state sn = RECOVERING -> sn_last_recovery_at sn = Some t -> 2 * second < now - t ->
  market_closed_enabled (d_settings d) = true -> is_trading_session new_york now = false ->
  exists sn', d_snapshots (fst (check_one new_york GATEWAY (inl hr) now ok d))
                !! service_value GATEWAY = Some sn' /\
    sn_state sn' = VERIFYING /\ sn_recovery_attempts sn' = sn_recovery_attempts sn ++ [now].
Proof.
  intros Hf Hsn Hst Ht Hgap Hm Hc. unfold check_one. rewrite Hsn, Hm.
  change (default (new_snapshot now) (Some sn)) with sn.
  unfold adjust_health, backend_expected, is_market_closed_for. rewrite Hc.
  rewrite (bool_decide_eq_false_2 (GATEWAY = BACKEND)) by done. cbn [andb].
  unfold count_health. rewrite Hf. unfold proposed_state, budget_step. simpl.
  rewrite Hst. simpl. unfold verify_step. simpl. rewrite Hst. simpl. rewrite Ht.
  destruct (Z.ltb_spec (2 * second) (now - t)) as [_|H]; [|lia].
  unfold record_attempt, save. destruct ok; simpl;
    (eexists; split; [apply lookup_insert_eq|done]).
Qed.

(** ** The budget file *)

(** Round trip: attempts that are saved and lie at most a minute in the
    future are loaded again as they were, and a later failing write leaves the
    file as it is. *)
Theorem save_load_roundtrip (s s' : RecoveryBudgetStore) (state : gmap string (list Z)) (now : Z) :
  map_Forall (fun _ l => Forall (fun dt => dt <= now + sixty) l) state ->
  save true state s = Ok s' ->
  load now s' = (s', state) /\ save false ∅ s' = Raise (OtherError "OSError").
Proof.
  intros Hs [= <-]. split; [|done]. unfold load. simpl.
  assert (He : forall l, Forall (fun dt => dt <= now + sixty) l ->
                 load_entries now (map Some l) = (l, false)).
  { induction 1 as [|x l Hx Hl IH]; simpl; [done|]. rewrite IH.
    by destruct (Z.ltb_spec (now + sixty) x); [lia|]. }
  assert (Hbad : existsb (fun kv => snd (load_entries now kv.2))
                   (map_to_list (map Some <$> state)) = false).
  { apply not_true_iff_false. intros ([k l] & Hin & Hb)%existsb_exists.
    apply list_elem_of_In, elem_of_map_to_list in Hin.
    rewrite lookup_fmap in Hin. destruct (state !! k) as [l'|] eqn:E; [|done].
    injection Hin as <-. simpl in Hb. rewrite He in Hb; [done|]. exact (Hs k l' E). }
  rewrite Hbad, orb_false_r. f_equal. rewrite <- map_fmap_compose.
  apply map_eq. intros k. rewrite lookup_fmap. destruct (state !! k) as [l|] eqn:E; [|done].
  simpl. f_equal. by rewrite (He l (Hs k l E)).
Qed.

(** ** Concrete polls *)
Definition ex_cfg : WatchdogSettings := {|
  recovery_max_attempts := 2; recovery_window := 600 * second; market_closed_enabled := false |}.
Definition ex_daemon : Daemon := start_loop (new_daemon ex_cfg Absent 0).
Definition down : HealthResult + string := inr "refused"%string.
Definition ex_poll (s : Z) : Poll := {| po_now := s * second; po_check := down; po_write_ok := true |}.
Definition utc : Z -> Z := fun t => t.



Definition ex_failed : Daemon := run_polls utc DEMO [ex_poll 10] ex_daemon.
Definition ex_snapshot_of (d : Daemon) : ServiceSnapshot :=
  default (new_snapshot 0) (d_snapshots d !! "demo"%string).

Lemma corrupt_budget_fails_closed_witness :
  exists sn', d_snapshots (fst (check_one utc DEMO down (20 * second) true
      (with_store {| st_file := Absent; st_corrupted := true |} ex_failed))) !! "demo"%string
    = Some sn' /\ sn_state sn' = MANUAL_INTERVENTION_REQUIRED.
Proof.
  refine (proj1 (corrupt_budget_fails_closed utc DEMO down (20 * second) true
    (with_store {| st_file := Absent; st_corrupted := true |} ex_failed)
    (ex_snapshot_of ex_failed) ex_cfg _ _ _ _ _ _)); by vm_compute.
Defined.

Lemma recovery_counted_twice_witness :
  exists sn'', d_snapshots (run_polls utc DEMO [ex_poll 20; ex_poll 30] ex_failed) !! "demo"%string
    = Some sn'' /\ sn_state sn'' = VERIFYING /\
    sn_recovery_attempts sn'' = [] ++ [20 * second; 30 * second].
Proof.
  refine (recovery_counted_twice utc DEMO (ex_poll 20) (ex_poll 30) ex_failed
    (ex_snapshot_of ex_failed) (ex_snapshot_of (run_polls utc DEMO [ex_poll 20] ex_failed))
    _ _ _ _ _ _ _ _ _); by vm_compute.
Defined.

Lemma save_load_roundtrip_witness :
  load 100 {| st_file := Entries (map Some <$> {["demo"%string := [1; 2]]}); st_corrupted := false |}
  = ({| st_file := Entries (map Some <$> {["demo"%string := [1; 2]]}); st_corrupted := false |},
     {["demo"%string := [1; 2]]}).
Proof.
  apply (save_load_roundtrip {| st_file := Absent; st_corrupted := false |} _
    {["demo"%string := [1; 2]]} 100); [|reflexivity].
  apply map_Forall_singleton. unfold sixty, second. repeat constructor; lia.
Defined.

Definition ex_closing : Daemon :=
  {| d_settings := {| recovery_max_attempts := 5; recovery_window := 600 * second;
                      market_closed_enabled := true |};
     d_snapshots := {["gateway"%string := set_attempts [1] (Some 1) (set_state RECOVERING (new_snapshot 0))]};
     d_store := {| st_file := Absent; st_corrupted := false |}; d_safety_blocked := false |}.

Lemma closed_market_keeps_recovering_witness :
  exists sn', d_snapshots (fst (check_one utc GATEWAY
      (inl {| hr_status := HS_FAILED; hr_reason := None; hr_detail := "refused";
              hr_underlying_error := None |}) (10 * second) true ex_closing))
    !! "gateway"%string = Some sn' /\ sn_state sn' = VERIFYING /\
    sn_recovery_attempts sn' = [1] ++ [10 * second].
Proof.
  refine (closed_market_keeps_recovering utc _ (10 * second) 1 true ex_closing
    (set_attempts [1] (Some 1) (set_state RECOVERING (new_snapshot 0))) _ _ _ _ _ _ _);
    by vm_compute.
Defined.
