(* ===== verification/SafetyGates.v ===== *)
(** * The safety gates of the watchdog: [services/watchdog/safety.py]

    Five questions to the API decide whether trading may be called ready.  What
    a request is answered is given: no answer, or a status with a body that is
    JSON or is not.  The poll that uses the verdict is in [WatchdogDaemon.v]. *)

From S2P Require Import Prelude Rounding PyText PyTime Watchdog WatchdogDaemon.

#[local] Open Scope Q_scope.
#[local] Open Scope py_scope.

Inductive GateState : Type := SAFE | UNSAFE | UNKNOWN.
#[global] Instance GateState_eq_dec : EqDecision GateState.
Proof. solve_decision. Defined.
(** [None] for a body that is not JSON. *)
Inductive Answer : Type := NoAnswer (error : string) | Http (status_code : Z) (body : option json).
(** The pages asked for; the accounts are asked for twice. *)
Inductive Page : Type := SystemMonitor | Accounts (again : bool) | BasketsCritical (ibkr_account : json) | MarginAccounts.
Definition gate_text (g : GateState) : string :=
  match g with SAFE => "SAFE" | UNSAFE => "UNSAFE" | UNKNOWN => "UNKNOWN" end.
Record SafetyGateResult : Type := {
  sg_passed : bool; sg_failures : list string; sg_details : string; sg_gates : list (string * GateState) }.

(** [data.get(key, d)] of a JSON value. *)
Fixpoint jget_or (key : string) (d : json) (fields : list (string * json)) : json :=
  match fields with
  | [] => d
  | (k, v) :: rest => if String.eqb k key then v else jget_or key d rest
  end.
Definition get (v : json) (key : string) (d : json) : result json :=
  match v with JObj fields => Ok (jget_or key d fields) | _ => Raise AttributeError end.
Definition is_str (v : json) (s : string) : bool := match v with JStr t => String.eqb t s | _ => false end.
Lemma is_str_spec v s : is_str v s = true <-> v = JStr s.
Proof. destruct v; simpl; try by split. rewrite String.eqb_eq. split; congruence. Qed.
(** What a value iterates over. *)
Definition iterate (v : json) : result (list json) :=
  match v with
  | JList l => Ok l
  | JStr s => Ok (map (fun c => JStr (String c EmptyString)) (chars s))
  | JObj fields => Ok (map (fun x => JStr (fst x)) fields)
  | _ => Raise TypeError
  end.
Definition len (v : json) : result Z :=
  match v with
  | JStr s => Ok (Z.of_nat (String.length s))
  | JList l => Ok (Z.of_nat (length l))
  | JObj l => Ok (Z.of_nat (length l))
  | _ => Raise TypeError
  end.
Fixpoint collect {A} (f : json -> result (option A)) (l : list json) : result (list A) :=
  match l with
  | [] => Ok []
  | x :: l => let! o := f x in let! r := collect f l in Ok (match o with Some y => y :: r | None => r end)
  end.

Section Gates.
(** The text of an exception. *)
Variable error_text : exn -> string.
Variable ask : Page -> Answer.
Variable gateway_port : Z.

Definition body_of (b : option json) : result json := match b with Some v => Ok v | None => Raise (ValueError "JSON") end.
(** The state of a gate and its failures; an exception is one more. *)
Definition guarded (prefix : string) (a : Answer) (r : Z -> option json -> result (GateState * list string)) : GateState * list string :=
  match a with
  | NoAnswer e => (UNKNOWN, [prefix ++ e]%string)
  | Http code body =>
      match r code body with Ok x => x | Raise e => (UNKNOWN, [prefix ++ error_text e]%string) end
  end.

Definition critical_alert (a : json) : result (option string) :=
  let! level := get a "level" (JStr "") in
  let! component := get a "component" (JStr "") in
  let! message := get a "message" (JStr "") in
  Ok (if is_str level "CRITICAL" then Some ("system-monitor CRITICAL [" ++ py_str component ++ "]: " ++ py_str message)%string
      else None).
Definition system_monitor_gate : GateState * list string :=
  guarded "system-monitor unreachable: " (ask SystemMonitor) (fun code body =>
    if negb (code =? 200)%Z then Ok (UNSAFE, ["system-monitor HTTP " ++ str_Z code]%string)
    else
      let! data := body_of body in
      let! overall := get data "overall_status" (JStr "") in
      if is_str overall "CRITICAL" then
        let! alerts := get data "alerts" (JList []) in
        let! alerts := iterate alerts in
        let! failures := collect critical_alert alerts in
        Ok (UNSAFE, match failures with [] => ["system-monitor reported CRITICAL status"%string] | _ => failures end)
      else Ok (SAFE, [])).
(** [data.get("accounts", ...)]: a list has no [get]. *)
Definition accounts_of (data : json) : result (list json) :=
  let! v := get data "accounts" (JList []) in iterate v.
Definition armed_account (a : json) : result (option string) :=
  let! active := get a "kill_switch_active" JNull in
  if truthy active then
    let! ibkr := get a "ibkr_account" JNull in
    let! id := get a "id" JNull in
    Ok (Some (py_str (jor ibkr id)))
  else Ok None.
Definition kill_switch_gate : GateState * list string :=
  guarded "kill-switch check failed: " (ask (Accounts false)) (fun code body =>
    if negb (code =? 200)%Z then Ok (UNKNOWN, ["kill-switch check HTTP " ++ str_Z code]%string)
    else
      let! data := body_of body in
      let! accounts := accounts_of data in
      let! armed := collect armed_account accounts in
      Ok (match armed with
          | [] => (SAFE, [])
          | _ => (UNSAFE, ["kill switch ACTIVE for: " ++ String.concat ", " armed]%string)
          end)).
Definition ibkr_account_of (a : json) : result (option json) :=
  let! ibkr := get a "ibkr_account" JNull in Ok (if truthy ibkr then Some ibkr else None).
(** The accounts asked about; none when they cannot be read. *)
Definition ibkr_accounts : list json :=
  match ask (Accounts true) with
  | Http 200 body =>
      match (let! data := body_of body in let! l := accounts_of data in collect ibkr_account_of l) with
      | Ok l => l
      | Raise _ => []
      end
  | _ => []
  end.
(** One account: whether it has incidents, and the failures. *)
Definition critical_baskets (account : json) : bool * list string :=
  let failed (e : string) := ["baskets check for " ++ py_str account ++ " failed: " ++ e]%string in
  match ask (BasketsCritical account) with
  | NoAnswer e => (false, failed e)
  | Http code body =>
      if (code =? 200)%Z then
        match (let! data := body_of body in get data "incidents" (JList [])) with
        | Raise e => (false, failed (error_text e))
        | Ok incidents =>
            if truthy incidents then
              (true, match len incidents with
                     | Ok n => ["BASKET_CRITICAL for " ++ py_str account ++ ": " ++ str_Z n ++ " incident(s)"]%string
                     | Raise e => failed (error_text e)
                     end)
            else (false, [])
        end
      else if (code =? 404)%Z then (false, [])
      else (false, ["baskets/critical HTTP " ++ str_Z code ++ " for " ++ py_str account]%string)
  end.
Definition baskets_gate (before : list string) : GateState * list string :=
  match ibkr_accounts with
  | [] => (UNKNOWN, ["baskets check: cannot determine ibkr_accounts"%string])
  | l =>
      let answers := map critical_baskets l in
      let failures := concat (map snd answers) in
      (if existsb fst answers then UNSAFE
       else if existsb (str_in "baskets") (before ++ failures) then UNKNOWN else SAFE, failures)
  end.
Definition trading_mode_gate : GateState * list string :=
  if existsb (Z.eqb gateway_port) [4002; 7497; 7496; 4001]%Z then (SAFE, [])
  else (UNKNOWN, ["trading mode UNKNOWN: gateway port " ++ str_Z gateway_port ++ " not recognized"]%string).
Definition float_le (a b : pyfloat) : bool :=
  match a, b with
  | FNaN, _ | _, FNaN => false
  | FInf true, _ | _, FInf false => true
  | FInf false, _ | _, FInf true => false
  | FFin x, FFin y => x <=? y
  end.
(** The test of a margin: what is told when it is low, and when it cannot be read. *)
Definition row_test (low : result bool) (is_low unparsable : string) : result (option string) :=
  match low with
  | Ok b => Ok (if b then Some is_low else None)
  | Raise TypeError | Raise (ValueError _) => Ok (Some unparsable)
  | Raise e => Raise e
  end.
Definition unsafe_margin (row : json) : result (option string) :=
  let! ibkr := get row "ibkr_account" JNull in
  let account := py_str (jor ibkr (JStr "?")) in
  let! stale := get row "is_stale" JNull in
  if truthy stale then Ok (Some (account ++ " STALE")%string)
  else
    let! effective := get row "effective_free_margin" JNull in
    let! floor := get row "floor" JNull in
    match effective with
    | JNull => Ok (Some (account ++ " missing effective_free_margin")%string)
    | _ =>
        row_test (let! x := py_float effective in let! y := py_float (jor floor (JInt 0)) in Ok (float_le x y))
          (account ++ " effective_free=" ++ py_str effective ++ " floor=" ++ py_str floor)%string
          (account ++ " unparsable margin")%string
    end.
Definition margins_gate : GateState * list string :=
  guarded "margin check failed: " (ask MarginAccounts) (fun code body =>
    if (code =? 503)%Z then Ok (UNKNOWN, ["margin check: gateway down or snapshot unavailable"%string])
    else if negb (code =? 200)%Z then Ok (UNKNOWN, ["margin check HTTP " ++ str_Z code]%string)
    else
      let! data := body_of body in
      let! rows := accounts_of data in
      let! unsafe := collect unsafe_margin rows in
      Ok (match unsafe with [] => (SAFE, []) | _ => (UNSAFE, ["margin UNSAFE: " ++ String.concat "; " unsafe]%string) end)).
Definition check : SafetyGateResult :=
  let '(g1, f1) := system_monitor_gate in
  let '(g2, f2) := kill_switch_gate in
  let '(g3, f3) := baskets_gate (f1 ++ f2) in
  let '(g4, f4) := trading_mode_gate in
  let '(g5, f5) := margins_gate in
  let gates := [("system_monitor"%string, g1); ("kill_switch"%string, g2); ("baskets"%string, g3);
                ("trading_mode"%string, g4); ("margin"%string, g5)] in
  let passed := forallb (fun x => bool_decide (snd x = SAFE)) gates in
  let failures := f1 ++ f2 ++ f3 ++ f4 ++ f5 in
  let failures := if negb passed && bool_decide (failures = [])
                  then ["safety gates not all SAFE: " ++ py_str (JObj (map (fun x => (fst x, JStr (gate_text (snd x)))) gates))]%string else failures in
  {| sg_passed := passed; sg_failures := failures;
     sg_details := match failures with [] => "all gates SAFE"%string | _ => String.concat "; " failures end;
     sg_gates := gates |}.

(** ** What a verdict rests on *)
(** A page is answered with an object. *)
Definition shows (p : Page) (fields : list (string * json)) : Prop := ask p = Http 200 (Some (JObj fields)).
(** An account page answered with the rows [l]. *)
Definition lists (p : Page) (l : list json) : Prop :=
  exists f, shows p f /\ iterate (jget_or "accounts" (JList []) f) = Ok l.
Definition not_critical : Prop :=
  exists f, shows SystemMonitor f /\ jget_or "overall_status" (JStr "") f <> JStr "CRITICAL".
Definition not_armed (a : json) : Prop :=
  exists f, a = JObj f /\ truthy (jget_or "kill_switch_active" JNull f) = false.
Definition no_incident (account : json) : Prop :=
  (exists b, ask (BasketsCritical account) = Http 404 b)
  \/ exists f, shows (BasketsCritical account) f /\ truthy (jget_or "incidents" (JList []) f) = false.
Definition margin_above (row : json) : Prop :=
  exists f x y, row = JObj f /\ truthy (jget_or "is_stale" JNull f) = false
    /\ jget_or "effective_free_margin" JNull f <> JNull
    /\ py_float (jget_or "effective_free_margin" JNull f) = Ok x
    /\ py_float (jor (jget_or "floor" JNull f) (JInt 0)) = Ok y /\ float_le x y = false.
(** Trading may be called ready. *)
Definition ready : Prop :=
  not_critical
  /\ (exists l, lists (Accounts false) l /\ Forall not_armed l)
  /\ (ibkr_accounts <> [] /\ Forall no_incident ibkr_accounts)
  /\ In gateway_port [4002; 7497; 7496; 4001]%Z
  /\ exists l, lists MarginAccounts l /\ Forall margin_above l.

Lemma collect_nil {A} (f : json -> result (option A)) l :
  collect f l = Ok [] <-> Forall (fun x => f x = Ok None) l.
Proof.
  induction l as [|x l IH]; simpl; [by split|]. rewrite Forall_cons, <- IH. split.
  - intros (o & E & H)%rbind_ok. apply rbind_ok in H as (r & R & H). destruct o; [done|]. injection H as ->. done.
  - intros [-> ->]. done.
Qed.
Lemma get_obj v key d x : get v key d = Ok x <-> exists f, v = JObj f /\ x = jget_or key d f.
Proof.
  split.
  - destruct v; try done. intros E. injection E as <-. by eexists.
  - by intros (f & -> & ->).
Qed.
Lemma body_ok b v : body_of b = Ok v <-> b = Some v.
Proof. destruct b; simpl; split; congruence. Qed.
(** A gate that reads an object of the body [P], and is safe when [P] is. *)
Lemma guarded_safe prefix p k (r : Z -> option json -> result (GateState * list string)) (P : list (string * json) -> Prop) :
  ask p = k ->
  (forall code body, (exists f, r code body = Ok (SAFE, f)) <-> exists f, code = 200%Z /\ body = Some (JObj f) /\ P f) ->
  fst (guarded prefix k r) = SAFE <-> exists f, shows p f /\ P f.
Proof.
  intros <- H. unfold shows, guarded. destruct (ask p) as [e|code body]; [split; [done|by intros (f & [=] & _)]|].
  specialize (H code body). split.
  - destruct (r code body) as [[g f]|e]; [|done]. simpl. intros ->.
    destruct (proj1 H) as (f' & -> & -> & HP); eauto.
  - intros (f & [= -> ->] & HP). destruct (proj2 H) as [f' ->]; eauto.
Qed.
Lemma accounts_of_ok v l :
  accounts_of v = Ok l <-> exists f, v = JObj f /\ iterate (jget_or "accounts" (JList []) f) = Ok l.
Proof.
  unfold accounts_of. rewrite rbind_ok. setoid_rewrite get_obj. split.
  - intros (x & (f & -> & ->) & E). eauto.
  - intros (f & -> & E). eauto.
Qed.
Lemma rows_of_page p (R : json -> Prop) :
  (exists f, shows p f /\ exists l, iterate (jget_or "accounts" (JList []) f) = Ok l /\ Forall R l)
  <-> exists l, lists p l /\ Forall R l.
Proof.
  split.
  - intros (f & S & l & I & F). exists l. split; [by exists f|done].
  - intros (l & (f & S & I) & F). exists f. split; [done|by exists l].
Qed.

Lemma system_monitor_safe : fst system_monitor_gate = SAFE <-> not_critical.
Proof.
  apply guarded_safe; [done|]. intros code body.
  destruct (Z.eqb_spec code 200) as [->|N]; [|split; [by intros (? & [=])|by intros (? & -> & _)]]. simpl.
  setoid_rewrite rbind_ok. setoid_rewrite body_ok. setoid_rewrite rbind_ok. setoid_rewrite get_obj. split.
  - intros (f0 & v & -> & o & (f & -> & ->) & H). exists f. split_and!; [done..|]. rewrite <- is_str_spec. intros E.
    rewrite E in H. apply rbind_ok in H as (? & _ & H). apply rbind_ok in H as (? & _ & H).
    by apply rbind_ok in H as (? & _ & [=]).
  - intros (f & _ & -> & N). exists [], (JObj f). split; [done|]. eexists. split; [by eauto|].
    destruct (is_str _ _) eqn:E; [|done]. by apply is_str_spec in E.
Qed.
Lemma armed_account_none a : armed_account a = Ok None <-> not_armed a.
Proof.
  unfold armed_account, not_armed. rewrite rbind_ok. setoid_rewrite get_obj. split.
  - intros (v & (f & -> & ->) & H). exists f. split; [done|].
    destruct (truthy _); [|done]. apply rbind_ok in H as (? & _ & H). by apply rbind_ok in H as (? & _ & [=]).
  - intros (f & -> & T). eexists. split; [by eauto|]. by rewrite T.
Qed.
Lemma kill_switch_safe :
  fst kill_switch_gate = SAFE <-> exists l, lists (Accounts false) l /\ Forall not_armed l.
Proof.
  rewrite <- rows_of_page. apply guarded_safe; [done|]. intros code body.
  destruct (Z.eqb_spec code 200) as [->|N]; [|split; [by intros (? & [=])|by intros (? & -> & _)]]. simpl.
  setoid_rewrite rbind_ok. setoid_rewrite body_ok. setoid_rewrite rbind_ok. setoid_rewrite accounts_of_ok.
  setoid_rewrite rbind_ok. setoid_rewrite <- (Forall_iff _ _ _ armed_account_none). setoid_rewrite <- collect_nil. split.
  - intros (x & v & -> & l & (f & -> & I) & armed & E & H). destruct armed; [|done]. naive_solver.
  - intros (f & _ & -> & l & I & E). exists [], (JObj f). split; [done|]. exists l. split; [eauto|]. by exists [].
Qed.
Lemma row_test_none m x y : row_test m x y = Ok None <-> m = Ok false.
Proof. split; [|by intros ->]. destruct m as [[]|[]]; done. Qed.
Lemma unsafe_margin_none row : unsafe_margin row = Ok None <-> margin_above row.
Proof.
  unfold unsafe_margin, margin_above. rewrite rbind_ok. setoid_rewrite get_obj. split.
  - intros (v & (f & -> & ->) & H). cbn beta iota delta [get rbind] in H. exists f. revert H.
    destruct (truthy _); [done|]. generalize (jget_or "effective_free_margin" JNull f). intros e H.
    assert (N : e <> JNull) by (intros ->; done). assert (T : exists s t m, row_test m s t = Ok None /\
      (let! x := py_float e in let! y := py_float (jor (jget_or "floor" JNull f) (JInt 0)) in Ok (float_le x y)) = m)
      by (destruct e; [done|..]; eauto).
    destruct T as (s & t & m & ->%row_test_none & M).
    apply rbind_ok in M as (x & X & (y & Y & [= L])%rbind_ok). naive_solver.
  - intros (f & x & y & -> & S & N & X & Y & L). eexists. split; [eauto|]. cbn beta iota delta [get rbind].
    rewrite S. destruct (jget_or "effective_free_margin" JNull f); [done|..]; rewrite X, Y; simpl; by rewrite L.
Qed.
Lemma margin_safe : fst margins_gate = SAFE <-> exists l, lists MarginAccounts l /\ Forall margin_above l.
Proof.
  rewrite <- rows_of_page. apply guarded_safe; [done|]. intros code body.
  destruct (Z.eqb_spec code 503) as [->|N5]; [split; [by intros (? & [=])|by intros (? & [=] & _)]|].
  destruct (Z.eqb_spec code 200) as [->|N]; [|split; [by intros (? & [=])|by intros (? & -> & _)]]. simpl.
  setoid_rewrite rbind_ok. setoid_rewrite body_ok. setoid_rewrite rbind_ok. setoid_rewrite accounts_of_ok.
  setoid_rewrite rbind_ok. setoid_rewrite <- (Forall_iff _ _ _ unsafe_margin_none). setoid_rewrite <- collect_nil. split.
  - intros (x & v & -> & l & (f & -> & I) & armed & E & H). destruct armed; [|done]. naive_solver.
  - intros (f & _ & -> & l & I & E). exists [], (JObj f). split; [done|]. exists l. split; [eauto|]. by exists [].
Qed.
Lemma trading_mode_safe : fst trading_mode_gate = SAFE <-> In gateway_port [4002; 7497; 7496; 4001]%Z.
Proof.
  unfold trading_mode_gate. destruct (existsb _ _) eqn:E; simpl fst.
  - apply existsb_exists in E as (p & I & <-%Z.eqb_eq). done.
  - split; [done|]. intros I. assert (existsb (Z.eqb gateway_port) [4002; 7497; 7496; 4001]%Z = true) as ?; [|congruence].
    apply existsb_exists. exists gateway_port. by rewrite Z.eqb_refl.
Qed.
Lemma no_incident_iff account : critical_baskets account = (false, []) <-> no_incident account.
Proof.
  unfold critical_baskets, no_incident, shows. destruct (ask _) as [e|code body].
  { split; [done|]. by intros [(? & [=])|(? & [=] & _)]. }
  destruct (Z.eqb_spec code 200) as [->|N].
  - destruct body as [v|]; simpl; [|split; [done|by intros [(? & [=])|(? & [=] & _)]]].
    destruct (get v _ _) as [x|e] eqn:G.
    + apply get_obj in G as (f & -> & ->). split.
      * destruct (truthy _) eqn:T; [done|]. intros _. right. by exists f.
      * intros [(? & [=])|(? & [= <-] & ->)]. done.
    + split; [done|]. intros [(? & [=])|(f & [= ->] & _)]. done.
  - destruct (Z.eqb_spec code 404) as [->|N4]; split; try done.
    + intros _. left. by exists body.
    + by intros [(? & [=])|(? & [=] & _)].
Qed.
(** A check that failed says so, in a word the gate looks for. *)
Lemma failed_names_baskets account failures :
  critical_baskets account = (false, failures) -> Forall (fun f => str_in "baskets" f = true) failures.
Proof.
  unfold critical_baskets. intros E. repeat case_match; simplify_eq; repeat constructor; done.
Qed.
Lemma no_failures accounts :
  existsb fst (map critical_baskets accounts) = false
  /\ existsb (str_in "baskets") (concat (map snd (map critical_baskets accounts))) = false
  <-> Forall (fun a => critical_baskets a = (false, [])) accounts.
Proof.
  induction accounts as [|a l IH]; simpl; [done|]. rewrite Forall_cons, <- IH, existsb_app, !orb_false_iff. split.
  - intros ((F & ?) & S & ?). split; [|done]. destruct (critical_baskets a) as [b [|m f]] eqn:E; simpl in *; subst; [done|].
    apply failed_names_baskets, Forall_cons in E as [E _]. by rewrite E in S.
  - intros (-> & ? & ?). done.
Qed.
Lemma baskets_safe before :
  existsb (str_in "baskets") before = false ->
  fst (baskets_gate before) = SAFE <-> ibkr_accounts <> [] /\ Forall no_incident ibkr_accounts.
Proof.
  intros B. unfold baskets_gate. setoid_rewrite <- (Forall_iff _ _ _ no_incident_iff).
  destruct ibkr_accounts as [|a l]; [by split; [|intros []]|]. assert (N : a :: l <> []) by done. revert N. generalize (a :: l) as accounts. intros accounts N.
  rewrite existsb_app, B. cbn [orb]. rewrite <- no_failures. simpl fst.
  destruct (existsb fst _), (existsb (str_in "baskets") (concat _)); intuition congruence.
Qed.
(** A safe gate says nothing. *)
Lemma guarded_silent prefix a r :
  (forall code body f, r code body = Ok (SAFE, f) -> f = []) -> fst (guarded prefix a r) = SAFE -> snd (guarded prefix a r) = [].
Proof.
  intros H. destruct a as [e|code body]; [done|]. simpl. specialize (H code body).
  destruct (r code body) as [[g f]|e]; [|done]. simpl. intros ->. by apply H.
Qed.
Lemma system_monitor_silent : fst system_monitor_gate = SAFE -> snd system_monitor_gate = [].
Proof.
  apply guarded_silent. intros code body f. destruct (negb _); [done|].
  intros (v & _ & (o & _ & H)%rbind_ok)%rbind_ok. revert H. destruct (is_str o _); [|by intros [= <-]].
  by intros (? & _ & (? & _ & (? & _ & [=])%rbind_ok)%rbind_ok)%rbind_ok.
Qed.
Lemma kill_switch_silent : fst kill_switch_gate = SAFE -> snd kill_switch_gate = [].
Proof.
  apply guarded_silent. intros code body f. destruct (negb _); [done|].
  intros (v & _ & (l & _ & (armed & _ & H)%rbind_ok)%rbind_ok)%rbind_ok. destruct armed; by injection H.
Qed.
(** ** The verdict *)
(** Trading is called ready exactly when the five gates rest on evidence:
    the system monitor answered and its status is not [CRITICAL], no listed
    account is armed, every account of a second, non-empty list has no
    incident or is unknown to the page, the port is one of four, and every
    listed margin is fresh, readable and not at its floor or under it. *)
Lemma safety_gates_exact : sg_passed check = true <-> ready.
Proof.
  unfold check, ready. rewrite <- system_monitor_safe, <- kill_switch_safe, <- trading_mode_safe, <- margin_safe.
  pose proof system_monitor_silent as S1. pose proof kill_switch_silent as S2. pose proof (baskets_safe []) as B. simpl in B.
  destruct system_monitor_gate as [g1 f1], kill_switch_gate as [g2 f2]. simpl in S1, S2. rewrite <- B by done. clear B.
  pose proof (eq_refl (baskets_gate (f1 ++ f2))) as G. revert G. generalize (baskets_gate (f1 ++ f2)) at 1 3. intros [g3 f3] G.
  destruct trading_mode_gate as [g4 f4], margins_gate as [g5 f5]. simpl.
  rewrite !andb_true_iff, !bool_decide_eq_true. split.
  - intros (-> & -> & -> & H). rewrite S1, S2 in G by done. simpl in G. rewrite <- G. tauto.
  - intros (-> & -> & B3 & H). rewrite S1, S2 in G by done. simpl in G. rewrite <- G in B3. tauto.
Qed.
End Gates.

(** ** The daemon's poll *)
(** The daemon's flag, and the event it sends. *)
Theorem trading_blocked_exact (new_york : Z -> Z) error_text ask port now d d' event
    (OPEN : market_closed_enabled (d_settings d) && negb (is_trading_session new_york now) = false)
    (POLL : check_safety_gates new_york (Some (sg_passed (check error_text ask port))) now d = (d', event)) :
  (d_safety_blocked d' = false <-> ready ask port)
  /\ event = (if eqb (d_safety_blocked d') (d_safety_blocked d) then None
              else Some (if d_safety_blocked d' then EV_TRADING_BLOCKED else EV_RECOVERED)).
Proof.
  rewrite <- (safety_gates_exact error_text). unfold check_safety_gates in POLL. rewrite OPEN in POLL.
  destruct (sg_passed _), (d_safety_blocked d) eqn:B; simpl in POLL; injection POLL as <- <-; simpl; rewrite ?B; done.
Qed.

(** ** Examples *)
Module Examples.
Definition page (l : list (string * json)) : Answer := Http 200 (Some (JObj l)).
Definition account : json := JObj [("id"%string, JInt 1); ("ibkr_account"%string, JStr "DU1"); ("kill_switch_active"%string, JBool false)].
Definition row (stale : bool) (margin : json) : json :=
  JObj [("ibkr_account"%string, JStr "DU1"); ("is_stale"%string, JBool stale);
        ("effective_free_margin"%string, margin); ("floor"%string, JStr "100")].
(** The pages of a system that is well. *)
Definition pages (status : list (string * json)) (baskets : Answer) (rows : list json) (p : Page) : Answer :=
  match p with
  | SystemMonitor => page status
  | Accounts _ => page [("accounts"%string, JList [account])]
  | BasketsCritical _ => baskets
  | MarginAccounts => page [("accounts"%string, JList rows)]
  end.
Definition ex_check ask port := check (fun _ => "error"%string) ask port.
Definition healthy := pages [("overall_status"%string, JStr "HEALTHY")] (page [("incidents"%string, JList [])]) [row false (JInt 500)].

Example healthy_passes : sg_passed (ex_check healthy 4002) = true.
Proof. vm_compute. reflexivity. Qed.
(** A stale row, a margin at its floor, an incident, a port: each blocks. *)
Example each_gate_blocks :
  forallb (fun a => negb (sg_passed (ex_check a 4002)))
    [pages [("overall_status"%string, JStr "CRITICAL")] (page []) [];
     pages [] (page [("incidents"%string, JList [JNull])]) []; pages [] (Http 500 None) [];
     pages [] (page []) [row true (JInt 500)]; pages [] (page []) [row false (JStr "100")];
     pages [] (page []) [row false JNull]] = true
  /\ sg_passed (ex_check healthy 5000) = false.
Proof. vm_compute. split; reflexivity. Qed.
(** A status that is absent, a page of incidents that does not exist, no margin
    at all and a margin that is not a number are all taken as safe. *)
Example unknown_is_safe :
  sg_passed (ex_check (pages [] (Http 404 None) []) 4002) = true
  /\ sg_passed (ex_check (pages [("overall_status"%string, JStr "UNKNOWN")] (page []) [row false (JStr "nan")]) 4002) = true.
Proof. vm_compute. split; reflexivity. Qed.
End Examples.

Lemma trading_blocked_exact_witness :
  exists d' event, check_safety_gates (fun t => t) (Some (sg_passed (Examples.ex_check (Examples.pages [] (Http 500 None) []) 4002)))
      (10 * 1000000) ex_daemon = (d', event)
    /\ (d_safety_blocked d' = false <-> ready (Examples.pages [] (Http 500 None) []) 4002) /\ event = Some EV_TRADING_BLOCKED.
Proof.
  eexists _, _. split; [vm_compute; reflexivity|].
  apply (trading_blocked_exact (fun t => t) (fun _ => "error"%string) (Examples.pages [] (Http 500 None) []) 4002
           (10 * 1000000)%Z ex_daemon); vm_compute; reflexivity.
Defined.

