(* ===== verification/Notices.v ===== *)
(** * Notices of the watchdog: [services/watchdog/notifier.py], [resources.py]

    The bounded queue of notices with its three classes, the suppression of
    repeated ones, and the alerts on the host's resources that the daemon puts
    into the same queue.  The readings of the host and the texts are given;
    each reading of the monotonic clock is an argument. *)

From S2P Require Import Prelude Watchdog.

#[local] Open Scope Q_scope.
#[local] Open Scope py_scope.

#[global] Instance NotificationEvent_eq_dec : EqDecision NotificationEvent.
Proof. solve_decision. Defined.

(** [_CRITICAL_EVENTS], [_WARNING_EVENTS]; the others are of no class, and
    treated as [_INFO_EVENTS] are. *)
Definition is_critical (ev : NotificationEvent) : bool :=
  match ev with EV_FAILURE | EV_RECOVERY_FAILED | EV_MANUAL_INTERVENTION_REQUIRED | EV_TRADING_BLOCKED => true | _ => false end.
Definition is_warning (ev : NotificationEvent) : bool :=
  match ev with EV_UNHEALTHY | EV_RECOVERY_STARTED => true | _ => false end.
(** [_priority]. *)
Definition priority (ev : NotificationEvent) : Z := if is_critical ev then 2 else if is_warning ev then 1 else 0.

(** ** Repeated notices *)
Module Dedup.
(** [_last_sent], with the latest first, and [_last_event_per_service]. *)
Record NotificationDeduplicator : Type := {
  cooldown : Q;
  last_sent : list ((ServiceName * NotificationEvent) * Q);
  last_event : list (ServiceName * NotificationEvent) }.
Fixpoint assoc {K V} `{EqDecision K} (k : K) (l : list (K * V)) : option V :=
  match l with [] => None | (k', v) :: l => if decide (k' = k) then Some v else assoc k l end.
Definition should_send (now : Q) (s : ServiceName) (ev : NotificationEvent) (d : NotificationDeduplicator) : bool :=
  match assoc (s, ev) (last_sent d) with
  | None => true
  | Some t =>
      match assoc s (last_event d) with
      | Some e => if negb (bool_decide (e = ev)) then true else cooldown d <=? now - t
      | None => cooldown d <=? now - t
      end
  end.
Definition mark_sent (now : Q) (s : ServiceName) (ev : NotificationEvent) (d : NotificationDeduplicator) : NotificationDeduplicator :=
  {| cooldown := cooldown d; last_sent := ((s, ev), now) :: last_sent d; last_event := (s, ev) :: last_event d |}.
Definition clear (s : ServiceName) (d : NotificationDeduplicator) : NotificationDeduplicator :=
  {| cooldown := cooldown d; last_sent := last_sent d; last_event := filter (fun x => fst x <> s) (last_event d) |}.
End Dedup.

(** ** The queue *)
Module Queue.
Import Dedup.
Definition Notice : Type := ServiceName * NotificationEvent * string.
Record NotificationQueue : Type := {
  critical : list Notice; warning : list Notice; info : list Notice;
  dedup : NotificationDeduplicator; dropped_count : Z; queue : list Notice }.
Definition BOUNDED_MAXLEN : nat := 100.
Definition total (q : NotificationQueue) : nat := length (critical q) + length (warning q) + length (info q).
Definition new_queue (cooldown_seconds : Q) : NotificationQueue :=
  {| critical := []; warning := []; info := [];
     dedup := {| cooldown := cooldown_seconds; last_sent := []; last_event := [] |}; dropped_count := 0; queue := [] |}.
Definition rebucketed (c w i : list Notice) (dropped : Z) (q : NotificationQueue) : NotificationQueue :=
  {| critical := c; warning := w; info := i; dedup := dedup q; dropped_count := dropped_count q + dropped; queue := queue q |}.
(** [bucket.append]. *)
Definition append (n : Notice) (q : NotificationQueue) : NotificationQueue :=
  let ev := snd (fst n) in
  if is_critical ev then rebucketed (critical q ++ [n]) (warning q) (info q) 0 q
  else if is_warning ev then rebucketed (critical q) (warning q ++ [n]) (info q) 0 q
  else rebucketed (critical q) (warning q) (info q ++ [n]) 0 q.
(** [combined[-100:]]. *)
Definition sync_compat_queue (q : NotificationQueue) : NotificationQueue :=
  let combined := critical q ++ warning q ++ info q in
  {| critical := critical q; warning := warning q; info := info q; dedup := dedup q; dropped_count := dropped_count q;
     queue := drop (length combined - BOUNDED_MAXLEN) combined |}.
Definition marked (now : Q) (s : ServiceName) (ev : NotificationEvent) (q : NotificationQueue) : NotificationQueue :=
  {| critical := critical q; warning := warning q; info := info q; dedup := mark_sent now s ev (dedup q);
     dropped_count := dropped_count q; queue := queue q |}.
Definition accepted (now : Q) (n : Notice) (q : NotificationQueue) : NotificationQueue :=
  sync_compat_queue (marked now (fst (fst n)) (snd (fst n)) (append n q)).
(** [enqueue]: [now] when the cooldown is looked at, [now'] when the notice is marked. *)
Definition enqueue (now now' : Q) (s : ServiceName) (ev : NotificationEvent) (text : string) (force : bool)
    (q : NotificationQueue) : bool * NotificationQueue :=
  if negb force && negb (should_send now s ev (dedup q)) then (false, q)
  else
    let n := (s, ev, text) in
    if (total q <? BOUNDED_MAXLEN)%nat then (true, accepted now' n q)
    else if (priority ev =? 2)%Z then
      (true, accepted now' n
        match info q, warning q with
        | _ :: i, _ => rebucketed (critical q) (warning q) i 1 q
        | [], _ :: w => rebucketed (critical q) w [] 1 q
        | [], [] => rebucketed (tl (critical q)) [] [] 1 q
        end)
    else if (priority ev =? 1)%Z then
      match info q with
      | _ :: i => (true, accepted now' n (rebucketed (critical q) (warning q) i 1 q))
      | [] => (false, rebucketed (critical q) (warning q) (info q) 1 q)
      end
    else
      match info q with
      | _ :: i => (true, accepted now' n (rebucketed (critical q) (warning q) i 1 q))
      | [] => (false, rebucketed (critical q) (warning q) (info q) 1 q)
      end.
(** [_worker]: the notice that is sent next. *)
Definition take_next (q : NotificationQueue) : option Notice * NotificationQueue :=
  match critical q, warning q, info q with
  | n :: c, w, i => (Some n, sync_compat_queue (rebucketed c w i 0 q))
  | [], n :: w, i => (Some n, sync_compat_queue (rebucketed [] w i 0 q))
  | [], [], n :: i => (Some n, sync_compat_queue (rebucketed [] [] i 0 q))
  | [], [], [] => (None, q)
  end.
Definition clear_service (s : ServiceName) (q : NotificationQueue) : NotificationQueue :=
  {| critical := critical q; warning := warning q; info := info q; dedup := clear s (dedup q);
     dropped_count := dropped_count q; queue := queue q |}.

(** ** Runs *)
Inductive Move : Type :=
  | Enqueue (now now' : Q) (s : ServiceName) (ev : NotificationEvent) (text : string) (force : bool)
  | Take
  | Clear (s : ServiceName).
Inductive Seen : Type := Suppressed | Refused (n : Notice) | Entered (n : Notice) | Evicted (n : Notice) | Sent (n : Notice).
(** The notice that makes room for one of the event. *)
Definition evictee (ev : NotificationEvent) (q : NotificationQueue) : option Notice :=
  if (total q <? BOUNDED_MAXLEN)%nat then None
  else if is_critical ev then head (info q ++ warning q ++ critical q) else head (info q).
Definition observe_move (m : Move) (q : NotificationQueue) : list Seen :=
  match m with
  | Enqueue now now' s ev text force =>
      if negb force && negb (should_send now s ev (dedup q)) then [Suppressed]
      else if fst (enqueue now now' s ev text force q)
           then match evictee ev q with Some n => [Evicted n] | None => [] end ++ [Entered (s, ev, text)]
           else [Refused (s, ev, text)]
  | Take => match fst (take_next q) with Some n => [Sent n] | None => [] end
  | Clear _ => []
  end.
Definition move (m : Move) (q : NotificationQueue) : NotificationQueue :=
  match m with
  | Enqueue now now' s ev text force => snd (enqueue now now' s ev text force q)
  | Take => snd (take_next q)
  | Clear s => clear_service s q
  end.
Fixpoint run (ms : list Move) (q : NotificationQueue) : list Seen * NotificationQueue :=
  match ms with
  | [] => ([], q)
  | m :: ms => let (t, q') := run ms (move m q) in (observe_move m q ++ t, q')
  end.

(** *** What is kept *)
Definition event_of (n : Notice) : NotificationEvent := snd (fst n).
Definition bucket (p : Z) (q : NotificationQueue) : list Notice :=
  if (p =? 2)%Z then critical q else if (p =? 1)%Z then warning q else info q.
Definition entered (t : list Seen) : list Notice := omap (fun x => match x with Entered n => Some n | _ => None end) t.
(** The notices that left the queue. *)
Definition left (t : list Seen) : list Notice := omap (fun x => match x with Sent n | Evicted n => Some n | _ => None end) t.
(** The notices that are not sent. *)
Definition lost (t : list Seen) : list Notice := omap (fun x => match x with Refused n | Evicted n => Some n | _ => None end) t.
Definition of_priority (p : Z) (l : list Notice) : list Notice := List.filter (fun n => (priority (event_of n) =? p)%Z) l.
(** Three classes, at most 100 notices, each class a queue of its own. *)
Record kept (t : list Seen) (q : NotificationQueue) : Prop := {
  kept_bound : (total q <= BOUNDED_MAXLEN)%nat;
  kept_class : forall p, p = 0%Z \/ p = 1%Z \/ p = 2%Z -> of_priority p (bucket p q) = bucket p q;
  kept_order : forall p, p = 0%Z \/ p = 1%Z \/ p = 2%Z -> of_priority p (entered t) = of_priority p (left t) ++ bucket p q;
  kept_count : dropped_count q = Z.of_nat (length (lost t)) }.

Lemma entered_app t u : entered (t ++ u) = entered t ++ entered u.
Proof. apply omap_app. Qed.
Lemma left_app t u : left (t ++ u) = left t ++ left u.
Proof. apply omap_app. Qed.
Lemma lost_app t u : lost (t ++ u) = lost t ++ lost u.
Proof. apply omap_app. Qed.
Lemma of_priority_app p l l' : of_priority p (l ++ l') = of_priority p l ++ of_priority p l'.
Proof. unfold of_priority. apply List.filter_app. Qed.
(** A list of one class, its first notice and the others. *)
Lemma own_class p n l : of_priority p (n :: l) = n :: l -> priority (event_of n) = p /\ of_priority p l = l.
Proof.
  unfold of_priority. simpl. intros H. destruct (Z.eqb_spec (priority (event_of n)) p) as [E|N]; [by injection H|].
  apply (f_equal length) in H. simpl in H.
  pose proof (List.filter_length_le (fun n => (priority (event_of n) =? p)%Z) l). lia.
Qed.
Lemma priority_range ev : priority ev = 0%Z \/ priority ev = 1%Z \/ priority ev = 2%Z.
Proof. unfold priority. destruct (is_critical ev), (is_warning ev); auto. Qed.
Lemma bucket_append p n q :
  p = 0%Z \/ p = 1%Z \/ p = 2%Z -> bucket p (append n q) = bucket p q ++ of_priority p [n].
Proof.
  intros P. destruct n as [[s ev] text]. unfold append, bucket, of_priority, event_of, priority. simpl.
  destruct (is_critical ev), (is_warning ev), P as [->|[->| ->]]; simpl; by rewrite ?app_nil_r.
Qed.
Lemma total_append n q : total (append n q) = S (total q).
Proof. unfold append, total. repeat case_match; simpl; rewrite ?length_app; simpl; lia. Qed.
Lemma append_dropped n q : dropped_count (append n q) = dropped_count q.
Proof. unfold append. repeat case_match; simpl; lia. Qed.
Lemma view_of q : (total q <= BOUNDED_MAXLEN)%nat ->
  queue (sync_compat_queue q) = critical q ++ warning q ++ info q.
Proof. intros H. simpl. unfold total in H. rewrite !length_app, (proj2 (Nat.sub_0_le _ _)); [apply drop_0|lia]. Qed.

(** A notice enters a queue that has room. *)
Lemma kept_accepted now n t q :
  kept t q -> (total q < BOUNDED_MAXLEN)%nat -> kept (t ++ [Entered n]) (accepted now n q).
Proof.
  intros K R. assert (T : (total (append n q) <= BOUNDED_MAXLEN)%nat) by (rewrite total_append; lia). split.
  - exact T.
  - intros p P. change (of_priority p (bucket p (append n q)) = bucket p (append n q)).
    rewrite (bucket_append p n q P), of_priority_app, (kept_class _ _ K p P). unfold of_priority. simpl. by case_match; simpl; rewrite ?H.
  - intros p P. change (of_priority p (entered (t ++ [Entered n])) = of_priority p (left (t ++ [Entered n])) ++ bucket p (append n q)).
    rewrite entered_app, left_app, !of_priority_app, (bucket_append p n q P), (kept_order _ _ K p P). simpl. by rewrite app_nil_r, app_assoc.
  - change (dropped_count (append n q) = Z.of_nat (length (lost (t ++ [Entered n])))).
    rewrite append_dropped, (kept_count _ _ K), lost_app, app_nil_r. done.
Qed.
(** The first notice of a class leaves. *)
Definition popped (p d : Z) (q : NotificationQueue) : NotificationQueue :=
  rebucketed (if (p =? 2)%Z then tl (critical q) else critical q) (if (p =? 1)%Z then tl (warning q) else warning q)
    (if (p =? 0)%Z then tl (info q) else info q) d q.
Lemma bucket_popped p p' d q : p = 0%Z \/ p = 1%Z \/ p = 2%Z -> p' = 0%Z \/ p' = 1%Z \/ p' = 2%Z ->
  bucket p' (popped p d q) = if (p' =? p)%Z then tl (bucket p q) else bucket p' q.
Proof. intros [->|[->| ->]] [->|[->| ->]]; reflexivity. Qed.
Lemma total_popped p d q n r : p = 0%Z \/ p = 1%Z \/ p = 2%Z -> bucket p q = n :: r -> S (total (popped p d q)) = total q.
Proof. unfold total, bucket, popped. intros [->|[->| ->]]; simpl; intros ->; simpl; lia. Qed.
Lemma kept_popped x p d n r t q :
  p = 0%Z \/ p = 1%Z \/ p = 2%Z -> bucket p q = n :: r -> x = Sent n /\ d = 0%Z \/ x = Evicted n /\ d = 1%Z ->
  kept t q -> kept (t ++ [x]) (popped p d q).
Proof.
  intros P B X K.
  assert (L : left [x] = [n]) by (by destruct X as [[-> _]|[-> _]]).
  assert (N : entered [x] = []) by (by destruct X as [[-> _]|[-> _]]).
  assert (D : d = Z.of_nat (length (lost [x]))) by (by destruct X as [[-> ->]|[-> ->]]).
  assert (C : (priority (event_of n) =? p)%Z = true /\ of_priority p r = r).
  { pose proof (kept_class _ _ K p P) as H. rewrite B in H. apply own_class in H. by rewrite Z.eqb_eq. }
  split.
  - pose proof (total_popped p d q n r P B). pose proof (kept_bound _ _ K). lia.
  - intros p' P'. rewrite (bucket_popped p p' d q P P'). destruct (Z.eqb_spec p' p) as [->|]; [|by apply K].
    rewrite B. apply C.
  - intros p' P'. rewrite (bucket_popped p p' d q P P'), entered_app, left_app, N, L, app_nil_r, of_priority_app,
      (kept_order _ _ K p' P').
    destruct (Z.eqb_spec p' p) as [->|Ne]; unfold of_priority at 3; simpl.
    + rewrite (proj1 C), B. by rewrite <- app_assoc.
    + destruct (Z.eqb_spec (priority (event_of n)) p') as [E|]; [|by rewrite app_nil_r].
      apply proj1, Z.eqb_eq in C. congruence.
  - change (dropped_count q + d = Z.of_nat (length (lost (t ++ [x]))))%Z.
    rewrite (kept_count _ _ K), lost_app, length_app, D. lia.
Qed.
Lemma kept_refused n t q : kept t q -> kept (t ++ [Refused n]) (rebucketed (critical q) (warning q) (info q) 1 q).
Proof.
  intros K. split; [apply K|apply K| |].
  - intros p P. rewrite entered_app, left_app, !app_nil_r. by apply K.
  - change (dropped_count q + 1 = Z.of_nat (length (lost (t ++ [Refused n]))))%Z.
    rewrite (kept_count _ _ K), lost_app, length_app. simpl. lia.
Qed.
Lemma kept_swapped now m p n r t q :
  p = 0%Z \/ p = 1%Z \/ p = 2%Z -> bucket p q = n :: r -> kept t q ->
  kept (t ++ [Evicted n; Entered m]) (accepted now m (popped p 1 q)).
Proof.
  intros P B K. rewrite (app_assoc t [Evicted n] [Entered m] : t ++ [Evicted n; Entered m] = (t ++ [Evicted n]) ++ [Entered m]).
  apply kept_accepted; [by eapply kept_popped; eauto|].
  pose proof (total_popped p 1 q n r P B). pose proof (kept_bound _ _ K). lia.
Qed.
Lemma kept_silent x t q : entered x = [] -> left x = [] -> lost x = [] -> kept t q -> kept (t ++ x) q.
Proof.
  intros E L D [B C O N]. split; [done..| |].
  - intros p P. rewrite entered_app, left_app, E, L, !app_nil_r. by apply O.
  - by rewrite lost_app, D, app_nil_r.
Qed.
(** [enqueue] when there is no room, by what is there to be evicted. *)
Lemma kept_full now s ev text t q :
  total q = BOUNDED_MAXLEN -> kept t q ->
  let r := enqueue now now s ev text true q in
  kept (t ++ if fst r then match evictee ev q with Some n => [Evicted n] | None => [] end ++ [Entered (s, ev, text)]
             else [Refused (s, ev, text)]) (snd r).
Proof.
  intros F K. assert (L : (total q <? BOUNDED_MAXLEN)%nat = false) by (apply Nat.ltb_ge; lia).
  unfold enqueue, evictee, priority. rewrite L. cbn [negb andb].
  assert (I : forall n i, info q = n :: i -> kept (t ++ [Evicted n; Entered (s, ev, text)])
    (accepted now (s, ev, text) (rebucketed (critical q) (warning q) i 1 q))).
  { intros n i E. pose proof (kept_swapped now (s, ev, text) 0 n i t q) as H. unfold popped in H. simpl in H.
    rewrite E in H. apply H; auto. }
  destruct (is_critical ev) eqn:C; [|destruct (is_warning ev) eqn:W]; cbn [Z.eqb];
    try (destruct (info q) as [|n i] eqn:E; simpl; [rewrite <- E; by apply kept_refused|by apply I]).
  destruct (info q) as [|n i] eqn:E; [|by apply I].
  destruct (warning q) as [|n w] eqn:V; [destruct (critical q) as [|n c] eqn:U|]; simpl.
  - unfold total, BOUNDED_MAXLEN in F. rewrite E, V, U in F. done.
  - pose proof (kept_swapped now (s, ev, text) 2 n c t q) as H. unfold popped, bucket in H. simpl in H.
    rewrite E, V, U in H. apply H; auto.
  - pose proof (kept_swapped now (s, ev, text) 1 n w t q) as H. unfold popped, bucket in H. simpl in H.
    rewrite E, V in H. apply H; auto.
Qed.
Lemma enqueue_unsuppressed now now' s ev text force q :
  negb force && negb (should_send now s ev (dedup q)) = false ->
  enqueue now now' s ev text force q = enqueue now' now' s ev text true q.
Proof. unfold enqueue. by intros ->. Qed.
Lemma kept_move m t q : kept t q -> kept (t ++ observe_move m q) (move m q).
Proof.
  intros K. destruct m as [now now' s ev text force| |s]; unfold observe_move, move.
  - destruct (negb force && _) eqn:S; [unfold enqueue; rewrite S; by apply kept_silent|].
    rewrite (enqueue_unsuppressed _ _ _ _ _ _ _ S). destruct (total q <? BOUNDED_MAXLEN)%nat eqn:R.
    + unfold enqueue, evictee. rewrite R. apply kept_accepted; [done|]. by apply Nat.ltb_lt.
    + apply kept_full; [|done]. apply Nat.ltb_ge in R. pose proof (kept_bound _ _ K). lia.
  - destruct (critical q) as [|n c] eqn:C; [destruct (warning q) as [|n w] eqn:W; [destruct (info q) as [|n i] eqn:I|]|];
      unfold take_next; rewrite C, ?W, ?I; simpl; [by apply kept_silent|..].
    + pose proof (kept_popped (Sent n) 0 0 n i t q) as H. unfold popped, bucket in H. simpl in H. rewrite C, W, I in H.
      by destruct H; auto.
    + pose proof (kept_popped (Sent n) 1 0 n w t q) as H. unfold popped, bucket in H. simpl in H. rewrite C, W in H.
      by destruct H; auto.
    + pose proof (kept_popped (Sent n) 2 0 n c t q) as H. unfold popped, bucket in H. simpl in H. rewrite C in H.
      by destruct H; auto.
  - rewrite app_nil_r. by destruct K.
Qed.
Lemma kept_run ms t q : kept t q -> kept (t ++ fst (run ms q)) (snd (run ms q)).
Proof.
  revert t q. induction ms as [|m ms IH]; simpl; intros t q K; [by rewrite app_nil_r|].
  pose proof (IH _ _ (kept_move m t q K)) as H. destruct (run ms (move m q)) as [u q']. simpl in *. by rewrite app_assoc.
Qed.
Lemma kept_new cooldown : kept [] (new_queue cooldown).
Proof. split; [by unfold total; simpl; lia|intros p [->|[->| ->]]; reflexivity|intros p [->|[->| ->]]; reflexivity|done]. Qed.

(** Whatever is put in, taken and cleared: at most 100 notices wait, the
    notices of a class leave in the order they entered, and each one that was
    not sent is counted.  A critical notice enters unless it repeats another
    within the cooldown, and only a hundred critical ones make it push out a
    critical one. *)
Theorem notices_kept cooldown ms :
  let (t, q) := run ms (new_queue cooldown) in
  kept t q
  /\ forall now now' s ev text force, is_critical ev = true ->
     fst (enqueue now now' s ev text force q) = force || should_send now s ev (dedup q)
     /\ forall n, evictee ev q = Some n -> is_critical (event_of n) = true -> length (critical q) = BOUNDED_MAXLEN.
Proof.
  pose proof (kept_run ms [] _ (kept_new cooldown)) as K. destruct (run ms (new_queue cooldown)) as [t q]. simpl in K.
  split; [done|]. intros now now' s ev text force C. split.
  - unfold enqueue, priority. rewrite C. destruct force, (should_send _ _ _ _); simpl; try done; by destruct (_ <? _)%nat.
  - intros n. unfold evictee. rewrite C. destruct (total q <? _)%nat eqn:R; [done|]. intros H N.
    pose proof (kept_bound _ _ K) as B. apply Nat.ltb_ge in R.
    assert (E : forall p l, p = 0%Z \/ p = 1%Z -> of_priority p (n :: l) <> n :: l).
    { intros p l P E. apply own_class in E as [E _]. unfold priority in E. rewrite N in E. lia. }
    pose proof (kept_class _ _ K 0 (or_introl eq_refl)) as I. pose proof (kept_class _ _ K 1 (or_intror (or_introl eq_refl))) as W.
    cbn [bucket Z.eqb Pos.eqb] in I, W. unfold total in B, R.
    destruct (info q) as [|x i]; [|injection H as ->; by apply E in I; [|left]].
    destruct (warning q) as [|x w]; [|injection H as ->; by apply E in W; [|right]]. simpl in *. lia.
Qed.
End Queue.

(** ** Resources of the host *)
Module Resources.
Inductive ResourceType : Type := CPU | MEMORY | STORAGE | INODES.
Inductive ResourceState : Type := NORMAL | WARNING | CRITICAL.
#[global] Instance ResourceType_eq_dec : EqDecision ResourceType.
Proof. solve_decision. Defined.
#[global] Instance ResourceState_eq_dec : EqDecision ResourceState.
Proof. solve_decision. Defined.
Record ResourceThresholds : Type := { th_warning : Q; th_critical : Q; th_recovery : Q }.
(** The usage of each resource stands for its metrics. *)
Record ResourceResult : Type := {
  rr_type : ResourceType; rr_state : ResourceState; rr_usage : Q; rr_is_transition : bool; rr_previous : option ResourceState }.
Record ResourceMonitor : Type := {
  states : ResourceType -> ResourceState; last_metrics : ResourceType -> option Q; last_check_ts : Q }.
(** A collection raises, finds nothing ([None], for inodes), or reads a usage. *)
Definition Collected : Type := ResourceType -> result (option Q).
Definition update {A} (r : ResourceType) (x : A) (f : ResourceType -> A) : ResourceType -> A :=
  fun r' => if decide (r' = r) then x else f r'.
Definition new_resources : ResourceMonitor := {| states := fun _ => NORMAL; last_metrics := fun _ => None; last_check_ts := 0 |}.

Section Monitor.
(** [_get_thresholds], and [_check_interval]. *)
Variables (get_thresholds : ResourceType -> ResourceThresholds) (check_interval : Q).

Definition evaluate_state (r : ResourceType) (usage : Q) (current : ResourceState) : ResourceState :=
  let thr := get_thresholds r in
  match current with
  | NORMAL => if th_critical thr <=? usage then CRITICAL else if th_warning thr <=? usage then WARNING else NORMAL
  | WARNING => if th_critical thr <=? usage then CRITICAL else if usage <? th_recovery thr then NORMAL else WARNING
  | CRITICAL => if usage <? th_recovery thr then NORMAL else CRITICAL
  end.
(** One resource of [check_all]. *)
Definition check_one_resource (readings : Collected) (r : ResourceType) (m : ResourceMonitor) : ResourceMonitor * list ResourceResult :=
  match readings r with
  | Ok (Some usage) =>
      let prev := states m r in
      let new := evaluate_state r usage prev in
      let changed := negb (bool_decide (new = prev)) in
      ({| states := if changed then update r new (states m) else states m;
          last_metrics := update r (Some usage) (last_metrics m); last_check_ts := last_check_ts m |},
       [{| rr_type := r; rr_state := new; rr_usage := usage; rr_is_transition := changed;
           rr_previous := if changed then Some prev else None |}])
  | _ => (m, [])
  end.
Definition check_all (readings : Collected) (m : ResourceMonitor) : ResourceMonitor * list ResourceResult :=
  fold_left (fun acc r => let (m, l) := check_one_resource readings r (fst acc) in (m, snd acc ++ l))
    [CPU; MEMORY; STORAGE; INODES] (m, []).
Definition check_if_due (now : Q) (m : ResourceMonitor) : bool * ResourceMonitor :=
  if check_interval <=? now - last_check_ts m
  then (true, {| states := states m; last_metrics := last_metrics m; last_check_ts := now |}) else (false, m).

(** [daemon._check_resources]: the alerts go to the gateway's notices. *)
Variable format_resource_alert : ResourceResult -> Q -> bool -> string.
Definition alert_threshold (r : ResourceResult) : Q :=
  let t := get_thresholds (rr_type r) in
  match rr_state r with CRITICAL => th_critical t | WARNING => th_warning t | NORMAL => th_recovery t end.
Definition resource_event (s : ResourceState) : NotificationEvent :=
  match s with CRITICAL => EV_FAILURE | WARNING => EV_UNHEALTHY | NORMAL => EV_RECOVERED end.
Definition alert (now : Q) (r : ResourceResult) (q : Queue.NotificationQueue) : Queue.NotificationQueue :=
  if rr_is_transition r then
    let is_recovery := match rr_state r, rr_previous r with NORMAL, Some (WARNING | CRITICAL) => true | _, _ => false end in
    snd (Queue.enqueue now now GATEWAY (resource_event (rr_state r)) (format_resource_alert r (alert_threshold r) is_recovery) true q)
  else q.
Definition check_resources (now : Q) (readings : Collected) (m : ResourceMonitor) (q : Queue.NotificationQueue)
    : ResourceMonitor * Queue.NotificationQueue :=
  let (due, m) := check_if_due now m in
  if due then let (m, results) := check_all readings m in (m, fold_left (fun q r => alert now r q) results q) else (m, q).

(** *** Hysteresis *)
(** The states of one resource over a run of readings. *)
Fixpoint states_of (r : ResourceType) (us : list Q) (s : ResourceState) : list ResourceState :=
  match us with [] => [] | u :: us => let s' := evaluate_state r u s in s' :: states_of r us s' end.
Fixpoint changes (s : ResourceState) (l : list ResourceState) : nat :=
  match l with [] => 0 | s' :: l => (if decide (s = s') then 0 else 1) + changes s' l end.
(** How far a state is from [CRITICAL]. *)
Definition rises_left (s : ResourceState) : nat := match s with NORMAL => 2 | WARNING => 1 | CRITICAL => 0 end.
Lemma falls_below_recovery r u s :
  s <> NORMAL -> evaluate_state r u s = NORMAL -> u < th_recovery (get_thresholds r).
Proof.
  unfold evaluate_state. destruct s; [done|..]; intros _; repeat case_match; try done; intros _; by apply Qltb_true.
Qed.
(** Over any readings, the alerts are bounded by the readings below the
    threshold of recovery: two for the rise, and three for each such reading. *)
Theorem alerts_bounded r us s :
  (changes s (states_of r us s) <= rises_left s + 3 * length (List.filter (fun u => u <? th_recovery (get_thresholds r))%Q us))%nat.
Proof.
  revert s. induction us as [|u us IH]; intros s; [simpl; lia|]. specialize (IH (evaluate_state r u s)). cbn [states_of changes List.filter].
  destruct (u <? _)%Q eqn:B; cbn [length].
  - assert (rises_left (evaluate_state r u s) <= 2)%nat by (destruct (evaluate_state r u s); simpl; lia).
    destruct (decide (s = evaluate_state r u s)); lia.
  - assert (N : s <> NORMAL -> evaluate_state r u s <> NORMAL).
    { intros F E. apply falls_below_recovery in E; [|done]. apply Qltb_true in E. congruence. }
    destruct (decide (s = evaluate_state r u s)) as [E|D]; [rewrite <- E in IH |- *; lia|].
    assert ((1 + rises_left (evaluate_state r u s) <= rises_left s)%nat); [|lia]. revert N D. unfold evaluate_state.
    destruct s; repeat case_match; simpl; intros N D; try lia; try done; by destruct N.
Qed.
(** Each alert says where the usage is. *)
Lemma alert_justified r u s : evaluate_state r u s <> s ->
  match evaluate_state r u s with
  | NORMAL => u < th_recovery (get_thresholds r)
  | WARNING => th_warning (get_thresholds r) <= u < th_critical (get_thresholds r)
  | CRITICAL => th_critical (get_thresholds r) <= u
  end.
Proof.
  unfold evaluate_state. destruct s; repeat case_match; try done; intros _;
    repeat match goal with
    | H : (_ <=? _) = true |- _ => apply Qleb_true in H
    | H : (_ <=? _) = false |- _ => apply Qleb_false in H
    | H : (_ <? _) = true |- _ => apply Qltb_true in H
    end; try done; by split.
Qed.
End Monitor.

(** *** Examples *)
Definition defaults (_ : ResourceType) : ResourceThresholds := {| th_warning := 80; th_critical := 90; th_recovery := 75 |}.
Definition ex_readings (cpu : Q) : Collected := fun r => match r with CPU => Ok (Some cpu) | _ => Ok None end.
Definition ex_busy : ResourceMonitor * Queue.NotificationQueue :=
  check_resources defaults 30 (fun _ _ _ => "cpu"%string) 100 (ex_readings 95) new_resources (Queue.new_queue 300).
(** An alert on the processor is marked as a failure of the gateway: a failure
    of the gateway a minute later is taken for a repetition and not told. *)
Example gateway_failure_hidden :
  Queue.critical (snd ex_busy) = [(GATEWAY, EV_FAILURE, "cpu"%string)]
  /\ Queue.enqueue 160 160 GATEWAY EV_FAILURE "gateway down" false (snd ex_busy) = (false, snd ex_busy)
  /\ fst (Queue.enqueue 160 160 GATEWAY EV_FAILURE "gateway down" false (Queue.new_queue 300)) = true.
Proof. vm_compute. repeat split. Qed.
(** A resource that is critical stays so until it recovers. *)
Example critical_until_recovered : states_of defaults CPU [85; 95; 85; 76; 74; 79] NORMAL = [WARNING; CRITICAL; CRITICAL; CRITICAL; NORMAL; NORMAL].
Proof. reflexivity. Qed.
End Resources.
