(* ===== verification/RiskExit.v ===== *)
(** * Risk exits: [services/risk_exit_rules.py]

    Amounts are finite decimals; an instant is a wall-clock time with the UTC
    offset of its time zone, if it has one. *)

From S2P Require Import Prelude Rounding PyTime.

#[local] Open Scope Q_scope.
#[local] Open Scope py_scope.
#[local] Set Warnings "-clear-no-such-hyp".

Definition EXIT_UNIT_ABSOLUTE : string := "ABSOLUTE".
Definition EXIT_UNIT_PERCENT : string := "PERCENT".

Inductive ExitReason : Type :=
  | PAIR_TARGET | PAIR_STOP | PAIR_TIME_LIMIT | ACCOUNT_TARGET | ACCOUNT_STOP.

Record PairExitParams : Type := {
  px_target : Q;
  px_stop : Q;
  px_time_limit : Z;
  px_target_unit : string;
  px_stop_unit : string;
  px_opened_at : moment;
  px_entry_gross_notional : Q
}.

Record AccountRiskParams : Type := {
  rk_daily_target : option Q;
  rk_daily_stop : option Q;
  rk_daily_target_unit : string;
  rk_daily_stop_unit : string;
  rk_total_margin : Q
}.

Record ExitDecision : Type := { ed_reason : ExitReason; ed_threshold : Q; ed_pnl : Q }.

Definition pair_entry_gross_notional (leg_a_signed_qty leg_a_entry_mark : Q)
    (leg_b_signed_qty leg_b_entry_mark : option Q) : Q :=
  let total := dabs (dmul leg_a_signed_qty leg_a_entry_mark) in
  match leg_b_signed_qty, leg_b_entry_mark with
  | Some q, Some m => dadd total (dabs (dmul q m))
  | _, _ => total
  end.

Definition resolve_threshold (level : option Q) (unit : string) (basis : Q) : option Q :=
  match level with
  | None => None
  | Some value =>
      let normalized := str_upper (str_or unit EXIT_UNIT_ABSOLUTE) in
      if (normalized =? EXIT_UNIT_ABSOLUTE)%string then Some value
      else if (normalized =? EXIT_UNIT_PERCENT)%string then
        if basis <=? 0 then None else Some (dmul value basis)
      else None
  end.

(** [dt.replace(tzinfo=...)] keeps the wall clock; two aware instants compare
    in UTC, two naive ones by their wall clocks. *)
Definition with_zone (m : moment) (offset : option Z) : moment :=
  {| mo_wall := mo_wall m; mo_offset := offset |}.
(** [opened + timedelta(seconds=limit)]. *)
Definition plus_seconds (m : moment) (s : Z) : result moment :=
  let wall := (mo_wall m + s * second)%Z in
  if (max_wall <? wall)%Z then Raise OverflowError
  else Ok {| mo_wall := wall; mo_offset := mo_offset m |}.

Definition time_limit_reached (opened now : moment) (limit : Z) : result bool :=
  let (opened, now) :=
    match mo_offset opened, mo_offset now with
    | None, Some z => (with_zone opened (Some z), now)
    | Some z, None => (opened, with_zone now (Some z))
    | _, _ => (opened, now)
    end in
  let! due := plus_seconds opened limit in
  Ok (utc_of due <=? utc_of now)%Z.

Definition evaluate_pair_exit (params : PairExitParams) (pnl : Q) (now : moment)
    : result (option ExitDecision) :=
  let basis := px_entry_gross_notional params in
  let target_or_time :=
    let timer :=
      if (0 <? px_time_limit params)%Z then
        let! due := time_limit_reached (px_opened_at params) now (px_time_limit params) in
        Ok (if due then Some {| ed_reason := PAIR_TIME_LIMIT;
                                ed_threshold := inject_Z (px_time_limit params);
                                ed_pnl := pnl |}
            else None)
      else Ok None in
    match resolve_threshold (Some (px_target params)) (px_target_unit params) basis with
    | Some target_amt =>
        if target_amt <=? pnl
        then Ok (Some {| ed_reason := PAIR_TARGET; ed_threshold := target_amt; ed_pnl := pnl |})
        else timer
    | None => timer
    end in
  match resolve_threshold (Some (px_stop params)) (px_stop_unit params) basis with
  | Some stop_amt =>
      if pnl <=? stop_amt
      then Ok (Some {| ed_reason := PAIR_STOP; ed_threshold := stop_amt; ed_pnl := pnl |})
      else target_or_time
  | None => target_or_time
  end.

Definition evaluate_account_risk (params : AccountRiskParams) (session_pnl : Q)
    : option ExitDecision :=
  let target :=
    match resolve_threshold (rk_daily_target params) (rk_daily_target_unit params)
            (rk_total_margin params) with
    | Some target_amt =>
        if target_amt <=? session_pnl
        then Some {| ed_reason := ACCOUNT_TARGET; ed_threshold := target_amt;
                     ed_pnl := session_pnl |}
        else None
    | None => None
    end in
  match resolve_threshold (rk_daily_stop params) (rk_daily_stop_unit params)
          (rk_total_margin params) with
  | Some stop_amt =>
      if session_pnl <=? stop_amt
      then Some {| ed_reason := ACCOUNT_STOP; ed_threshold := stop_amt; ed_pnl := session_pnl |}
      else target
  | None => target
  end.

(** ** The rules, declaratively *)

(** A side fires when its resolved level is reached from the right side. *)
Definition stop_hit (level : option Q) (unit : string) (basis pnl : Q) (t : Q) : Prop :=
  resolve_threshold level unit basis = Some t /\ pnl <= t.
Definition target_hit (level : option Q) (unit : string) (basis pnl : Q) (t : Q) : Prop :=
  resolve_threshold level unit basis = Some t /\ t <= pnl.

Lemma stop_hit_dec level unit basis pnl :
  (exists t, stop_hit level unit basis pnl t) \/ (forall t, ~ stop_hit level unit basis pnl t).
Proof.
  unfold stop_hit. destruct (resolve_threshold level unit basis) as [x|].
  - destruct (Qlt_le_dec x pnl) as [H|H]; [right|left; eauto].
    intros t [[= <-] Ht]. lra.
  - right. by intros t [? _].
Qed.

Definition timer_due (params : PairExitParams) (now : moment) : Prop :=
  (0 < px_time_limit params)%Z /\
  time_limit_reached (px_opened_at params) now (px_time_limit params) = Ok true.

(** The first rule that applies, in the order stop, target, timer. *)
Inductive pair_decision (params : PairExitParams) (pnl : Q) (now : moment)
    : option ExitDecision -> Prop :=
  | decide_stop t :
      stop_hit (Some (px_stop params)) (px_stop_unit params) (px_entry_gross_notional params) pnl t ->
      pair_decision params pnl now
        (Some {| ed_reason := PAIR_STOP; ed_threshold := t; ed_pnl := pnl |})
  | decide_target t :
      (forall t', ~ stop_hit (Some (px_stop params)) (px_stop_unit params)
                     (px_entry_gross_notional params) pnl t') ->
      target_hit (Some (px_target params)) (px_target_unit params)
        (px_entry_gross_notional params) pnl t ->
      pair_decision params pnl now
        (Some {| ed_reason := PAIR_TARGET; ed_threshold := t; ed_pnl := pnl |})
  | decide_time :
      (forall t', ~ stop_hit (Some (px_stop params)) (px_stop_unit params)
                     (px_entry_gross_notional params) pnl t') ->
      (forall t', ~ target_hit (Some (px_target params)) (px_target_unit params)
                     (px_entry_gross_notional params) pnl t') ->
      timer_due params now ->
      pair_decision params pnl now
        (Some {| ed_reason := PAIR_TIME_LIMIT; ed_threshold := inject_Z (px_time_limit params);
                 ed_pnl := pnl |})
  | decide_hold :
      (forall t', ~ stop_hit (Some (px_stop params)) (px_stop_unit params)
                     (px_entry_gross_notional params) pnl t') ->
      (forall t', ~ target_hit (Some (px_target params)) (px_target_unit params)
                     (px_entry_gross_notional params) pnl t') ->
      ~ timer_due params now ->
      pair_decision params pnl now None.

(** The pair rules are exact: [evaluate_pair_exit] returns a decision
    exactly when it is the one of the first applicable rule: the stop at or
    below its level, then the target at or above its level, then the timer;
    it raises only when the timer's deadline lies beyond the year 9999. *)
Theorem evaluate_pair_exit_exact (params : PairExitParams) (pnl : Q) (now : moment) :
  match evaluate_pair_exit params pnl now with
  | Ok d => pair_decision params pnl now d
  | Raise e =>
      e = OverflowError /\
      (max_wall < mo_wall (px_opened_at params) + px_time_limit params * second)%Z
  end.
Proof.
  unfold evaluate_pair_exit.
  set (timer := if (0 <? px_time_limit params)%Z then _ else _).
  assert (Ht : (forall t', ~ stop_hit (Some (px_stop params)) (px_stop_unit params)
                     (px_entry_gross_notional params) pnl t') ->
    (forall t', ~ target_hit (Some (px_target params)) (px_target_unit params)
                     (px_entry_gross_notional params) pnl t') ->
    match timer with
    | Ok d => pair_decision params pnl now d
    | Raise e => e = OverflowError /\
        (max_wall < mo_wall (px_opened_at params) + px_time_limit params * second)%Z
    end).
  { intros Hs Hg. unfold timer. destruct (Z.ltb_spec 0 (px_time_limit params)) as [Hl|Hl].
    - destruct (time_limit_reached _ now _) as [[]|e] eqn:E; simpl.
      + by apply decide_time.
      + apply decide_hold; [done..|]. intros [_ H]. congruence.
      + unfold time_limit_reached, plus_seconds in E.
        repeat case_match; simplify_eq/=; bool_to_prop; simplify_eq/=; done.
    - apply decide_hold; [done..|]. intros [H _]. lia. }
  assert (Hg : (forall t', ~ stop_hit (Some (px_stop params)) (px_stop_unit params)
                     (px_entry_gross_notional params) pnl t') ->
    match (match resolve_threshold (Some (px_target params)) (px_target_unit params)
             (px_entry_gross_notional params) with
           | Some target_amt =>
               if target_amt <=? pnl
               then Ok (Some {| ed_reason := PAIR_TARGET; ed_threshold := target_amt; ed_pnl := pnl |})
               else timer
           | None => timer
           end) with
    | Ok d => pair_decision params pnl now d
    | Raise e => e = OverflowError /\
        (max_wall < mo_wall (px_opened_at params) + px_time_limit params * second)%Z
    end).
  { intros Hs. destruct (resolve_threshold (Some (px_target params)) _ _) as [x|] eqn:E.
    - destruct (Qleb_spec x pnl); [by apply decide_target|].
      apply Ht; [done|]. intros t [H1 H2]. rewrite E in H1. by injection H1 as <-.
    - apply Ht; [done|]. intros t [H1 _]. by rewrite E in H1. }
  destruct (resolve_threshold (Some (px_stop params)) _ _) as [x|] eqn:E.
  - destruct (Qleb_spec pnl x); [by apply decide_stop|].
    apply Hg. intros t [H1 H2]. rewrite E in H1. by injection H1 as <-.
  - apply Hg. intros t [H1 _]. by rewrite E in H1.
Qed.

(** The account rules are exact: the daily stop fires exactly when the
    session result is at or below its level, the daily target exactly when the
    stop does not fire and the result is at or above its level; a side without
    level, with an unknown unit, or in percent of a margin that is not
    positive never fires. *)
Theorem evaluate_account_risk_exact (p : AccountRiskParams) (pnl t : Q) :
  let stop := stop_hit (rk_daily_stop p) (rk_daily_stop_unit p) (rk_total_margin p) pnl in
  let target := target_hit (rk_daily_target p) (rk_daily_target_unit p) (rk_total_margin p) pnl in
  (evaluate_account_risk p pnl
     = Some {| ed_reason := ACCOUNT_STOP; ed_threshold := t; ed_pnl := pnl |} <-> stop t) /\
  (evaluate_account_risk p pnl
     = Some {| ed_reason := ACCOUNT_TARGET; ed_threshold := t; ed_pnl := pnl |}
   <-> (forall t', ~ stop t') /\ target t) /\
  (evaluate_account_risk p pnl = None <-> (forall t', ~ stop t') /\ (forall t', ~ target t')) /\
  (forall level unit basis, level = None \/
     (str_upper (str_or unit EXIT_UNIT_ABSOLUTE) <> EXIT_UNIT_ABSOLUTE /\
      (str_upper (str_or unit EXIT_UNIT_ABSOLUTE) <> EXIT_UNIT_PERCENT \/ basis <= 0)) ->
     resolve_threshold level unit basis = None).
Proof.
  intros stop target. unfold stop, target, stop_hit, target_hit, evaluate_account_risk.
  split; [|split; [|split]].
  4: { intros [level|] unit basis; [|done]. intros [|[H1 H2]]; [done|]. unfold resolve_threshold.
       destruct (String.eqb_spec (str_upper (str_or unit EXIT_UNIT_ABSOLUTE)) EXIT_UNIT_ABSOLUTE);
         [done|].
       destruct (String.eqb_spec (str_upper (str_or unit EXIT_UNIT_ABSOLUTE)) EXIT_UNIT_PERCENT);
         [|done].
       destruct H2; [done|]. destruct (Qleb_spec basis 0); [done|lra]. }
  all: destruct (resolve_threshold (rk_daily_stop p) _ _) as [s|];
    destruct (resolve_threshold (rk_daily_target p) _ _) as [g|];
    try destruct (Qleb_spec pnl s); try destruct (Qleb_spec g pnl); naive_solver.
Qed.

(** Percent levels scale with the basis and keep their order: with a
    positive basis, a smaller percent level is never resolved to a larger
    amount, and the resolved amount carries the sign of the level (a stop of a
    loss stays a loss). *)
Theorem percent_threshold_monotone (v w basis a b : Q) (unit : string) :
  str_upper unit = EXIT_UNIT_PERCENT -> v <= w ->
  resolve_threshold (Some v) unit basis = Some a -> resolve_threshold (Some w) unit basis = Some b ->
  0 < basis /\ a <= b /\ (v <= 0 -> a <= 0) /\ (0 <= v -> 0 <= a).
Proof.
  intros Hu Hvw. unfold resolve_threshold.
  assert (E : str_upper (str_or unit EXIT_UNIT_ABSOLUTE) = EXIT_UNIT_PERCENT).
  { unfold str_or. destruct unit; [discriminate Hu|done]. }
  rewrite E. cbn [String.eqb Ascii.eqb Bool.eqb].
  change (EXIT_UNIT_PERCENT =? EXIT_UNIT_ABSOLUTE)%string with false.
  change (EXIT_UNIT_PERCENT =? EXIT_UNIT_PERCENT)%string with true. cbv iota.
  destruct (Qleb_spec basis 0) as [|Hb]; [done|]. intros [= <-] [= <-].
  split; [lra|]. split; [by apply dmul_mono_l; [lra|]|]. split; intros Hv.
  - apply (rounds_nonpos (f := ctx)). nra.
  - apply dmul_nonneg; lra.
Qed.

Definition ex_pair_params : PairExitParams := {|
  px_target := 5 # 100; px_stop := - (2 # 100); px_time_limit := 3600;
  px_target_unit := "percent"; px_stop_unit := "PERCENT";
  px_opened_at := {| mo_wall := 0; mo_offset := None |}; px_entry_gross_notional := 10000 |}.

Example ex_pair_stop :
  evaluate_pair_exit ex_pair_params (- 250) {| mo_wall := 0; mo_offset := Some 0%Z |}
  = Ok (Some {| ed_reason := PAIR_STOP; ed_threshold := - 200; ed_pnl := - 250 |}).
Proof. by vm_compute. Qed.
Example ex_pair_timer :
  evaluate_pair_exit ex_pair_params 0 {| mo_wall := 3600 * second; mo_offset := Some 0%Z |}
  = Ok (Some {| ed_reason := PAIR_TIME_LIMIT; ed_threshold := 3600; ed_pnl := 0 |}).
Proof. by vm_compute. Qed.

Lemma percent_threshold_monotone_witness : - 200 <= 500.
Proof.
  refine (proj1 (proj2 (percent_threshold_monotone (- (2 # 100)) (5 # 100) 10000 (- 200) 500
    "percent" _ _ _ _))); by vm_compute.
Defined.
