(* ===== verification/SessionClock.v ===== *)
(** * The session clock: [services/session_clock.py]

    Dates are days since the epoch, times of New York are wall-clock
    microseconds since the epoch.  The exchange calendar (the library
    exchange_calendars) and the time zone database are parameters. *)

From S2P Require Import Prelude PyText PyTime.

#[local] Open Scope Z_scope.
#[local] Open Scope py_scope.
#[local] Set Warnings "-clear-no-such-hyp".

Definition time_of (h m : Z) : Z := (h * 3600 + m * 60) * second.
Definition RTH_OPEN : Z := time_of 9 30.
Definition RTH_CLOSE : Z := time_of 16 0.
Definition HALF_CLOSE : Z := time_of 13 0.

(** [datetime.combine(d, t, tzinfo=ET)]; the date of a wall-clock time. *)
Definition combine (d t : Z) : Z := d * day_us + t.
Definition date_of (t : Z) : Z := t / day_us.

(** The methods of the XNYS calendar the module calls; each may raise. *)
Record Calendar : Type := {
  cal_is_session : Z -> result bool;
  cal_schedule_open : Z -> result Z;
  cal_schedule_close : Z -> result Z;
  cal_next_open_date : Z -> result Z;
  cal_previous_close_date : Z -> result Z
}.

(** A row of the reference CSV. *)
Record CsvEntry : Type := { csv_is_early_close : bool; csv_close_time_et : string }.

(** What [except (KeyError, ValueError, AttributeError, RuntimeError)]
    catches. *)
Definition caught (e : exn) : bool :=
  match e with
  | KeyError _ | ValueError _ | InstrumentResolutionError _ | AttributeError => true
  | OtherError m => (m =? "RuntimeError")%string
  | _ => false
  end.

(** [time(int(parts[0]), int(parts[1]))] of a split close time. *)
Definition parse_close_time (s : string) : result Z :=
  match str_split ":" s with
  | a :: b :: _ =>
      let! h := py_int a in
      let! m := py_int b in
      if (0 <=? h) && (h <=? 23) && (0 <=? m) && (m <=? 59) then Ok (time_of h m)
      else Raise (ValueError "hour or minute out of range")
  | _ => Raise IndexError
  end.

Section Clock.
(** [_cal()]: [None] when the library is not installed. *)
Variable cal : option Calendar.
(** [_load_csv_schedule()]: the rows by date and their date range. *)
Variable csv_schedule : gmap Z CsvEntry.
Variable csv_range : option (Z * Z).
(** The module's sets of extra holidays and half days. *)
Variables fallback_holidays fallback_half : gset Z.

(** The part of [is_trading_day] after the calendar. *)
Definition csv_trading_day (d : Z) : bool :=
  match csv_range with
  | Some (min_d, max_d) =>
      if (min_d <=? d) && (d <=? max_d) then
        if 5 <=? weekday d then false
        else match csv_schedule !! d with
             | Some entry => csv_is_early_close entry
             | None => true
             end
      else false
  | None => false
  end.

Definition is_trading_day (d : Z) : bool :=
  if bool_decide (d ∈ fallback_holidays) then false
  else match cal with
       | Some c => match cal_is_session c d with
                   | Ok b => b
                   | Raise _ => csv_trading_day d
                   end
       | None => csv_trading_day d
       end.

(** The lookup in the calendar's schedule: [Some (Ok None)] when the day is no
    session, [None] when a caught exception leads to the fallback. *)
Definition from_schedule (schedule : Calendar -> Z -> result Z) (d : Z)
    : option (result (option Z)) :=
  match cal with
  | None => None
  | Some c =>
      match (let! s := cal_is_session c d in
             if s then let! t := schedule c d in Ok (Some t) else Ok None) with
      | Ok r => Some (Ok r)
      | Raise e => if caught e then None else Some (Raise e)
      end
  end.

Definition rth_open_for (d : Z) : result (option Z) :=
  if negb (is_trading_day d) then Ok None
  else match from_schedule cal_schedule_open d with
       | Some r => r
       | None => Ok (Some (combine d RTH_OPEN))
       end.

Definition rth_close_for (d : Z) : result (option Z) :=
  if negb (is_trading_day d) then Ok None
  else if bool_decide (d ∈ fallback_half) then Ok (Some (combine d HALF_CLOSE))
  else match from_schedule cal_schedule_close d with
       | Some r => r
       | None =>
           match csv_schedule !! d with
           | Some entry =>
               if csv_is_early_close entry && negb (str_empty (csv_close_time_et entry)) then
                 let! t := parse_close_time (csv_close_time_et entry) in
                 Ok (Some (combine d t))
               else Ok (Some (combine d RTH_CLOSE))
           | None => Ok (Some (combine d RTH_CLOSE))
           end
       end.

(** The search of [next_trading_day] and [prev_trading_day], in the direction
    of [step]: at most fifteen days. *)
Fixpoint search_day (n : nat) (step cur : Z) : Z :=
  match n with
  | O => cur
  | S n => if is_trading_day cur then cur else search_day n step (cur + step)
  end.

Definition from_calendar (f : Calendar -> Z -> result Z) (d step : Z) : result Z :=
  match cal with
  | None => Ok (search_day 15 step (d + step))
  | Some c =>
      match f c d with
      | Ok x => Ok x
      | Raise e => if caught e then Ok (search_day 15 step (d + step)) else Raise e
      end
  end.

Definition next_trading_day (d : Z) : result Z := from_calendar cal_next_open_date d 1.
Definition prev_trading_day (d : Z) : result Z := from_calendar cal_previous_close_date d (-1).

(** ** [SessionClock] *)
Record SessionClock : Type := {
  buffer_seconds : Z;
  post_open_delay_seconds : Z;
  gateway_max_wait : Z                      (* microseconds *)
}.

(** [astimezone(ET)] of an instant. *)
Variable to_et : Z -> Z.

Definition require_aware (dt : moment) : result Z :=
  match mo_offset dt with
  | None => Raise (ValueError "SessionClock requires aware datetime")
  | Some _ => Ok (utc_of dt)
  end.

(** [assert x is not None]. *)
Definition assert_some (x : option Z) : result Z :=
  match x with Some t => Ok t | None => Raise (OtherError "AssertionError") end.

Definition in_red_zone_at (c : SessionClock) (now : Z) : result bool :=
  let now_et := to_et now in
  let! open_today := rth_open_for (date_of now_et) in
  match open_today with
  | None => Ok true
  | Some open_today =>
      if now_et <? open_today then Ok true
      else
        let post_open_until := open_today + post_open_delay_seconds c * second in
        if now_et <? post_open_until then Ok true
        else
          let! close_today := rth_close_for (date_of now_et) in
          let! close_today := assert_some close_today in
          let buffer_start := close_today - buffer_seconds c * second in
          Ok (buffer_start <=? now_et)
  end.

Definition in_red_zone (c : SessionClock) (now : moment) : result bool :=
  let! now := require_aware now in in_red_zone_at c now.

Definition projected_in_red_zone (c : SessionClock) (now : moment) : result bool :=
  let! now := require_aware now in in_red_zone_at c (now + gateway_max_wait c).

Definition resolved_session_close (now : moment) : result (option Z) :=
  let! now := require_aware now in
  let now_et := to_et now in
  let d := date_of now_et in
  let! close_today := rth_close_for d in
  match close_today with
  | Some close_today =>
      let! open_today := rth_open_for d in
      let! open_today := assert_some open_today in
      if now_et <? open_today then
        let! prev := prev_trading_day d in rth_close_for prev
      else Ok (Some close_today)
  | None => let! prev := prev_trading_day d in rth_close_for prev
  end.

(** The loop of [deferred_session_count]: [n] bounds its passes. *)
Fixpoint count_closes (n : nat) (deferred_at now cur count : Z) : result Z :=
  match n with
  | O => Ok count
  | S n =>
      if cur <=? date_of now then
        let! c := rth_close_for cur in
        let count := match c with
                     | Some c => if (deferred_at <? c) && (c <=? now) then count + 1 else count
                     | None => count
                     end in
        count_closes n deferred_at now (cur + 1) count
      else Ok count
  end.

Definition deferred_session_count (deferred_at now : moment) : result Z :=
  let! deferred_at := require_aware deferred_at in
  let! now := require_aware now in
  let deferred_at := to_et deferred_at in
  let now := to_et now in
  let start := date_of deferred_at + 1 in
  count_closes (Z.to_nat (date_of now + 1 - start)) deferred_at now start 0.
End Clock.

(** ** The Red Zone *)

(** The trading window of the day of [now_et]: after the post-open delay and
    before the closing buffer. *)
Definition in_window (c : SessionClock) (now_et open close : Z) : Prop :=
  open <= now_et /\ open + post_open_delay_seconds c * second <= now_et /\
  now_et < close - buffer_seconds c * second.

Section RedZone.
Context {cal : option Calendar} {csv_schedule : gmap Z CsvEntry} {csv_range : option (Z * Z)}.
Context {fallback_holidays fallback_half : gset Z} {to_et : Z -> Z}.
Local Abbreviation open_for := (rth_open_for cal csv_schedule csv_range fallback_holidays).
Local Abbreviation close_for :=
  (rth_close_for cal csv_schedule csv_range fallback_holidays fallback_half).
Local Abbreviation red_zone :=
  (in_red_zone cal csv_schedule csv_range fallback_holidays fallback_half to_et).
Local Abbreviation projected :=
  (projected_in_red_zone cal csv_schedule csv_range fallback_holidays fallback_half to_et).

Lemma in_red_zone_at_false c now :
  in_red_zone_at cal csv_schedule csv_range fallback_holidays fallback_half to_et c now = Ok false <->
  exists o k, open_for (date_of (to_et now)) = Ok (Some o) /\
    close_for (date_of (to_et now)) = Ok (Some k) /\ in_window c (to_et now) o k.
Proof.
  unfold in_red_zone_at, in_window. set (d := date_of (to_et now)). split.
  - intros ([o|] & Ho & H)%rbind_ok; [|done].
    destruct (Z.ltb_spec (to_et now) o); [done|].
    destruct (Z.ltb_spec (to_et now) (o + post_open_delay_seconds c * second)); [done|].
    apply rbind_ok in H as (ck & Hk & H). apply rbind_ok in H as (k & Hk' & H).
    destruct ck as [k'|]; [|done]. injection Hk' as <-. injection H as H.
    apply Z.leb_gt in H. eauto 10.
  - intros (o & k & -> & Hk & H1 & H2 & H3). simpl.
    destruct (Z.ltb_spec (to_et now) o); [lia|].
    destruct (Z.ltb_spec (to_et now) (o + post_open_delay_seconds c * second)); [lia|].
    rewrite Hk. simpl. f_equal. apply Z.leb_gt. lia.
Qed.
End RedZone.

(** Trading is allowed exactly in the window: [in_red_zone] answers False
    if and only if the day is a trading day with an opening and a closing time
    and the New York time is past the opening plus delay and before the close
    minus buffer; a time without zone is an error; and when neither the
    calendar nor the CSV covers the day, it is always the Red Zone. *)
Theorem red_zone_exact (cal : option Calendar) (csv : gmap Z CsvEntry) (range : option (Z * Z))
    (hol half : gset Z) (to_et : Z -> Z) (c : SessionClock) (now : moment) :
  (mo_offset now = None ->
   in_red_zone cal csv range hol half to_et c now
   = Raise (ValueError "SessionClock requires aware datetime")) /\
  (forall off, mo_offset now = Some off ->
   in_red_zone cal csv range hol half to_et c now = Ok false <->
   exists o k, let now_et := to_et (utc_of now) in
     rth_open_for cal csv range hol (date_of now_et) = Ok (Some o) /\
     rth_close_for cal csv range hol half (date_of now_et) = Ok (Some k) /\
     in_window c now_et o k) /\
  (forall off, mo_offset now = Some off -> cal = None ->
   (forall lo hi, range = Some (lo, hi) -> ~ (lo <= date_of (to_et (utc_of now)) <= hi)) ->
   in_red_zone cal csv range hol half to_et c now = Ok true).
Proof.
  unfold in_red_zone, require_aware. split; [by intros ->|]. split.
  - intros off ->. cbn [rbind]. apply in_red_zone_at_false.
  - intros off -> -> Hr. cbn [rbind]. unfold in_red_zone_at, rth_open_for, is_trading_day.
    destruct (bool_decide _); [done|]. unfold csv_trading_day.
    destruct range as [[lo hi]|]; [|done]. specialize (Hr lo hi eq_refl).
    destruct (Z.leb_spec lo (date_of (to_et (utc_of now)))); [|done].
    destruct (Z.leb_spec (date_of (to_et (utc_of now))) hi); [lia|done].
Qed.

(** The projected check lets orders through early: when adding the gateway
    wait carries the time from before the end of the post-open delay to after
    it, [projected_in_red_zone] answers False while it is still the Red Zone. *)
Theorem projection_admits_early (cal : option Calendar) (csv : gmap Z CsvEntry)
    (range : option (Z * Z)) (hol half : gset Z) (to_et : Z -> Z) (c : SessionClock)
    (now : moment) (off o k : Z) :
  mo_offset now = Some off ->
  let t := to_et (utc_of now) in
  to_et (utc_of now + gateway_max_wait c) = t + gateway_max_wait c ->
  date_of (t + gateway_max_wait c) = date_of t ->
  rth_open_for cal csv range hol (date_of t) = Ok (Some o) ->
  rth_close_for cal csv range hol half (date_of t) = Ok (Some k) ->
  0 <= post_open_delay_seconds c ->
  t < o + post_open_delay_seconds c * second <= t + gateway_max_wait c ->
  t + gateway_max_wait c < k - buffer_seconds c * second ->
  projected_in_red_zone cal csv range hol half to_et c now = Ok false /\
  in_red_zone cal csv range hol half to_et c now = Ok true.
Proof.
  intros Ho t Ht Hd Hop Hcl Hdel [H1 H2] H3.
  unfold projected_in_red_zone, in_red_zone, require_aware. rewrite Ho. cbn [rbind]. split.
  - apply in_red_zone_at_false. rewrite Ht, Hd. exists o, k. split; [done|]. split; [done|].
    unfold in_window, second in *. lia.
  - unfold in_red_zone_at. fold t. rewrite Hop. cbn [rbind].
    destruct (t <? o); [done|].
    by destruct (Z.ltb_spec t (o + post_open_delay_seconds c * second)); [|lia].
Qed.

(** ** Sessions of a documented calendar *)

(** The behaviour exchange_calendars documents, on the days it covers: a
    session has an open before its close, on its own date; [next_open] of
    midnight is the next open after it, [previous_close] the last close
    before. *)
Class LawfulCalendar (c : Calendar) : Prop := {
  law_is_session d : exists b, cal_is_session c d = Ok b;
  law_schedule d : cal_is_session c d = Ok true ->
    exists o k, cal_schedule_open c d = Ok o /\ cal_schedule_close c d = Ok k /\
      o < k /\ date_of o = d /\ date_of k = d;
  law_previous d : exists p, cal_previous_close_date c d = Ok p /\
    p < d /\ cal_is_session c p = Ok true /\
    forall x, p < x < d -> cal_is_session c x = Ok false;
  law_next d : exists p, cal_next_open_date c d = Ok p /\
    d <= p /\ cal_is_session c p = Ok true /\
    forall x, d <= x < p -> cal_is_session c x = Ok false
}.

Section Lawful.
Context (c : Calendar) `{!LawfulCalendar c} (csv : gmap Z CsvEntry) (range : option (Z * Z)).

Lemma rth_open_session d o :
  rth_open_for (Some c) csv range ∅ d = Ok (Some o) <->
  cal_is_session c d = Ok true /\ cal_schedule_open c d = Ok o.
Proof.
  unfold rth_open_for, is_trading_day, from_schedule.
  rewrite bool_decide_eq_false_2 by set_solver.
  destruct (law_is_session d) as [[] Hs]; rewrite Hs; simpl; [|naive_solver].
  destruct (law_schedule d Hs) as (o' & k & -> & _). simpl. naive_solver.
Qed.

Lemma rth_close_session d :
  rth_close_for (Some c) csv range ∅ ∅ d =
  match cal_is_session c d with
  | Ok true => match cal_schedule_close c d with Ok k => Ok (Some k) | Raise e => Raise e end
  | _ => Ok None
  end.
Proof.
  unfold rth_close_for, is_trading_day, from_schedule.
  rewrite !bool_decide_eq_false_2 by set_solver.
  destruct (law_is_session d) as [[] Hs]; rewrite Hs; simpl; [|done].
  by destruct (law_schedule d Hs) as (o' & k & _ & -> & _).
Qed.

(** A session's open lies on its date, so later sessions open later. *)
Lemma date_of_lt (a b : Z) : a < date_of b -> combine (a + 1) 0 <= b.
Proof.
  unfold date_of, combine. pose proof (Z.div_mod b day_us ltac:(done)).
  pose proof (Z.mod_pos_bound b day_us ltac:(done)). assert (0 < day_us) by done. nia.
Qed.

Lemma date_of_bound (t : Z) : combine (date_of t) 0 <= t < combine (date_of t + 1) 0.
Proof.
  unfold date_of, combine. pose proof (Z.div_mod t day_us ltac:(done)).
  pose proof (Z.mod_pos_bound t day_us ltac:(done)). lia.
Qed.
End Lawful.

(** A deferred job is attributed to the right session: with a documented
    calendar, [resolved_session_close] returns the close of the latest session
    whose open is not after the instant, whether the instant lies in that
    session, after it, or before the open of the next one. *)
Theorem resolved_close_is_latest (c : Calendar) `{!LawfulCalendar c} (csv : gmap Z CsvEntry)
    (range : option (Z * Z)) (to_et : Z -> Z) (now : moment) (off : Z) :
  mo_offset now = Some off ->
  let t := to_et (utc_of now) in
  exists p o k, resolved_session_close (Some c) csv range ∅ ∅ to_et now = Ok (Some k) /\
    cal_is_session c p = Ok true /\ cal_schedule_open c p = Ok o /\
    cal_schedule_close c p = Ok k /\ o <= t /\
    (forall q o', p < q -> cal_is_session c q = Ok true -> cal_schedule_open c q = Ok o' -> t < o').
Proof.
  intros Ho t. unfold resolved_session_close, require_aware. rewrite Ho. cbn [rbind]. fold t.
  set (d := date_of t). pose proof (date_of_bound t) as Hb. fold d in Hb.
  assert (Hlater : forall q o', d < q -> cal_is_session c q = Ok true ->
            cal_schedule_open c q = Ok o' -> t < o').
  { intros q o' Hq Hs Hop. destruct (law_schedule q Hs) as (o1 & k1 & E & _ & _ & Hd & _).
    rewrite Hop in E. injection E as <-. pose proof (date_of_lt d o' ltac:(lia)). lia. }
  assert (Hprev : (forall o', cal_is_session c d = Ok true -> cal_schedule_open c d = Ok o' -> t < o') ->
    exists p o k, (let! prev := prev_trading_day (Some c) csv range ∅ d in
                   rth_close_for (Some c) csv range ∅ ∅ prev) = Ok (Some k) /\
    cal_is_session c p = Ok true /\ cal_schedule_open c p = Ok o /\
    cal_schedule_close c p = Ok k /\ o <= t /\
    (forall q o', p < q -> cal_is_session c q = Ok true -> cal_schedule_open c q = Ok o' -> t < o')).
  { intros Hd. destruct (law_previous d) as (p & Hp & Hlt & Hs & Hbetween).
    destruct (law_schedule p Hs) as (o & k & Eo & Ek & _ & Hdo & _).
    exists p, o, k. unfold prev_trading_day, from_calendar. rewrite Hp. cbn [rbind].
    rewrite (rth_close_session c csv range), Hs, Ek. split_and!; try done.
    - pose proof (date_of_bound o). rewrite Hdo in *. unfold combine in *.
      assert (0 < day_us) by done. nia.
    - intros q o' Hq Hsq Hoq. destruct (Z.lt_trichotomy q d) as [Hqd|[->|Hqd]].
      + rewrite (Hbetween q ltac:(lia)) in Hsq. done.
      + by apply Hd.
      + by eapply Hlater. }
  rewrite (rth_close_session c csv range). destruct (law_is_session d) as [[] Hs]; rewrite Hs.
  - destruct (law_schedule d Hs) as (o & k & Eo & Ek & Hok & Hdo & Hdk). rewrite Ek. cbn [rbind].
    assert (E : rth_open_for (Some c) csv range ∅ d = Ok (Some o)) by by apply rth_open_session.
    rewrite E. cbn [rbind assert_some]. destruct (Z.ltb_spec t o) as [Hto|Hto].
    + apply Hprev. intros o' _ Eo'. rewrite Eo in Eo'. by injection Eo' as <-.
    + exists d, o, k. split_and!; done.
  - apply Hprev. intros o' Hs'. by rewrite Hs in Hs'.
Qed.

(** [next_trading_day] of a trading day is that day itself: with a
    documented calendar the next open after its midnight is its own. *)
Theorem next_trading_day_of_session (c : Calendar) `{!LawfulCalendar c} (csv : gmap Z CsvEntry)
    (range : option (Z * Z)) (hol : gset Z) (d : Z) :
  cal_is_session c d = Ok true -> next_trading_day (Some c) csv range hol d = Ok d.
Proof.
  intros Hs. unfold next_trading_day, from_calendar.
  destruct (law_next d) as (p & -> & Hle & Hp & Hno).
  destruct (Z.eq_dec p d) as [->|Hne]; [done|].
  rewrite (Hno d ltac:(lia)) in Hs. done.
Qed.

(** [d] is a session whose close lies in (deferred_at, now]. *)
Definition closes_within (c : Calendar) (deferred_at now d : Z) : bool :=
  match cal_is_session c d, cal_schedule_close c d with
  | Ok true, Ok k => (deferred_at <? k) && (k <=? now)
  | _, _ => false
  end.

Lemma count_closes_spec (c : Calendar) `{!LawfulCalendar c} csv range deferred_at now n cur count :
  Z.of_nat n = date_of now + 1 - cur ->
  count_closes (Some c) csv range ∅ ∅ n deferred_at now cur count =
  Ok (count + Z.of_nat (length (List.filter (closes_within c deferred_at now) (seqZ cur (Z.of_nat n))))).
Proof.
  revert cur count. induction n as [|n IH]; intros cur count Hn.
  { simpl. by rewrite Z.add_0_r. }
  rewrite seqZ_cons by lia. cbn [count_closes List.filter].
  destruct (Z.leb_spec cur (date_of now)); [|lia].
  rewrite (rth_close_session c csv range). unfold closes_within at 1.
  replace (Z.succ cur) with (cur + 1) by lia.
  replace (Z.pred (Z.of_nat (S n))) with (Z.of_nat n) by lia.
  destruct (law_is_session cur) as [[] Hs]; rewrite Hs; cbn [rbind].
  - destruct (law_schedule cur Hs) as (o & k & _ & Ek & _). rewrite Ek. cbn [rbind].
    rewrite IH by lia. destruct ((deferred_at <? k) && (k <=? now)); cbn [length]; f_equal; lia.
  - by rewrite IH by lia.
Qed.

(** The staleness count is exact and its loop ends: with a documented
    calendar [deferred_session_count] returns, and it is the number of sessions
    after the day of the deferral whose close lies between the deferral and
    now. *)
Theorem deferred_count_exact (c : Calendar) `{!LawfulCalendar c} (csv : gmap Z CsvEntry)
    (range : option (Z * Z)) (to_et : Z -> Z) (deferred_at now : moment) (o1 o2 : Z) :
  mo_offset deferred_at = Some o1 -> mo_offset now = Some o2 ->
  let d := to_et (utc_of deferred_at) in
  let t := to_et (utc_of now) in
  deferred_session_count (Some c) csv range ∅ ∅ to_et deferred_at now =
  Ok (Z.of_nat (length (List.filter (closes_within c d t)
                  (seqZ (date_of d + 1) (date_of t - date_of d))))).
Proof.
  intros H1 H2 d t. unfold deferred_session_count, require_aware. rewrite H1, H2. cbn [rbind].
  fold d t. destruct (Z_lt_le_dec (date_of t) (date_of d)) as [Hlt|Hle].
  - rewrite seqZ_nil by lia. replace (Z.to_nat _) with 0%nat by lia. done.
  - rewrite (count_closes_spec c csv range) by lia. rewrite Z.add_0_l.
    by replace (Z.of_nat (Z.to_nat (date_of t + 1 - (date_of d + 1)))) with (date_of t - date_of d) by lia.
Qed.

(** ** A Monday to Friday calendar, and New York in winter *)
Definition weekdays : Calendar := {|
  cal_is_session d := Ok (weekday d <? 5);
  cal_schedule_open d := Ok (combine d RTH_OPEN);
  cal_schedule_close d := Ok (combine d RTH_CLOSE);
  cal_next_open_date d := Ok (if weekday d =? 5 then d + 2 else if weekday d =? 6 then d + 1 else d);
  cal_previous_close_date d :=
    Ok (if weekday d =? 0 then d - 3 else if weekday d =? 6 then d - 2 else d - 1) |}.

Lemma combine_date (d t : Z) : 0 <= t < day_us -> date_of (combine d t) = d.
Proof. intros H. unfold date_of, combine. rewrite Z.div_add_l by done. rewrite Z.div_small; lia. Qed.

#[export] Instance weekdays_lawful : LawfulCalendar weekdays.
Proof.
  split; simpl.
  - eauto.
  - intros d _. exists (combine d RTH_OPEN), (combine d RTH_CLOSE). split_and!; try done.
    + unfold combine. assert (RTH_OPEN < RTH_CLOSE) by done. lia.
    + by apply combine_date.
    + by apply combine_date.
  - intros d. eexists. split; [reflexivity|]. unfold weekday.
    destruct (Z.eqb_spec ((d + 3) mod 7) 0); [|destruct (Z.eqb_spec ((d + 3) mod 7) 6)];
      (split; [lia|]); (split; [|intros x Hx]); f_equal;
      try (apply Z.ltb_lt; Z.div_mod_to_equations; lia);
      apply Z.ltb_ge; Z.div_mod_to_equations; lia.
  - intros d. eexists. split; [reflexivity|]. unfold weekday.
    destruct (Z.eqb_spec ((d + 3) mod 7) 5); [|destruct (Z.eqb_spec ((d + 3) mod 7) 6)];
      (split; [lia|]); (split; [|intros x Hx]); f_equal;
      try (apply Z.ltb_lt; Z.div_mod_to_equations; lia);
      apply Z.ltb_ge; Z.div_mod_to_equations; lia.
Qed.

Definition winter (t : Z) : Z := t - 5 * 3600 * second.
Definition utc_moment (d t : Z) : moment := {| mo_wall := combine d t; mo_offset := Some 0 |}.
Definition ex_clock : SessionClock := {|
  buffer_seconds := 45; post_open_delay_seconds := 120; gateway_max_wait := 8 * second |}.

(** 2026-01-06, a Tuesday. *)
Definition ex_day : Z := days_from_civil 2026 1 6.

Lemma projection_admits_early_witness :
  in_red_zone (Some weekdays) ∅ None ∅ ∅ winter ex_clock
    (utc_moment ex_day (time_of 14 31 + 55 * second)) = Ok true.
Proof.
  refine (proj2 (projection_admits_early (Some weekdays) ∅ None ∅ ∅ winter ex_clock
    (utc_moment ex_day (time_of 14 31 + 55 * second)) 0 (combine ex_day RTH_OPEN)
    (combine ex_day RTH_CLOSE) _ _ _ _ _ _ _ _)); by vm_compute.
Defined.

Lemma resolved_close_is_latest_witness :
  exists p o k, resolved_session_close (Some weekdays) ∅ None ∅ ∅ winter
      (utc_moment ex_day (time_of 10 0)) = Ok (Some k) /\
    cal_is_session weekdays p = Ok true /\ cal_schedule_open weekdays p = Ok o /\
    cal_schedule_close weekdays p = Ok k /\ o <= winter (utc_of (utc_moment ex_day (time_of 10 0))) /\
    (forall q o', p < q -> cal_is_session weekdays q = Ok true ->
       cal_schedule_open weekdays q = Ok o' -> winter (utc_of (utc_moment ex_day (time_of 10 0))) < o').
Proof.
  exact (resolved_close_is_latest weekdays ∅ None winter (utc_moment ex_day (time_of 10 0)) 0 eq_refl).
Defined.

Lemma next_trading_day_of_session_witness :
  next_trading_day (Some weekdays) ∅ None ∅ ex_day = Ok ex_day.
Proof. apply (next_trading_day_of_session weekdays ∅ None ∅ ex_day). by vm_compute. Defined.

Lemma deferred_count_exact_witness :
  deferred_session_count (Some weekdays) ∅ None ∅ ∅ winter
    (utc_moment ex_day (time_of 20 0)) (utc_moment (ex_day + 3) (time_of 22 0)) = Ok 3.
Proof.
  exact (deferred_count_exact weekdays ∅ None winter (utc_moment ex_day (time_of 20 0))
    (utc_moment (ex_day + 3) (time_of 22 0)) 0 0 eq_refl eq_refl).
Defined.

Lemma red_zone_exact_witness :
  in_red_zone None ∅ None ∅ ∅ winter ex_clock (utc_moment ex_day (time_of 16 0)) = Ok true.
Proof.
  refine (proj2 (proj2 (red_zone_exact None ∅ None ∅ ∅ winter ex_clock
    (utc_moment ex_day (time_of 16 0)))) 0 eq_refl eq_refl _). by intros ? ? [=].
Defined.
