(* ===== verification/Instruments.v ===== *)
(** * Instrument resolution: [instruments/models.py], [instruments/resolver.py]
    and [instruments/execution_override.py]

    An instrument row is what the master table gives; the error of a failed
    resolution carries the code its message starts with. *)

From S2P Require Import Prelude Rounding PyText Identifiers RmsModels.

#[local] Open Scope Q_scope.
#[local] Open Scope py_scope.
#[local] Set Warnings "-clear-no-such-hyp".

(** [InstrumentRecord]; a NULL multiplier of the table is [None]. *)
Record InstrumentRecord : Type := {
  ir_symbol : string;
  ir_sec_type : string;
  ir_trade_conid : Z;
  ir_market_data_conid : option Z;
  ir_exchange : string;
  ir_currency : string;
  ir_multiplier : option Q;
  ir_underlying_exchange : option string;
  ir_size_increment : option Q
}.

(** [InstrumentCatalog]: a lookup by symbol and security type. *)
Class InstrumentCatalog : Type := find_all : string -> string -> list InstrumentRecord.

Definition EmptyInstrumentCatalog : InstrumentCatalog := fun _ _ => [].

Definition same_code (a b : string) : bool :=
  (str_upper (str_strip a) =? str_upper (str_strip b))%string.

Definition InMemoryInstrumentCatalog (rows : list InstrumentRecord) : InstrumentCatalog :=
  fun symbol sec_type =>
    List.filter (fun row => same_code (ir_symbol row) symbol && same_code (ir_sec_type row) sec_type)
      rows.

(** [ResolvedInstrument.identity_key]. *)
Definition identity_key (r : ResolvedInstrument) : string :=
  (ri_symbol r ++ "-" ++ ri_sec_type r ++ "-" ++ ri_exchange r ++ "-" ++ ri_currency r
   ++ match ri_con_id r with
      | Some c => if (c =? 0)%Z then EmptyString else ":" ++ str_Z c
      | None => EmptyString
      end)%string.

(** ** The STK to CFD map *)
Definition STK_TO_CFD : string := "STK_TO_CFD".
Definition MODEL_BLUE_STRATEGY_ID : string := "model_blue".

(** [enabled] is the setting [execute_stk_as_cfd]. *)
Definition apply_stk_to_cfd_for_strategy (enabled : bool) (strategy : string) : bool :=
  if negb enabled then false
  else (normalize_strategy_id (JStr strategy) =? MODEL_BLUE_STRATEGY_ID)%string.

Definition execution_instrument_type (requested : string) (enabled : bool)
    : string * option string :=
  let raw := str_upper (str_strip requested) in
  if str_empty raw then (raw, None)
  else if enabled && (raw =? "STK")%string then ("CFD", Some STK_TO_CFD)
  else (raw, None).

(** [_EXPLICIT_SEC_TYPE]. *)
Definition EXPLICIT_SEC_TYPE (raw : string) : option string :=
  if (raw =? "STK")%string then Some "STK"
  else if (raw =? "ETF")%string then Some "STK"
  else if (raw =? "CFD")%string then Some "CFD"
  else None.

Definition ibkr_sec_type (requested : string) : result string :=
  let raw := str_strip requested in
  if str_empty raw then Raise (InstrumentResolutionError "MISSING_INSTRUMENT_TYPE")
  else match EXPLICIT_SEC_TYPE (str_upper raw) with
       | None => Raise (InstrumentResolutionError "UNSUPPORTED_INSTRUMENT_TYPE")
       | Some mapped => Ok mapped
       end.

Definition ibkr_sec_type_or_none (requested : option string) : option string :=
  let raw := str_upper (str_strip (opt_str requested)) in
  if str_empty raw then None else Some (default raw (EXPLICIT_SEC_TYPE raw)).

Definition EXPIRY_SEC_TYPES : list string := ["FUT"; "FOP"; "OPT"].

Definition is_expiry_instrument (instrument_type : option string) : bool :=
  let raw := str_upper (str_strip (opt_str instrument_type)) in
  bool_decide (raw ∈ EXPIRY_SEC_TYPES)
  || match ibkr_sec_type_or_none (Some raw) with
     | Some t => bool_decide (t ∈ EXPIRY_SEC_TYPES)
     | None => false
     end.

(** ** Resolution of a leg *)
Definition DEFAULT_STK_EXCHANGE : string := "SMART".
Definition DEFAULT_STK_CURRENCY : string := "USD".

Definition optional_con_id (raw : option Z) : option Z :=
  match raw with
  | None => None
  | Some value => if (value <=? 0)%Z then None else Some value
  end.

Definition require_con_id (raw : option Z) : result Z :=
  match optional_con_id raw with
  | None => Raise (InstrumentResolutionError "INVALID_CONID")
  | Some value => Ok value
  end.

(** [s or None]. *)
Definition none_if_empty (s : option string) : option string :=
  match s with Some t => if str_empty t then None else Some t | None => None end.

Definition resolve_stk (symbol requested sec_type : string) (market currency : option string)
    (con_id : option Z) (record : option InstrumentRecord) : ResolvedInstrument :=
  let row_text f := match record with Some r => str_strip (f r) | None => EmptyString end in
  let resolved_con :=
    match optional_con_id con_id, record with
    | None, Some r => optional_con_id (Some (ir_trade_conid r))
    | c, _ => c
    end in {|
  ri_symbol := symbol;
  ri_requested_instrument_type := str_upper requested;
  ri_sec_type := sec_type;
  ri_exchange := str_or (str_strip (opt_str market)) (str_or (row_text ir_exchange) DEFAULT_STK_EXCHANGE);
  ri_currency := str_or (str_strip (opt_str currency)) (str_or (row_text ir_currency) DEFAULT_STK_CURRENCY);
  ri_con_id := resolved_con;
  ri_market_data_con_id := optional_con_id (record ≫= ir_market_data_conid);
  ri_multiplier := default 1 (record ≫= ir_multiplier);
  ri_primary_exchange := none_if_empty (record ≫= ir_underlying_exchange);
  ri_size_increment := record ≫= ir_size_increment |}.

Definition resolve_mapped_cfd (symbol requested : string) (market currency : option string)
    (con_id : option Z) : result ResolvedInstrument :=
  let exchange := str_or (str_strip (opt_str market)) DEFAULT_STK_EXCHANGE in
  let ccy := str_or (str_strip (opt_str currency)) DEFAULT_STK_CURRENCY in
  if str_empty exchange || str_empty ccy
  then Raise (InstrumentResolutionError "INSTRUMENT_RESOLUTION_FAILED")
  else Ok {|
    ri_symbol := symbol; ri_requested_instrument_type := str_upper requested;
    ri_sec_type := "CFD"; ri_exchange := exchange; ri_currency := ccy;
    ri_con_id := optional_con_id con_id; ri_market_data_con_id := None; ri_multiplier := 1;
    ri_primary_exchange := None; ri_size_increment := None |}.

Definition resolve_cfd (symbol requested : string) (market currency : option string)
    (con_id : option Z) (record : option InstrumentRecord) : result ResolvedInstrument :=
  match record with
  | None => Raise (InstrumentResolutionError "INSTRUMENT_METADATA_MISSING")
  | Some r =>
      if negb (str_upper (str_strip (ir_sec_type r)) =? "CFD")%string
      then Raise (InstrumentResolutionError "INSTRUMENT_METADATA_MISSING")
      else
        let raw := match con_id with
                   | Some c => if (c =? 0)%Z then ir_trade_conid r else c
                   | None => ir_trade_conid r
                   end in
        let! resolved_con := require_con_id (Some raw) in
        let exchange := str_or (str_strip (opt_str market)) (str_strip (ir_exchange r)) in
        let ccy := str_or (str_strip (opt_str currency)) (str_strip (ir_currency r)) in
        if str_empty exchange || str_empty ccy
        then Raise (InstrumentResolutionError "INSTRUMENT_METADATA_MISSING")
        else Ok {|
          ri_symbol := symbol; ri_requested_instrument_type := str_upper requested;
          ri_sec_type := "CFD"; ri_exchange := exchange; ri_currency := ccy;
          ri_con_id := Some resolved_con;
          ri_market_data_con_id := optional_con_id (ir_market_data_conid r);
          ri_multiplier := default 1 (ir_multiplier r);
          ri_primary_exchange := none_if_empty (ir_underlying_exchange r);
          ri_size_increment := ir_size_increment r |}
  end.

Definition resolve_leg (symbol : string) (instrument_type market currency : option string)
    (con_id : option Z) (catalog : InstrumentCatalog) (map_on : bool)
    : result ResolvedInstrument :=
  let symbol_clean := str_strip symbol in
  if str_empty symbol_clean then Raise (InstrumentResolutionError "MISSING_SYMBOL")
  else
    let requested := str_strip (opt_str instrument_type) in
    let (execution_type, override) := execution_instrument_type requested map_on in
    let! sec_type := ibkr_sec_type execution_type in
    if map_on && (sec_type =? "CFD")%string then
      if (str_upper requested =? "STK")%string && negb (bool_decide (override = Some STK_TO_CFD))
      then Raise (InstrumentResolutionError "STK_TO_CFD")
      else
        let! resolved :=
          match catalog symbol_clean "CFD" with
          | [] => resolve_mapped_cfd symbol_clean requested market currency con_id
          | [r] => resolve_cfd symbol_clean requested market currency con_id (Some r)
          | _ => Raise (InstrumentResolutionError "AMBIGUOUS_INSTRUMENT")
          end in
        if negb (ri_sec_type resolved =? "CFD")%string
        then Raise (InstrumentResolutionError "STK_TO_CFD") else Ok resolved
    else
      let with_record record :=
        if (sec_type =? "CFD")%string
        then resolve_cfd symbol_clean requested market currency con_id record
        else Ok (resolve_stk symbol_clean requested sec_type market currency con_id record) in
      match catalog symbol_clean sec_type with
      | [] => with_record None
      | [r] => with_record (Some r)
      | _ => Raise (InstrumentResolutionError "AMBIGUOUS_INSTRUMENT")
      end.

(** ** Lots, and the legs of an intent *)
Definition apply_size_increment (quantity increment : Q) : result Q :=
  if increment <=? 0 then Raise (ValueError "size_increment must be positive")
  else
    let lots := inject_Z (round_down (ddiv quantity increment)) in
    Ok (dmul lots increment).

(** The body of the loop of [attach_resolved]: the new leg, [None] when the
    quantity rounds down to nothing. *)
Definition attach_leg (mkt : option string) (catalog : InstrumentCatalog) (map_on : bool)
    (leg : OrderLeg) : result (option OrderLeg) :=
  let! resolved :=
    match leg_resolved leg with
    | Some r => Ok r
    | None =>
        resolve_leg (leg_symbol leg) (leg_instrument_type leg)
          (match none_if_empty mkt with Some m => Some m | None => leg_exchange leg end)
          (leg_currency leg) (leg_con_id leg) catalog map_on
    end in
  let qty := dec_of_num (leg_quantity leg) in
  let! qty :=
    match ri_size_increment resolved with
    | Some increment =>
        if 0 <? increment then
          let! q := apply_size_increment qty increment in
          Ok (if q <=? 0 then None else Some q)
        else Ok (Some qty)
    | None => Ok (Some qty)
    end in
  Ok (match qty with
      | None => None
      | Some qty => Some {|
          leg_symbol := leg_symbol leg; leg_side := leg_side leg;
          leg_quantity := NFloat (fl qty); leg_price := leg_price leg;
          leg_contract_month := leg_contract_month leg;
          leg_con_id := match ri_con_id resolved with Some c => Some c | None => leg_con_id leg end;
          leg_notional := Some (dmul qty (leg_price leg));
          leg_instrument_type :=
            Some (str_or (opt_str (leg_instrument_type leg)) (ri_requested_instrument_type resolved));
          leg_weight := leg_weight leg; leg_leg_index := leg_leg_index leg;
          leg_metadata := leg_metadata leg; leg_exchange := Some (ri_exchange resolved);
          leg_currency := Some (ri_currency resolved); leg_resolved := Some resolved |}
      end).

(** The loop: the new legs and the number of failures. *)
Fixpoint attach_legs (mkt : option string) (catalog : InstrumentCatalog) (map_on : bool)
    (l : list OrderLeg) : result (list OrderLeg * nat) :=
  match l with
  | [] => Ok ([], 0%nat)
  | leg :: l =>
      let outcome :=
        match attach_leg mkt catalog map_on leg with
        | Raise (InstrumentResolutionError _) => Ok None
        | r => r
        end in
      let! new_leg := outcome in
      let! (new_legs, failures) := attach_legs mkt catalog map_on l in
      Ok (match new_leg with
          | Some x => (x :: new_legs, failures)
          | None => (new_legs, S failures)
          end)
  end.

(** [replace(intent, legs=...)]. *)
Definition with_legs (intent : OrderIntent) (l : list OrderLeg) : OrderIntent := {|
  signal_id := signal_id intent; strategy_id := strategy_id intent; action := action intent;
  legs := l; account_id := account_id intent; ibkr_account := ibkr_account intent;
  market := market intent; timestamp := timestamp intent; intent_mode := intent_mode intent |}.

Definition attach_resolved (intent : OrderIntent) (catalog : InstrumentCatalog) (map_on : bool)
    : result OrderIntent :=
  let! (new_legs, failures) := attach_legs (market intent) catalog map_on (legs intent) in
  if (0 <? Z.of_nat failures)%Z
  then Raise (InstrumentResolutionError "INSTRUMENT_RESOLUTION_FAILED")
  else Ok (with_legs intent new_legs).

(** ** Broker contracts

    The fields of the [ibapi] contract that the program sets. *)
Record Contract : Type := {
  co_symbol : string;
  co_secType : string;
  co_exchange : string;
  co_currency : string;
  co_conId : option Z;
  co_primaryExchange : option string;
  co_multiplier : option Q
}.

(** A truthy [conId]. *)
Definition nonzero (c : option Z) : option Z :=
  match c with Some c => if (c =? 0)%Z then None else Some c | None => None end.

Definition ibkr_contract_from_resolved (r : ResolvedInstrument) : Contract := {|
  co_symbol := ri_symbol r; co_secType := ri_sec_type r; co_exchange := ri_exchange r;
  co_currency := ri_currency r; co_conId := nonzero (ri_con_id r);
  co_primaryExchange := none_if_empty (ri_primary_exchange r);
  co_multiplier := if Qeq_bool (ri_multiplier r) 1 then None else Some (ri_multiplier r) |}.

Definition ibkr_market_data_contract_from_resolved (r : ResolvedInstrument) : Contract :=
  let contract := ibkr_contract_from_resolved r in
  let md_con := match nonzero (ri_market_data_con_id r) with
                | Some c => Some c
                | None => ri_con_id r
                end in {|
  co_symbol := co_symbol contract; co_secType := co_secType contract;
  co_exchange := co_exchange contract; co_currency := co_currency contract;
  co_conId := match nonzero md_con with Some c => Some c | None => co_conId contract end;
  co_primaryExchange := co_primaryExchange contract; co_multiplier := co_multiplier contract |}.

Definition ibkr_stk_mark_contract (symbol : string) (con_id : option Z)
    (exchange currency : string) : Contract := {|
  co_symbol := str_upper (str_strip symbol); co_secType := "STK";
  co_exchange := str_or exchange DEFAULT_STK_EXCHANGE;
  co_currency := str_or currency DEFAULT_STK_CURRENCY;
  co_conId := optional_con_id con_id; co_primaryExchange := None; co_multiplier := None |}.

Definition stk_mark_con_id_from_catalog (symbol : string) (catalog : option InstrumentCatalog)
    : option Z :=
  match catalog with
  | None => None
  | Some c =>
      let symbol_clean := str_upper (str_strip symbol) in
      let from_cfd :=
        match c symbol_clean "CFD" with
        | [row] =>
            let md := optional_con_id (ir_market_data_conid row) in
            let trade := optional_con_id (Some (ir_trade_conid row)) in
            match md with Some _ => if decide (md = trade) then None else md | None => None end
        | _ => None
        end in
      match c symbol_clean "STK" with
      | [row] => match optional_con_id (ir_market_data_conid row) with
                 | Some v => Some v
                 | None => optional_con_id (Some (ir_trade_conid row))
                 end
      | _ => from_cfd
      end
  end.

Definition stk_mark_con_id_from_resolved (resolved : option ResolvedInstrument) : option Z :=
  match resolved with
  | None => None
  | Some r =>
      let md := optional_con_id (ri_market_data_con_id r) in
      let trade := optional_con_id (ri_con_id r) in
      match md with Some _ => if decide (md = trade) then None else md | None => None end
  end.

(** ** What resolution guarantees *)

(** The security type a requested product executes as. *)
Definition executed_type (requested : string) (map_on : bool) : option string :=
  let raw := str_upper (str_strip requested) in
  if (raw =? "STK")%string then Some (if map_on then "CFD" else "STK")
  else if (raw =? "ETF")%string then Some "STK"
  else if (raw =? "CFD")%string then Some "CFD"
  else None.

Lemma str_or_nonempty (s d : string) : str_empty d = false -> str_empty (str_or s d) = false.
Proof. intros H. unfold str_or. destruct (str_empty s) eqn:E; [done|]. by rewrite E. Qed.

Lemma optional_con_id_pos (c : option Z) (v : Z) : optional_con_id c = Some v -> (0 < v)%Z.
Proof. destruct c as [c|]; [|done]. simpl. destruct (c <=? 0)%Z eqn:E; [done|]. intros [= <-]. bool_to_prop. lia. Qed.

(** What every way of resolving promises of its result. *)
Definition executable (sec_type : string) (r : ResolvedInstrument) : Prop :=
  ri_sec_type r = sec_type /\ str_empty (ri_exchange r) = false
  /\ str_empty (ri_currency r) = false /\ (forall c, ri_con_id r = Some c -> (0 < c)%Z).

Lemma resolve_stk_executable symbol requested sec_type mkt ccy con record :
  executable sec_type (resolve_stk symbol requested sec_type mkt ccy con record).
Proof.
  repeat split; cbn; try (by apply str_or_nonempty, str_or_nonempty).
  intros c. destruct (optional_con_id con) eqn:E.
  - intros [= <-]. by eapply optional_con_id_pos.
  - destruct record as [i|]; [|done].
    change (optional_con_id (Some (ir_trade_conid i)) = Some c -> (0 < c)%Z).
    apply optional_con_id_pos.
Qed.

Lemma resolve_mapped_cfd_executable symbol requested mkt ccy con r :
  resolve_mapped_cfd symbol requested mkt ccy con = Ok r ->
  executable "CFD" r /\ ri_symbol r = symbol.
Proof.
  unfold resolve_mapped_cfd. case_match eqn:E; [done|]. intros [= <-]. bool_to_prop.
  repeat split; cbn; try done. apply optional_con_id_pos.
Qed.

Lemma resolve_cfd_executable symbol requested mkt ccy con record r :
  resolve_cfd symbol requested mkt ccy con record = Ok r ->
  executable "CFD" r /\ ri_symbol r = symbol /\ is_Some (ri_con_id r) /\ is_Some record.
Proof.
  unfold resolve_cfd. destruct record as [rec|]; [|done]. case_match; [done|].
  intros Hr. apply rbind_ok in Hr as (c & Hc & Hr). case_match eqn:E; [done|].
  injection Hr as <-. bool_to_prop. repeat split; cbn; try done.
  intros c' [= <-]. unfold require_con_id in Hc. destruct (optional_con_id _) eqn:Eo; [|done].
  injection Hc as <-. by eapply optional_con_id_pos.
Qed.

Lemma upper_strip_idemp (s : string) :
  str_upper (str_strip (str_upper (str_strip s))) = str_upper (str_strip s).
Proof.
  unfold str_upper. by rewrite (strip_str_map _ is_space_upper), (str_map_idemp _ upper_char_idemp), strip_idemp.
Qed.

(** The type the map and the table of explicit types give. *)
Lemma sec_type_executed (ty : string) (map_on : bool) (t : string) :
  ibkr_sec_type (fst (execution_instrument_type (str_strip ty) map_on)) = Ok t ->
  executed_type ty map_on = Some t.
Proof.
  unfold execution_instrument_type, executed_type. rewrite strip_idemp.
  set (raw := str_upper (str_strip ty)).
  assert (Hraw : str_upper (str_strip raw) = raw) by apply upper_strip_idemp.
  assert (Hplain : ibkr_sec_type raw = Ok t -> EXPLICIT_SEC_TYPE raw = Some t).
  { unfold ibkr_sec_type. case_match; [done|]. rewrite Hraw. case_match; [|done]. by intros [= ->]. }
  destruct (str_empty raw) eqn:Ee; cbn [fst].
  { destruct raw; [by vm_compute|done]. }
  destruct (map_on && _) eqn:Em; cbn [fst].
  - bool_to_prop. subst map_on. intros H. destruct (String.eqb_spec raw "STK"); [|done].
    vm_compute in H. by injection H as <-.
  - intros H. apply Hplain in H. unfold EXPLICIT_SEC_TYPE in H.
    destruct (raw =? "STK")%string; [|done]. rewrite andb_true_r in Em. by rewrite Em.
Qed.

Lemma explicit_types (ty : string) (map_on : bool) (t : string) :
  executed_type ty map_on = Some t -> t = "STK"%string \/ t = "CFD"%string.
Proof. unfold executed_type. repeat case_match; intros [= <-]; auto. Qed.

Section ResolveLeg.
Context {symbol : string} {instrument_type mkt ccy : option string} {con_id : option Z}.
Context {catalog : InstrumentCatalog} {map_on : bool}.
Local Abbreviation resolve :=
  (resolve_leg symbol instrument_type mkt ccy con_id catalog map_on).

(** A resolved leg executes as the product its signal asked for, and as
    nothing else: an STK signal as CFD exactly when the map is on, an ETF
    signal as STK, a CFD signal as CFD -- never as a stock, whatever the
    catalog holds.  The contract has the leg's symbol, an exchange, a currency
    and only positive contract ids, and without the map a CFD has the contract
    id of exactly one row of the catalog. *)
Theorem resolve_leg_sound (r : ResolvedInstrument) :
  resolve = Ok r ->
  exists t, executed_type (opt_str instrument_type) map_on = Some t
    /\ executable t r /\ ri_symbol r = str_strip symbol
    /\ ri_requested_instrument_type r = str_upper (str_strip (opt_str instrument_type))
    /\ (t = "CFD"%string -> map_on = false ->
        is_Some (ri_con_id r) /\ exists row, catalog (str_strip symbol) "CFD"%string = [row]).
Proof.
  unfold resolve_leg. destruct (str_empty _); [done|].
  pose proof (sec_type_executed (opt_str instrument_type) map_on) as Hty.
  destruct (execution_instrument_type _ _) as [et ov]. cbn [fst] in Hty.
  intros H. apply rbind_ok in H as (t & Ht & H). specialize (Hty t Ht).
  exists t. split; [done|]. destruct (map_on && (t =? "CFD")%string) eqn:Em.
  - bool_to_prop. subst. case_match; [done|]. apply rbind_ok in H as (r' & Hr & H).
    case_match; [done|]. injection H as <-.
    assert (Hx : executable "CFD" r' /\ ri_symbol r' = str_strip symbol
      /\ ri_requested_instrument_type r' = str_upper (str_strip (opt_str instrument_type))).
    { destruct (catalog _ _) as [|row [|]]; [| |done].
      - destruct (resolve_mapped_cfd_executable _ _ _ _ _ _ Hr) as [? ?]. split_and!; try done.
        unfold resolve_mapped_cfd in Hr. case_match; [done|]. by injection Hr as <-.
      - destruct (resolve_cfd_executable _ _ _ _ _ _ _ Hr) as (? & ? & _). split_and!; try done.
        unfold resolve_cfd in Hr. case_match; [done|].
        apply rbind_ok in Hr as (c & _ & Hr). case_match; [done|]. by injection Hr as <-. }
    naive_solver.
  - assert (Hrec : forall record,
      (if (t =? "CFD")%string
       then resolve_cfd (str_strip symbol) (str_strip (opt_str instrument_type)) mkt ccy con_id record
       else Ok (resolve_stk (str_strip symbol) (str_strip (opt_str instrument_type)) t mkt ccy con_id record))
      = Ok r ->
      executable t r /\ ri_symbol r = str_strip symbol
      /\ ri_requested_instrument_type r = str_upper (str_strip (opt_str instrument_type))
      /\ (t = "CFD"%string -> is_Some (ri_con_id r) /\ is_Some record)).
    { intros record. destruct (String.eqb_spec t "CFD") as [->|Hn].
      - intros Hr. destruct (resolve_cfd_executable _ _ _ _ _ _ _ Hr) as (? & ? & ? & ?).
        split_and!; try done. unfold resolve_cfd in Hr. case_match; [|done]. case_match; [done|].
        apply rbind_ok in Hr as (c & _ & Hr). case_match; [done|]. by injection Hr as <-.
      - intros [= <-]. split_and!; try done. apply resolve_stk_executable. }
    assert (Ht' : t = "CFD"%string -> catalog (str_strip symbol) t = catalog (str_strip symbol) "CFD"%string)
      by (by intros ->).
    destruct (catalog (str_strip symbol) t) as [|row [|]] eqn:Ec; [| |done];
      apply Hrec in H as (? & ? & ? & H); split_and!; try done; intros E _;
      destruct (H E) as [? Hsome]; [by destruct Hsome|]. split; [done|].
    exists row. by rewrite <- Ht'.
Qed.
End ResolveLeg.

(** A quantity in whole lots of [increment]: positive, not above [q], and
    less than one lot below it -- up to the rounding of decimals. *)
Definition whole_lots (q increment qty : Q) : Prop :=
  exists lots : Z, (0 < lots)%Z /\ qty = dmul (inject_Z lots) increment
    /\ inject_Z lots * increment <= q * (1 + dec_u)
    /\ q * (1 - dec_u) - increment < inject_Z lots * increment.

Lemma apply_size_increment_lots (q increment qty : Q) :
  0 < increment -> apply_size_increment q increment = Ok qty -> 0 < qty ->
  whole_lots q increment qty.
Proof.
  intros Hi. unfold apply_size_increment. destruct (increment <=? 0) eqn:Ei; bool_to_prop; [lra|].
  intros [= <-]. set (lots := round_down (ddiv q increment)). intros Hq.
  assert (Hl : (0 < lots)%Z).
  { destruct (Z.lt_ge_cases 0 lots) as [|Hle]; [done|exfalso].
    rewrite Zle_Qle in Hle. change (inject_Z 0) with 0 in Hle.
    assert (Hp : inject_Z lots * increment <= 0) by nra.
    pose proof (rounds_nonpos (f := ctx) _ Hp). unfold dmul in Hq. lra. }
  assert (Hd : 0 < ddiv q increment).
  { destruct (Qlt_le_dec 0 (ddiv q increment)) as [|Hd]; [done|exfalso].
    subst lots. unfold round_down in Hl. destruct (0 <=? ddiv q increment) eqn:E; bool_to_prop.
    - assert (E0 : ddiv q increment == 0) by lra. rewrite E0 in Hl. vm_compute in Hl. done.
    - pose proof (Qfloor_resp_le 0 (- ddiv q increment) ltac:(lra)) as HF.
      change (Qfloor 0) with 0%Z in HF. lia. }
  assert (Hq0 : 0 < q).
  { destruct (Qlt_le_dec 0 q) as [|Hn]; [done|exfalso].
    assert (Hp : q / increment <= 0) by (apply Qle_shift_div_r; [done|lra]).
    pose proof (rounds_nonpos (f := ctx) _ Hp). unfold ddiv in Hd. lra. }
  destruct (ddiv_bounds q increment ltac:(lra) Hi) as [B1 B2].
  destruct (round_down_nonneg (ddiv q increment) ltac:(lra)) as [R1 R2]. fold lots in R1, R2.
  exists lots. split_and!; try done; nra.
Qed.

(** What [attach_resolved] makes of a leg. *)
Record attached (leg leg' : OrderLeg) : Prop := {
  att_symbol : leg_symbol leg' = leg_symbol leg;
  att_side : leg_side leg' = leg_side leg;
  att_price : leg_price leg' = leg_price leg;
  att_resolved : exists r, leg_resolved leg' = Some r
    /\ leg_exchange leg' = Some (ri_exchange r) /\ leg_currency leg' = Some (ri_currency r)
    /\ exists qty, leg_quantity leg' = NFloat (fl qty)
       /\ leg_notional leg' = Some (dmul qty (leg_price leg))
       /\ match ri_size_increment r with
          | Some i => if 0 <? i then 0 < qty /\ whole_lots (dec_of_num (leg_quantity leg)) i qty
                      else qty = dec_of_num (leg_quantity leg)
          | None => qty = dec_of_num (leg_quantity leg)
          end
}.

Lemma attach_leg_attached mkt catalog map_on leg leg' :
  attach_leg mkt catalog map_on leg = Ok (Some leg') -> attached leg leg'.
Proof.
  unfold attach_leg. intros H. apply rbind_ok in H as (r & _ & H).
  apply rbind_ok in H as (qty & Hq & H). destruct qty as [qty|]; [|done]. injection H as <-.
  split; try done. exists r. split_and!; try done. exists qty. split_and!; try done.
  destruct (ri_size_increment r) as [i|]; [|by injection Hq as <-].
  destruct (0 <? i) eqn:Ei; [|by injection Hq as <-]. bool_to_prop.
  apply rbind_ok in Hq as (q & Hq & E). destruct (q <=? 0) eqn:E0; [done|].
  injection E as <-. bool_to_prop. split; [done|]. by apply apply_size_increment_lots.
Qed.

Lemma attach_legs_attached mkt catalog map_on l l' n :
  attach_legs mkt catalog map_on l = Ok (l', n) -> n = 0%nat -> Forall2 attached l l'.
Proof.
  revert l' n. induction l as [|leg l IH]; intros l' n; simpl; [intros [= <- <-]; constructor|].
  intros H Hn. apply rbind_ok in H as (o & Ho & H). apply rbind_ok in H as ([ls k] & Hl & H).
  destruct o as [x|]; injection H as <- <-; [|done]. constructor; [|by eapply IH].
  destruct (attach_leg _ _ _ _) as [y|e] eqn:E; [|by destruct e]. injection Ho as ->.
  by eapply attach_leg_attached.
Qed.

Lemma attach_resolved_aux (intent intent' : OrderIntent) (catalog : InstrumentCatalog)
    (map_on : bool) :
  attach_resolved intent catalog map_on = Ok intent' -> length (legs intent') = length (legs intent).
Proof.
  unfold attach_resolved. intros H. apply rbind_ok in H as ([l n] & Hl & H).
  case_match eqn:E; [done|]. injection H as <-. bool_to_prop. symmetry.
  eapply Forall2_length, attach_legs_attached; [exact Hl|lia].
Qed.

(** An intent that leaves [attach_resolved] is the one that entered it but
    for its legs, one for one in order: each keeps its symbol, side and price,
    carries a resolved contract with its exchange and currency, and has the
    quantity of the signal -- rounded down to whole lots, never to nothing,
    where the contract trades in lots -- with the notional of that quantity. *)
Theorem attach_resolved_sound (intent intent' : OrderIntent) (catalog : InstrumentCatalog)
    (map_on : bool) :
  attach_resolved intent catalog map_on = Ok intent' ->
  intent' = with_legs intent (legs intent') /\ Forall2 attached (legs intent) (legs intent').
Proof.
  unfold attach_resolved. intros H. apply rbind_ok in H as ([l n] & Hl & H).
  case_match eqn:E; [done|]. injection H as <-. split; [done|].
  eapply attach_legs_attached; [exact Hl|]. bool_to_prop. lia.
Qed.

(** ** Instances *)
Definition ex_row : InstrumentRecord := {|
  ir_symbol := "SPY"; ir_sec_type := "CFD"; ir_trade_conid := 42; ir_market_data_conid := Some 7%Z;
  ir_exchange := "SMART"; ir_currency := "USD"; ir_multiplier := Some 1;
  ir_underlying_exchange := None; ir_size_increment := Some 5 |}.

Definition ex_resolve : result ResolvedInstrument :=
  resolve_leg " SPY" (Some "stk"%string) None None None (InMemoryInstrumentCatalog [ex_row]) true.

Lemma resolve_leg_sound_witness :
  exists r t, ex_resolve = Ok r /\ executed_type "stk" true = Some t /\ executable t r.
Proof.
  destruct ex_resolve as [r|e] eqn:E; [|vm_compute in E; discriminate].
  destruct (resolve_leg_sound r E) as (t & Ht & Hx & _). exists r, t. by split_and!.
Defined.

Definition ex_attach : result OrderIntent :=
  attach_resolved (ex_intent OPEN [ex_leg "SPY" BUY 13 500]) (InMemoryInstrumentCatalog [ex_row]) true.

Lemma attach_resolved_sound_witness :
  exists i, ex_attach = Ok i /\ map leg_quantity (legs i) = [NFloat 10]
    /\ Forall2 attached [ex_leg "SPY" BUY 13 500] (legs i).
Proof.
  destruct ex_attach as [i|e] eqn:E; [|vm_compute in E; discriminate].
  exists i. split_and!; [done| |apply (attach_resolved_sound _ _ _ _ E)].
  vm_compute in E. by injection E as <-.
Defined.
