(* ===== verification/Oms.v ===== *)
(** * The order management service: [oms/models.py], [oms/basket.py],
    [oms/retry_policy.py] and [oms/oms_service.py]

    Orders are objects that the service, its callers and the broker adapter
    share and mutate: they live in a heap, a list that only grows, and are
    named by their position.  The adapter, the database and the clocks are the
    environment, an interface that [Coordinator.v] and this file run against.
    Time stamps of orders are left out. *)

From S2P Require Import Prelude Rounding PyText PyTime Identifiers RmsModels Instruments.

#[local] Open Scope Q_scope.
#[local] Open Scope py_scope.
#[local] Set Warnings "-clear-no-such-hyp".

(** ** Orders *)
Inductive OMSOrderStatus : Type :=
  | PENDING | SUBMITTED | PARTIALLY_FILLED | FILLED | CANCELLED | REJECTED | ERROR.
#[global] Instance OMSOrderStatus_eq_dec : EqDecision OMSOrderStatus.
Proof. solve_decision. Defined.

(** One fill; the time it was received is left out. *)
Record BrokerExecution : Type := {
  be_exec_id : string;
  be_internal_order_id : string;
  be_symbol : string;
  be_side : string;
  be_quantity : Q;
  be_price : Q;
  be_broker_order_id : option string;
  be_commission : option Q;
  be_commission_currency : option string;
  be_realized_pnl : option Q;
  be_perm_id : option Z
}.

(** [d - x] for a float [x]: a [Decimal] does not subtract a float. *)
Definition num_minus (d : pynum) (x : Q) : result Q :=
  match d with NFloat q => Ok (fl (q - x)) | NDec _ => Raise TypeError end.

(** The dict of executions, in insertion order. *)
Definition executions_weighted_average (executions : list BrokerExecution) : option Q :=
  let live := List.filter (fun e => 0 <? be_quantity e) executions in
  let qty := fold_left (fun a e => dadd a (be_quantity e)) live 0 in
  let notional := fold_left (fun a e => dadd a (dmul (be_quantity e) (be_price e))) live 0 in
  if qty <=? 0 then None else Some (ddiv notional qty).

Definition executions_commission_total (executions : list BrokerExecution) : Q :=
  fold_left (fun a e => match be_commission e with Some c => dadd a c | None => a end)
    executions 0.

Record OMSOrder : Type := {
  internal_order_id : string;
  o_intent : OrderIntent;
  o_symbol : string;
  o_side : option OrderSide;                (* None for a rejected intent without legs *)
  o_quantity : pynum;
  ibkr_order_id : option Z;
  o_status : OMSOrderStatus;
  filled_quantity : Q;
  remaining_quantity : pynum;
  average_fill_price : option Q;
  last_fill_price : option Q;
  limit_price : option Q;
  o_order_type : string;
  error_message : option string;
  parent_signal_id : option string;
  o_leg_index : option Z;
  basket_id : option Z;
  is_compensation : bool;
  compensation_of_internal_order_id : option string;
  o_commission : option Q;
  perm_id : option Z;
  o_executions : list BrokerExecution;      (* the dict, keyed by be_exec_id *)
  last_exec_id : option string;
  o_resolved : option ResolvedInstrument;
  pacer_delayed : bool
}.

(** The constructor with the defaults of the dataclass; [__post_init__] sets
    the remaining quantity. *)
Definition new_order (id : string) (intent : OrderIntent) (symbol : string)
    (side : option OrderSide) (quantity : pynum) (price : option Q) (order_type : string)
    (status : OMSOrderStatus) (error : option string) (leg_index : option Z)
    (resolved : option ResolvedInstrument) : OMSOrder := {|
  internal_order_id := id; o_intent := intent; o_symbol := symbol; o_side := side;
  o_quantity := quantity; ibkr_order_id := None; o_status := status; filled_quantity := 0;
  remaining_quantity := quantity; average_fill_price := None;
  last_fill_price := None; limit_price := price;
  o_order_type := order_type; error_message := error;
  parent_signal_id := Some (signal_id intent); o_leg_index := leg_index; basket_id := None;
  is_compensation := false; compensation_of_internal_order_id := None; o_commission := None;
  perm_id := None; o_executions := []; last_exec_id := None; o_resolved := resolved; pacer_delayed := false |}.

(** The fields the broker's side moves. *)
Definition with_broker (o : OMSOrder) (ibkr : option Z) (status : OMSOrderStatus) (filled : Q)
    (remaining : pynum) (average last : option Q) (error : option string) (commission : option Q)
    (perm : option Z) (executions : list BrokerExecution) (exec : option string) (delayed : bool)
    : OMSOrder := {|
  internal_order_id := internal_order_id o; o_intent := o_intent o; o_symbol := o_symbol o;
  o_side := o_side o; o_quantity := o_quantity o; ibkr_order_id := ibkr; o_status := status;
  filled_quantity := filled; remaining_quantity := remaining; average_fill_price := average;
  last_fill_price := last; limit_price := limit_price o; o_order_type := o_order_type o;
  error_message := error; parent_signal_id := parent_signal_id o; o_leg_index := o_leg_index o;
  basket_id := basket_id o; is_compensation := is_compensation o;
  compensation_of_internal_order_id := compensation_of_internal_order_id o;
  o_commission := commission; perm_id := perm; o_executions := executions; last_exec_id := exec;
  o_resolved := o_resolved o; pacer_delayed := delayed |}.

Definition set_status (s : OMSOrderStatus) (msg : option string) (o : OMSOrder) : OMSOrder :=
  with_broker o (ibkr_order_id o) s (filled_quantity o) (remaining_quantity o)
    (average_fill_price o) (last_fill_price o) msg (o_commission o) (perm_id o) (o_executions o)
    (last_exec_id o) (pacer_delayed o).
Definition set_error (msg : string) : OMSOrder -> OMSOrder := set_status ERROR (Some msg).

(** The bookkeeping fields the coordinator writes. *)
Definition set_basket (leg_index : option Z) (basket : option Z) (compensation : bool)
    (compensation_of : option string) (o : OMSOrder) : OMSOrder := {|
  internal_order_id := internal_order_id o; o_intent := o_intent o; o_symbol := o_symbol o;
  o_side := o_side o; o_quantity := o_quantity o; ibkr_order_id := ibkr_order_id o;
  o_status := o_status o; filled_quantity := filled_quantity o;
  remaining_quantity := remaining_quantity o; average_fill_price := average_fill_price o;
  last_fill_price := last_fill_price o; limit_price := limit_price o;
  o_order_type := o_order_type o;
  error_message := error_message o; parent_signal_id := parent_signal_id o;
  o_leg_index := leg_index; basket_id := basket; is_compensation := compensation;
  compensation_of_internal_order_id := compensation_of; o_commission := o_commission o;
  perm_id := perm_id o; o_executions := o_executions o; last_exec_id := last_exec_id o;
  o_resolved := o_resolved o; pacer_delayed := pacer_delayed o |}.

(** ** Baskets and the retry policy *)
Inductive BasketState : Type :=
  | B_PENDING | EXECUTING | B_OPEN | B_CLOSED | UNWINDING | COMPENSATED | CRITICAL | B_RECOVERED.
#[global] Instance BasketState_eq_dec : EqDecision BasketState.
Proof. solve_decision. Defined.

Record Basket : Type := {
  b_account_id : option Z;
  b_trade_id : string;
  b_strategy_id : string;
  b_action : OrderAction;
  b_intended_leg_count : Z;
  b_state : BasketState;
  b_id : option Z;
  b_signal_pk : option Z;
  b_orders : list nat;
  b_compensation_orders : list nat;
  b_recovery_status : option string
}.

Record ExecutionRetryPolicy : Type := {
  rp_enabled : bool;
  square_off_after_sec : Q;
  max_retries : Z;
  retry_interval_sec : Q;
  retry_window_sec : Q
}.

Definition default_retry_policy : ExecutionRetryPolicy := {|
  rp_enabled := true; square_off_after_sec := 30; max_retries := 3; retry_interval_sec := 5;
  retry_window_sec := 30 |}.

Definition validate_policy (p : ExecutionRetryPolicy) : result unit :=
  if square_off_after_sec p <=? 0 then Raise (ValueError "square_off_after_sec must be greater than 0.")
  else if (max_retries p <? 0)%Z then Raise (ValueError "max_retries must be >= 0.")
  else if retry_interval_sec p <=? 0 then Raise (ValueError "retry_interval_sec must be greater than 0.")
  else if retry_window_sec p <=? 0 then Raise (ValueError "retry_window_sec must be greater than 0.")
  else if retry_window_sec p <? retry_interval_sec p
  then Raise (ValueError "retry_window_sec must be >= retry_interval_sec.")
  else Ok tt.

Definition paper_retry_ports_allowed (port : Z) : bool :=
  bool_decide (port ∈ [7497; 4002; 4001]%Z).

(** ** The environment

    [Step] is what the environment and the program share: its own state and
    the order objects.  [env_prepare] is [IBKRExecutionAdapter.submit_order]
    up to its [before_place] callback ([false] when it returned without
    placing), [env_place] the rest of it; [env_wait] waits for all the given
    orders at once; [env_events] lets broker callbacks run. *)
Abbreviation Step E := (E * list OMSOrder)%type.

Class Environment (E : Type) : Type := {
  env_prepare : nat -> Step E -> Step E * result bool;
  env_place : nat -> Step E -> Step E * result unit;
  env_cancel : nat -> Step E -> Step E * result unit;
  env_wait : list string -> Q -> Step E -> Step E * list (result unit);
  env_events : Step E -> Step E;
  env_monotonic : E -> E * Q;
  env_now : E -> Z;
  env_kill_switch : E -> Z -> bool;
  env_write_ok : E -> E * bool;
  env_row_id : E -> Z
}.

(** What the program relies on: the broker fills an order and moves its
    status, and nothing else of it; fills are never taken back, and a filled
    order stays filled. *)
Record same_order (o o' : OMSOrder) : Prop := {
  so_id : internal_order_id o' = internal_order_id o;
  so_side : o_side o' = o_side o;
  so_symbol : o_symbol o' = o_symbol o;
  so_quantity : o_quantity o' = o_quantity o;
  so_leg : o_leg_index o' = o_leg_index o;
  so_comp : is_compensation o' = is_compensation o;
  so_filled : filled_quantity o <= filled_quantity o'
}.
Record order_evolves (o o' : OMSOrder) : Prop := {
  oe_same : same_order o o';
  oe_filled : o_status o = FILLED -> o_status o' = FILLED
}.

(** All orders of a heap, but possibly the one at [except], evolve; that one
    stays the same order. *)
Definition heap_evolves (except : option nat) (h h' : list OMSOrder) : Prop :=
  length h' = length h /\ forall i o, h !! i = Some o -> exists o', h' !! i = Some o'
    /\ same_order o o' /\ (except <> Some i -> order_evolves o o').

Class LawfulEnvironment (E : Type) `{Environment E} : Prop := {
  prepare_law i s : heap_evolves (Some i) s.2 (env_prepare i s).1.2;
  place_law i s : heap_evolves (Some i) s.2 (env_place i s).1.2;
  cancel_law i s : heap_evolves None s.2 (env_cancel i s).1.2;
  wait_law ids t s : heap_evolves None s.2 (env_wait ids t s).1.2;
  events_law s : heap_evolves None s.2 (env_events s).2;
  wait_errors ids t s e :
    Raise e ∈ (env_wait ids t s).2 -> e = TimeoutError \/ exists m, e = ValueError m
}.

(** ** State and exceptions *)
Inductive Write : Type :=
  | BasketWrite (account : Z) (trade strategy : string) (action : OrderAction)
      (state : BasketState) (recovery_status : option string)
  | OrderWrite (id : string) (status : OMSOrderStatus) (filled : Q) (compensation : bool)
  | EventWrite (kind : string) (idempotency_key : option string).

(** The order objects, the fields of [OMSService] and [BasketCoordinator], the
    recovery requests and the database writes that were made. *)
Record World (E : Type) : Type := {
  w_env : E;
  w_heap : list OMSOrder;
  w_orders : gmap string nat;
  w_submitted : gset string;
  w_retry_ids : gset string;
  w_critical : gset (Z * string);
  w_scheduled : list (Z * string * OrderAction * string);
  w_log : list Write
}.
Arguments w_env {E} _. Arguments w_heap {E} _. Arguments w_orders {E} _.
Arguments w_submitted {E} _. Arguments w_retry_ids {E} _. Arguments w_critical {E} _.
Arguments w_scheduled {E} _. Arguments w_log {E} _.

(** The program's operations act on the world. *)
Abbreviation M E A := (St (World E) A).

Section Worlds.
Context {E : Type}.

Definition set_step (s : Step E) (w : World E) : World E := {|
  w_env := s.1; w_heap := s.2; w_orders := w_orders w; w_submitted := w_submitted w;
  w_retry_ids := w_retry_ids w; w_critical := w_critical w; w_scheduled := w_scheduled w;
  w_log := w_log w |}.
Definition set_orders (m : gmap string nat) (w : World E) : World E := {|
  w_env := w_env w; w_heap := w_heap w; w_orders := m; w_submitted := w_submitted w;
  w_retry_ids := w_retry_ids w; w_critical := w_critical w; w_scheduled := w_scheduled w;
  w_log := w_log w |}.
Definition set_submitted (s : gset string) (w : World E) : World E := {|
  w_env := w_env w; w_heap := w_heap w; w_orders := w_orders w; w_submitted := s;
  w_retry_ids := w_retry_ids w; w_critical := w_critical w; w_scheduled := w_scheduled w;
  w_log := w_log w |}.
Definition set_retry_ids (s : gset string) (w : World E) : World E := {|
  w_env := w_env w; w_heap := w_heap w; w_orders := w_orders w; w_submitted := w_submitted w;
  w_retry_ids := s; w_critical := w_critical w; w_scheduled := w_scheduled w;
  w_log := w_log w |}.
Definition set_critical (s : gset (Z * string)) (w : World E) : World E := {|
  w_env := w_env w; w_heap := w_heap w; w_orders := w_orders w; w_submitted := w_submitted w;
  w_retry_ids := w_retry_ids w; w_critical := s; w_scheduled := w_scheduled w;
  w_log := w_log w |}.
Definition add_scheduled (r : Z * string * OrderAction * string) (w : World E) : World E := {|
  w_env := w_env w; w_heap := w_heap w; w_orders := w_orders w; w_submitted := w_submitted w;
  w_retry_ids := w_retry_ids w; w_critical := w_critical w;
  w_scheduled := w_scheduled w ++ [r]; w_log := w_log w |}.
Definition add_log (x : Write) (w : World E) : World E := {|
  w_env := w_env w; w_heap := w_heap w; w_orders := w_orders w; w_submitted := w_submitted w;
  w_retry_ids := w_retry_ids w; w_critical := w_critical w; w_scheduled := w_scheduled w;
  w_log := w_log w ++ [x] |}.

(** An environment step that may fail; an assignment to fields of an order. *)
Definition env_do {A} (f : Step E -> Step E * A) : M E A := fun w =>
  let (s, a) := f (w_env w, w_heap w) in (set_step s w, Ok a).
Definition update_order (i : nat) (f : OMSOrder -> OMSOrder) : M E unit :=
  modify (fun w => set_step (w_env w, alter f i (w_heap w)) w).
Definition orders_at (l : list nat) : M E (list OMSOrder) :=
  get (fun w => omap (fun i => w_heap w !! i) l).
(** The order a local variable names: its position always exists. *)
Definition order_at (i : nat) : M E OMSOrder := fun w =>
  match w_heap w !! i with Some o => (w, Ok o) | None => (w, Raise (OtherError "no object")) end.
End Worlds.

(** ** [OMSService] *)
Section OMSService.
Context {E : Type} `{!Environment E}.
(** The setting [execute_stk_as_cfd]. *)
Variable execute_stk_as_cfd : bool.

Definition account_text (a : option Z) : string :=
  match a with Some a => str_Z a | None => "None" end.
Definition duplicate_key (intent : OrderIntent) : string :=
  (account_text (account_id intent) ++ ":" ++ signal_id intent)%string.

Definition leg_order_id (signal : string) (index leg_count : Z)
    (override_internal_id : option string) (account : option Z) : string :=
  let prefix := match account with Some a => (str_Z a ++ "-")%string | None => EmptyString end in
  match override_internal_id with
  | Some id => if (leg_count =? 1)%Z then id else (id ++ "-L" ++ str_Z index)%string
  | None =>
      if (leg_count =? 1)%Z then ("ORD-" ++ prefix ++ signal)%string
      else ("ORD-" ++ prefix ++ signal ++ "-L" ++ str_Z index)%string
  end.

Definition leg_limit_price (leg : OrderLeg) (price : option Q) (leg_count : Z) : option Q :=
  match price with
  | Some p => if (leg_count =? 1)%Z then Some p else Some (leg_price leg)
  | None => Some (leg_price leg)
  end.

(** [self._orders[id] = order]. *)
Definition track (id : string) (i : nat) : M E unit :=
  modify (fun w => set_orders (<[id := i]> (w_orders w)) w).
(** A new order object, tracked under its id. *)
Definition create (o : OMSOrder) : M E nat :=
  do! i := get (fun w => length (w_heap w)) in
  modify (fun w => set_step (w_env w, w_heap w ++ [o]) w) ;;;
  track (internal_order_id o) i ;;;
  ret i.

Definition create_rejected_order (intent : OrderIntent) (reason : string)
    (override_internal_id : option string) : M E nat :=
  let id := default ("ORD-REJ-" ++ signal_id intent)%string override_internal_id in
  create match legs intent with
         | leg :: _ =>
             new_order id intent (leg_symbol leg) (Some (leg_side leg)) (leg_quantity leg) None
               "LIMIT" REJECTED (Some reason) (Some 0%Z) None
         | [] => new_order id intent "UNKNOWN" None (NFloat 0) None "LIMIT" REJECTED
                   (Some reason) None None
         end.

(** The text of an exception. *)
Definition exn_text (e : exn) : string :=
  match e with
  | ValueError m | OtherError m | InstrumentResolutionError m | ModelBlueValidationError m => m
  | KeyError k => k
  | _ => EmptyString
  end.

(** [IBKRExecutionAdapter.submit_order] with its callback. *)
Definition submit_order (i : nat) (before_place : nat -> M E unit) : M E unit :=
  do! ready := env_do (env_prepare i) in
  do! ready := lift ready in
  if ready then
    before_place i ;;;
    do! placed := env_do (env_place i) in lift placed
  else ret tt.

Definition submit_leg (intent : OrderIntent) (index : Z) (override_internal_id : option string)
    (price : option Q) (order_type : string) (before_place : nat -> M E unit) : M E nat :=
  if (index <? 0)%Z || (Z.of_nat (length (legs intent)) <=? index)%Z then raise IndexError
  else match legs intent !! Z.to_nat index with
  | None => raise IndexError
  | Some leg =>
      let count := Z.of_nat (length (legs intent)) in
      let id := leg_order_id (signal_id intent) index count override_internal_id
                  (account_id intent) in
      let price := leg_limit_price leg price count in
      let resolved :=
        match leg_resolved leg with
        | Some r => Ok r
        | None =>
            resolve_leg (leg_symbol leg) (leg_instrument_type leg)
              (match none_if_empty (market intent) with
               | Some m => Some m | None => leg_exchange leg end)
              (leg_currency leg) (leg_con_id leg) EmptyInstrumentCatalog execute_stk_as_cfd
        end in
      match resolved with
      | Raise (InstrumentResolutionError code) =>
          create (new_order id intent (leg_symbol leg) (Some (leg_side leg)) (leg_quantity leg)
                    price order_type REJECTED (Some code) (Some index) None)
      | Raise e => raise e
      | Ok r =>
          do! i := create (new_order id intent (leg_symbol leg) (Some (leg_side leg))
                      (leg_quantity leg) price order_type PENDING None (Some index) (Some r)) in
          catch (submit_order i before_place ;;; track id i)
                (fun e => update_order i (set_error (exn_text e))) ;;;
          ret i
      end
  end.

Definition no_callback : nat -> M E unit := fun _ => ret tt.

Definition submit_one_leg (intent : OrderIntent) (rms : RMSResult) (index : Z)
    (override_internal_id : option string) (price : option Q) (order_type : string)
    (before_place : nat -> M E unit) : M E nat :=
  do! submitted := get w_submitted in
  (if bool_decide (duplicate_key intent ∈ submitted) then ret tt
   else if bool_decide (res_outcome rms = PASS)
   then modify (set_submitted ({[duplicate_key intent]} ∪ submitted))
   else raise (ValueError "RMS must PASS before submitting a basket leg.")) ;;;
  submit_leg intent index override_internal_id price order_type before_place.

(** [ExecutionResult]. *)
Record ExecutionResult : Type := {
  er_order : nat;
  er_success : bool;
  er_error_message : option string;
  er_orders : list nat
}.

Definition refused (intent : OrderIntent) (reason : string) (override : option string)
    : M E ExecutionResult :=
  do! i := create_rejected_order intent reason override in
  ret {| er_order := i; er_success := false; er_error_message := Some reason; er_orders := [i] |}.

(** [x or y] for optional messages. *)
Definition msg_or (a b : option string) : option string :=
  match none_if_empty a with Some _ => a | None => b end.

Definition failed_status (s : OMSOrderStatus) : bool :=
  match s with REJECTED | ERROR => true | _ => false end.

(** The body of the loop of [submit_intent]. *)
Definition submit_intent_leg (intent : OrderIntent) (override : option string) (price : option Q)
    (order_type : string) (st : list nat * option string) (index : Z)
    : M E (list nat * option string) :=
  let (submitted, first_error) := st in
  do! outcome := catch (do! i := submit_leg intent index override price order_type no_callback in
                        ret (inl i)) (fun e => ret (inr (exn_text e))) in
  match outcome with
  | inr text => ret (submitted, msg_or first_error (Some text))
  | inl i =>
      do! o := order_at i in
      ret (submitted ++ [i],
           if failed_status (o_status o) then msg_or first_error (error_message o)
           else first_error)
  end.

Definition indices (intent : OrderIntent) : list Z :=
  map Z.of_nat (seq 0 (length (legs intent))).

Definition submit_intent (intent : OrderIntent) (rms : RMSResult) (override : option string)
    (price : option Q) (order_type : string) : M E ExecutionResult :=
  if negb (bool_decide (res_outcome rms = PASS))
  then refused intent "RMS check failed with outcome" override
  else
    do! keys := get w_submitted in
    if bool_decide (duplicate_key intent ∈ keys)
    then refused intent ("Duplicate intent submission attempt for signal_id: " ++ signal_id intent)
           override
    else match legs intent with
    | [] => refused intent ("OrderIntent " ++ signal_id intent ++ " has no legs.") override
    | _ =>
        modify (set_submitted ({[duplicate_key intent]} ∪ keys)) ;;;
        do! (submitted, first_error) :=
          loop (submit_intent_leg intent override price order_type) (indices intent) ([], None) in
        match submitted with
        | [] =>
            let reason := str_or (opt_str first_error) "No legs submitted" in
            refused intent reason override
        | i :: _ =>
            do! os := orders_at submitted in
            ret {| er_order := i;
                   er_success := bool_decide (first_error = None)
                                 && forallb (fun o => negb (failed_status (o_status o))) os;
                   er_error_message := first_error; er_orders := submitted |}
        end
    end.

(** The service's [cancel_order], and the adapter's behind it. *)
Definition cancel_order (id : string) : M E unit :=
  do! found := get (fun w => w_orders w !! id) in
  match found with
  | None => raise (ValueError "Order not found.")
  | Some i => do! r := env_do (env_cancel i) in lift r
  end.
End OMSService.

(** ** How orders evolve *)
Lemma same_order_refl (o : OMSOrder) : same_order o o.
Proof. split; try done. apply Qle_refl. Qed.
Lemma same_order_trans (a b c : OMSOrder) : same_order a b -> same_order b c -> same_order a c.
Proof. intros [] []. split; try congruence. by eapply Qle_trans. Qed.
Lemma order_evolves_refl (o : OMSOrder) : order_evolves o o.
Proof. split; [apply same_order_refl|done]. Qed.
Lemma order_evolves_trans (a b c : OMSOrder) :
  order_evolves a b -> order_evolves b c -> order_evolves a c.
Proof. intros [] []. split; [by eapply same_order_trans|auto]. Qed.
#[export] Hint Resolve same_order_refl order_evolves_refl : core.

Lemma heap_evolves_refl except h : heap_evolves except h h.
Proof. split; [done|]. intros i o Ho. exists o. auto. Qed.

Lemma heap_evolves_trans except h1 h2 h3 :
  heap_evolves except h1 h2 -> heap_evolves except h2 h3 -> heap_evolves except h1 h3.
Proof.
  intros [L1 E1] [L2 E2]. split; [congruence|]. intros i o Ho.
  destruct (E1 i o Ho) as (o1 & H1 & S1 & V1). destruct (E2 i o1 H1) as (o2 & H2 & S2 & V2).
  exists o2. split_and!; [done|by eapply same_order_trans|].
  intros Hx. by apply (order_evolves_trans _ o1); auto.
Qed.

Lemma heap_evolves_weaken except h h' : heap_evolves None h h' -> heap_evolves except h h'.
Proof.
  intros [L Ev]. split; [done|]. intros i o Ho. destruct (Ev i o Ho) as (o' & ? & ? & ?).
  exists o'. split_and!; auto.
Qed.

(** One order moved. *)
Lemma alter_evolves except (f : OMSOrder -> OMSOrder) i h :
  (forall o, same_order o (f o)) ->
  (except = Some i \/ forall o, o_status o = FILLED -> o_status (f o) = FILLED) ->
  heap_evolves except h (alter f i h).
Proof.
  intros Hs Hf. split; [by rewrite length_alter|]. intros j o Ho.
  destruct (decide (j = i)) as [->|Hne].
  - exists (f o). rewrite list_lookup_alter_eq, Ho. split; [done|]. split; [done|].
    intros Hx. split; [done|]. destruct Hf as [|Hf]; [done|]. apply Hf.
  - exists o. rewrite list_lookup_alter_ne by done. auto.
Qed.

Lemma with_broker_same o ib st fq rq av la er co pe ex le de :
  filled_quantity o <= fq ->
  same_order o (with_broker o ib st fq rq av la er co pe ex le de).
Proof. by split. Qed.
