(* ===== verification/SimBroker.v ===== *)
(** * A scripted broker

    A concrete environment for the instances of the theorems about baskets: it
    answers orders from a script, cancels on request, delivers late fills at
    chosen moments and fails chosen database writes. *)

From S2P Require Import Prelude RmsModels Oms.

#[local] Open Scope Q_scope.

Inductive Reply : Type := Fill | Partial (q : Q) | Refuse | Drop.

(** [sim_late]: at each moment callbacks run, perhaps a late fill of an order;
    [sim_writes]: whether the next database writes succeed. *)
Record Sim : Type := {
  sim_replies : list Reply;
  sim_late : list (option (nat * Q));
  sim_writes : list bool;
  sim_killed : bool;
  sim_clock : Q
}.

Definition broker_update (s : OMSOrderStatus) (filled : Q) (msg : option string) (o : OMSOrder)
    : OMSOrder :=
  with_broker o (Some 1%Z) s (Qmaxb (filled_quantity o) filled) (remaining_quantity o)
    (average_fill_price o) (last_fill_price o) msg (o_commission o) (perm_id o) (o_executions o)
    (last_exec_id o) (pacer_delayed o).

Definition answer (r : Reply) (o : OMSOrder) : OMSOrder :=
  match r with
  | Fill => broker_update FILLED (num_val (o_quantity o)) None o
  | Partial q => broker_update PARTIALLY_FILLED q None o
  | Refuse => broker_update REJECTED 0 (Some "TWS Error 201"%string) o
  | Drop => broker_update ERROR 0 (Some "Connection closed unexpectedly"%string) o
  end.

Definition cancelled (o : OMSOrder) : OMSOrder :=
  match o_status o with
  | FILLED | CANCELLED | REJECTED => o
  | _ => broker_update CANCELLED 0 None o
  end.

Definition late_fill (q : Q) (o : OMSOrder) : OMSOrder :=
  broker_update (o_status o) q (error_message o) o.

Definition sim_place (i : nat) (s : Step Sim) : Step Sim * result unit :=
  let (b, h) := s in
  match sim_replies b with
  | [] => ((b, h), Ok tt)
  | r :: rs =>
      (({| sim_replies := rs; sim_late := sim_late b; sim_writes := sim_writes b;
           sim_killed := sim_killed b; sim_clock := sim_clock b |}, alter (answer r) i h), Ok tt)
  end.

Definition sim_events (s : Step Sim) : Step Sim :=
  let (b, h) := s in
  match sim_late b with
  | [] => (b, h)
  | x :: l =>
      ({| sim_replies := sim_replies b; sim_late := l; sim_writes := sim_writes b;
          sim_killed := sim_killed b; sim_clock := sim_clock b |},
       match x with Some (i, q) => alter (late_fill q) i h | None => h end)
  end.

Definition sim_write (b : Sim) : Sim * bool :=
  match sim_writes b with
  | [] => (b, true)
  | ok :: l =>
      ({| sim_replies := sim_replies b; sim_late := sim_late b; sim_writes := l;
          sim_killed := sim_killed b; sim_clock := sim_clock b |}, ok)
  end.

#[export] Instance SimEnvironment : Environment Sim := {|
  env_prepare := fun _ s => (s, Ok true);
  env_place := sim_place;
  env_cancel := fun i s => ((s.1, alter cancelled i s.2), Ok tt);
  env_wait := fun ids _ s => (sim_events s, map (fun _ => Ok tt) ids);
  env_events := sim_events;
  env_monotonic := fun b => (b, sim_clock b);
  env_now := fun _ => 0%Z;
  env_kill_switch := fun b _ => sim_killed b;
  env_write_ok := sim_write;
  env_row_id := fun _ => 1%Z |}.

Lemma broker_update_same s q m o : same_order o (broker_update s q m o).
Proof. split; try done. simpl. apply Qmaxb_spec. Qed.

Lemma sim_events_law s : heap_evolves None s.2 (sim_events s).2.
Proof.
  destruct s as [b h]. unfold sim_events. destruct (sim_late b) as [|[[i q]|] l]; simpl;
    try apply heap_evolves_refl.
  apply alter_evolves; [intros; apply broker_update_same|by right].
Qed.

#[export] Instance SimLawful : LawfulEnvironment Sim.
Proof.
  constructor.
  - intros i s. apply heap_evolves_refl.
  - intros i [b h]. simpl. unfold sim_place. destruct (sim_replies b) as [|r rs]; simpl;
      [apply heap_evolves_refl|].
    apply alter_evolves; [|by left]. intros o. destruct r; apply broker_update_same.
  - intros i s. simpl. apply alter_evolves.
    + intros o. unfold cancelled. destruct (o_status o); try apply broker_update_same;
        split; try done; apply Qle_refl.
    + right. intros o Ho. unfold cancelled. by rewrite Ho.
  - intros ids t s. apply sim_events_law.
  - apply sim_events_law.
  - intros ids t s e He. simpl in He. apply list_elem_of_fmap in He as (? & ? & _). done.
Qed.
