(* ===== verification/Coordinator.v ===== *)
(** * The basket coordinator: [oms/coordinator.py]

    One account's attempt to execute an intent as a basket: submit every leg,
    wait, retry the remainders, and undo what was filled when the basket
    cannot be completed.  The persistence of broker callbacks, which runs as
    tasks of its own, is left out. *)

From S2P Require Import Prelude Rounding PyText PyTime Identifiers RmsModels Margin Checks Engine Instruments Oms.

#[local] Open Scope Q_scope.
#[local] Open Scope py_scope.
#[local] Set Warnings "-clear-no-such-hyp".

(** ** Fills *)
(** [_FILL_EPS = 1e-8], a float. *)
Definition FILL_EPS : Q := fl (1 # 100000000).

(** [sum] of floats: the compensated summation of CPython 3.12. *)
Definition sum_step (st : Q * Q) (x : Q) : Q * Q :=
  let (s, c) := st in
  let t := fl (s + x) in
  (t, if Qabs x <=? Qabs s then fl (c + fl (fl (s - t) + x))
      else fl (c + fl (fl (x - t) + s))).
Definition py_sum (l : list Q) : Q :=
  let (s, c) := fold_left sum_step l (0, 0) in fl (s + c).

Definition is_disconnect_parked (o : OMSOrder) : bool :=
  bool_decide (o_status o = ERROR)
  && String.prefix "Connection closed" (opt_str (error_message o)).

Definition is_wait_terminal (o : OMSOrder) : bool :=
  match o_status o with
  | FILLED | CANCELLED | REJECTED => true
  | ERROR => negb (is_disconnect_parked o)
  | _ => false
  end.

Definition filled_qty_for_leg (index : Z) (orders : list OMSOrder) : Q :=
  py_sum (map filled_quantity
    (List.filter (fun o => bool_decide (o_leg_index o = Some index) && negb (is_compensation o))
      orders)).

Definition leg_filled (orders : list OMSOrder) (index : Z) (leg : OrderLeg) : bool :=
  negb (fl (filled_qty_for_leg index orders + FILL_EPS) <? num_val (leg_quantity leg)).

Definition basket_complete (intent : OrderIntent) (orders : list OMSOrder) : bool :=
  forallb (fun il => leg_filled orders il.1 il.2) (enumerate (legs intent)).

Definition compensation_complete (orders submitted : list OMSOrder) : bool :=
  match orders with
  | [] => negb (existsb (fun o => negb (is_compensation o) && (FILL_EPS <? filled_quantity o))
                  submitted)
  | _ => forallb (fun o => bool_decide (o_status o = FILLED)
                           && (num_val (o_quantity o) <=? fl (filled_quantity o + FILL_EPS))) orders
  end.

(** Rows of the orders table, for the ledger's test of a whole basket. *)
Record OrderRow : Type := {
  row_leg : option string;
  row_quantity : option Q;
  row_fill_qty : option Q;
  row_is_compensation : bool
}.

Definition ledger_step (st : gmap string Q * gmap string Q) (o : OrderRow)
    : gmap string Q * gmap string Q :=
  let (fills, targets) := st in
  if row_is_compensation o then st
  else
    let key := str_or (opt_str (row_leg o)) "L0" in
    (<[key := fl (default 0 (fills !! key) + fl (default 0 (row_fill_qty o)))]> fills,
     <[key := Qmaxb (default 0 (targets !! key)) (fl (default 0 (row_quantity o)))]> targets).

Definition basket_complete_from_db_orders (intended_leg_count : Z) (orders : list OrderRow)
    : bool :=
  let (fills, targets) := fold_left ledger_step orders (∅, ∅) in
  if (Z.of_nat (size targets) <? intended_leg_count)%Z then false
  else forallb (fun kt => negb (fl (default 0 (fills !! kt.1) + FILL_EPS) <? kt.2))
         (map_to_list targets).

(** ** The coordinator *)
Record Config : Type := {
  execute_stk_as_cfd : bool;
  session_factory : bool;                  (* a database is configured *)
  fill_timeout : Q;
  cancel_timeout : Q;
  retry_policy : option ExecutionRetryPolicy;
  rms_engine : option (list BaseRMSCheck);
  rms_context : option RMSContext;
  paper_retries_allowed : bool;
  recovery_service : bool                  (* a recovery service is set *)
}.

Definition apply_retry_policy (policy : ExecutionRetryPolicy) (paper : bool) (c : Config)
    : result Config :=
  let! _ := validate_policy policy in
  Ok {| execute_stk_as_cfd := execute_stk_as_cfd c; session_factory := session_factory c;
        fill_timeout := square_off_after_sec policy; cancel_timeout := cancel_timeout c;
        retry_policy := Some policy; rms_engine := rms_engine c; rms_context := rms_context c;
        paper_retries_allowed := paper; recovery_service := recovery_service c |}.

Record BasketExecutionResult : Type := {
  bx_basket : Basket;
  bx_intent : OrderIntent;
  bx_orders : list nat;
  bx_compensation_orders : list nat
}.

Definition bx_success (r : BasketExecutionResult) : bool :=
  match b_state (bx_basket r) with B_OPEN | B_CLOSED => true | _ => false end.

Definition set_state (s : BasketState) (b : Basket) : Basket := {|
  b_account_id := b_account_id b; b_trade_id := b_trade_id b; b_strategy_id := b_strategy_id b;
  b_action := b_action b; b_intended_leg_count := b_intended_leg_count b; b_state := s;
  b_id := b_id b; b_signal_pk := b_signal_pk b; b_orders := b_orders b;
  b_compensation_orders := b_compensation_orders b; b_recovery_status := b_recovery_status b |}.
Definition set_id (id : option Z) (b : Basket) : Basket := {|
  b_account_id := b_account_id b; b_trade_id := b_trade_id b; b_strategy_id := b_strategy_id b;
  b_action := b_action b; b_intended_leg_count := b_intended_leg_count b; b_state := b_state b;
  b_id := id; b_signal_pk := b_signal_pk b; b_orders := b_orders b;
  b_compensation_orders := b_compensation_orders b; b_recovery_status := b_recovery_status b |}.
Definition set_order_lists (orders comp : list nat) (b : Basket) : Basket := {|
  b_account_id := b_account_id b; b_trade_id := b_trade_id b; b_strategy_id := b_strategy_id b;
  b_action := b_action b; b_intended_leg_count := b_intended_leg_count b; b_state := b_state b;
  b_id := b_id b; b_signal_pk := b_signal_pk b; b_orders := orders; b_compensation_orders := comp;
  b_recovery_status := b_recovery_status b |}.
Definition set_recovery (s : option string) (b : Basket) : Basket := {|
  b_account_id := b_account_id b; b_trade_id := b_trade_id b; b_strategy_id := b_strategy_id b;
  b_action := b_action b; b_intended_leg_count := b_intended_leg_count b; b_state := b_state b;
  b_id := b_id b; b_signal_pk := b_signal_pk b; b_orders := b_orders b;
  b_compensation_orders := b_compensation_orders b; b_recovery_status := s |}.

Definition action_value (a : OrderAction) : string :=
  match a with OPEN => "OPEN" | CLOSE => "CLOSE" end.

Section Coordinator.
Context {E : Type} `{!Environment E}.
Variable cfg : Config.

Definition is_open_blocked (account : option Z) (strategy : string) (w : World E) : bool :=
  match account with
  | None => false
  | Some a => bool_decide ((a, strategy) ∈ w_critical w)
  end.

Definition mark_critical (account : option Z) (strategy : string) : M E unit :=
  match account with
  | None => ret tt
  | Some a => modify (fun w => set_critical ({[(a, strategy)]} ∪ w_critical w) w)
  end.

(** ** Persistence

    A transaction lets broker callbacks run, then commits its write or
    raises. *)
Definition transact (x : Write) : M E unit :=
  env_do (fun s => (env_events s, tt)) ;;;
  do! ok := env_do (fun s => let (e, ok) := env_write_ok s.1 in ((e, s.2), ok)) in
  if (ok : bool) then modify (add_log x) else raise (OtherError "DBAPIError").

Definition persist_basket (b : Basket) : M E Basket :=
  match b_account_id b with
  | Some a =>
      if session_factory cfg then
        transact (BasketWrite a (b_trade_id b) (b_strategy_id b) (b_action b) (b_state b)
                    (b_recovery_status b)) ;;;
        do! id := get (fun w => env_row_id (w_env w)) in ret (set_id (Some id) b)
      else ret b
  | None => ret b
  end.

(** [_persist_child]: marks the order, then writes what it is now. *)
Definition persist_child (b : Basket) (account : option Z) (compensation : bool) (i : nat)
    : M E unit :=
  update_order i (fun o => set_basket (o_leg_index o) (b_id b) (is_compensation o || compensation)
                             (compensation_of_internal_order_id o) o) ;;;
  match account with
  | Some _ =>
      if session_factory cfg then
        do! o := order_at i in
        transact (OrderWrite (internal_order_id o) (o_status o) (filled_quantity o)
                    (is_compensation o))
      else ret tt
  | None => ret tt
  end.

Definition persist_children (b : Basket) (account : option Z) (l : list nat) : M E unit :=
  loop (fun _ i => persist_child b account false i) l tt.

(** [_event]: a failing write is logged. *)
Definition event (kind : string) (key : option string) : M E unit :=
  if session_factory cfg
  then catch (transact (EventWrite kind key)) (fun _ => ret tt) else ret tt.

(** An idempotency key: a prefix and the parts of the basket's identity. *)
Definition basket_key (prefix : string) (intent : OrderIntent) (suffix : string) : option string :=
  Some (prefix ++ ":" ++ account_text (account_id intent) ++ ":" ++ signal_id intent ++ suffix)%string.

(** ** Waiting and cancelling *)
Definition not_terminal (l : list nat) : M E (list nat) :=
  get (fun w => List.filter (fun i => match w_heap w !! i with
                                      | Some o => negb (is_wait_terminal o)
                                      | None => false
                                      end) l).

(** What a waiter lets through: time-outs and untracked orders are logged. *)
Definition wait_failure (r : result unit) : option exn :=
  match r with
  | Ok _ | Raise TimeoutError | Raise (ValueError _) => None
  | Raise e => Some e
  end.

Definition wait_terminals (l : list nat) (timeout : Q) : M E unit :=
  do! waiting := not_terminal l in
  do! os := orders_at waiting in
  do! rs := env_do (env_wait (map internal_order_id os) timeout) in
  match omap wait_failure rs with
  | e :: _ => raise e
  | [] => ret tt
  end.

Definition retries_enabled : bool :=
  match retry_policy cfg with
  | None => false
  | Some policy =>
      rp_enabled policy && negb (max_retries policy <=? 0)%Z && paper_retries_allowed cfg
      && bool_decide (is_Some (rms_engine cfg)) && bool_decide (is_Some (rms_context cfg))
  end.

(** The cancellation of the working orders: whether every request went out. *)
Fixpoint cancel_all (l : list nat) : M E bool :=
  match l with
  | [] => ret true
  | i :: l =>
      do! o := order_at i in
      do! sent := catch (cancel_order (internal_order_id o) ;;; ret true) (fun _ => ret false) in
      if (sent : bool) then cancel_all l else ret false
  end.

(** Cancels, waits, and tells whether every order came to rest. *)
Definition cancel_and_wait (l : list nat) : M E bool :=
  do! working := not_terminal l in
  do! sent := cancel_all working in
  if (sent : bool) then
    wait_terminals working (cancel_timeout cfg) ;;;
    do! restless := not_terminal working in ret (bool_decide (restless = []))
  else ret false.

Definition cancel_working (b : Basket) (account : option Z) (submitted : list nat) : M E bool :=
  do! rested := cancel_and_wait submitted in
  if (rested : bool) then persist_children b account submitted ;;; ret true else ret false.

(** ** Retrying the remainders *)
Definition retry_intent (original : OrderIntent) (orig_leg : OrderLeg) (remaining : Q)
    (index attempt : Z) (now : Z) : OrderIntent :=
  let qty := repr_dec remaining in
  let retry_leg := {|
    leg_symbol := leg_symbol orig_leg; leg_side := leg_side orig_leg;
    leg_quantity := NDec qty; leg_price := leg_price orig_leg;
    leg_contract_month := leg_contract_month orig_leg; leg_con_id := leg_con_id orig_leg;
    leg_notional := Some (dmul qty (leg_price orig_leg));
    leg_instrument_type := leg_instrument_type orig_leg; leg_weight := leg_weight orig_leg;
    leg_leg_index := Some index; leg_metadata := leg_metadata orig_leg;
    leg_exchange := leg_exchange orig_leg; leg_currency := leg_currency orig_leg;
    leg_resolved := leg_resolved orig_leg |} in {|
  signal_id := (signal_id original ++ ":RETRY:L" ++ str_Z index ++ ":" ++ str_Z attempt)%string;
  strategy_id := strategy_id original; action := action original; legs := [retry_leg];
  account_id := account_id original; ibkr_account := ibkr_account original;
  market := market original; timestamp := now;
  intent_mode := if reduces original then EMERGENCY_FLATTEN else intent_mode original |}.

(** [orig_leg.quantity - filled]. *)
Definition remaining_qty (quantity : pynum) (filled : Q) : result Q := num_minus quantity filled.

Definition retry_key (intent : OrderIntent) (index attempt : Z) : string :=
  (account_text (account_id intent) ++ ":" ++ signal_id intent ++ ":" ++ str_Z index ++ ":"
   ++ str_Z attempt)%string.

(** The state of the rounds: the orders created, the legs the risk checks
    block, and the orders of this round. *)
Record RetryRounds : Type := { rd_created : list nat; rd_blocked : gset Z; rd_round : list nat }.

(** One leg of one round. *)
Definition retry_leg_step (b : Basket) (intent : OrderIntent) (order_type : string)
    (checks : list BaseRMSCheck) (rc : RMSContext) (submitted : list nat) (attempt : Z)
    (st : RetryRounds) (il : Z * OrderLeg) : M E RetryRounds :=
  let (index, orig_leg) := il in
  if bool_decide (index ∈ rd_blocked st) then ret st
  else
    do! os := orders_at (submitted ++ rd_created st) in
    do! remaining := lift (remaining_qty (leg_quantity orig_leg) (filled_qty_for_leg index os)) in
    if remaining <=? FILL_EPS then ret st
    else
      let key := retry_key intent index attempt in
      do! keys := get w_retry_ids in
      if bool_decide (key ∈ keys) then ret st
      else
        modify (set_retry_ids ({[key]} ∪ keys)) ;;;
        do! now := get (fun w => env_now (w_env w)) in
        let again := retry_intent intent orig_leg remaining index attempt now in
        do! rms := lift (evaluate checks again rc) in
        if negb (bool_decide (res_outcome rms = PASS)) then
          event "AUTO_SQUARE_OFF_RETRY_BLOCKED" (Some ("retry_blocked:" ++ key)%string) ;;;
          ret {| rd_created := rd_created st; rd_blocked := {[index]} ∪ rd_blocked st;
                 rd_round := rd_round st |}
        else
          do! sent := catch (do! i := submit_one_leg (execute_stk_as_cfd cfg) again rms 0 None None
                                        order_type no_callback in ret (Some i))
                        (fun _ => ret None) in
          match sent with
          | None => ret st
          | Some i =>
              update_order i (fun o => set_basket (Some index) (b_id b) (is_compensation o)
                                         (compensation_of_internal_order_id o) o) ;;;
              event "AUTO_SQUARE_OFF_RETRY" (Some ("retry_submit:" ++ key)%string) ;;;
              ret {| rd_created := rd_created st ++ [i]; rd_blocked := rd_blocked st;
                     rd_round := rd_round st ++ [i] |}
          end.

Definition elapsed (started : Q) : M E Q :=
  do! now := env_do (fun s => let (e, t) := env_monotonic s.1 in ((e, s.2), t)) in
  ret (fl (now - started)).

(** The [while] loop; [n] is the number of attempts left. *)
Fixpoint retry_rounds (n : nat) (b : Basket) (intent : OrderIntent) (order_type : string)
    (policy : ExecutionRetryPolicy) (checks : list BaseRMSCheck) (rc : RMSContext)
    (submitted : list nat) (started : Q) (attempt : Z) (created : list nat) (blocked : gset Z)
    : M E (list nat) :=
  match n with
  | O => ret created
  | S n =>
      do! t := elapsed started in
      if retry_window_sec policy <=? t then ret created
      else
        do! pool := orders_at (submitted ++ created) in
        if basket_complete intent pool then ret created
        else
          do! go_on :=
            (if (0 <? attempt)%Z then
               do! cancelled := cancel_working b (account_id intent) (submitted ++ created) in
               if (cancelled : bool) then
                 env_do (fun s => (env_events s, tt)) ;;;      (* asyncio.sleep *)
                 do! t := elapsed started in ret (negb (retry_window_sec policy <=? t))
               else ret false
             else ret true) in
          if (go_on : bool) then
            let attempt := (attempt + 1)%Z in
            do! st := loop (retry_leg_step b intent order_type checks rc submitted attempt)
                        (enumerate (legs intent))
                        {| rd_created := created; rd_blocked := blocked; rd_round := [] |} in
            match rd_round st with
            | [] => ret tt
            | round =>
                do! t := elapsed started in
                let window := fl (retry_window_sec policy - t) in
                wait_terminals round (Qminb (fill_timeout cfg) (Qmaxb (fl (5 # 100)) window))
            end ;;;
            retry_rounds n b intent order_type policy checks rc submitted started attempt
              (rd_created st) (rd_blocked st)
          else ret created
  end.

Definition kill_switched (intent : OrderIntent) : M E bool :=
  get (fun w => bool_decide (action intent = OPEN)
                && match account_id intent with
                   | Some a => env_kill_switch (w_env w) a
                   | None => false
                   end).

Definition retry_incomplete (b : Basket) (intent : OrderIntent) (order_type : string)
    (submitted : list nat) : M E (list nat) :=
  do! killed := kill_switched intent in
  if (killed : bool) then ret []
  else match retry_policy cfg, rms_engine cfg, rms_context cfg with
  | Some policy, Some checks, Some rc =>
      if retries_enabled then
        do! cancelled := cancel_working b (account_id intent) submitted in
        if (cancelled : bool) then
          do! started := env_do (fun s => let (e, t) := env_monotonic s.1 in ((e, s.2), t)) in
          retry_rounds (Z.to_nat (max_retries policy)) b intent order_type policy checks rc
            submitted started 0 [] ∅
        else ret []
      else ret []
  | _, _, _ => ret []
  end.

(** ** Undoing the fills *)
Definition opposite_side (s : OrderSide) : OrderSide := match s with BUY => SELL | SELL => BUY end.

Definition unwind_intent (original : OrderIntent) (orig_leg : OrderLeg) (index : Z)
    (cum_filled : Q) (now : Z) : OrderIntent :=
  let leg := {|
    leg_symbol := leg_symbol orig_leg; leg_side := opposite_side (leg_side orig_leg);
    leg_quantity := NDec (repr_dec cum_filled); leg_price := leg_price orig_leg;
    leg_contract_month := leg_contract_month orig_leg; leg_con_id := leg_con_id orig_leg;
    leg_notional := None; leg_instrument_type := leg_instrument_type orig_leg;
    leg_weight := None; leg_leg_index := Some index; leg_metadata := None;
    leg_exchange := leg_exchange orig_leg; leg_currency := leg_currency orig_leg;
    leg_resolved := leg_resolved orig_leg |} in {|
  signal_id := (signal_id original ++ ":UNWIND:L" ++ str_Z index)%string;
  strategy_id := strategy_id original; action := CLOSE; legs := [leg];
  account_id := account_id original; ibkr_account := ibkr_account original;
  market := market original; timestamp := now; intent_mode := MODE_OPEN |}.

Definition pass_result (intent : OrderIntent) : RMSResult := {|
  res_outcome := PASS; res_intent := intent; original_intent := intent;
  res_check_number := None; res_reason := None; check_results := [] |}.

(** One order of one leg's unwind. *)
Definition mark_compensation (b : Basket) (account : option Z) (index : Z) (comp_of : string)
    (created : list nat) (i : nat) : M E (list nat) :=
  update_order i (set_basket (Some index) (b_id b) true (Some comp_of)) ;;;
  persist_child b account true i ;;;
  do! o := order_at i in
  event "COMPENSATION" (Some ("compensation:" ++ internal_order_id o)%string) ;;;
  do! o := order_at i in
  if failed_status (o_status o) then raise (OtherError "Compensation submit failed")
  else ret (created ++ [i]).

Definition compensate_leg (b : Basket) (original : OrderIntent) (order_type : string)
    (submitted : list nat) (now : Z) (created : list nat) (il : Z * OrderLeg)
    : M E (list nat) :=
  let (index, orig_leg) := il in
  do! os := orders_at submitted in
  let cum_filled := filled_qty_for_leg index os in
  if cum_filled <=? FILL_EPS then ret created
  else
    let unwind := unwind_intent original orig_leg index cum_filled now in
    do! er := submit_intent (execute_stk_as_cfd cfg) unwind (pass_result unwind) None None
                order_type in
    do! os := orders_at submitted in
    let matching :=
      List.filter (fun o => bool_decide (o_leg_index o = Some index) && negb (is_compensation o))
        os in
    let comp_of := match matching with
                   | o :: _ => internal_order_id o
                   | [] => ("cumulative:L" ++ str_Z index)%string
                   end in
    loop (mark_compensation b (account_id original) index comp_of) (er_orders er) created.

Definition compensate_filled (b : Basket) (original : OrderIntent) (order_type : string)
    (submitted : list nat) : M E (list nat) :=
  do! killed := kill_switched original in
  if (killed : bool) then ret []
  else
    do! now := get (fun w => env_now (w_env w)) in
    loop (compensate_leg b original order_type submitted now) (enumerate (legs original)) [].

Definition fail_critical (b : Basket) (intent : OrderIntent) (submitted compensation : list nat)
    : M E Basket :=
  let b := set_recovery (Some "RECOVERING"%string) (set_state CRITICAL b) in
  mark_critical (account_id intent) (strategy_id intent) ;;;
  do! b := persist_basket b in
  persist_children b (account_id intent) (submitted ++ compensation) ;;;
  event "BASKET_CRITICAL" (basket_key "basket_critical" intent EmptyString) ;;;
  match account_id intent with
  | Some a =>
      if recovery_service cfg
      then modify (add_scheduled (a, signal_id intent, b_action b, strategy_id intent))
      else ret tt
  | None => ret tt
  end ;;;
  ret b.

(** ** [execute] *)

(** The submission loop: the orders, and whether to abort. *)
Definition submit_basket_leg (b : Basket) (intent : OrderIntent) (rms : RMSResult)
    (order_type : string) (st : list nat * bool) (index : Z) : M E (list nat * bool) :=
  let (submitted, abort_remaining) := st in
  if (abort_remaining : bool) then ret st
  else
    do! i := submit_one_leg (execute_stk_as_cfd cfg) intent rms index None None order_type
               (persist_child b (account_id intent) false) in
    do! o := order_at i in
    event (match action intent with CLOSE => "CLOSE_ORDER_CREATED" | OPEN => "ORDER_CREATED" end)
      (Some ("order_created:" ++ internal_order_id o)%string) ;;;
    do! o := order_at i in
    match ibkr_order_id o with
    | Some _ =>
        event (match action intent with
               | CLOSE => "CLOSE_ORDER_SUBMITTED" | OPEN => "ORDER_SUBMITTED" end)
          (Some ("order_submitted:" ++ internal_order_id o)%string)
    | None => ret tt
    end ;;;
    do! o := order_at i in
    ret (submitted ++ [i], failed_status (o_status o)).

Definition result_of (b : Basket) (intent : OrderIntent) (orders comp : list nat)
    : BasketExecutionResult :=
  {| bx_basket := b; bx_intent := intent; bx_orders := orders; bx_compensation_orders := comp |}.

(** Every leg is filled. *)
Definition finish_complete (b : Basket) (intent : OrderIntent) (submitted : list nat)
    : M E BasketExecutionResult :=
  let b := set_order_lists submitted (b_compensation_orders b) b in
  let closed := bool_decide (action intent = CLOSE) in
  let b := set_state (if closed then B_CLOSED else B_OPEN) b in
  do! b := persist_basket b in
  persist_children b (account_id intent) submitted ;;;
  event (if closed then "BASKET_CLOSED" else "BASKET_OPEN")
    (basket_key (if closed then "basket_closed" else "basket_open") intent EmptyString) ;;;
  ret (result_of b intent submitted []).

Definition abandon (b : Basket) (intent : OrderIntent) (submitted compensation : list nat)
    : M E BasketExecutionResult :=
  do! b := fail_critical b intent submitted compensation in
  ret (result_of b intent submitted compensation).

(** Some leg is not: cancel what works, reverse what was filled. *)
Definition unwind (b : Basket) (intent : OrderIntent) (order_type : string)
    (submitted : list nat) : M E BasketExecutionResult :=
  let b := set_state UNWINDING b in
  do! b := persist_basket b in
  event "BASKET_UNWINDING" None ;;;
  do! rested := cancel_and_wait submitted in
  if negb (rested : bool) then abandon b intent submitted []
  else
    persist_children b (account_id intent) submitted ;;;
    do! outcome := catch (do! l := compensate_filled b intent order_type submitted in
                          ret (Some l)) (fun _ => ret None) in
    match outcome with
    | None => abandon b intent submitted []
    | Some compensation =>
        wait_terminals compensation (fill_timeout cfg) ;;;
        do! comps := orders_at compensation in
        do! subs := orders_at submitted in
        if negb (compensation_complete comps subs) then abandon b intent submitted compensation
        else
          let b := set_state COMPENSATED (set_order_lists submitted compensation b) in
          do! b := persist_basket b in
          event "BASKET_COMPENSATED" (basket_key "basket_compensated" intent EmptyString) ;;;
          ret (result_of b intent submitted compensation)
    end.

(** What follows the submissions. *)
Definition settle (b : Basket) (intent : OrderIntent) (order_type : string)
    (submitted : list nat) : M E BasketExecutionResult :=
  wait_terminals submitted (fill_timeout cfg) ;;;
  persist_children b (account_id intent) submitted ;;;
  do! os := orders_at submitted in
  if existsb is_disconnect_parked os then ret (result_of b intent submitted [])
  else
    do! os := orders_at submitted in
    do! submitted :=
      (if basket_complete intent os then ret submitted
       else
         do! more := retry_incomplete b intent order_type submitted in
         persist_children b (account_id intent) more ;;; ret (submitted ++ more)) in
    do! os := orders_at submitted in
    if basket_complete intent os then finish_complete b intent submitted
    else unwind b intent order_type submitted.

Definition new_basket (intent : OrderIntent) (signal_pk : option Z) : Basket := {|
  b_account_id := account_id intent; b_trade_id := signal_id intent;
  b_strategy_id := strategy_id intent; b_action := action intent;
  b_intended_leg_count := Z.of_nat (length (legs intent)); b_state := EXECUTING; b_id := None;
  b_signal_pk := signal_pk; b_orders := []; b_compensation_orders := [];
  b_recovery_status := None |}.

Definition execute (intent : OrderIntent) (rms : RMSResult) (order_type : string)
    (signal_pk : option Z) : M E BasketExecutionResult :=
  do! intent :=
    match attach_resolved intent EmptyInstrumentCatalog
            (apply_stk_to_cfd_for_strategy (execute_stk_as_cfd cfg) (strategy_id intent)) with
    | Ok i => ret i
    | Raise (InstrumentResolutionError code) => raise (ValueError code)
    | Raise e => raise e
    end in
  let action_suffix := (":" ++ action_value (action intent))%string in
  do! b := persist_basket (new_basket intent signal_pk) in
  event "BASKET_CREATED" (basket_key "basket_created" intent action_suffix) ;;;
  event "BASKET_EXECUTING" (basket_key "basket_executing" intent action_suffix) ;;;
  do! (submitted, _) :=
    loop (submit_basket_leg b intent rms order_type) (indices intent) ([], false) in
  settle b intent order_type submitted.

(** ** Restart, and the operator's clear *)
Record BasketRow : Type := {
  br_id : Z;
  br_account_id : Z;
  br_trade_id : string;
  br_strategy_id : string;
  br_action : OrderAction;
  br_intended_leg_count : Z
}.

(** The body of the loop of [recover_incomplete_baskets], for a row of an
    incomplete basket and the rows of its orders. *)
Definition recover_basket (row : BasketRow * list OrderRow) : M E unit :=
  let (row, orders) := row in
  let has_partial_fill :=
    existsb (fun o => negb (row_is_compensation o)
                      && (FILL_EPS <? fl (default 0 (row_fill_qty o)))) orders in
  if negb has_partial_fill then ret tt
  else if basket_complete_from_db_orders (br_intended_leg_count row) orders then ret tt
  else
    do! _ := persist_basket {|
      b_account_id := Some (br_account_id row); b_trade_id := br_trade_id row;
      b_strategy_id := br_strategy_id row; b_action := br_action row;
      b_intended_leg_count := br_intended_leg_count row; b_state := CRITICAL;
      b_id := Some (br_id row); b_signal_pk := None; b_orders := [];
      b_compensation_orders := []; b_recovery_status := None |} in
    mark_critical (Some (br_account_id row)) (br_strategy_id row) ;;;
    event "BASKET_RECOVER_CRITICAL" None ;;;
    if recovery_service cfg
    then modify (add_scheduled (br_account_id row, br_trade_id row, br_action row,
                                br_strategy_id row))
    else ret tt.

(** [rows] are the incomplete baskets of the database. *)
Definition recover_incomplete_baskets (connected : bool) (rows : list (BasketRow * list OrderRow))
    : M E unit :=
  if negb (session_factory cfg) then ret tt
  else if negb connected then ret tt
  else loop (fun _ row => recover_basket row) rows tt.

(** [clear_critical]: [row] is whether the basket's row was found and marked
    RECOVERED, [still_critical] whether the database has another critical
    basket of the account and strategy. *)
Definition clear_critical (account : Z) (strategy trade : string) (act : OrderAction)
    (row still_critical : bool) : M E bool :=
  if negb (session_factory cfg) then ret false
  else if negb row then ret false
  else
    (if still_critical then ret tt
     else modify (fun w => set_critical (w_critical w ∖ {[(account, strategy)]}) w)) ;;;
    event "BASKET_CRITICAL_CLEARED"
      (Some ("basket_critical_cleared:" ++ str_Z account ++ ":" ++ trade ++ ":"
             ++ action_value act)%string) ;;;
    ret true.
End Coordinator.
