(* ===== verification/BasketLogic.v ===== *)
(** * Reasoning about the coordinator: a weakest-precondition calculus for the
    monad of [Oms.v], and what the operations of [Oms.v] and [Coordinator.v]
    keep and return *)

From S2P Require Import Prelude Rounding PyText PyTime Identifiers RmsModels Margin Checks Engine Instruments Oms Coordinator.

#[local] Open Scope Q_scope.
#[local] Open Scope py_scope.
#[local] Set Warnings "-clear-no-such-hyp".

(** ** Brokers without late fills

    The coordinator takes an order that is filled, cancelled, rejected or
    failed to be at rest.  TWS may still report a fill of it; [no_late_fills]
    says of an environment that it does not. *)
Definition rests (o o' : OMSOrder) : Prop :=
  is_wait_terminal o = true -> is_wait_terminal o' = true /\ filled_quantity o' = filled_quantity o.

Definition heap_rests (except : option nat) (h h' : list OMSOrder) : Prop :=
  forall i o, except <> Some i -> h !! i = Some o -> exists o', h' !! i = Some o' /\ rests o o'.

Record no_late_fills (E : Type) `{Environment E} : Prop := {
  prepare_rests i s : heap_rests (Some i) s.2 (env_prepare i s).1.2;
  place_rests i s : heap_rests (Some i) s.2 (env_place i s).1.2;
  cancel_rests i s : heap_rests None s.2 (env_cancel i s).1.2;
  wait_rests ids t s : heap_rests None s.2 (env_wait ids t s).1.2;
  events_rests s : heap_rests None s.2 (env_events s).2
}.

Lemma rests_refl o : rests o o.
Proof. done. Qed.
Lemma rests_trans o1 o2 o3 : rests o1 o2 -> rests o2 o3 -> rests o1 o3.
Proof. intros H1 H2 H. destruct (H1 H) as [T1 <-]. by apply H2. Qed.

Lemma heap_rests_refl except h : heap_rests except h h.
Proof. intros i o _ Ho. eauto using rests_refl. Qed.

(** What an environment step does to the orders. *)
Definition moves (E : Type) `{Environment E} (except : option nat) (h h' : list OMSOrder) : Prop :=
  heap_evolves except h h' /\ (no_late_fills E -> heap_rests except h h').

Section Moves.
Context {E : Type} `{!Environment E, !LawfulEnvironment E}.
Implicit Types s : Step E.

Lemma moves_refl except h : moves E except h h.
Proof. split; [apply heap_evolves_refl|intros _; apply heap_rests_refl]. Qed.
Lemma prepare_moves i s : moves E (Some i) s.2 (env_prepare i s).1.2.
Proof. split; [apply prepare_law|intros H; by apply prepare_rests]. Qed.
Lemma place_moves i s : moves E (Some i) s.2 (env_place i s).1.2.
Proof. split; [apply place_law|intros H; by apply place_rests]. Qed.
Lemma cancel_moves i s : moves E None s.2 (env_cancel i s).1.2.
Proof. split; [apply cancel_law|intros H; by apply cancel_rests]. Qed.
Lemma wait_moves ids t s : moves E None s.2 (env_wait ids t s).1.2.
Proof. split; [apply wait_law|intros H; by apply wait_rests]. Qed.
Lemma events_moves s : moves E None s.2 (env_events s).2.
Proof. split; [apply events_law|intros H; by apply events_rests]. Qed.
End Moves.

(** ** What an operation keeps *)
Section Kept.
Context {E : Type} `{!Environment E}.

(** The orders of [D] stay the same orders, those before [n] evolve as the
    broker moves them, no object disappears and the latch is not touched; where
    the broker reports no late fills, orders at rest stay as they are. *)
Record kept (D : nat -> Prop) (n : nat) (w w' : World E) : Prop := {
  k_len : (length (w_heap w) <= length (w_heap w'))%nat;
  k_same : forall i o, D i -> w_heap w !! i = Some o ->
    exists o', w_heap w' !! i = Some o' /\ same_order o o';
  k_ev : forall i o, (i < n)%nat -> w_heap w !! i = Some o ->
    exists o', w_heap w' !! i = Some o' /\ order_evolves o o';
  k_rest : no_late_fills E -> forall i o, (i < n)%nat -> w_heap w !! i = Some o ->
    exists o', w_heap w' !! i = Some o' /\ rests o o';
  k_crit : w_critical w' = w_critical w
}.

Lemma kept_refl D n w : kept D n w w.
Proof. split; eauto using rests_refl. Qed.

Lemma kept_trans D n w1 w2 w3 : kept D n w1 w2 -> kept D n w2 w3 -> kept D n w1 w3.
Proof.
  intros [L1 S1 E1 R1 C1] [L2 S2 E2 R2 C2]. split; [lia| | | |congruence].
  - intros i o Hi Ho. destruct (S1 i o Hi Ho) as (o1 & H1 & T1).
    destruct (S2 i o1 Hi H1) as (o2 & H2 & T2). eauto using same_order_trans.
  - intros i o Hi Ho. destruct (E1 i o Hi Ho) as (o1 & H1 & T1).
    destruct (E2 i o1 Hi H1) as (o2 & H2 & T2). eauto using order_evolves_trans.
  - intros N i o Hi Ho. destruct (R1 N i o Hi Ho) as (o1 & H1 & T1).
    destruct (R2 N i o1 Hi H1) as (o2 & H2 & T2). eauto using rests_trans.
Qed.

Lemma kept_weaken (D D' : nat -> Prop) n n' w w' :
  (forall i, D' i -> D i) -> (n' <= n)%nat -> kept D n w w' -> kept D' n' w w'.
Proof. intros HD Hn [L S V R C]. split; auto; intros; [apply V|apply R]; done || lia. Qed.

(** The orders a list names. *)
Definition valid (l : list nat) (w : World E) : Prop :=
  Forall (fun i => (i < length (w_heap w))%nat) l.

Lemma valid_kept D n l w w' : kept D n w w' -> valid l w -> valid l w'.
Proof.
  intros K H. eapply Forall_impl; [exact H|]. intros i Hi. pose proof (k_len _ _ _ _ K). simpl in *. lia.
Qed.

(** ** The calculus

    [sp D n X w m Q]: run from [w], [m] keeps [D] and [n], returns with [Q] or
    raises an exception of [X]. *)
Definition sp {A} (D : nat -> Prop) (n : nat) (X : exn -> Prop) (w : World E) (m : M E A)
    (Q : A -> World E -> Prop) : Prop :=
  kept D n w (m w).1 /\ match (m w).2 with Ok a => Q a (m w).1 | Raise e => X e end.

Lemma sp_ret {A} D n X w (a : A) (Q : A -> World E -> Prop) : Q a w -> sp D n X w (ret a) Q.
Proof. intros H. split; [apply kept_refl|done]. Qed.

Lemma sp_raise {A} D n (X : exn -> Prop) w e (Q : A -> World E -> Prop) :
  X e -> sp D n X w (raise e) Q.
Proof. intros H. split; [apply kept_refl|done]. Qed.

Lemma sp_get {A} D n X w (f : World E -> A) (Q : A -> World E -> Prop) :
  Q (f w) w -> sp D n X w (get f) Q.
Proof. intros H. split; [apply kept_refl|done]. Qed.

Lemma sp_lift {A} D n (X : exn -> Prop) w (r : result A) (Q : A -> World E -> Prop) :
  match r with Ok a => Q a w | Raise e => X e end -> sp D n X w (lift r) Q.
Proof. intros H. split; [apply kept_refl|done]. Qed.

Lemma sp_bind {A B} D n X w (m : M E A) (k : A -> M E B) (Q : B -> World E -> Prop) :
  sp D n X w m (fun a w1 => kept D n w w1 -> sp D n X w1 (k a) Q) -> sp D n X w (bind m k) Q.
Proof.
  unfold sp, bind. destruct (m w) as [w1 [a|e]]; simpl; [|done].
  intros [K H]. destruct (H K) as [K' H']. split; [by eapply kept_trans|done].
Qed.

Lemma sp_mono {A} D n (X X' : exn -> Prop) w (m : M E A) (Q Q' : A -> World E -> Prop) :
  sp D n X w m Q -> (forall e, X e -> X' e) ->
  (forall a w', kept D n w w' -> Q a w' -> Q' a w') -> sp D n X' w m Q'.
Proof. unfold sp. destruct (m w) as [w1 [a|e]]; simpl; intros [K H]; split; auto. Qed.

Lemma sp_weaken {A} (D D' : nat -> Prop) n n' X w (m : M E A) Q :
  sp D n X w m Q -> (forall i, D' i -> D i) -> (n' <= n)%nat -> sp D' n' X w m Q.
Proof. unfold sp. intros [K H] HD Hn. split; [by eapply kept_weaken|done]. Qed.

Lemma sp_catch {A} D n X w (m : M E A) (h : exn -> M E A) Q :
  sp D n (fun _ => True) w m Q ->
  (forall e w1, kept D n w w1 -> sp D n X w1 (h e) Q) -> sp D n X w (catch m h) Q.
Proof.
  unfold sp, catch. destruct (m w) as [w1 [a|e]]; simpl; intros [K H] Hh; [done|].
  destruct (Hh e w1 K) as [K' H']. split; [by eapply kept_trans|done].
Qed.

(** A loop whose body keeps an invariant of the accumulator. *)
Lemma sp_loop {A S} D n X (I : nat -> S -> World E -> Prop) (body : S -> A -> M E S)
    (l : list A) (s : S) (w : World E) :
  (forall k s x w, l !! k = Some x -> (n <= length (w_heap w))%nat -> I k s w ->
     sp D n X w (body s x) (I (Datatypes.S k))) ->
  (n <= length (w_heap w))%nat -> I 0%nat s w ->
  sp D n X w (loop body l s) (I (length l)).
Proof.
  revert I s w. induction l as [|x l IH]; intros I s w Hb Hn HI; simpl; [by apply sp_ret|].
  apply sp_bind. eapply sp_mono; [by apply (Hb 0%nat)|done|]. intros s1 w1 K1 H1 _.
  apply (IH (fun k => I (Datatypes.S k))); [| |done].
  - intros k s2 y w2 Hk. by apply (Hb (Datatypes.S k)).
  - pose proof (k_len _ _ _ _ K1). lia.
Qed.

(** ** The primitives *)
Lemma sp_modify D n X w (f : World E -> World E) (Q : unit -> World E -> Prop) :
  w_heap (f w) = w_heap w -> w_critical (f w) = w_critical w -> Q tt (f w) ->
  sp D n X w (modify f) Q.
Proof. intros Hh Hc HQ. split; [|done]. split; simpl; rewrite ?Hh; eauto using rests_refl. Qed.

Lemma moves_kept D n except (w : World E) s' :
  moves E except (w_heap w) s'.2 -> (forall i, except = Some i -> ~ (i < n)%nat) ->
  kept D n w (set_step s' w).
Proof.
  intros [[Hl He] Hr] Hx. split; simpl; [lia| | | |done].
  - intros i o _ Ho. destruct (He i o Ho) as (o' & ? & ? & _). eauto.
  - intros i o Hi Ho. destruct (He i o Ho) as (o' & ? & _ & Hev). exists o'. split; [done|].
    apply Hev. intros Hs. by apply (Hx i).
  - intros N i o Hi Ho. apply (Hr N); [|done]. intros Hs. by apply (Hx i).
Qed.

Lemma sp_env {A} D n X except w (f : Step E -> Step E * A) (Q : A -> World E -> Prop) :
  moves E except (w_heap w) (f (w_env w, w_heap w)).1.2 ->
  (forall i, except = Some i -> ~ (i < n)%nat) ->
  (forall w1, length (w_heap w1) = length (w_heap w) -> Q (f (w_env w, w_heap w)).2 w1) ->
  sp D n X w (env_do f) Q.
Proof.
  intros He Hx HQ. unfold sp, env_do. destruct (f (w_env w, w_heap w)) as [s a] eqn:Ef.
  simpl in *. split; [by eapply moves_kept|]. apply HQ. apply He.
Qed.

Lemma sp_order_at D n X w i (Q : OMSOrder -> World E -> Prop) :
  (i < length (w_heap w))%nat -> (forall o, w_heap w !! i = Some o -> Q o w) ->
  sp D n X w (order_at i) Q.
Proof.
  intros Hi HQ. destruct (lookup_lt_is_Some_2 _ _ Hi) as [o Ho].
  unfold sp, order_at. rewrite Ho. simpl. split; [apply kept_refl|auto].
Qed.

Lemma sp_create D n X w (o : OMSOrder) (Q : nat -> World E -> Prop) :
  (forall w1, w_heap w1 = w_heap w ++ [o] -> Q (length (w_heap w)) w1) ->
  sp D n X w (create o) Q.
Proof.
  intros HQ. unfold sp, create, bind, get, modify, track, ret; simpl. split; [|by apply HQ].
  split; simpl; [rewrite length_app; lia| | |intros _|done]; intros i o' _ Ho; exists o';
    (split; [by apply lookup_app_l_Some|done]).
Qed.

Lemma sp_update D n X w i (f : OMSOrder -> OMSOrder) (Q : unit -> World E -> Prop) :
  (forall o, w_heap w !! i = Some o ->
     (D i -> same_order o (f o)) /\ ((i < n)%nat -> order_evolves o (f o) /\ rests o (f o))) ->
  (forall w1, w_heap w1 = alter f i (w_heap w) -> Q tt w1) ->
  sp D n X w (update_order i f) Q.
Proof.
  intros Hf HQ. unfold sp, update_order, modify; simpl. split; [|by apply HQ].
  split; simpl; [by rewrite length_alter| | |intros _|done]; intros j o Hj Ho;
    (destruct (decide (j = i)) as [->|Hne];
     [destruct (Hf o Ho) as [Hs Hn]; exists (f o); rewrite list_lookup_alter_eq, Ho;
      split; [done|]; first [by apply Hs|by apply Hn]
     |exists o; by rewrite list_lookup_alter_ne]).
Qed.

(** [runs X w m Q]: [m] returns with [Q] or raises an exception of [X]; unlike
    [sp] it lets the latch move. *)
Definition runs {A} (X : exn -> Prop) (w : World E) (m : M E A) (Q : A -> World E -> Prop)
    : Prop :=
  match m w with (w', Ok a) => Q a w' | (_, Raise e) => X e end.

Lemma runs_sp {A} D n X w (m : M E A) P (Q : A -> World E -> Prop) :
  sp D n X w m P -> (forall a w1, kept D n w w1 -> P a w1 -> Q a w1) -> runs X w m Q.
Proof. unfold sp, runs. destruct (m w) as [w1 [a|e]]; simpl; intros [K H] HQ; auto. Qed.

Lemma runs_bind {A B} D n X w (m : M E A) (k : A -> M E B) P Q :
  sp D n X w m P -> (forall a w1, kept D n w w1 -> P a w1 -> runs X w1 (k a) Q) ->
  runs X w (bind m k) Q.
Proof.
  unfold sp, runs, bind. destruct (m w) as [w1 [a|e]]; simpl; intros [K H] HQ; [|done].
  by apply HQ.
Qed.

(** A step known by its equation. *)
Lemma runs_step {A B} X w w1 (m : M E A) a (k : A -> M E B) Q :
  m w = (w1, Ok a) -> runs X w1 (k a) Q -> runs X w (bind m k) Q.
Proof. unfold runs, bind. by intros ->. Qed.

Lemma runs_then {A B} X w (m : M E A) (k : A -> M E B) P Q :
  runs X w m P -> (forall a w1, P a w1 -> runs X w1 (k a) Q) -> runs X w (bind m k) Q.
Proof. unfold runs, bind. destruct (m w) as [w1 [a|e]]; intros H HQ; [by apply HQ|done]. Qed.

Lemma runs_ret {A} X w (a : A) (Q : A -> World E -> Prop) : Q a w -> runs X w (ret a) Q.
Proof. done. Qed.

Lemma runs_mono {A} X w (m : M E A) (P Q : A -> World E -> Prop) :
  runs X w m P -> (forall a w1, P a w1 -> Q a w1) -> runs X w m Q.
Proof. unfold runs. destruct (m w) as [w1 [a|e]]; auto. Qed.
End Kept.

(** ** Operations of the coordinator without submissions *)
Section Operations.
Context {E : Type} `{!Environment E, !LawfulEnvironment E}.
Context {cfg : Config} {D : nat -> Prop} {n : nat}.
Local Abbreviation len w := (length (w_heap w)).

(** Database writes succeed, or their error is admitted. *)
Definition db_may (X : exn -> Prop) : Prop :=
  (forall e : E, (env_write_ok e).2 = true) \/ X (OtherError "DBAPIError").

Lemma db_may_all : db_may (fun _ => True).
Proof. by right. Qed.

Lemma sp_transact X w x (Q : unit -> World E -> Prop) :
  db_may X -> (forall w1, len w1 = len w -> Q tt w1) -> sp D n X w (transact x) Q.
Proof.
  intros Hdb HQ. unfold transact. apply sp_bind.
  apply (sp_env _ _ _ None); [apply events_moves|done|]. intros w1 L1 _.
  apply sp_bind. apply (sp_env _ _ _ None); [|done|].
  { destruct (env_write_ok _); apply moves_refl. }
  intros w2 L2 _. simpl. destruct (env_write_ok (w_env w1)) as [e ok] eqn:Eok; simpl.
  destruct ok.
  - apply sp_modify; [done|done|]. apply HQ. simpl. congruence.
  - apply sp_raise. destruct Hdb as [Hdb|]; [|done]. specialize (Hdb (w_env w1)).
    by rewrite Eok in Hdb.
Qed.

Definition same_but_id (b b' : Basket) : Prop := b' = b \/ exists id, b' = set_id (Some id) b.

Lemma sp_persist_basket X w b (Q : Basket -> World E -> Prop) :
  db_may X -> (forall b' w1, len w1 = len w -> same_but_id b b' -> Q b' w1) ->
  sp D n X w (persist_basket cfg b) Q.
Proof.
  intros Hdb HQ. unfold persist_basket, same_but_id in *.
  destruct (b_account_id b); [|apply sp_ret; auto].
  destruct (session_factory cfg); [|apply sp_ret; auto].
  apply sp_bind, sp_transact; [done|]. intros w1 L1 _.
  apply sp_bind, sp_get. intros _. apply sp_ret. eauto.
Qed.

Lemma sp_persist_child X w b a comp i (Q : unit -> World E -> Prop) :
  db_may X -> (i < len w)%nat ->
  comp = false \/ (forall o, w_heap w !! i = Some o -> is_compensation o = true) ->
  (forall w1, len w1 = len w -> Q tt w1) -> sp D n X w (persist_child cfg b a comp i) Q.
Proof.
  intros Hdb Hi Hc HQ. unfold persist_child. apply sp_bind, sp_update.
  - intros o Ho.
    assert (Hs : order_evolves o (set_basket (o_leg_index o) (b_id b) (is_compensation o || comp)
                                   (compensation_of_internal_order_id o) o));
      [|split; [by destruct Hs|intros _; split; [exact Hs|intros T; split; [exact T|done]]]].
    split; [|intros H; exact H]. split; try done; [|apply Qle_refl].
    destruct Hc as [->|Hc]; simpl; [by rewrite orb_false_r|by rewrite (Hc o Ho)].
  - intros w1 H1 _. assert (L1 : len w1 = len w) by (by rewrite H1, length_alter).
    destruct a; [|apply sp_ret; auto]. destruct (session_factory cfg); [|apply sp_ret; auto].
    apply sp_bind, sp_order_at; [lia|]. intros o _ _. apply sp_transact; [done|].
    intros w2 L2. apply HQ. congruence.
Qed.

Lemma sp_persist_children X w b a l (Q : unit -> World E -> Prop) :
  db_may X -> (n <= len w)%nat -> valid l w -> (forall w1, len w1 = len w -> Q tt w1) ->
  sp D n X w (persist_children cfg b a l) Q.
Proof.
  intros Hdb Hn Hl HQ. unfold persist_children.
  eapply sp_mono; [apply (sp_loop D n X (fun _ _ w1 => len w1 = len w)); [|done|done]|done|].
  - intros k [] i w1 Hk Hn1 L1. apply sp_persist_child; [done| |by left|].
    + rewrite L1. eapply Forall_lookup_1 in Hl; [|exact Hk]. done.
    + intros w2 L2. congruence.
  - intros [] w1 _ L1. by apply HQ.
Qed.

Lemma sp_event X w kind key (Q : unit -> World E -> Prop) :
  (forall w1, len w1 = len w -> Q tt w1) -> sp D n X w (event cfg kind key) Q.
Proof.
  intros HQ. unfold event. destruct (session_factory cfg); [|by apply sp_ret, HQ].
  unfold sp, catch.
  assert (Ht : sp D n (fun _ => True) w (transact (EventWrite kind key)) (fun _ w1 => len w1 = len w))
    by (apply sp_transact; [apply db_may_all|done]).
  assert (Hr : len (transact (EventWrite kind key) w).1 = len w).
  { unfold transact, bind, env_do. simpl.
    pose proof (events_law (w_env w, w_heap w)) as [He _].
    destruct (env_events _) as [e1 h1]; simpl in *. destruct (env_write_ok e1) as [e2 ok]; simpl.
    by destruct ok; simpl. }
  destruct Ht as [K _]. destruct (transact _ w) as [w1 [[]|e]]; simpl in *; auto.
Qed.

Lemma sp_wait_terminals X w l t (Q : unit -> World E -> Prop) :
  (forall w1, len w1 = len w -> Q tt w1) -> sp D n X w (wait_terminals l t) Q.
Proof.
  intros HQ. unfold wait_terminals, not_terminal, orders_at.
  apply sp_bind, sp_get. intros _. apply sp_bind, sp_get. intros _. apply sp_bind.
  eapply (sp_env _ _ _ None); [apply wait_moves|done|]. intros w1 L1 _.
  match goal with |- context [omap wait_failure ?rs] => destruct (omap wait_failure rs) eqn:Ef end.
  - apply sp_ret. by apply HQ.
  - exfalso. assert (Hin : e ∈ (e :: l0)) by left. rewrite <- Ef in Hin.
    apply list_elem_of_omap in Hin as (r & Hr & Hf). destruct r as [|e']; [done|].
    apply wait_errors in Hr as [->|[m ->]]; done.
Qed.

Lemma sp_cancel_order X w id (Q : unit -> World E -> Prop) :
  (forall e, X e) -> (forall w1, len w1 = len w -> Q tt w1) -> sp D n X w (cancel_order id) Q.
Proof.
  intros HX HQ. unfold cancel_order. apply sp_bind, sp_get. intros _.
  case_match; [|by apply sp_raise]. apply sp_bind.
  apply (sp_env _ _ _ None); [apply cancel_moves|done|]. intros w1 L1 _. apply sp_lift.
  case_match; [|done]. destruct a. by apply HQ.
Qed.

Lemma sp_cancel_all X w l (Q : bool -> World E -> Prop) :
  valid l w -> (forall b w1, (len w <= len w1)%nat -> Q b w1) -> sp D n X w (cancel_all l) Q.
Proof.
  revert w. induction l as [|i l IH]; intros w Hl HQ; simpl; [by apply sp_ret, HQ|].
  apply Forall_cons in Hl as [Hi Hl]. apply sp_bind, sp_order_at; [done|]. intros o _ _.
  apply sp_bind. apply sp_catch.
  - apply sp_bind, sp_cancel_order; [done|]. intros w1 L1 _. apply sp_ret. intros K.
    apply IH; [by eapply valid_kept|]. intros b w2 L2. apply HQ. lia.
  - intros e w1 K1. apply sp_ret. intros _. apply sp_ret, HQ. apply (k_len _ _ _ _ K1).
Qed.

Lemma not_terminal_valid l (w : World E) :
  valid (List.filter (fun i => match w_heap w !! i with
                               | Some o => negb (is_wait_terminal o) | None => false end) l) w.
Proof.
  apply Forall_forall. intros i Hi. apply list_elem_of_In, List.filter_In in Hi as [_ Hi].
  case_match eqn:Ho; [|done]. by eapply lookup_lt_Some.
Qed.

(** The orders of [l] are at rest. *)
Definition at_rest (l : list nat) (w : World E) : Prop :=
  Forall (fun i => exists o, w_heap w !! i = Some o /\ is_wait_terminal o = true) l.

Lemma at_rest_kept l w w' :
  no_late_fills E -> Forall (fun i => (i < n)%nat) l -> kept D n w w' -> at_rest l w -> at_rest l w'.
Proof.
  intros N Hl K H. apply Forall_forall. intros i Hi. unfold at_rest in H.
  rewrite Forall_forall in Hl, H. destruct (H i Hi) as (o & Ho & T).
  destruct (k_rest _ _ _ _ K N i o (Hl i Hi) Ho) as (o' & Ho' & R). exists o'. split; [done|by apply R].
Qed.

Lemma sp_cancel_and_wait X w l (Q : bool -> World E -> Prop) :
  (forall b w1, (len w <= len w1)%nat ->
     (b = true -> no_late_fills E -> Forall (fun i => (i < n)%nat) l -> valid l w -> at_rest l w1) ->
     Q b w1) ->
  sp D n X w (cancel_and_wait cfg l) Q.
Proof.
  intros HQ. unfold cancel_and_wait, not_terminal. apply sp_bind, sp_get. intros _.
  apply sp_bind. apply sp_cancel_all; [apply not_terminal_valid|]. intros b w1 L1 K1.
  destruct b; [|by apply sp_ret, HQ]. apply sp_bind, sp_wait_terminals. intros w2 L2 K2.
  apply sp_bind, sp_get. intros _. apply sp_ret, HQ; [lia|].
  intros Hb N Hn Hv. apply bool_decide_eq_true in Hb. apply Forall_forall. intros i Hi.
  unfold valid in Hv. rewrite Forall_forall in Hn, Hv. specialize (Hn i Hi). specialize (Hv i Hi).
  destruct (lookup_lt_is_Some_2 _ _ Hv) as [o Ho].
  destruct (k_rest _ _ _ _ (kept_trans _ _ _ _ _ K1 K2) N i o Hn Ho) as (o' & Ho' & R).
  exists o'. split; [done|]. destruct (is_wait_terminal o) eqn:T; [by apply R|].
  destruct (is_wait_terminal o') eqn:T'; [done|]. exfalso.
  match type of Hb with List.filter ?p (List.filter ?q l) = [] =>
    assert (Hin : In i (List.filter p (List.filter q l))); [|by rewrite Hb in Hin] end.
  apply List.filter_In. split; [apply List.filter_In; split; [by apply list_elem_of_In|]|].
  - by rewrite Ho, T.
  - by rewrite Ho', T'.
Qed.

Lemma sp_cancel_working X w b a l (Q : bool -> World E -> Prop) :
  db_may X -> (n <= len w)%nat -> valid l w -> (forall b w1, (len w <= len w1)%nat -> Q b w1) ->
  sp D n X w (cancel_working cfg b a l) Q.
Proof.
  intros Hdb Hn Hl HQ. unfold cancel_working. apply sp_bind, sp_cancel_and_wait.
  intros r w1 L1 _ K. destruct r; [|by apply sp_ret, HQ]. apply sp_bind.
  apply sp_persist_children; [done|lia|by eapply valid_kept|]. intros w2 L2 _.
  apply sp_ret, HQ. lia.
Qed.
End Operations.

(** ** Submissions *)
Lemma resolve_leg_raises symbol ty mkt ccy con catalog map_on e :
  resolve_leg symbol ty mkt ccy con catalog map_on = Raise e ->
  exists code, e = InstrumentResolutionError code.
Proof.
  assert (Hcfd : forall s r m c k record e, resolve_cfd s r m c k record = Raise e ->
            exists code, e = InstrumentResolutionError code).
  { intros s r m c k [rec|] e'; unfold resolve_cfd; [|intros [= <-]; eauto].
    case_match; [intros [= <-]; eauto|]. intros [Hc|(v & _ & Hc)]%rbind_raise.
    - unfold require_con_id in Hc. case_match; [done|]. injection Hc as <-. eauto.
    - case_match; [injection Hc as <-; eauto|done]. }
  assert (Hmap : forall s r m c k e, resolve_mapped_cfd s r m c k = Raise e ->
            exists code, e = InstrumentResolutionError code).
  { intros s r m c k e'. unfold resolve_mapped_cfd. case_match; intros [= <-]; eauto. }
  unfold resolve_leg. case_match; [intros [= <-]; eauto|].
  destruct (execution_instrument_type _ _) as [et ov].
  intros [Ht|(t & _ & Ht)]%rbind_raise.
  - unfold ibkr_sec_type in Ht. repeat case_match; simplify_eq; eauto.
  - destruct (map_on && _).
    + case_match; [injection Ht as <-; eauto|]. apply rbind_raise in Ht as [Ht|(v & _ & Ht)].
      * destruct (catalog _ _) as [|? [|]]; [eauto|eauto|injection Ht as <-; eauto].
      * case_match; [injection Ht as <-; eauto|done].
    + destruct (catalog _ _) as [|? [|]]; try (case_match; [by eauto|done]).
      injection Ht as <-. eauto.
Qed.

(** The order made for a leg. *)
Record placed (leg : OrderLeg) (index : Z) (o : OMSOrder) : Prop := {
  pl_side : o_side o = Some (leg_side leg);
  pl_symbol : o_symbol o = leg_symbol leg;
  pl_quantity : o_quantity o = leg_quantity leg;
  pl_index : o_leg_index o = Some index;
  pl_comp : is_compensation o = false
}.

Lemma placed_same leg index o o' : placed leg index o -> same_order o o' -> placed leg index o'.
Proof. intros [] []. split; congruence. Qed.

Section Submissions.
Context {E : Type} `{!Environment E, !LawfulEnvironment E}.
Context {map_on : bool} {n : nat}.
Local Abbreviation len w := (length (w_heap w)).
Local Abbreviation all := (fun _ : nat => True).
Local Abbreviation any := (fun _ : exn => True).

(** A callback that leaves the orders alone. *)
Definition calm (before : nat -> M E unit) : Prop :=
  forall i w, (i < len w)%nat -> sp all n any w (before i) (fun _ _ => True).

Lemma calm_none : calm no_callback.
Proof. intros i w _. by apply sp_ret. Qed.

Lemma sp_submit_order w i before (Q : unit -> World E -> Prop) :
  calm before -> (i < len w)%nat -> (n <= i)%nat ->
  (forall w1, Q tt w1) -> sp all n any w (submit_order i before) Q.
Proof.
  intros Hb Hi Hn HQ. unfold submit_order. apply sp_bind.
  apply (sp_env _ _ _ (Some i)); [apply prepare_moves|intros ? [= <-]; lia|]. intros w1 L1 _.
  apply sp_bind, sp_lift. case_match; [|done]. intros _. destruct a; [|by apply sp_ret].
  apply sp_bind. eapply sp_mono; [apply Hb; lia|done|]. intros [] w2 K2 _ _.
  apply sp_bind. apply (sp_env _ _ _ (Some i)); [apply place_moves|intros ? [= <-]; lia|].
  intros w3 L3 _. apply sp_lift. case_match; [destruct a|]; auto.
Qed.

Lemma sp_submit_leg (X : exn -> Prop) w intent index override price ty before leg :
  legs intent !! Z.to_nat index = Some leg -> (0 <= index)%Z ->
  calm before -> (n <= len w)%nat ->
  sp all n X w (submit_leg map_on intent index override price ty before)
    (fun i w1 => i = len w /\ exists o, w_heap w1 !! i = Some o /\ placed leg index o).
Proof.
  intros Hleg Hi Hb Hn. unfold submit_leg. rewrite Hleg.
  pose proof (lookup_lt_Some _ _ _ Hleg) as Hlt.
  destruct (index <? 0)%Z eqn:E1; [bool_to_prop; lia|].
  destruct (Z.of_nat (length (legs intent)) <=? index)%Z eqn:E2; [bool_to_prop; lia|]. simpl.
  set (r := match leg_resolved leg with Some r => _ | None => _ end).
  assert (Hr : forall e, r = Raise e -> exists code, e = InstrumentResolutionError code).
  { subst r. intros e. destruct (leg_resolved leg); [done|]. apply resolve_leg_raises. }
  destruct r as [r|e].
  - apply sp_bind, sp_create. intros w1 H1 K1. apply sp_bind.
    assert (Hlen : (len w < len w1)%nat) by (rewrite H1, length_app; simpl; lia).
    eapply (sp_mono _ _ X X _ _ (fun _ _ => True)); [apply sp_catch|done|].
    + apply sp_bind, sp_submit_order; [done|done|done|]. intros w2 _. by apply sp_modify.
    + intros e w2 K2. apply sp_update; [|done]. intros o _. split; [|lia]. intros _. split; try done. apply Qle_refl.
    + intros [] w2 K2 _ _. apply sp_ret. split; [done|].
      match type of H1 with _ = _ ++ [?o] => set (o0 := o) in *; assert (Ho : w_heap w1 !! len w = Some o0) end.
      { by rewrite H1, list_lookup_middle. }
      destruct (k_same _ _ _ _ K2 _ _ I Ho) as (o' & Ho' & So). exists o'. split; [done|].
      eapply placed_same; [|exact So]. by split.
  - destruct (Hr e eq_refl) as [code ->]. apply sp_create. intros w1 H1. split; [done|].
    eexists. split; [by rewrite H1, list_lookup_middle|]. by split.
Qed.

Lemma sp_submit_one_leg (X : exn -> Prop) w intent rms index override price ty before leg :
  legs intent !! Z.to_nat index = Some leg -> (0 <= index)%Z ->
  calm before -> (n <= len w)%nat ->
  res_outcome rms = PASS \/ X (ValueError "RMS must PASS before submitting a basket leg.") ->
  sp all n X w (submit_one_leg map_on intent rms index override price ty before)
    (fun i w1 => i = len w /\ exists o, w_heap w1 !! i = Some o /\ placed leg index o).
Proof.
  intros Hleg Hi Hb Hn Hpass. unfold submit_one_leg. apply sp_bind, sp_get. intros _.
  apply sp_bind. eapply (sp_mono _ _ X X _ _ (fun _ w1 => len w1 = len w)); [|done|].
  - case_bool_decide; [by apply sp_ret|]. case_bool_decide; [by apply sp_modify|].
    apply sp_raise. by destruct Hpass.
  - intros [] w1 K1 L1 _. rewrite <- L1. apply sp_submit_leg; [done|done|done|lia].
Qed.

(** A unit basket: the only use the coordinator makes of [submit_intent]. *)
Lemma sp_submit_single (X : exn -> Prop) w intent leg rms price ty :
  legs intent = [leg] -> (n <= len w)%nat ->
  sp all n X w (submit_intent map_on intent rms None price ty)
    (fun er w1 => exists i, er_orders er = [i] /\ i = len w
       /\ exists o, w_heap w1 !! i = Some o /\ placed leg 0 o).
Proof.
  intros Hl Hn. unfold submit_intent.
  assert (Href : forall (w : World E) reason, sp all n X w (refused intent reason None)
    (fun er w1 => exists i, er_orders er = [i] /\ i = len w
       /\ exists o, w_heap w1 !! i = Some o /\ placed leg 0 o)).
  { intros w' reason. unfold refused, create_rejected_order. rewrite Hl.
    apply sp_bind, sp_create. intros w1 H1 _. apply sp_ret. eexists. split; [done|].
    split; [done|]. eexists. split; [by rewrite H1, list_lookup_middle|by split]. }
  destruct (negb _); [apply Href|]. apply sp_bind, sp_get. intros _.
  case_bool_decide; [apply Href|]. unfold indices. rewrite Hl. cbn [length seq map loop].
  apply sp_bind, sp_modify; [done|done|]. intros _. apply sp_bind. apply sp_bind.
  unfold submit_intent_leg. apply sp_bind.
  set (w1 := set_submitted _ w).
  assert (L1 : len w1 = len w) by done.
  eapply (sp_mono _ _ X X _ _ (fun out w2 => exists i, out = inl i /\ i = len w
    /\ exists o, w_heap w2 !! i = Some o /\ placed leg 0 o)); [|done|].
  - unfold sp, catch.
    assert (Hs : sp all n (fun _ => False) w1 (submit_leg map_on intent 0 None price ty no_callback)
      (fun i w1 => i = len w /\ exists o, w_heap w1 !! i = Some o /\ placed leg 0 o)).
    { rewrite <- L1. apply sp_submit_leg; [by rewrite Hl|lia|apply calm_none|lia]. }
    unfold sp, bind in *. destruct (submit_leg _ _ _ _ _ _ _ w1) as [w2 [i|e]]; simpl in *.
    + destruct Hs as [K (-> & o & Ho & Hp)]. split; [done|]. eauto 10.
    + by destruct Hs.
  - intros out w2 K2 (i & -> & -> & o & Ho & Hp) _. apply sp_bind.
    apply sp_order_at; [by eapply lookup_lt_Some|]. intros o2 Ho2 _. apply sp_ret. intros _.
    apply sp_ret. intros _. apply sp_bind, sp_get. intros _. apply sp_ret. simpl. eauto 10.
Qed.
End Submissions.
