(* ===== verification/Baskets.v ===== *)
(** * What the execution of a basket guarantees

    The theorems about [Coordinator.v]: the outcome of [execute] tells what
    was filled, reversed or latched, whatever the broker does between the
    steps of the program. *)

From S2P Require Import Prelude Rounding PyText PyTime Identifiers RmsModels Margin Checks Engine Instruments Oms SimBroker Coordinator BasketLogic.

#[local] Open Scope Q_scope.
#[local] Open Scope py_scope.
#[local] Set Warnings "-clear-no-such-hyp".

Lemma enumerate_from_lookup {A} (l : list A) (z : Z) (j : nat) (p : Z * A) :
  enumerate_from z l !! j = Some p -> p.1 = (z + Z.of_nat j)%Z /\ l !! j = Some p.2.
Proof.
  revert z j. induction l as [|x l IH]; intros z j; [done|]. destruct j as [|j]; simpl.
  - intros [= <-]. simpl. split; [lia|done].
  - intros H. apply IH in H as [H1 H2]. split; [lia|done].
Qed.
Lemma enumerate_length {A} (l : list A) : length (enumerate l) = length l.
Proof.
  unfold enumerate. generalize 0%Z. induction l as [|x l IH]; intros z; simpl; [done|].
  by rewrite IH.
Qed.

Section Execution.
Context {E : Type} `{!Environment E, !LawfulEnvironment E}.
Context {cfg : Config}.
Local Abbreviation len w := (length (w_heap w)).
Local Abbreviation old n := (fun i : nat => (i < n)%nat).
Local Abbreviation all := (fun _ : nat => True).
Local Abbreviation any := (fun _ : exn => True).

(** The positions of orders created since the heap had [n] of them. *)
Definition fresh (n : nat) (l : list nat) (w : World E) : Prop :=
  Forall (fun i => (n <= i)%nat) l /\ valid l w.

Lemma fresh_kept D m n l w w' : kept D m w w' -> fresh n l w -> fresh n l w'.
Proof. intros K [? ?]. split; [done|]. by eapply valid_kept. Qed.

Lemma fresh_snoc n l i w : fresh n l w -> (n <= i)%nat -> (i < len w)%nat -> fresh n (l ++ [i]) w.
Proof. intros [? ?] ? ?. split; apply Forall_app; auto. Qed.

Lemma valid_app (l l' : list nat) (w : World E) : valid l w -> valid l' w -> valid (l ++ l') w.
Proof. intros ? ?. by apply Forall_app. Qed.

(** ** The submission loop *)
Definition float_legs (intent : OrderIntent) : Prop :=
  Forall (fun leg => exists q, leg_quantity leg = NFloat q) (legs intent).

Lemma calm_persist n b a : calm (n := n) (persist_child cfg b a false).
Proof. intros i w Hi. apply sp_persist_child; [apply db_may_all|done|by left|done]. Qed.

Lemma sp_submit_loop (X : exn -> Prop) n w b intent rms ty :
  (n <= len w)%nat ->
  res_outcome rms = PASS \/ X (ValueError "RMS must PASS before submitting a basket leg.") ->
  sp all n X w (loop (submit_basket_leg cfg b intent rms ty) (indices intent) ([], false))
    (fun st w1 => valid st.1 w1 /\ (length st.1 <= length (legs intent))%nat).
Proof.
  intros Hn Hp.
  assert (Hi : length (indices intent) = length (legs intent))
    by (unfold indices; by rewrite length_map, length_seq).
  eapply sp_mono; [apply (sp_loop all n X (fun k st w1 => valid st.1 w1 /\ (length st.1 <= k)%nat))|done|].
  - intros k [submitted abort] index w1 Hk Hn1 [Hv Hl]. simpl in Hv, Hl. unfold submit_basket_leg.
    destruct abort; [apply sp_ret; split; simpl; [done|lia]|].
    unfold indices in Hk. rewrite list_lookup_fmap in Hk.
    destruct (seq 0 _ !! k) as [z|] eqn:Ez; [|done]. injection Hk as <-.
    apply lookup_seq in Ez as [-> Hlt]. simpl.
    destruct (lookup_lt_is_Some_2 (legs intent) k Hlt) as [leg Hleg].
    apply sp_bind. eapply sp_mono; [eapply (sp_submit_one_leg X w1)|done|].
    + by rewrite Nat2Z.id.
    + lia.
    + apply calm_persist.
    + done.
    + done.
    + intros i w2 K2 (-> & o & Ho & _) _. pose proof (lookup_lt_Some _ _ _ Ho) as Hlen.
      apply sp_bind, sp_order_at; [done|]. intros o1 _ _.
      apply sp_bind, sp_event. intros w3 L3 K3. apply sp_bind, sp_order_at; [lia|]. intros o3 _ _.
      apply sp_bind.
      eapply (sp_mono _ _ X X _ _ (fun _ w4 => len w4 = len w3)); [|done|].
      { case_match; [by apply sp_event|by apply sp_ret]. }
      intros [] w4 K4 L4 _. apply sp_bind, sp_order_at; [lia|]. intros o4 _ _. apply sp_ret.
      simpl. split; [|rewrite length_app; simpl; lia]. apply valid_app.
      * eapply valid_kept; [exact K4|]. eapply valid_kept; [exact K3|]. by eapply valid_kept.
      * constructor; [lia|constructor].
  - done.
  - split; [constructor|done].
  - intros st w1 _. by rewrite Hi.
Qed.

(** ** The retry rounds *)
Section Retry.
Context {X : exn -> Prop} {n : nat} {b : Basket} {intent : OrderIntent} {ty : string}.
Context {checks : list BaseRMSCheck} {rc : RMSContext} {submitted : list nat}.
Hypothesis Hdb : db_may (E := E) X.
Hypothesis Hfloat : float_legs intent \/ X TypeError.
Hypothesis Hrms : forall leg remaining index attempt now e, leg ∈ legs intent ->
  evaluate checks (retry_intent intent leg remaining index attempt now) rc = Raise e -> X e.

Definition round_ok (base k : nat) (st : RetryRounds) (w : World E) : Prop :=
  (length (rd_created st) <= base + k)%nat /\ fresh n (rd_created st) w /\ valid (rd_round st) w.

Lemma sp_retry_leg base k st il w attempt :
  (n <= len w)%nat -> round_ok base k st w -> enumerate (legs intent) !! k = Some il ->
  sp (old n) n X w (retry_leg_step cfg b intent ty checks rc submitted attempt st il)
    (round_ok base (S k)).
Proof.
  intros Hn (Hl & Hc & Hr) Hk. destruct il as [index leg].
  apply enumerate_from_lookup in Hk as [_ Hleg]. simpl in Hleg.
  assert (Hskip : forall w, round_ok base k st w -> round_ok base (S k) st w)
    by (intros w' (? & ? & ?); split; [lia|done]).
  unfold retry_leg_step. case_bool_decide; [apply sp_ret; by apply Hskip|].
  apply sp_bind, sp_get. intros _. apply sp_bind, sp_lift.
  assert (Hq : forall f e, remaining_qty (leg_quantity leg) f = Raise e -> X e).
  { intros f e. destruct Hfloat as [Hf|Ht].
    - eapply Forall_lookup_1 in Hf as [q ->]; [done|exact Hleg].
    - destruct (leg_quantity leg); [done|]. by intros [= <-]. }
  destruct (remaining_qty _ _) as [remaining|e] eqn:Erem; [|by eapply Hq]. intros _.
  destruct (remaining <=? FILL_EPS); [apply sp_ret; by apply Hskip|].
  apply sp_bind, sp_get. intros _. case_bool_decide; [apply sp_ret; by apply Hskip|].
  apply sp_bind, sp_modify; [done|done|]. intros _. apply sp_bind, sp_get. intros _.
  set (w1 := set_retry_ids _ w). assert (L1 : len w1 = len w) by done.
  set (again := retry_intent _ _ _ _ _ _). apply sp_bind, sp_lift.
  destruct (evaluate checks again rc) as [rms|e] eqn:Ev;
    [|eapply Hrms; [by eapply list_elem_of_lookup_2|exact Ev]]. intros _.
  destruct (negb _) eqn:Ep.
  - apply sp_bind, sp_event. intros w2 L2 K2. apply sp_ret. split; [simpl; lia|]. simpl.
    split; [by eapply fresh_kept|by eapply valid_kept].
  - bool_to_prop. apply sp_bind.
    eapply (sp_mono _ _ X X _ _ (fun out w2 => match out with
      | Some i => (n <= i)%nat /\ (i < len w2)%nat | None => True end)); [apply sp_catch|done|].
    + apply sp_bind. apply (sp_weaken all _ n); [|done|done].
      eapply sp_mono; [eapply (sp_submit_one_leg any w1); [reflexivity|lia|apply calm_none|lia|by left]|done|].
      intros i w2 K2 (-> & o & Ho & _) _. apply sp_ret. split; [lia|by eapply lookup_lt_Some].
    + intros e w2 _. by apply sp_ret.
    + intros [i|] w2 K2 Hi _.
      * apply sp_bind, sp_update; [intros o _; split; lia|]. intros w3 H3 K3.
        assert (L3 : len w3 = len w2) by (by rewrite H3, length_alter).
        apply sp_bind, sp_event. intros w4 L4 K4. apply sp_ret. destruct Hi as [Hi1 Hi2].
        split; simpl; [rewrite length_app; simpl; lia|]. split.
        -- apply fresh_snoc; [|done|lia].
           do 3 (eapply fresh_kept; [eassumption|]). done.
        -- apply valid_app; [|constructor; [lia|constructor]].
           do 3 (eapply valid_kept; [eassumption|]). done.
      * apply sp_ret. split; [lia|]. split; [by eapply fresh_kept|by eapply valid_kept].
Qed.

Lemma sp_elapsed w started (Q : Q -> World E -> Prop) :
  (forall t w1, len w1 = len w -> Q t w1) -> sp (old n) n X w (elapsed started) Q.
Proof.
  intros HQ. unfold elapsed. apply sp_bind, (sp_env _ _ _ None).
  - destruct (env_monotonic _). apply moves_refl.
  - done.
  - intros w1 L1 _. by apply sp_ret, HQ.
Qed.

Lemma sp_retry_rounds m w policy started attempt created blocked :
  (n <= len w)%nat -> valid submitted w -> fresh n created w ->
  sp (old n) n X w
    (retry_rounds cfg m b intent ty policy checks rc submitted started attempt created blocked)
    (fun l w1 => fresh n l w1 /\ (length l <= length created + m * length (legs intent))%nat).
Proof.
  revert w attempt created blocked. induction m as [|m IH]; intros w attempt created blocked Hn Hs Hc;
    cbn [retry_rounds]; [apply sp_ret; split; [done|lia]|].
  apply sp_bind, sp_elapsed. intros t w1 L1 K1.
  assert (Hstop : forall w', kept (old n) n w w' ->
    fresh n created w' /\ (length created <= length created + S m * length (legs intent))%nat)
    by (intros w' K'; split; [by eapply fresh_kept|lia]).
  destruct (retry_window_sec policy <=? t); [apply sp_ret; by apply Hstop|].
  apply sp_bind, sp_get. intros _. destruct (basket_complete _ _); [apply sp_ret; by apply Hstop|].
  apply sp_bind.
  eapply (sp_mono _ _ X X _ _ (fun _ w2 => (len w1 <= len w2)%nat)); [|done|].
  { destruct (0 <? attempt)%Z; [|by apply sp_ret]. apply sp_bind, sp_cancel_working; [done|lia| |].
    - apply valid_app; [by eapply valid_kept|]. eapply valid_kept; [exact K1|]. apply Hc.
    - intros r w2 L2 _. destruct r; [|by apply sp_ret].
      apply sp_bind, (sp_env _ _ _ None); [apply events_moves|done|]. intros w3 L3 _.
      apply sp_bind, sp_elapsed. intros t' w4 L4 _. apply sp_ret. lia. }
  intros go w2 K2 L2 _. destruct go; [|apply sp_ret, Hstop; by eapply kept_trans].
  pose proof (kept_trans _ _ _ _ _ K1 K2) as K02. apply sp_bind.
  eapply sp_mono; [apply (sp_loop (old n) n X (round_ok (length created)))|done|].
  - intros k st il w3 Hk Hn3 Hst. by apply sp_retry_leg.
  - lia.
  - split; [simpl; lia|]. simpl. split; [by eapply fresh_kept|constructor].
  - intros st w3 K3 (Hl & Hf & Hr) _. rewrite enumerate_length in Hl. apply sp_bind.
    pose proof (k_len _ _ _ _ K3) as Hl3.
    eapply (sp_mono _ _ X X _ _ (fun _ w4 => len w4 = len w3)); [|done|].
    { destruct (rd_round st) as [|i l]; [by apply sp_ret|].
      apply sp_bind, sp_elapsed. intros t' w4 L4 _. apply sp_wait_terminals. lia. }
    intros [] w4 K4 L4 _.
    eapply sp_mono; [apply IH|done|].
    + lia.
    + do 2 (eapply valid_kept; [eassumption|]). by eapply valid_kept.
    + by eapply fresh_kept.
    + intros l w5 _ [? ?]. split; [done|lia].
Qed.
End Retry.

(** The exceptions the risk checks raise on the retries of [intent]. *)
Definition retries_may (X : exn -> Prop) (intent : OrderIntent) : Prop :=
  forall checks rc leg remaining index attempt now e,
    rms_engine cfg = Some checks -> rms_context cfg = Some rc -> leg ∈ legs intent ->
    evaluate checks (retry_intent intent leg remaining index attempt now) rc = Raise e -> X e.

Lemma sp_retry_incomplete (X : exn -> Prop) n w b intent ty submitted :
  db_may (E := E) X -> float_legs intent \/ X TypeError ->
  retries_may X intent -> (n <= len w)%nat -> valid submitted w ->
  sp (old n) n X w (retry_incomplete cfg b intent ty submitted)
    (fun l w1 => fresh n l w1
       /\ (length l <= Z.to_nat (match retry_policy cfg with Some p => max_retries p | None => 0 end)
                       * length (legs intent))%nat).
Proof.
  intros Hdb Hfl Hrms Hn Hv. unfold retry_incomplete, kill_switched.
  apply sp_bind, sp_get. intros _.
  assert (Hnone : forall w' : World E, fresh n [] w' /\ (0 <= Z.to_nat (match retry_policy cfg with
    Some p => max_retries p | None => 0 end) * length (legs intent))%nat)
    by (intros w'; split; [split; constructor|lia]).
  destruct (bool_decide _ && _); [apply sp_ret, Hnone|].
  destruct (retry_policy cfg) as [policy|]; [|apply sp_ret, Hnone].
  destruct (rms_engine cfg) as [checks|] eqn:Ec; [|apply sp_ret, Hnone].
  destruct (rms_context cfg) as [rc|] eqn:Er; [|apply sp_ret, Hnone].
  destruct (retries_enabled cfg); [|apply sp_ret, Hnone].
  apply sp_bind, sp_cancel_working; [done|done|done|]. intros r w1 L1 K1.
  destruct r; [|apply sp_ret, Hnone]. apply sp_bind, (sp_env _ _ _ None).
  { destruct (env_monotonic _). apply moves_refl. }
  { done. }
  intros w2 L2 K2. eapply sp_mono; [eapply sp_retry_rounds|done|].
  - done.
  - done.
  - intros leg q i a now e Hl He. by eapply Hrms.
  - lia.
  - do 2 (eapply valid_kept; [eassumption|]). done.
  - split; constructor.
  - intros l w3 _ [? Hl]. split; [done|]. simpl in Hl. lia.
Qed.

(** ** Compensation *)

(** The order at [i] reverses a leg of which [cum] was filled. *)
Definition reverses (leg : OrderLeg) (index : Z) (cum : Q) (i : nat) (w : World E) : Prop :=
  exists o, w_heap w !! i = Some o /\ o_leg_index o = Some index
    /\ o_side o = Some (opposite_side (leg_side leg)) /\ o_symbol o = leg_symbol leg
    /\ o_quantity o = NDec (repr_dec cum) /\ is_compensation o = true.

Lemma reverses_kept D m leg index cum i w w' :
  kept D m w w' -> (i < m)%nat -> reverses leg index cum i w -> reverses leg index cum i w'.
Proof.
  intros K Hi (o & Ho & Hr). destruct (k_ev _ _ _ _ K i o Hi Ho) as (o' & Ho' & [[] _]).
  exists o'. split; [done|]. destruct Hr as (? & ? & ? & ? & ?). split_and!; congruence.
Qed.

(** Marking a fresh compensation order. *)
Lemma sp_mark n w b a leg0 index comp_of created i o :
  (n <= i)%nat -> w_heap w !! i = Some o -> placed leg0 0 o ->
  sp (old n) n any w (mark_compensation cfg b a index comp_of created i)
    (fun l w1 => l = created ++ [i] /\ exists o', w_heap w1 !! i = Some o'
       /\ o_leg_index o' = Some index /\ o_side o' = Some (leg_side leg0)
       /\ o_symbol o' = leg_symbol leg0 /\ o_quantity o' = leg_quantity leg0
       /\ is_compensation o' = true).
Proof.
  intros Hi Ho Hp. pose proof (lookup_lt_Some _ _ _ Ho) as Hlt.
  unfold mark_compensation. apply sp_bind, sp_update; [intros ? _; split; lia|].
  intros w1 H1 K1.
  set (o1 := set_basket (Some index) (b_id b) true (Some comp_of) o).
  assert (Ho1 : w_heap w1 !! i = Some o1) by (by rewrite H1, list_lookup_alter_eq, Ho).
  assert (L1 : len w1 = len w) by (by rewrite H1, length_alter).
  apply (sp_weaken all _ n); [|done|done].
  assert (Hafter : forall w2, kept all n w1 w2 -> exists o', w_heap w2 !! i = Some o'
       /\ o_leg_index o' = Some index /\ o_side o' = Some (leg_side leg0)
       /\ o_symbol o' = leg_symbol leg0 /\ o_quantity o' = leg_quantity leg0
       /\ is_compensation o' = true).
  { intros w2 K2. destruct (k_same _ _ _ _ K2 i o1 I Ho1) as (o2 & Ho2 & []).
    exists o2. destruct Hp. split_and!; try done; simpl in *; congruence. }
  apply sp_bind, sp_persist_child; [apply db_may_all|lia| |].
  { right. intros o' Ho'. rewrite Ho1 in Ho'. by injection Ho' as <-. }
  intros w2 L2 K2. apply sp_bind, sp_order_at; [lia|]. intros o2 _ _.
  apply sp_bind, sp_event. intros w3 L3 K3. apply sp_bind, sp_order_at; [lia|]. intros o3 _ _.
  case_match; [by apply sp_raise|]. apply sp_ret. split; [done|]. apply Hafter.
  by eapply kept_trans.
Qed.

(** One leg has no fills to speak of, or an order that reverses them: the
    fills are those of a moment [w1] between [w0] and [w]. *)
Definition leg_settled (n : nat) (w0 : World E) (submitted created : list nat) (il : Z * OrderLeg)
    (w : World E) : Prop :=
  exists w1, kept (old n) n w0 w1 /\ kept (old n) n w1 w
    /\ let cum := filled_qty_for_leg il.1 (omap (fun i => w_heap w1 !! i) submitted) in
       cum <= FILL_EPS \/ exists i, i ∈ created /\ (i < len w)%nat /\ reverses il.2 il.1 cum i w.

Lemma leg_settled_kept n m w0 submitted created created' il w w' :
  kept (old m) m w w' -> (n <= m)%nat -> m = len w ->
  (forall i, i ∈ created -> i ∈ created') ->
  leg_settled n w0 submitted created il w -> leg_settled n w0 submitted created' il w'.
Proof.
  intros K Hm Hl Hsub (w1 & K1 & K2 & Hr).
  assert (K' : kept (old n) n w w') by (eapply kept_weaken; [|exact Hm|exact K]; simpl; lia).
  exists w1. split; [done|]. split; [by eapply kept_trans|].
  destruct Hr as [|(i & Hi & Hlt & Hr)]; [by left|right]. exists i. split; [auto|].
  pose proof (k_len _ _ _ _ K). split; [lia|]. eapply reverses_kept; [exact K|lia|done].
Qed.

Lemma sp_compensate_leg n w0 w b intent ty submitted now created il :
  kept (old n) n w0 w -> (n <= len w)%nat ->
  sp (old (len w)) (len w) any w (compensate_leg cfg b intent ty submitted now created il)
    (fun l w1 => leg_settled n w0 submitted l il w1
       /\ (l = created \/ (exists i, l = created ++ [i] /\ i = len w /\ (i < len w1)%nat
            /\ exists cum, reverses il.2 il.1 cum i w1))).
Proof.
  intros K0 Hn. destruct il as [index leg]. unfold compensate_leg.
  apply sp_bind, sp_get. intros _.
  set (cum := filled_qty_for_leg index _). destruct (cum <=? FILL_EPS) eqn:Ecum; bool_to_prop.
  { apply sp_ret. split; [|by left]. exists w. split; [done|]. split; [apply kept_refl|by left]. }
  apply sp_bind.
  eapply sp_mono; [apply (sp_weaken all _ (len w)); [|done|done];
    eapply (sp_submit_single any w); [reflexivity|done]|done|].
  intros er w1 K1 (i & Hl & Hi & o & Ho & Hp) _. rewrite Hl.
  apply sp_bind, sp_get. intros _. cbn [loop].
  match goal with |- context [mark_compensation cfg b _ index ?c] => set (comp_of := c) end.
  apply sp_bind. eapply sp_mono; [eapply (sp_mark (len w) w1); [lia|exact Ho|exact Hp]|done|].
  intros l w2 K2 (-> & o2 & Ho2 & H1 & H2 & H3 & H4 & H5) _. apply sp_ret.
  pose proof (lookup_lt_Some _ _ _ Ho2) as Hlt2.
  assert (Hrev : reverses leg index cum i w2)
    by (exists o2; repeat (split; [assumption|]); assumption).
  split; [|right; exists i; split_and!; [reflexivity|assumption..|by exists cum]].
  exists w. split; [done|]. split.
  - eapply kept_weaken; [| |eapply kept_trans; [exact K1|exact K2]]; simpl; lia.
  - right. exists i. split; [apply elem_of_app; right; left|]. by split.
Qed.

(** Every order of [l] reverses a leg of the intent. *)
Definition reversals (intent : OrderIntent) (l : list nat) (w : World E) : Prop :=
  Forall (fun i => exists il cum, il ∈ enumerate (legs intent) /\ reverses il.2 il.1 cum i w) l.

Lemma reversals_kept D m intent l w w' :
  kept D m w w' -> Forall (fun i => (i < m)%nat) l -> reversals intent l w -> reversals intent l w'.
Proof.
  intros K Hl H. unfold reversals in *. rewrite Forall_forall in *. intros i Hi.
  destruct (H i Hi) as (il & cum & Hil & Hr). exists il, cum. split; [done|].
  eapply reverses_kept; [exact K| |exact Hr]. by apply Hl.
Qed.

Lemma sp_compensate n w0 w b intent ty submitted :
  kept (old n) n w0 w -> (n <= len w)%nat ->
  sp (old n) n any w (compensate_filled cfg b intent ty submitted)
    (fun l w1 => valid l w1 /\ (length l <= length (legs intent))%nat /\ reversals intent l w1
       /\ (l = [] \/ forall il, il ∈ enumerate (legs intent) ->
                      leg_settled n w0 submitted l il w1)).
Proof.
  intros K0 Hn. unfold compensate_filled, kill_switched. apply sp_bind, sp_get. intros _.
  destruct (bool_decide _ && _).
  { apply sp_ret. split; [constructor|]. split; [simpl; lia|]. split; [constructor|by left]. }
  apply sp_bind, sp_get. intros _.
  eapply sp_mono; [apply (sp_loop (old n) n any (fun k l w1 => kept (old n) n w0 w1 /\ valid l w1
    /\ reversals intent l w1 /\ (length l <= k)%nat /\ forall j il, (j < k)%nat -> enumerate (legs intent) !! j = Some il ->
                           leg_settled n w0 submitted l il w1))|done|].
  - intros k l il w1 Hk Hn1 (K1 & Hv & Hrv & Hlen & Hset).
    apply (sp_weaken (old (len w1)) _ (len w1)); [|simpl; lia|done].
    eapply sp_mono; [by apply (sp_compensate_leg n w0)|done|].
    intros l' w2 K2 [Hil Hl'].
    assert (Hsub : forall i, i ∈ l -> i ∈ l').
    { intros i Hi. destruct Hl' as [->|(? & -> & _)]; [done|]. apply elem_of_app. by left. }
    pose proof (reversals_kept _ _ _ _ _ _ K2 Hv Hrv) as Hrv2.
    split_and!.
    + eapply kept_trans; [exact K1|]. eapply kept_weaken; [| |exact K2]; simpl; lia.
    + destruct Hl' as [->|(i & -> & -> & Hlt & _)]; [by eapply valid_kept|].
      apply valid_app; [by eapply valid_kept|]. constructor; [done|constructor].
    + destruct Hl' as [->|(i & -> & _ & _ & cum & Hr)]; [done|].
      apply Forall_app. split; [done|]. constructor; [|constructor]. exists il, cum.
      split; [by eapply list_elem_of_lookup_2|done].
    + destruct Hl' as [->|(i & -> & _)]; [lia|]. rewrite length_app. simpl. lia.
    + intros j il' Hj Hil'. destruct (decide (j = k)) as [->|].
      * rewrite Hk in Hil'. by injection Hil' as <-.
      * eapply leg_settled_kept; [exact K2|done|done|exact Hsub|]. apply (Hset j); [lia|done].
  - done.
  - split_and!; [done|constructor|constructor|simpl; lia|]. intros j il Hj. lia.
  - intros l w1 _ (K1 & Hv & Hrv & Hlen & Hset). rewrite enumerate_length in Hlen, Hset.
    split_and!; [done|done|done|right]. intros il Hil.
    apply list_elem_of_lookup in Hil as [j Hj]. apply (Hset j); [|done].
    rewrite <- enumerate_length. by eapply lookup_lt_Some.
Qed.

(** ** The outcome of a basket *)
Definition objects (l : list nat) (w : World E) : list OMSOrder := omap (fun i => w_heap w !! i) l.

Definition latched (account : option Z) (strategy : string) (c : gset (Z * string))
    : gset (Z * string) :=
  match account with Some a => {[(a, strategy)]} ∪ c | None => c end.

(** The compensating orders [l] are filled in full, each on the opposite side
    of a leg of the intent. *)
Definition comp_filled (o : OMSOrder) : Prop :=
  o_status o = FILLED /\ num_val (o_quantity o) <= fl (filled_quantity o + FILL_EPS).
Definition undone (intent : OrderIntent) (l : list nat) (w' : World E) : Prop :=
  reversals intent l w' /\ forall o, o ∈ objects l w' -> comp_filled o.

(** Leg [il] is flat in [w']: its fills are negligible, or they are reversed by
    a filled compensating order of that very quantity. *)
Definition leg_flat (submitted comps : list nat) (il : Z * OrderLeg) (w' : World E) : Prop :=
  let cum := filled_qty_for_leg il.1 (objects submitted w') in
  cum <= FILL_EPS \/ exists i o, i ∈ comps /\ w_heap w' !! i = Some o /\ comp_filled o
    /\ reverses il.2 il.1 cum i w'.

(** No submitted order has more than a negligible fill. *)
Definition nothing_filled (submitted : list nat) (w' : World E) : Prop :=
  forall o, o ∈ objects submitted w' -> is_compensation o = false ->
    filled_quantity o <= FILL_EPS.

(** [filled_at_least intent l w']: fills no larger than the orders [l] have in
    [w'] already complete every leg. *)
Definition filled_at_least (intent : OrderIntent) (l : list nat) (w' : World E) : Prop :=
  exists seen, Forall2 same_order seen (objects l w') /\ basket_complete intent seen = true.

(** What the state a basket ends in says of the orders as they are when
    [execute] returns, in [w']. *)
Inductive outcome_ok (w w' : World E) (r : BasketExecutionResult) : Prop :=
  | out_complete :
      b_state (bx_basket r) = match action (bx_intent r) with CLOSE => B_CLOSED | OPEN => B_OPEN end ->
      filled_at_least (bx_intent r) (bx_orders r) w' ->
      w_critical w' = w_critical w -> outcome_ok w w' r
  | out_parked :
      b_state (bx_basket r) = EXECUTING ->
      existsb is_disconnect_parked (objects (bx_orders r) w') = true ->
      w_critical w' = w_critical w -> outcome_ok w w' r
  | out_compensated :
      b_state (bx_basket r) = COMPENSATED ->
      undone (bx_intent r) (bx_compensation_orders r) w' ->
      (no_late_fills E ->
         nothing_filled (bx_orders r) w'
         \/ (forall il, il ∈ enumerate (legs (bx_intent r)) ->
             leg_flat (bx_orders r) (bx_compensation_orders r) il w')) ->
      w_critical w' = w_critical w -> outcome_ok w w' r
  | out_critical :
      b_state (bx_basket r) = CRITICAL ->
      w_critical w' = latched (account_id (bx_intent r)) (strategy_id (bx_intent r)) (w_critical w) ->
      (forall a, recovery_service cfg = true -> account_id (bx_intent r) = Some a ->
         (a, signal_id (bx_intent r), action (bx_intent r), strategy_id (bx_intent r))
           ∈ w_scheduled w') ->
      outcome_ok w w' r.

Lemma elem_of_objects l (w : World E) o :
  o ∈ objects l w <-> exists i, i ∈ l /\ w_heap w !! i = Some o.
Proof. apply list_elem_of_omap. Qed.

(** The same objects, later: they are the same orders, and at rest they have
    the same fills. *)
Lemma objects_later (R : OMSOrder -> OMSOrder -> Prop) l (w w' : World E) :
  Forall (fun i => exists o o', w_heap w !! i = Some o /\ w_heap w' !! i = Some o' /\ R o o') l ->
  Forall2 R (objects l w) (objects l w').
Proof.
  unfold objects. induction 1 as [|i l (o & o' & Ho & Ho' & HR) _ IH]; simpl; [constructor|].
  rewrite Ho, Ho'. by constructor.
Qed.

Lemma objects_same D n l (w w' : World E) :
  kept D n w w' -> Forall (fun i => (i < n)%nat) l -> valid l w ->
  Forall2 same_order (objects l w) (objects l w').
Proof.
  intros K Hl Hv. apply objects_later, Forall_forall. intros i Hi. unfold valid in Hv.
  rewrite Forall_forall in Hl, Hv. destruct (lookup_lt_is_Some_2 _ _ (Hv i Hi)) as [o Ho].
  destruct (k_ev _ _ _ _ K i o (Hl i Hi) Ho) as (o' & Ho' & [S _]). eauto.
Qed.

Lemma objects_rested D n l (w w' : World E) :
  no_late_fills E -> kept D n w w' -> Forall (fun i => (i < n)%nat) l -> at_rest l w ->
  Forall2 (fun o o' => same_order o o' /\ filled_quantity o' = filled_quantity o)
    (objects l w) (objects l w').
Proof.
  intros N K Hl H. apply objects_later, Forall_forall. intros i Hi. unfold at_rest in H.
  rewrite Forall_forall in Hl, H. destruct (H i Hi) as (o & Ho & T).
  destruct (k_ev _ _ _ _ K i o (Hl i Hi) Ho) as (o1 & H1 & [S _]).
  destruct (k_rest _ _ _ _ K N i o (Hl i Hi) Ho) as (o2 & H2 & R).
  rewrite H1 in H2. injection H2 as <-. exists o, o1. split_and!; [done..|by apply R].
Qed.

Lemma rested_leg_fill D n l (w w' : World E) index :
  no_late_fills E -> kept D n w w' -> Forall (fun i => (i < n)%nat) l -> at_rest l w ->
  filled_qty_for_leg index (objects l w') = filled_qty_for_leg index (objects l w).
Proof.
  intros N K Hl H. unfold filled_qty_for_leg. f_equal.
  induction (objects_rested _ _ _ _ _ N K Hl H) as [|o o' os os' [S F] _ IH]; [done|].
  cbn [List.filter]. rewrite (so_leg _ _ S), (so_comp _ _ S).
  destruct (_ && _); [|done]. cbn [map]. by rewrite F, IH.
Qed.

Lemma outcome_shift w w1 w' r :
  w_critical w1 = w_critical w -> outcome_ok w1 w' r -> outcome_ok w w' r.
Proof.
  intros Hc H. destruct H;
    [apply out_complete|apply out_parked|apply out_compensated|apply out_critical];
    eauto; congruence.
Qed.

(** ** The parts of [execute]

    The exceptions of [X] are those that may escape. *)
Section Parts.
Context {X : exn -> Prop}.
Hypothesis Hdb : db_may (E := E) X.

(** What a part of [execute] that ends it returns. *)
Definition ends (w : World E) (intent : OrderIntent) (submitted : list nat)
    (r : BasketExecutionResult) (w' : World E) : Prop :=
  bx_intent r = intent /\ bx_orders r = submitted /\ outcome_ok w w' r
  /\ (length (bx_compensation_orders r) <= length (legs intent))%nat.

Lemma ends_shift w w1 w' intent submitted r :
  w_critical w1 = w_critical w -> ends w1 intent submitted r w' -> ends w intent submitted r w'.
Proof. intros Hc (? & ? & ? & ?). split_and!; try done. by eapply outcome_shift. Qed.

Lemma finish_ends w b intent submitted :
  valid submitted w -> basket_complete intent (objects submitted w) = true ->
  runs X w (finish_complete cfg b intent submitted) (ends w intent submitted).
Proof.
  intros Hv Hc. unfold finish_complete.
  set (bc := Coordinator.set_state _ _). set (n := len w).
  eapply (runs_bind all n _ _ _ _ (fun b' _ => same_but_id bc b')).
  { by apply sp_persist_basket; auto. }
  intros b' w1 K1 Hb.
  eapply (runs_bind all n _ _ _ _ (fun _ _ => True)).
  { apply sp_persist_children; [done|apply K1|eapply valid_kept; [exact K1|done]|done]. }
  intros [] w2 K2 _.
  eapply (runs_bind all n _ _ _ _ (fun _ _ => True)); [by apply sp_event|]. intros [] w3 K3 _.
  pose proof (kept_trans _ _ _ _ _ K1 (kept_trans _ _ _ _ _ K2 K3)) as K.
  apply runs_ret. split_and!; [done|done| |simpl; lia].
  apply out_complete; simpl; [| |apply (k_crit _ _ _ _ K)].
  - destruct Hb as [->|[id ->]]; simpl; by destruct (action intent).
  - exists (objects submitted w). split; [by eapply objects_same|exact Hc].
Qed.

(** Giving up latches the account and asks for recovery. *)
Lemma abandon_ends w b intent submitted comp :
  valid (submitted ++ comp) w -> b_action b = action intent ->
  (length comp <= length (legs intent))%nat ->
  runs X w (abandon cfg b intent submitted comp) (ends w intent submitted).
Proof.
  intros Hv Hact Hlen. unfold abandon, fail_critical. set (bc := set_recovery _ _).
  eapply runs_then; [|intros b2 w2 H; apply runs_ret; exact H].
  set (w1 := (mark_critical (account_id intent) (strategy_id intent) w).1).
  assert (Hm : mark_critical (account_id intent) (strategy_id intent) w = (w1, Ok tt))
    by (subst w1; unfold mark_critical; by destruct (account_id intent)).
  assert (Hw1 : w_heap w1 = w_heap w /\ w_critical w1
            = latched (account_id intent) (strategy_id intent) (w_critical w))
    by (subst w1; unfold mark_critical; by destruct (account_id intent)).
  destruct Hw1 as [Hh Hc]. eapply runs_step; [exact Hm|].
  assert (Hv1 : valid (submitted ++ comp) w1) by (unfold valid in *; by rewrite Hh).
  clearbody w1. set (n := len w1).
  eapply (runs_bind all n _ _ _ _ (fun b' _ => same_but_id bc b')).
  { by apply sp_persist_basket; auto. }
  intros b1 w3 K3 Hb.
  eapply (runs_bind all n _ _ _ _ (fun _ _ => True)).
  { apply sp_persist_children; [done|apply K3|eapply valid_kept; [exact K3|done]|done]. }
  intros [] w4 K4 _.
  eapply (runs_bind all n _ _ _ _ (fun _ _ => True)); [by apply sp_event|]. intros [] w5 K5 _.
  pose proof (kept_trans _ _ _ _ _ K3 (kept_trans _ _ _ _ _ K4 K5)) as K.
  assert (Hact1 : b_action b1 = action intent) by (by destruct Hb as [->|[id ->]]).
  eapply (runs_then _ _ _ _ (fun _ w6 => w_critical w6 = w_critical w5
    /\ forall a, recovery_service cfg = true -> account_id intent = Some a ->
       (a, signal_id intent, action intent, strategy_id intent) ∈ w_scheduled w6)).
  { destruct (account_id intent); [destruct (recovery_service cfg)|]; unfold runs; simpl;
      (split; [done|]); try done.
    intros a' _ [= <-]. rewrite Hact1. apply elem_of_app. right. by left. }
  intros [] w6 [Hc6 Hs]. apply runs_ret. split_and!; try done. apply out_critical; simpl.
  - by destruct Hb as [->|[id ->]].
  - by rewrite Hc6, (k_crit _ _ _ _ K).
  - exact Hs.
Qed.

(** A settled leg whose compensation completed is flat. *)
Lemma settled_flat n w4 w5 w' submitted comps il :
  no_late_fills E -> at_rest submitted w4 -> Forall (fun i => (i < n)%nat) submitted ->
  leg_settled n w4 submitted comps il w5 -> kept all (len w5) w5 w' -> (n <= len w5)%nat ->
  (forall o, o ∈ objects comps w' -> comp_filled o) ->
  leg_flat submitted comps il w'.
Proof.
  intros N R Hs (w1 & K41 & K15 & Hr) K5 Hn5 Hf. unfold leg_flat. cbn zeta.
  assert (K1 : kept (old n) n w1 w')
    by (eapply kept_trans; [exact K15|]; eapply kept_weaken; [| |exact K5]; done).
  assert (R1 : at_rest submitted w1) by (by eapply at_rest_kept).
  rewrite (rested_leg_fill _ _ _ _ _ _ N K1 Hs R1). fold (objects submitted w1) in Hr.
  destruct Hr as [|(i & Hi & Hlt & Hr)]; [by left|right].
  pose proof (reverses_kept _ _ _ _ _ _ _ _ K5 Hlt Hr) as (o & Ho & Hrest).
  exists i, o. split_and!; [done|done| |by exists o]. apply Hf, elem_of_objects. eauto.
Qed.

(** What [compensation_complete] checked, of the orders later. *)
Lemma comps_filled l w6 w' :
  kept all (len w6) w6 w' -> valid l w6 ->
  forallb (fun o => bool_decide (o_status o = FILLED)
                    && (num_val (o_quantity o) <=? fl (filled_quantity o + FILL_EPS)))
    (objects l w6) = true ->
  forall o, o ∈ objects l w' -> comp_filled o.
Proof.
  intros K Hv Hf o' (i & Hi & Ho')%elem_of_objects. unfold valid in Hv.
  rewrite Forall_forall in Hv. pose proof (Hv i Hi) as Hlt.
  destruct (lookup_lt_is_Some_2 _ _ Hlt) as [o Ho].
  destruct (k_ev _ _ _ _ K i o Hlt Ho) as (o1 & H1 & [[S1 S2 S3 S4 S5 S6 S7] Hfil]).
  rewrite Ho' in H1. injection H1 as <-. rewrite forallb_forall in Hf.
  assert (Hin : o ∈ objects l w6) by (apply elem_of_objects; eauto).
  destruct (andb_prop _ _ (Hf o (proj1 (list_elem_of_In _ _) Hin))) as [F1 F2].
  apply bool_decide_eq_true in F1. apply Qleb_true in F2. split; [auto|]. rewrite S4.
  eapply Qle_trans; [exact F2|]. apply (rounds_mono (f := fl)). lra.
Qed.

Lemma complete_nothing_filled D n submitted w6 w' :
  no_late_fills E -> kept D n w6 w' -> Forall (fun i => (i < n)%nat) submitted ->
  at_rest submitted w6 ->
  compensation_complete [] (objects submitted w6) = true -> nothing_filled submitted w'.
Proof.
  intros N K Hl R Hc. simpl in Hc. apply negb_true_iff in Hc.
  assert (Hs : forall o, o ∈ objects submitted w6 -> is_compensation o = false ->
            filled_quantity o <= FILL_EPS).
  { intros o Ho Hcomp. destruct (Qlt_le_dec FILL_EPS (filled_quantity o)) as [Hlt|]; [exfalso|done].
    rewrite <- not_true_iff_false in Hc. apply Hc, existsb_exists. exists o.
    split; [by apply list_elem_of_In|]. rewrite Hcomp. by apply Qltb_true. }
  pose proof (objects_rested _ _ _ _ _ N K Hl R) as H2. intros o' Ho' Hcomp.
  apply list_elem_of_lookup in Ho' as [j Hj].
  destruct (Forall2_lookup_r _ _ _ _ _ H2 Hj) as (o & Ho & [S F]). rewrite F.
  apply Hs; [by eapply list_elem_of_lookup_2|]. by rewrite <- (so_comp _ _ S).
Qed.

Lemma unwind_ends w b intent ty submitted :
  valid submitted w -> b_action b = action intent ->
  runs X w (unwind cfg b intent ty submitted) (ends w intent submitted).
Proof.
  intros Hv Hact. unfold unwind. set (bu := Coordinator.set_state UNWINDING b). set (n := len w).
  eapply (runs_bind all n _ _ _ _ (fun b' _ => same_but_id bu b')).
  { by apply sp_persist_basket; auto. }
  intros b1 w1 K1 Hb.
  assert (Hact1 : b_action b1 = action intent) by (by destruct Hb as [->|[id ->]]).
  eapply (runs_bind all n _ _ _ _ (fun _ _ => True)); [by apply sp_event|]. intros [] w2 K2 _.
  pose proof (kept_trans _ _ _ _ _ K1 K2) as K02.
  eapply (runs_bind all n _ _ _ _ (fun rested wx => rested = true -> no_late_fills E ->
    at_rest submitted wx)).
  { apply sp_cancel_and_wait. intros rested wx _ Hr Hok N. apply Hr; [done|done|exact Hv|].
    eapply valid_kept; [exact K02|exact Hv]. }
  intros rested w3 K3 Hrest.
  pose proof (kept_trans _ _ _ _ _ K1 (kept_trans _ _ _ _ _ K2 K3)) as K03.
  assert (Hgive : forall wx comp, kept (old n) n w wx -> valid comp wx ->
    (length comp <= length (legs intent))%nat ->
    runs X wx (abandon cfg b1 intent submitted comp) (ends w intent submitted)).
  { intros wx comp Kx Hvc Hlc. eapply runs_mono; [apply abandon_ends; [|done|done]|].
    - apply valid_app; [|done]. eapply valid_kept; [exact Kx|done].
    - intros r w'. apply ends_shift. apply (k_crit _ _ _ _ Kx). }
  assert (K03' : kept (old n) n w w3) by (eapply kept_weaken; [| |exact K03]; done).
  destruct rested; [|apply Hgive; [done|constructor|simpl; lia]]. simpl.
  eapply (runs_bind all n _ _ _ _ (fun _ _ => True)).
  { apply sp_persist_children; [done|apply K03|eapply valid_kept; [exact K03|done]|done]. }
  intros [] w4 K4 _.
  assert (K04 : kept (old n) n w w4)
    by (eapply kept_trans; [exact K03'|]; eapply kept_weaken; [| |exact K4]; done).
  eapply (runs_bind (old n) n _ _ _ _ (fun out wx => match out with
    | Some l => valid l wx /\ (length l <= length (legs intent))%nat
        /\ reversals intent l wx
        /\ (l = [] \/ forall il, il ∈ enumerate (legs intent) -> leg_settled n w4 submitted l il wx)
    | None => True end)).
  { apply sp_catch; [apply sp_bind|intros e wx _; by apply sp_ret].
    eapply sp_mono; [apply (sp_compensate n w4); [apply kept_refl|apply K04]|done|].
    intros l wx _ Hl _. by apply sp_ret. }
  intros out w5 K5 Hout. pose proof (kept_trans _ _ _ _ _ K04 K5) as K05.
  destruct out as [comps|]; [|apply Hgive; [done|constructor|simpl; lia]].
  destruct Hout as (Hvc & Hlc & Hrev & Hset).
  eapply (runs_bind all (len w5) _ _ _ _ (fun _ _ => True)); [by apply sp_wait_terminals|].
  intros [] w6 K6 _.
  assert (K06 : kept (old n) n w w6)
    by (eapply kept_trans; [exact K05|]; eapply kept_weaken; [| |exact K6]; [done|apply K05]).
  do 2 (eapply runs_step; [reflexivity|]).
  fold (objects comps w6) (objects submitted w6).
  destruct (compensation_complete _ _) eqn:Ecc; simpl;
    [|apply Hgive; [done|eapply valid_kept; [exact K6|exact Hvc]|done]].
  set (bc := Coordinator.set_state COMPENSATED _).
  eapply (runs_bind all (len w6) _ _ _ _ (fun b' _ => same_but_id bc b')).
  { by apply sp_persist_basket; auto. }
  intros b2 w7 K7 Hb2.
  eapply (runs_bind all (len w6) _ _ _ _ (fun _ _ => True)); [by apply sp_event|].
  intros [] w8 K8 _. pose proof (kept_trans _ _ _ _ _ K7 K8) as K68.
  assert (Hl6 : (n <= len w6)%nat) by apply K06.
  assert (Hsub6 : Forall (fun i => (i < len w6)%nat) submitted)
    by (eapply valid_kept; [exact K06|done]).
  assert (Hv6 : valid comps w6) by (eapply valid_kept; [exact K6|exact Hvc]).
  assert (K58 : kept all (len w5) w5 w8).
  { eapply kept_trans; [exact K6|]. eapply kept_weaken; [| |exact K68]; [done|apply K6]. }
  assert (Hcf : forall o, o ∈ objects comps w8 -> comp_filled o).
  { apply (comps_filled comps w6); [done|done|]. unfold compensation_complete in Ecc.
    by destruct (objects comps w6). }
  assert (R4 : no_late_fills E -> at_rest submitted w4)
    by (intros N; eapply at_rest_kept; [exact N| |exact K4|by apply Hrest]; exact Hv).
  apply runs_ret. split_and!; [done|done| |done]. apply out_compensated; simpl.
  - by destruct Hb2 as [->|[id ->]].
  - split; [|exact Hcf]. eapply reversals_kept; [exact K58|exact Hvc|exact Hrev].
  - intros N. specialize (R4 N). destruct (decide (comps = [])) as [->|Hne].
    + left. eapply (complete_nothing_filled _ _ _ w6); [done|exact K68|done| |exact Ecc].
      eapply at_rest_kept; [exact N| | |exact R4]; [exact Hv|].
      eapply kept_trans; [exact K5|eapply kept_weaken; [| |exact K6]; [done|apply K05]].
    + right. destruct Hset as [|Hset]; [done|]. intros il Hil.
      eapply (settled_flat n w4 w5); [done|done|exact Hv|by apply Hset|done|apply K05|done].
  - rewrite (k_crit _ _ _ _ K68). apply (k_crit _ _ _ _ K06).
Qed.

Definition retries : nat :=
  Z.to_nat (match retry_policy cfg with Some p => max_retries p | None => 0 end).

(** The end of a basket of which [k] orders were submitted at first. *)
Definition ends_from (k : nat) (w : World E) (intent : OrderIntent)
    (r : BasketExecutionResult) (w' : World E) : Prop :=
  bx_intent r = intent /\ outcome_ok w w' r
  /\ (length (bx_orders r) <= k + retries * length (legs intent))%nat
  /\ (length (bx_compensation_orders r) <= length (legs intent))%nat.

Lemma settle_ends w b intent ty submitted :
  valid submitted w -> b_action b = action intent -> b_state b = EXECUTING ->
  float_legs intent \/ X TypeError -> retries_may X intent ->
  runs X w (settle cfg b intent ty submitted) (ends_from (length submitted) w intent).
Proof.
  intros Hv Hact Hst Hfl Hrms. unfold settle. set (n := len w).
  eapply (runs_bind all n _ _ _ _ (fun _ _ => True)); [by apply sp_wait_terminals|].
  intros [] w1 K1 _.
  eapply (runs_bind all n _ _ _ _ (fun _ _ => True)).
  { apply sp_persist_children; [done|apply K1|eapply valid_kept; [exact K1|done]|done]. }
  intros [] w2 K2 _. pose proof (kept_trans _ _ _ _ _ K1 K2) as K02.
  eapply runs_step; [reflexivity|]. fold (objects submitted w2).
  destruct (existsb is_disconnect_parked (objects submitted w2)) eqn:Ep.
  { apply runs_ret. split_and!; [done| |simpl; lia|simpl; lia].
    apply out_parked; [done|exact Ep|apply (k_crit _ _ _ _ K02)]. }
  eapply runs_step; [reflexivity|]. fold (objects submitted w2).
  assert (Hn2 : (n <= len w2)%nat) by apply K02.
  assert (Hv2 : valid submitted w2) by (eapply valid_kept; [exact K02|done]).
  eapply (runs_bind (old n) n _ _ _ _ (fun l w3 => valid l w3
    /\ (length l <= length submitted + retries * length (legs intent))%nat)).
  { destruct (basket_complete intent (objects submitted w2)); [apply sp_ret; split; [done|lia]|].
    apply sp_bind. eapply sp_mono; [apply (sp_retry_incomplete X); done|done|].
    intros more wx Kx [[Hf Hvm] Hl] _. apply sp_bind, sp_persist_children; [done| |done|].
    - etrans; [exact Hn2|apply Kx].
    - intros wy Ly Ky. apply sp_ret. split.
      + apply valid_app; [|eapply valid_kept; [exact Ky|done]].
        eapply valid_kept; [exact Ky|]. eapply valid_kept; [exact Kx|done].
      + rewrite length_app. unfold retries. lia. }
  intros submitted' w3 K3 [Hv3 Hl3].
  assert (Hc3 : w_critical w3 = w_critical w)
    by (rewrite (k_crit _ _ _ _ K3); apply (k_crit _ _ _ _ K02)).
  eapply runs_step; [reflexivity|]. fold (objects submitted' w3).
  assert (Hends : forall r w', ends w3 intent submitted' r w' ->
            ends_from (length submitted) w intent r w').
  { intros r w' H. apply (ends_shift w) in H as (Hi & Ho & Hok & Hc); [|done].
    split_and!; try done. by rewrite Ho. }
  destruct (basket_complete intent (objects submitted' w3)) eqn:Ec;
    (eapply runs_mono; [|exact Hends]); [by apply finish_ends|by apply unwind_ends].
Qed.

Lemma attached_float intent intent' catalog map_on :
  attach_resolved intent catalog map_on = Ok intent' -> float_legs intent'.
Proof.
  unfold attach_resolved. intros H. apply rbind_ok in H as ([l k] & Hl & H).
  case_match eqn:Ek; [done|]. injection H as <-. bool_to_prop.
  apply attach_legs_attached in Hl; [|lia]. unfold float_legs. simpl.
  induction Hl as [|leg leg' l0 l1 [_ _ _ (r & _ & _ & _ & q & Hq & _)] _ IH]; [constructor|].
  constructor; [by eexists|done].
Qed.

Lemma execute_ends w intent rms ty pk intent' :
  attach_resolved intent EmptyInstrumentCatalog
    (apply_stk_to_cfd_for_strategy (execute_stk_as_cfd cfg) (strategy_id intent)) = Ok intent' ->
  res_outcome rms = PASS \/ X (ValueError "RMS must PASS before submitting a basket leg.") ->
  retries_may X intent' ->
  runs X w (execute cfg intent rms ty pk) (ends_from (length (legs intent')) w intent').
Proof.
  intros Ha Hpass Hrms. pose proof (attached_float _ _ _ _ Ha) as Hfl. unfold execute. rewrite Ha.
  eapply runs_step; [reflexivity|]. set (b0 := new_basket _ _). set (n := len w).
  eapply (runs_bind all n _ _ _ _ (fun b' _ => same_but_id b0 b')).
  { by apply sp_persist_basket; auto. }
  intros b w1 K1 Hb.
  eapply (runs_bind all n _ _ _ _ (fun _ _ => True)); [by apply sp_event|]. intros [] w2 K2 _.
  eapply (runs_bind all n _ _ _ _ (fun _ _ => True)); [by apply sp_event|]. intros [] w3 K3 _.
  pose proof (kept_trans _ _ _ _ _ K1 (kept_trans _ _ _ _ _ K2 K3)) as K03.
  eapply (runs_bind all n); [apply sp_submit_loop; [apply K03|done]|].
  intros [submitted abort] w4 K4 [Hv Hl]. simpl in Hv, Hl.
  eapply runs_mono; [apply settle_ends; [done| | |by left|done]|].
  - by destruct Hb as [->|[id ->]].
  - by destruct Hb as [->|[id ->]].
  - intros r w' (Hi & Ho & Hlo & Hlc). split_and!; [done| |lia|done].
    eapply outcome_shift; [|exact Ho].
    rewrite (k_crit _ _ _ _ K4). apply (k_crit _ _ _ _ K03).
Qed.
End Parts.
End Execution.

(** ** The theorems *)
Section Theorems.
Context {E : Type} `{!Environment E, !LawfulEnvironment E}.
Variable cfg : Config.
Variables (intent : OrderIntent) (rms : RMSResult) (ty : string) (pk : option Z).
Local Abbreviation attach :=
  (attach_resolved intent EmptyInstrumentCatalog
    (apply_stk_to_cfd_for_strategy (execute_stk_as_cfd cfg) (strategy_id intent))).

Lemma executed_attached (w w' : World E) r :
  execute cfg intent rms ty pk w = (w', Ok r) ->
  exists intent', attach = Ok intent' /\ ends_from (cfg := cfg) (length (legs intent')) w intent' r w'.
Proof.
  intros H. destruct attach as [intent'|e] eqn:Ea.
  - exists intent'. split; [done|].
    pose proof (execute_ends (X := fun _ => True) db_may_all w intent rms ty pk intent' Ea
      (or_intror I) (fun _ _ _ _ _ _ _ _ _ _ _ _ => I)) as Hr.
    unfold runs in Hr. by rewrite H in Hr.
  - exfalso. unfold execute in H. rewrite Ea in H. by destruct e.
Qed.

(** C3: the state a basket is left in tells what happened at the broker,
    whatever the broker did between the program's steps; every clause reads the
    orders as they are when [execute] returns.  OPEN or CLOSED: no more than
    the fills the orders have now complete every leg.  COMPENSATED: every
    compensating order is on the opposite side of a leg of the intent and is
    itself filled in full; and when the broker reports no fill of an order the
    coordinator took to be at rest ([no_late_fills]), either no order has more
    than a negligible fill, or every leg is flat: its fills are negligible or a
    filled compensating order has exactly their quantity.  (With a late fill
    that is not so: [late_fill_unreversed].)  CRITICAL: the account's strategy
    is latched against new entries and a recovery is requested.  EXECUTING: an
    order is parked by a lost connection.  No other state is returned, and only
    CRITICAL moves the latch. *)
Theorem basket_outcome (w w' : World E) (r : BasketExecutionResult) :
  execute cfg intent rms ty pk w = (w', Ok r) ->
  attach = Ok (bx_intent r) /\ outcome_ok (cfg := cfg) w w' r.
Proof. intros H. by apply executed_attached in H as (i & -> & -> & ? & _). Qed.

(** [execute] blocks new entries of its own account and strategy exactly
    when it ends CRITICAL, and leaves every other latch as it was. *)
Theorem latch_exact (w w' : World E) (r : BasketExecutionResult) (a : option Z) (s : string) :
  execute cfg intent rms ty pk w = (w', Ok r) ->
  is_open_blocked a s w' =
    is_open_blocked a s w
    || (bool_decide (b_state (bx_basket r) = CRITICAL) && bool_decide (is_Some a)
        && bool_decide (a = account_id intent) && (s =? strategy_id intent)%string).
Proof.
  intros H. apply executed_attached in H as (i & Ha & <- & Ho & _).
  unfold attach_resolved in Ha. apply rbind_ok in Ha as ([l k] & _ & Ha).
  case_match; [done|]. injection Ha as Ha.
  assert (Hid : account_id (bx_intent r) = account_id intent
    /\ strategy_id (bx_intent r) = strategy_id intent) by (by rewrite <- Ha).
  destruct Hid as [Hacc Hstr]. unfold is_open_blocked.
  destruct a as [a|];
    [|rewrite (bool_decide_eq_false_2 (is_Some None)) by (by intros []); by rewrite andb_false_r].
  rewrite (bool_decide_eq_true_2 (is_Some _)) by eauto.
  destruct Ho as [Hs _ Hc|Hs _ Hc|Hs _ _ Hc|Hs Hc _];
    try (rewrite Hc, (bool_decide_eq_false_2 (b_state (bx_basket r) = CRITICAL));
         [by rewrite orb_false_r|rewrite Hs; by destruct (action (bx_intent r))]).
  rewrite Hc, (bool_decide_eq_true_2 (b_state (bx_basket r) = CRITICAL)), Hacc, Hstr by done. simpl.
  unfold latched. destruct (account_id intent) as [a'|].
  - destruct (decide ((a, s) ∈ w_critical w)) as [Hin|Hin].
    + rewrite !bool_decide_eq_true_2 by set_solver. done.
    + rewrite (bool_decide_eq_false_2 _ Hin). simpl.
      destruct (String.eqb_spec s (strategy_id intent)) as [->|Hne].
      * rewrite andb_true_r. apply bool_decide_ext. set_solver.
      * rewrite andb_false_r. apply bool_decide_eq_false_2. set_solver.
  - rewrite (bool_decide_eq_false_2 (Some a = None)) by done. simpl. by rewrite orb_false_r.
Qed.

(** A basket places at most one order per leg and one more per leg and
    retry, and at most one compensating order per leg. *)
Theorem basket_order_bound (w w' : World E) (r : BasketExecutionResult) :
  execute cfg intent rms ty pk w = (w', Ok r) ->
  (length (bx_orders r) <= (1 + retries (cfg := cfg)) * length (legs intent))%nat
  /\ (length (bx_compensation_orders r) <= length (legs intent))%nat.
Proof.
  intros H. apply executed_attached in H as (i & Ha & <- & _ & Hl & Hc).
  apply attach_resolved_aux in Ha. lia.
Qed.

(** C5: while the database accepts writes and the coordinator's risk engine
    runs the default checks, the execution of an intent that passed them and
    whose instruments resolve always returns a basket of that intent -- no
    broker behaviour, time-out or failed cancellation makes it raise.  An OPEN
    with an expiring leg needs a contract month with a dash in it on that leg
    ([dated]): without one the rollover check raises, and a retry of the leg
    lets the exception escape. *)
Theorem execute_returns (w : World E) (intent' : OrderIntent) :
  (forall e : E, (env_write_ok e).2 = true) ->
  attach = Ok intent' -> res_outcome rms = PASS ->
  (forall checks, rms_engine cfg = Some checks -> exists now, checks = get_default_checks now) ->
  action intent' = CLOSE \/ Forall dated (legs intent') ->
  exists w' r, execute cfg intent rms ty pk w = (w', Ok r) /\ bx_intent r = intent'.
Proof.
  intros Hdb Ha Hp Hc Hd.
  assert (Hrms : retries_may (cfg := cfg) (fun _ => False) intent').
  { intros checks rc leg q index attempt now e He _ Hl Hv. destruct (Hc checks He) as [t ->].
    assert (Hok : is_ok (evaluate (get_default_checks t) (retry_intent intent' leg q index attempt now) rc)
              = true).
    { apply default_checks_total, dated_total. destruct Hd as [Hd|Hd]; [by left|right].
      constructor; [|constructor]. rewrite Forall_forall in Hd. exact (Hd leg Hl). }
    by rewrite Hv in Hok. }
  pose proof (execute_ends (X := fun _ => False) (or_introl Hdb) w intent rms ty pk intent' Ha
    (or_introl Hp) Hrms) as Hr.
  unfold runs in Hr. destruct (execute _ _ _ _ _ w) as [w' [r|]]; [|done].
  exists w', r. split; [done|]. apply Hr.
Qed.
End Theorems.

(** ** Instances, and two runs that leave a leg naked *)
Definition ex_basket_cfg (retry : option ExecutionRetryPolicy) : Config := {|
  execute_stk_as_cfd := false; session_factory := true; fill_timeout := 10; cancel_timeout := 10;
  retry_policy := retry; rms_engine := Some (get_default_checks 0); rms_context := Some ex_context;
  paper_retries_allowed := true; recovery_service := true |}.

Definition start (replies : list Reply) (late : list (option (nat * Q))) (writes : list bool)
    : World Sim := {|
  w_env := {| sim_replies := replies; sim_late := late; sim_writes := writes;
              sim_killed := false; sim_clock := 0 |};
  w_heap := []; w_orders := ∅; w_submitted := ∅; w_retry_ids := ∅; w_critical := ∅;
  w_scheduled := []; w_log := [] |}.

Definition ex_pair_intent : OrderIntent := ex_intent OPEN ex_pair.
Definition run_pair (cfg : Config) (w : World Sim) : World Sim * result BasketExecutionResult :=
  execute cfg ex_pair_intent (pass_result ex_pair_intent) "MARKET" None w.

(** The state of the basket, and of its orders and their compensations: side,
    status and fill. *)
Definition order_view (o : OMSOrder) : option OrderSide * OMSOrderStatus * Q :=
  (o_side o, o_status o, Qred (filled_quantity o)).
Definition views (out : World Sim * result BasketExecutionResult)
    : option (BasketState * list (option OrderSide * OMSOrderStatus * Q)) :=
  match out with
  | (w, Ok r) => Some (b_state (bx_basket r), map order_view (w_heap w))
  | _ => None
  end.

(** The coordinator reverses the fills it sees when it submits the
    compensation, and then looks at the compensating orders only.  A fill of a
    cancelled order that the broker reports later is neither reversed nor
    noticed: here 4 shares are reversed, 6 were bought, and the basket is
    COMPENSATED without a latch. *)
Theorem late_fill_unreversed :
  exists late w' r o c,
    run_pair (ex_basket_cfg None) (start [Partial 4; Refuse; Fill] late []) = (w', Ok r)
    /\ b_state (bx_basket r) = COMPENSATED /\ w_critical w' = ∅
    /\ objects (bx_orders r) w' !! 0%nat = Some o /\ filled_quantity o == 6
    /\ objects (bx_compensation_orders r) w' = [c] /\ o_quantity c = NDec 4
    /\ o_status c = FILLED.
Proof.
  exists (repeat None 18 ++ [Some (0%nat, 6)]).
  eexists _, _, _, _. split; [vm_compute; reflexivity|].
  split; [reflexivity|]. split; [reflexivity|]. split; [reflexivity|].
  split; [reflexivity|]. split; [reflexivity|]. split; reflexivity.
Qed.

(** A database error while the orders are being persisted escapes
    [execute]: one leg is filled, the other is not, no compensation is sent
    and new entries are not blocked. *)
Theorem write_failure_leaves_fill :
  exists writes w' e,
    run_pair (ex_basket_cfg None) (start [Fill; Refuse] [] writes) = (w', Raise e)
    /\ map order_view (w_heap w') = [(Some BUY, FILLED, 10); (Some SELL, REJECTED, 0)]
    /\ is_open_blocked (account_id ex_pair_intent) (strategy_id ex_pair_intent) w' = false
    /\ w_scheduled w' = [].
Proof.
  exists (repeat true 9 ++ [false]). eexists _, _.
  split; [vm_compute; reflexivity|]. split; [reflexivity|]. split; reflexivity.
Qed.

Local Abbreviation ex_run replies :=
  (execute (ex_basket_cfg None) ex_pair_intent (pass_result ex_pair_intent) "MARKET" None
    (start replies [] [])).
Local Abbreviation ex_compensated := (ex_run [Fill; Refuse; Fill]).
Local Abbreviation ex_critical := (ex_run [Fill; Refuse; Refuse]).
Definition state_of (out : World Sim * result BasketExecutionResult) : option BasketState :=
  match out with (_, Ok r) => Some (b_state (bx_basket r)) | _ => None end.

Lemma latch_exact_witness :
  exists w' r, ex_critical = (w', Ok r) /\ state_of ex_critical = Some CRITICAL
    /\ is_open_blocked (Some 7%Z) "model_blue" w' = true
    /\ is_open_blocked (Some 8%Z) "model_blue" w' = false.
Proof.
  assert (Es : state_of ex_critical = Some CRITICAL) by (vm_compute; reflexivity).
  destruct ex_critical as [w' [r|e]] eqn:E; [|discriminate Es].
  pose proof (fun a => latch_exact (ex_basket_cfg None) ex_pair_intent (pass_result ex_pair_intent)
    "MARKET" None (start [Fill; Refuse; Refuse] [] []) w' r a "model_blue" E) as Hl.
  pose proof (Hl (Some 7%Z)) as H7. pose proof (Hl (Some 8%Z)) as H8.
  clear E. exists w', r. split; [reflexivity|]. split; [exact Es|]. injection Es as Es.
  rewrite Es in H7, H8. split; [rewrite H7|rewrite H8]; vm_compute; reflexivity.
Defined.

Lemma basket_order_bound_witness :
  exists w' r, ex_compensated = (w', Ok r) /\ (length (bx_orders r) <= 2)%nat
    /\ (length (bx_compensation_orders r) <= 2)%nat.
Proof.
  assert (Es : state_of ex_compensated = Some COMPENSATED) by (vm_compute; reflexivity).
  destruct ex_compensated as [w' [r|e]] eqn:E; [|discriminate Es].
  exists w', r. split; [reflexivity|].
  refine (basket_order_bound (ex_basket_cfg None) ex_pair_intent (pass_result ex_pair_intent)
    "MARKET" None (start [Fill; Refuse; Fill] [] []) w' r _). exact E.
Defined.

(** A broker without late fills, and a database that never fails. *)
Definition Steady : Type := Sim.
Definition cancel_working_order (o : OMSOrder) : OMSOrder :=
  if is_wait_terminal o then o else cancelled o.
#[export] Instance SteadyEnvironment : Environment Steady := {|
  env_prepare := env_prepare (E := Sim); env_place := env_place (E := Sim);
  env_cancel := fun i s => ((s.1, alter cancel_working_order i s.2), Ok tt);
  env_wait := fun ids _ s => (s, map (fun _ => Ok tt) ids);
  env_events := fun s => s; env_monotonic := env_monotonic (E := Sim);
  env_now := env_now (E := Sim); env_kill_switch := env_kill_switch (E := Sim);
  env_write_ok := fun b => (b, true); env_row_id := env_row_id (E := Sim) |}.
#[export] Instance SteadyLawful : LawfulEnvironment Steady.
Proof.
  constructor; [exact (@prepare_law Sim SimEnvironment SimLawful)|exact (@place_law Sim SimEnvironment SimLawful)|..].
  - intros i s. simpl. apply alter_evolves.
    + intros o. unfold cancel_working_order, cancelled.
      destruct (is_wait_terminal o); [|destruct (o_status o); try apply broker_update_same];
        (split; [..|apply Qle_refl]; done).
    + right. intros o Ho. unfold cancel_working_order, cancelled. rewrite Ho. by case_match.
  - intros ids t s. apply heap_evolves_refl.
  - intros s. apply heap_evolves_refl.
  - intros ids t s e He. simpl in He. apply list_elem_of_fmap in He as (? & ? & _). done.
Qed.

Lemma steady_no_late_fills : no_late_fills Steady.
Proof.
  constructor.
  - intros i s. apply heap_rests_refl.
  - intros i [b h] j o Hj Ho. simpl. unfold sim_place. destruct (sim_replies b); simpl;
      [exists o; split; [done|apply rests_refl]|].
    rewrite list_lookup_alter_ne by congruence. exists o. split; [done|apply rests_refl].
  - intros i [b h] j o _ Ho. simpl. destruct (decide (i = j)) as [->|Hn];
      [|rewrite list_lookup_alter_ne by done; exists o; split; [done|apply rests_refl]].
    rewrite list_lookup_alter_eq. simpl in Ho. rewrite Ho. eexists. split; [done|].
    intros T. unfold cancel_working_order. by rewrite T.
  - intros ids t s. apply heap_rests_refl.
  - intros s. apply heap_rests_refl.
Qed.

Lemma basket_outcome_witness :
  no_late_fills Steady /\
  exists (w' : World Steady) r,
    execute (ex_basket_cfg None) ex_pair_intent (pass_result ex_pair_intent) "MARKET" None
      (start [Fill; Refuse; Fill] [] [] : World Steady) = (w', Ok r)
    /\ b_state (bx_basket r) = COMPENSATED
    /\ outcome_ok (cfg := ex_basket_cfg None) (start [Fill; Refuse; Fill] [] []) w' r.
Proof.
  split; [exact steady_no_late_fills|]. eexists _, _. split; [vm_compute; reflexivity|].
  split; [reflexivity|].
  refine (proj2 (basket_outcome (E := Steady) (ex_basket_cfg None) ex_pair_intent
    (pass_result ex_pair_intent) "MARKET" None (start [Fill; Refuse; Fill] [] []) _ _ _)).
  vm_compute. reflexivity.
Defined.

(** A short retry policy, one attempt of which is made: the first leg fills,
    the second is filled in part and its retry in full. *)
Definition ex_retry : ExecutionRetryPolicy := {|
  rp_enabled := true; square_off_after_sec := 30; max_retries := 1; retry_interval_sec := 5;
  retry_window_sec := 30 |}.

Lemma execute_returns_witness :
  exists (w' : World Steady) r,
    execute (ex_basket_cfg (Some ex_retry)) ex_pair_intent (pass_result ex_pair_intent) "MARKET" None
      (start [Fill; Partial 4; Fill] [] [] : World Steady) = (w', Ok r).
Proof.
  assert (Eok : is_ok (attach_resolved ex_pair_intent EmptyInstrumentCatalog false) = true)
    by (vm_compute; reflexivity).
  destruct (attach_resolved ex_pair_intent EmptyInstrumentCatalog false) as [i|e] eqn:Ea;
    [|discriminate Eok].
  destruct (execute_returns (E := Steady) (ex_basket_cfg (Some ex_retry)) ex_pair_intent
    (pass_result ex_pair_intent) "MARKET" None (start [Fill; Partial 4; Fill] [] []) i)
    as (w' & r & H & _).
  - reflexivity.
  - exact Ea.
  - reflexivity.
  - intros checks [= <-]. exists 0%Z. reflexivity.
  - right. vm_compute in Ea. injection Ea as <-. repeat (constructor; [discriminate|]). constructor.
  - exists w', r. exact H.
Defined.

(** ** Restart *)
Section Restart.
Context {E : Type} `{!Environment E, !LawfulEnvironment E}.
Variable cfg : Config.

(** A basket of which something, but not everything, was filled. *)
Definition half_filled (row : BasketRow * list OrderRow) : bool :=
  existsb (fun o => negb (row_is_compensation o)
                    && (FILL_EPS <? fl (default 0 (row_fill_qty o)))) row.2
  && negb (basket_complete_from_db_orders (br_intended_leg_count row.1) row.2).

Definition row_key (row : BasketRow * list OrderRow) : Z * string :=
  (br_account_id row.1, br_strategy_id row.1).

Lemma recover_basket_latch X (w : World E) row :
  db_may (E := E) X ->
  runs X w (recover_basket cfg row) (fun _ w' =>
    w_critical w' = (if half_filled row then {[row_key row]} else ∅) ∪ w_critical w).
Proof.
  intros Hdb. destruct row as [row orders]. unfold recover_basket, half_filled. simpl.
  destruct (existsb _ orders); simpl; [|apply runs_ret; set_solver].
  destruct (basket_complete_from_db_orders _ _); simpl; [apply runs_ret; set_solver|].
  match goal with |- context [persist_basket cfg ?b] => set (bc := b) end.
  eapply (runs_bind (fun _ => True) 0 _ _ _ _ (fun b' _ => same_but_id bc b')).
  { by apply sp_persist_basket; auto. }
  intros b w1 K1 _. eapply runs_step; [reflexivity|].
  eapply (runs_bind (fun _ => True) 0 _ _ _ _ (fun _ _ => True)); [by apply sp_event|].
  intros [] w2 K2 _. pose proof (k_crit _ _ _ _ K1) as C1. pose proof (k_crit _ _ _ _ K2) as C2.
  simpl in C2.
  destruct (recovery_service cfg); unfold runs; simpl; by rewrite C2, C1.
Qed.

(** At a restart with a connected broker, the strategies latched against
    new entries are those latched before and those of the half-filled baskets
    the database lists -- and while the database accepts writes the pass over
    all of them completes. *)
Theorem recovery_latches_half_filled (w : World E) (rows : list (BasketRow * list OrderRow)) :
  session_factory cfg = true -> (forall e : E, (env_write_ok e).2 = true) ->
  exists w', recover_incomplete_baskets cfg true rows w = (w', Ok tt)
    /\ forall key, key ∈ w_critical w' <->
         key ∈ w_critical w \/ exists row, row ∈ rows /\ half_filled row = true /\ row_key row = key.
Proof.
  intros Hs Hdb. unfold recover_incomplete_baskets. rewrite Hs. simpl.
  revert w. induction rows as [|row rows IH]; intros w; simpl.
  - exists w. split; [done|]. intros key. split; [by left|]. intros [|(? & H & _)]; [done|].
    by apply not_elem_of_nil in H.
  - pose proof (recover_basket_latch (fun _ => False) w row (or_introl Hdb)) as Hr.
    unfold runs in Hr. unfold bind.
    destruct (recover_basket cfg row w) as [w1 [[]|e]]; [|done].
    destruct (IH w1) as (w' & H & Hc). exists w'. split; [exact H|]. intros key.
    rewrite Hc, Hr, elem_of_union. clear -row. split.
    + intros [[Hk|Hk]|(row' & Hin & Hk)]; [|by left|].
      * destruct (half_filled row) eqn:Ef; [|by apply elem_of_empty in Hk].
        apply elem_of_singleton in Hk as ->. right. exists row. split; [by left|done].
      * right. exists row'. split; [by right|done].
    + intros [Hk|(row' & Hin & Hh & Hk)]; [left; by right|].
      apply elem_of_cons in Hin as [->|Hin].
      * rewrite Hh, Hk. left. left. by apply elem_of_singleton.
      * right. by exists row'.
Qed.
End Restart.

Definition ex_row_of (fill : Q) : BasketRow * list OrderRow :=
  ({| br_id := 1; br_account_id := 7; br_trade_id := "T1"; br_strategy_id := "model_blue";
      br_action := OPEN; br_intended_leg_count := 2 |},
   [{| row_leg := Some "L0"%string; row_quantity := Some 10; row_fill_qty := Some 10;
       row_is_compensation := false |};
    {| row_leg := Some "L1"%string; row_quantity := Some 12; row_fill_qty := Some fill;
       row_is_compensation := false |}]).

Lemma recovery_latches_half_filled_witness :
  exists w' : World Steady,
    recover_incomplete_baskets (ex_basket_cfg None) true [ex_row_of 3; ex_row_of 12]
      (start [] [] [] : World Steady) = (w', Ok tt) /\ (7%Z, "model_blue"%string) ∈ w_critical w'.
Proof.
  destruct (recovery_latches_half_filled (E := Steady) (ex_basket_cfg None) (start [] [] [])
    [ex_row_of 3; ex_row_of 12]) as (w' & H & Hc); [reflexivity|reflexivity|].
  exists w'. split; [exact H|]. apply Hc. right. exists (ex_row_of 3).
  split; [by left|]. split; vm_compute; reflexivity.
Defined.
