(* ===== verification/Adapter.v ===== *)
(** * The execution adapter: [oms/ibkr_adapter.py]

    The adapter between the order management service and the broker's API,
    with what it uses of [broker/ibkr/tws_client.py] and the parser of the
    broker's numbers of [services/account_margin.py].  Handlers of callbacks
    run under the adapter's lock: each is one operation on the adapter and the
    order objects.  What the outside does -- callbacks, the answers of the
    rate limiter and of the socket, clocks, the database -- is an arbitrary
    machine, [Outside].  Time stamps of orders and the call that tells the
    rate limiter of an Error 100 are left out. *)

From S2P Require Import Prelude Rounding PyText PyTime Identifiers RmsModels Instruments Oms.

#[local] Open Scope Q_scope.
#[local] Open Scope py_scope.
#[local] Set Warnings "-clear-no-such-hyp".

(** ** Numbers of the broker *)

(** [parse_ibkr_number]; the decimal is finite because the float is. *)
Definition DOUBLE_MAX : Q := inject_Z (17976931348623157 * 10 ^ 292).
Definition drop_commas (s : string) : string :=
  of_chars (List.filter (fun c => negb (Ascii.eqb c ","%char)) (chars s)).

Definition parse_ibkr_number (value : option string) : option Q :=
  match value with
  | None => None
  | Some value =>
      let raw := drop_commas (str_strip value) in
      if str_empty raw || bool_decide (str_upper raw ∈ ["N/A"; "NA"; "NONE"; "NULL"]%string)
      then None
      else match parse_float raw with
           | Ok (FFin _) =>
               match parse_decimal raw with
               | Some (DFin q) => if DOUBLE_MAX <=? Qabs q then None else Some q
               | _ => None
               end
           | _ => None
           end
  end.

Definition MAX_SANE_PRICE : Q := 1000000000000.
Definition usable_price (raw : pyfloat) (fallback : option Q) : option Q :=
  match raw with
  | FFin q => if (0 <? q) && (q <? MAX_SANE_PRICE) then Some (repr_dec q) else fallback
  | _ => fallback
  end.

(** ** State *)
Record Commission : Type := {
  cm_commission : Q;
  cm_currency : string;
  cm_realized_pnl : option Q
}.

Record WhatIfResult : Type := {
  wi_order_id : Z;
  wi_unknown : bool;
  init_margin_change : option Q;
  maint_margin_change : option Q;
  init_margin_after : option Q;
  wi_commission : option Q;
  warning_text : option string;
  wi_rate : option Q
}.

(** The client's fields the adapter reads. *)
Record Client : Type := {
  connected : bool;
  next_order_id : option Z;
  managed_accounts : gset string;
  request_types : gmap Z string
}.

(** Orders are named by their place in the heap.  [fill_futures] holds the
    orders with a waiter, [whatif_pending] the pending margin probes and
    [whatif_results] the answers their futures were given; [emitted] is what
    the listeners were told. *)
Record Adapter : Type := {
  client : Client;
  orders_by_tws_id : gmap Z nat;
  orders_by_internal_id : list (string * nat);      (* a dict, in insertion order *)
  tws_id_to_internal_id : gmap Z string;
  fill_futures : gset string;
  exec_id_to_order : gmap string nat;
  broker_acked : gset string;
  fill_event_emitted : gset string;
  seen_exec_ids : gset string;
  commissioned_exec_ids : gset string;
  pending_commissions : gmap string Commission;
  partial_qty_emitted : gmap string Q;
  whatif_pending : gset Z;
  whatif_results : gmap Z WhatIfResult;
  emitted : list (nat * string)
}.

Definition with_client (c : Client) (a : Adapter) : Adapter := {|
  client := c; orders_by_tws_id := orders_by_tws_id a;
  orders_by_internal_id := orders_by_internal_id a;
  tws_id_to_internal_id := tws_id_to_internal_id a; fill_futures := fill_futures a;
  exec_id_to_order := exec_id_to_order a; broker_acked := broker_acked a;
  fill_event_emitted := fill_event_emitted a; seen_exec_ids := seen_exec_ids a;
  commissioned_exec_ids := commissioned_exec_ids a;
  pending_commissions := pending_commissions a; partial_qty_emitted := partial_qty_emitted a;
  whatif_pending := whatif_pending a; whatif_results := whatif_results a; emitted := emitted a |}.
Definition with_orders (tws : gmap Z nat) (internal : list (string * nat)) (names : gmap Z string)
    (a : Adapter) : Adapter := {|
  client := client a; orders_by_tws_id := tws; orders_by_internal_id := internal;
  tws_id_to_internal_id := names; fill_futures := fill_futures a;
  exec_id_to_order := exec_id_to_order a; broker_acked := broker_acked a;
  fill_event_emitted := fill_event_emitted a; seen_exec_ids := seen_exec_ids a;
  commissioned_exec_ids := commissioned_exec_ids a;
  pending_commissions := pending_commissions a; partial_qty_emitted := partial_qty_emitted a;
  whatif_pending := whatif_pending a; whatif_results := whatif_results a; emitted := emitted a |}.
Definition with_futures (f : gset string) (a : Adapter) : Adapter := {|
  client := client a; orders_by_tws_id := orders_by_tws_id a;
  orders_by_internal_id := orders_by_internal_id a;
  tws_id_to_internal_id := tws_id_to_internal_id a; fill_futures := f;
  exec_id_to_order := exec_id_to_order a; broker_acked := broker_acked a;
  fill_event_emitted := fill_event_emitted a; seen_exec_ids := seen_exec_ids a;
  commissioned_exec_ids := commissioned_exec_ids a;
  pending_commissions := pending_commissions a; partial_qty_emitted := partial_qty_emitted a;
  whatif_pending := whatif_pending a; whatif_results := whatif_results a; emitted := emitted a |}.
Definition with_execs (orders : gmap string nat) (seen commissioned : gset string)
    (pending : gmap string Commission) (a : Adapter) : Adapter := {|
  client := client a; orders_by_tws_id := orders_by_tws_id a;
  orders_by_internal_id := orders_by_internal_id a;
  tws_id_to_internal_id := tws_id_to_internal_id a; fill_futures := fill_futures a;
  exec_id_to_order := orders; broker_acked := broker_acked a;
  fill_event_emitted := fill_event_emitted a; seen_exec_ids := seen;
  commissioned_exec_ids := commissioned; pending_commissions := pending;
  partial_qty_emitted := partial_qty_emitted a; whatif_pending := whatif_pending a;
  whatif_results := whatif_results a; emitted := emitted a |}.
Definition with_events (acked filled : gset string) (partial : gmap string Q)
    (events : list (nat * string)) (a : Adapter) : Adapter := {|
  client := client a; orders_by_tws_id := orders_by_tws_id a;
  orders_by_internal_id := orders_by_internal_id a;
  tws_id_to_internal_id := tws_id_to_internal_id a; fill_futures := fill_futures a;
  exec_id_to_order := exec_id_to_order a; broker_acked := acked; fill_event_emitted := filled;
  seen_exec_ids := seen_exec_ids a; commissioned_exec_ids := commissioned_exec_ids a;
  pending_commissions := pending_commissions a; partial_qty_emitted := partial;
  whatif_pending := whatif_pending a; whatif_results := whatif_results a; emitted := events |}.
Definition with_whatif (pending : gset Z) (results : gmap Z WhatIfResult) (a : Adapter)
    : Adapter := {|
  client := client a; orders_by_tws_id := orders_by_tws_id a;
  orders_by_internal_id := orders_by_internal_id a;
  tws_id_to_internal_id := tws_id_to_internal_id a; fill_futures := fill_futures a;
  exec_id_to_order := exec_id_to_order a; broker_acked := broker_acked a;
  fill_event_emitted := fill_event_emitted a; seen_exec_ids := seen_exec_ids a;
  commissioned_exec_ids := commissioned_exec_ids a;
  pending_commissions := pending_commissions a; partial_qty_emitted := partial_qty_emitted a;
  whatif_pending := pending; whatif_results := results; emitted := emitted a |}.

(** The adapter and the order objects. *)
Abbreviation Broker := (Adapter * list OMSOrder)%type.
Abbreviation B A := (St Broker A).

Definition adapter {A} (f : Adapter -> A) : B A := get (fun s => f s.1).
Definition change (f : Adapter -> Adapter) : B unit := modify (fun s => (f s.1, s.2)).
Definition assign (i : nat) (f : OMSOrder -> OMSOrder) : B unit :=
  modify (fun s => (s.1, alter f i s.2)).
(** The object a reference names: it always exists. *)
Definition deref (i : nat) : B OMSOrder := fun s =>
  match s.2 !! i with Some o => (s, Ok o) | None => (s, Raise (OtherError "no object")) end.

(** Fields of an order, assigned by the adapter. *)
Definition set_ibkr_id (id : Z) (o : OMSOrder) : OMSOrder :=
  with_broker o (Some id) (o_status o) (filled_quantity o) (remaining_quantity o)
    (average_fill_price o) (last_fill_price o) (error_message o) (o_commission o) (perm_id o)
    (o_executions o) (last_exec_id o) (pacer_delayed o).
Definition set_perm (id : Z) (o : OMSOrder) : OMSOrder :=
  with_broker o (ibkr_order_id o) (o_status o) (filled_quantity o) (remaining_quantity o)
    (average_fill_price o) (last_fill_price o) (error_message o) (o_commission o) (Some id)
    (o_executions o) (last_exec_id o) (pacer_delayed o).
Definition set_delayed (d : bool) (o : OMSOrder) : OMSOrder :=
  with_broker o (ibkr_order_id o) (o_status o) (filled_quantity o) (remaining_quantity o)
    (average_fill_price o) (last_fill_price o) (error_message o) (o_commission o) (perm_id o)
    (o_executions o) (last_exec_id o) d.
Definition set_prices (average last : option Q) (o : OMSOrder) : OMSOrder :=
  with_broker o (ibkr_order_id o) (o_status o) (filled_quantity o) (remaining_quantity o)
    average last (error_message o) (o_commission o) (perm_id o)
    (o_executions o) (last_exec_id o) (pacer_delayed o).
Definition set_fill (filled : Q) (remaining : pynum) (o : OMSOrder) : OMSOrder :=
  with_broker o (ibkr_order_id o) (o_status o) filled remaining
    (average_fill_price o) (last_fill_price o) (error_message o) (o_commission o) (perm_id o)
    (o_executions o) (last_exec_id o) (pacer_delayed o).
Definition set_executions (l : list BrokerExecution) (commission : option Q) (exec : string)
    (o : OMSOrder) : OMSOrder :=
  with_broker o (ibkr_order_id o) (o_status o) (filled_quantity o) (remaining_quantity o)
    (average_fill_price o) (last_fill_price o) (error_message o) commission (perm_id o)
    l (Some exec) (pacer_delayed o).
Definition move (s : OMSOrderStatus) (o : OMSOrder) : OMSOrder :=
  set_status s (error_message o) o.

Definition terminal (s : OMSOrderStatus) : bool :=
  match s with FILLED | CANCELLED | REJECTED | ERROR => true | _ => false end.

(** ** Finding the order of a callback *)
Definition normalize_broker_side (raw : option string) : option string :=
  match none_if_empty raw with
  | None => None
  | Some raw =>
      let upper := str_upper (str_strip raw) in
      if bool_decide (upper ∈ ["BOT"; "BUY"]%string) then Some "BUY"%string
      else if bool_decide (upper ∈ ["SLD"; "SELL"]%string) then Some "SELL"%string
      else Some upper
  end.

Definition order_con_id (o : OMSOrder) : option Z :=
  let of_leg :=
    let idx := default 0%Z (o_leg_index o) in
    if (idx <? 0)%Z then None
    else match legs (o_intent o) !! Z.to_nat idx with
         | Some leg => leg_con_id leg
         | None => None
         end in
  match o_resolved o with
  | Some r => match ri_con_id r with Some c => Some c | None => of_leg end
  | None => of_leg
  end.

(** [d[k] = v] of a dict kept as the list of its items. *)
Fixpoint dict_set (k : string) (v : nat) (d : list (string * nat)) : list (string * nat) :=
  match d with
  | [] => [(k, v)]
  | (k', v') :: d => if (k' =? k)%string then (k, v) :: d else (k', v') :: dict_set k v d
  end.
Definition dict_get (k : string) (d : list (string * nat)) : option nat :=
  snd <$> List.find (fun kv => (fst kv =? k)%string) d.

Definition drop_stale {V} (old : option Z) (tws : Z) (m : gmap Z V) : gmap Z V :=
  match old with
  | Some old => if bool_decide (old = tws) then m else delete old m
  | None => m
  end.

Definition bind_tws_id (i : nat) (tws : Z) : B unit :=
  do! o := deref i in
  change (fun a =>
    with_orders (<[tws := i]> (drop_stale (ibkr_order_id o) tws (orders_by_tws_id a)))
      (orders_by_internal_id a)
      (<[tws := internal_order_id o]>
         (drop_stale (ibkr_order_id o) tws (tws_id_to_internal_id a))) a) ;;;
  assign i (set_ibkr_id tws).

Definition adopt_order (i : nat) : B unit :=
  do! o := deref i in
  change (fun a => with_orders (orders_by_tws_id a)
                     (dict_set (internal_order_id o) i (orders_by_internal_id a))
                     (tws_id_to_internal_id a) a) ;;;
  match ibkr_order_id o with
  | Some tws => bind_tws_id i tws
  | None => ret tt
  end.

(** The orders without a broker id, in the order they were registered. *)
Definition unmapped_adopted_orders : B (list nat) := fun s =>
  let name i := internal_order_id <$> s.2 !! i in
  let mapped := map (fun kv => name (snd kv)) (map_to_list (orders_by_tws_id s.1)) in
  (s, Ok (List.filter (fun i =>
            match s.2 !! i with
            | Some o => bool_decide (Some (internal_order_id o) ∉ mapped)
                        && negb (terminal (o_status o))
            | None => false
            end) (map snd (orders_by_internal_id s.1)))).

(** One pass of the loop over the candidates. *)
Definition is_candidate (con : Z) (side : string) (qty : Q) (o : OMSOrder) : result bool :=
  if negb (bool_decide (order_con_id o = Some con)) then Ok false
  else match o_side o with
  | None => Raise AttributeError
  | Some s =>
      if negb (str_upper (side_value s) =? side)%string then Ok false
      else let! d := num_minus (o_quantity o) qty in
           Ok (negb (fl (1 # 1000000) <? Qabs d))
  end.

Definition candidates_of (con : Z) (side : string) (qty : Q) : B (list nat) :=
  do! pool := unmapped_adopted_orders in
  loop (fun found i =>
          do! o := deref i in
          do! b := lift (is_candidate con side qty o) in
          ret (if (b : bool) then found ++ [i] else found)) pool [].

Definition resolve_order_for_tws_callback (tws : Z) (perm con : option Z) (side : option string)
    (qty : option Q) : B (option nat) :=
  do! existing := adapter (fun a => orders_by_tws_id a !! tws) in
  match existing with
  | Some i => ret (Some i)
  | None =>
      do! by_perm := (fun s : Broker =>
        (s, Ok match nonzero perm with
               | None => None
               | Some p =>
                   List.find (fun i => match s.2 !! i with
                                       | Some o => bool_decide (perm_id o = Some p)
                                       | None => false end)
                     (map snd (orders_by_internal_id s.1))
               end)) in
      match by_perm with
      | Some i => bind_tws_id i tws ;;; ret (Some i)
      | None =>
          match nonzero con, none_if_empty (normalize_broker_side side), qty with
          | Some con, Some side, Some qty =>
              do! candidates := candidates_of con side qty in
              match candidates with
              | [i] => bind_tws_id i tws ;;; ret (Some i)
              | _ => ret None
              end
          | _, _, _ => ret None
          end
      end
  end.

(** ** The status of an order *)
Definition map_ib_status (ib_status : string) : OMSOrderStatus :=
  let s := of_chars (List.filter (fun c => negb (Ascii.eqb c " "%char)) (chars (str_upper ib_status))) in
  if bool_decide (s ∈ ["PENDINGSUBMIT"; "PRESUBMITTED"; "APIPENDING"]%string) then PENDING
  else if bool_decide (s ∈ ["SUBMITTED"; "PENDINGCANCEL"]%string) then SUBMITTED
  else if (s =? "PARTIALLYFILLED")%string then PARTIALLY_FILLED
  else if (s =? "FILLED")%string then FILLED
  else if bool_decide (s ∈ ["CANCELLED"; "APICANCELLED"]%string) then CANCELLED
  else if bool_decide (s ∈ ["INACTIVE"; "REJECTED"]%string) then REJECTED
  else PENDING.

Definition apply_mapped_status (mapped : OMSOrderStatus) (qty_filled qty_remaining : option Q)
    (o : OMSOrder) : OMSOrder :=
  if terminal (o_status o) then o
  else
    let o := set_fill (match qty_filled with
                       | Some q => Qmaxb (filled_quantity o) q
                       | None => filled_quantity o end)
               (match qty_remaining with
                | Some q => NFloat q
                | None => remaining_quantity o end) o in
    let filled := filled_quantity o in
    let remaining := num_val (remaining_quantity o) in
    match mapped with
    | CANCELLED | REJECTED | ERROR => move mapped o
    | _ =>
        if (0 <? filled) && (0 <? remaining) then move PARTIALLY_FILLED o
        else if (num_val (o_quantity o) <=? filled) || (bool_decide (mapped = FILLED) && (0 <? filled))
        then move FILLED o
        else if bool_decide (mapped = FILLED)
        then if bool_decide (o_status o = PENDING) then move SUBMITTED o else o
        else move mapped o
    end.

(** The order of a waiter that reached a final state: its future is done. *)
Definition notify_future_if_terminal (i : nat) : B unit :=
  do! o := deref i in
  if terminal (o_status o)
  then change (fun a => with_futures (fill_futures a ∖ {[internal_order_id o]}) a)
  else ret tt.

Inductive Source : Type := SrcOrderStatus | SrcOpenOrder | SrcExecDetails.
#[global] Instance Source_eq_dec : EqDecision Source.
Proof. solve_decision. Defined.

Definition maybe_broker_ack (o : OMSOrder) : B (list string) :=
  do! acked := adapter broker_acked in
  if bool_decide (internal_order_id o ∈ acked) then ret []
  else
    change (fun a => with_events ({[internal_order_id o]} ∪ acked) (fill_event_emitted a)
                       (partial_qty_emitted a) (emitted a) a) ;;;
    ret ["BROKER_ACK"%string].

Definition callback_event_kinds (i : nat) (source : Source) (is_new_exec : bool)
    : B (list string) :=
  do! o := deref i in
  do! ack := maybe_broker_ack o in
  let iid := internal_order_id o in
  match o_status o with
  | FILLED =>
      do! done := adapter fill_event_emitted in
      if bool_decide (iid ∈ done) then ret ack
      else
        change (fun a => with_events (broker_acked a) ({[iid]} ∪ done) (partial_qty_emitted a)
                           (emitted a) a) ;;;
        ret (ack ++ ["FILL"%string])
  | PARTIALLY_FILLED =>
      match source, o_executions o with
      | SrcExecDetails, _ => ret (ack ++ if is_new_exec then ["PARTIAL_FILL"%string] else [])
      | SrcOrderStatus, [] =>
          do! partial := adapter partial_qty_emitted in
          if default 0 (partial !! iid) <? filled_quantity o then
            change (fun a => with_events (broker_acked a) (fill_event_emitted a)
                               (<[iid := filled_quantity o]> partial) (emitted a) a) ;;;
            ret (ack ++ ["PARTIAL_FILL"%string])
          else ret ack
      | _, _ => ret ack
      end
  | _ => ret ack
  end.

Definition emit (i : nat) (kinds : list string) : B unit :=
  change (fun a => with_events (broker_acked a) (fill_event_emitted a) (partial_qty_emitted a)
                     (emitted a ++ map (fun k => (i, k)) kinds) a).

(** What ends the handlers of status callbacks. *)
Definition announce (i : nat) (source : Source) (is_new_exec : bool) : B unit :=
  notify_future_if_terminal i ;;;
  do! kinds := callback_event_kinds i source is_new_exec in
  emit i kinds.

(** ** Callbacks of the broker *)
Definition on_order_status (orderId : Z) (status : string) (filled remaining : Q)
    (avgFillPrice : pyfloat) (permId : Z) (lastFillPrice : pyfloat) : B unit :=
  let qty := if negb (Qeq_bool filled 0) || negb (Qeq_bool remaining 0)
             then Some (fl (filled + remaining)) else None in
  do! found := resolve_order_for_tws_callback orderId (Some permId) None None qty in
  match found with
  | None => ret tt
  | Some i =>
      (if (permId =? 0)%Z then ret tt else assign i (set_perm permId)) ;;;
      do! o := deref i in
      let derived := executions_weighted_average (o_executions o) in
      let avg := usable_price avgFillPrice (limit_price o) in
      let average := match derived, avg with
                     | Some d, _ => Some d
                     | None, Some a => Some a
                     | None, None => average_fill_price o
                     end in
      let last := match usable_price lastFillPrice None with
                  | Some l => Some l
                  | None => last_fill_price o
                  end in
      assign i (set_prices average last) ;;;
      assign i (apply_mapped_status (map_ib_status status) (Some filled) (Some remaining)) ;;;
      announce i SrcOrderStatus false
  end.

(** What the handler reads of the broker's [Order] and [OrderState]. *)
Record OrderState : Type := {
  os_status : string;
  os_initMarginChange : option string;
  os_maintMarginChange : option string;
  os_initMarginAfter : option string;
  os_commission : option pyfloat;
  os_warningText : string
}.

Definition parse_whatif_state (order_id : Z) (st : OrderState) (quantity : Q) (price : Q)
    : WhatIfResult :=
  let init_change := parse_ibkr_number (os_initMarginChange st) in
  let notional := dmul (repr_dec quantity) (dabs price) in {|
  wi_order_id := order_id;
  wi_unknown := bool_decide (init_change = None);
  init_margin_change := init_change;
  maint_margin_change := parse_ibkr_number (os_maintMarginChange st);
  init_margin_after := parse_ibkr_number (os_initMarginAfter st);
  wi_commission := parse_ibkr_number (option_map str_float (os_commission st));
  warning_text := none_if_empty (Some (os_warningText st));
  wi_rate := match init_change with
             | Some c => if 0 <? notional then Some (ddiv (dabs c) notional) else None
             | None => None
             end |}.

(** Gives a pending margin probe its answer. *)
Definition resolve_whatif (order_id : Z) (r : WhatIfResult) : B unit :=
  change (fun a =>
    if bool_decide (order_id ∈ whatif_pending a)
    then with_whatif (whatif_pending a ∖ {[order_id]}) (<[order_id := r]> (whatif_results a)) a
    else a).

Definition unknown_whatif (order_id : Z) : WhatIfResult := {|
  wi_order_id := order_id; wi_unknown := true; init_margin_change := None;
  maint_margin_change := None; init_margin_after := None; wi_commission := None;
  warning_text := None; wi_rate := None |}.

Definition on_open_order (orderId : Z) (conId : option Z) (act : option string)
    (totalQuantity : Q) (lmtPrice : Q) (permId : option Z) (st : OrderState) : B unit :=
  do! probe := adapter (fun a => bool_decide (orderId ∈ whatif_pending a)) in
  if (probe : bool)
  then resolve_whatif orderId (parse_whatif_state orderId st totalQuantity (repr_dec lmtPrice))
  else if str_empty (os_status st) then ret tt
  else
    let perm := nonzero permId in
    do! found := resolve_order_for_tws_callback orderId perm conId (none_if_empty act)
                   (if 0 <? totalQuantity then Some totalQuantity else None) in
    match found with
    | None => ret tt
    | Some i =>
        match perm with Some p => assign i (set_perm p) | None => ret tt end ;;;
        assign i (apply_mapped_status (map_ib_status (os_status st)) None None) ;;;
        announce i SrcOpenOrder false
    end.

(** What the handler reads of the broker's [Execution]. *)
Record Execution : Type := {
  ex_orderId : option Z;
  ex_execId : string;
  ex_side : string;
  ex_shares : Q;
  ex_price : pyfloat;
  ex_permId : Z;
  ex_cumQty : Q;
  ex_avgPrice : pyfloat
}.

(** The name of an execution that has none.  A [Decimal] is printed as the
    float it was read from, which holds from 1e-4 on. *)
Definition exec_id_of (o : OMSOrder) (e : Execution) : string :=
  let shares := if Qeq_bool (ex_shares e) 0 then "0"%string else str_float (FFin (ex_shares e)) in
  let price := match usable_price (ex_price e) None with
               | Some _ => str_float (ex_price e) | None => "None"%string end in
  str_or (ex_execId e)
    ("noid:" ++ internal_order_id o ++ ":" ++ shares ++ ":" ++ price ++ ":"
     ++ str_float (FFin (ex_cumQty e)))%string.

(** The quantities, before the status: [remaining] may raise. *)
Definition record_quantities (i : nat) (e : Execution) (is_new : bool) : B unit :=
  do! o := deref i in
  let shares := repr_dec (ex_shares e) in
  let fills := fun filled : Q =>
    assign i (fun o => set_fill filled (remaining_quantity o) o) ;;;
    do! remaining := lift (num_minus (o_quantity o) filled) in
    assign i (fun o => set_fill (filled_quantity o) (NFloat (Qmaxb 0 remaining)) o) in
  if 0 <? ex_cumQty e then fills (Qmaxb (filled_quantity o) (ex_cumQty e))
  else if 0 <? shares then
    let known := dsum (map be_quantity (o_executions o)) in
    fills (Qmaxb (filled_quantity o) (fl (if is_new then dadd known shares else known)))
  else ret tt.

Definition side_text (e : Execution) (o : OMSOrder) : result string :=
  let! raw := (if str_empty (ex_side e)
               then match o_side o with
                    | Some s => Ok (side_value s)
                    | None => Raise AttributeError
                    end
               else Ok (ex_side e)) in
  Ok (if bool_decide (str_upper raw ∈ ["BOT"; "BUY"]%string) then "BUY"%string
      else if bool_decide (str_upper raw ∈ ["SLD"; "SELL"]%string) then "SELL"%string
      else raw).

Fixpoint put_execution (r : BrokerExecution) (l : list BrokerExecution) : list BrokerExecution :=
  match l with
  | [] => [r]
  | x :: l => if (be_exec_id x =? be_exec_id r)%string then r :: l else x :: put_execution r l
  end.

(** [executions_commission_total(...) or None]. *)
Definition commission_of (l : list BrokerExecution) : option Q :=
  let total := executions_commission_total l in if Qeq_bool total 0 then None else Some total.

Definition new_execution (exec_id side : string) (shares price : Q) (perm : option Z)
    (commission : option Commission) (o : OMSOrder) : BrokerExecution := {|
  be_exec_id := exec_id; be_internal_order_id := internal_order_id o; be_symbol := o_symbol o;
  be_side := side; be_quantity := shares; be_price := price;
  be_broker_order_id := str_Z <$> ibkr_order_id o;
  be_commission := cm_commission <$> commission;
  be_commission_currency := cm_currency <$> commission;
  be_realized_pnl := c ← commission; cm_realized_pnl c;
  be_perm_id := perm |}.

(** A new fill with a price and a quantity is recorded, with the commission
    that was reported before it. *)
Definition record_execution (i : nat) (exec_id side : string) (shares price : Q)
    (perm : option Z) : B unit :=
  do! pending := adapter (fun a => pending_commissions a !! exec_id) in
  match pending with
  | Some _ => change (fun a => with_execs (exec_id_to_order a) (seen_exec_ids a)
                                 ({[exec_id]} ∪ commissioned_exec_ids a)
                                 (delete exec_id (pending_commissions a)) a)
  | None => ret tt
  end ;;;
  assign i (fun o =>
    let l := put_execution (new_execution exec_id side shares price perm pending o)
               (o_executions o) in
    let o := set_executions l (commission_of l) exec_id o in
    match executions_weighted_average l with
    | Some d => set_prices (Some d) (last_fill_price o) o
    | None => o
    end).

Definition on_exec_details (reqId : Z) (conId : option Z) (e : Execution) : B unit :=
  do! found := resolve_order_for_tws_callback (default reqId (ex_orderId e)) (Some (ex_permId e))
                 conId (none_if_empty (Some (ex_side e)))
                 (if 0 <? ex_shares e then Some (ex_shares e) else None) in
  match found with
  | None => ret tt
  | Some i =>
      do! o := deref i in
      let price := usable_price (ex_price e) None in
      let exec_id := exec_id_of o e in
      do! seen := adapter seen_exec_ids in
      let is_new := bool_decide (exec_id ∉ seen) in
      change (fun a => with_execs (<[exec_id := i]> (exec_id_to_order a)) ({[exec_id]} ∪ seen)
                         (commissioned_exec_ids a) (pending_commissions a) a) ;;;
      record_quantities i e is_new ;;;
      assign i (fun o => set_prices (match usable_price (ex_avgPrice e) None with
                                     | Some p => Some p | None => average_fill_price o end)
                           (match price with Some p => Some p | None => last_fill_price o end) o) ;;;
      assign i (fun o =>
        if terminal (o_status o) then o
        else if num_val (o_quantity o) <=? filled_quantity o then move FILLED o
        else if 0 <? filled_quantity o then move PARTIALLY_FILLED o else o) ;;;
      do! o := deref i in
      do! side := lift (side_text e o) in
      let perm := match nonzero (Some (ex_permId e)) with
                  | Some p => Some p | None => nonzero (perm_id o) end in
      match perm with Some p => assign i (set_perm p) | None => ret tt end ;;;
      match price with
      | Some price =>
          if is_new && (0 <? repr_dec (ex_shares e))
          then record_execution i exec_id side (repr_dec (ex_shares e)) price perm
          else ret tt
      | None => ret tt
      end ;;;
      announce i SrcExecDetails is_new
  end.

(** Commissions; an amount that is no usable price counts as zero. *)
Definition realized_of (raw : option pyfloat) : option Q :=
  match raw with
  | Some (FFin q) => let d := repr_dec q in if Qabs d <? MAX_SANE_PRICE then Some d else None
  | _ => None
  end.

Definition with_commission (c : Commission) (r : BrokerExecution) : BrokerExecution := {|
  be_exec_id := be_exec_id r; be_internal_order_id := be_internal_order_id r;
  be_symbol := be_symbol r; be_side := be_side r; be_quantity := be_quantity r;
  be_price := be_price r; be_broker_order_id := be_broker_order_id r;
  be_commission := Some (cm_commission c); be_commission_currency := Some (cm_currency c);
  be_realized_pnl := match cm_realized_pnl c with Some p => Some p | None => be_realized_pnl r end;
  be_perm_id := be_perm_id r |}.

Definition on_commission_report (exec_id : string) (commission : pyfloat) (currency : string)
    (realized : option pyfloat) : B unit :=
  let c := {| cm_commission := default 0 (usable_price commission (Some 0));
              cm_currency := currency; cm_realized_pnl := realized_of realized |} in
  let park := change (fun a => with_execs (exec_id_to_order a) (seen_exec_ids a)
                                 (commissioned_exec_ids a)
                                 (<[exec_id := c]> (pending_commissions a)) a) in
  if str_empty exec_id then ret tt
  else
    do! known := adapter (fun a => bool_decide (exec_id ∈ commissioned_exec_ids a)) in
    if (known : bool) then ret tt
    else
      do! found := adapter (fun a => exec_id_to_order a !! exec_id) in
      match found with
      | None => park
      | Some i =>
          do! o := deref i in
          match List.find (fun r => (be_exec_id r =? exec_id)%string) (o_executions o) with
          | None => park
          | Some r =>
              change (fun a => with_execs (exec_id_to_order a) (seen_exec_ids a)
                                 ({[exec_id]} ∪ commissioned_exec_ids a)
                                 (pending_commissions a) a) ;;;
              assign i (fun o =>
                let l := put_execution (with_commission c r) (o_executions o) in
                set_executions l (commission_of l) exec_id o) ;;;
              emit i ["COMMISSION"%string]
          end
      end.

(** ** Errors and the connection *)
Definition ORDER_REJECTION_CODES : list Z := [200; 201; 10147; 10148; 10243]%Z.

Definition is_non_terminal_tws_warning (code : Z) : bool :=
  negb (bool_decide (code ∈ ORDER_REJECTION_CODES))
  && (bool_decide (code ∈ [399; 2109]%Z) || ((2000 <=? code) && (code <? 3000))%Z
      || ((10000 <=? code) && (code <? 11000))%Z).

Definition format_tws_error_message (code : Z) (msg : string) : option string :=
  if (code =? 100)%Z || is_non_terminal_tws_warning code then None
  else if (code =? 202)%Z then Some ("Canceled: " ++ msg)%string
  else Some ("TWS Error " ++ str_Z code ++ ": " ++ msg)%string.

(** Whether the message was set, and the order it leaves. *)
Definition attach_tws_error_message (code : Z) (msg : string) (o : OMSOrder) : option OMSOrder :=
  match format_tws_error_message code msg with
  | None => None
  | Some text =>
      if negb (str_empty (str_strip (opt_str (error_message o)))) then None
      else
        let status :=
          if terminal (o_status o) then o_status o
          else if (code =? 202)%Z then CANCELLED
          else if bool_decide (code ∈ ORDER_REJECTION_CODES) then REJECTED else ERROR in
        Some (set_status status (Some text) o)
  end.

Definition status_value (s : OMSOrderStatus) : string :=
  match s with
  | PENDING => "PENDING" | SUBMITTED => "SUBMITTED" | PARTIALLY_FILLED => "PARTIALLY_FILLED"
  | FILLED => "FILLED" | CANCELLED => "CANCELLED" | REJECTED => "REJECTED" | ERROR => "ERROR"
  end.

Definition on_error (reqId code : Z) (msg : string) : B unit :=
  do! probe := adapter (fun a => bool_decide (reqId ∈ whatif_pending a)) in
  if (probe : bool) then resolve_whatif reqId (unknown_whatif reqId)
  else
    do! found := adapter (fun a => orders_by_tws_id a !! reqId) in
    match found with
    | None => ret tt
    | Some i =>
        do! o := deref i in
        let attached := attach_tws_error_message code msg o in
        if terminal (o_status o) then
          match attached with
          | Some o' => assign i (fun _ => o') ;;; emit i [status_value (o_status o')]
          | None => ret tt
          end
        else if (code =? 100)%Z || is_non_terminal_tws_warning code then ret tt
        else
          match attached with
          | Some o' =>
              assign i (fun _ => o') ;;;
              notify_future_if_terminal i ;;;
              emit i [status_value (o_status o')]
          | None => ret tt
          end
    end.

(** Every registered order, in turn. *)
Definition each_order (f : OMSOrder -> OMSOrder) : B unit :=
  do! all := adapter (fun a => map snd (orders_by_internal_id a)) in
  loop (fun _ i => assign i f) all tt.

Definition park (o : OMSOrder) : OMSOrder :=
  if terminal (o_status o) then o else set_error "Connection closed unexpectedly" o.

Definition unpark (o : OMSOrder) : OMSOrder :=
  if bool_decide (o_status o = ERROR)
     && String.prefix "Connection closed" (opt_str (error_message o))
  then set_status SUBMITTED None o else o.

Definition on_connection_closed : B unit := each_order park.
Definition on_connection_restored : B unit := each_order unpark.

(** ** The client's callbacks

    [TWSClient] keeps its own fields and passes the call to the adapter, whose
    exceptions it logs.  Codes from 2000 to 2999 are not passed on. *)
Inductive Callback : Type :=
  | CbOrderStatus (orderId : Z) (status : string) (filled remaining : Q) (avg : pyfloat)
      (permId : Z) (last : pyfloat)
  | CbOpenOrder (orderId : Z) (conId : option Z) (act : option string) (qty price : Q)
      (permId : option Z) (st : OrderState)
  | CbExecDetails (reqId : Z) (conId : option Z) (e : Execution)
  | CbCommissionReport (exec_id : string) (commission : pyfloat) (currency : string)
      (realized : option pyfloat)
  | CbError (reqId code : Z) (msg : string)
  | CbConnectionClosed
  | CbConnectionRestored
  | CbNextValidId (orderId : Z)
  | CbManagedAccounts (accounts : string).

Definition normal_codes (accounts : string) : gset string :=
  list_to_set (map (fun c => str_upper (str_strip c))
    (List.filter (fun c => negb (str_empty (str_strip c))) (str_split ","%char accounts))).

Definition set_client (f : Client -> Client) : B unit :=
  change (fun a => with_client (f (client a)) a).

Definition handle (c : Callback) : B unit :=
  match c with
  | CbOrderStatus id st f r avg perm last => on_order_status id st f r avg perm last
  | CbOpenOrder id con act q p perm st => on_open_order id con act q p perm st
  | CbExecDetails req con e => on_exec_details req con e
  | CbCommissionReport id x cur pnl => on_commission_report id x cur pnl
  | CbError req code msg => if ((2000 <=? code) && (code <? 3000))%Z then ret tt
                            else on_error req code msg
  | CbConnectionClosed =>
      set_client (fun c => {| connected := false; next_order_id := None;
                              managed_accounts := ∅; request_types := request_types c |}) ;;;
      on_connection_closed
  | CbConnectionRestored => on_connection_restored
  | CbNextValidId id =>
      set_client (fun c => {| connected := true; next_order_id := Some id;
                              managed_accounts := managed_accounts c;
                              request_types := request_types c |})
  | CbManagedAccounts l =>
      set_client (fun c => {| connected := connected c; next_order_id := next_order_id c;
                              managed_accounts := normal_codes l;
                              request_types := request_types c |})
  end.

Definition dispatch (s : Broker) (c : Callback) : Broker := (handle c s).1.
Definition deliver (l : list Callback) (s : Broker) : Broker := fold_left dispatch l s.

(** ** What the program asks of the broker *)

(** [allocate_next_order_id]. *)
Definition get_next_tws_order_id : B Z :=
  do! id := adapter (fun a => next_order_id (client a)) in
  match id with
  | None => raise (OtherError "TWS next_order_id unavailable; refusing to mint order id 1")
  | Some id =>
      set_client (fun c => {| connected := connected c; next_order_id := Some (id + 1)%Z;
                              managed_accounts := managed_accounts c;
                              request_types := request_types c |}) ;;;
      ret id
  end.

Definition register_request_id (id : Z) (ty : string) : B unit :=
  set_client (fun c => {| connected := connected c; next_order_id := next_order_id c;
                          managed_accounts := managed_accounts c;
                          request_types := <[id := ty]> (request_types c) |}).
Definition unregister_request_id (id : Z) : B unit :=
  set_client (fun c => {| connected := connected c; next_order_id := next_order_id c;
                          managed_accounts := managed_accounts c;
                          request_types := delete id (request_types c) |}).

Definition validate_ibkr_account (i : nat) : B bool :=
  do! o := deref i in
  do! managed := adapter (fun a => managed_accounts (client a)) in
  let refuse msg := assign i (set_error msg) ;;; ret false in
  match ibkr_account (o_intent o) with
  | None => refuse "MISSING_IBKR_ACCOUNT: ibkr_account is required before placeOrder"%string
  | Some account =>
      if str_empty (str_strip account)
      then refuse "MISSING_IBKR_ACCOUNT: ibkr_account is required before placeOrder"%string
      else if bool_decide (managed = ∅)
      then refuse "UNMANAGED_ACCOUNT: managedAccounts not yet received from gateway"%string
      else if bool_decide (str_upper (str_strip account) ∉ managed)
      then refuse ("UNMANAGED_ACCOUNT: '" ++ account ++ "' is not in gateway managedAccounts")%string
      else ret true
  end.

(** The broker's [Order], of the fields that are set. *)
Record IBOrder : Type := {
  io_action : string;
  io_totalQuantity : pynum;
  io_orderType : string;
  io_lmtPrice : option Q;
  io_transmit : bool;
  io_outsideRth : bool;
  io_whatIf : bool;
  io_account : option string
}.

Definition build_ibkr_contract (o : OMSOrder) : result Contract :=
  match o_resolved o with
  | None => Raise (InstrumentResolutionError
                     "MISSING_RESOLVED_CONTRACT: adapter will not guess STK/SMART/USD.")
  | Some r => Ok (ibkr_contract_from_resolved r)
  end.

Definition build_ibkr_order (o : OMSOrder) : result IBOrder :=
  let ty := str_upper (str_or (o_order_type o) "LIMIT") in
  let! (orderType, price) :=
    (if (ty =? "LIMIT")%string then
       match limit_price o with
       | None => Raise (ValueError "Limit price is required for LIMIT order type.")
       | Some p => Ok ("LMT"%string, Some (fl p))
       end
     else if (ty =? "MARKET")%string then Ok ("MKT"%string, None)
     else Raise (ValueError ("Unsupported order type: " ++ o_order_type o))) in
  Ok {| io_action := if bool_decide (o_side o = Some BUY) then "BUY" else "SELL";
        io_totalQuantity := o_quantity o; io_orderType := orderType; io_lmtPrice := price;
        io_transmit := true; io_outsideRth := false; io_whatIf := false;
        io_account := none_if_empty (ibkr_account (o_intent o)) |}.

(** PRIORITY_EMERGENCY_FLATTEN or PRIORITY_ORDER_EXECUTION of [RateLimiter.v]. *)
Definition order_priority (o : OMSOrder) : Z :=
  match intent_mode (o_intent o) with EMERGENCY_FLATTEN => 0 | _ => 1 end%Z.

(** ** The outside

    A machine of its own, with a state [W]: each of its moves may be followed
    by any callbacks.  [out_token] is [GatewayRateLimiter.acquire] for a
    priority and a request type; [out_place] and [out_cancel] tell the error
    of the socket, if it has one. *)
Inductive Token : Type := Unlimited | Granted (delayed : bool) | PacingTimeout.

Record Outside (W : Type) : Type := {
  out_callbacks : W -> W * list Callback;
  out_token : Z -> string -> W -> W * Token;
  out_place : Z -> Contract -> IBOrder -> W -> W * option string;
  out_cancel : Z -> W -> W * option string;
  out_monotonic : W -> W * Q;
  out_now : W -> Z;
  out_kill_switch : W -> Z -> bool;
  out_write_ok : W -> W * bool;
  out_row_id : W -> Z
}.
Arguments out_callbacks {W} _ _. Arguments out_token {W} _ _ _ _.
Arguments out_place {W} _ _ _ _ _. Arguments out_cancel {W} _ _ _.
Arguments out_monotonic {W} _ _. Arguments out_now {W} _ _.
Arguments out_kill_switch {W} _ _ _. Arguments out_write_ok {W} _ _.
Arguments out_row_id {W} _ _.

Section Program.
Context {W : Type}.
Variable out : Outside W.

(** The adapter with the outside, and the order objects. *)
Abbreviation System := ((Adapter * W) * list OMSOrder)%type.
Abbreviation P A := (St System A).

Definition broker_of (s : System) : Broker := (s.1.1, s.2).
Definition with_broker_state (s : System) (b : Broker) : System := ((b.1, s.1.2), b.2).

(** A step of the adapter, and one of the outside. *)
Definition inside {A} (m : B A) : P A := fun s =>
  let (b, r) := m (broker_of s) in (with_broker_state s b, r).
Definition ask {A} (f : W -> W * A) : P A := fun s =>
  let (w, a) := f s.1.2 in (((s.1.1, w), s.2), Ok a).

(** Callbacks of the reader thread, while the program waits. *)
Definition pause : P unit :=
  do! l := ask (out_callbacks out) in inside (modify (deliver l)).

(** [None] is the error that says the pacing timed out. *)
Definition acquire_for_order (i : nat) (request_type : string) : P bool :=
  do! o := inside (deref i) in
  do! token := ask (out_token out (order_priority o) request_type) in
  pause ;;;
  match token with
  | Unlimited => ret true
  | Granted delayed => inside (assign i (set_delayed delayed)) ;;; ret true
  | PacingTimeout => inside (assign i (set_error "Gateway pacing timeout")) ;;; ret false
  end.

(** [submit_order], up to its [before_place]: [false] when it returned. *)
Definition prepare_order (i : nat) : P bool :=
  do! up := inside (adapter (fun a => connected (client a))) in
  if negb (up : bool) then
    inside (assign i (set_error "TWS connection unavailable")) ;;;
    raise (OtherError "Cannot submit order: TWS is not connected.")
  else
    do! paced := acquire_for_order i "placeOrder" in
    if negb (paced : bool) then ret false
    else
      do! managed := inside (validate_ibkr_account i) in
      if negb (managed : bool) then ret false
      else inside (
        do! o := deref i in
        let iid := internal_order_id o in
        do! taken := adapter (fun a => dict_get iid (orders_by_internal_id a)) in
        match taken with
        | Some _ => raise (ValueError ("Duplicate order submission attempt for internal ID: " ++ iid))
        | None =>
            do! tws := get_next_tws_order_id in
            assign i (set_ibkr_id tws) ;;;
            do! _ := lift (build_ibkr_contract o) in
            do! _ := lift (build_ibkr_order o) in
            change (fun a => with_orders (<[tws := i]> (orders_by_tws_id a))
                               (dict_set iid i (orders_by_internal_id a))
                               (<[tws := iid]> (tws_id_to_internal_id a)) a) ;;;
            register_request_id tws "order" ;;;
            ret true
        end).

(** The rest of [submit_order]: [placeOrder], and the callbacks it races
    with. *)
Definition place_order (i : nat) : P unit :=
  do! o := inside (deref i) in
  do! contract := lift (build_ibkr_contract o) in
  do! ib := lift (build_ibkr_order o) in
  do! err := ask (out_place out (default 0%Z (ibkr_order_id o)) contract ib) in
  pause ;;;
  match err with
  | None => ret tt
  | Some e =>
      inside (assign i (set_error ("Failed to place order with TWS: " ++ e)%string)) ;;;
      raise (OtherError e)
  end.

Definition adapter_cancel_order (i : nat) : P unit :=
  do! given := inside (deref i) in
  let iid := internal_order_id given in
  do! up := inside (adapter (fun a => connected (client a))) in
  if negb (up : bool) then raise (OtherError "Cannot cancel order: TWS is not connected.")
  else
    do! found := inside (adapter (fun a => dict_get iid (orders_by_internal_id a))) in
    match found with
    | None => raise (ValueError ("Order not found for internal ID: " ++ iid))
    | Some j =>
        do! o := inside (deref j) in
        if terminal (o_status o)
        then raise (ValueError ("Cannot cancel order in terminal status: "
                                ++ status_value (o_status o)))
        else match nonzero (ibkr_order_id o) with
        | None => raise (ValueError ("Order " ++ iid ++ " has no IBKR order ID assigned."))
        | Some tws =>
            do! paced := acquire_for_order j "cancelOrder" in
            if negb (paced : bool) then
              do! o := inside (deref j) in
              raise (OtherError (str_or (opt_str (error_message o)) "Gateway pacing timeout"))
            else
              do! err := ask (out_cancel out tws) in
              pause ;;;
              match err with None => ret tt | Some e => raise (OtherError e) end
        end
    end.

(** [wait_for_terminal_or_fill] of all the orders at once: the waiters are
    registered, callbacks run until the futures are done or the time is up,
    and the waiters that are left are dropped.  An order that was found is
    returned whether it is at rest or not. *)
Definition start_wait (id : string) : B (result unit) :=
  do! found := get (fun s : Broker => i ← dict_get id (orders_by_internal_id s.1); s.2 !! i) in
  match found with
  | None => ret (Raise (ValueError ("Order not found: " ++ id)))
  | Some o =>
      if terminal (o_status o) then ret (Ok tt)
      else change (fun a => with_futures ({[id]} ∪ fill_futures a) a) ;;; ret (Ok tt)
  end.

Definition wait_for_terminal_or_fill (ids : list string) : P (list (result unit)) :=
  do! rs := inside (loop (fun rs id => do! r := start_wait id in ret (rs ++ [r])) ids []) in
  pause ;;;
  inside (change (fun a => with_futures (fill_futures a ∖ list_to_set ids) a)) ;;;
  ret rs.

(** [probe_margin], with the setting [margin_whatif_enabled].  The answer is
    what the future was given when the wait ended. *)
Definition probe_margin (enabled : bool) (contract : Contract) (side : string) (quantity : pynum)
    (price : Q) (account : string) : P WhatIfResult :=
  if negb enabled then ret (unknown_whatif 0)
  else
    do! up := inside (adapter (fun a => connected (client a))) in
    if negb (up : bool) then raise (OtherError "Cannot probe margin: TWS is not connected.")
    else
      do! token := ask (out_token out 4 "whatIfOrder") in
      pause ;;;
      match token with
      | PacingTimeout => raise (OtherError "GatewayPacingTimeout")
      | _ =>
          do! tws := inside get_next_tws_order_id in
          let ib := {| io_action := if (str_upper side =? "BUY")%string then "BUY" else "SELL";
                       io_totalQuantity := NFloat (fl (num_val quantity));
                       io_orderType := "LMT"; io_lmtPrice := Some (fl price);
                       io_transmit := true; io_outsideRth := false; io_whatIf := true;
                       io_account := Some account |} in
          inside (change (fun a => with_whatif ({[tws]} ∪ whatif_pending a)
                                     (delete tws (whatif_results a)) a) ;;;
                  register_request_id tws "what_if") ;;;
          do! r :=
            (do! err := ask (out_place out tws contract ib) in
             match err with
             | Some e => ret (inr e)
             | None =>
                 pause ;;;
                 do! answer := inside (adapter (fun a => whatif_results a !! tws)) in
                 match answer with
                 | Some r => ret (inl r)
                 | None =>
                     inside (change (fun a => with_whatif (whatif_pending a ∖ {[tws]})
                                                (whatif_results a) a)) ;;;
                     ret (inl (unknown_whatif tws))
                 end
             end) in
          do! _ := ask (out_cancel out tws) in
          inside (unregister_request_id tws) ;;;
          match r with inl r => ret r | inr e => raise (OtherError e) end
      end.

(** ** The adapter as the environment of the order management service *)
Definition AdapterEnvironment : Environment (Adapter * W) := {|
  env_prepare i s := prepare_order i s;
  env_place i s := place_order i s;
  env_cancel i s := adapter_cancel_order i s;
  env_wait ids _ s :=
    let (s, r) := wait_for_terminal_or_fill ids s in
    (s, match r with Ok l => l | Raise e => [Raise e] end);
  env_events s := (pause s).1;
  env_monotonic e := let (w, t) := out_monotonic out e.2 in ((e.1, w), t);
  env_now e := out_now out e.2;
  env_kill_switch e a := out_kill_switch out e.2 a;
  env_write_ok e := let (w, ok) := out_write_ok out e.2 in ((e.1, w), ok);
  env_row_id e := out_row_id out e.2
|}.
End Program.
