(* ===== verification/AdapterFacts.v ===== *)
(** * What the execution adapter guarantees

    The theorems about [Adapter.v]: the adapter is an environment as the
    basket coordinator expects one, orders at rest stay at rest, fills are
    counted once and announced once, and the order in which the reports of a
    fill arrive does not matter. *)

From S2P Require Import Prelude Rounding PyText PyTime Identifiers RmsModels Instruments Oms Coordinator Adapter.

#[local] Open Scope Q_scope.
#[local] Open Scope py_scope.

(** ** A calculus for the handlers

    [bp R s m Q]: [m] takes [s] to a state that [R] relates it to and, when it
    returns, ends with [Q]. *)
Section Calculus.
Context (R : Broker -> Broker -> Prop) `{!PreOrder R}.

Definition bp {A} (s : Broker) (m : B A) (Q : A -> Broker -> Prop) : Prop :=
  R s (m s).1 /\ match (m s).2 with Ok a => Q a (m s).1 | Raise _ => True end.

Lemma bp_ret {A} s (a : A) (Q : A -> Broker -> Prop) : Q a s -> bp s (ret a) Q.
Proof. by split. Qed.
Lemma bp_raise {A} s e (Q : A -> Broker -> Prop) : bp s (raise e) Q.
Proof. by split. Qed.
Lemma bp_get {A} s (f : Broker -> A) (Q : A -> Broker -> Prop) : Q (f s) s -> bp s (get f) Q.
Proof. by split. Qed.
Lemma bp_adapter {A} s (f : Adapter -> A) (Q : A -> Broker -> Prop) :
  Q (f s.1) s -> bp s (adapter f) Q.
Proof. by split. Qed.
Lemma bp_lift {A} s (r : result A) (Q : A -> Broker -> Prop) :
  (forall a, r = Ok a -> Q a s) -> bp s (lift r) Q.
Proof. intros H. split; [done|]. destruct r; simpl; auto. Qed.
Lemma bp_change s f (Q : unit -> Broker -> Prop) :
  R s (f s.1, s.2) -> Q tt (f s.1, s.2) -> bp s (change f) Q.
Proof. by split. Qed.
Lemma bp_assign s i f (Q : unit -> Broker -> Prop) :
  R s (s.1, alter f i s.2) -> Q tt (s.1, alter f i s.2) -> bp s (assign i f) Q.
Proof. by split. Qed.
Lemma bp_deref s i (Q : OMSOrder -> Broker -> Prop) :
  (forall o, s.2 !! i = Some o -> Q o s) -> bp s (deref i) Q.
Proof. intros H. unfold bp, deref. destruct (s.2 !! i) eqn:E; simpl; split; auto; done. Qed.

Lemma bp_bind {A C} s (m : B A) (k : A -> B C) (Q : C -> Broker -> Prop) :
  bp s m (fun a s' => bp s' (k a) Q) -> bp s (bind m k) Q.
Proof.
  intros [H1 H2]. unfold bp, bind. destruct (m s) as [s' [a|e]]; simpl in *; [|done].
  destruct H2 as [H3 H4]. split; [by etrans|done].
Qed.

Lemma bp_mono {A} s (m : B A) (Q Q' : A -> Broker -> Prop) :
  bp s m Q -> (forall a s', Q a s' -> Q' a s') -> bp s m Q'.
Proof. intros [H1 H2] H. split; [done|]. destruct (m s).2; auto. Qed.

Lemma bp_loop {A C} (body : C -> A -> B C) l (c : C) s :
  (forall c x s', bp s' (body c x) (fun _ _ => True)) ->
  bp s (loop body l c) (fun _ _ => True).
Proof.
  intros H. revert c s. induction l as [|x l IH]; intros c s; simpl; [by apply bp_ret|].
  apply bp_bind. eapply bp_mono; [apply H|]. intros. apply IH.
Qed.

Lemma bp_then {A C} (m : B A) (k : A -> B C) s :
  (forall s', bp s' m (fun _ _ => True)) -> (forall a s', bp s' (k a) (fun _ _ => True)) ->
  bp s (bind m k) (fun _ _ => True).
Proof. intros Hm Hk. apply bp_bind. eapply bp_mono; [apply Hm|]. intros. apply Hk. Qed.
End Calculus.

(** Runs through a handler; what is left are the assignments. *)
Ltac bp_step :=
  lazymatch goal with
  | |- bp _ _ (let _ := _ in _) _ => cbv zeta
  | |- bp _ _ (bind _ _) _ => apply bp_bind; [apply _|]
  | |- bp _ _ (ret _) _ => apply bp_ret; [apply _|]
  | |- bp _ _ (raise _) _ => apply bp_raise; apply _
  | |- bp _ _ (lift _) _ => apply bp_lift; [apply _|intros ? ?]
  | |- bp _ _ (adapter _) _ => apply bp_adapter; [apply _|]
  | |- bp _ _ (deref _) _ => apply bp_deref; [apply _|intros ? ?]
  | |- bp _ _ (get _) _ => apply bp_get; [apply _|]
  end.

Ltac bp_seq := apply bp_then; [apply _| |].

(** ** How callbacks move an order *)
Record follows (o o' : OMSOrder) : Prop := {
  fo_same : same_order o o';
  fo_rest : is_wait_terminal o = true ->
    o_status o' = o_status o /\ is_wait_terminal o' = true
}.

#[export] Instance follows_preorder : PreOrder follows.
Proof.
  split.
  - intros o. by split.
  - intros a b c [S1 H1] [S2 H2]. split; [by eapply same_order_trans|].
    intros H. destruct (H1 H) as [E1 R1]. destruct (H2 R1) as [E2 R2]. split; [congruence|done].
Qed.

Definition heap_follows (s s' : Broker) : Prop := Forall2 follows s.2 s'.2.
#[export] Instance heap_follows_preorder : PreOrder heap_follows.
Proof.
  split; [intros s; apply (reflexivity (R := Forall2 follows))|].
  intros s1 s2 s3. apply (transitivity (R := Forall2 follows)).
Qed.

Lemma Forall2_alter i f (l : list OMSOrder) :
  (forall o, l !! i = Some o -> follows o (f o)) -> Forall2 follows l (alter f i l).
Proof.
  intros H. apply Forall2_lookup. intros j. destruct (decide (j = i)) as [->|Hj].
  - rewrite list_lookup_alter_eq. destruct (l !! i) eqn:E; simpl; constructor; auto.
  - rewrite list_lookup_alter_ne by done. destruct (l !! j); constructor. reflexivity.
Qed.

Lemma follow_change s f (Q : unit -> Broker -> Prop) :
  Q tt (f s.1, s.2) -> bp heap_follows s (change f) Q.
Proof. intros H. apply bp_change; [|done]. apply (reflexivity (R := Forall2 follows)). Qed.

Lemma follow_assign s i f (Q : unit -> Broker -> Prop) :
  (forall o, s.2 !! i = Some o -> follows o (f o)) -> Q tt (s.1, alter f i s.2) ->
  bp heap_follows s (assign i f) Q.
Proof. intros H. apply bp_assign. by apply Forall2_alter. Qed.

(** A move that leaves the status and the message alone. *)
Lemma follows_fields o ib fq rq av la co pe ex le de :
  filled_quantity o <= fq ->
  follows o (with_broker o ib (o_status o) fq rq av la (error_message o) co pe ex le de).
Proof. intros H. split; [by apply with_broker_same|]. intros Hr. by split. Qed.

Lemma terminal_rest o : is_wait_terminal o = true -> terminal (o_status o) = true.
Proof. unfold is_wait_terminal. by destruct (o_status o). Qed.

Lemma follows_moved o s m : terminal (o_status o) = false -> follows o (set_status s m o).
Proof.
  intros Hn. split; [apply with_broker_same; apply Qle_refl|].
  intros Hr%terminal_rest. congruence.
Qed.

Lemma follows_applied m qf qr o : follows o (apply_mapped_status m qf qr o).
Proof.
  unfold apply_mapped_status. destruct (terminal (o_status o)) eqn:Ht; [reflexivity|].
  set (o1 := set_fill _ _ o).
  assert (H1 : follows o o1).
  { apply follows_fields. destruct qf; [apply Qmaxb_spec|apply Qle_refl]. }
  assert (Hm : forall s, follows o (move s o1)).
  { intros s. etrans; [exact H1|]. by apply follows_moved. }
  repeat case_match; auto.
Qed.

Lemma follows_attached code msg o o' : attach_tws_error_message code msg o = Some o' -> follows o o'.
Proof.
  unfold attach_tws_error_message, format_tws_error_message. intros H.
  repeat case_match; try done; simplify_eq;
    (split; [apply with_broker_same; apply Qle_refl|]; intros Hr;
     pose proof (terminal_rest _ Hr) as Ht; unfold is_wait_terminal in *; simpl;
     split; [|destruct (o_status o)]; done || congruence).
Qed.

Lemma follows_prices av la o : follows o (set_prices av la o).
Proof. apply follows_fields, Qle_refl. Qed.
Lemma follows_perm p o : follows o (set_perm p o).
Proof. apply follows_fields, Qle_refl. Qed.
Lemma follows_ibkr_id p o : follows o (set_ibkr_id p o).
Proof. apply follows_fields, Qle_refl. Qed.
Lemma follows_delayed d o : follows o (set_delayed d o).
Proof. apply follows_fields, Qle_refl. Qed.
Lemma follows_executions l c x o : follows o (set_executions l c x o).
Proof. apply follows_fields, Qle_refl. Qed.
Lemma follows_fill q r o : filled_quantity o <= q -> follows o (set_fill q r o).
Proof. apply follows_fields. Qed.
Create HintDb follows.
#[export] Hint Resolve follows_prices follows_perm follows_ibkr_id follows_delayed
  follows_executions follows_fill follows_applied Qle_refl : follows.
#[export] Hint Extern 1 (follows ?o ?o) => reflexivity : follows.

(** [runs_through m]: whatever the state, [m] moves orders as a callback may. *)
Abbreviation all_follow := (fun m => forall s, bp heap_follows s m (fun _ _ => True)).

Ltac follow_step := first
  [ bp_step | lazymatch goal with |- bp _ _ (change _) _ => apply follow_change end ].
Ltac follow :=
  repeat first
    [ exact I
    | follow_step
    | apply follow_assign; [intros ? ?; eauto with follows|]
    | match goal with |- bp _ _ (match ?x with _ => _ end) _ => destruct x eqn:? end ].

Lemma follow_bind i tws : all_follow (bind_tws_id i tws).
Proof. intros s. unfold bind_tws_id. follow. Qed.

Lemma follow_candidates con side qty : all_follow (candidates_of con side qty).
Proof.
  intros s. unfold candidates_of. bp_step.
  split; [reflexivity|]. cbn [fst snd unmapped_adopted_orders].
  apply bp_loop; [apply _|]. intros c x s'. follow.
Qed.

Lemma follow_bound i tws : all_follow (bind_tws_id i tws ;;; ret (Some i)).
Proof.
  intros s. bp_step. eapply bp_mono; [apply follow_bind|]. intros. by follow.
Qed.

Lemma follow_resolve tws perm con side qty :
  all_follow (resolve_order_for_tws_callback tws perm con side qty).
Proof.
  intros s. unfold resolve_order_for_tws_callback. follow.
  split; [reflexivity|]. cbn [fst snd]. case_match; [apply follow_bound|].
  follow. eapply bp_mono; [apply follow_candidates|]. intros l s' _.
  destruct l as [|i [|? ?]]; [by follow|apply follow_bound|by follow].
Qed.

Lemma follow_emit i kinds : all_follow (emit i kinds).
Proof. intros s. unfold emit. by follow. Qed.

Lemma follow_announce i source is_new : all_follow (announce i source is_new).
Proof.
  intros s. unfold announce, notify_future_if_terminal, callback_event_kinds, maybe_broker_ack, emit.
  follow.
Qed.

Lemma follow_order_status id st f r av perm la : all_follow (on_order_status id st f r av perm la).
Proof.
  intros s. bp_seq; [apply follow_resolve|]. intros [i|] s'; [|by follow].
  follow; apply follow_announce.
Qed.

Lemma follow_resolve_whatif id r : all_follow (resolve_whatif id r).
Proof. intros s. unfold resolve_whatif. by follow. Qed.

Lemma follow_open_order id con act q p perm st : all_follow (on_open_order id con act q p perm st).
Proof.
  intros s. unfold on_open_order. do 2 bp_step.
  case_match; [apply follow_resolve_whatif|]. case_match; [by follow|].
  bp_seq; [apply follow_resolve|]. intros [i|] s'; [|by follow].
  follow; apply follow_announce.
Qed.

Lemma follow_quantities i e is_new : all_follow (record_quantities i e is_new).
Proof.
  intros s. unfold record_quantities. bp_step. bp_step.
  match goal with H : s.2 !! i = Some ?o |- _ => rename o into o0; rename H into Ho end.
  assert (Hf : forall q, filled_quantity o0 <= q ->
    bp heap_follows s (assign i (fun o => set_fill q (remaining_quantity o) o) ;;;
                  do! r := lift (num_minus (o_quantity o0) q) in
                  assign i (fun o => set_fill (filled_quantity o) (NFloat (Qmaxb 0 r)) o))
      (fun _ _ => True)).
  { intros q Hq. bp_step.
    apply follow_assign; [intros o Ho'; rewrite Ho in Ho'; injection Ho' as <-; by apply follows_fill|].
    follow. }
  case_match; [apply Hf, Qmaxb_spec|]. case_match; [apply Hf, Qmaxb_spec|]. by follow.
Qed.

Lemma follow_record i x side sh pr perm : all_follow (record_execution i x side sh pr perm).
Proof.
  intros s. unfold record_execution. do 2 bp_step.
  assert (Hk : forall c, all_follow (assign i (fun o =>
    let l := put_execution (new_execution x side sh pr perm c o) (o_executions o) in
    let o := set_executions l (commission_of l) x o in
    match executions_weighted_average l with
    | Some d => set_prices (Some d) (last_fill_price o) o
    | None => o
    end))).
  { intros c s'. apply follow_assign; [|exact I]. intros o _. cbv zeta.
    case_match; [|apply follows_executions].
    etrans; [apply follows_executions|apply follows_prices]. }
  bp_seq; [|intros; apply Hk]. intros s'. case_match; by follow.
Qed.

Lemma follow_set_perm i perm :
  all_follow (match perm with Some p => assign i (set_perm p) | None => ret tt end).
Proof. intros s. follow. Qed.

Lemma follow_exec_details req con e : all_follow (on_exec_details req con e).
Proof.
  intros s. bp_seq; [apply follow_resolve|]. intros [i|] s'; [|by follow].
  repeat follow_step. eapply bp_mono; [apply follow_quantities|]. intros _ s2 _.
  bp_step. apply follow_assign; [intros ? ?; apply follows_prices|].
  bp_step. apply follow_assign; [|].
  { intros o0 _. destruct (terminal (o_status o0)) eqn:Ht; [reflexivity|].
    case_match; [by apply follows_moved|]. case_match; [by apply follows_moved|reflexivity]. }
  repeat bp_step. eapply bp_mono; [apply follow_set_perm|]. intros _ s3 _. bp_seq; [|intros; apply follow_announce].
  intros s4. clear. destruct (usable_price (ex_price e) None); [|by follow]. case_match; [apply follow_record|by follow].
Qed.

Lemma follow_commission x c cur pnl : all_follow (on_commission_report x c cur pnl).
Proof. intros s. unfold on_commission_report, emit. follow. Qed.

Lemma follow_error req code msg : all_follow (on_error req code msg).
Proof.
  intros s. unfold on_error. do 2 bp_step. case_match; [apply follow_resolve_whatif|].
  do 2 bp_step. case_match; [|by follow]. do 2 bp_step.
  match goal with H : s.2 !! ?i = Some ?o |- _ => rename o into o0; rename H into Ho end.
  assert (Ha : forall o', attach_tws_error_message code msg o0 = Some o' ->
    forall k : B unit, all_follow k -> bp heap_follows s (assign n (fun _ => o') ;;; k) (fun _ _ => True)).
  { intros o' Ho' k Hk. bp_step. apply follow_assign; [ |apply Hk].
    intros o Ho2. rewrite Ho in Ho2. injection Ho2 as <-. by eapply follows_attached. }
  destruct (attach_tws_error_message code msg o0) as [o'|] eqn:Ea.
  - case_match; [by apply Ha; [|apply follow_emit]|]. case_match; [by follow|].
    apply Ha; [done|]. intros s'. bp_seq; [|intros; apply follow_emit].
    intros s2. unfold notify_future_if_terminal. follow.
  - repeat case_match; by follow.
Qed.

Lemma follow_each f : (forall o, follows o (f o)) -> all_follow (each_order f).
Proof.
  intros Hf s. unfold each_order. do 2 bp_step. apply bp_loop; [apply _|].
  intros c i s'. apply follow_assign; [|exact I]. intros o _. apply Hf.
Qed.

Lemma follows_park o : follows o (park o).
Proof.
  unfold park. destruct (terminal (o_status o)) eqn:Ht; [reflexivity|]. by apply follows_moved.
Qed.

Lemma follows_unpark o : follows o (unpark o).
Proof.
  unfold unpark. case_match eqn:H; [|reflexivity]. bool_to_prop.
  split; [apply with_broker_same, Qle_refl|]. unfold is_wait_terminal, is_disconnect_parked.
  rewrite H. rewrite bool_decide_eq_true_2 by done.
  match goal with H : String.prefix _ _ = true |- _ => rewrite H end. done.
Qed.

(** Every callback moves every order as [follows] says. *)
Lemma follow_handle c : all_follow (handle c).
Proof.
  destruct c; simpl.
  - apply follow_order_status.
  - apply follow_open_order.
  - apply follow_exec_details.
  - apply follow_commission.
  - intros s. case_match; [by follow|apply follow_error].
  - intros s. unfold set_client. do 2 follow_step. apply follow_each, follows_park.
  - apply follow_each, follows_unpark.
  - intros s. unfold set_client. by follow.
  - intros s. unfold set_client. by follow.
Qed.

Lemma deliver_follows l (s : Broker) : Forall2 follows s.2 (deliver l s).2.
Proof.
  revert s. induction l as [|c l IH]; intros s; simpl; [reflexivity|].
  etrans; [apply (follow_handle c s)|apply IH].
Qed.

Lemma follows_evolves h h' : Forall2 follows h h' -> heap_evolves None h h'.
Proof.
  intros H. split; [symmetry; by apply (Forall2_length follows)|]. intros i o Ho.
  destruct (Forall2_lookup_l _ _ _ _ _ H Ho) as (o' & Ho' & [Hs Hr]).
  exists o'. split_and!; [done|done|]. intros _. split; [done|]. intros Hf.
  destruct Hr as [-> _]; [|done]. unfold is_wait_terminal. by rewrite Hf.
Qed.

(** ** The adapter as an environment

    [keeps except m]: [m] lets the orders evolve, and keeps the one at
    [except] the same order. *)
Section Lawful.
Context {W : Type}.
Variable out : Outside W.
Abbreviation System := ((Adapter * W) * list OMSOrder)%type.

Definition keeps {S A} (heap : S -> list OMSOrder) (except : option nat) (m : St S A) : Prop :=
  forall s, heap_evolves except (heap s) (heap (m s).1).

Lemma keeps_bind {S A C} (heap : S -> list OMSOrder) except (m : St S A) (k : A -> St S C) :
  keeps heap except m -> (forall a, keeps heap except (k a)) -> keeps heap except (bind m k).
Proof.
  intros Hm Hk s. unfold bind. specialize (Hm s). destruct (m s) as [s' [a|e]]; [|done].
  eapply heap_evolves_trans; [exact Hm|apply Hk].
Qed.

(** Operations that do not touch the orders. *)
Lemma keeps_pure {S A} (heap : S -> list OMSOrder) except (m : St S A) :
  (forall s, heap (m s).1 = heap s) -> keeps heap except m.
Proof. intros H s. rewrite H. apply heap_evolves_refl. Qed.

Lemma keeps_deref except i : keeps snd except (deref i).
Proof. apply keeps_pure. intros s. unfold deref. by destruct (s.2 !! i). Qed.

Lemma keeps_assign i f : (forall o, same_order o (f o)) -> keeps snd (Some i) (assign i f).
Proof. intros H s. apply alter_evolves; [done|by left]. Qed.

Lemma keeps_inside {A} except (m : B A) :
  keeps snd except m -> keeps (S := System) snd except (inside m).
Proof.
  intros H s. unfold inside. specialize (H (broker_of s)).
  destruct (m (broker_of s)) as [b r]. exact H.
Qed.

Lemma keeps_ask {A} except (f : W -> W * A) : keeps (S := System) snd except (ask f).
Proof. apply keeps_pure. intros s. unfold ask. by destruct (f s.1.2). Qed.

Lemma keeps_pause except : keeps (S := System) snd except (pause out).
Proof.
  apply keeps_bind; [apply keeps_ask|]. intros l. apply keeps_inside. intros s. simpl.
  apply heap_evolves_weaken, follows_evolves, deliver_follows.
Qed.

Lemma same_status s m o : same_order o (set_status s m o).
Proof. apply with_broker_same, Qle_refl. Qed.

Ltac keep :=
  repeat first
    [ lazymatch goal with
      | |- keeps _ _ (bind _ _) => apply keeps_bind; [|intros ?]
      | |- keeps _ _ (inside _) => apply keeps_inside
      | |- keeps _ _ (pause _) => apply keeps_pause
      end
    | apply keeps_deref | apply keeps_ask
    | apply keeps_assign; intros ?; apply with_broker_same, Qle_refl
    | match goal with |- keeps _ _ (match ?x with _ => _ end) => destruct x end
    | apply keeps_pure; intros ?; reflexivity ].

Lemma keeps_acquire i req : keeps (S := System) snd (Some i) (acquire_for_order out i req).
Proof. unfold acquire_for_order. keep. Qed.

Lemma keeps_validate i : keeps snd (Some i) (validate_ibkr_account i).
Proof. unfold validate_ibkr_account. keep. Qed.

Lemma keeps_next_id except : keeps snd except get_next_tws_order_id.
Proof. unfold get_next_tws_order_id, set_client. keep. Qed.

Lemma keeps_prepare i : keeps (S := System) snd (Some i) (prepare_order out i).
Proof.
  unfold prepare_order, register_request_id, set_client. keep;
    [apply keeps_acquire|apply keeps_validate|apply keeps_next_id].
Qed.

Lemma keeps_place i : keeps (S := System) snd (Some i) (place_order out i).
Proof. unfold place_order. keep. Qed.

Lemma keeps_unfilled i (h h' : list OMSOrder) :
  (forall o, h !! i = Some o -> o_status o <> FILLED) ->
  heap_evolves (Some i) h h' -> heap_evolves None h h'.
Proof.
  intros Hf [Hl H]. split; [done|]. intros j o Ho. destruct (H j o Ho) as (o' & Ho' & Hs & Hv).
  exists o'. split_and!; [done|done|]. intros _. destruct (decide (i = j)) as [->|Hij].
  - split; [done|]. intros Hs'. by destruct (Hf o Ho).
  - apply Hv. congruence.
Qed.

(** Reading leaves the system as it is. *)
Lemma at_deref {A} except i (k : OMSOrder -> St System A) s :
  (forall o, s.2 !! i = Some o -> heap_evolves except s.2 (k o s).1.2) ->
  heap_evolves except s.2 (bind (inside (deref i)) k s).1.2.
Proof.
  destruct s as [[a w] h]. intros H. unfold bind, inside, deref, broker_of, with_broker_state.
  cbn [fst snd] in *. destruct (h !! i); [by apply H|apply heap_evolves_refl].
Qed.

Lemma at_adapter {A C} except (f : Adapter -> C) (k : C -> St System A) s :
  heap_evolves except s.2 (k (f s.1.1) s).1.2 ->
  heap_evolves except s.2 (bind (inside (adapter f)) k s).1.2.
Proof. by destruct s as [[a w] h]. Qed.

Lemma keeps_cancel i : keeps (S := System) snd None (adapter_cancel_order out i).
Proof.
  intros s. apply at_deref. intros o Ho. apply at_adapter.
  destruct (negb _); [apply heap_evolves_refl|]. apply at_adapter.
  destruct (dict_get _ _) as [j|]; [|apply heap_evolves_refl]. apply at_deref. intros oj Hj.
  destruct (terminal (o_status oj)) eqn:Ht; [apply heap_evolves_refl|].
  destruct (nonzero _) as [tws|]; [|apply heap_evolves_refl].
  apply (keeps_unfilled j).
  { intros o' Ho'. rewrite Hj in Ho'. injection Ho' as <-. by destruct (o_status oj). }
  revert s o Ho Hj. enough (Hk : keeps (S := System) snd (Some j)
    (do! paced := acquire_for_order out j "cancelOrder" in
     if negb paced then do! o := inside (deref j) in
       raise (OtherError (str_or (opt_str (error_message o)) "Gateway pacing timeout"))
     else do! err := ask (out_cancel out tws) in pause out ;;;
          match err with None => ret tt | Some e => raise (OtherError e) end))
    by (intros; apply Hk).
  keep. apply keeps_acquire.
Qed.

Lemma start_wait_ok id s : exists r, (start_wait id s).2 = Ok r /\
  (r = Ok tt \/ exists m, r = Raise (ValueError m)).
Proof.
  unfold start_wait, bind, get. cbn [fst snd].
  destruct (dict_get id _ ≫= _) as [o|]; simpl; [|by eauto]. destruct (terminal _); simpl; eauto.
Qed.

(** The waiters are registered one by one; none raises. *)
Definition register_waiters (ids : list string) (rs : list (result unit))
    : B (list (result unit)) :=
  loop (fun rs id => do! r := start_wait id in ret (rs ++ [r])) ids rs.
Definition waited (r : result unit) : Prop := r = Ok tt \/ exists m, r = Raise (ValueError m).

Lemma register_ok ids rs (s : Broker) :
  Forall waited rs ->
  exists rs', (register_waiters ids rs s).2 = Ok rs' /\ Forall waited rs'.
Proof.
  revert rs s. induction ids as [|id ids IH]; intros rs s Hrs; [by eexists|].
  unfold register_waiters. simpl. unfold bind at 1 2. destruct (start_wait_ok id s) as (r & Hr & Hw).
  destruct (start_wait id s) as [s' q]. simpl in Hr. subst q. cbn [ret].
  apply IH, Forall_app. by split; [|constructor].
Qed.

Lemma wait_ok ids (s : System) :
  exists rs, (wait_for_terminal_or_fill out ids s).2 = Ok rs /\ Forall waited rs.
Proof.
  destruct (register_ok ids [] (broker_of s)) as (rs & Hr & Hw); [constructor|].
  exists rs. split; [|done]. unfold wait_for_terminal_or_fill.
  change (loop _ ids []) with (register_waiters ids []). unfold bind at 1, inside at 1.
  destruct (register_waiters ids [] (broker_of s)) as [b q]. simpl in Hr. subst q.
  unfold pause, ask, inside, modify, change, bind. cbn. by destruct (out_callbacks _ _).
Qed.

Lemma keeps_start_wait except id : keeps snd except (start_wait id).
Proof. apply keeps_pure. intros s. unfold start_wait, bind, get. cbn [fst snd].
  destruct (dict_get id _ ≫= _) as [o|]; [|done]. by destruct (terminal (o_status o)).
Qed.

Lemma keeps_register ids rs : keeps snd None (register_waiters ids rs).
Proof.
  revert rs. induction ids as [|id ids IH]; intros rs; [by apply keeps_pure|].
  apply keeps_bind; [|intros; apply IH]. apply keeps_bind; [apply keeps_start_wait|].
  intros r. by apply keeps_pure.
Qed.

Lemma keeps_wait ids : keeps (S := System) snd None (wait_for_terminal_or_fill out ids).
Proof.
  unfold wait_for_terminal_or_fill. change (loop _ ids []) with (register_waiters ids []).
  keep. apply keeps_register.
Qed.

(** C7: the adapter is an environment as the basket coordinator expects one,
    whatever callbacks, pacing and socket errors the outside comes up with:
    submitting, cancelling and waiting never lose a fill, never touch what an
    order is, never take a FILLED order back, and waiting raises nothing but
    the errors the coordinator logs. *)
Theorem adapter_lawful : @LawfulEnvironment (Adapter * W) (AdapterEnvironment out).
Proof.
  split; simpl.
  - intros i s. apply keeps_prepare.
  - intros i s. apply keeps_place.
  - intros i s. apply keeps_cancel.
  - intros ids t s. pose proof (keeps_wait ids s) as H.
    by destruct (wait_for_terminal_or_fill out ids s).
  - intros s. apply keeps_pause.
  - intros ids t s e He. destruct (wait_ok ids s) as (rs & Hr & Hw).
    destruct (wait_for_terminal_or_fill out ids s) as [s' q]. simpl in *. subst q. simpl in He.
    rewrite Forall_forall in Hw. destruct (Hw _ He) as [|[m Hm]]; [done|]. injection Hm as ->. eauto.
Qed.
End Lawful.

(** ** Orders at rest *)

(** C9: an order at rest stays at rest: once the coordinator's waits count
    an order as done, no sequence of callbacks changes its status -- a lost or
    restored connection, a late fill and a late error included -- while the
    filled quantity of an order never decreases. *)
Theorem rest_is_final (s : Broker) (l : list Callback) (i : nat) (o : OMSOrder) :
  s.2 !! i = Some o ->
  exists o', (deliver l s).2 !! i = Some o' /\ same_order o o'
    /\ (is_wait_terminal o = true -> o_status o' = o_status o /\ is_wait_terminal o' = true).
Proof.
  intros Ho. destruct (Forall2_lookup_l _ _ _ _ _ (deliver_follows l s) Ho) as (o' & Ho' & [Hs Hr]).
  eauto.
Qed.

Section PacingTimeout.
Context {W : Type}.
Variable out : Outside W.

(** Equations of the steps of the system. *)
Section Equations.
Context {A C : Type}.
Variables (a : Adapter) (w : W) (h : list OMSOrder).

Lemma sys_deref i (k : OMSOrder -> St _ C) o :
  h !! i = Some o -> bind (inside (deref i)) k ((a, w), h) = k o ((a, w), h).
Proof. intros H. unfold bind, inside, deref. cbn. by rewrite H. Qed.
Lemma sys_adapter (f : Adapter -> A) (k : A -> St _ C) :
  bind (inside (adapter f)) k ((a, w), h) = k (f a) ((a, w), h).
Proof. done. Qed.
Lemma sys_ask (f : W -> W * A) w' x (k : A -> St _ C) :
  f w = (w', x) -> bind (ask f) k ((a, w), h) = k x ((a, w'), h).
Proof. intros H. unfold bind, ask. cbn. by rewrite H. Qed.
Lemma sys_assign i f (k : unit -> St _ C) :
  bind (inside (assign i f)) k ((a, w), h) = k tt ((a, w), alter f i h).
Proof. done. Qed.
Lemma sys_pause w' l (k : unit -> St _ C) :
  out_callbacks out w = (w', l) ->
  bind (pause out) k ((a, w), h) = k tt (((deliver l (a, h)).1, w'), (deliver l (a, h)).2).
Proof. intros H. unfold pause, bind, ask, inside. cbn. by rewrite H. Qed.
End Equations.

Lemma bind_assoc {S A C D} (m : St S A) (f : A -> St S C) (g : C -> St S D) s :
  bind (bind m f) g s = bind m (fun x => bind (f x) g) s.
Proof. unfold bind. by destruct (m s) as [s' [x|e]]. Qed.

(** A cancellation that is not paced in time marks the order ERROR, for
    good: whatever the broker did with it while the request waited for its
    token -- a complete fill included -- and whatever callbacks follow, the
    working order is an order in error. *)
Theorem cancel_timeout_is_final (s s' : (Adapter * W) * list OMSOrder) (i : nat) (o : OMSOrder)
    (w : W) (e : exn) (l : list Callback) :
  connected (client s.1.1) = true ->
  dict_get (internal_order_id o) (orders_by_internal_id s.1.1) = Some i ->
  s.2 !! i = Some o -> terminal (o_status o) = false -> nonzero (ibkr_order_id o) <> None ->
  out_token out (order_priority o) "cancelOrder" s.1.2 = (w, PacingTimeout) ->
  adapter_cancel_order out i s = (s', Raise e) ->
  e = OtherError "Gateway pacing timeout" /\
  exists o', (deliver l (broker_of s')).2 !! i = Some o' /\ o_status o' = ERROR
    /\ filled_quantity o <= filled_quantity o'.
Proof.
  destruct s as [[a ws] h]. cbn [fst snd]. intros Hc Hd Ho Ht Hn Hw.
  destruct (nonzero (ibkr_order_id o)) as [tws|] eqn:Hz; [|done].
  destruct (out_callbacks out w) as [w' cbs] eqn:Hcb.
  unfold adapter_cancel_order. rewrite (sys_deref _ _ _ _ _ o), sys_adapter, Hc by done. cbn [negb].
  rewrite sys_adapter, Hd, (sys_deref _ _ _ _ _ o), Ht, Hz by done.
  unfold acquire_for_order. rewrite bind_assoc, (sys_deref _ _ _ _ _ o) by done.
  rewrite bind_assoc, (sys_ask _ _ _ _ _ _ _ Hw), bind_assoc, (sys_pause _ _ _ _ _ _ Hcb).
  rewrite bind_assoc, sys_assign. set (b := deliver cbs (a, h)).
  destruct (Forall2_lookup_l _ _ _ _ _ (deliver_follows cbs (a, h)) Ho) as (o1 & Ho1 & [Hs1 _]).
  fold b in Ho1. unfold bind at 1, ret. cbn [negb].
  rewrite (sys_deref _ _ _ _ _ (set_error "Gateway pacing timeout" o1))
    by (by rewrite list_lookup_alter_eq, Ho1).
  intros H. injection H as <- <-. split; [done|].
  destruct (rest_is_final (b.1, alter (set_error "Gateway pacing timeout") i b.2) l i
    (set_error "Gateway pacing timeout" o1)) as (o' & Ho' & Hs & Hr).
  { cbn [snd]. by rewrite list_lookup_alter_eq, Ho1. }
  exists o'. split; [exact Ho'|]. destruct Hr as [Hr _]; [done|]. split; [exact Hr|].
  exact (Qle_trans _ _ _ (so_filled _ _ Hs1) (so_filled _ _ Hs)).
Qed.
End PacingTimeout.

(** ** Instances *)
Definition ex_order : OMSOrder :=
  set_ibkr_id 1 (new_order "ORD-1" (ex_intent OPEN [ex_leg "SPY" BUY 10 500]) "SPY" (Some BUY)
    (NFloat 10) (Some 500) "MARKET" SUBMITTED None (Some 0%Z) None).

Definition ex_client : Client := {|
  connected := true; next_order_id := Some 2%Z; managed_accounts := ∅; request_types := ∅ |}.
Definition empty_adapter : Adapter := {|
  client := ex_client; orders_by_tws_id := ∅; orders_by_internal_id := [];
  tws_id_to_internal_id := ∅; fill_futures := ∅; exec_id_to_order := ∅; broker_acked := ∅;
  fill_event_emitted := ∅; seen_exec_ids := ∅; commissioned_exec_ids := ∅;
  pending_commissions := ∅; partial_qty_emitted := ∅; whatif_pending := ∅; whatif_results := ∅;
  emitted := [] |}.
Definition ex_adapter : Adapter :=
  with_orders {[1%Z := O]} [("ORD-1"%string, O)] {[1%Z := "ORD-1"%string]} empty_adapter.

Definition ex_filled : Callback := CbOrderStatus 1 "Filled" 10 0 (FFin 500) 7 (FFin 500).
(** The pacer is slow, and the order is filled in the meantime. *)
Definition ex_slow : Outside unit := {|
  out_callbacks _ := (tt, [ex_filled]); out_token _ _ _ := (tt, PacingTimeout);
  out_place _ _ _ _ := (tt, None); out_cancel _ _ := (tt, None); out_monotonic _ := (tt, 0);
  out_now _ := 0%Z; out_kill_switch _ _ := false; out_write_ok _ := (tt, true);
  out_row_id _ := 1%Z |}.

Lemma rest_is_final_witness : exists o',
  (deliver [CbConnectionClosed; CbConnectionRestored] (ex_adapter, [move FILLED ex_order])).2 !! O
    = Some o' /\ o_status o' = FILLED.
Proof.
  destruct (rest_is_final (ex_adapter, [move FILLED ex_order])
    [CbConnectionClosed; CbConnectionRestored] 0 (move FILLED ex_order)) as (o' & Ho & _ & Hr).
  - reflexivity.
  - exists o'. split; [exact Ho|]. destruct Hr as [Hr _]; [reflexivity|exact Hr].
Defined.

Lemma cancel_timeout_is_final_witness : exists s' o',
  adapter_cancel_order ex_slow 0 ((ex_adapter, tt), [ex_order])
    = (s', Raise (OtherError "Gateway pacing timeout"))
  /\ (deliver [] (broker_of s')).2 !! O = Some o' /\ o_status o' = ERROR
  /\ filled_quantity o' = 10.
Proof.
  set (r := adapter_cancel_order ex_slow 0 ((ex_adapter, tt), [ex_order])).
  assert (Hq : r.2 = Raise (OtherError "Gateway pacing timeout")
    /\ filled_quantity <$> (broker_of r.1).2 !! O = Some 10) by (split; vm_compute; reflexivity).
  destruct Hq as [Hq Hf]. destruct r as [s' q] eqn:Hr. cbn [fst snd] in Hq, Hf.
  subst q. destruct (cancel_timeout_is_final ex_slow ((ex_adapter, tt), [ex_order]) s' 0 ex_order tt
    (OtherError "Gateway pacing timeout") []) as (_ & o' & Ho' & Hs & _); try reflexivity.
  - vm_compute. discriminate.
  - exact Hr.
  - exists s', o'. split; [reflexivity|]. split; [exact Ho'|]. split; [exact Hs|].
    cbn [deliver fold_left] in Ho'. rewrite Ho' in Hf. cbn in Hf. injection Hf as Hf. exact Hf.
Defined.
