(* ===== verification/Fills.v ===== *)
(** * Fills: what the reports of an execution add up to

    The effect of [on_exec_details] and [on_commission_report] of [Adapter.v]
    as functions on the order, and what follows: a report that is replayed
    changes nothing, the commission may be reported before or after the fill,
    and the fills of a compensating order are not recorded. *)

From S2P Require Import Prelude Rounding PyText PyTime Identifiers RmsModels Instruments Oms Coordinator Adapter AdapterFacts.

#[local] Open Scope Q_scope.
#[local] Open Scope py_scope.

(** ** The handlers on the order they found *)
Section At.
Context {A : Type}.
Variables (a : Adapter) (h : list OMSOrder) (i : nat) (o : OMSOrder).
Hypothesis Hi : (i < length h)%nat.

Lemma at_order_deref (k : OMSOrder -> B A) :
  bind (deref i) k (a, <[i := o]> h) = k o (a, <[i := o]> h).
Proof. unfold bind, deref. simpl. by rewrite list_lookup_insert_eq. Qed.

Lemma alter_at f : alter f i (<[i := o]> h) = <[i := f o]> h.
Proof.
  apply list_eq. intros j. destruct (decide (j = i)) as [->|Hj].
  - by rewrite list_lookup_alter_eq, !list_lookup_insert_eq.
  - by rewrite list_lookup_alter_ne, !list_lookup_insert_ne.
Qed.

Lemma at_order_assign f (k : unit -> B A) :
  bind (assign i f) k (a, <[i := o]> h) = k tt (a, <[i := f o]> h).
Proof. unfold bind, assign, modify. simpl. by rewrite alter_at. Qed.

Lemma assign_at f : assign i f (a, <[i := o]> h) = ((a, <[i := f o]> h), Ok tt).
Proof. unfold assign, modify. simpl. by rewrite alter_at. Qed.
End At.

Lemma bind_change {A} (f : Adapter -> Adapter) (k : unit -> B A) a h :
  bind (change f) k (a, h) = k tt (f a, h).
Proof. done. Qed.
Lemma bind_adapter {A C} (f : Adapter -> C) (k : C -> B A) (a : Adapter) h :
  bind (adapter f) k (a, h) = k (f a) (a, h).
Proof. done. Qed.
Lemma bind_lift_ok {S A C} (r : result C) c (k : C -> St S A) s :
  r = Ok c -> bind (lift r) k s = k c s.
Proof. by intros ->. Qed.
Lemma bind_ret {S A C} (c : C) (k : C -> St S A) s : bind (ret c) k s = k c s.
Proof. done. Qed.
Lemma bind_ok {S A C} (m : St S C) (k : C -> St S A) s s' c :
  m s = (s', Ok c) -> bind m k s = k c s'.
Proof. unfold bind. by intros ->. Qed.

(** ** The effect on the order *)
Definition filled_after (e : Execution) (is_new : bool) (o : OMSOrder) : Q :=
  let shares := repr_dec (ex_shares e) in
  if 0 <? ex_cumQty e then Qmaxb (filled_quantity o) (ex_cumQty e)
  else if 0 <? shares then
    let known := dsum (map be_quantity (o_executions o)) in
    Qmaxb (filled_quantity o) (fl (if is_new then dadd known shares else known))
  else filled_quantity o.

Definition counted (e : Execution) (is_new : bool) (q : Q) (o : OMSOrder) : OMSOrder :=
  if (0 <? ex_cumQty e) || (0 <? repr_dec (ex_shares e))
  then set_fill (filled_after e is_new o) (NFloat (Qmaxb 0 (fl (q - filled_after e is_new o)))) o
  else o.

Definition priced (e : Execution) (o : OMSOrder) : OMSOrder :=
  set_prices (match usable_price (ex_avgPrice e) None with
              | Some p => Some p | None => average_fill_price o end)
    (match usable_price (ex_price e) None with Some p => Some p | None => last_fill_price o end) o.

Definition progressed (o : OMSOrder) : OMSOrder :=
  if terminal (o_status o) then o
  else if num_val (o_quantity o) <=? filled_quantity o then move FILLED o
  else if 0 <? filled_quantity o then move PARTIALLY_FILLED o else o.

Definition perm_of (e : Execution) (o : OMSOrder) : option Z :=
  match nonzero (Some (ex_permId e)) with Some p => Some p | None => nonzero (perm_id o) end.
Definition identified (e : Execution) (o : OMSOrder) : OMSOrder :=
  match perm_of e o with Some p => set_perm p o | None => o end.

Definition recorded (x side : string) (shares price : Q) (perm : option Z)
    (c : option Commission) (o : OMSOrder) : OMSOrder :=
  let l := put_execution (new_execution x side shares price perm c o) (o_executions o) in
  let o := set_executions l (commission_of l) x o in
  match executions_weighted_average l with
  | Some d => set_prices (Some d) (last_fill_price o) o
  | None => o
  end.

(** The order before its execution is recorded, and the amounts to record. *)
Definition before_record (e : Execution) (is_new : bool) (q : Q) (o : OMSOrder) : OMSOrder :=
  identified e (progressed (priced e (counted e is_new q o))).
Definition to_record (e : Execution) (is_new : bool) : option Q :=
  match usable_price (ex_price e) None with
  | Some price => if is_new && (0 <? repr_dec (ex_shares e)) then Some price else None
  | None => None
  end.

Definition exec_effect (x side : string) (e : Execution) (is_new : bool) (q : Q)
    (c : option Commission) (o : OMSOrder) : OMSOrder :=
  match to_record e is_new with
  | Some price =>
      recorded x side (repr_dec (ex_shares e)) price
        (perm_of e (progressed (priced e (counted e is_new q o)))) c (before_record e is_new q o)
  | None => before_record e is_new q o
  end.

(** What a recorded execution changes in the adapter. *)
Definition execs_after (x : string) (i : nat) (rec : bool) (a : Adapter) : Adapter :=
  let pending := pending_commissions a in
  if rec && bool_decide (is_Some (pending !! x))
  then with_execs (<[x := i]> (exec_id_to_order a)) ({[x]} ∪ seen_exec_ids a)
         ({[x]} ∪ commissioned_exec_ids a) (delete x pending) a
  else with_execs (<[x := i]> (exec_id_to_order a)) ({[x]} ∪ seen_exec_ids a)
         (commissioned_exec_ids a) pending a.

Section Effect.
Variables (a : Adapter) (h : list OMSOrder) (i : nat).
Hypothesis Hi : (i < length h)%nat.

Lemma quantities_run e is_new q o :
  o_quantity o = NFloat q ->
  record_quantities i e is_new (a, <[i := o]> h) = ((a, <[i := counted e is_new q o]> h), Ok tt).
Proof.
  intros Hq. unfold record_quantities, counted, filled_after. rewrite at_order_deref by done.
  cbv zeta.
  assert (Hf : forall F, (assign i (fun o => set_fill F (remaining_quantity o) o) ;;;
                do! r := lift (num_minus (o_quantity o) F) in
                assign i (fun o => set_fill (filled_quantity o) (NFloat (Qmaxb 0 r)) o))
              (a, <[i := o]> h)
            = ((a, <[i := set_fill F (NFloat (Qmaxb 0 (fl (q - F)))) o]> h), Ok tt)).
  { intros F. rewrite at_order_assign, Hq, (bind_lift_ok _ (fl (q - F))), assign_at by done. done. }
  destruct (0 <? ex_cumQty e); [apply Hf|]. destruct (0 <? repr_dec (ex_shares e)); [apply Hf|done].
Qed.

(** The maps of the adapter that [announce] leaves alone. *)
Record same_execs (a a' : Adapter) : Prop := {
  se_tws : orders_by_tws_id a' = orders_by_tws_id a;
  se_execs : exec_id_to_order a' = exec_id_to_order a;
  se_seen : seen_exec_ids a' = seen_exec_ids a;
  se_commissioned : commissioned_exec_ids a' = commissioned_exec_ids a;
  se_pending : pending_commissions a' = pending_commissions a
}.

(** [announce] told everything: a second announcement of the same state says
    nothing. *)
Definition told (o : OMSOrder) (a : Adapter) : Prop :=
  internal_order_id o ∈ broker_acked a
  /\ (o_status o = FILLED -> internal_order_id o ∈ fill_event_emitted a).

Lemma announce_run source is_new o :
  exists a', announce i source is_new (a, <[i := o]> h) = ((a', <[i := o]> h), Ok tt)
    /\ same_execs a a' /\ told o a'
    /\ (told o a -> source = SrcExecDetails -> is_new = false -> emitted a' = emitted a).
Proof.
  assert (Hl : <[i := o]> h !! i = Some o) by (by apply list_lookup_insert_eq).
  unfold announce, notify_future_if_terminal, callback_event_kinds, maybe_broker_ack, emit, deref,
    adapter, change, get, modify, bind, ret, told.
  cbn [fst snd]. rewrite Hl. cbn [fst snd].
  destruct (terminal (o_status o)); cbn [fst snd]; rewrite Hl; cbn [fst snd];
    destruct (decide (internal_order_id o ∈ broker_acked a)) as [Ha|Ha];
    [rewrite bool_decide_eq_true_2 by exact Ha|rewrite bool_decide_eq_false_2 by exact Ha
    |rewrite bool_decide_eq_true_2 by exact Ha|rewrite bool_decide_eq_false_2 by exact Ha];
    destruct (o_status o), source, is_new, (o_executions o); cbn [fst snd];
    try (destruct (decide (internal_order_id o ∈ fill_event_emitted a)) as [Hf|Hf];
         [rewrite bool_decide_eq_true_2 by exact Hf|rewrite bool_decide_eq_false_2 by exact Hf];
         cbn [fst snd]).
  all: try match goal with |- context [if ?b then _ else _] => destruct b end; cbn [fst snd].
  all: eexists; split; [reflexivity|]; split; [by split|].
  all: cbn; split; [split; [set_solver|done || set_solver]|].
  all: intros [Ha' Hf'] ? ?; first [discriminate|by destruct (Ha Ha')|by destruct (Hf (Hf' eq_refl))
    |by rewrite app_nil_r].
Qed.

Lemma same_execs_refl b : same_execs b b.
Proof. by split. Qed.

Lemma record_run x side shares price perm o :
  record_execution i x side shares price perm (a, <[i := o]> h)
  = ((match pending_commissions a !! x with
      | Some _ => with_execs (exec_id_to_order a) (seen_exec_ids a)
                    ({[x]} ∪ commissioned_exec_ids a) (delete x (pending_commissions a)) a
      | None => a
      end, <[i := recorded x side shares price perm (pending_commissions a !! x) o]> h), Ok tt).
Proof.
  unfold record_execution. rewrite bind_adapter.
  destruct (pending_commissions a !! x); by rewrite ?bind_change, ?bind_ret, assign_at.
Qed.

Lemma resolve_known tws perm con side qty s :
  orders_by_tws_id a !! tws = Some i ->
  resolve_order_for_tws_callback tws perm con side qty (a, s) = ((a, s), Ok (Some i)).
Proof. intros H. unfold resolve_order_for_tws_callback. by rewrite bind_adapter, H. Qed.

Lemma side_text_same e o o' : o_side o' = o_side o -> side_text e o' = side_text e o.
Proof. intros H. unfold side_text. by rewrite H. Qed.
End Effect.

Section Report.
Context (a : Adapter) (h : list OMSOrder) (i : nat) (o : OMSOrder) (q : Q) (e : Execution)
  (side : string).
Hypotheses (Hi : (i < length h)%nat) (Hq : o_quantity o = NFloat q) (Hside : side_text e o = Ok side)
  (Hx : ex_execId e <> EmptyString).

Lemma side_counted is_new : o_side (progressed (priced e (counted e is_new q o))) = o_side o.
Proof.
  unfold progressed, priced, counted. by repeat (case_match; simpl; try done).
Qed.

(** The handler of a fill of an order that is known by its broker id. *)
Lemma exec_run req con :
  orders_by_tws_id a !! default req (ex_orderId e) = Some i ->
  let x := ex_execId e in
  let is_new := bool_decide (x ∉ seen_exec_ids a) in
  exists a', on_exec_details req con e (a, <[i := o]> h)
    = ((a', <[i := exec_effect x side e is_new q (pending_commissions a !! x) o]> h), Ok tt)
  /\ same_execs (execs_after x i (bool_decide (is_Some (to_record e is_new))) a) a'
  /\ told (exec_effect x side e is_new q (pending_commissions a !! x) o) a'
  /\ (told (exec_effect x side e is_new q (pending_commissions a !! x) o) a ->
      is_new = false -> emitted a' = emitted a).
Proof.
  intros Ht x is_new. unfold on_exec_details.
  rewrite (bind_ok _ _ _ _ _ (resolve_known _ _ _ _ _ _ _ _ Ht)).
  rewrite at_order_deref by done. cbv zeta.
  assert (Hid : exec_id_of o e = x).
  { unfold exec_id_of, str_or. destruct (str_empty (ex_execId e)) eqn:He; [|done].
    by destruct (ex_execId e). }
  rewrite Hid, bind_adapter. fold is_new. rewrite bind_change.
  rewrite (bind_ok _ _ _ _ _ (quantities_run _ _ _ Hi _ _ _ _ Hq)).
  rewrite !at_order_assign by done. rewrite at_order_deref by done.
  fold (priced e (counted e is_new q o)). fold (progressed (priced e (counted e is_new q o))).
  set (o3 := progressed _).
  rewrite (bind_lift_ok _ side) by (by rewrite (side_text_same _ o) by apply side_counted).
  fold (perm_of e o3). set (b := with_execs _ _ _ _ a).
  assert (Hid3 : (match perm_of e o3 with Some p => assign i (set_perm p) | None => ret tt end)
      (b, <[i := o3]> h) = ((b, <[i := identified e o3]> h), Ok tt)).
  { unfold identified. destruct (perm_of e o3); [by apply assign_at|done]. }
  rewrite (bind_ok _ _ _ _ _ Hid3). set (o4 := identified e o3). clear Hid3.
  unfold exec_effect, to_record, before_record. fold o3. fold o4.
  assert (Hann : forall b' o', same_execs (execs_after x i (bool_decide (is_Some (to_record e is_new))) a) b' ->
    emitted b' = emitted a -> (told o' a -> told o' b') ->
    exists a', announce i SrcExecDetails is_new (b', <[i := o']> h) = ((a', <[i := o']> h), Ok tt)
      /\ same_execs (execs_after x i (bool_decide (is_Some (to_record e is_new))) a) a'
      /\ told o' a' /\ (told o' a -> is_new = false -> emitted a' = emitted a)).
  { intros b' o' Hsame Hem Hto. destruct (announce_run b' h i Hi SrcExecDetails is_new o')
      as (a' & -> & Hs & Htold & Hagain). exists a'. split; [done|].
    split; [destruct Hs, Hsame; split; congruence|]. split; [done|].
    intros H1 H2. rewrite Hagain; auto. }
  unfold to_record in Hann.
  destruct (usable_price (ex_price e) None) as [price|];
    [destruct (is_new && (0 <? repr_dec (ex_shares e)))|]; cbn in Hann |- *.
  - rewrite (bind_ok _ _ _ _ _ (record_run _ _ _ Hi _ _ _ _ _ _)). apply Hann.
    + unfold b, execs_after. cbn. destruct (pending_commissions a !! x) eqn:Hp; cbn; by split.
    + unfold b. cbn. by destruct (pending_commissions a !! x).
    + unfold b. cbn. by destruct (pending_commissions a !! x).
  - by apply Hann.
  - by apply Hann.
Qed.
End Report.

(** ** The dict of executions *)
Lemma find_put r l :
  List.find (fun r' => (be_exec_id r' =? be_exec_id r)%string) (put_execution r l) = Some r.
Proof.
  induction l as [|r' l IH]; simpl; [by rewrite String.eqb_refl|].
  destruct (be_exec_id r' =? be_exec_id r)%string eqn:E; simpl; [by rewrite String.eqb_refl|].
  by rewrite E.
Qed.

Lemma put_put r r' l :
  be_exec_id r' = be_exec_id r -> put_execution r' (put_execution r l) = put_execution r' l.
Proof.
  intros Hid. induction l as [|r0 l IH]; simpl.
  - by rewrite Hid, String.eqb_refl.
  - rewrite Hid. destruct (be_exec_id r0 =? be_exec_id r)%string eqn:E; simpl; rewrite Hid.
    + by rewrite String.eqb_refl.
    + by rewrite E, IH.
Qed.

Definition same_amounts (r r' : BrokerExecution) : Prop :=
  be_quantity r' = be_quantity r /\ be_price r' = be_price r.

Lemma put_amounts r r' l :
  be_exec_id r' = be_exec_id r -> same_amounts r r' ->
  Forall2 same_amounts (put_execution r l) (put_execution r' l).
Proof.
  intros Hid Hs. assert (Hl : forall l, Forall2 same_amounts l l)
    by (intros l'; apply Forall_Forall2_diag, Forall_true; by split).
  induction l as [|r0 l IH]; simpl; [by constructor|].
  rewrite Hid. destruct (be_exec_id r0 =? be_exec_id r)%string; constructor; auto. by split.
Qed.

(** The average price depends on the amounts alone. *)
Lemma weighted_average_amounts l l' :
  Forall2 same_amounts l l' -> executions_weighted_average l' = executions_weighted_average l.
Proof.
  intros H. unfold executions_weighted_average.
  assert (Hf : Forall2 same_amounts (List.filter (fun e => 0 <? be_quantity e) l)
                 (List.filter (fun e => 0 <? be_quantity e) l')).
  { induction H as [|r r' l l' [Hr Hp] _ IH]; simpl; [constructor|]. rewrite Hr.
    case_match; [constructor; [by split|exact IH]|exact IH]. }
  assert (Hfold : forall (f : Q -> BrokerExecution -> Q) x,
    (forall x r r', same_amounts r r' -> f x r' = f x r) ->
    fold_left f (List.filter (fun e => 0 <? be_quantity e) l') x
    = fold_left f (List.filter (fun e => 0 <? be_quantity e) l) x).
  { intros f x Hx. revert x. induction Hf as [|r r' k k' Hr _ IH]; intros x; simpl; [done|].
    by rewrite (Hx _ _ _ Hr), IH. }
  rewrite !Hfold; [done|..]; intros x r r' [H1 H2]; by rewrite ?H1, ?H2.
Qed.

(** ** The commission may come first *)
Lemma record_then_commission x side shares price perm c o :
  let r := new_execution x side shares price perm None o in
  let oA := recorded x side shares price perm None o in
  set_executions (put_execution (with_commission c r) (o_executions oA))
    (commission_of (put_execution (with_commission c r) (o_executions oA))) x oA
  = recorded x side shares price perm (Some c) o.
Proof.
  intros r oA.
  assert (Hr : with_commission c r = new_execution x side shares price perm (Some c) o).
  { unfold r, with_commission, new_execution. cbn. by destruct (cm_realized_pnl c). }
  assert (HL : put_execution (with_commission c r) (o_executions oA)
    = put_execution (new_execution x side shares price perm (Some c) o) (o_executions o)).
  { unfold oA, recorded. cbv zeta. rewrite Hr.
    destruct (executions_weighted_average _); simpl; by rewrite put_put. }
  rewrite HL. unfold oA, recorded. cbv zeta.
  rewrite (weighted_average_amounts
    (put_execution (new_execution x side shares price perm None o) (o_executions o))
    (put_execution (new_execution x side shares price perm (Some c) o) (o_executions o)))
    by (by apply put_amounts).
  by destruct (executions_weighted_average _).
Qed.

Lemma execs_after_fresh x i rec a :
  pending_commissions a !! x = None ->
  execs_after x i rec a = with_execs (<[x := i]> (exec_id_to_order a)) ({[x]} ∪ seen_exec_ids a)
    (commissioned_exec_ids a) (pending_commissions a) a.
Proof. intros H. unfold execs_after. rewrite H. by rewrite andb_false_r. Qed.

Lemma execs_after_pending x i c a :
  pending_commissions a !! x = Some c ->
  execs_after x i true a = with_execs (<[x := i]> (exec_id_to_order a)) ({[x]} ∪ seen_exec_ids a)
    ({[x]} ∪ commissioned_exec_ids a) (delete x (pending_commissions a)) a.
Proof. intros H. unfold execs_after. by rewrite H. Qed.

Definition commission_report (c : pyfloat) (currency : string) (pnl : option pyfloat) : Commission := {|
  cm_commission := default 0 (usable_price c (Some 0)); cm_currency := currency;
  cm_realized_pnl := realized_of pnl |}.

Section CommissionRun.
Context (a : Adapter) (h : list OMSOrder) (i : nat) (o : OMSOrder).
Context (x : string) (c : pyfloat) (currency : string) (pnl : option pyfloat).
Hypotheses (Hi : (i < length h)%nat) (Hx : x <> EmptyString) (Hn : x ∉ commissioned_exec_ids a).

Lemma commission_parked :
  exec_id_to_order a !! x = None ->
  on_commission_report x c currency pnl (a, h)
  = ((with_execs (exec_id_to_order a) (seen_exec_ids a) (commissioned_exec_ids a)
        (<[x := commission_report c currency pnl]> (pending_commissions a)) a, h), Ok tt).
Proof.
  intros Hm. unfold on_commission_report. destruct (str_empty x) eqn:Hs; [by destruct x|].
  rewrite bind_adapter, bool_decide_eq_false_2 by done. by rewrite bind_adapter, Hm.
Qed.

Lemma commission_applied r :
  exec_id_to_order a !! x = Some i ->
  List.find (fun r => (be_exec_id r =? x)%string) (o_executions o) = Some r ->
  exists a', on_commission_report x c currency pnl (a, <[i := o]> h)
    = ((a', <[i := (let l := put_execution (with_commission (commission_report c currency pnl) r)
                               (o_executions o) in
                    set_executions l (commission_of l) x o)]> h), Ok tt)
    /\ commissioned_exec_ids a' = {[x]} ∪ commissioned_exec_ids a
    /\ pending_commissions a' = pending_commissions a
    /\ seen_exec_ids a' = seen_exec_ids a.
Proof.
  intros Hm Hf. unfold on_commission_report. destruct (str_empty x) eqn:Hs; [by destruct x|].
  rewrite bind_adapter, bool_decide_eq_false_2 by done. rewrite bind_adapter, Hm.
  rewrite at_order_deref by done. rewrite Hf, bind_change, at_order_assign by done.
  eexists. split; [reflexivity|]. by split_and!.
Qed.
End CommissionRun.

Lemma effect_commission x side e q o price c0 C :
  to_record e true = Some price ->
  let oA := exec_effect x side e true q None o in
  c0 = Some C ->
  exists r, List.find (fun r => (be_exec_id r =? x)%string) (o_executions oA) = Some r /\
    (let l := put_execution (with_commission C r) (o_executions oA) in
     set_executions l (commission_of l) x oA) = exec_effect x side e true q c0 o.
Proof.
  intros Hr oA ->. unfold oA, exec_effect. rewrite Hr.
  set (o4 := before_record _ _ _ _). set (p := perm_of _ _). set (sh := repr_dec _).
  exists (new_execution x side sh price p None o4). split.
  - transitivity (List.find (fun r' => (be_exec_id r' =? be_exec_id (new_execution x side sh price p None o4))%string)
      (put_execution (new_execution x side sh price p None o4) (o_executions o4)));
      [|apply find_put].
    unfold recorded. cbv zeta. by destruct (executions_weighted_average _).
  - apply record_then_commission.
Qed.

(** The report of a commission may arrive before or after the report of
    the execution it belongs to: for a new fill of an order that is known by
    its broker id, both orders of arrival leave every order -- executions,
    average price, commission, fills and status -- and the bookkeeping of
    commissions exactly the same. *)
Theorem commission_order_irrelevant (a : Adapter) (h : list OMSOrder) (i : nat) (o : OMSOrder)
    (q : Q) (e : Execution) (side : string) (price : Q) (req : Z) (con : option Z)
    (c : pyfloat) (currency : string) (pnl : option pyfloat) :
  let x := ex_execId e in
  let exec := CbExecDetails req con e in
  let comm := CbCommissionReport x c currency pnl in
  h !! i = Some o -> o_quantity o = NFloat q -> side_text e o = Ok side -> x <> EmptyString ->
  orders_by_tws_id a !! default req (ex_orderId e) = Some i ->
  usable_price (ex_price e) None = Some price -> 0 < repr_dec (ex_shares e) ->
  x ∉ seen_exec_ids a -> x ∉ commissioned_exec_ids a ->
  exec_id_to_order a !! x = None -> pending_commissions a !! x = None ->
  let s1 := deliver [exec; comm] (a, h) in
  let s2 := deliver [comm; exec] (a, h) in
  s1.2 = s2.2 /\ commissioned_exec_ids s1.1 = commissioned_exec_ids s2.1
  /\ pending_commissions s1.1 = pending_commissions s2.1.
Proof.
  intros x exec comm Ho Hq Hside Hx Ht Hp Hsh Hseen Hcom Hmap Hpend.
  assert (Hi : (i < length h)%nat) by (by eapply lookup_lt_Some).
  assert (Hh : h = <[i := o]> h) by (symmetry; by apply list_insert_id).
  set (C := commission_report c currency pnl).
  assert (Hrec : to_record e true = Some price).
  { unfold to_record. rewrite Hp. destruct (Qltb_spec 0 (repr_dec (ex_shares e))); [done|]. lra. }
  assert (Hnew : forall b, seen_exec_ids b = seen_exec_ids a -> bool_decide (x ∉ seen_exec_ids b) = true).
  { intros b ->. by apply bool_decide_eq_true_2. }
  (* the fill first *)
  destruct (exec_run a h i o q e side Hi Hq Hside Hx req con Ht) as (a1 & H1 & S1 & _ & _).
  fold x in H1, S1. rewrite Hnew, Hrec, Hpend in *; [|done..].
  destruct (effect_commission x side e q o price (Some C) C Hrec eq_refl) as (r & Hf & Heff).
  rewrite execs_after_fresh in S1 by done. destruct S1 as [_ Se Ss Sc Sp]. cbn in Se, Ss, Sc, Sp.
  destruct (commission_applied a1 h i (exec_effect x side e true q None o) x c currency pnl Hi Hx
    ltac:(by rewrite Sc) r) as (a2 & H2 & C2 & P2 & _);
    [by rewrite Se, lookup_insert_eq|exact Hf|].
  (* the commission first *)
  set (b1 := with_execs (exec_id_to_order a) (seen_exec_ids a) (commissioned_exec_ids a)
               (<[x := C]> (pending_commissions a)) a).
  pose proof (commission_parked a h x c currency pnl Hx Hcom Hmap) as H3. fold C b1 in H3.
  destruct (exec_run b1 h i o q e side Hi Hq Hside Hx req con Ht) as (b2 & H4 & S4 & _ & _).
  fold x in H4, S4. rewrite Hnew in H4, S4 by done. rewrite Hrec in S4.
  replace (pending_commissions b1 !! x) with (Some C) in * by (unfold b1; cbn; by rewrite lookup_insert_eq).
  rewrite (execs_after_pending _ _ C) in S4 by (unfold b1; cbn; by rewrite lookup_insert_eq).
  destruct S4 as [_ _ _ Sc4 Sp4]. cbn in Sc4, Sp4.
  assert (E1 : deliver [exec; comm] (a, h) = (a2, <[i := exec_effect x side e true q (Some C) o]> h)).
  { transitivity (dispatch (dispatch (a, <[i := o]> h) exec) comm); [by rewrite <- Hh|].
    unfold dispatch, exec, comm. cbn [handle]. rewrite H1. cbn [fst]. rewrite H2. cbn [fst].
    by rewrite <- Heff. }
  assert (E2 : deliver [comm; exec] (a, h) = (b2, <[i := exec_effect x side e true q (Some C) o]> h)).
  { transitivity (dispatch (b1, <[i := o]> h) exec).
    - unfold deliver, fold_left, dispatch at 2, comm. cbn [handle]. rewrite H3. cbn [fst].
      by rewrite <- Hh.
    - unfold dispatch, exec. cbn [handle]. by rewrite H4. }
  intros s1 s2. unfold s1, s2. rewrite E1, E2. cbn [fst snd]. split_and!; [done|congruence|].
  rewrite P2, Sp, Sp4. by rewrite delete_insert_id.
Qed.

(** ** Replays *)

(** What the steps of the handler leave alone. *)
Record same_progress (o o' : OMSOrder) : Prop := {
  sp_id : internal_order_id o' = internal_order_id o;
  sp_side : o_side o' = o_side o;
  sp_quantity : o_quantity o' = o_quantity o;
  sp_status : o_status o' = o_status o;
  sp_filled : filled_quantity o' = filled_quantity o;
  sp_remaining : remaining_quantity o' = remaining_quantity o
}.
Record same_books (o o' : OMSOrder) : Prop := {
  sb_progress : same_progress o o';
  sb_executions : o_executions o' = o_executions o;
  sb_commission : o_commission o' = o_commission o
}.

#[export] Instance same_progress_trans : Transitive same_progress.
Proof. intros o1 o2 o3 [] []. split; congruence. Qed.
#[export] Instance same_books_trans : Transitive same_books.
Proof. intros o1 o2 o3 [] []. split; [by etrans|congruence..]. Qed.

Lemma priced_books e o : same_books o (priced e o).
Proof. by repeat split. Qed.
Lemma identified_books e o : same_books o (identified e o).
Proof. unfold identified. case_match; by repeat split. Qed.
Lemma recorded_progress x side sh p perm c o : same_progress o (recorded x side sh p perm c o).
Proof. unfold recorded. cbv zeta. case_match; by repeat split. Qed.

Lemma Qmaxb_again x y : Qmaxb (Qmaxb x y) y = Qmaxb x y.
Proof.
  unfold Qmaxb. destruct (Qltb_spec x y) as [H|H].
  - by destruct (y <? y).
  - by destruct (Qltb_spec x y).
Qed.

(** An order that counts [e] already. *)
Definition counts (e : Execution) (q : Q) (o : OMSOrder) : Prop :=
  filled_quantity o = Qmaxb (filled_quantity o) (ex_cumQty e)
  /\ remaining_quantity o = NFloat (Qmaxb 0 (fl (q - filled_quantity o)))
  /\ o_quantity o = NFloat q
  /\ (terminal (o_status o) = true \/ progressed o = o).

Lemma move_same st o : o_status o = st -> move st o = o.
Proof. intros <-. by destruct o. Qed.

Lemma counts_same e q o o' : same_progress o o' -> counts e q o -> counts e q o'.
Proof.
  intros [_ _ Hq Hs Hf Hr] (H1 & H2 & H3 & H4). unfold counts, progressed in *.
  rewrite Hq, Hs, Hf, Hr. split_and!; [done..|]. destruct (terminal (o_status o)); [by left|right].
  destruct H4 as [|H4]; [done|].
  apply (f_equal o_status) in H4.
  repeat case_match; [apply move_same; rewrite Hs; by rewrite <- H4..|done].
Qed.

Lemma counted_counts e n q o :
  0 < ex_cumQty e -> o_quantity o = NFloat q -> counts e q (progressed (priced e (counted e n q o))).
Proof.
  intros Hc Hq. unfold counted, filled_after. destruct (Qltb_spec 0 (ex_cumQty e)); [|done].
  cbn [orb]. set (o1 := priced e _).
  assert (H1 : filled_quantity o1 = Qmaxb (filled_quantity o) (ex_cumQty e)) by done.
  assert (H2 : o_quantity o1 = NFloat q) by done.
  assert (H3 : remaining_quantity o1 = NFloat (Qmaxb 0 (fl (q - filled_quantity o1)))) by done.
  clearbody o1.
  assert (Hmax : filled_quantity o1 = Qmaxb (filled_quantity o1) (ex_cumQty e))
    by (rewrite H1; by rewrite Qmaxb_again).
  assert (Hmv : forall st, counts e q (move st o1) <->
    (terminal st = true \/ progressed (move st o1) = move st o1)).
  { intros st. split; [by intros (_ & _ & _ & ?)|]. intros H. by split_and!. }
  destruct (terminal (o_status o1)) eqn:Ht.
  { unfold progressed. rewrite Ht. split_and!; [done..|by left]. }
  unfold progressed at 1. rewrite Ht.
  destruct (num_val (o_quantity o1) <=? filled_quantity o1) eqn:E1; [by apply Hmv; left|].
  destruct (0 <? filled_quantity o1) eqn:E2.
  - apply Hmv. right. unfold progressed. cbn. by rewrite E1, E2.
  - split_and!; [done..|right]. unfold progressed. by rewrite Ht, E1, E2.
Qed.

(** Counting it again changes the prices at most. *)
Lemma counts_again e n q o :
  0 < ex_cumQty e -> counts e q o -> same_books o (before_record e n q o).
Proof.
  intros Hc (H1 & H2 & H3 & H4). unfold before_record, counted, filled_after.
  destruct (Qltb_spec 0 (ex_cumQty e)); [|done]. cbn [orb].
  rewrite <- H1, <- H2.
  assert (Hcnt : set_fill (filled_quantity o) (remaining_quantity o) o = o) by (by destruct o).
  rewrite Hcnt. eapply same_books_trans; [|apply identified_books].
  apply (same_books_trans _ (priced e o)); [apply priced_books|].
  unfold progressed in *. change (o_status (priced e o)) with (o_status o).
  change (o_quantity (priced e o)) with (o_quantity o).
  change (filled_quantity (priced e o)) with (filled_quantity o).
  destruct (terminal (o_status o)); [by repeat split|]. destruct H4 as [|H4]; [done|].
  apply (f_equal o_status) in H4.
  destruct (num_val (o_quantity o) <=? filled_quantity o); [by repeat split|].
  destruct (0 <? filled_quantity o); by repeat split.
Qed.

Lemma effect_progress x side e n q c o :
  same_progress (before_record e n q o) (exec_effect x side e n q c o).
Proof. unfold exec_effect. case_match; [apply recorded_progress|by split]. Qed.

Lemma effect_counts x side e n q c o :
  0 < ex_cumQty e -> o_quantity o = NFloat q -> counts e q (exec_effect x side e n q c o).
Proof.
  intros Hc Hq. eapply counts_same; [apply effect_progress|].
  eapply counts_same; [apply (sb_progress _ _ (identified_books _ _))|]. by apply counted_counts.
Qed.

(** A replayed execution report is harmless: delivering it once more
    leaves the executions, the commission, the filled and remaining quantity
    and the status of every order as they are, and tells the listeners
    nothing. *)
Theorem replay_changes_nothing (a : Adapter) (h : list OMSOrder) (i : nat) (o : OMSOrder)
    (q : Q) (e : Execution) (side : string) (req : Z) (con : option Z) :
  let exec := CbExecDetails req con e in
  h !! i = Some o -> o_quantity o = NFloat q -> side_text e o = Ok side ->
  ex_execId e <> EmptyString -> orders_by_tws_id a !! default req (ex_orderId e) = Some i ->
  0 < ex_cumQty e ->
  let s1 := deliver [exec] (a, h) in
  let s2 := deliver [exec; exec] (a, h) in
  emitted s2.1 = emitted s1.1 /\ Forall2 same_books s1.2 s2.2.
Proof.
  intros exec Ho Hq Hside Hx Ht Hc s1 s2.
  assert (Hi : (i < length h)%nat) by (by eapply lookup_lt_Some).
  assert (Hh : h = <[i := o]> h) by (symmetry; by apply list_insert_id).
  destruct (exec_run a h i o q e side Hi Hq Hside Hx req con Ht) as (a1 & H1 & S1 & T1 & _).
  set (n := bool_decide _) in *. set (o1 := exec_effect _ _ _ _ _ _ _) in *.
  pose proof (effect_counts (ex_execId e) side e n q (pending_commissions a !! ex_execId e) o Hc Hq)
    as Hcnt. fold o1 in Hcnt.
  assert (Hside1 : side_text e o1 = Ok side).
  { rewrite <- Hside. apply side_text_same. unfold o1.
    rewrite (sp_side _ _ (effect_progress _ _ _ _ _ _ _)). unfold before_record.
    rewrite (sp_side _ _ (sb_progress _ _ (identified_books _ _))). by apply side_counted. }
  assert (Ht1 : orders_by_tws_id a1 !! default req (ex_orderId e) = Some i).
  { rewrite (se_tws _ _ S1). unfold execs_after. by case_match. }
  assert (Hseen : bool_decide (ex_execId e ∉ seen_exec_ids a1) = false).
  { apply bool_decide_eq_false_2. rewrite (se_seen _ _ S1). unfold execs_after.
    case_match; cbn; set_solver. }
  destruct (exec_run a1 h i o1 q e side Hi (proj1 (proj2 (proj2 Hcnt))) Hside1 Hx req con Ht1)
    as (a2 & H2 & _ & _ & Hem). rewrite Hseen in H2, Hem.
  set (o2 := exec_effect _ _ _ false _ _ _) in *.
  assert (Hb : same_books o1 o2).
  { unfold o2, exec_effect, to_record. destruct (usable_price _ _); by apply counts_again. }
  assert (E1 : s1 = (a1, <[i := o1]> h)).
  { transitivity (dispatch (a, <[i := o]> h) exec); [by rewrite <- Hh|].
    unfold dispatch, exec. cbn [handle]. by rewrite H1. }
  assert (E2 : s2 = (a2, <[i := o2]> h)).
  { transitivity (dispatch s1 exec); [done|]. rewrite E1. unfold dispatch, exec. cbn [handle].
    by rewrite H2. }
  rewrite E1, E2. cbn [fst snd]. split.
  - apply Hem; [|done]. destruct T1 as [T1 T2]. destruct Hb as [[Hid _ _ Hst _ _] _ _].
    unfold told. by rewrite Hid, Hst.
  - apply Forall2_insert; [|exact Hb]. apply Forall_Forall2_diag, Forall_true. by repeat split.
Qed.

(** ** Compensating orders *)

(** The fills of a compensating order are not recorded: its quantity is
    the [Decimal] that the coordinator computes, from which the handler tries
    to subtract a float.  The TypeError, which the client logs, leaves the
    filled quantity raised, but the status, the executions, the commission and
    the waiter of the order as they were, tells the listeners nothing, and
    marks the execution as seen, so that no replay records it either. *)
Theorem compensation_fill_not_recorded (a : Adapter) (h : list OMSOrder) (i : nat) (o : OMSOrder)
    (original : OrderIntent) (orig_leg leg : OrderLeg) (index : Z) (cum : Q) (now : Z)
    (e : Execution) (req : Z) (con : option Z) :
  leg ∈ legs (unwind_intent original orig_leg index cum now) -> o_quantity o = leg_quantity leg ->
  h !! i = Some o -> ex_execId e <> EmptyString ->
  orders_by_tws_id a !! default req (ex_orderId e) = Some i -> 0 < ex_cumQty e ->
  exists a', on_exec_details req con e (a, h)
    = ((a', <[i := set_fill (Qmaxb (filled_quantity o) (ex_cumQty e)) (remaining_quantity o) o]> h),
       Raise TypeError)
    /\ emitted a' = emitted a /\ fill_futures a' = fill_futures a
    /\ seen_exec_ids a' = {[ex_execId e]} ∪ seen_exec_ids a.
Proof.
  intros Hleg Hq Ho Hx Ht Hc.
  assert (Hi : (i < length h)%nat) by (by eapply lookup_lt_Some).
  assert (Hh : h = <[i := o]> h) by (symmetry; by apply list_insert_id).
  assert (exists d, o_quantity o = NDec d) as [d Hd].
  { rewrite Hq. apply list_elem_of_singleton in Hleg as ->. by eexists. }
  assert (Hid : exec_id_of o e = ex_execId e).
  { unfold exec_id_of, str_or. destruct (str_empty (ex_execId e)) eqn:He; [|done].
    by destruct (ex_execId e). }
  replace (a, h) with (a, <[i := o]> h) by (by rewrite <- Hh). unfold on_exec_details.
  rewrite (bind_ok _ _ _ _ _ (resolve_known _ _ _ _ _ _ _ _ Ht)).
  rewrite at_order_deref by done. cbv zeta. rewrite Hid, bind_adapter, bind_change.
  unfold bind at 1, record_quantities. rewrite at_order_deref by done. cbv zeta.
  destruct (Qltb_spec 0 (ex_cumQty e)); [|done]. rewrite at_order_assign by done.
  rewrite Hd. unfold bind, lift. cbn [num_minus]. eexists. split; [reflexivity|]. by split_and!.
Qed.

(** ** Instances *)
Definition ex_exec : Execution := {|
  ex_orderId := Some 1%Z; ex_execId := "0001.01"; ex_side := "BOT"; ex_shares := 10;
  ex_price := FFin 500; ex_permId := 7; ex_cumQty := 10; ex_avgPrice := FFin 500 |}.

Lemma commission_order_irrelevant_witness :
  let exec := CbExecDetails 0 None ex_exec in
  let comm := CbCommissionReport "0001.01" (FFin 1) "USD" None in
  (deliver [exec; comm] (ex_adapter, [ex_order])).2 = (deliver [comm; exec] (ex_adapter, [ex_order])).2.
Proof.
  intros exec comm.
  eapply proj1, (commission_order_irrelevant ex_adapter [ex_order] 0 ex_order 10 ex_exec "BUY"
    (repr_dec 500) 0 None (FFin 1) "USD" None); try reflexivity.
  - discriminate.
  - apply not_elem_of_empty.
  - apply not_elem_of_empty.
Defined.

Lemma replay_changes_nothing_witness :
  let exec := CbExecDetails 0 None ex_exec in
  Forall2 same_books (deliver [exec] (ex_adapter, [ex_order])).2
    (deliver [exec; exec] (ex_adapter, [ex_order])).2.
Proof.
  intros exec.
  eapply proj2, (replay_changes_nothing ex_adapter [ex_order] 0 ex_order 10 ex_exec "BUY" 0 None);
    try reflexivity. discriminate.
Defined.

Definition ex_unwind : OrderIntent :=
  unwind_intent (ex_intent OPEN ex_pair) (ex_leg "SPY" BUY 10 500) 0 10 0.
Definition ex_compensation : OMSOrder :=
  set_ibkr_id 1 (new_order "ORD-7-T1:UNWIND:L0" ex_unwind "SPY" (Some SELL) (NDec (repr_dec 10))
    (Some 500) "MARKET" SUBMITTED None (Some 0%Z) None).

Lemma compensation_fill_not_recorded_witness : exists a',
  on_exec_details 0 None ex_exec (ex_adapter, [ex_compensation])
    = ((a', [set_fill (Qmaxb 0 10) (NDec (repr_dec 10)) ex_compensation]), Raise TypeError)
  /\ emitted a' = [].
Proof.
  destruct (compensation_fill_not_recorded ex_adapter [ex_compensation] 0 ex_compensation
    (ex_intent OPEN ex_pair) (ex_leg "SPY" BUY 10 500) (default (ex_leg "SPY" BUY 10 500) (legs ex_unwind !! O))
    0 10 0 ex_exec 0 None) as (a' & H & He & _); try reflexivity.
  - apply list_elem_of_singleton. reflexivity.
  - discriminate.
  - exists a'. split; [exact H|exact He].
Defined.
