(* ===== verification/Announcements.v ===== *)
(** * Announcements: every fill is told once

    The FILL events that the adapter of [Adapter.v] gives to its listeners,
    which persist the fill and book the position. *)

From S2P Require Import Prelude Rounding PyText PyTime Identifiers RmsModels Instruments Oms Coordinator Adapter AdapterFacts.

#[local] Open Scope Q_scope.
#[local] Open Scope py_scope.
#[local] Set Warnings "-clear-no-such-hyp".

(** ** Announcements *)

(** The order a FILL entry of the events is about. *)
Definition fill_id (h : list OMSOrder) (ev : nat * string) : option string :=
  if (ev.2 =? "FILL")%string then internal_order_id <$> h !! ev.1 else None.
Definition names (h : list OMSOrder) : list string := map internal_order_id h.

(** From [s] to [s']: the orders keep their names, and the FILL events are of
    orders that were not announced before, each once. *)
Record announces (s s' : Broker) : Prop := {
  an_names : names s'.2 = names s.2;
  an_known : fill_event_emitted s.1 ⊆ fill_event_emitted s'.1;
  an_events : exists new, emitted s'.1 = emitted s.1 ++ new /\
    NoDup (omap (fill_id s'.2) new) /\
    forall id, id ∈ omap (fill_id s'.2) new ->
      id ∈ fill_event_emitted s'.1 /\ id ∉ fill_event_emitted s.1
}.

Lemma fill_id_names h h' ev : names h' = names h -> fill_id h' ev = fill_id h ev.
Proof.
  intros H. unfold fill_id. case_match; [|done].
  apply (f_equal (lookup ev.1)) in H. unfold names in H. by rewrite !list_lookup_fmap in H.
Qed.

Lemma fill_ids_names h h' (l : list (nat * string)) : names h' = names h -> omap (fill_id h') l = omap (fill_id h) l.
Proof. intros H. apply list_omap_ext, Forall_Forall2_diag, Forall_true. intros. by apply fill_id_names. Qed.

#[export] Instance announces_preorder : PreOrder announces.
Proof.
  split.
  - intros s. split; [done|done|]. exists []. rewrite app_nil_r. split_and!; [done|constructor|].
    intros id. by rewrite elem_of_nil.
  - intros s1 s2 s3 [N1 K1 (l1 & E1 & D1 & F1)] [N2 K2 (l2 & E2 & D2 & F2)].
    split; [congruence|set_solver|]. exists (l1 ++ l2).
    rewrite omap_app. rewrite (fill_ids_names s2.2 s3.2 l1) by done. split_and!.
    + by rewrite E2, E1, app_assoc.
    + apply NoDup_app. split_and!; [done| |done]. intros id H1 H2.
      apply (F2 id H2), (F1 id H1).
    + intros id [H|H]%elem_of_app; [destruct (F1 id H)|destruct (F2 id H)]; set_solver.
Qed.

Lemma announces_change s f (Q : unit -> Broker -> Prop) :
  emitted (f s.1) = emitted s.1 -> fill_event_emitted (f s.1) = fill_event_emitted s.1 ->
  Q tt (f s.1, s.2) -> bp announces s (change f) Q.
Proof.
  intros He Hf. apply bp_change. split; cbn; [done|by rewrite Hf|].
  exists []. rewrite app_nil_r. split_and!; [done|constructor|]. intros id. by rewrite elem_of_nil.
Qed.

Lemma announces_assign s i f (Q : unit -> Broker -> Prop) :
  (forall o, s.2 !! i = Some o -> internal_order_id (f o) = internal_order_id o) ->
  Q tt (s.1, alter f i s.2) -> bp announces s (assign i f) Q.
Proof.
  intros Hf. apply bp_assign. split; cbn; [|done|].
  - unfold names. apply list_eq. intros j. rewrite !list_lookup_fmap.
    destruct (decide (j = i)) as [->|Hj]; [|by rewrite list_lookup_alter_ne].
    rewrite list_lookup_alter_eq. destruct (s.2 !! i) eqn:E; [|done]. simpl. by rewrite Hf.
  - exists []. rewrite app_nil_r. split_and!; [done|constructor|]. intros id. by rewrite elem_of_nil.
Qed.

Abbreviation all_announce := (fun m => forall s, bp announces s m (fun _ _ => True)).

Ltac ann_step := first
  [ exact I | bp_step
  | lazymatch goal with
    | |- bp _ _ (change _) _ => apply announces_change; [reflexivity..|]
    | |- bp _ _ (assign _ _) _ => apply announces_assign;
        [intros; first [reflexivity | apply so_id, fo_same; eauto with follows]|]
    | |- bp _ _ (match ?x with _ => _ end) _ => destruct x
    end ].
Ltac ann := repeat ann_step.

Lemma ann_emit_quiet i kinds s :
  "FILL"%string ∉ kinds -> bp announces s (emit i kinds) (fun _ _ => True).
Proof.
  intros Hk. apply bp_change; [|done]. split; cbn; [done|done|].
  exists (map (fun k => (i, k)) kinds). split; [done|].
  assert (Hn : omap (fill_id s.2) (map (fun k => (i, k)) kinds) = []).
  { induction kinds as [|k kinds IH]; [done|]. cbn. unfold fill_id at 1. cbn.
    destruct (String.eqb_spec k "FILL") as [->|]; [by destruct Hk; left|].
    apply IH. intros H. apply Hk. by right. }
  rewrite Hn. split; [constructor|]. intros id. by rewrite elem_of_nil.
Qed.

Lemma bp_assoc {A C D} (R : Broker -> Broker -> Prop) s (m : B A) (f : A -> B C) (g : C -> B D)
    (Q : D -> Broker -> Prop) :
  bp R s (bind m (fun x => bind (f x) g)) Q -> bp R s (bind (bind m f) g) Q.
Proof. unfold bp. by rewrite bind_assoc. Qed.

(** The order is filled and was not announced: the event and its mark. *)
Lemma ann_fill i o ack s :
  s.2 !! i = Some o -> "FILL"%string ∉ ack -> internal_order_id o ∉ fill_event_emitted s.1 ->
  bp announces s
    (do! kinds := (change (fun a => with_events (broker_acked a)
         ({[internal_order_id o]} ∪ fill_event_emitted s.1) (partial_qty_emitted a) (emitted a) a) ;;;
       ret (ack ++ ["FILL"%string])) in emit i kinds) (fun _ _ => True).
Proof.
  intros Ho Hack Hn. split; [|done]. split; cbn; [done|set_solver|].
  exists (map (fun k => (i, k)) (ack ++ ["FILL"%string])). split; [done|].
  assert (Ha : omap (fill_id s.2) (map (fun k => (i, k)) ack) = []).
  { clear Hn. induction ack as [|k kinds IH]; [done|]. cbn. unfold fill_id at 1. cbn.
    destruct (String.eqb_spec k "FILL") as [->|]; [by destruct Hack; left|].
    apply IH. intros H. apply Hack. by right. }
  rewrite map_app, omap_app, Ha. cbn. rewrite Ho. cbn. split.
  - apply NoDup_singleton.
  - intros id Hid%list_elem_of_singleton. subst id. set_solver.
Qed.

Lemma ann_announce i source is_new : all_announce (announce i source is_new).
Proof.
  intros s. unfold announce. apply bp_bind; [apply _|].
  eapply (bp_mono _ _ _ (fun _ _ => True)); [unfold notify_future_if_terminal; ann|].
  intros _ s1 _. unfold callback_event_kinds, maybe_broker_ack. apply bp_assoc.
  bp_step. apply bp_deref; [apply _|]. intros o Ho. apply bp_assoc.
  apply bp_bind; [apply _|].
  eapply (bp_mono _ _ _ (fun ack s2 => ("FILL"%string ∉ ack) /\ s2.2 !! i = Some o)).
  { bp_step. bp_step. case_match.
    - bp_step. split; [apply not_elem_of_nil|exact Ho].
    - ann. split; [|exact Ho]. by intros ?%list_elem_of_singleton. }
  intros ack s2 [Hack Ho2]. cbv zeta.
  destruct (o_status o); try by (apply bp_bind; [apply _|]; bp_step; apply ann_emit_quiet).
  - apply bp_bind; [apply _|].
    eapply (bp_mono _ _ _ (fun kinds _ => "FILL"%string ∉ kinds)); [|by intros; apply ann_emit_quiet].
    assert (Hp : "FILL"%string ∉ ack ++ ["PARTIAL_FILL"%string])
      by (rewrite elem_of_app, list_elem_of_singleton; by intros [|]).
    destruct source, (o_executions o), is_new; ann; rewrite ?app_nil_r; try done.
  - apply bp_assoc. do 2 bp_step. case_match eqn:Hd; [|bool_to_prop; by apply ann_fill].
    apply bp_bind; [apply _|]. bp_step. by apply ann_emit_quiet.
Qed.

Lemma ann_bind i tws : all_announce (bind_tws_id i tws).
Proof. intros s. unfold bind_tws_id. ann. Qed.

Lemma ann_bound i tws : all_announce (bind_tws_id i tws ;;; ret (Some i)).
Proof. intros s. bp_seq; [apply ann_bind|]. intros. ann. Qed.

Lemma ann_resolve tws perm con side qty :
  all_announce (resolve_order_for_tws_callback tws perm con side qty).
Proof.
  intros s. unfold resolve_order_for_tws_callback. ann.
  split; [reflexivity|]. cbn [fst snd]. case_match; [apply ann_bound|]. ann.
  unfold candidates_of. apply bp_bind; [apply _|]. split; [reflexivity|].
  cbn [fst snd unmapped_adopted_orders].
  eapply bp_mono; [apply bp_loop; [apply _|]; intros; ann|]. intros l s' _.
  destruct l as [|i [|? ?]]; [by ann|apply ann_bound|by ann].
Qed.

Lemma ann_quiet_whatif id r : all_announce (resolve_whatif id r).
Proof. intros s. unfold resolve_whatif. apply announces_change; [by case_match..|done]. Qed.

Lemma ann_each f : (forall o, follows o (f o)) -> all_announce (each_order f).
Proof.
  intros Hf s. unfold each_order. do 2 bp_step. apply bp_loop; [apply _|].
  intros c i s'. apply announces_assign; [|done]. intros o _. apply so_id, fo_same, Hf.
Qed.

Lemma ann_order_status id st f r av perm la : all_announce (on_order_status id st f r av perm la).
Proof.
  intros s. bp_seq; [apply ann_resolve|]. intros [i|] s'; [|by ann].
  ann; apply ann_announce.
Qed.

Lemma ann_open_order id con act q p perm st : all_announce (on_open_order id con act q p perm st).
Proof.
  intros s. unfold on_open_order. do 2 bp_step.
  case_match; [apply ann_quiet_whatif|]. case_match; [by ann|].
  bp_seq; [apply ann_resolve|]. intros [i|] s'; [|by ann].
  ann; apply ann_announce.
Qed.

Lemma ann_quantities i e is_new : all_announce (record_quantities i e is_new).
Proof. intros s. unfold record_quantities. ann. Qed.

Lemma ann_record i x side sh pr perm : all_announce (record_execution i x side sh pr perm).
Proof.
  intros s. unfold record_execution. bp_step. bp_step. bp_seq; [intros; ann|].
  intros _ s'. apply announces_assign; [|done]. intros o _. cbv zeta. by case_match.
Qed.

Lemma ann_exec_details req con e : all_announce (on_exec_details req con e).
Proof.
  intros s. bp_seq; [apply ann_resolve|]. intros [i|] s'; [|by ann].
  repeat bp_step. apply announces_change; [reflexivity..|].
  bp_seq; [apply ann_quantities|]. intros _ s2.
  bp_step. apply announces_assign; [done|]. bp_step. apply announces_assign.
  { intros o0 _. by repeat case_match. }
  do 4 bp_step. bp_seq; [intros; ann|]. intros _ s3. bp_seq; [|intros; apply ann_announce].
  intros s4. clear. destruct (usable_price (ex_price e) None); [|by ann].
  case_match; [apply ann_record|by ann].
Qed.

Lemma ann_commission x c cur pnl : all_announce (on_commission_report x c cur pnl).
Proof.
  intros s. unfold on_commission_report. ann. apply ann_emit_quiet.
  by intros ?%list_elem_of_singleton.
Qed.

Lemma ann_error req code msg : all_announce (on_error req code msg).
Proof.
  intros s. unfold on_error. do 2 bp_step. case_match; [apply ann_quiet_whatif|].
  do 2 bp_step. case_match; [|by ann]. do 2 bp_step.
  match goal with H : s.2 !! ?i = Some ?o |- _ => rename o into o0; rename H into Ho end.
  assert (Hq : forall st, "FILL"%string ∉ [status_value st])
    by (intros st ?%list_elem_of_singleton; by destruct st).
  assert (Ha : forall o', attach_tws_error_message code msg o0 = Some o' ->
    forall k : B unit, all_announce k -> bp announces s (assign n (fun _ => o') ;;; k) (fun _ _ => True)).
  { intros o' Ho' k Hk. bp_step. apply announces_assign; [|apply Hk].
    intros o Ho2. rewrite Ho in Ho2. injection Ho2 as <-.
    by eapply so_id, fo_same, follows_attached. }
  destruct (attach_tws_error_message code msg o0) as [o'|] eqn:Ea.
  - case_match; [by apply Ha; [|intros; apply ann_emit_quiet]|]. case_match; [by ann|].
    apply Ha; [done|]. intros s'. bp_seq; [|intros; by apply ann_emit_quiet].
    intros s2. unfold notify_future_if_terminal. ann.
  - repeat case_match; by ann.
Qed.

Lemma ann_handle c : all_announce (handle c).
Proof.
  destruct c; simpl.
  - apply ann_order_status.
  - apply ann_open_order.
  - apply ann_exec_details.
  - apply ann_commission.
  - intros s. case_match; [by ann|apply ann_error].
  - intros s. unfold set_client. do 2 ann_step. apply ann_each, follows_park.
  - apply ann_each, follows_unpark.
  - intros s. unfold set_client. by ann.
  - intros s. unfold set_client. by ann.
Qed.

Lemma deliver_announces l s : announces s (deliver l s).
Proof.
  revert s. induction l as [|c l IH]; intros s; simpl; [reflexivity|].
  etrans; [apply (ann_handle c s)|apply IH].
Qed.

(** C10: an order is announced as filled at most once: from an adapter that
    has told its listeners nothing, no sequence of callbacks -- replayed and
    reordered reports, reconnections and late fills included -- gives two
    FILL events of one order. *)
Theorem fill_announced_once (s : Broker) (l : list Callback) :
  emitted s.1 = [] -> NoDup (omap (fill_id (deliver l s).2) (emitted (deliver l s).1)).
Proof.
  intros He. destruct (deliver_announces l s) as [_ _ (new & -> & Hn & _)]. by rewrite He.
Qed.

Lemma fill_announced_once_witness :
  NoDup (omap (fill_id (deliver [ex_filled; CbConnectionClosed; CbConnectionRestored; ex_filled]
                          (ex_adapter, [ex_order])).2)
           (emitted (deliver [ex_filled; CbConnectionClosed; CbConnectionRestored; ex_filled]
                       (ex_adapter, [ex_order])).1)).
Proof. apply fill_announced_once. reflexivity. Defined.
