(* ===== verification/Claims.v ===== *)
(** * The execution barrier: [db/repositories/execution_claim_repository.py]
    and [db/models/execution_claim.py]

    The table [execution_claims] as a finite map from its unique
    [dedupe_key]; every operation is one transaction.  The orders a signal has
    written to the ledger are counted by a function of the ledger. *)

From S2P Require Import Prelude Rounding PyText PyTime Identifiers RmsModels.

#[local] Open Scope Z_scope.
#[local] Set Warnings "-clear-no-such-hyp".

Inductive ClaimState : Type := CL_CLAIMED | CL_EXECUTED | CL_ABANDONED.
#[global] Instance ClaimState_eq_dec : EqDecision ClaimState.
Proof. solve_decision. Defined.

Record ExecutionClaim : Type := {
  cl_account_id : option Z;
  cl_strategy_id : string;
  cl_signal_id : string;
  cl_action : string;
  cl_state : ClaimState;
  cl_attempt_count : Z;
  cl_correlation_id : option string;
  cl_last_note : option string;
  cl_claimed_at : Z;
  cl_executed_at : option Z
}.
Abbreviation ClaimTable := (gmap string ExecutionClaim).

(** The exceptions of a refused claim. *)
Inductive Refusal : Type :=
  | DuplicateExecutionError | ExecutionInFlightError | ClaimNeedsReconciliationError.
#[global] Instance Refusal_eq_dec : EqDecision Refusal.
Proof. solve_decision. Defined.

(** The key of the barrier. *)
Definition dedupe_account (a : option Z) : string :=
  match a with Some a => str_Z a | None => "-" end.
Definition execution_dedupe_key (intent : OrderIntent) : string :=
  (dedupe_account (account_id intent) ++ ":" ++ strategy_id intent ++ ":" ++ signal_id intent)%string.

(** What a caller claims. *)
Record ClaimRequest : Type := {
  cq_key : string;
  cq_account_id : option Z;
  cq_strategy_id : string;
  cq_signal_id : string;
  cq_action : string;
  cq_correlation_id : option string;
  cq_stale_after : Q
}.

Definition fresh_claim (now : Z) (q : ClaimRequest) : ExecutionClaim := {|
  cl_account_id := cq_account_id q; cl_strategy_id := cq_strategy_id q;
  cl_signal_id := cq_signal_id q; cl_action := cq_action q; cl_state := CL_CLAIMED;
  cl_attempt_count := 1; cl_correlation_id := cq_correlation_id q; cl_last_note := None;
  cl_claimed_at := now; cl_executed_at := None |}.

(** The conflict arm of the insert. *)
Definition retake_claim (now : Z) (q : ClaimRequest) (c : ExecutionClaim) : ExecutionClaim := {|
  cl_account_id := cl_account_id c; cl_strategy_id := cl_strategy_id c;
  cl_signal_id := cl_signal_id c; cl_action := cl_action c; cl_state := CL_CLAIMED;
  cl_attempt_count := cl_attempt_count c + 1; cl_correlation_id := cq_correlation_id q;
  cl_last_note := None; cl_claimed_at := now; cl_executed_at := cl_executed_at c |}.

(** Why an existing claim is not given. *)
Definition diagnose (now : Z) (stale_after : Q) (c : ExecutionClaim) : Refusal :=
  match cl_state c with
  | CL_EXECUTED => DuplicateExecutionError
  | _ => if (total_seconds (now - cl_claimed_at c) <? stale_after)%Q
         then ExecutionInFlightError else ClaimNeedsReconciliationError
  end.

Definition acquire (now : Z) (q : ClaimRequest) (t : ClaimTable)
    : ClaimTable * (ExecutionClaim + Refusal) :=
  match t !! cq_key q with
  | None => let c := fresh_claim now q in (<[cq_key q := c]> t, inl c)
  | Some old =>
      match cl_state old with
      | CL_ABANDONED => let c := retake_claim now q old in (<[cq_key q := c]> t, inl c)
      | _ => (t, inr (diagnose now (cq_stale_after q) old))
      end
  end.

(** Updates guarded by the state CLAIMED, and whether a row was updated. *)
Definition settle (s : ClaimState) (executed_at : option Z) (note : option string)
    (c : ExecutionClaim) : ExecutionClaim := {|
  cl_account_id := cl_account_id c; cl_strategy_id := cl_strategy_id c;
  cl_signal_id := cl_signal_id c; cl_action := cl_action c; cl_state := s;
  cl_attempt_count := cl_attempt_count c; cl_correlation_id := cl_correlation_id c;
  cl_last_note := note; cl_claimed_at := cl_claimed_at c;
  cl_executed_at := match executed_at with Some t => Some t | None => cl_executed_at c end |}.
Definition is_claimed (c : ExecutionClaim) : bool := bool_decide (cl_state c = CL_CLAIMED).
Definition update_claimed (key : string) (f : ExecutionClaim -> ExecutionClaim) (t : ClaimTable)
    : ClaimTable * bool :=
  match t !! key with
  | Some c => if is_claimed c then (<[key := f c]> t, true) else (t, false)
  | None => (t, false)
  end.

Definition mark_executed (now : Z) (key : string) (note : option string) (t : ClaimTable)
    : ClaimTable * bool :=
  update_claimed key (settle CL_EXECUTED (Some now) note) t.
Definition release (key : string) (note : option string) (t : ClaimTable) : ClaimTable * bool :=
  update_claimed key (settle CL_ABANDONED None note) t.

Definition has_claimed (strategy signal : string) (t : ClaimTable) : bool :=
  existsb (fun kc => String.eqb (cl_strategy_id kc.2) strategy
                     && String.eqb (cl_signal_id kc.2) signal && is_claimed kc.2) (map_to_list t).

Section Reconcile.
(** [count_orders_emitted]: the rows of the ledger for a strategy's signal. *)
Variable count_orders_emitted : string -> string -> Z.

Definition seal_note (emitted : Z) : option string :=
  Some ("Sealed by reconciliation: " ++ str_Z emitted ++ " order(s) already emitted.")%string.
Definition reconcile_step (now : Z) (st : ClaimTable * Z) (kc : string * ExecutionClaim)
    : ClaimTable * Z :=
  let (t, sealed) := st in
  let emitted := count_orders_emitted (cl_strategy_id kc.2) (cl_signal_id kc.2) in
  if emitted =? 0 then (t, sealed)
  else ((mark_executed now kc.1 (seal_note emitted) t).1, sealed + 1).
Definition is_stale_claim (cutoff : Z) (kc : string * ExecutionClaim) : bool :=
  is_claimed kc.2 && (cl_claimed_at kc.2 <? cutoff).
(** The sealed claims are counted; nothing is ever released. *)
Definition reconcile_stale_claims (now : Z) (stale_after : Q) (t : ClaimTable) : ClaimTable * Z :=
  let cutoff := now - timedelta_seconds stale_after in
  fold_left (reconcile_step now) (List.filter (is_stale_claim cutoff) (map_to_list t)) (t, 0).
End Reconcile.

(** ** Runs of the program's operations on the table *)
Inductive ClaimOp : Type :=
  | OpAcquire (now : Z) (q : ClaimRequest)
  | OpSeal (now : Z) (key : string) (note : option string)
  | OpRelease (key : string) (note : option string)
  | OpReconcile (count : string -> string -> Z) (now : Z) (stale_after : Q).

(** The table afterwards, and the keys that were acquired and released. *)
Definition claim_op (t : ClaimTable) (op : ClaimOp) : ClaimTable * (list string * list string) :=
  match op with
  | OpAcquire now q =>
      let (t, r) := acquire now q t in
      (t, (match r with inl _ => [cq_key q] | inr _ => [] end, []))
  | OpSeal now key note => ((mark_executed now key note t).1, ([], []))
  | OpRelease key note =>
      let (t, done) := release key note t in (t, ([], if done then [key] else []))
  | OpReconcile count now stale => ((reconcile_stale_claims count now stale t).1, ([], []))
  end.
Fixpoint claim_run (ops : list ClaimOp) (t : ClaimTable) : ClaimTable * (list string * list string) :=
  match ops with
  | [] => (t, ([], []))
  | op :: ops =>
      let (t, ar) := claim_op t op in
      let (t, ar') := claim_run ops t in
      (t, (ar.1 ++ ar'.1, ar.2 ++ ar'.2))
  end.
Definition acquired (ops : list ClaimOp) (t : ClaimTable) : list string := (claim_run ops t).2.1.
Definition released (ops : list ClaimOp) (t : ClaimTable) : list string := (claim_run ops t).2.2.
(** No caller of the program releases a claim. *)
Definition no_release (ops : list ClaimOp) : Prop := forall key note, OpRelease key note ∉ ops.
Definition times (key : string) (l : list string) : nat :=
  length (List.filter (String.eqb key) l).

(** A claim is free when it may be given: it does not exist or was abandoned. *)
Definition free (key : string) (t : ClaimTable) : nat :=
  match t !! key with
  | None => 1
  | Some c => match cl_state c with CL_ABANDONED => 1 | _ => 0 end
  end.

(** ** Lemmas *)
Lemma update_claimed_lookup (key : string) (f : ExecutionClaim -> ExecutionClaim) (t : ClaimTable)
    (k : string) :
  (update_claimed key f t).1 !! k =
    match t !! k with
    | Some c => if bool_decide (k = key) && is_claimed c then Some (f c) else Some c
    | None => None
    end.
Proof.
  unfold update_claimed. destruct (t !! key) as [c|] eqn:E; [destruct (is_claimed c) eqn:C|]; simpl.
  - destruct (decide (k = key)) as [->|N].
    + by rewrite lookup_insert_eq, E, bool_decide_true, C.
    + rewrite lookup_insert_ne, bool_decide_false by done. by destruct (t !! k).
  - destruct (decide (k = key)) as [->|N].
    + by rewrite E, C, andb_false_r.
    + rewrite bool_decide_false by done. by destruct (t !! k).
  - destruct (t !! k) as [c|] eqn:E'; [|done]. rewrite bool_decide_false; [done|congruence].
Qed.

(** What an operation other than an acquisition or a release may do to a
    claim: nothing, or seal it while it is held. *)
Definition sealed_from (o o' : option ExecutionClaim) : Prop :=
  o' = o \/ exists c now note, o = Some c /\ cl_state c = CL_CLAIMED
                               /\ o' = Some (settle CL_EXECUTED (Some now) note c).
Lemma sealed_from_executed (o o' : option ExecutionClaim) (c : ExecutionClaim) :
  sealed_from o o' -> o = Some c -> cl_state c = CL_EXECUTED -> o' = Some c.
Proof. intros [->|(c' & ? & ? & -> & Hc & ->)] E X; congruence. Qed.

Lemma mark_executed_sealed (now : Z) (key : string) (note : option string) (t : ClaimTable)
    (k : string) :
  sealed_from (t !! k) ((mark_executed now key note t).1 !! k).
Proof.
  unfold mark_executed. rewrite update_claimed_lookup. destruct (t !! k) as [c|]; [|by left].
  destruct (bool_decide (k = key) && is_claimed c) eqn:E; [|by left].
  right. unfold is_claimed in E. bool_to_prop. by exists c, now, note.
Qed.

Lemma reconcile_sealed (count : string -> string -> Z) (now : Z) (stale : Q) (t : ClaimTable)
    (k : string) :
  sealed_from (t !! k) ((reconcile_stale_claims count now stale t).1 !! k).
Proof.
  unfold reconcile_stale_claims.
  generalize (List.filter (is_stale_claim (now - timedelta_seconds stale)) (map_to_list t)), 0.
  intros l n. revert t n. induction l as [|kc l IH]; intros t n; simpl; [by left|].
  destruct (_ =? 0); [apply IH|].
  remember (mark_executed now kc.1 (seal_note (count (cl_strategy_id kc.2) (cl_signal_id kc.2))) t).1
    as t1 eqn:T. specialize (IH t1 (n + 1)).
  destruct (mark_executed_sealed now kc.1
    (seal_note (count (cl_strategy_id kc.2) (cl_signal_id kc.2))) t k) as [E|(c & m & s & E & Hc & E')];
    rewrite <- T in *.
  - by rewrite <- E.
  - right. exists c, m, s. split_and!; [done|done|]. by eapply sealed_from_executed.
Qed.

Lemma free_sealed (k : string) (t t' : ClaimTable) :
  sealed_from (t !! k) (t' !! k) -> (free k t' <= free k t)%nat.
Proof.
  unfold free. intros [->|(c & now & note & -> & -> & ->)]; [done|]. simpl. lia.
Qed.

Lemma times_app (k : string) (l l' : list string) : times k (l ++ l') = (times k l + times k l')%nat.
Proof. unfold times. by rewrite List.filter_app, length_app. Qed.
Lemma times_one (k k' : string) : times k [k'] = if (k =? k')%string then 1%nat else 0%nat.
Proof. unfold times. simpl. by destruct (k =? k')%string. Qed.

(** One operation: what it gives away was free before, and what is free
    afterwards was free or has been released. *)
Lemma claim_op_budget (t : ClaimTable) (op : ClaimOp) (k : string) :
  let (t', ar) := claim_op t op in
  (times k ar.1 + free k t' <= free k t + times k ar.2)%nat.
Proof.
  destruct op as [now q|now key note|key note|count now stale]; simpl.
  - unfold acquire. destruct (t !! cq_key q) as [c|] eqn:E; [destruct (cl_state c) eqn:S|]; simpl;
      rewrite ?times_one; unfold free; try lia;
      destruct (String.eqb_spec k (cq_key q)) as [->|N];
      rewrite ?lookup_insert_eq, ?(lookup_insert_ne _ (cq_key q) k) by congruence;
      rewrite ?E, ?S; simpl; unfold times; simpl; lia.
  - pose proof (free_sealed k t _ (mark_executed_sealed now key note t k)). simpl. lia.
  - unfold release. pose proof (update_claimed_lookup key (settle CL_ABANDONED None note) t k) as L.
    unfold update_claimed in *. destruct (t !! key) as [c|] eqn:E; [destruct (is_claimed c) eqn:C|];
      simpl in *; rewrite ?times_one; unfold free, times; simpl; try lia.
    rewrite L. destruct (String.eqb_spec k key) as [->|N].
    + rewrite E, bool_decide_true, C by done. simpl. destruct (cl_state c); lia.
    + rewrite bool_decide_false by done. simpl. destruct (t !! k); lia.
  - pose proof (free_sealed k t _ (reconcile_sealed count now stale t k)). simpl. lia.
Qed.

Lemma claim_run_budget (ops : list ClaimOp) (t : ClaimTable) (k : string) :
  (times k (acquired ops t) + free k (claim_run ops t).1 <= free k t + times k (released ops t))%nat.
Proof.
  unfold acquired, released. revert t. induction ops as [|op ops IH]; intros t; simpl; [lia|].
  pose proof (claim_op_budget t op k) as H. destruct (claim_op t op) as [t1 ar]. specialize (IH t1).
  destruct (claim_run ops t1) as [t2 ar']. simpl in *. rewrite !times_app. lia.
Qed.

Lemma released_nothing (ops : list ClaimOp) (t : ClaimTable) :
  no_release ops -> released ops t = [].
Proof.
  unfold released. revert t. induction ops as [|op ops IH]; intros t N; simpl; [done|].
  destruct (claim_op t op) as [t1 ar] eqn:O. 
  assert (N' : no_release ops) by (intros key note H; apply (N key note); by right).
  specialize (IH t1 N').
  destruct (claim_run ops t1) as [t2 ar']. simpl in *. rewrite IH, app_nil_r.
  destruct op as [| |key note|]; simpl in O; repeat case_match; simplify_eq; simpl; try done.
  destruct (N key note). by left.
Qed.

(** C11: However acquisitions, seals, releases and sweeps are ordered, an
    intent is given to an executor at most as often as its claim was free or
    has been released.  The program never releases a claim: every intent is
    executed at most once, and never again after it was sealed. *)
Theorem executed_at_most_once (ops : list ClaimOp) (t : ClaimTable) (k : string) :
  (times k (acquired ops t) <= free k t + times k (released ops t))%nat
  /\ (no_release ops -> (times k (acquired ops t) <= 1)%nat)
  /\ (no_release ops -> forall c, t !! k = Some c -> cl_state c = CL_EXECUTED ->
      times k (acquired ops t) = 0%nat).
Proof.
  pose proof (claim_run_budget ops t k) as B.
  assert (F : (free k t <= 1)%nat) by (unfold free; repeat case_match; lia).
  split_and!; [lia|intros N|intros N c E X]; rewrite (released_nothing ops t N) in B;
    unfold times in B at 2; simpl in B; [lia|].
  unfold free in B at 2. rewrite E, X in B. lia.
Qed.

Definition colon : Ascii.ascii := ":"%char.

(** Two intents share the key of the barrier exactly when they are of the
    same account, strategy and signal, for strategy ids without a colon. *)
Theorem dedupe_key_exact (i j : OrderIntent) :
  has_char colon (strategy_id i) = false -> has_char colon (strategy_id j) = false ->
  execution_dedupe_key i = execution_dedupe_key j <->
  account_id i = account_id j /\ strategy_id i = strategy_id j /\ signal_id i = signal_id j.
Proof.
  intros Hi Hj. unfold execution_dedupe_key. split; [|by intros (-> & -> & ->)].
  assert (D : forall a, has_char colon (dedupe_account a) = false)
    by (intros [a|]; [by apply str_Z_no_char|done]).
  intros E. apply (separated_inj colon) in E as [Ea E]; [|apply D..].
  apply (separated_inj colon) in E as [Es E]; [|done..]. split_and!; [|done..].
  destruct (account_id i) as [a|], (account_id j) as [b|]; simpl in Ea; [f_equal; by apply str_Z_inj| | |done].
  - by apply str_Z_not_dash in Ea.
  - symmetry in Ea. by apply str_Z_not_dash in Ea.
Qed.

(** The barrier's key, unlike the key of the duplicate check it mirrors, does
    not normalise: two intents of the same signal can hold both claims. *)
Definition ex_mixed_case : OrderIntent := {|
  signal_id := "T1"; strategy_id := "Model_Blue"; action := OPEN; legs := ex_pair;
  account_id := Some 7; ibkr_account := None; market := None; timestamp := 0;
  intent_mode := MODE_OPEN |}.
Definition ex_lower_case : OrderIntent := {|
  signal_id := "T1"; strategy_id := "model_blue"; action := OPEN; legs := ex_pair;
  account_id := Some 7; ibkr_account := None; market := None; timestamp := 0;
  intent_mode := MODE_OPEN |}.
(** Two intents that are duplicates for the risk check can carry
    different keys of the barrier. *)
Theorem dedupe_key_not_normalised :
  duplicate_lookup_key ex_mixed_case = duplicate_lookup_key ex_lower_case
  /\ execution_dedupe_key ex_mixed_case <> execution_dedupe_key ex_lower_case.
Proof. split; [by vm_compute|]. by vm_compute. Qed.

(** What [acquire] answers and leaves, on every branch: the claim is
    given exactly when there is none or it was abandoned; otherwise the table
    is untouched and the refusal tells an executed claim from one held for
    less than the limit and one held longer. *)
Theorem acquire_exact (now : Z) (q : ClaimRequest) (t : ClaimTable) :
  let (t', r) := acquire now q t in
  match t !! cq_key q with
  | None => r = inl (fresh_claim now q) /\ t' = <[cq_key q := fresh_claim now q]> t
  | Some c =>
      match cl_state c with
      | CL_ABANDONED => r = inl (retake_claim now q c) /\ t' = <[cq_key q := retake_claim now q c]> t
      | CL_EXECUTED => r = inr DuplicateExecutionError /\ t' = t
      | CL_CLAIMED =>
          t' = t /\ ((total_seconds (now - cl_claimed_at c) < cq_stale_after q)%Q
                     /\ r = inr ExecutionInFlightError
                     \/ (cq_stale_after q <= total_seconds (now - cl_claimed_at c))%Q
                        /\ r = inr ClaimNeedsReconciliationError)
      end
  end.
Proof.
  unfold acquire, diagnose. destruct (t !! cq_key q) as [c|]; [|done].
  destruct (cl_state c); try done. split; [done|].
  destruct (Qltb_spec (total_seconds (now - cl_claimed_at c)) (cq_stale_after q)); [by left|].
  right. split; [lra|done].
Qed.

Lemma dedupe_key_exact_witness :
  execution_dedupe_key ex_mixed_case = "7:Model_Blue:T1"%string
  /\ ~ (account_id ex_mixed_case = account_id ex_lower_case
        /\ strategy_id ex_mixed_case = strategy_id ex_lower_case
        /\ signal_id ex_mixed_case = signal_id ex_lower_case).
Proof.
  split; [by vm_compute|].
  intros H. apply (dedupe_key_exact ex_mixed_case ex_lower_case) in H; by vm_compute in H || by vm_compute.
Defined.
