(* ===== verification/Sha256.v ===== *)
(** * SHA-256 of a text, as [hashlib.sha256(s.encode("utf-8")).hexdigest()]

    Words are integers modulo 2^32; texts are ASCII, so that their encoding is
    one byte per character. *)

From S2P Require Import Prelude PyText.

#[local] Open Scope Z_scope.

Definition w32 (x : Z) : Z := Z.land x 4294967295.
Definition add32 (x y : Z) : Z := w32 (x + y).
Definition rotr (n x : Z) : Z := w32 (Z.lor (Z.shiftr x n) (Z.shiftl x (32 - n))).
Definition lnot32 (x : Z) : Z := Z.lxor x 4294967295.
Definition xor3 (x y z : Z) : Z := Z.lxor x (Z.lxor y z).

Definition big_sigma0 (x : Z) : Z := xor3 (rotr 2 x) (rotr 13 x) (rotr 22 x).
Definition big_sigma1 (x : Z) : Z := xor3 (rotr 6 x) (rotr 11 x) (rotr 25 x).
Definition small_sigma0 (x : Z) : Z := xor3 (rotr 7 x) (rotr 18 x) (Z.shiftr x 3).
Definition small_sigma1 (x : Z) : Z := xor3 (rotr 17 x) (rotr 19 x) (Z.shiftr x 10).
Definition choose (x y z : Z) : Z := Z.lxor (Z.land x y) (Z.land (lnot32 x) z).
Definition majority (x y z : Z) : Z := xor3 (Z.land x y) (Z.land x z) (Z.land y z).

Definition round_constants : list Z := [
  1116352408; 1899447441; 3049323471; 3921009573; 961987163; 1508970993; 2453635748; 2870763221;
  3624381080; 310598401; 607225278; 1426881987; 1925078388; 2162078206; 2614888103; 3248222580;
  3835390401; 4022224774; 264347078; 604807628; 770255983; 1249150122; 1555081692; 1996064986;
  2554220882; 2821834349; 2952996808; 3210313671; 3336571891; 3584528711; 113926993; 338241895;
  666307205; 773529912; 1294757372; 1396182291; 1695183700; 1986661051; 2177026350; 2456956037;
  2730485921; 2820302411; 3259730800; 3345764771; 3516065817; 3600352804; 4094571909; 275423344;
  430227734; 506948616; 659060556; 883997877; 958139571; 1322822218; 1537002063; 1747873779;
  1955562222; 2024104815; 2227730452; 2361852424; 2428436474; 2756734187; 3204031479; 3329325298].
Definition initial_hash : list Z := [
  1779033703; 3144134277; 1013904242; 2773480762; 1359893119; 2600822924; 528734635; 1541459225].

(** The message padded with a one bit, zeros and its length in bits. *)
Definition byte_of (c : Ascii.ascii) : Z := Z.of_N (Ascii.N_of_ascii c).
Definition be_bytes (n : nat) (x : Z) : list Z :=
  map (fun i => Z.land (Z.shiftr x (8 * Z.of_nat i)) 255) (rev (List.seq 0 n)).
Definition padded (s : string) : list Z :=
  let m := map byte_of (chars s) in
  let zeros := Z.to_nat ((55 - Z.of_nat (length m)) mod 64) in
  m ++ [128] ++ repeat 0 zeros ++ be_bytes 8 (8 * Z.of_nat (length m)).

Fixpoint words (l : list Z) : list Z :=
  match l with
  | a :: b :: c :: d :: l => (a * 16777216 + b * 65536 + c * 256 + d) :: words l
  | _ => []
  end.

(** The message schedule: the last sixteen words, latest first, are carried. *)
Fixpoint schedule (n : nat) (recent : list Z) : list Z :=
  match n with
  | O => []
  | S n =>
      let w i := nth i recent 0 in
      let x := w32 (small_sigma1 (w 1%nat) + w 6%nat + small_sigma0 (w 14%nat) + w 15%nat) in
      x :: schedule n (x :: removelast recent)
  end.
Definition message_schedule (block : list Z) : list Z := block ++ schedule 48 (rev block).

Definition round_step (st : list Z) (kw : Z * Z) : list Z :=
  match st with
  | [a; b; c; d; e; f; g; h] =>
      let t1 := w32 (h + big_sigma1 e + choose e f g + kw.1 + kw.2) in
      let t2 := add32 (big_sigma0 a) (majority a b c) in
      [add32 t1 t2; a; b; c; add32 d t1; e; f; g]
  | _ => st
  end.
Definition compress (h : list Z) (block : list Z) : list Z :=
  zip_with add32 h (fold_left round_step (zip round_constants (message_schedule block)) h).
Fixpoint blocks (fuel : nat) (l : list Z) : list (list Z) :=
  match fuel with
  | O => []
  | S fuel => match l with [] => [] | _ => firstn 16 l :: blocks fuel (skipn 16 l) end
  end.

Definition hex_digit (d : Z) : Ascii.ascii :=
  if d <? 10 then digit_char d else Ascii.ascii_of_N (Z.to_N (d + 87)).
Definition hex8 (x : Z) : string :=
  of_chars (map (fun i => hex_digit (Z.land (Z.shiftr x (4 * Z.of_nat i)) 15)) (rev (List.seq 0 8))).
Definition sha256_hex (s : string) : string :=
  let ws := words (padded s) in
  String.concat EmptyString (map hex8 (fold_left compress (blocks (length ws) ws) initial_hash)).

Example sha256_abc :
  sha256_hex "abc" = "ba7816bf8f01cfea414140de5dae2223b00361a396177a9cb410ff61f20015ad"%string.
Proof. by vm_compute. Qed.
Example sha256_two_blocks :
  sha256_hex "abcdbcdecdefdefgefghfghighijhijkijkljklmklmnlmnomnopnopq"
  = "248d6a61d20638b8e5c026930c3e6039a33ce45964ff2167f6ecedd419db06c1"%string.
Proof. by vm_compute. Qed.
