(* ===== verification/JobQueue.v ===== *)
(** * The durable job queue: [SignalJobRepository] of
    [db/repositories/signal_repository.py] and [db/models/signal.py], the
    ingestion of [api/routes/webhooks.py] and [services/worker_pool.py], and
    the job loop of [services/recovery.py]

    The tables [signal_jobs], [signals], [orders] and [execution_claims]; each
    operation is what one transaction does to them.  How transactions of
    several workers interleave is the subject of [QueueConcurrency.v].  Of an
    order only its reference to a signal matters. *)

From S2P Require Import Prelude Rounding PyText PyTime Identifiers RmsModels Claims Sha256.

#[local] Open Scope Z_scope.
#[local] Set Warnings "-clear-no-such-hyp".

Inductive JobStatus : Type :=
  | JOB_RECEIVED | JOB_QUEUED | JOB_CLAIMED | JOB_PROCESSING | JOB_COMPLETED | JOB_REJECTED
  | JOB_FAILED | JOB_RECOVERY_REQUIRED | JOB_DEAD_LETTER | JOB_DEFERRED_RED_ZONE.
#[global] Instance JobStatus_eq_dec : EqDecision JobStatus.
Proof. solve_decision. Defined.

Definition ACTIVE_LEASE_STATUSES : list JobStatus := [JOB_CLAIMED; JOB_PROCESSING].
Definition CLAIMABLE_STATUSES : list JobStatus := [JOB_QUEUED; JOB_RECEIVED].

(** The columns a deferral writes. *)
Record Deferral : Type := {
  df_deferred_at : Z;
  df_reason : string;
  df_reference_price : option pydec;
  df_resolved_session_close : option Z;
  df_applied_buffer_seconds : Z;
  df_session_count : Z
}.

Record SignalJob : Type := {
  j_id : Z;
  j_signal_id : string;
  j_strategy_id : string;
  j_trade_id : option string;
  j_status : JobStatus;
  j_idempotency_key : string;
  j_account_scope : option string;
  j_raw_payload : json;
  j_capture_data : option json;
  j_correlation_id : string;
  j_attempt_count : Z;
  j_max_attempts : Z;
  j_worker_id : option string;
  j_lease_expires_at : option Z;
  j_last_error : option string;
  j_received_at : Z;
  j_queued_at : option Z;
  j_claimed_at : option Z;
  j_processing_started_at : option Z;
  j_completed_at : option Z;
  j_deferral : option Deferral
}.

(** A row of [signals]. *)
Record SignalRecord : Type := {
  sr_id : Z;
  sr_strategy_id : string;
  sr_signal_id : string;
  sr_trade_id : option string;
  sr_action : string;
  sr_pair : string;
  sr_side : string;
  sr_ref_price_a : pydec;
  sr_ref_price_b : option pydec;
  sr_raw_payload : json;
  sr_status : string;
  sr_reject_reason : option string;
  sr_received_at : Z;
  sr_processed_at : option Z
}.

Record Tables : Type := {
  t_jobs : gmap Z SignalJob;
  t_signals : list SignalRecord;
  t_orders : list Z;                    (* orders.signal_id, a key of signals *)
  t_claims : ClaimTable
}.
Definition with_jobs (m : gmap Z SignalJob) (t : Tables) : Tables :=
  {| t_jobs := m; t_signals := t_signals t; t_orders := t_orders t; t_claims := t_claims t |}.
Definition with_signals (l : list SignalRecord) (t : Tables) : Tables :=
  {| t_jobs := t_jobs t; t_signals := l; t_orders := t_orders t; t_claims := t_claims t |}.
Definition with_claims (c : ClaimTable) (t : Tables) : Tables :=
  {| t_jobs := t_jobs t; t_signals := t_signals t; t_orders := t_orders t; t_claims := c |}.

Definition active (j : SignalJob) : bool := bool_decide (j_status j ∈ ACTIVE_LEASE_STATUSES).
Definition expired (now : Z) (j : SignalJob) : bool :=
  match j_lease_expires_at j with Some l => l <? now | None => false end.

(** The columns an operation of the queue moves. *)
Definition job_with (status : JobStatus) (worker : option string) (lease : option Z)
    (error : option string) (j : SignalJob) : SignalJob := {|
  j_id := j_id j; j_signal_id := j_signal_id j; j_strategy_id := j_strategy_id j;
  j_trade_id := j_trade_id j; j_status := status; j_idempotency_key := j_idempotency_key j;
  j_account_scope := j_account_scope j; j_raw_payload := j_raw_payload j;
  j_capture_data := j_capture_data j; j_correlation_id := j_correlation_id j;
  j_attempt_count := j_attempt_count j; j_max_attempts := j_max_attempts j; j_worker_id := worker;
  j_lease_expires_at := lease; j_last_error := error; j_received_at := j_received_at j;
  j_queued_at := j_queued_at j; j_claimed_at := j_claimed_at j;
  j_processing_started_at := j_processing_started_at j; j_completed_at := j_completed_at j;
  j_deferral := j_deferral j |}.
Definition job_times (attempts : Z) (queued claimed started completed : option Z)
    (deferral : option Deferral) (j : SignalJob) : SignalJob := {|
  j_id := j_id j; j_signal_id := j_signal_id j; j_strategy_id := j_strategy_id j;
  j_trade_id := j_trade_id j; j_status := j_status j; j_idempotency_key := j_idempotency_key j;
  j_account_scope := j_account_scope j; j_raw_payload := j_raw_payload j;
  j_capture_data := j_capture_data j; j_correlation_id := j_correlation_id j;
  j_attempt_count := attempts; j_max_attempts := j_max_attempts j; j_worker_id := j_worker_id j;
  j_lease_expires_at := j_lease_expires_at j; j_last_error := j_last_error j;
  j_received_at := j_received_at j; j_queued_at := queued; j_claimed_at := claimed;
  j_processing_started_at := started; j_completed_at := completed; j_deferral := deferral |}.

(** [UPDATE ... WHERE p]: the rows affected, and their number. *)
Definition update_where (p : SignalJob -> bool) (f : SignalJob -> SignalJob)
    (m : gmap Z SignalJob) : gmap Z SignalJob * Z :=
  ((fun j => if p j then f j else j) <$> m,
   Z.of_nat (length (List.filter (fun kj => p kj.2) (map_to_list m)))).
(** [UPDATE ... WHERE job_id = id AND p]. *)
Definition update_job (id : Z) (p : SignalJob -> bool) (f : SignalJob -> SignalJob)
    (m : gmap Z SignalJob) : gmap Z SignalJob * Z :=
  match m !! id with
  | Some j => if p j then (<[id := f j]> m, 1) else (m, 0)
  | None => (m, 0)
  end.

(** ** Ingestion *)

(** [compute_idempotency_key]: strategy, signal, trade and digest; [fresh] is
    the random part of a generated signal id. *)
Definition compute_idempotency_key (fresh : string) (payload : list (string * json))
    : string * string * option string * string :=
  let strategy := normalize_strategy_id (jor (jget "strategy" payload) (jget "strategy_id" payload)) in
  let trade := normalize_trade_id (jor (jget "trade_id" payload) (jget "signal_id" payload)) in
  let action := str_upper (str_strip (py_str (jor (jget "action" payload) (JStr EmptyString)))) in
  let signal := if (action =? "CLOSE")%string && negb (str_empty trade)
                   && negb (str_ends_with ":CLOSE" trade)
                then (trade ++ ":CLOSE")%string else trade in
  let signal := if str_empty signal then ("SIG-" ++ fresh)%string else signal in
  (strategy, signal, if str_empty trade then None else Some trade,
   sha256_hex (strategy ++ ":" ++ signal ++ ":" ++ action)).

Definition get_by_idempotency_key (key : string) (m : gmap Z SignalJob) : option SignalJob :=
  head (List.filter (fun j => String.eqb (j_idempotency_key j) key) (map snd (map_to_list m))).

Definition new_job (id now : Z) (signal strategy : string) (trade : option string) (key : string)
    (payload : json) (capture : option json) (correlation : string) (scope : option string)
    : SignalJob := {|
  j_id := id; j_signal_id := signal; j_strategy_id := strategy; j_trade_id := trade;
  j_status := JOB_QUEUED; j_idempotency_key := key; j_account_scope := scope;
  j_raw_payload := payload; j_capture_data := capture; j_correlation_id := correlation;
  j_attempt_count := 0; j_max_attempts := 3; j_worker_id := None; j_lease_expires_at := None;
  j_last_error := None; j_received_at := now; j_queued_at := Some now; j_claimed_at := None;
  j_processing_started_at := None; j_completed_at := None; j_deferral := None |}.

(** [create_job_if_not_exists]: the job, and whether it was created. *)
Definition create_job_if_not_exists (id now : Z) (signal strategy : string)
    (trade : option string) (key : string) (payload : json) (capture : option json)
    (correlation : string) (scope : option string) (m : gmap Z SignalJob)
    : gmap Z SignalJob * (SignalJob * bool) :=
  match get_by_idempotency_key key m with
  | Some j => (m, (j, false))
  | None =>
      let j := new_job id now signal strategy trade key payload capture correlation scope in
      (<[id := j]> m, (j, true))
  end.

Definition scoped_key (key : string) (scope : option string) : string :=
  match scope with None => key | Some s => (key ++ ":" ++ s)%string end.
(** One job per routed account, or a single unscoped one when the strategy has
    no account or the router fails ([accounts] is then empty). *)
Definition scopes_of (accounts : list Z) : list (option string) :=
  match accounts with [] => [None] | _ => map (fun a => Some (str_Z a)) accounts end.
(** [_process_tradingview_webhook]: the transaction that enqueues the jobs;
    [ids] are the generated job ids. *)
Fixpoint enqueue_scopes (ids : list Z) (now : Z) (signal strategy : string)
    (trade : option string) (key : string) (payload : json) (capture : option json)
    (correlation : string) (scopes : list (option string)) (m : gmap Z SignalJob)
    : gmap Z SignalJob * list (SignalJob * bool) :=
  match scopes, ids with
  | scope :: scopes, id :: ids =>
      let (m, r) := create_job_if_not_exists id now signal strategy trade (scoped_key key scope)
                      payload capture correlation scope m in
      let (m, rs) := enqueue_scopes ids now signal strategy trade key payload capture correlation
                       scopes m in
      (m, r :: rs)
  | _, _ => (m, [])
  end.
Definition ingest (ids : list Z) (now : Z) (fresh correlation : string) (accounts : list Z)
    (payload : list (string * json)) (capture : option json) (m : gmap Z SignalJob)
    : gmap Z SignalJob * list (SignalJob * bool) :=
  let '(strategy, signal, trade, key) := compute_idempotency_key fresh payload in
  enqueue_scopes ids now signal strategy trade key (JObj payload) capture correlation
    (scopes_of accounts) m.

(** ** Leases *)
Definition sibling_of (j k : SignalJob) : bool :=
  match j_trade_id j, j_trade_id k with
  | Some t, Some t' => String.eqb t t' && negb (j_id j =? j_id k)
  | _, _ => false
  end.
(** [_sibling_in_flight_exists]. *)
Definition sibling_in_flight (m : gmap Z SignalJob) (j : SignalJob) : bool :=
  existsb (fun ik => sibling_of j ik.2 && active ik.2) (map_to_list m).

(** The signals of a job's trade: its own, its OPEN and its CLOSE. *)
Definition trade_signals (j : SignalJob) : list string :=
  j_signal_id j :: match j_trade_id j with Some t => [t; (t ++ ":CLOSE")%string] | None => [] end.
(** [_claim_in_flight_exists]. *)
Definition claim_in_flight (claims : ClaimTable) (j : SignalJob) : bool :=
  existsb (fun kc => String.eqb (cl_strategy_id kc.2) (j_strategy_id j) && is_claimed kc.2
                     && bool_decide (cl_signal_id kc.2 ∈ trade_signals j)) (map_to_list claims).
(** [_trade_blocked_after_lock]. *)
Definition trade_blocked_after_lock (t : Tables) (j : SignalJob) : bool :=
  sibling_in_flight (t_jobs t) j
  || existsb (fun s => has_claimed (j_strategy_id j) s (t_claims t)) (trade_signals j).

Definition takeable (now : Z) (j : SignalJob) : bool :=
  bool_decide (j_status j ∈ CLAIMABLE_STATUSES)
  || (bool_decide (j_status j = JOB_CLAIMED) && expired now j).
Definition is_candidate_job (now : Z) (skipped : gset Z) (t : Tables) (j : SignalJob) : bool :=
  takeable now j && negb (sibling_in_flight (t_jobs t) j) && negb (claim_in_flight (t_claims t) j)
  && negb (bool_decide (j_id j ∈ skipped)).

(** The first of the rows received earliest. *)
Fixpoint earliest (l : list SignalJob) : option SignalJob :=
  match l with
  | [] => None
  | j :: l => match earliest l with
              | Some k => if j_received_at k <? j_received_at j then Some k else Some j
              | None => Some j
              end
  end.
(** [_select_claim_candidate]: rows another transaction holds are passed over. *)
Definition select_claim_candidate (now : Z) (skipped : gset Z) (locked : gset Z) (t : Tables)
    : option SignalJob :=
  earliest (List.filter (fun j => is_candidate_job now skipped t j && negb (bool_decide (j_id j ∈ locked)))
              (map snd (map_to_list (t_jobs t)))).

Definition take_job (now lease : Z) (worker : string) (j : SignalJob) : SignalJob :=
  job_times (j_attempt_count j + 1) (j_queued_at j) (Some now) (j_processing_started_at j)
    (j_completed_at j) (j_deferral j)
    (job_with JOB_CLAIMED (Some worker) (Some lease) (j_last_error j) j).

Definition has_trade (j : SignalJob) : bool :=
  match j_trade_id j with Some t => negb (str_empty t) | None => false end.

(** The loop of [claim_next_jobs] in one transaction that nothing disturbs;
    every round skips a job or claims one. *)
Fixpoint claim_loop (fuel : nat) (now lease : Z) (worker : string) (limit : nat)
    (skipped : gset Z) (t : Tables) : Tables * list SignalJob :=
  match fuel, limit with
  | S fuel, S limit' =>
      match select_claim_candidate now skipped ∅ t with
      | None => (t, [])
      | Some j =>
          if has_trade j && trade_blocked_after_lock t j
          then claim_loop fuel now lease worker limit ({[j_id j]} ∪ skipped) t
          else
            let j' := take_job now lease worker j in
            let (t, l) := claim_loop fuel now lease worker limit' skipped
                            (with_jobs (<[j_id j := j']> (t_jobs t)) t) in
            (t, j' :: l)
      end
  | _, _ => (t, [])
  end.
Definition claim_next_jobs (now : Z) (worker : string) (limit : nat) (lease_duration : Q)
    (t : Tables) : Tables * list SignalJob :=
  claim_loop (limit + size (t_jobs t)) now (now + timedelta_seconds lease_duration) worker limit ∅ t.

(** [update_status]: the rows affected, a [ValueError] for a fence without a
    worker. *)
Definition or_old {A} (x old : option A) : option A := match x with Some x => Some x | None => old end.
Definition status_update (now : Z) (lease_duration : Q) (status : JobStatus) (error worker : option string)
    (j : SignalJob) : SignalJob :=
  let error := or_old error (j_last_error j) in
  let worker := or_old worker (j_worker_id j) in
  match status with
  | JOB_PROCESSING =>
      job_times (j_attempt_count j) (j_queued_at j) (j_claimed_at j) (Some now) (j_completed_at j)
        (j_deferral j)
        (job_with status worker (Some (now + timedelta_seconds lease_duration)) error j)
  | JOB_COMPLETED | JOB_REJECTED | JOB_FAILED | JOB_DEAD_LETTER =>
      job_times (j_attempt_count j) (j_queued_at j) (j_claimed_at j) (j_processing_started_at j)
        (Some now) (j_deferral j) (job_with status worker None error j)
  | _ => job_with status worker (j_lease_expires_at j) error j
  end.
(** The fence: the row is still the worker's, under a lease. *)
Definition owned (worker : string) (j : SignalJob) : bool :=
  bool_decide (j_worker_id j = Some worker) && active j.
Definition update_status (now : Z) (id : Z) (status : JobStatus) (error worker : option string)
    (fence : bool) (lease_duration : Q) (m : gmap Z SignalJob) : result (gmap Z SignalJob * Z) :=
  match fence, worker with
  | true, None => Raise (ValueError "fence=True requires worker_id")
  | true, Some w => Ok (update_job id (owned w) (status_update now lease_duration status error worker) m)
  | false, _ => Ok (update_job id (fun _ => true) (status_update now lease_duration status error worker) m)
  end.

Definition heartbeat_lease (now : Z) (id : Z) (worker : string) (lease_duration : Q)
    (m : gmap Z SignalJob) : gmap Z SignalJob * bool :=
  let (m, n) := update_job id (owned worker)
                  (fun j => job_with (j_status j) (j_worker_id j)
                     (Some (now + timedelta_seconds lease_duration)) (j_last_error j) j) m in
  (m, negb (n =? 0)).

(** ** The ledger's evidence *)
Definition signal_ids_of (l : list SignalRecord) (strategy signal : string) : list Z :=
  map sr_id (List.filter (fun s => String.eqb (sr_strategy_id s) strategy
                                   && String.eqb (sr_signal_id s) signal) l).
(** [count_orders_emitted], of both repositories. *)
Definition count_orders_emitted (t : Tables) (strategy signal : string) : Z :=
  Z.of_nat (length (List.filter (fun o => bool_decide (o ∈ signal_ids_of (t_signals t) strategy signal))
                      (t_orders t))).
(** What forbids running a job again: orders in the ledger or a live claim. *)
Definition evidence (t : Tables) (j : SignalJob) : bool :=
  (0 <? count_orders_emitted t (j_strategy_id j) (j_signal_id j))
  || has_claimed (j_strategy_id j) (j_signal_id j) (t_claims t).

(** ** Reclaiming *)
Definition complete_at (now : Z) (j : SignalJob) : SignalJob :=
  job_times (j_attempt_count j) (j_queued_at j) (j_claimed_at j) (j_processing_started_at j)
    (Some now) (j_deferral j) j.
Definition attempts_message (max_attempts emitted : Z) : string :=
  ("Lease expired after " ++ str_Z max_attempts ++ " attempts with " ++ str_Z emitted
   ++ " order(s) emitted or CLAIMED barrier live; requires reconciliation.")%string.
(** A job whose lease expired on its last attempt. *)
Definition retire (now max_attempts : Z) (t : Tables) (j : SignalJob) : SignalJob :=
  if evidence t j
  then job_with JOB_RECOVERY_REQUIRED None None
         (Some (attempts_message max_attempts
                  (count_orders_emitted t (j_strategy_id j) (j_signal_id j)))) j
  else complete_at now (job_with JOB_DEAD_LETTER None None
         (Some ("Exceeded max attempts (" ++ str_Z max_attempts
                ++ ") due to worker lease expiry.")%string) j).
Definition quarantine (j : SignalJob) : SignalJob :=
  job_with JOB_RECOVERY_REQUIRED None None
    (Some "Worker lease expired mid-execution; broker state unverified."%string) j.
Definition requeue (j : SignalJob) : SignalJob := job_with JOB_QUEUED None None (j_last_error j) j.

Record ReclaimCounts : Type := { rc_dead_lettered : Z; rc_quarantined : Z; rc_requeued : Z }.
Definition reclaim_stale_jobs (now max_attempts : Z) (t : Tables) : Tables * ReclaimCounts :=
  let over j := active j && expired now j && (max_attempts <=? j_attempt_count j) in
  let under s j := bool_decide (j_status j = s) && expired now j && (j_attempt_count j <? max_attempts) in
  let (m, dead) := update_where (fun j => over j && negb (evidence t j)) (retire now max_attempts t)
                     (t_jobs t) in
  let (m, kept) := update_where (fun j => over j && evidence t j) (retire now max_attempts t) m in
  let (m, lost) := update_where (under JOB_PROCESSING) quarantine m in
  let (m, back) := update_where (under JOB_CLAIMED) requeue m in
  (with_jobs m t, {| rc_dead_lettered := dead; rc_quarantined := kept + lost; rc_requeued := back |}).

(** ** Deferral *)
Definition set_signal_status (strategy signal status : string) (reason : option (option string))
    (l : list SignalRecord) : list SignalRecord :=
  map (fun s => if String.eqb (sr_strategy_id s) strategy && String.eqb (sr_signal_id s) signal
                then {| sr_id := sr_id s; sr_strategy_id := sr_strategy_id s;
                        sr_signal_id := sr_signal_id s; sr_trade_id := sr_trade_id s;
                        sr_action := sr_action s; sr_pair := sr_pair s; sr_side := sr_side s;
                        sr_ref_price_a := sr_ref_price_a s; sr_ref_price_b := sr_ref_price_b s;
                        sr_raw_payload := sr_raw_payload s; sr_status := status;
                        sr_reject_reason := match reason with Some r => r | None => sr_reject_reason s end;
                        sr_received_at := sr_received_at s; sr_processed_at := sr_processed_at s |}
                else s) l.
Definition park_job (d : Deferral) (j : SignalJob) : SignalJob :=
  job_times (j_attempt_count j) (j_queued_at j) (j_claimed_at j) (j_processing_started_at j)
    (j_completed_at j) (Some d)
    (job_with JOB_DEFERRED_RED_ZONE None None (Some (df_reason d)) j).

(** [park_red_zone] reads the row, checks the fence on what it read, and lets
    the ORM write the columns it changed, by the primary key alone: the write
    is on the row as other sessions left it meanwhile.  A column whose loaded
    value was the new one already is not written.  (The columns of the deferral
    are written as one: their only writer is this function.) *)
Definition orm_set {A} `{EqDecision A} (loaded new current : A) : A :=
  if decide (loaded = new) then current else new.
Definition park_check (id : Z) (worker : string) (t : Tables) : option SignalJob :=
  match t_jobs t !! id with
  | Some j => if owned worker j then Some j else None
  | None => None
  end.
Definition park_over (d : Deferral) (loaded current : SignalJob) : SignalJob :=
  job_times (j_attempt_count current) (j_queued_at current) (j_claimed_at current)
    (j_processing_started_at current) (j_completed_at current) (Some d)
    (job_with JOB_DEFERRED_RED_ZONE None
       (orm_set (j_lease_expires_at loaded) None (j_lease_expires_at current))
       (orm_set (j_last_error loaded) (Some (df_reason d)) (j_last_error current)) current).
Definition park_write (id : Z) (d : Deferral) (loaded : SignalJob) (t : Tables) : Tables * result Z :=
  match t_jobs t !! id with
  | Some j =>
      (with_signals (set_signal_status (j_strategy_id loaded) (j_signal_id loaded) "DEFERRED_RED_ZONE"
                       None (t_signals t))
         (with_jobs (<[id := park_over d loaded j]> (t_jobs t)) t), Ok 1)
  | None => (t, Raise (OtherError "StaleDataError"))
  end.
(** [between] is what other sessions commit between the read and the write. *)
Definition park_red_zone (id : Z) (worker : string) (d : Deferral)
    (between : gmap Z SignalJob -> gmap Z SignalJob) (t : Tables) : Tables * result Z :=
  match park_check id worker t with
  | Some j => park_write id d j (with_jobs (between (t_jobs t)) t)
  | None => (t, Ok 0)
  end.

(** Nothing in between: the fenced write the function is meant to be. *)
Lemma park_over_self d j : park_over d j j = park_job d j.
Proof. unfold park_over, park_job, orm_set. do 2 f_equal; by case_decide. Qed.

Definition deferred (j : SignalJob) : bool := bool_decide (j_status j = JOB_DEFERRED_RED_ZONE).
Definition release_job (now : Z) (j : SignalJob) : SignalJob :=
  job_times (j_attempt_count j) (Some now) (j_claimed_at j) (j_processing_started_at j)
    (j_completed_at j) (j_deferral j) (job_with JOB_QUEUED (j_worker_id j) (j_lease_expires_at j) None j).
(** Deferred jobs, those without a time of deferral first, then the earliest. *)
Definition deferred_before (j k : SignalJob) : bool :=
  match j_deferral j, j_deferral k with
  | None, Some _ => true
  | Some _, None => false
  | None, None => j_received_at j <=? j_received_at k
  | Some d, Some e => (df_deferred_at d <? df_deferred_at e)
                      || ((df_deferred_at d =? df_deferred_at e) && (j_received_at j <=? j_received_at k))
  end.
Fixpoint insert_sorted (j : SignalJob) (l : list SignalJob) : list SignalJob :=
  match l with
  | [] => [j]
  | k :: l => if deferred_before j k then j :: k :: l else k :: insert_sorted j l
  end.
Definition claim_deferred_for_release (now : Z) (limit : nat) (t : Tables) : Tables * list SignalJob :=
  let l := firstn limit (fold_right insert_sorted []
             (List.filter deferred (map snd (map_to_list (t_jobs t))))) in
  fold_left (fun st j =>
      let (m, n) := update_job (j_id j) deferred (release_job now) (t_jobs st.1) in
      if n =? 0 then st
      else (with_jobs m st.1, st.2 ++ match m !! j_id j with Some j => [j] | None => [] end)) l (t, []).

Definition void_deferred_job (now : Z) (id : Z) (reason : string) (t : Tables) : Tables * Z :=
  match t_jobs t !! id with
  | Some j =>
      if deferred j then
        (with_signals (set_signal_status (j_strategy_id j) (j_signal_id j) "REJECTED"
                         (Some (Some reason)) (t_signals t))
           (with_jobs (<[id := complete_at now (job_with JOB_REJECTED None None (Some reason) j)]>
                         (t_jobs t)) t), 1)
      else (t, 0)
  | None => (t, 0)
  end.

(** ** Recovery at startup *)
Definition recovery_message (t : Tables) (j : SignalJob) : string :=
  let emitted := count_orders_emitted t (j_strategy_id j) (j_signal_id j) in
  ("Crash recovery: " ++ str_Z emitted ++ " order(s) already emitted"
   ++ (if (emitted =? 0)%Z then " or CLAIMED barrier live" else EmptyString)
   ++ "; requires reconciliation before retry.")%string.
(** One job of the loop, as read when the recovery began. *)
Definition recover_job (now : Z) (t : Tables) (j : SignalJob) : Tables :=
  let set status error :=
    with_jobs (update_job (j_id j) (fun _ => true)
                 (status_update now 30 status (Some error) None) (t_jobs t)).1 t in
  if evidence t j then set JOB_RECOVERY_REQUIRED (recovery_message t j)
  else if j_max_attempts j <=? j_attempt_count j
  then set JOB_DEAD_LETTER ("Crash recovery: exceeded max attempts (" ++ str_Z (j_max_attempts j) ++ ").")%string
  else set JOB_QUEUED "Requeued by startup recovery manager (no orders emitted)."%string.
Definition pending (j : SignalJob) : bool :=
  bool_decide (j_status j ∈ [JOB_CLAIMED; JOB_PROCESSING; JOB_RECOVERY_REQUIRED]).
Definition pending_jobs (t : Tables) : list SignalJob :=
  List.filter pending (map snd (map_to_list (t_jobs t))).
(** [run_startup_recovery], of claims and jobs; [baskets] tells whether a
    basket was left executing or unwinding. *)
Definition run_startup_recovery (now : Z) (baskets : bool) (t : Tables) : Tables * Z :=
  let l := pending_jobs t in
  if negb baskets && bool_decide (l = []) then (t, 0)
  else
    let (claims, _) := reconcile_stale_claims (count_orders_emitted t) now 0 (t_claims t) in
    (fold_left (recover_job now) l (with_claims claims t), Z.of_nat (length l)).
