(* ===== verification/QueueConcurrency.v ===== *)
(** * Workers claiming jobs concurrently: the transactions of
    [SignalJobRepository.claim_next_jobs]

    The operations of [JobQueue.v] as statements of interleaved transactions
    at the isolation level READ COMMITTED: every statement sees what was
    committed when it began and its own writes, a row selected FOR UPDATE is
    locked until its transaction ends and passed over by the others, and an
    advisory lock taken on the hash of a trade is held until then too.  The
    candidates of one statement are read from its snapshot; the row that is
    then locked is tested again as it is by then.  All other writers of the
    queue update one row at a time, none of them a locked one. *)

From S2P Require Import Prelude Rounding PyText PyTime Identifiers RmsModels Claims JobQueue.

#[local] Open Scope Z_scope.
#[local] Set Warnings "-clear-no-such-hyp".

(** Where the loop of a transaction stands. *)
Inductive Phase : Type :=
  | Idle                          (* between two rounds *)
  | Selecting (view : Tables)     (* the select runs on this snapshot *)
  | Chosen (id : Z)               (* the candidate's row is locked *)
  | Serialized (id : Z)           (* its trade's advisory lock is taken *)
  | Cleared (id : Z).             (* the test behind the lock was passed *)

Record Txn : Type := {
  x_worker : string;
  x_now : Z;
  x_lease : Z;
  x_limit : nat;
  x_phase : Phase;
  x_skipped : gset Z;
  x_rows : gset Z;                (* rows locked *)
  x_trades : gset Z;              (* advisory locks held *)
  x_pending : gmap Z SignalJob    (* rows written *)
}.
Record Queue : Type := { q_tables : Tables; q_txns : gmap Z Txn }.

Definition set_phase (p : Phase) (x : Txn) : Txn := {|
  x_worker := x_worker x; x_now := x_now x; x_lease := x_lease x; x_limit := x_limit x;
  x_phase := p; x_skipped := x_skipped x; x_rows := x_rows x; x_trades := x_trades x;
  x_pending := x_pending x |}.
Definition choose_row (id : Z) (x : Txn) : Txn := {|
  x_worker := x_worker x; x_now := x_now x; x_lease := x_lease x; x_limit := x_limit x;
  x_phase := Chosen id; x_skipped := x_skipped x; x_rows := {[id]} ∪ x_rows x;
  x_trades := x_trades x; x_pending := x_pending x |}.
Definition lock_trade (id key : Z) (x : Txn) : Txn := {|
  x_worker := x_worker x; x_now := x_now x; x_lease := x_lease x; x_limit := x_limit x;
  x_phase := Serialized id; x_skipped := x_skipped x; x_rows := x_rows x;
  x_trades := {[key]} ∪ x_trades x; x_pending := x_pending x |}.
Definition skip_job (id : Z) (x : Txn) : Txn := {|
  x_worker := x_worker x; x_now := x_now x; x_lease := x_lease x; x_limit := x_limit x;
  x_phase := Idle; x_skipped := {[id]} ∪ x_skipped x; x_rows := x_rows x;
  x_trades := x_trades x; x_pending := x_pending x |}.
Definition write_job (id : Z) (j : SignalJob) (x : Txn) : Txn := {|
  x_worker := x_worker x; x_now := x_now x; x_lease := x_lease x; x_limit := pred (x_limit x);
  x_phase := Idle; x_skipped := x_skipped x; x_rows := x_rows x; x_trades := x_trades x;
  x_pending := <[id := j]> (x_pending x) |}.

(** What a statement of a transaction sees. *)
Definition sees (q : Queue) (x : Txn) : Tables :=
  with_jobs (x_pending x ∪ t_jobs (q_tables q)) (q_tables q).
Definition held_by_others (held : Txn -> gset Z) (me key : Z) (q : Queue) : bool :=
  existsb (fun ix => negb (ix.1 =? me) && bool_decide (key ∈ held ix.2)) (map_to_list (q_txns q)).
Definition row_locked (id : Z) (q : Queue) : bool :=
  existsb (fun ix => bool_decide (id ∈ x_rows ix.2)) (map_to_list (q_txns q)).

Definition set_txn (me : Z) (x : Txn) (q : Queue) : Queue :=
  {| q_tables := q_tables q; q_txns := <[me := x]> (q_txns q) |}.

(** The writes of the other operations to one row: fenced by its owner, by the
    sweeper -- which retires a job it has read before, whatever it is by now --
    and by deferral, release and recovery. *)
Inductive queue_write (t : Tables) (j : SignalJob) : SignalJob -> Prop :=
  | qw_status now status error worker lease :
      owned worker j = true -> status <> JOB_CLAIMED ->
      queue_write t j (status_update now lease status error (Some worker) j)
  | qw_heartbeat now worker lease :
      owned worker j = true ->
      queue_write t j (job_with (j_status j) (j_worker_id j) (Some (now + timedelta_seconds lease))
                         (j_last_error j) j)
  | qw_retire now max_attempts : queue_write t j (retire now max_attempts t j)
  | qw_quarantine : queue_write t j (quarantine j)
  | qw_requeue : queue_write t j (requeue j)
  | qw_park d : queue_write t j (park_job d j)
  | qw_release now : queue_write t j (release_job now j)
  | qw_void now reason :
      queue_write t j (complete_at now (job_with JOB_REJECTED None None (Some reason) j))
  | qw_recover now status error :
      status ∈ [JOB_RECOVERY_REQUIRED; JOB_DEAD_LETTER; JOB_QUEUED] ->
      queue_write t j (status_update now 30 status (Some error) None j).

Section Steps.
(** The database's hash of a text. *)
Variable hashtext : string -> Z.

Definition trade_key (j : SignalJob) : Z := hashtext (opt_str (j_trade_id j)).

Inductive step (q : Queue) : Queue -> Prop :=
  | step_begin me worker now lease limit :
      q_txns q !! me = None ->
      step q (set_txn me {| x_worker := worker; x_now := now; x_lease := lease; x_limit := limit;
                            x_phase := Idle; x_skipped := ∅; x_rows := ∅; x_trades := ∅;
                            x_pending := ∅ |} q)
  | step_select me x :
      q_txns q !! me = Some x -> x_phase x = Idle -> (0 < x_limit x)%nat ->
      step q (set_txn me (set_phase (Selecting (sees q x)) x) q)
  | step_choose me x view j cur :
      q_txns q !! me = Some x -> x_phase x = Selecting view ->
      t_jobs view !! j_id j = Some j -> is_candidate_job (x_now x) (x_skipped x) view j = true ->
      t_jobs (sees q x) !! j_id j = Some cur -> takeable (x_now x) cur = true ->
      held_by_others x_rows me (j_id j) q = false ->
      step q (set_txn me (choose_row (j_id j) x) q)
  | step_lock me x id j :
      q_txns q !! me = Some x -> x_phase x = Chosen id -> t_jobs (sees q x) !! id = Some j ->
      has_trade j = true -> held_by_others x_trades me (trade_key j) q = false ->
      step q (set_txn me (lock_trade id (trade_key j) x) q)
  | step_skip me x id j :
      q_txns q !! me = Some x -> x_phase x = Serialized id -> t_jobs (sees q x) !! id = Some j ->
      trade_blocked_after_lock (sees q x) j = true ->
      step q (set_txn me (skip_job id x) q)
  | step_clear me x id j :
      q_txns q !! me = Some x -> x_phase x = Serialized id -> t_jobs (sees q x) !! id = Some j ->
      trade_blocked_after_lock (sees q x) j = false ->
      step q (set_txn me (set_phase (Cleared id) x) q)
  | step_take me x id j :
      q_txns q !! me = Some x -> t_jobs (sees q x) !! id = Some j ->
      x_phase x = Cleared id \/ x_phase x = Chosen id /\ has_trade j = false ->
      step q (set_txn me (write_job id (take_job (x_now x) (x_lease x) (x_worker x) j) x) q)
  | step_commit me x :
      q_txns q !! me = Some x -> x_phase x = Idle \/ (exists v, x_phase x = Selecting v) ->
      step q {| q_tables := sees q x; q_txns := delete me (q_txns q) |}
  | step_abort me :
      step q {| q_tables := q_tables q; q_txns := delete me (q_txns q) |}
  | step_write id j j' :
      t_jobs (q_tables q) !! id = Some j -> row_locked id q = false ->
      queue_write (q_tables q) j j' ->
      step q {| q_tables := with_jobs (<[id := j']> (t_jobs (q_tables q))) (q_tables q);
                q_txns := q_txns q |}
  | step_insert now id signal strategy trade key payload capture correlation scope :
      t_jobs (q_tables q) !! id = None ->
      step q {| q_tables := with_jobs (<[id := new_job id now signal strategy trade key payload
                                              capture correlation scope]> (t_jobs (q_tables q)))
                              (q_tables q);
                q_txns := q_txns q |}
  | step_tables signals orders claims :
      step q {| q_tables := {| t_jobs := t_jobs (q_tables q); t_signals := signals;
                               t_orders := orders; t_claims := claims |};
                q_txns := q_txns q |}.

Definition started (t : Tables) : Queue := {| q_tables := t; q_txns := ∅ |}.
Definition reachable (t : Tables) : Queue -> Prop := rtc step (started t).
End Steps.

(** ** The invariant *)

(** A job of a trade is under a lease that is committed, or written by a
    transaction that is not. *)
Definition leased (q : Queue) (id : Z) (trade : string) : Prop :=
  (exists j, t_jobs (q_tables q) !! id = Some j /\ active j = true /\ j_trade_id j = Some trade)
  \/ exists me x j, q_txns q !! me = Some x /\ x_pending x !! id = Some j
                   /\ j_trade_id j = Some trade.
Definition exclusive (q : Queue) : Prop :=
  forall i k trade, trade <> EmptyString -> leased q i trade -> leased q k trade -> i = k.

Section Invariant.
Variable hashtext : string -> Z.

(** A transaction holds the locks of what it wrote and of what it is about to
    write, and nobody else has a lease on the trade it was cleared for. *)
Record written (q : Queue) (x : Txn) (i : Z) (j : SignalJob) : Prop := {
  wr_id : j_id j = i;
  wr_row : i ∈ x_rows x;
  wr_active : active j = true;
  wr_old : exists c, t_jobs (q_tables q) !! i = Some c /\ j_trade_id c = j_trade_id j;
  wr_trade : forall tr, j_trade_id j = Some tr -> tr <> EmptyString -> hashtext tr ∈ x_trades x
}.
Definition holds_trade (q : Queue) (x : Txn) (id : Z) (tr : string) : Prop :=
  id ∈ x_rows x /\ tr <> EmptyString /\ hashtext tr ∈ x_trades x
  /\ exists j, t_jobs (sees q x) !! id = Some j /\ j_trade_id j = Some tr.
Definition phase_ok (q : Queue) (x : Txn) : Prop :=
  match x_phase x with
  | Chosen id => id ∈ x_rows x
  | Serialized id => exists tr, holds_trade q x id tr
  | Cleared id => exists tr, holds_trade q x id tr /\ forall k, leased q k tr -> k = id
  | _ => True
  end.
Record txn_ok (q : Queue) (x : Txn) : Prop := {
  tx_written : forall i j, x_pending x !! i = Some j -> written q x i j;
  tx_phase : phase_ok q x;
  tx_rows : forall i, i ∈ x_rows x ->
            exists c, t_jobs (q_tables q) !! i = Some c /\ j_status c <> JOB_PROCESSING
}.
Record queue_ok (q : Queue) : Prop := {
  qo_ids : forall i j, t_jobs (q_tables q) !! i = Some j -> j_id j = i;
  qo_txns : forall me x, q_txns q !! me = Some x -> txn_ok q x;
  qo_rows : forall me me' x x' i, q_txns q !! me = Some x -> q_txns q !! me' = Some x' ->
            i ∈ x_rows x -> i ∈ x_rows x' -> me = me';
  qo_trades : forall me me' x x' key, q_txns q !! me = Some x -> q_txns q !! me' = Some x' ->
              key ∈ x_trades x -> key ∈ x_trades x' -> me = me';
  qo_exclusive : exclusive q
}.

Lemma sees_lookup (q : Queue) (x : Txn) (i : Z) :
  t_jobs (sees q x) !! i
  = match x_pending x !! i with Some j => Some j | None => t_jobs (q_tables q) !! i end.
Proof. simpl. rewrite lookup_union. by destruct (x_pending x !! i), (t_jobs (q_tables q) !! i). Qed.

Lemma not_held (held : Txn -> gset Z) (me key : Z) (q : Queue) (me' : Z) (x : Txn) :
  held_by_others held me key q = false -> q_txns q !! me' = Some x -> key ∈ held x -> me' = me.
Proof.
  unfold held_by_others. intros H E K. destruct (Z.eqb_spec me' me) as [|N]; [done|].
  assert (X : existsb (fun ix => negb (ix.1 =? me) && bool_decide (key ∈ held ix.2))
                (map_to_list (q_txns q)) = true); [|congruence].
  apply existsb_exists. exists (me', x). split.
  - by apply list_elem_of_In, elem_of_map_to_list.
  - apply andb_true_iff. split; [by apply negb_true_iff, Z.eqb_neq|by apply bool_decide_eq_true].
Qed.
Lemma row_free (id : Z) (q : Queue) (me : Z) (x : Txn) :
  row_locked id q = false -> q_txns q !! me = Some x -> id ∉ x_rows x.
Proof.
  unfold row_locked. intros H E K.
  assert (X : existsb (fun ix => bool_decide (id ∈ x_rows ix.2)) (map_to_list (q_txns q)) = true);
    [|congruence].
  apply existsb_exists. exists (me, x).
  split; [by apply list_elem_of_In, elem_of_map_to_list|by apply bool_decide_eq_true].
Qed.

(** What leaves a transaction's guarantees alone. *)
Lemma txn_ok_frame (q q' : Queue) (y : Txn) :
  txn_ok q y ->
  (forall i, i ∈ x_rows y -> t_jobs (q_tables q') !! i = t_jobs (q_tables q) !! i) ->
  (forall k tr, tr <> EmptyString -> leased q' k tr -> leased q k tr \/ hashtext tr ∉ x_trades y) ->
  txn_ok q' y.
Proof.
  intros [W P X] R L. split; [| |by intros i H; rewrite R; [apply X|]]; clear X.
  - intros i j E. destruct (W i j E) as [? ? ? (c & ? & ?) ?]. split; try done.
    exists c. by rewrite R.
  - assert (H : forall id tr, holds_trade q y id tr -> holds_trade q' y id tr).
    { intros id tr (? & ? & ? & j & E & ?). split_and!; try done. exists j.
      rewrite sees_lookup in *. by rewrite R. }
    unfold phase_ok in *. destruct (x_phase y); try done.
    + destruct P as (tr & P). exists tr. by apply H.
    + destruct P as (tr & P & X). exists tr. split; [by apply H|]. intros k K.
      destruct P as (_ & N & T & _). by destruct (L k tr N K) as [?%X|].
Qed.

Lemma exclusive_frame (q q' : Queue) :
  exclusive q -> (forall k tr, leased q' k tr -> leased q k tr) -> exclusive q'.
Proof. intros X L i k tr N A B. eapply X; eauto. Qed.

(** A transaction's step, the tables untouched. *)
Lemma queue_ok_txn (q : Queue) (me : Z) (x' : Txn) :
  queue_ok q -> txn_ok (set_txn me x' q) x' ->
  (forall y x i, y <> me -> q_txns q !! y = Some x -> i ∈ x_rows x -> i ∉ x_rows x') ->
  (forall y x i, y <> me -> q_txns q !! y = Some x -> i ∈ x_trades x -> i ∉ x_trades x') ->
  (forall k tr, tr <> EmptyString -> leased (set_txn me x' q) k tr ->
     leased q k tr \/ hashtext tr ∈ x_trades x') ->
  exclusive (set_txn me x' q) ->
  queue_ok (set_txn me x' q).
Proof.
  intros [I T R K X] O Hr Hk L E. split; simpl; try done.
  - intros y x. destruct (decide (y = me)) as [->|N];
      [rewrite lookup_insert_eq; by intros [= <-]|rewrite lookup_insert_ne by done]. intros Hy.
    eapply txn_ok_frame; [by eapply T|done|]. intros k tr Ne [H|H]%L; [by left| |done].
    right. intros H'. by eapply Hk.
  - intros y y' x z i. destruct (decide (y = me)) as [->|N], (decide (y' = me)) as [->|N'];
      rewrite ?lookup_insert_eq, ?lookup_insert_ne by done; intros A B C D; simplify_eq; try done.
    + by destruct (Hr y' z i).
    + by destruct (Hr y x i).
    + by eapply R.
  - intros y y' x z i. destruct (decide (y = me)) as [->|N], (decide (y' = me)) as [->|N'];
      rewrite ?lookup_insert_eq, ?lookup_insert_ne by done; intros A B C D; simplify_eq; try done.
    + by destruct (Hk y' z i).
    + by destruct (Hk y x i).
    + by eapply K.
Qed.

(** A transaction that writes nothing new gives no lease. *)
Lemma leased_same (q : Queue) (me : Z) (x' : Txn) (k : Z) (tr : string) :
  (forall i j, x_pending x' !! i = Some j ->
     exists x, q_txns q !! me = Some x /\ x_pending x !! i = Some j) ->
  leased (set_txn me x' q) k tr -> leased q k tr.
Proof.
  intros P [H|(y & x & j & Hy & E & Tj)]; [by left|]. right. simpl in Hy.
  destruct (decide (y = me)) as [->|N].
  - rewrite lookup_insert_eq in Hy. simplify_eq. apply P in E as (x0 & Hx & E). by exists me, x0, j.
  - rewrite lookup_insert_ne in Hy by done. by exists y, x, j.
Qed.

(** The steps of a round before the write. *)
Lemma queue_ok_quiet (q : Queue) (me : Z) (x x' : Txn) :
  queue_ok q -> q_txns q !! me = Some x -> x_pending x' = x_pending x ->
  x_rows x ⊆ x_rows x' -> x_trades x ⊆ x_trades x' ->
  (forall y z i, y <> me -> q_txns q !! y = Some z -> i ∈ x_rows z -> i ∉ x_rows x') ->
  (forall y z i, y <> me -> q_txns q !! y = Some z -> i ∈ x_trades z -> i ∉ x_trades x') ->
  (forall i, i ∈ x_rows x' -> i ∈ x_rows x \/
     exists c, t_jobs (sees q x) !! i = Some c /\ j_status c <> JOB_PROCESSING) ->
  ((forall k tr, leased (set_txn me x' q) k tr -> leased q k tr) -> phase_ok (set_txn me x' q) x') ->
  queue_ok (set_txn me x' q).
Proof.
  intros Q Hx Ep Hr Ht Dr Dt X P.
  assert (L : forall k tr, leased (set_txn me x' q) k tr -> leased q k tr).
  { intros k tr. apply leased_same. rewrite Ep. eauto. }
  apply queue_ok_txn; try done; [|by left; eauto|by eapply exclusive_frame; [apply Q|]].
  pose proof (qo_txns _ Q me x Hx) as [W _ R]. split; [|by apply P|].
  - rewrite Ep. intros i j E. destruct (W i j E) as [? ? ? ? H].
    split; [done|by apply Hr|done|done|]. intros tr A B. apply Ht. by eapply H.
  - intros i [H|(c & E & S)]%X; [by apply R|]. rewrite sees_lookup in E.
    destruct (x_pending x !! i) as [w|] eqn:Ew; [|by exists c].
    destruct (W i w Ew) as [_ Hi _ _ _]. by apply R.
Qed.

Lemma others_rows (q : Queue) (me y : Z) (x z : Txn) (i : Z) :
  queue_ok q -> q_txns q !! me = Some x -> y <> me -> q_txns q !! y = Some z -> i ∈ x_rows z ->
  i ∉ x_rows x.
Proof. intros Q Hx N Hz A B. apply N. by eapply (qo_rows _ Q). Qed.
Lemma others_trades (q : Queue) (me y : Z) (x z : Txn) (i : Z) :
  queue_ok q -> q_txns q !! me = Some x -> y <> me -> q_txns q !! y = Some z -> i ∈ x_trades z ->
  i ∉ x_trades x.
Proof. intros Q Hx N Hz A B. apply N. by eapply (qo_trades _ Q). Qed.
End Invariant.

(** The locks of the others are not those of this transaction. *)
Ltac other_locks Q Hx :=
  intros ? ? ? ? ? ?;
  first [eapply (others_rows _ _ _ _ _ _ _ Q Hx); eassumption
        |eapply (others_trades _ _ _ _ _ _ _ Q Hx); eassumption].

Lemma has_trade_some (j : SignalJob) :
  has_trade j = true <-> exists tr, j_trade_id j = Some tr /\ tr <> EmptyString.
Proof.
  unfold has_trade. destruct (j_trade_id j) as [tr|]; [|split; [done|by intros (? & ? & ?)]].
  destruct tr; simpl; split; try done; [by intros (? & [= <-] & ?)|]. intros _. by eexists.
Qed.

Lemma sibling_blocks (t : Tables) (j k : SignalJob) (i : Z) (tr : string) :
  t_jobs t !! i = Some k -> active k = true -> j_trade_id j = Some tr -> j_trade_id k = Some tr ->
  trade_blocked_after_lock t j = false -> j_id k = j_id j.
Proof.
  intros E A Tj Tk B. unfold trade_blocked_after_lock in B. apply orb_false_iff in B as [B _].
  destruct (Z.eqb_spec (j_id j) (j_id k)) as [|N]; [done|].
  assert (X : sibling_in_flight (t_jobs t) j = true); [|congruence].
  apply existsb_exists. exists (i, k). split; [by apply list_elem_of_In, elem_of_map_to_list|].
  simpl. rewrite A, andb_true_r. unfold sibling_of.
  by rewrite Tj, Tk, String.eqb_refl, (proj2 (Z.eqb_neq _ _)).
Qed.

(** The writes of the other operations: same job, and never a new lease. *)
Lemma queue_write_keeps (t : Tables) (j j' : SignalJob) :
  queue_write t j j' ->
  j_id j' = j_id j /\ j_trade_id j' = j_trade_id j /\ (active j' = true -> active j = true).
Proof.
  intros [now status error worker lease O S|now worker lease O|now mx| | |d|now|now r|now status e S];
    unfold owned in *; bool_to_prop; try (split_and!; done).
  - destruct status; split_and!; done.
  - unfold retire. by destruct (evidence t j).
  - apply list_elem_of_In in S. simpl in S.
    destruct S as [<-|[<-|[<-|[]]]]; split_and!; done.
Qed.

Lemma takeable_not_processing (now : Z) (j : SignalJob) :
  takeable now j = true -> j_status j <> JOB_PROCESSING.
Proof. unfold takeable. intros T E. by rewrite E in T. Qed.

Section Steps.
Variable hashtext : string -> Z.
Abbreviation queue_ok := (queue_ok hashtext).

(** The write at the end of a round: a new lease on a job whose trade has no
    other. *)
Lemma step_take_ok (q : Queue) (me : Z) (x : Txn) (id : Z) (j : SignalJob) :
  queue_ok q -> q_txns q !! me = Some x -> t_jobs (sees q x) !! id = Some j ->
  x_phase x = Cleared id \/ x_phase x = Chosen id /\ has_trade j = false ->
  queue_ok (set_txn me (write_job id (take_job (x_now x) (x_lease x) (x_worker x) j) x) q).
Proof.
  intros Q Hx Ej Ph. set (j' := take_job _ _ _ j).
  pose proof (qo_txns _ _ Q me x Hx) as [W P X]. unfold phase_ok in P.
  assert (R : id ∈ x_rows x).
  { destruct Ph as [E|[E _]]; rewrite E in P; [by destruct P as (? & [? _] & _)|done]. }
  assert (F : forall tr, j_trade_id j = Some tr -> tr <> EmptyString ->
                hashtext tr ∈ x_trades x /\ forall k, leased q k tr -> k = id).
  { intros tr Tj N. destruct Ph as [E|[_ H]].
    - rewrite E in P. destruct P as (tr' & (_ & _ & H & j0 & E0 & T0) & A). by simplify_eq.
    - rewrite (proj2 (has_trade_some j)) in H by eauto. done. }
  assert (C : j_id j = id /\ exists c, t_jobs (q_tables q) !! id = Some c /\ j_trade_id c = j_trade_id j).
  { rewrite sees_lookup in Ej. destruct (x_pending x !! id) as [w|] eqn:E; simplify_eq.
    - by destruct (W id j E).
    - split; [by eapply (qo_ids _ _ Q)|by exists j]. }
  destruct C as [Hid Hold].
  assert (L : forall k tr, leased (set_txn me (write_job id j' x) q) k tr ->
                leased q k tr \/ k = id /\ j_trade_id j = Some tr).
  { intros k tr [H|(y & z & w & Hz & E & Tw)]; [by left; left|]. simpl in Hz.
    destruct (decide (y = me)) as [->|N].
    - rewrite lookup_insert_eq in Hz. injection Hz as <-. simpl in E.
      destruct (decide (k = id)) as [->|Nk];
        [rewrite lookup_insert_eq in E; injection E as <-; by right|].
      rewrite lookup_insert_ne in E by done. left. right. by exists me, x, w.
    - rewrite lookup_insert_ne in Hz by done. left. right. by exists y, z, w. }
  apply queue_ok_txn; try done.
  - split; [|done|done]. simpl. intros i w E. destruct (decide (i = id)) as [->|N].
    + rewrite lookup_insert_eq in E. injection E as <-. split; simpl; try done. by apply F.
    + rewrite lookup_insert_ne in E by done. by destruct (W i w E).
  - other_locks Q Hx.
  - other_locks Q Hx.
  - intros k tr N [H|[-> T]]%L; [by left|right]. by apply F.
  - intros i k tr N [A|[-> T]]%L [B|[-> T']]%L; [by eapply (qo_exclusive _ _ Q)| | |done].
    + by eapply F.
    + symmetry. by eapply F.
Qed.

Lemma step_commit_ok (q : Queue) (me : Z) (x : Txn) :
  queue_ok q -> q_txns q !! me = Some x ->
  queue_ok {| q_tables := sees q x; q_txns := delete me (q_txns q) |}.
Proof.
  intros Q Hx. pose proof (qo_txns _ _ Q me x Hx) as [W _ _].
  assert (D : forall y z, delete me (q_txns q) !! y = Some z -> y <> me /\ q_txns q !! y = Some z)
    by (intros y z H; apply lookup_delete_Some in H as [? ?]; done).
  assert (L : forall k tr, leased {| q_tables := sees q x; q_txns := delete me (q_txns q) |} k tr ->
                leased q k tr).
  { intros k tr [(j & E & A & T)|(y & z & j & [_ Hz]%D & E & T)]; [|right; by exists y, z, j].
    simpl q_tables in E. rewrite sees_lookup in E.
    destruct (x_pending x !! k) as [w|] eqn:Ew; simplify_eq; [right; by exists me, x, j|].
    left. by exists j. }
  split.
  - intros i j E. simpl q_tables in E. rewrite sees_lookup in E.
    destruct (x_pending x !! i) as [w|] eqn:Ew; simplify_eq; [by destruct (W i j Ew)|].
    by eapply (qo_ids _ _ Q).
  - intros y z [N Hz]%D. eapply txn_ok_frame; [by eapply (qo_txns _ _ Q)| |by left; eauto].
    intros i Hi. cbn [q_tables]. rewrite sees_lookup.
    destruct (x_pending x !! i) as [w|] eqn:Ew; [|done].
    destruct N. eapply (qo_rows _ _ Q); eauto. by destruct (W i w Ew).
  - intros y y' z z' i [_ A]%D [_ B]%D. by eapply (qo_rows _ _ Q).
  - intros y y' z z' i [_ A]%D [_ B]%D. by eapply (qo_trades _ _ Q).
  - by eapply exclusive_frame; [apply Q|].
Qed.

(** A change of the tables that gives no lease and touches no locked row. *)
Lemma queue_ok_tables (q : Queue) (t : Tables) (txns : gmap Z Txn) :
  queue_ok q -> (forall y z, txns !! y = Some z -> q_txns q !! y = Some z) ->
  (forall i j, t_jobs t !! i = Some j -> j_id j = i) ->
  (forall y z i, txns !! y = Some z -> i ∈ x_rows z -> t_jobs t !! i = t_jobs (q_tables q) !! i) ->
  (forall i j tr, t_jobs t !! i = Some j -> active j = true -> j_trade_id j = Some tr ->
     exists c, t_jobs (q_tables q) !! i = Some c /\ active c = true /\ j_trade_id c = Some tr) ->
  queue_ok {| q_tables := t; q_txns := txns |}.
Proof.
  intros Q S I R A.
  assert (L : forall k tr, leased {| q_tables := t; q_txns := txns |} k tr -> leased q k tr).
  { intros k tr [(j & E & Aj & T)|(y & z & j & Hz & E & T)]; [left; by eapply A|].
    right. exists y, z, j. by split; [apply S|]. }
  split; simpl; try done.
  - intros y z Hz. eapply txn_ok_frame; [by eapply (qo_txns _ _ Q), S| |by left; eauto].
    intros i Hi. by eapply R.
  - intros y y' z z' i A' B. by eapply (qo_rows _ _ Q); apply S.
  - intros y y' z z' i A' B. by eapply (qo_trades _ _ Q); apply S.
  - by eapply exclusive_frame; [apply Q|].
Qed.
(** The test behind the advisory lock sees every lease of the trade: the
    committed ones, its own, and -- the lock being exclusive -- there is no
    other. *)
Lemma cleared_alone (q : Queue) (me : Z) (x : Txn) (id k : Z) (j : SignalJob) (tr : string) :
  queue_ok q -> q_txns q !! me = Some x -> holds_trade hashtext q x id tr ->
  t_jobs (sees q x) !! id = Some j -> trade_blocked_after_lock (sees q x) j = false ->
  leased q k tr -> k = id.
Proof.
  intros Q Hx (_ & N & T & j0 & E0 & T0) Ej B L. assert (j0 = j) as -> by congruence.
  assert (I : forall i w, t_jobs (sees q x) !! i = Some w -> j_id w = i).
  { intros i w E. rewrite sees_lookup in E. destruct (x_pending x !! i) as [v|] eqn:Ev; simplify_eq.
    - by destruct (tx_written _ _ _ (qo_txns _ _ Q me x Hx) i w Ev).
    - by eapply (qo_ids _ _ Q). }
  assert (S : forall w, t_jobs (sees q x) !! k = Some w -> active w = true ->
                j_trade_id w = Some tr -> k = id).
  { intros w E A Tw. rewrite <- (I k w E), <- (I id j Ej). by eapply sibling_blocks. }
  destruct L as [(w & E & A & Tw)|(y & z & w & Hz & E & Tw)].
  - destruct (x_pending x !! k) as [v|] eqn:Ev.
    + destruct (tx_written _ _ _ (qo_txns _ _ Q me x Hx) k v Ev) as [_ _ Av (c & Ec & Tc) _].
      apply (S v); [by rewrite sees_lookup, Ev|done|congruence].
    + apply (S w); [by rewrite sees_lookup, Ev|done|done].
  - destruct (tx_written _ _ _ (qo_txns _ _ Q y z Hz) k w E) as [_ _ Aw _ Kw].
    destruct (decide (y = me)) as [->|M].
    + simplify_eq. apply (S w); [by rewrite sees_lookup, E|done|done].
    + destruct M. by eapply (qo_trades _ _ Q); [..|by apply Kw|].
Qed.

Lemma step_write_ok (q : Queue) (id : Z) (j j' : SignalJob) :
  queue_ok q -> t_jobs (q_tables q) !! id = Some j -> row_locked id q = false ->
  queue_write (q_tables q) j j' ->
  queue_ok {| q_tables := with_jobs (<[id := j']> (t_jobs (q_tables q))) (q_tables q);
              q_txns := q_txns q |}.
Proof.
  intros Q Hj Hf Hw.
  apply queue_write_keeps in Hw as (Hi & Htr & Ha).
  assert (D : forall i k, <[id := j']> (t_jobs (q_tables q)) !! i = Some k ->
            i = id /\ k = j' \/ i <> id /\ t_jobs (q_tables q) !! i = Some k)
    by (intros i k [[<- <-]|[? ?]]%lookup_insert_Some; auto).
  apply (queue_ok_tables q); simpl; try done.
  - intros i k [[-> ->]|[_ H]]%D; [|by eapply (qo_ids _ _ Q)].
    rewrite Hi. by eapply (qo_ids _ _ Q).
  - intros y z i Hz H. apply lookup_insert_ne. intros ->. by eapply row_free.
  - intros i k tr [[-> ->]|[_ H]]%D A T; [|by exists k].
    exists j. split_and!; [done|by apply Ha|congruence].
Qed.

Lemma step_insert_ok (q : Queue) (id : Z) (nj : SignalJob) :
  queue_ok q -> t_jobs (q_tables q) !! id = None -> j_id nj = id -> active nj = false ->
  queue_ok {| q_tables := with_jobs (<[id := nj]> (t_jobs (q_tables q))) (q_tables q);
              q_txns := q_txns q |}.
Proof.
  intros Q Hn Hid Ha.
  assert (D : forall i k, <[id := nj]> (t_jobs (q_tables q)) !! i = Some k ->
            i = id /\ k = nj \/ i <> id /\ t_jobs (q_tables q) !! i = Some k)
    by (intros i k [[<- <-]|[? ?]]%lookup_insert_Some; auto).
  apply (queue_ok_tables q); simpl; try done.
  - intros i k [[-> ->]|[_ H]]%D; [done|by eapply (qo_ids _ _ Q)].
  - intros y z i Hz H. apply lookup_insert_ne. intros ->.
    destruct (tx_rows _ _ _ (qo_txns _ _ Q y z Hz) _ H) as (c & E & _). congruence.
  - intros i k t [[-> ->]|[_ H]]%D A T; [congruence|by exists k].
Qed.

Lemma step_ok (q q' : Queue) : step hashtext q q' -> queue_ok q -> queue_ok q'.
Proof.
  intros St Q.
  destruct St as [me w now lease limit Hn|me x Hx Hp Hl|me x view j cur Hx Hp Hv Hc Hs Ht Hh
    |me x id j Hx Hp Hs Ht Hh|me x id j Hx Hp Hs Hb|me x id j Hx Hp Hs Hb|me x id j Hx Hs Hp
    |me x Hx Hp|me|id j j' Hj Hf Hw|now id sg st tr key pl cap cor sc Hn|signals orders claims].
  - apply queue_ok_txn; simpl; try set_solver.
    + by split.
    + left. eapply leased_same; [|done]. by intros i j.
    + eapply exclusive_frame; [apply Q|]. intros k tr. by apply leased_same.
  - eapply queue_ok_quiet; try done; [other_locks Q Hx|other_locks Q Hx|by left].
  - eapply queue_ok_quiet; try done; simpl; [set_solver| | |
      |intros _; unfold phase_ok; simpl; set_solver].
    + intros y z i N Hz Hi [->%elem_of_singleton|H]%elem_of_union; [|exact (others_rows _ _ _ _ _ _ _ Q Hx N Hz Hi H)].
      apply N. by eapply (not_held x_rows).
    + other_locks Q Hx.
    + intros i [->%elem_of_singleton|H]%elem_of_union; [right|by left].
      exists cur. by split; [|eapply takeable_not_processing].
  - apply has_trade_some in Ht as (tr & Tj & N). unfold trade_key in *. rewrite Tj in *. simpl in *.
    pose proof (tx_phase _ _ _ (qo_txns _ _ Q me x Hx)) as P. unfold phase_ok in P. rewrite Hp in P.
    eapply queue_ok_quiet; try done; simpl; [set_solver| | |by left|].
    + other_locks Q Hx.
    + intros y z i M Hz Hi [->%elem_of_singleton|H]%elem_of_union; [|exact (others_trades _ _ _ _ _ _ _ Q Hx M Hz Hi H)].
      apply M. by eapply (not_held x_trades).
    + intros _. unfold phase_ok, holds_trade. simpl. exists tr.
      split_and!; [done|done|set_solver|by exists j].
  - eapply queue_ok_quiet; try done; [other_locks Q Hx|other_locks Q Hx|by left].
  - pose proof (tx_phase _ _ _ (qo_txns _ _ Q me x Hx)) as P. unfold phase_ok in P. rewrite Hp in P.
    eapply queue_ok_quiet; try done; [other_locks Q Hx|other_locks Q Hx|by left|].
    intros L. unfold phase_ok. simpl. destruct P as (tr & P). exists tr. split; [done|].
    intros k K. by eapply cleared_alone; [..|apply L].
  - by eapply step_take_ok.
  - by eapply step_commit_ok.
  - apply (queue_ok_tables q); eauto; [|by apply Q].
    intros y z H. by apply lookup_delete_Some in H as [? ?].
  - by eapply step_write_ok.
  - by apply step_insert_ok.
  - apply (queue_ok_tables q); simpl; eauto. by apply Q.
Qed.

Lemma reachable_ok (t : Tables) (q : Queue) :
  (forall i j, t_jobs t !! i = Some j -> j_id j = i) -> exclusive (started t) ->
  reachable hashtext t q -> queue_ok q.
Proof.
  intros I X R. unfold reachable in R.
  assert (Q0 : queue_ok (started t))
    by (split; simpl; [exact I|by intros *; rewrite lookup_empty..|exact X]).
  clear I X. revert Q0. induction R as [q|q q' q'' S _ IH]; [done|]. intros Q. apply IH. by eapply step_ok.
Qed.
End Steps.

(** C4: Whatever the workers, the sweeper and the other writers of the queue
    do, and however their transactions interleave, no two jobs of one trade are
    ever under a lease at once: an OPEN and its CLOSE never execute together. *)
Theorem one_lease_per_trade (hashtext : string -> Z) (t : Tables) (q : Queue) :
  (forall i j, t_jobs t !! i = Some j -> j_id j = i) -> exclusive (started t) ->
  reachable hashtext t q ->
  forall i k j j' trade, t_jobs (q_tables q) !! i = Some j -> t_jobs (q_tables q) !! k = Some j' ->
    i <> k -> j_trade_id j = Some trade -> j_trade_id j' = Some trade -> trade <> EmptyString ->
    active j && active j' = false.
Proof.
  intros I X R i k j j' tr Ei Ek D Ti Tk N.
  pose proof (reachable_ok hashtext t q I X R) as Q.
  destruct (active j) eqn:Ai, (active j') eqn:Ak; try done. destruct D.
  eapply (qo_exclusive _ _ Q); [by apply N|left; by exists j|left; by exists j'].
Qed.

(** A job whose execution has begun is never claimed again by a worker,
    however long ago its lease expired: no step turns PROCESSING into
    CLAIMED. *)
Theorem processing_never_retaken (hashtext : string -> Z) (t : Tables) (q q' : Queue) :
  (forall i j, t_jobs t !! i = Some j -> j_id j = i) -> exclusive (started t) ->
  reachable hashtext t q -> step hashtext q q' ->
  forall i j j', t_jobs (q_tables q) !! i = Some j -> j_status j = JOB_PROCESSING ->
    t_jobs (q_tables q') !! i = Some j' -> j_status j' <> JOB_CLAIMED.
Proof.
  intros I X R St i j j' Ei P Ei'.
  pose proof (reachable_ok hashtext t q I X R) as Q.
  assert (Same : t_jobs (q_tables q) !! i = Some j' -> j_status j' <> JOB_CLAIMED) by congruence.
  destruct St as [| | | | | | |me x Hx Hp| |id k k' Hk Hf Hw|now id sg st tr key pl cap cor sc Hn|];
    try by apply Same.
  - simpl q_tables in Ei'. rewrite sees_lookup in Ei'.
    destruct (x_pending x !! i) as [w|] eqn:Ew; [|by apply Same].
    pose proof (qo_txns _ _ Q me x Hx) as [W _ F]. destruct (W i w Ew) as [_ Hi _ _ _].
    destruct (F i Hi) as (c & Ec & S). congruence.
  - simpl in Ei'. destruct (decide (i = id)) as [->|N];
      [|rewrite lookup_insert_ne in Ei' by done; by apply Same].
    rewrite lookup_insert_eq in Ei'. simplify_eq.
    destruct Hw as [now status error worker lease O S|now worker lease O|now mx| | |d|now|now r|now status e S];
      try done; try (by rewrite P).
    + by destruct status.
    + unfold retire. by destruct (evidence _ _).
    + apply list_elem_of_In in S. simpl in S. by destruct S as [<-|[<-|[<-|[]]]].
  - simpl in Ei'. apply lookup_insert_Some in Ei' as [[-> <-]|[_ E]]; [done|by apply Same].
Qed.

(** Two workers, an OPEN and the CLOSE of its trade, both queued: both select
    before either commits, the second finds the trade leased behind the
    advisory lock. *)
Definition ex_job (id : Z) (signal : string) (status : JobStatus) (lease : option Z) : SignalJob :=
  job_with status None lease None
    (new_job id 0 signal "model_blue" (Some "T1"%string) signal JNull None "r"%string None).
Definition ex_open : SignalJob := ex_job 1 "T1" JOB_QUEUED None.
Definition ex_close : SignalJob := ex_job 2 "T1:CLOSE" JOB_QUEUED None.
Definition ex_tables : Tables := {|
  t_jobs := <[1 := ex_open]> (<[2 := ex_close]> ∅);
  t_signals := []; t_orders := []; t_claims := ∅ |}.
Definition ex_hash (s : string) : Z := Z.of_nat (String.length s).
Lemma ex_run : exists q, reachable ex_hash ex_tables q
  /\ t_jobs (q_tables q) !! 1 = Some (take_job 10 40 "worker-1" ex_open)
  /\ t_jobs (q_tables q) !! 2 = Some ex_close.
Proof.
  eexists. split.
  - eapply rtc_l; [apply (step_begin _ _ 1 "worker-1" 10 40 1); reflexivity|].
    eapply rtc_l; [apply (step_begin _ _ 2 "worker-2" 10 40 1); reflexivity|].
    eapply rtc_l; [eapply (step_select _ _ 1); [reflexivity|reflexivity|apply Nat.lt_0_1]|].
    eapply rtc_l; [eapply (step_select _ _ 2); [reflexivity|reflexivity|apply Nat.lt_0_1]|].
    eapply rtc_l; [eapply (step_choose _ _ 1 _ _ ex_open); reflexivity|].
    eapply rtc_l; [eapply (step_choose _ _ 2 _ _ ex_close); reflexivity|].
    eapply rtc_l; [eapply (step_lock _ _ 1); reflexivity|].
    eapply rtc_l; [eapply (step_clear _ _ 1); reflexivity|].
    eapply rtc_l; [eapply (step_take _ _ 1 _ 1); [reflexivity|reflexivity|left; reflexivity]|].
    eapply rtc_l; [eapply (step_commit _ _ 1); [reflexivity|left; reflexivity]|].
    eapply rtc_l; [eapply (step_lock _ _ 2); reflexivity|].
    eapply rtc_l; [eapply (step_skip _ _ 2); reflexivity|].
    eapply rtc_l; [eapply (step_commit _ _ 2); [reflexivity|left; reflexivity]|].
    apply rtc_refl.
  - split; reflexivity.
Qed.

Lemma ex_jobs (i : Z) (j : SignalJob) :
  t_jobs ex_tables !! i = Some j -> i = 1 /\ j = ex_open \/ i = 2 /\ j = ex_close.
Proof.
  change (t_jobs ex_tables) with (<[1 := ex_open]> (<[2 := ex_close]> (∅ : gmap Z SignalJob))).
  intros [[<- <-]|[_ [[<- <-]|[_ H]]%lookup_insert_Some]]%lookup_insert_Some; auto.
  by rewrite lookup_empty in H.
Qed.
Lemma ex_keys (i : Z) (j : SignalJob) : t_jobs ex_tables !! i = Some j -> j_id j = i.
Proof. by intros [[-> ->]|[-> ->]]%ex_jobs. Qed.
Lemma ex_exclusive : exclusive (started ex_tables).
Proof.
  intros i k tr N [(j & E & A & _)|(me & x & j & E & _)]; [|done].
  by apply ex_jobs in E as [[-> ->]|[-> ->]].
Qed.

Lemma one_lease_per_trade_witness :
  exists q j j', reachable ex_hash ex_tables q /\ t_jobs (q_tables q) !! 1 = Some j
    /\ t_jobs (q_tables q) !! 2 = Some j' /\ j_trade_id j = j_trade_id j'
    /\ active j = true /\ active j && active j' = false.
Proof.
  destruct ex_run as (q & R & E1 & E2). exists q. do 2 eexists.
  split_and!; [exact R|exact E1|exact E2|reflexivity|reflexivity|].
  apply (one_lease_per_trade ex_hash ex_tables q ex_keys ex_exclusive R 1 2 _ _ "T1" E1 E2);
    [discriminate|reflexivity|reflexivity|discriminate].
Defined.

Definition ex_running : SignalJob := ex_job 1 "T1" JOB_PROCESSING (Some 5).
Definition ex_stuck : Tables := {|
  t_jobs := <[1 := ex_running]> ∅; t_signals := []; t_orders := []; t_claims := ∅ |}.
Lemma ex_stuck_jobs (i : Z) (j : SignalJob) :
  t_jobs ex_stuck !! i = Some j -> i = 1 /\ j = ex_running.
Proof.
  change (t_jobs ex_stuck) with (<[1 := ex_running]> (∅ : gmap Z SignalJob)).
  intros [[<- <-]|[_ H]]%lookup_insert_Some; [done|by rewrite lookup_empty in H].
Qed.
Lemma ex_stuck_keys (i : Z) (j : SignalJob) : t_jobs ex_stuck !! i = Some j -> j_id j = i.
Proof. by intros [-> ->]%ex_stuck_jobs. Qed.
Lemma ex_stuck_exclusive : exclusive (started ex_stuck).
Proof.
  assert (K : forall i tr, leased (started ex_stuck) i tr -> i = 1).
  { intros i tr [(j & E & _)|(me & x & j & E & _)]; [|done].
    by apply ex_stuck_jobs in E as [-> _]. }
  intros i k tr _ A B. apply K in A as ->. by apply K in B as ->.
Qed.
(** Its lease expired long ago, and the sweeper takes it out of the queue. *)
Lemma processing_never_retaken_witness :
  expired 1000 ex_running = true /\ exists q', step ex_hash (started ex_stuck) q'
    /\ t_jobs (q_tables q') !! 1 = Some (quarantine ex_running)
    /\ j_status (quarantine ex_running) <> JOB_CLAIMED.
Proof.
  split; [reflexivity|]. eexists.
  assert (S := step_write ex_hash (started ex_stuck) 1 ex_running _ eq_refl eq_refl
                 (qw_quarantine _ _)).
  split_and!; [exact S|reflexivity|].
  eapply (processing_never_retaken ex_hash ex_stuck _ _ ex_stuck_keys ex_stuck_exclusive
            (rtc_refl _ _) S 1 ex_running); reflexivity.
Defined.
