(* ===== verification/QueueFacts.v ===== *)
(** * What the job queue promises: ingestion, claiming, fencing, sweeping and
    recovery

    Theorems about the operations of [JobQueue.v], each as one transaction. *)

From S2P Require Import Prelude Rounding PyText PyTime Identifiers RmsModels Claims Sha256 JobQueue.

#[local] Open Scope Z_scope.
#[local] Set Warnings "-clear-no-such-hyp".

(** ** Lookups *)
Lemma update_job_lookup (id : Z) (p : SignalJob -> bool) (f : SignalJob -> SignalJob)
    (m : gmap Z SignalJob) (i : Z) :
  (update_job id p f m).1 !! i =
    (fun j => if (i =? id) && p j then f j else j) <$> m !! i.
Proof.
  unfold update_job. destruct (m !! id) as [j|] eqn:E; [destruct (p j) eqn:P|]; simpl;
    destruct (Z.eqb_spec i id) as [->|N].
  - by rewrite lookup_insert_eq, E; simpl; rewrite P.
  - rewrite lookup_insert_ne by done. by destruct (m !! i).
  - by rewrite E; simpl; rewrite P.
  - by destruct (m !! i).
  - by rewrite E.
  - by destruct (m !! i).
Qed.

Lemma update_where_lookup (p : SignalJob -> bool) (f : SignalJob -> SignalJob)
    (m : gmap Z SignalJob) (i : Z) :
  (update_where p f m).1 !! i = (fun j => if p j then f j else j) <$> m !! i.
Proof. apply lookup_fmap. Qed.

Lemma jobs_elem (m : gmap Z SignalJob) (j : SignalJob) :
  j ∈ map snd (map_to_list m) <-> exists i, m !! i = Some j.
Proof. apply values_elem. Qed.

(** ** Fencing *)

(** A worker that no longer owns a job's lease changes nothing: its status
    writes affect no row and leave the queue as it was, and its heartbeat
    reports the loss; a write by the owner affects exactly the one row. *)
Theorem fence_exact (now id : Z) (status : JobStatus) (error : option string) (w : string)
    (lease : Q) (m : gmap Z SignalJob) :
  match m !! id with
  | Some j =>
      if owned w j then
        update_status now id status error (Some w) true lease m
        = Ok (<[id := status_update now lease status error (Some w) j]> m, 1)
        /\ (heartbeat_lease now id w lease m).2 = true
      else update_status now id status error (Some w) true lease m = Ok (m, 0)
           /\ heartbeat_lease now id w lease m = (m, false)
  | None => update_status now id status error (Some w) true lease m = Ok (m, 0)
            /\ heartbeat_lease now id w lease m = (m, false)
  end.
Proof.
  unfold update_status, heartbeat_lease, update_job.
  destruct (m !! id) as [j|]; [destruct (owned w j)|]; done.
Qed.

(** ** Claiming *)
Lemma earliest_elem (l : list SignalJob) (j : SignalJob) : earliest l = Some j -> j ∈ l.
Proof.
  revert j. induction l as [|k l IH]; intros j; simpl; [done|].
  destruct (earliest l) as [k'|]; [|intros [= <-]; by left].
  destruct (_ <? _); intros [= <-]; [right; by apply IH|by left].
Qed.
Lemma earliest_none (l : list SignalJob) : earliest l = None -> l = [].
Proof. destruct l as [|k l]; simpl; [done|]. by destruct (earliest l) as [k'|]; [destruct (_ <? _)|]. Qed.
Lemma earliest_least (l : list SignalJob) (j k : SignalJob) :
  earliest l = Some j -> k ∈ l -> j_received_at j <= j_received_at k.
Proof.
  revert j. induction l as [|x l IH]; intros j E K; simpl in E; [by apply not_elem_of_nil in K|].
  apply elem_of_cons in K. destruct (earliest l) as [y|] eqn:Y.
  - destruct (Z.ltb_spec (j_received_at y) (j_received_at x)) as [H|H]; injection E as <-;
      destruct K as [->|K]; try lia; by specialize (IH y eq_refl K); lia.
  - injection E as <-. destruct K as [->|K]; [lia|].
    apply earliest_none in Y as ->. by apply not_elem_of_nil in K.
Qed.

Definition candidates (now : Z) (skipped locked : gset Z) (t : Tables) (j : SignalJob) : Prop :=
  (exists i, t_jobs t !! i = Some j) /\ is_candidate_job now skipped t j = true
  /\ j_id j ∉ locked.
Lemma select_some (now : Z) (skipped locked : gset Z) (t : Tables) (j : SignalJob) :
  select_claim_candidate now skipped locked t = Some j ->
  candidates now skipped locked t j
  /\ forall k, candidates now skipped locked t k -> j_received_at j <= j_received_at k.
Proof.
  unfold select_claim_candidate, candidates. intros E. split.
  - apply earliest_elem, filter_elem in E as [H P]. apply jobs_elem in H as [i H]. bool_to_prop. eauto.
  - intros k ((i & H) & P & N). eapply earliest_least; [done|]. apply filter_elem.
    split; [by apply jobs_elem; exists i|]. by rewrite P, bool_decide_false.
Qed.
Lemma select_none (now : Z) (skipped locked : gset Z) (t : Tables) (j : SignalJob) :
  select_claim_candidate now skipped locked t = None -> ~ candidates now skipped locked t j.
Proof.
  unfold select_claim_candidate, candidates. intros E ((i & H) & P & N).
  apply earliest_none in E. assert (K : j ∈ @nil SignalJob); [|by apply not_elem_of_nil in K].
  rewrite <- E. apply filter_elem. split; [by apply jobs_elem; exists i|].
  by rewrite P, bool_decide_false.
Qed.

(** Alone, a transaction sees behind the advisory lock what its select saw. *)
Lemma candidate_not_blocked (now : Z) (skipped : gset Z) (t : Tables) (j : SignalJob) :
  is_candidate_job now skipped t j = true -> trade_blocked_after_lock t j = false.
Proof.
  unfold is_candidate_job, trade_blocked_after_lock. intros C. bool_to_prop.
  match goal with H : sibling_in_flight _ _ = false |- _ => rewrite H end. rewrite orb_false_l.
  destruct (existsb _ _) eqn:E; [|done]. apply existsb_exists in E as (s & Hs & E).
  apply existsb_exists in E as (kc & Hk & E). bool_to_prop.
  match goal with H : claim_in_flight _ _ = false |- _ =>
    assert (X : claim_in_flight (t_claims t) j = true); [|congruence] end.
  apply existsb_exists. exists kc. split; [done|]. apply list_elem_of_In in Hs. simplify_eq.
  rewrite !andb_true_iff, bool_decide_eq_true, String.eqb_eq. by split_and!.
Qed.

Lemma claim_loop_spec (fuel : nat) (now lease : Z) (worker : string) (limit : nat) (t : Tables) :
  (limit <= fuel)%nat ->
  let (t', l) := claim_loop fuel now lease worker limit ∅ t in
  (length l <= limit)%nat
  /\ ((length l < limit)%nat -> forall j, ~ candidates now ∅ ∅ t' j)
  /\ (forall j, select_claim_candidate now ∅ ∅ t = Some j -> (0 < limit)%nat ->
      head l = Some (take_job now lease worker j)).
Proof.
  revert limit t. induction fuel as [|fuel IH]; intros limit t F.
  { destruct limit; [|lia]. simpl. split_and!; [lia|lia|intros; lia]. }
  destruct limit as [|limit]; simpl; [split_and!; simpl; intros; lia|].
  destruct (select_claim_candidate now ∅ ∅ t) as [j|] eqn:S; simpl.
  - pose proof (select_some _ _ _ _ _ S) as [(_ & C & _) _].
    rewrite (candidate_not_blocked _ _ _ _ C), andb_false_r.
    set (t1 := with_jobs _ t). specialize (IH limit t1 ltac:(lia)).
    destruct (claim_loop fuel now lease worker limit ∅ t1) as [t' l].
    destruct IH as (B & X & _). simpl. split_and!; [lia|intros ? k; apply X; lia|].
    by intros k [= <-] _.
  - split_and!; [lia| |done]. intros _ j. by apply select_none.
Qed.

(** A claiming transaction that nothing disturbs takes the job received
    earliest, at most as many jobs as asked for, and fewer only when nothing is
    left to claim: its loop ends, and no worker idles on a claimable job. *)
Theorem claim_next_jobs_exact (now : Z) (worker : string) (limit : nat) (lease : Q) (t : Tables) :
  let (t', l) := claim_next_jobs now worker limit lease t in
  (length l <= limit)%nat
  /\ ((length l < limit)%nat -> forall j, ~ candidates now ∅ ∅ t' j)
  /\ forall k, candidates now ∅ ∅ t k -> (0 < limit)%nat ->
     exists j, candidates now ∅ ∅ t j /\ j_received_at j <= j_received_at k
               /\ head l = Some (take_job now (now + timedelta_seconds lease) worker j).
Proof.
  unfold claim_next_jobs.
  pose proof (claim_loop_spec (limit + size (t_jobs t)) now (now + timedelta_seconds lease) worker
                limit t ltac:(lia)) as H.
  destruct (claim_loop _ _ _ _ _ _ _) as [t' l]. destruct H as (B & X & H).
  split_and!; [done|done|]. intros k K L.
  destruct (select_claim_candidate now ∅ ∅ t) as [j|] eqn:S.
  - pose proof (select_some _ _ _ _ _ S) as [C Le]. exists j.
    split_and!; [done|by apply Le|by apply H].
  - by apply select_none with (j := k) in S.
Qed.

(** ** Stuck claims *)

(** A claim that stays held blocks every job of its trade, the CLOSE
    included, whatever account they are for: no worker ever selects one. *)
Theorem held_claim_blocks_trade (now : Z) (skipped : gset Z) (t : Tables) (key : string)
    (c : ExecutionClaim) (j : SignalJob) :
  t_claims t !! key = Some c -> cl_state c = CL_CLAIMED ->
  cl_strategy_id c = j_strategy_id j -> cl_signal_id c ∈ trade_signals j ->
  is_candidate_job now skipped t j = false.
Proof.
  intros E S Hs Hj. unfold is_candidate_job.
  assert (X : claim_in_flight (t_claims t) j = true).
  { apply existsb_exists. exists (key, c). split; [by apply list_elem_of_In, elem_of_map_to_list|].
    simpl. unfold is_claimed. by rewrite Hs, String.eqb_refl, S, !bool_decide_true. }
  by rewrite X, andb_false_r.
Qed.

(** The sweep never gives it back while the ledger shows no order. *)
Lemma reconcile_keeps (count : string -> string -> Z) (now : Z) (key : string) (c : ExecutionClaim)
    (l : list (string * ExecutionClaim)) (t : ClaimTable) (n : Z) :
  Forall (fun kc => kc.1 = key -> count (cl_strategy_id kc.2) (cl_signal_id kc.2) = 0) l ->
  t !! key = Some c -> (fold_left (reconcile_step count now) l (t, n)).1 !! key = Some c.
Proof.
  intros F. revert t n. induction F as [|kc l Hk _ IH]; intros t n E; simpl; [done|].
  destruct (Z.eqb_spec (count (cl_strategy_id kc.2) (cl_signal_id kc.2)) 0) as [|N]; [by apply IH|].
  apply IH. unfold mark_executed. rewrite update_claimed_lookup, E, bool_decide_false; [done|].
  intros ->. by apply N, Hk.
Qed.
Lemma unsent_claim_stays (count : string -> string -> Z) (now : Z) (stale : Q) (t : ClaimTable)
    (key : string) (c : ExecutionClaim) :
  t !! key = Some c -> count (cl_strategy_id c) (cl_signal_id c) = 0 ->
  (reconcile_stale_claims count now stale t).1 !! key = Some c.
Proof.
  intros E Z0. apply reconcile_keeps; [|done].
  apply Forall_forall. intros [k c'] H Ek. apply list_elem_of_In, list_elem_of_In, filter_elem in H as [H _].
  apply elem_of_map_to_list in H. simpl in *. by simplify_eq.
Qed.

(** ** Sweeping *)
Definition swept (now max_attempts : Z) (t : Tables) (j : SignalJob) : SignalJob :=
  if active j && expired now j then
    if max_attempts <=? j_attempt_count j then retire now max_attempts t j
    else if bool_decide (j_status j = JOB_PROCESSING) then quarantine j else requeue j
  else j.

Lemma active_cases (j : SignalJob) :
  active j = true -> j_status j = JOB_CLAIMED \/ j_status j = JOB_PROCESSING.
Proof.
  unfold active. intros A. bool_to_prop. apply list_elem_of_In in A. simpl in A. intuition.
Qed.

Lemma update_where_eq (p : SignalJob -> bool) (f : SignalJob -> SignalJob)
    (m m' : gmap Z SignalJob) (n : Z) (i : Z) :
  update_where p f m = (m', n) -> m' !! i = (fun j => if p j then f j else j) <$> m !! i.
Proof. intros E. rewrite <- update_where_lookup. by rewrite E. Qed.

Lemma retired_inactive (now max_attempts : Z) (t : Tables) (j : SignalJob) :
  active (retire now max_attempts t j) = false
  /\ expired now (retire now max_attempts t j) = false.
Proof. unfold retire. by destruct (evidence t j). Qed.

(** What the sweep does to a job, on every branch: only a job under an
    expired lease is touched; on its last attempt it is dead-lettered, or
    quarantined when the ledger or a live claim shows that it may have traded;
    before that it goes back to the queue only if its execution never began. *)
Theorem reclaim_exact (now max_attempts : Z) (t : Tables) (i : Z) :
  t_jobs (reclaim_stale_jobs now max_attempts t).1 !! i = swept now max_attempts t <$> t_jobs t !! i.
Proof.
  unfold reclaim_stale_jobs.
  destruct (update_where _ _ (t_jobs t)) as [m1 n1] eqn:E1.
  destruct (update_where _ _ m1) as [m2 n2] eqn:E2.
  destruct (update_where _ _ m2) as [m3 n3] eqn:E3.
  destruct (update_where _ _ m3) as [m4 n4] eqn:E4. simpl.
  rewrite (update_where_eq _ _ _ _ _ i E4), (update_where_eq _ _ _ _ _ i E3),
    (update_where_eq _ _ _ _ _ i E2), (update_where_eq _ _ _ _ _ i E1).
  clear E1 E2 E3 E4. destruct (t_jobs t !! i) as [j|]; [|done]. cbn [fmap option_fmap option_map].
  apply (f_equal Some). unfold swept. cbv beta zeta. pose proof (retired_inactive now max_attempts t j) as R.
  remember (retire now max_attempts t j) as r eqn:Er. symmetry in Er. destruct R as [Ra Rx].
  assert (Rs : bool_decide (j_status r = JOB_PROCESSING) = false
               /\ bool_decide (j_status r = JOB_CLAIMED) = false)
    by (unfold active in Ra; by destruct (j_status r)).
  destruct Rs as [Rp Rc].
  assert (Qc : bool_decide (j_status (quarantine j) = JOB_CLAIMED) = false) by reflexivity.
  assert (Aj : active j = bool_decide (j_status j = JOB_PROCESSING)
                          || bool_decide (j_status j = JOB_CLAIMED))
    by (unfold active; by destruct (j_status j)).
  assert (Lt : (j_attempt_count j <? max_attempts) = negb (max_attempts <=? j_attempt_count j))
    by (rewrite Z.leb_antisym; by destruct (j_attempt_count j <? max_attempts)).
  assert (Pc : bool_decide (j_status j = JOB_PROCESSING) && bool_decide (j_status j = JOB_CLAIMED) = false)
    by (by destruct (j_status j)).
  destruct (bool_decide (j_status j = JOB_PROCESSING)) eqn:P,
    (bool_decide (j_status j = JOB_CLAIMED)) eqn:C; [discriminate Pc|..];
    destruct (expired now j) eqn:X, (max_attempts <=? j_attempt_count j) eqn:O, (evidence t j) eqn:V;
    cbn [andb orb negb];
    repeat (rewrite ?Er, ?Ra, ?Rp, ?Rc, ?Qc, ?Aj, ?Lt, ?P, ?C, ?X, ?O, ?V; cbn [andb orb negb]);
    reflexivity.
Qed.

(** ** Recovery *)
Definition verdict (t : Tables) (j : SignalJob) : JobStatus :=
  if evidence t j then JOB_RECOVERY_REQUIRED
  else if j_max_attempts j <=? j_attempt_count j then JOB_DEAD_LETTER else JOB_QUEUED.

Lemma recover_job_lookup (now : Z) (t : Tables) (j : SignalJob) (i : Z) :
  exists error, t_jobs (recover_job now t j) !! i
  = (fun k => if i =? j_id j then status_update now 30 (verdict t j) (Some error) None k else k)
      <$> t_jobs t !! i.
Proof.
  unfold recover_job, verdict.
  destruct (evidence t j); [|destruct (j_max_attempts j <=? j_attempt_count j)]; eexists; simpl;
    rewrite update_job_lookup; destruct (t_jobs t !! i); simpl; try rewrite andb_true_r; reflexivity.
Qed.
Lemma recover_job_tables (now : Z) (t : Tables) (j : SignalJob) :
  t_signals (recover_job now t j) = t_signals t /\ t_orders (recover_job now t j) = t_orders t
  /\ t_claims (recover_job now t j) = t_claims t.
Proof.
  unfold recover_job. destruct (evidence t j); [done|].
  by destruct (j_max_attempts j <=? j_attempt_count j).
Qed.
Lemma verdict_same (t t' : Tables) (j : SignalJob) :
  t_signals t' = t_signals t -> t_orders t' = t_orders t -> t_claims t' = t_claims t ->
  verdict t' j = verdict t j.
Proof. intros S O C. unfold verdict, evidence, count_orders_emitted. by rewrite S, O, C. Qed.

Lemma recover_loop (now : Z) (l : list SignalJob) (t : Tables) (i : Z) (j : SignalJob) :
  NoDup (map j_id l) -> t_jobs t !! i = Some j -> (forall k, k ∈ l -> j_id k = i -> k = j) ->
  exists j', t_jobs (fold_left (recover_job now) l t) !! i = Some j'
    /\ j_status j' = if bool_decide (i ∈ map j_id l) then verdict t j else j_status j.
Proof.
  revert t. induction l as [|k l IH]; intros t D E U; simpl; [by exists j|].
  apply NoDup_cons in D as [Nk D]. destruct (recover_job_lookup now t k i) as [e L].
  destruct (recover_job_tables now t k) as (S & O & C). rewrite E in L. simpl in L.
  destruct (Z.eqb_spec i (j_id k)) as [->|N].
  - rewrite (U k ltac:(by left) eq_refl) in *. clear IH.
    assert (K : forall t', t_jobs t' !! j_id j = Some (status_update now 30 (verdict t j) (Some e) None j) ->
      exists j', t_jobs (fold_left (recover_job now) l t') !! j_id j = Some j' /\ j_status j' = verdict t j).
    { clear -Nk. induction l as [|x l IH]; intros t' E'; simpl.
      - eexists. split; [done|]. unfold verdict. destruct (evidence t j); [done|].
        by destruct (j_max_attempts j <=? j_attempt_count j).
      - apply IH; [set_solver|]. destruct (recover_job_lookup now t' x (j_id j)) as [e' ->].
        rewrite E'. simpl. rewrite (proj2 (Z.eqb_neq _ _)); [done|]. set_solver. }
    destruct (K _ L) as (j' & E' & S'). exists j'. split; [done|].
    rewrite bool_decide_true; [done|by left].
  - destruct (IH _ D L) as (j' & E' & S').
    { intros x Hx. apply U. by right. }
    exists j'. split; [done|]. rewrite S', (verdict_same t) by done.
    rewrite (bool_decide_ext (i ∈ j_id k :: map j_id l) (i ∈ map j_id l)); [done|]. set_solver.
Qed.

Lemma has_claimed_true (strategy signal : string) (t : ClaimTable) :
  has_claimed strategy signal t = true <->
  exists k c, t !! k = Some c /\ cl_strategy_id c = strategy /\ cl_signal_id c = signal
              /\ cl_state c = CL_CLAIMED.
Proof.
  unfold has_claimed, is_claimed. rewrite existsb_exists. split.
  - intros ([k c] & H & E). simpl in E. bool_to_prop.
    apply list_elem_of_In, elem_of_map_to_list in H. by exists k, c.
  - intros (k & c & H & Hs & Hg & S). exists (k, c).
    split; [by apply list_elem_of_In, elem_of_map_to_list|]. simpl.
    by rewrite Hs, Hg, !String.eqb_refl, bool_decide_true.
Qed.

(** Sealing the claims first does not change what the ledger tells of a job. *)
Lemma evidence_reconciled (now : Z) (stale : Q) (t : Tables) (j : SignalJob) :
  evidence (with_claims (reconcile_stale_claims (count_orders_emitted t) now stale (t_claims t)).1 t) j
  = evidence t j.
Proof.
  unfold evidence. set (cs := (reconcile_stale_claims _ _ _ _).1).
  change (count_orders_emitted (with_claims cs t)) with (count_orders_emitted t). simpl.
  destruct (Z.ltb_spec 0 (count_orders_emitted t (j_strategy_id j) (j_signal_id j))) as [|L]; [done|].
  simpl. apply eq_bool_prop_intro. rewrite !Is_true_true, !has_claimed_true. split.
  - intros (k & c & E & Hs & Hg & S). exists k, c.
    pose proof (reconcile_sealed (count_orders_emitted t) now stale (t_claims t) k) as R.
    fold cs in R. rewrite E in R. destruct R as [R|(c' & m & s & E' & _ & R)]; [by rewrite <- R|].
    by simplify_eq.
  - intros (k & c & E & Hs & Hg & S). exists k, c. split_and!; [|done..].
    apply unsent_claim_stays; [done|]. rewrite Hs, Hg. unfold count_orders_emitted in *. lia.
Qed.

Lemma pending_ids (t : Tables) (i : Z) (j : SignalJob) :
  (forall i j, t_jobs t !! i = Some j -> j_id j = i) -> t_jobs t !! i = Some j ->
  i ∈ map j_id (pending_jobs t) <-> pending j = true.
Proof.
  intros K E. unfold pending_jobs. rewrite list_elem_of_fmap. split.
  - intros (k & Hk & H). apply filter_elem in H as [H Pk]. apply jobs_elem in H as [i' H].
    pose proof (K _ _ H). congruence.
  - intros P. exists j. split; [symmetry; by apply K|]. apply filter_elem.
    split; [by apply jobs_elem; exists i|done].
Qed.
Lemma job_ids_unique (m : gmap Z SignalJob) (p : SignalJob -> bool) :
  (forall i j, m !! i = Some j -> j_id j = i) ->
  NoDup (map j_id (List.filter p (map snd (map_to_list m)))).
Proof.
  intros K. assert (F : Forall (fun ij => j_id ij.2 = ij.1) (map_to_list m)).
  { apply Forall_forall. intros [i j] H. apply K. by apply elem_of_map_to_list. }
  pose proof (NoDup_fst_map_to_list m) as D. revert F D.
  generalize (map_to_list m). intros l. induction l as [|[i j] l IH]; simpl; intros F D; [constructor|].
  apply Forall_cons in F as [E F]. apply NoDup_cons in D as [N D]. simpl in *.
  destruct (p j); [|by apply IH]. simpl. apply NoDup_cons. split; [|by apply IH].
  intros H. apply N. apply list_elem_of_fmap in H as (k & Hk & H). apply filter_elem in H as [H _].
  apply list_elem_of_fmap in H as ([i' k'] & -> & H). apply list_elem_of_fmap. exists (i', k').
  split; [|done]. simpl in *. rewrite Forall_forall in F. pose proof (F _ H). simpl in *. congruence.
Qed.

Lemma recovery_verdict (now : Z) (baskets : bool) (t : Tables) (i : Z) (j : SignalJob) :
  (forall i j, t_jobs t !! i = Some j -> j_id j = i) -> t_jobs t !! i = Some j ->
  exists j', t_jobs (run_startup_recovery now baskets t).1 !! i = Some j'
    /\ j_status j' = if pending j then verdict t j else j_status j.
Proof.
  intros K E. pose proof (pending_ids t i j K E) as P. unfold run_startup_recovery.
  destruct (negb baskets && _) eqn:B.
  - bool_to_prop. match goal with H : pending_jobs t = [] |- _ => rewrite H in P end.
    exists j. split; [done|]. destruct (pending j); [|done]. destruct (not_elem_of_nil i). by apply P.
  - pose proof (evidence_reconciled now 0 t j) as V.
    destruct (reconcile_stale_claims _ _ _ _) as [cs n]. simpl in *.
    destruct (recover_loop now (pending_jobs t) (with_claims cs t) i j) as (j' & E' & S').
    + by apply job_ids_unique.
    + done.
    + intros k H Hk. apply filter_elem in H as [H _]. apply jobs_elem in H as [i' H].
      pose proof (K _ _ H). congruence.
    + exists j'. split; [done|]. rewrite S'. unfold verdict. rewrite V.
      destruct (pending j) eqn:Pj; [by rewrite bool_decide_true by (by apply P)|].
      rewrite bool_decide_false; [done|]. intros H%P. congruence.
Qed.

(** C21: At startup every job left under a lease or in quarantine gets a
    verdict, and no other job is touched: it goes back to the queue exactly
    when the ledger has no order of its signal, no live claim is held for it
    and attempts are left; otherwise it waits for reconciliation or is
    dead-lettered. *)
Theorem recovery_exact (now : Z) (baskets : bool) (t : Tables) (i : Z) (j : SignalJob) :
  (forall i j, t_jobs t !! i = Some j -> j_id j = i) -> t_jobs t !! i = Some j ->
  exists j', t_jobs (run_startup_recovery now baskets t).1 !! i = Some j'
    /\ (pending j = false -> j_status j' = j_status j)
    /\ (pending j = true -> (j_status j' = JOB_QUEUED <->
          count_orders_emitted t (j_strategy_id j) (j_signal_id j) = 0
          /\ has_claimed (j_strategy_id j) (j_signal_id j) (t_claims t) = false
          /\ j_attempt_count j < j_max_attempts j)
        /\ j_status j' ∈ [JOB_QUEUED; JOB_RECOVERY_REQUIRED; JOB_DEAD_LETTER]).
Proof.
  intros K E. destruct (recovery_verdict now baskets t i j K E) as (j' & E' & S). exists j'.
  split; [done|]. split; intros P; rewrite P in S; [done|]. rewrite S. unfold verdict, evidence.
  assert (N : 0 <= count_orders_emitted t (j_strategy_id j) (j_signal_id j))
    by (unfold count_orders_emitted; lia).
  destruct (Z.ltb_spec 0 (count_orders_emitted t (j_strategy_id j) (j_signal_id j))) as [L|L]; simpl.
  { split; [|set_solver]. split; [done|]. intros (? & _). lia. }
  destruct (has_claimed _ _ _); [split; [|set_solver]; split; [done|by intros (_ & ? & _)]|].
  destruct (Z.leb_spec (j_max_attempts j) (j_attempt_count j)); (split; [|set_solver]);
    (split; [|intros (_ & _ & ?)]); try done; try lia.
Qed.

(** ** Ingestion *)
Definition unique_keys (m : gmap Z SignalJob) : Prop :=
  forall i k j j', m !! i = Some j -> m !! k = Some j' ->
    j_idempotency_key j = j_idempotency_key j' -> i = k.
Definition queued_under (key : string) (m : gmap Z SignalJob) : Prop :=
  exists i j, m !! i = Some j /\ j_idempotency_key j = key.

Lemma get_by_key_elem (key : string) (m : gmap Z SignalJob) (j : SignalJob) :
  get_by_idempotency_key key m = Some j -> (exists i, m !! i = Some j) /\ j_idempotency_key j = key.
Proof.
  unfold get_by_idempotency_key. destruct (List.filter _ _) as [|k l] eqn:F; [done|].
  intros [= ->]. assert (H : j ∈ j :: l) by (by left). rewrite <- F in H.
  apply filter_elem in H as [H K]. bool_to_prop. by apply jobs_elem in H.
Qed.
Lemma get_by_key_none (key : string) (m : gmap Z SignalJob) :
  get_by_idempotency_key key m = None <-> ~ queued_under key m.
Proof.
  unfold get_by_idempotency_key. split.
  - intros N (i & j & E & K). destruct (List.filter _ _) as [|k l] eqn:F; [|done].
    destruct (not_elem_of_nil j). rewrite <- F. apply filter_elem.
    split; [by apply jobs_elem; exists i|by apply String.eqb_eq].
  - intros N. destruct (List.filter _ _) as [|k l] eqn:F; [done|]. destruct N.
    destruct (get_by_key_elem key m k) as [[i E] K]; [unfold get_by_idempotency_key; by rewrite F|].
    by exists i, k.
Qed.

Section Enqueue.
Variables (now : Z) (signal strategy : string) (trade : option string) (key : string)
  (payload : json) (capture : option json) (correlation : string).
Abbreviation enqueue := (fun ids scopes m => enqueue_scopes ids now signal strategy trade key payload
                                          capture correlation scopes m).

(** What is there stays there, and every scope ends up with its job. *)
Lemma create_keeps (id : Z) (scope : option string) (m : gmap Z SignalJob) (k : string) :
  m !! id = None ->
  let m' := (create_job_if_not_exists id now signal strategy trade (scoped_key key scope) payload
               capture correlation scope m).1 in
  (queued_under k m -> queued_under k m') /\ queued_under (scoped_key key scope) m'.
Proof.
  intros F. unfold create_job_if_not_exists.
  destruct (get_by_idempotency_key _ m) as [j|] eqn:G; simpl.
  - split; [done|]. apply get_by_key_elem in G as [[i E] K]. by exists i, j.
  - split; [|eexists id, _; by rewrite lookup_insert_eq].
    intros (i & j & E & K). exists i, j. rewrite lookup_insert_ne; [done|congruence].
Qed.

Lemma enqueue_queues (ids : list Z) (scopes : list (option string)) (m : gmap Z SignalJob) :
  (length scopes <= length ids)%nat -> NoDup ids -> (forall id, id ∈ ids -> m !! id = None) ->
  let m' := (enqueue ids scopes m).1 in
  (forall k, queued_under k m -> queued_under k m')
  /\ (forall s, s ∈ scopes -> queued_under (scoped_key key s) m').
Proof.
  simpl. revert ids m. induction scopes as [|s scopes IH]; intros ids m L D F; simpl.
  { split; [by destruct ids|]. by intros s ?%not_elem_of_nil. }
  destruct ids as [|id ids]; simpl in *; [lia|]. apply NoDup_cons in D as [Nid D].
  pose proof (create_keeps id s m) as C.
  destruct (create_job_if_not_exists _ _ _ _ _ _ _ _ _ _ m) as [m1 r] eqn:E.
  destruct (IH ids m1) as [A B]; [lia|done| |].
  { intros i Hi. unfold create_job_if_not_exists in E. destruct (get_by_idempotency_key _ m);
      simplify_eq; [|rewrite lookup_insert_ne by set_solver]; apply F; by right. }
  destruct (enqueue_scopes ids _ _ _ _ _ _ _ _ scopes m1) as [m2 rs]. simpl in *.
  assert (F0 : m !! id = None) by (apply F; by left). split.
  - intros k K. by apply A, C.
  - intros s' [->|H]%elem_of_cons; [|by apply B]. apply A. by apply (C EmptyString).
Qed.

Lemma enqueue_again (ids : list Z) (scopes : list (option string)) (m : gmap Z SignalJob) :
  (forall s, s ∈ scopes -> queued_under (scoped_key key s) m) ->
  (enqueue ids scopes m).1 = m /\ Forall (fun r => r.2 = false) (enqueue ids scopes m).2.
Proof.
  simpl. revert ids. induction scopes as [|s scopes IH]; intros ids Q; simpl; [by destruct ids|].
  destruct ids as [|id ids]; [done|].
  destruct (get_by_idempotency_key (scoped_key key s) m) as [j|] eqn:G.
  - destruct (IH ids) as [A B]; [intros s' H; apply Q; by right|].
    assert (C : create_job_if_not_exists id now signal strategy trade (scoped_key key s) payload
                  capture correlation s m = (m, (j, false)))
      by (unfold create_job_if_not_exists; by rewrite G).
    cbn [enqueue_scopes]. rewrite C. destruct (enqueue_scopes ids _ _ _ _ _ _ _ _ scopes m) as [m2 rs]. simpl in *. subst.
    split; [done|]. by constructor.
  - apply get_by_key_none in G. destruct G. apply Q. by left.
Qed.
End Enqueue.

Lemma identity_fixed (fresh fresh' : string) (payload : list (string * json)) :
  (compute_idempotency_key fresh payload).1.2 <> None ->
  compute_idempotency_key fresh' payload = compute_idempotency_key fresh payload.
Proof.
  unfold compute_idempotency_key.
  destruct (normalize_trade_id _) as [|c s]; [done|]. intros _.
  set (a := (_ && _)). set (tr := String c s).
  assert (H : str_empty (if a then (tr ++ ":CLOSE")%string else tr) = false) by (by destruct a).
  by rewrite H.
Qed.

(** A webhook delivered again -- at any time, with a new request id --
    queues nothing: every account's job is found under the key it was queued
    with, so a signal is executed once however often its alert is sent. *)
Theorem ingest_idempotent (ids ids' : list Z) (now now' : Z) (fresh fresh' corr corr' : string)
    (accounts : list Z) (payload : list (string * json)) (cap cap' : option json)
    (m : gmap Z SignalJob) :
  (compute_idempotency_key fresh payload).1.2 <> None ->
  (length (scopes_of accounts) <= length ids)%nat -> NoDup ids ->
  (forall id, id ∈ ids -> m !! id = None) ->
  let m1 := (ingest ids now fresh corr accounts payload cap m).1 in
  (ingest ids' now' fresh' corr' accounts payload cap' m1).1 = m1
  /\ Forall (fun r => r.2 = false) (ingest ids' now' fresh' corr' accounts payload cap' m1).2.
Proof.
  intros T L D F. unfold ingest. rewrite (identity_fixed fresh fresh' payload T).
  destruct (compute_idempotency_key fresh payload) as [[[strategy signal] trade] key]. simpl.
  apply enqueue_again. intros s Hs.
  by apply (enqueue_queues now signal strategy trade key (JObj payload) cap corr ids
              (scopes_of accounts) m L D F).
Qed.

(** ** Concrete instances *)
Definition ex_alert : list (string * json) :=
  [("strategy", JStr "Model_Blue"); ("action", JStr "open"); ("trade_id", JStr "T1")]%string.
Definition ex_queue (accounts : list Z) : gmap Z SignalJob :=
  (ingest [1; 2] 10 EmptyString "r1" accounts ex_alert None ∅).1.

Lemma ingest_idempotent_witness :
  size (ex_queue [7; 8]) = 2%nat
  /\ (ingest [3; 4] 99 EmptyString "r2" [7; 8] ex_alert None (ex_queue [7; 8])).1 = ex_queue [7; 8]
  /\ Forall (fun r => r.2 = false)
       (ingest [3; 4] 99 EmptyString "r2" [7; 8] ex_alert None (ex_queue [7; 8])).2.
Proof.
  split; [by vm_compute|].
  apply (ingest_idempotent [1; 2] [3; 4] 10 99 EmptyString EmptyString "r1" "r2" [7; 8] ex_alert
           None None ∅).
  - discriminate.
  - simpl. lia.
  - repeat constructor; set_solver.
  - intros id _. apply lookup_empty.
Defined.

(** The accounts are part of the keys: when the router fails on a redelivery,
    one more job is queued, for all accounts at once. *)
Example redelivery_unrouted :
  size (ingest [3] 99 EmptyString "r2" [] ex_alert None (ex_queue [7; 8])).1 = 3%nat.
Proof. by vm_compute. Qed.

(** Parking one account's job hides that another account's was processed. *)
Definition ex_parked : Tables := {|
  t_jobs := (status_update 20 30 JOB_PROCESSING None (Some "w"%string)) <$> ex_queue [7; 8];
  t_signals := [{| sr_id := 1; sr_strategy_id := "model_blue"; sr_signal_id := "T1";
                   sr_trade_id := Some "T1"; sr_action := "OPEN"; sr_pair := "SPY:QQQ"; sr_side := "1";
                   sr_ref_price_a := DFin 500; sr_ref_price_b := Some (DFin 400);
                   sr_raw_payload := JObj ex_alert; sr_status := "PROCESSED";
                   sr_reject_reason := None; sr_received_at := 5; sr_processed_at := Some 15 |}];
  t_orders := [1]; t_claims := ∅ |}.
Definition ex_deferral : Deferral := {|
  df_deferred_at := 30; df_reason := "RED_ZONE_DEFERRED"; df_reference_price := None;
  df_resolved_session_close := None; df_applied_buffer_seconds := 300; df_session_count := 0 |}.
Example park_hides_processed :
  map sr_status (t_signals (park_red_zone 2 "w" ex_deferral id ex_parked).1) = ["DEFERRED_RED_ZONE"%string].
Proof. by vm_compute. Qed.

(** The park checks its fence before it writes: when the job is reclaimed and
    claimed by another worker in between, that worker's lease is overwritten
    and the job deferred under its hands. *)
Example park_overwrites_claim :
  let reclaimed := fmap (M := gmap Z) (take_job 40 70 "w2") in
  let t := (park_red_zone 2 "w" ex_deferral reclaimed ex_parked).1 in
  (fun j => (j_status j, j_worker_id j)) <$> t_jobs t !! 2 = Some (JOB_DEFERRED_RED_ZONE, None)
  /\ (fun j => (j_status j, j_worker_id j)) <$> reclaimed (t_jobs ex_parked) !! 2
     = Some (JOB_CLAIMED, Some "w2"%string).
Proof. by vm_compute. Qed.

Lemma recovery_exact_witness :
  exists j', t_jobs (run_startup_recovery 99 false ex_parked).1 !! 2 = Some j'
    /\ j_status j' = JOB_RECOVERY_REQUIRED.
Proof.
  assert (K : forall i j, t_jobs ex_parked !! i = Some j -> j_id j = i).
  { apply (map_Forall_to_list (fun i j => j_id j = i)). by vm_compute; repeat constructor. }
  destruct (t_jobs ex_parked !! 2) as [j|] eqn:E; [|by vm_compute in E].
  destruct (recovery_exact 99 false ex_parked 2 j K E) as (j' & E' & _).
  exists j'. split; [exact E'|]. vm_compute in E'. by injection E' as <-.
Defined.

Definition ex_held : ExecutionClaim := {|
  cl_account_id := Some 7; cl_strategy_id := "model_blue"; cl_signal_id := "T1";
  cl_action := "OPEN"; cl_state := CL_CLAIMED; cl_attempt_count := 1; cl_correlation_id := None;
  cl_last_note := None; cl_claimed_at := 10; cl_executed_at := None |}.
Definition ex_close_job : SignalJob :=
  new_job 5 50 "T1:CLOSE" "model_blue" (Some "T1"%string) "k" JNull None "r3" (Some "8"%string).
(** The CLOSE of account 8 waits for the claim of account 7's OPEN. *)
Lemma held_claim_blocks_trade_witness :
  j_status ex_close_job = JOB_QUEUED
  /\ is_candidate_job 1000000000000 ∅
       {| t_jobs := {[5 := ex_close_job]}; t_signals := []; t_orders := [];
          t_claims := {["k7"%string := ex_held]} |} ex_close_job = false.
Proof.
  split; [reflexivity|].
  apply (held_claim_blocks_trade _ ∅ _ "k7" ex_held ex_close_job);
    [by vm_compute|reflexivity|reflexivity|].
  simpl. right. left.
Defined.
