(* ===== verification/SignalInbox.v ===== *)
(** * The signal inbox: [SignalRepository] of
    [db/repositories/signal_repository.py]

    The audit row of a signal: its identity, its columns and the upsert that
    the workers of several accounts share.  The rows themselves are those of
    [JobQueue.v]. *)

From S2P Require Import Prelude Rounding PyText Identifiers RmsModels Parser Sizer Accounts TradeBook Strategy Claims Sha256 JobQueue QueueFacts.

#[local] Open Scope Z_scope.
#[local] Open Scope py_scope.
#[local] Set Warnings "-clear-no-such-hyp".

Definition SIGNAL_STATUS_PROCESSED : string := "PROCESSED".
Definition SIGNAL_STATUS_NEW : string := "NEW".
Definition SIGNAL_STATUS_REJECTED : string := "REJECTED".

Definition persist_signal_id_for (signal : Signal) : string :=
  let trade_id := str_strip (str_or (opt_str (sig_trade_id signal)) (opt_str (sig_signal_id signal))) in
  let action := str_upper (sig_action signal) in
  if (action =? "CLOSE")%string && negb (str_empty trade_id) && negb (str_ends_with ":CLOSE" trade_id)
  then (trade_id ++ ":CLOSE")%string else trade_id.

(** [s.replace(pat, EMPTY)] for a non-empty [pat]; [skip] counts the
    characters of a match still to drop. *)
Fixpoint char_prefix (pat l : list Ascii.ascii) : bool :=
  match pat, l with
  | [], _ => true
  | p :: pat, c :: l => Ascii.eqb p c && char_prefix pat l
  | _ :: _, [] => false
  end.
Fixpoint remove_all (pat : list Ascii.ascii) (skip : nat) (l : list Ascii.ascii) : list Ascii.ascii :=
  match l, skip with
  | [], _ => []
  | _ :: l, S k => remove_all pat k l
  | c :: l, O => if char_prefix pat (c :: l) then remove_all pat (length pat - 1) l
                 else c :: remove_all pat 0 l
  end.
Definition str_remove (pat s : string) : string := of_chars (remove_all (chars pat) 0 (chars s)).

Section Inbox.
(** [str] of a [Decimal], whose exponent the model of decimals leaves out. *)
Variable price_text : pydec -> string.

Definition opt_json (o : option string) : json := match o with Some s => JStr s | None => JNull end.
Definition nonempty_or_null (s : string) : json := if str_empty s then JNull else JStr s.

Definition reconstruct_bucket (leg : SignalLeg) : json :=
  JObj [("underlying", JStr (sl_symbol leg));
        ("legs", JList [JObj [("instrument_type", JStr (sl_instrument_type leg));
                              ("side", opt_json (sl_payload_side leg));
                              ("weight", match sl_weight leg with Some w => JFloat w | None => JNull end);
                              ("price", JStr (price_text (sl_price leg)))]])]%string.
Definition reconstruct_payload (signal : Signal) : json :=
  JObj [("strategy", opt_json (sig_strategy_id signal));
        ("action", nonempty_or_null (str_upper (sig_action signal)));
        ("trade_id", match sig_trade_id signal with
                     | Some (String _ _ as t) => JStr t
                     | _ => opt_json (sig_signal_id signal)
                     end);
        ("direction", match sig_direction signal with Some d => JInt d | None => JNull end);
        ("market", opt_json (sig_market signal));
        ("buckets", JList (map reconstruct_bucket (sig_legs signal)))]%string.
Definition original_raw_payload (signal : Signal) : json :=
  match sig_raw_payload signal with
  | Some (JObj (_ :: _) as raw) => raw
  | _ => reconstruct_payload signal
  end.

(** The parts of the trade id that carry a symbol, behind its last colon. *)
Definition trade_parts (trade_id : string) : list string :=
  map (fun p => default EmptyString (last (str_split ":"%char p)))
    (List.filter (has_char ":"%char) (str_split "-"%char trade_id)).
Definition pair_of (signal : Signal) : string :=
  let pair := String.concat ":" (map sl_symbol (sig_legs signal)) in
  if str_empty pair && negb (str_empty (opt_str (sig_trade_id signal))) then
    match trade_parts (opt_str (sig_trade_id signal)) with
    | a :: b :: _ => (a ++ ":" ++ b)%string
    | [a] => a
    | [] => EmptyString
    end
  else pair.
Definition side_of (signal : Signal) : string :=
  match sig_direction signal with
  | Some d => str_Z d
  | None =>
      if negb (str_empty (opt_str (sig_side signal))) then opt_str (sig_side signal)
      else
        match List.filter (fun s => negb (str_empty s))
                (map (fun l => opt_str (sl_payload_side l)) (sig_legs signal)) with
        | [] => "N/A"%string
        | sides => String.concat ":" sides
        end
  end.

(** The new row; [id] and [now] come from the database and the clock. *)
Definition audit_values (id now : Z) (signal : Signal) (persist_id status : string)
    (reject_reason : option string) : SignalRecord := {|
  sr_id := id;
  sr_strategy_id := opt_str (sig_strategy_id signal);
  sr_signal_id := persist_id;
  sr_trade_id := Some (str_or (opt_str (sig_trade_id signal)) (str_remove ":CLOSE" persist_id));
  sr_action := str_upper (sig_action signal);
  sr_pair := str_or (pair_of signal) (str_or (opt_str (sig_symbol signal)) "N/A");
  sr_side := str_or (side_of signal) "N/A";
  sr_ref_price_a := match sig_legs signal with
                    | l :: _ => sl_price l
                    | [] => default (DFin 0%Q) (sig_price signal)
                    end;
  sr_ref_price_b := match sig_legs signal with _ :: l :: _ => Some (sl_price l) | _ => None end;
  sr_raw_payload := original_raw_payload signal;
  sr_status := status; sr_reject_reason := reject_reason; sr_received_at := now;
  sr_processed_at := if (status =? SIGNAL_STATUS_PROCESSED)%string then Some now else None |}.

(** Whether a row has this identity, the unique constraint of the table. *)
Definition same_signal (strategy persist_id : string) (r : SignalRecord) : bool :=
  String.eqb (sr_strategy_id r) strategy && String.eqb (sr_signal_id r) persist_id.

(** The [?] operator of a JSONB column. *)
Definition json_has_key (key : string) (v : json) : bool :=
  match v with
  | JObj fields => existsb (fun kv => String.eqb kv.1 key) fields
  | JList l => existsb (fun x => match x with JStr s => String.eqb s key | _ => false end) l
  | JStr s => String.eqb s key
  | _ => false
  end.

Definition is_processed (r : SignalRecord) : bool := (sr_status r =? SIGNAL_STATUS_PROCESSED)%string.

(** [ON CONFLICT DO UPDATE]: the old row, with what the excluded one brings. *)
Definition merge_row (old new : SignalRecord) : SignalRecord := {|
  sr_id := sr_id old; sr_strategy_id := sr_strategy_id old; sr_signal_id := sr_signal_id old;
  sr_trade_id := sr_trade_id new; sr_action := sr_action new;
  sr_pair := if negb (str_empty (sr_pair new)) then sr_pair new else sr_pair old;
  sr_side := if negb (sr_side new =? "N/A")%string then sr_side new else sr_side old;
  sr_ref_price_a := sr_ref_price_a new; sr_ref_price_b := sr_ref_price_b new;
  sr_raw_payload := if json_has_key "parsed_json" (sr_raw_payload old)
                       && negb (json_has_key "parsed_json" (sr_raw_payload new))
                    then sr_raw_payload old else sr_raw_payload new;
  sr_status := if is_processed old then sr_status old
               else if is_processed new || (sr_status new =? SIGNAL_STATUS_REJECTED)%string
               then sr_status new else sr_status old;
  sr_reject_reason := if is_processed old || str_empty (opt_str (sr_reject_reason new))
                      then sr_reject_reason old else sr_reject_reason new;
  sr_received_at := sr_received_at old;
  sr_processed_at := or_old (sr_processed_at old) (sr_processed_at new) |}.

Fixpoint upsert_row (new : SignalRecord) (l : list SignalRecord) : list SignalRecord :=
  match l with
  | [] => [new]
  | r :: l => if same_signal (sr_strategy_id new) (sr_signal_id new) r
              then merge_row r new :: l else r :: upsert_row new l
  end.

Definition get_by_strategy_signal (strategy persist_id : string) (l : list SignalRecord)
    : option SignalRecord := List.find (same_signal strategy persist_id) l.
Definition signal_is_processed (strategy persist_id : string) (l : list SignalRecord) : bool :=
  match get_by_strategy_signal strategy persist_id l with Some r => is_processed r | None => false end.
Definition list_processed_open_keys (l : list SignalRecord) : gset (string * string) :=
  list_to_set (map (fun r => (sr_strategy_id r, sr_signal_id r))
    (List.filter (fun r => is_processed r && (sr_action r =? "OPEN")%string) l)).

Definition upsert (id now : Z) (signal : Signal) (persist_id status : string)
    (reject_reason : option string) (l : list SignalRecord)
    : result (list SignalRecord * SignalRecord) :=
  if str_empty persist_id
  then Raise (ValueError "SIGNAL_ID_REQUIRED: cannot persist a signal without signal_id/trade_id.")
  else
    let values := audit_values id now signal persist_id status reject_reason in
    if negb (truthy (sr_raw_payload values))
    then Raise (ValueError "SIGNAL_PAYLOAD_EMPTY: refusing to persist raw_payload={}.")
    else
      let l := upsert_row values l in
      match get_by_strategy_signal (opt_str (sig_strategy_id signal)) persist_id l with
      | Some r => Ok (l, r)
      | None => Raise (OtherError "Failed to persist signal")
      end.

Definition record_inbound (id now : Z) (signal : Signal) (persist_id : option string)
    (status : string) (reject_reason : option string) (l : list SignalRecord) :=
  upsert id now signal (str_or (opt_str persist_id) (persist_signal_id_for signal)) status
    reject_reason l.
Definition record_processed (id now : Z) (signal : Signal) (persist_id status : string)
    (l : list SignalRecord) :=
  upsert id now signal persist_id status None l.

(** [record_rejected_payload]; [fresh] is the time stamp of a generated id. *)
Definition request_id (capture : list (string * json)) : result string :=
  match jor (jget "metadata" capture) (JObj []) with
  | JObj m => Ok (py_str (jor (jget "request_id" m) (JStr EmptyString)))
  | _ => Raise AttributeError
  end.
Definition record_rejected_payload (id now : Z) (fresh : string) (payload capture : list (string * json))
    (reason : string) (l : list SignalRecord) : result (list SignalRecord * SignalRecord) :=
  let text v := str_strip (py_str (jor v (JStr EmptyString))) in
  let strategy := text (jor (jget "strategy" payload) (jget "strategy_id" payload)) in
  let trade := text (jor (jget "trade_id" payload) (jget "signal_id" payload)) in
  let action := str_or (str_upper (text (jget "action" payload))) "UNKNOWN" in
  let! request := if str_empty trade then request_id capture else Ok EmptyString in
  let persist_id := str_or trade (str_or request ("REJECTED-" ++ fresh)) in
  let raw := if truthy (jget "parsed_json" capture) then capture
             else List.filter (fun kv => negb (String.eqb kv.1 "parsed_json")) capture
                  ++ [("parsed_json"%string, JObj payload)] in
  let signal := {|
    sig_signal_type := SIG_HOLD; sig_timestamp := now; sig_reason := reason;
    sig_signal_id := Some persist_id; sig_strategy_id := Some (str_or strategy "unknown");
    sig_action := action; sig_symbol := None; sig_side := None; sig_price := None;
    sig_quantity := None; sig_trade_id := Some (str_or trade persist_id); sig_direction := None;
    sig_market := None; sig_legs := []; sig_raw_payload := Some (JObj raw) |} in
  upsert id now signal persist_id SIGNAL_STATUS_REJECTED (Some reason) l.
End Inbox.

(** ** Lookups behind an upsert *)
Section Facts.
Variable price_text : pydec -> string.
Abbreviation upsert := (upsert price_text).
Abbreviation audit_values := (audit_values price_text).

Lemma merge_identity (old new : SignalRecord) (strategy persist_id : string) :
  same_signal strategy persist_id (merge_row old new) = same_signal strategy persist_id old.
Proof. done. Qed.

Lemma same_signal_spec (strategy persist_id : string) (r : SignalRecord) :
  same_signal strategy persist_id r = true <-> sr_strategy_id r = strategy /\ sr_signal_id r = persist_id.
Proof. unfold same_signal. by rewrite andb_true_iff, !String.eqb_eq. Qed.

Lemma get_upsert (new : SignalRecord) (l : list SignalRecord) (strategy persist_id : string) :
  get_by_strategy_signal strategy persist_id (upsert_row new l)
  = if same_signal strategy persist_id new
    then Some (match get_by_strategy_signal strategy persist_id l with
               | Some old => merge_row old new
               | None => new
               end)
    else get_by_strategy_signal strategy persist_id l.
Proof.
  unfold get_by_strategy_signal. induction l as [|r l IH]; simpl; [by destruct (same_signal _ _ new)|].
  destruct (same_signal (sr_strategy_id new) (sr_signal_id new) r) eqn:E; simpl.
  - apply same_signal_spec in E as [E1 E2]. rewrite merge_identity.
    assert (S : same_signal strategy persist_id new = same_signal strategy persist_id r)
      by (unfold same_signal; by rewrite E1, E2).
    rewrite S. by destruct (same_signal strategy persist_id r).
  - rewrite IH. destruct (same_signal strategy persist_id new) eqn:N; [|done].
    apply same_signal_spec in N as [<- <-]. by rewrite E.
Qed.

Lemma payload_nonempty (signal : Signal) : truthy (original_raw_payload price_text signal) = true.
Proof. unfold original_raw_payload. by destruct (sig_raw_payload signal) as [[| | | | | |[|kv l]]|]. Qed.

(** An upsert with an identity never fails. *)
Lemma upsert_ok (id now : Z) (signal : Signal) (persist_id status : string) (reason : option string)
    (l : list SignalRecord) :
  str_empty persist_id = false ->
  exists r, upsert id now signal persist_id status reason l
            = Ok (upsert_row (audit_values id now signal persist_id status reason) l, r).
Proof.
  intros E. unfold SignalInbox.upsert. cbv zeta. rewrite E, get_upsert.
  change (sr_raw_payload _) with (original_raw_payload price_text signal). rewrite payload_nonempty.
  cbn [negb].
  assert (S : same_signal (opt_str (sig_strategy_id signal)) persist_id
                (audit_values id now signal persist_id status reason) = true)
    by (by apply same_signal_spec).
  rewrite S. eauto.
Qed.

(** ** Accounts that share a signal *)
Record InboxOp : Type := {
  io_id : Z; io_now : Z; io_signal : Signal; io_persist_id : string; io_status : string;
  io_reason : option string
}.
Definition inbox_step (l : list SignalRecord) (op : InboxOp) : list SignalRecord :=
  match upsert (io_id op) (io_now op) (io_signal op) (io_persist_id op) (io_status op)
          (io_reason op) l with
  | Ok (l', _) => l'
  | Raise _ => l
  end.
Definition inbox_run (ops : list InboxOp) (l : list SignalRecord) : list SignalRecord :=
  fold_left inbox_step ops l.
(** The upserts of one signal. *)
Definition about_signal (strategy persist_id : string) (op : InboxOp) : Prop :=
  opt_str (sig_strategy_id (io_signal op)) = strategy /\ io_persist_id op = persist_id.

Lemma step_get (l : list SignalRecord) (op : InboxOp) (strategy persist_id : string) :
  str_empty persist_id = false ->
  (about_signal strategy persist_id op /\
   get_by_strategy_signal strategy persist_id (inbox_step l op)
   = Some (let new := audit_values (io_id op) (io_now op) (io_signal op) (io_persist_id op)
                        (io_status op) (io_reason op) in
           match get_by_strategy_signal strategy persist_id l with
           | Some old => merge_row old new
           | None => new
           end))
  \/ (~ about_signal strategy persist_id op /\
      get_by_strategy_signal strategy persist_id (inbox_step l op)
      = get_by_strategy_signal strategy persist_id l).
Proof.
  intros N. unfold inbox_step. destruct (str_empty (io_persist_id op)) eqn:E.
  - right. unfold SignalInbox.upsert. rewrite E. split; [|done]. intros [_ X]. congruence.
  - destruct (upsert_ok (io_id op) (io_now op) (io_signal op) (io_persist_id op) (io_status op)
                (io_reason op) l E) as [r ->]. rewrite get_upsert.
    destruct (same_signal strategy persist_id _) eqn:S; [left|right]; (split; [|done]).
    + by apply same_signal_spec in S.
    + intros A. cut (same_signal strategy persist_id (audit_values (io_id op) (io_now op)
        (io_signal op) (io_persist_id op) (io_status op) (io_reason op)) = true); [by rewrite S|].
      by apply same_signal_spec.
Qed.

Lemma merge_processed (old new : SignalRecord) :
  is_processed (merge_row old new) = is_processed old || is_processed new.
Proof.
  unfold is_processed at 1. simpl. destruct (is_processed old) eqn:O; [done|].
  destruct (is_processed new) eqn:W; simpl; [done|].
  destruct (sr_status new =? SIGNAL_STATUS_REJECTED)%string; [done|done].
Qed.

(** A signal shared by several accounts counts as processed exactly when
    one of their workers recorded it as processed, in whatever order they
    report and whatever the others report -- new, rejected or deferred -- before
    and after. *)
Theorem processed_once_any_did (ops : list InboxOp) (l : list SignalRecord)
    (strategy persist_id : string) :
  str_empty persist_id = false ->
  signal_is_processed strategy persist_id (inbox_run ops l) = true <->
  signal_is_processed strategy persist_id l = true
  \/ exists op, op ∈ ops /\ about_signal strategy persist_id op
                /\ io_status op = SIGNAL_STATUS_PROCESSED.
Proof.
  intros N. revert l. induction ops as [|op ops IH]; intros l; simpl.
  { split; [by left|]. intros [H|(op & H & _)]; [done|by apply not_elem_of_nil in H]. }
  rewrite IH. clear IH. setoid_rewrite elem_of_cons.
  assert (S : signal_is_processed strategy persist_id (inbox_step l op) = true <->
    signal_is_processed strategy persist_id l = true
    \/ (about_signal strategy persist_id op /\ io_status op = SIGNAL_STATUS_PROCESSED)).
  { unfold signal_is_processed.
    destruct (step_get l op strategy persist_id N) as [[A ->]|[A ->]]; [|naive_solver].
    destruct (get_by_strategy_signal strategy persist_id l) as [old|].
    - rewrite merge_processed, orb_true_iff. unfold is_processed at 2. simpl.
      rewrite String.eqb_eq. naive_solver.
    - unfold is_processed. simpl. rewrite String.eqb_eq. naive_solver. }
  rewrite S. naive_solver.
Qed.
End Facts.

(** ** The identity of a signal from alert to intent *)
Lemma text_field_truthy (key : string) (payload : list (string * json)) :
  str_empty (text_field key payload) = false ->
  truthy (jget key payload) = true /\ text_field key payload = str_strip (py_str (jget key payload)).
Proof. unfold text_field, jor. by destruct (truthy (jget key payload)). Qed.

Lemma jor_truthy (v d : json) : truthy v = true -> jor v d = v.
Proof. unfold jor. by intros ->. Qed.
Lemma normalize_truthy_strategy (v : json) :
  truthy v = true -> normalize_strategy_id v = str_or (str_lower (str_strip (py_str v))) DEFAULT_STRATEGY_ID.
Proof. by destruct v. Qed.
Lemma normalize_truthy_trade (v : json) :
  truthy v = true -> normalize_trade_id v = str_strip (py_str v).
Proof. by destruct v. Qed.

Lemma compute_parsed (fresh : string) (payload : list (string * json)) (ts : Z) (why : string)
    (raw : option json) (s : Signal) (strategy signal : string) (trade : option string) (key : string) :
  parse_model_blue_payload payload ts why raw = Ok s ->
  compute_idempotency_key fresh payload = (strategy, signal, trade, key) ->
  strategy = MODEL_BLUE_STRATEGY_ID /\ trade = sig_trade_id s /\ signal = persist_signal_id_for s
  /\ sig_action s = str_upper (text_field "action" payload).
Proof.
  unfold parse_model_blue_payload. intros H.
  destruct (is_model_blue_strategy _) eqn:Ms; [|discriminate H]. cbn [negb] in H.
  destruct (_ || _)%bool eqn:Ac; [|discriminate H]. cbn [negb] in H.
  destruct (str_empty (text_field "trade_id" payload)) eqn:Et; [discriminate H|].
  assert (Es : str_empty (text_field "strategy" payload) = false).
  { unfold is_model_blue_strategy in Ms. simpl in Ms. by destruct (text_field "strategy" payload). }
  apply text_field_truthy in Es as [Ts Es]. pose proof Et as N. apply text_field_truthy in Et as [Tt Et].
  unfold is_model_blue_strategy in Ms. simpl in Ms. apply String.eqb_eq in Ms.
  rewrite Es, strip_idemp in Ms.
  apply rbind_ok in H as (d & _ & H). unfold compute_idempotency_key.
  rewrite (jor_truthy _ _ Ts), (jor_truthy _ _ Tt). rewrite normalize_truthy_strategy, normalize_truthy_trade, Ms by done.
  rewrite <- Et. fold (text_field "action" payload).
  assert (S : str_strip (text_field "trade_id" payload) = text_field "trade_id" payload)
    by apply strip_idemp.
  remember (text_field "trade_id" payload) as tr eqn:Etr. clear Etr Et.
  assert (K : forall c : bool, str_empty (if c then (tr ++ ":CLOSE")%string else tr) = false)
    by (intros []; [by destruct tr|done]).
  rewrite K, N. intros [= <- <- <- _]. unfold persist_signal_id_for.
  destruct (str_upper (text_field "action" payload) =? "CLOSE")%string eqn:Ec.
  - injection H as <-. simpl. apply String.eqb_eq in Ec. unfold str_or. by rewrite N, S, N, Ec.
  - rewrite orb_false_r in Ac. apply String.eqb_eq in Ac. apply rbind_ok in H as (l & _ & [= <-]). simpl.
    unfold str_or. by rewrite N, S, Ac.
Qed.

Section Identity.
Context {B : Type} `{ModelBlueTradeBook B} {Orders : Type}.

Lemma intent_identity (h : ModelBlueStrategy Orders) (s : Signal)
    (account : option AccountExecutionContext) (b : B) (intent : OrderIntent) :
  build_intent Orders h s account b = Ok intent -> str_ends_with ":CLOSE" (signal_trade_id s) = false ->
  strategy_id intent = MODEL_BLUE_STRATEGY_ID /\ signal_id intent = persist_signal_id_for s.
Proof.
  unfold build_intent, persist_signal_id_for. fold (signal_trade_id s). intros E W. rewrite W.
  destruct (str_upper (sig_action s) =? "CLOSE")%string eqn:C.
  - unfold build_close_intent in E. destruct (str_empty (signal_trade_id s)) eqn:N; [discriminate E|].
    apply rbind_ok in E as ([t|] & _ & E); [|discriminate E]. by injection E as <-.
  - destruct (_ =? "OPEN")%string; [|discriminate E]. unfold build_open_intent in E.
    destruct (str_empty _); [discriminate E|]. apply rbind_ok in E as ([t|] & _ & E); [discriminate E|].
    apply rbind_ok in E as ([sz pb] & _ & E). apply rbind_ok in E as (sized & _ & E).
    destruct (negb _); [discriminate E|]. by injection E as <-.
Qed.

(** The queue, the inbox and the execution name a signal alike: for an
    alert the parser accepts, the job is queued under the strategy and signal
    that the inbox row and every account's intent carry, so from the moment an
    intent's claim is taken the job shows evidence of having traded and is
    never put back in the queue.  It takes a trade id that does not itself end
    in [:CLOSE]. *)
Theorem claimed_intent_protects_job (fresh : string) (payload : list (string * json)) (ts now id : Z)
    (why : string) (raw capture : option json) (correlation : string) (scope : option string)
    (s : Signal) (strategy signal : string) (trade : option string) (key : string)
    (h : ModelBlueStrategy Orders) (account : option AccountExecutionContext) (b : B)
    (intent : OrderIntent) (q : ClaimRequest) (claims : ClaimTable) (c : ExecutionClaim) (t : Tables) :
  parse_model_blue_payload payload ts why raw = Ok s ->
  compute_idempotency_key fresh payload = (strategy, signal, trade, key) ->
  str_ends_with ":CLOSE" (opt_str trade) = false ->
  build_intent Orders h s account b = Ok intent ->
  cq_strategy_id q = strategy_id intent -> cq_signal_id q = signal_id intent ->
  acquire now q (t_claims t) = (claims, inl c) ->
  (forall k c, t_claims t !! k = Some c -> k = cq_key q ->
     cl_strategy_id c = cq_strategy_id q /\ cl_signal_id c = cq_signal_id q) ->
  signal = persist_signal_id_for s /\ signal = signal_id intent /\ Some strategy = sig_strategy_id s
  /\ evidence (with_claims claims t)
       (new_job id now signal strategy trade (scoped_key key scope) (JObj payload) capture
          correlation scope) = true.
Proof.
  intros P K W I Qs Qg A U. pose proof (parsed_signal_ok payload ts why raw s P) as O.
  destruct (compute_parsed fresh payload ts why raw s strategy signal trade key P K) as (-> & -> & -> & _).
  destruct (so_trade s O) as (tr & Et & _ & Ne & St).
  assert (Tr : signal_trade_id s = tr).
  { unfold signal_trade_id, str_or. rewrite Et. simpl. by rewrite Ne. }
  destruct (intent_identity h s account b intent I) as [Is Ig].
  { rewrite Tr. by rewrite Et in W. }
  split_and!; [done|by symmetry|by rewrite (so_strategy s O)|].
  unfold evidence. apply orb_true_iff. right. apply has_claimed_true. exists (cq_key q), c. simpl.
  rewrite <- Ig, <- Is, <- Qs, <- Qg. unfold acquire in A.
  destruct (t_claims t !! cq_key q) as [old|] eqn:E.
  - destruct (cl_state old); try discriminate A. injection A as <- <-.
    destruct (U _ _ E eq_refl) as [U1 U2]. by rewrite lookup_insert_eq.
  - injection A as <- <-. by rewrite lookup_insert_eq.
Qed.
End Identity.

(** ** Concrete instances *)
Definition ex_close_alert : list (string * json) :=
  [("strategy", JStr " Model_Blue"); ("action", JStr "close"); ("trade_id", JStr "T1 ");
   ("direction", JInt 1)]%string.
Definition ex_close_intent : OrderIntent :=
  match build_intent unit ex_strategy ex_close (Some ex_account) ex_book with
  | Ok i => i
  | Raise _ => ex_open_intent
  end.
Definition ex_request : ClaimRequest := {|
  cq_key := execution_dedupe_key ex_close_intent; cq_account_id := Some 7;
  cq_strategy_id := strategy_id ex_close_intent; cq_signal_id := signal_id ex_close_intent;
  cq_action := "CLOSE"; cq_correlation_id := None; cq_stale_after := 300%Q |}.
Definition ex_no_tables : Tables := {| t_jobs := ∅; t_signals := []; t_orders := []; t_claims := ∅ |}.

Lemma claimed_intent_protects_job_witness :
  exists strategy signal trade key,
    compute_idempotency_key EmptyString ex_close_alert = (strategy, signal, trade, key)
    /\ signal = "T1:CLOSE"%string /\ signal = signal_id ex_close_intent
    /\ evidence (with_claims (acquire 9 ex_request ∅).1 ex_no_tables)
         (new_job 1 9 signal strategy trade (scoped_key key (Some "7"%string)) (JObj ex_close_alert)
            None "r1" (Some "7"%string)) = true.
Proof.
  destruct (compute_idempotency_key EmptyString ex_close_alert) as [[[strategy signal] trade] key] eqn:K.
  assert (P : parse_model_blue_payload ex_close_alert 0 "r" None = Ok ex_close) by (by vm_compute).
  assert (W : str_ends_with ":CLOSE" (opt_str trade) = false).
  { destruct (compute_parsed _ _ _ _ _ _ _ _ _ _ P K) as (_ & -> & _). by vm_compute. }
  assert (I : build_intent unit ex_strategy ex_close (Some ex_account) ex_book = Ok ex_close_intent)
    by (by vm_compute).
  exists strategy, signal, trade, key. split; [done|].
  destruct (claimed_intent_protects_job EmptyString ex_close_alert 0 9 1 "r" None None "r1"
    (Some "7"%string) ex_close strategy signal trade key ex_strategy (Some ex_account) ex_book
    ex_close_intent ex_request (acquire 9 ex_request ∅).1 (fresh_claim 9 ex_request) ex_no_tables
    P K W I eq_refl eq_refl) as (S & S' & _ & E).
  - by vm_compute.
  - intros k c E. unfold ex_no_tables in E. simpl in E. by rewrite lookup_empty in E.
  - split_and!; [by rewrite S; vm_compute|exact S'|exact E].
Defined.

Definition ex_processed : InboxOp := {|
  io_id := 1; io_now := 5; io_signal := ex_close; io_persist_id := "T1:CLOSE";
  io_status := SIGNAL_STATUS_PROCESSED; io_reason := None |}.
Definition ex_rejected : InboxOp := {|
  io_id := 2; io_now := 6; io_signal := ex_close; io_persist_id := "T1:CLOSE";
  io_status := SIGNAL_STATUS_REJECTED; io_reason := Some "MARGIN"%string |}.
Lemma processed_once_any_did_witness :
  signal_is_processed "model_blue" "T1:CLOSE"
    (inbox_run (fun _ => EmptyString) [ex_processed; ex_rejected] []) = true
  /\ signal_is_processed "model_blue" "T1:CLOSE"
       (inbox_run (fun _ => EmptyString) [ex_rejected; ex_rejected] []) <> true.
Proof.
  split.
  - apply processed_once_any_did; [done|]. right. exists ex_processed.
    split_and!; [by left|by split|done].
  - intros H. apply processed_once_any_did in H; [|done].
    destruct H as [H|(op & H & _ & S)]; [done|].
    rewrite !elem_of_cons in H. destruct H as [->|[->|H]]; [done|done|].
    by apply not_elem_of_nil in H.
Defined.

(** A CLOSE whose trade id itself ends in [:CLOSE] is executed and claimed
    under another signal than the one its job is queued under. *)
Example close_suffix_diverges :
  let s := {| sig_signal_type := SIG_SELL; sig_timestamp := 0; sig_reason := "r";
              sig_signal_id := Some "T1:CLOSE"%string; sig_strategy_id := Some MODEL_BLUE_STRATEGY_ID;
              sig_action := "CLOSE"; sig_symbol := None; sig_side := None; sig_price := None;
              sig_quantity := None; sig_trade_id := Some "T1:CLOSE"%string; sig_direction := Some 1;
              sig_market := None; sig_legs := []; sig_raw_payload := None |} in
  persist_signal_id_for s = "T1:CLOSE"%string
  /\ (signal_trade_id s ++ ":CLOSE")%string = "T1:CLOSE:CLOSE"%string.
Proof. by vm_compute. Qed.
