(* ===== verification/Positions.v ===== *)
(** * The positions ledger: [db/repositories/position_repository.py],
    [trade_repository.py], [allocation_repository.py] and
    [services/model_blue/db_trade_book.py]

    A pair is one row of [positions], keyed by account and trade.  What an
    operation hands to the database is rounded to the column it is stored in. *)

From S2P Require Import Prelude Rounding PyText PyTime Identifiers RmsModels Accounts TradeBook.

#[local] Open Scope Q_scope.
#[local] Open Scope py_scope.
#[local] Set Warnings "-clear-no-such-hyp".

(** A value of a [Numeric(18, scale)] column: rounded half away from zero,
    refused when it has more than eighteen digits. *)
Definition numeric (scale : Z) (q : Q) : result Q :=
  let m := round_half_up (q * pw 10 scale) in
  if (Z.abs m <? 10 ^ 18)%Z then Ok (Qred (inject_Z m * pw 10 (- scale)))
  else Raise (OtherError "numeric field overflow").
Definition numeric_opt (scale : Z) (q : option Q) : result (option Q) :=
  match q with Some q => let! x := numeric scale q in Ok (Some x) | None => Ok None end.

Inductive RiskState : Type := RISK_STATE_OPEN | RISK_STATE_CLOSED | RISK_STATE_FLATTENED_PENDING_PRICE.
#[global] Instance RiskState_eq_dec : EqDecision RiskState.
Proof. solve_decision. Defined.
Definition EXIT_UNIT_ABSOLUTE : string := "ABSOLUTE".

Record PositionModel : Type := {
  p_account_id : Z;
  p_trade_id : string;
  p_strategy_id : string;
  p_leg_a_symbol : string;
  p_leg_a_signed_qty : Q;
  p_leg_a_entry_mark : Q;
  p_leg_b_symbol : option string;
  p_leg_b_signed_qty : option Q;
  p_leg_b_entry_mark : option Q;
  p_realised_pnl : Q;
  p_commission : Q;
  p_live_pnl : Q;
  p_target : Q;
  p_stop : Q;
  p_time_limit : Z;
  p_target_unit : string;
  p_stop_unit : string;
  p_exit_reason : option string;
  p_exit_automation_enabled : bool;
  p_leg_a_instrument_type : string;
  p_leg_b_instrument_type : option string;
  p_opened_at : Z;
  p_closed_at : option Z;
  p_risk_state : RiskState
}.

Abbreviation PositionTable := (gmap (Z * string) PositionModel).

(** The columns that move while a position lives. *)
Definition with_money (realised commission live : Q) (p : PositionModel) : PositionModel := {|
  p_account_id := p_account_id p; p_trade_id := p_trade_id p; p_strategy_id := p_strategy_id p;
  p_leg_a_symbol := p_leg_a_symbol p; p_leg_a_signed_qty := p_leg_a_signed_qty p;
  p_leg_a_entry_mark := p_leg_a_entry_mark p; p_leg_b_symbol := p_leg_b_symbol p;
  p_leg_b_signed_qty := p_leg_b_signed_qty p; p_leg_b_entry_mark := p_leg_b_entry_mark p;
  p_realised_pnl := realised; p_commission := commission; p_live_pnl := live;
  p_target := p_target p; p_stop := p_stop p; p_time_limit := p_time_limit p;
  p_target_unit := p_target_unit p; p_stop_unit := p_stop_unit p; p_exit_reason := p_exit_reason p;
  p_exit_automation_enabled := p_exit_automation_enabled p;
  p_leg_a_instrument_type := p_leg_a_instrument_type p;
  p_leg_b_instrument_type := p_leg_b_instrument_type p; p_opened_at := p_opened_at p;
  p_closed_at := p_closed_at p; p_risk_state := p_risk_state p |}.
Definition with_state (state : RiskState) (closed_at : option Z) (exit_reason : option string)
    (p : PositionModel) : PositionModel := {|
  p_account_id := p_account_id p; p_trade_id := p_trade_id p; p_strategy_id := p_strategy_id p;
  p_leg_a_symbol := p_leg_a_symbol p; p_leg_a_signed_qty := p_leg_a_signed_qty p;
  p_leg_a_entry_mark := p_leg_a_entry_mark p; p_leg_b_symbol := p_leg_b_symbol p;
  p_leg_b_signed_qty := p_leg_b_signed_qty p; p_leg_b_entry_mark := p_leg_b_entry_mark p;
  p_realised_pnl := p_realised_pnl p; p_commission := p_commission p; p_live_pnl := p_live_pnl p;
  p_target := p_target p; p_stop := p_stop p; p_time_limit := p_time_limit p;
  p_target_unit := p_target_unit p; p_stop_unit := p_stop_unit p; p_exit_reason := exit_reason;
  p_exit_automation_enabled := p_exit_automation_enabled p;
  p_leg_a_instrument_type := p_leg_a_instrument_type p;
  p_leg_b_instrument_type := p_leg_b_instrument_type p; p_opened_at := p_opened_at p;
  p_closed_at := closed_at; p_risk_state := state |}.
Definition with_exits (target stop : Q) (target_unit stop_unit : string) (automation : bool)
    (p : PositionModel) : PositionModel := {|
  p_account_id := p_account_id p; p_trade_id := p_trade_id p; p_strategy_id := p_strategy_id p;
  p_leg_a_symbol := p_leg_a_symbol p; p_leg_a_signed_qty := p_leg_a_signed_qty p;
  p_leg_a_entry_mark := p_leg_a_entry_mark p; p_leg_b_symbol := p_leg_b_symbol p;
  p_leg_b_signed_qty := p_leg_b_signed_qty p; p_leg_b_entry_mark := p_leg_b_entry_mark p;
  p_realised_pnl := p_realised_pnl p; p_commission := p_commission p; p_live_pnl := p_live_pnl p;
  p_target := target; p_stop := stop; p_time_limit := p_time_limit p;
  p_target_unit := target_unit; p_stop_unit := stop_unit; p_exit_reason := p_exit_reason p;
  p_exit_automation_enabled := automation;
  p_leg_a_instrument_type := p_leg_a_instrument_type p;
  p_leg_b_instrument_type := p_leg_b_instrument_type p; p_opened_at := p_opened_at p;
  p_closed_at := p_closed_at p; p_risk_state := p_risk_state p |}.

(** ** Legs *)
(** A quantity is a [Decimal] here: [Decimal(str(q))] is [q]. *)
Definition signed_qty (side : OrderSide) (quantity : Q) : Q :=
  match side with BUY => quantity | SELL => - quantity end.

Definition leg_from_signed (symbol : option string) (signed price : option Q)
    (instrument_type : option string) : option OpenModelBlueTradeLeg :=
  match signed, price with
  | Some q, Some p =>
      if str_empty (opt_str symbol) then None
      else Some {| ol_symbol := opt_str symbol;
                   ol_instrument_type := Some (str_or (opt_str instrument_type) "STK");
                   ol_side := if 0 <=? q then BUY else SELL;
                   ol_quantity := dabs q; ol_price := p |}
  | _, _ => None
  end.

Definition to_open_trade (row : PositionModel) : OpenModelBlueTrade := {|
  ot_trade_id := p_trade_id row; ot_strategy_id := p_strategy_id row; ot_direction := 0;
  ot_legs := omap id
    [leg_from_signed (Some (p_leg_a_symbol row)) (Some (p_leg_a_signed_qty row))
       (Some (p_leg_a_entry_mark row)) (Some (p_leg_a_instrument_type row));
     leg_from_signed (p_leg_b_symbol row) (p_leg_b_signed_qty row) (p_leg_b_entry_mark row)
       (p_leg_b_instrument_type row)] |}.

(** ** Queries *)
Definition rows (m : PositionTable) : list PositionModel := map snd (map_to_list m).
Definition is_trade (trade_id : string) (account_id : option Z) (p : PositionModel) : bool :=
  String.eqb (p_trade_id p) trade_id
  && match account_id with Some a => (p_account_id p =? a)%Z | None => true end.
Definition in_state (s : RiskState) (p : PositionModel) : bool := bool_decide (p_risk_state p = s).

(** At most one row, or [AMBIGUOUS_TRADE_ID]. *)
Definition unambiguous (l : list PositionModel) : result (option PositionModel) :=
  match l with
  | [] => Ok None
  | [p] => Ok (Some p)
  | _ => Raise (ValueError "AMBIGUOUS_TRADE_ID: account_id is required.")
  end.
Definition get_by_trade_id (trade_id : string) (account_id : option Z) (m : PositionTable)
    : result (option PositionModel) :=
  unambiguous (List.filter (is_trade trade_id account_id) (rows m)).
Definition get_open_by_trade_id (trade_id : string) (account_id : option Z) (m : PositionTable)
    : result (option PositionModel) :=
  unambiguous (List.filter (fun p => is_trade trade_id account_id p && in_state RISK_STATE_OPEN p)
                 (rows m)).
Definition list_open (m : PositionTable) : list PositionModel :=
  List.filter (in_state RISK_STATE_OPEN) (rows m).
Definition list_all (m : PositionTable) : list PositionModel := rows m.
Definition get_open_trade (trade_id : string) (account_id : option Z) (m : PositionTable)
    : result (option OpenModelBlueTrade) :=
  let! row := get_open_by_trade_id trade_id account_id m in Ok (option_map to_open_trade row).
Definition sum_realised_closed_since (account_id : Z) (since : Z) (m : PositionTable) : Q :=
  fold_right (fun p a => p_realised_pnl p + a) 0
    (List.filter (fun p => (p_account_id p =? account_id)%Z && in_state RISK_STATE_CLOSED p
                           && match p_closed_at p with Some t => (since <=? t)%Z | None => false end)
       (rows m)).

(** ** Opening *)
Record ExitSettings : Type := {
  xs_target : Q; xs_stop : Q; xs_time_limit : Z; xs_target_unit : string; xs_stop_unit : string;
  xs_automation : bool
}.
Definition new_position (now account : Z) (trade : OpenModelBlueTrade) (a b : OpenModelBlueTradeLeg)
    (x : ExitSettings) : PositionModel := {|
  p_account_id := account; p_trade_id := ot_trade_id trade; p_strategy_id := ot_strategy_id trade;
  p_leg_a_symbol := normalize_symbol (JStr (ol_symbol a));
  p_leg_a_signed_qty := signed_qty (ol_side a) (ol_quantity a); p_leg_a_entry_mark := ol_price a;
  p_leg_b_symbol := Some (normalize_symbol (JStr (ol_symbol b)));
  p_leg_b_signed_qty := Some (signed_qty (ol_side b) (ol_quantity b));
  p_leg_b_entry_mark := Some (ol_price b);
  p_realised_pnl := 0; p_commission := 0; p_live_pnl := 0; p_target := xs_target x;
  p_stop := xs_stop x; p_time_limit := xs_time_limit x;
  p_target_unit := str_or (xs_target_unit x) EXIT_UNIT_ABSOLUTE;
  p_stop_unit := str_or (xs_stop_unit x) EXIT_UNIT_ABSOLUTE; p_exit_reason := None;
  p_exit_automation_enabled := xs_automation x;
  p_leg_a_instrument_type := default "STK"%string (ol_instrument_type a);
  p_leg_b_instrument_type := ol_instrument_type b; p_opened_at := now; p_closed_at := None;
  p_risk_state := RISK_STATE_OPEN |}.

(** What the table keeps of a row. *)
Definition store (p : PositionModel) : result PositionModel :=
  let! qa := numeric 4 (p_leg_a_signed_qty p) in
  let! ma := numeric 8 (p_leg_a_entry_mark p) in
  let! qb := numeric_opt 4 (p_leg_b_signed_qty p) in
  let! mb := numeric_opt 8 (p_leg_b_entry_mark p) in
  let! realised := numeric 8 (p_realised_pnl p) in
  let! commission := numeric 8 (p_commission p) in
  let! live := numeric 8 (p_live_pnl p) in
  let! target := numeric 4 (p_target p) in
  let! stop := numeric 4 (p_stop p) in
  Ok {| p_account_id := p_account_id p; p_trade_id := p_trade_id p;
        p_strategy_id := p_strategy_id p; p_leg_a_symbol := p_leg_a_symbol p;
        p_leg_a_signed_qty := qa; p_leg_a_entry_mark := ma; p_leg_b_symbol := p_leg_b_symbol p;
        p_leg_b_signed_qty := qb; p_leg_b_entry_mark := mb; p_realised_pnl := realised;
        p_commission := commission; p_live_pnl := live; p_target := target; p_stop := stop;
        p_time_limit := p_time_limit p; p_target_unit := p_target_unit p;
        p_stop_unit := p_stop_unit p; p_exit_reason := p_exit_reason p;
        p_exit_automation_enabled := p_exit_automation_enabled p;
        p_leg_a_instrument_type := p_leg_a_instrument_type p;
        p_leg_b_instrument_type := p_leg_b_instrument_type p; p_opened_at := p_opened_at p;
        p_closed_at := p_closed_at p; p_risk_state := p_risk_state p |}.
Definition row_key (p : PositionModel) : Z * string := (p_account_id p, p_trade_id p).
Definition save (p : PositionModel) (m : PositionTable) : result PositionTable :=
  let! stored := store p in Ok (<[row_key p := stored]> m).

(** [open_trade]: the table and the row as the session holds it. *)
Definition open_trade (now : Z) (trade : OpenModelBlueTrade) (account : Z) (x : ExitSettings)
    (m : PositionTable) : result (PositionTable * PositionModel) :=
  match ot_legs trade with
  | [a; b] =>
      let! existing := get_by_trade_id (ot_trade_id trade) (Some account) m in
      match existing with
      | Some _ => Raise (ValueError "TRADE_ID_NOT_UNIQUE")
      | None =>
          let p := new_position now account trade a b x in
          let! m := save p m in Ok (m, p)
      end
  | _ => Raise (ValueError "Model Blue position requires exactly two legs.")
  end.

(** ** Closing *)
Definition needed_symbols (p : PositionModel) : list string :=
  List.filter (fun s => negb (str_empty s)) [p_leg_a_symbol p; opt_str (p_leg_b_symbol p)].
Definition marks_cover (marks : option (gmap string Q)) (p : PositionModel) : bool :=
  match marks with
  | Some marks => forallb (fun s => bool_decide (is_Some (marks !! s))) (needed_symbols p)
  | None => true
  end.
Definition realised_of (marks : gmap string Q) (p : PositionModel) : Q :=
  let a := match marks !! p_leg_a_symbol p with
           | Some m => dadd 0 (dmul (p_leg_a_signed_qty p) (dsub m (p_leg_a_entry_mark p)))
           | None => 0
           end in
  match p_leg_b_symbol p, p_leg_b_signed_qty p, p_leg_b_entry_mark p with
  | Some (String _ _ as s), Some q, Some e =>
      match marks !! s with Some m => dadd a (dmul q (dsub m e)) | None => a end
  | _, _, _ => a
  end.
(** The profit of the exit, less the commissions of both sides when the close
    reports one. *)
Definition closed_row (now : Z) (marks : gmap string Q) (commission : option Q)
    (exit_reason : option string) (p : PositionModel) : PositionModel :=
  let realised := realised_of marks p in
  let p := match commission with
           | Some c =>
               if 0 <? c then
                 let total := dadd (p_commission p) c in
                 let net := dsub realised total in with_money net total net p
               else with_money realised (p_commission p) realised p
           | None => with_money realised (p_commission p) realised p
           end in
  with_state RISK_STATE_CLOSED (Some now)
    (match exit_reason with Some r => Some r | None => p_exit_reason p end) p.

(** The row [close_trade] locks: open, or flattened and waiting for a price. *)
Definition find_closable (trade_id : string) (account_id : option Z) (m : PositionTable)
    : result (option PositionModel) :=
  let! open := get_open_by_trade_id trade_id account_id m in
  match open with
  | Some p => Ok (Some p)
  | None => Ok (head (List.filter (fun p => is_trade trade_id account_id p
                                     && in_state RISK_STATE_FLATTENED_PENDING_PRICE p) (rows m)))
  end.
Definition close_trade (now : Z) (trade_id : string) (account_id : option Z)
    (exit_marks : option (gmap string Q)) (commission : option Q) (exit_reason : option string)
    (m : PositionTable) : result (PositionTable * PositionModel) :=
  let! found := find_closable trade_id account_id m in
  match found with
  | None =>
      let! existing := get_by_trade_id trade_id account_id m in
      match existing with
      | Some p => if in_state RISK_STATE_CLOSED p then Ok (m, p) else Raise (KeyError trade_id)
      | None => Raise (KeyError trade_id)
      end
  | Some p =>
      if marks_cover exit_marks p then
        let p := closed_row now (default ∅ exit_marks) commission exit_reason p in
        let! m := save p m in Ok (m, p)
      else Raise (ValueError "INCOMPLETE_EXIT_MARKS")
  end.

(** ** The other columns *)
(** Stamps the open rows, and their number: one UPDATE. *)
Definition set_exit_reason (account : Z) (reason : string) (trade_id : option string)
    (m : PositionTable) : PositionTable * Z :=
  let hit p := (p_account_id p =? account)%Z && in_state RISK_STATE_OPEN p
               && match trade_id with Some t => String.eqb (p_trade_id p) t | None => true end in
  ((fun p => if hit p then with_state (p_risk_state p) (p_closed_at p) (Some reason) p else p) <$> m,
   Z.of_nat (length (List.filter hit (rows m)))).

(** The session reads a row without a lock, changes it, and writes the columns
    whose value is another over the row of the same key as it is by then. *)
Definition put_q (new read cur : Q) : Q := if Qeq_bool new read then cur else new.
Definition put_text (new read cur : string) : string := if (new =? read)%string then cur else new.
Definition put_bool (new read cur : bool) : bool := if Bool.eqb new read then cur else new.
Definition write_over (account : Z) (trade_id : string) (change : PositionModel -> PositionModel)
    (m : PositionTable) : result PositionTable :=
  match m !! (account, trade_id) with
  | Some cur => save (change cur) m
  | None => Raise (OtherError "StaleDataError")
  end.

Definition write_live_pnl (live : Q) (read cur : PositionModel) : PositionModel :=
  with_money (p_realised_pnl cur) (p_commission cur) (put_q live (p_live_pnl read) (p_live_pnl cur)) cur.
(** [between]: what other transactions commit between the read and the write. *)
Definition update_live_pnl (account : Z) (trade_id : string) (live : Q)
    (between : PositionTable -> PositionTable) (m : PositionTable) : result PositionTable :=
  let! row := get_open_by_trade_id trade_id (Some account) m in
  match row with
  | Some p => write_over account trade_id (write_live_pnl live p) (between m)
  | None => Ok (between m)
  end.

Record ExitEdit : Type := {
  xe_target : option Q; xe_stop : option Q; xe_target_unit : option string;
  xe_stop_unit : option string; xe_automation : option bool
}.
Definition edit_exits (x : ExitEdit) (p : PositionModel) : PositionModel :=
  with_exits (default (p_target p) (xe_target x)) (default (p_stop p) (xe_stop x))
    (default (p_target_unit p) (xe_target_unit x)) (default (p_stop_unit p) (xe_stop_unit x))
    (default (p_exit_automation_enabled p) (xe_automation x)) p.
Definition write_exits (x : ExitEdit) (read cur : PositionModel) : PositionModel :=
  let e := edit_exits x read in
  with_exits (put_q (p_target e) (p_target read) (p_target cur))
    (put_q (p_stop e) (p_stop read) (p_stop cur))
    (put_text (p_target_unit e) (p_target_unit read) (p_target_unit cur))
    (put_text (p_stop_unit e) (p_stop_unit read) (p_stop_unit cur))
    (put_bool (p_exit_automation_enabled e) (p_exit_automation_enabled read)
       (p_exit_automation_enabled cur)) cur.
Definition read_editable (account : Z) (trade_id : string) (m : PositionTable) : result PositionModel :=
  let! row := get_by_trade_id trade_id (Some account) m in
  match row with
  | None => Raise (KeyError trade_id)
  | Some p =>
      if negb (in_state RISK_STATE_OPEN p)
      then Raise (ValueError "POSITION_NOT_OPEN: exits are immutable after close.")
      else Ok p
  end.
Definition update_exit_thresholds (account : Z) (trade_id : string) (x : ExitEdit)
    (between : PositionTable -> PositionTable) (m : PositionTable)
    : result (PositionTable * PositionModel) :=
  let! p := read_editable account trade_id m in
  let! m := write_over account trade_id (write_exits x p) (between m) in Ok (m, edit_exits x p).

(** The kill switch's mark on an open position whose exit price it does not
    know: [session.get], the check, and the write of the commit. *)
Definition write_pending (cur : PositionModel) : PositionModel :=
  with_state RISK_STATE_FLATTENED_PENDING_PRICE (p_closed_at cur) (p_exit_reason cur) cur.
Definition read_open (account : Z) (trade_id : string) (m : PositionTable) : option PositionModel :=
  match m !! (account, trade_id) with
  | Some p => if in_state RISK_STATE_OPEN p then Some p else None
  | None => None
  end.
Definition mark_pending (account : Z) (trade_id : string)
    (between : PositionTable -> PositionTable) (m : PositionTable) : result PositionTable :=
  match read_open account trade_id m with
  | Some _ => write_over account trade_id write_pending (between m)
  | None => Ok (between m)
  end.

(** ** The database trade book *)
Definition get_enabled_account (account : option Z) (db : Database) : option AccountRow :=
  match account with
  | None => None
  | Some a => List.find (fun r => (ar_id r =? a)%Z && ar_enabled r) (accounts db)
  end.
Definition get_allocation (account : Z) (strategy : string) (db : Database) : option AllocationRow :=
  List.find (fun l => (al_account_id l =? account)%Z && String.eqb (al_strategy_id l) strategy)
    (allocations db).
Definition exits_of (l : AllocationRow) : ExitSettings := {|
  xs_target := al_target l; xs_stop := al_stop l; xs_time_limit := al_time_limit l;
  xs_target_unit := str_or (al_target_unit l) EXIT_UNIT_ABSOLUTE;
  xs_stop_unit := str_or (al_stop_unit l) EXIT_UNIT_ABSOLUTE;
  xs_automation := al_exit_automation_enabled l |}.
(** The account and its enabled allocation, or the refusal. *)
Definition require_account_allocation (strategy : string) (account : Z) (db : Database)
    : result (AccountRow * AllocationRow) :=
  match get_enabled_account (Some account) db with
  | None => Raise (ModelBlueValidationError "MODEL_BLUE_ACCOUNT_MISSING")
  | Some a =>
      match get_allocation (ar_id a) strategy db with
      | Some l => if al_enabled l then Ok (a, l)
                  else Raise (ModelBlueValidationError "MODEL_BLUE_ALLOCATION_MISSING")
      | None => Raise (ModelBlueValidationError "MODEL_BLUE_ALLOCATION_MISSING")
      end
  end.
Definition get_committed_notional (strategy : string) (account : option Z) (db : Database) : option Q :=
  match get_enabled_account account db with
  | None => None
  | Some a =>
      if ar_total_margin a <=? 0 then None
      else if negb (existsb (fun s => String.eqb (st_strategy_id s) strategy && st_enabled s)
                      (strategies db)) then None
      else match get_allocation (ar_id a) strategy db with
           | Some l =>
               if negb (al_enabled l) then None
               else let c := dmul (ar_total_margin a) (al_alloc_pct l) in
                    if c <=? 0 then None else Some c
           | None => None
           end
  end.

(** The tables, the clock, and the account of a book made for one. *)
Record DatabaseBook : Type := {
  bk_database : Database;
  bk_positions : PositionTable;
  bk_now : Z;
  bk_account : option Z
}.
Definition with_positions (m : PositionTable) (b : DatabaseBook) : DatabaseBook := {|
  bk_database := bk_database b; bk_positions := m; bk_now := bk_now b; bk_account := bk_account b |}.

Definition require_account (account : option Z) (b : DatabaseBook) : result Z :=
  match account, bk_account b with
  | Some a, _ => Ok a
  | None, Some a => Ok a
  | None, None => Raise (ModelBlueValidationError "MODEL_BLUE_ACCOUNT_MISSING")
  end.
Definition db_get (trade_id : string) (account : option Z) (b : DatabaseBook)
    : result (option OpenModelBlueTrade) :=
  let! a := require_account account b in get_open_trade trade_id (Some a) (bk_positions b).
Definition db_get_row (trade_id : string) (account : option Z) (b : DatabaseBook)
    : result (option PositionModel) :=
  let! a := require_account account b in get_by_trade_id trade_id (Some a) (bk_positions b).
Definition db_record_open (trade : OpenModelBlueTrade) (account : option Z) (b : DatabaseBook)
    : result DatabaseBook :=
  let! a := require_account account b in
  let! (row, allocation) := require_account_allocation (ot_strategy_id trade) a (bk_database b) in
  let! (m, _) := open_trade (bk_now b) trade (ar_id row) (exits_of allocation) (bk_positions b) in
  Ok (with_positions m b).
Definition db_close (trade_id : string) (account : option Z) (b : DatabaseBook)
    : result (OpenModelBlueTrade * DatabaseBook) :=
  let! a := require_account account b in
  let! (m, row) := close_trade (bk_now b) trade_id (Some a) None None None (bk_positions b) in
  Ok (to_open_trade row, with_positions m b).

(** A row is told by its [risk_state]. *)
Definition risk_state_value (s : RiskState) : string :=
  match s with
  | RISK_STATE_OPEN => "OPEN"
  | RISK_STATE_CLOSED => "CLOSED"
  | RISK_STATE_FLATTENED_PENDING_PRICE => "FLATTENED_PENDING_PRICE"
  end.
#[global] Instance DatabaseModelBlueTradeBook : ModelBlueTradeBook DatabaseBook := {|
  book_get := db_get; book_record_open := db_record_open; book_close := db_close;
  book_get_row t a b :=
    let! row := db_get_row t a b in Ok (option_map (fun p => risk_state_value (p_risk_state p)) row) |}.

(** ** Rows under their keys *)
Definition keyed (m : PositionTable) : Prop := forall k p, m !! k = Some p -> row_key p = k.

Lemma is_trade_key (trade_id : string) (account : Z) (m : PositionTable) (k : Z * string)
    (p : PositionModel) :
  keyed m -> m !! k = Some p -> is_trade trade_id (Some account) p = true -> k = (account, trade_id).
Proof.
  unfold is_trade. intros K E T. apply K in E as <-. bool_to_prop. unfold row_key. congruence.
Qed.
Lemma key_is_trade (account : Z) (trade_id : string) (m : PositionTable) (p : PositionModel) :
  keyed m -> m !! (account, trade_id) = Some p -> is_trade trade_id (Some account) p = true.
Proof.
  intros K E. apply K in E. unfold row_key in E. injection E as <- <-. unfold is_trade.
  by rewrite String.eqb_refl, Z.eqb_refl.
Qed.

Section Keyed.
Variables (m : PositionTable) (K : keyed m) (account : Z) (trade_id : string).

Lemma filter_trade (q : PositionModel -> bool) :
  List.filter (fun p => is_trade trade_id (Some account) p && q p) (rows m)
  = match m !! (account, trade_id) with Some p => if q p then [p] else [] | None => [] end.
Proof.
  unfold rows. rewrite (filter_values_at m _ (account, trade_id)).
  - destruct (m !! (account, trade_id)) as [p|] eqn:E; [|done].
    by rewrite (key_is_trade account trade_id m p K E).
  - intros k p E T. bool_to_prop. eapply is_trade_key; eauto.
Qed.
Lemma get_row_at : get_by_trade_id trade_id (Some account) m = Ok (m !! (account, trade_id)).
Proof.
  unfold get_by_trade_id.
  rewrite (List.filter_ext _ (fun p => is_trade trade_id (Some account) p && true))
    by (intros p; by rewrite andb_true_r).
  rewrite filter_trade. by destruct (m !! _).
Qed.
Lemma get_open_at :
  get_open_by_trade_id trade_id (Some account) m
  = Ok (match m !! (account, trade_id) with
        | Some p => if in_state RISK_STATE_OPEN p then Some p else None
        | None => None
        end).
Proof.
  unfold get_open_by_trade_id. rewrite filter_trade.
  destruct (m !! _) as [p|]; [by destruct (in_state _ p)|done].
Qed.
Lemma find_closable_at :
  find_closable trade_id (Some account) m
  = Ok (match m !! (account, trade_id) with
        | Some p => if in_state RISK_STATE_CLOSED p then None else Some p
        | None => None
        end).
Proof.
  unfold find_closable. rewrite get_open_at. simpl. rewrite filter_trade.
  destruct (m !! _) as [p|]; [|done]. unfold in_state. by destruct (p_risk_state p).
Qed.
End Keyed.

Lemma store_key (p p' : PositionModel) : store p = Ok p' -> row_key p' = row_key p.
Proof.
  unfold store. intros H. repeat (apply rbind_ok in H as (? & _ & H)). by injection H as <-.
Qed.
Lemma save_ok (p : PositionModel) (m m' : PositionTable) :
  save p m = Ok m' -> exists p', store p = Ok p' /\ m' = <[row_key p := p']> m.
Proof. unfold save. intros (p' & E & [= <-])%rbind_ok. by exists p'. Qed.
Lemma save_keyed (p : PositionModel) (m m' : PositionTable) :
  keyed m -> save p m = Ok m' -> keyed m'.
Proof.
  intros K (p' & E & ->)%save_ok k q L. apply lookup_insert_Some in L as [[<- <-]|[_ L]];
    [by apply store_key|by apply K].
Qed.

(** ** Columns *)
Lemma floor_half (q : Q) (z : Z) : q == inject_Z z -> Qfloor (q + (1 # 2)) = z.
Proof.
  intros E. destruct (Qfloor_bounds (q + (1 # 2))) as [L U].
  assert (Qfloor (q + (1 # 2)) < z + 1)%Z by (rewrite Zlt_Qlt, inject_Z_plus; change (inject_Z 1) with 1; lra).
  assert (z < Qfloor (q + (1 # 2)) + 1)%Z by (rewrite Zlt_Qlt, inject_Z_plus; change (inject_Z 1) with 1; lra).
  lia.
Qed.
Lemma round_half_up_int (q : Q) (z : Z) : q == inject_Z z -> round_half_up q = z.
Proof.
  intros E. unfold round_half_up. destruct (0 <=? q); [by apply floor_half|].
  rewrite (floor_half (- q) (- z)); [lia|]. rewrite E, inject_Z_opp. reflexivity.
Qed.
Lemma numeric_value (s : Z) (q x : Q) :
  numeric s q = Ok x -> x * pw 10 s == inject_Z (round_half_up (q * pw 10 s)) /\ Qred x = x.
Proof.
  unfold numeric. cbv zeta. destruct (_ <? _)%Z; [|done]. intros [= <-]. split.
  - rewrite Qred_correct. apply (scale_back 10 ten_ge_2).
  - apply Qred_complete, Qred_correct.
Qed.
Lemma numeric_idemp (s : Z) (q x : Q) : numeric s q = Ok x -> numeric s x = Ok x.
Proof.
  intros H. destruct (numeric_value s q x H) as [E _]. unfold numeric in *.
  rewrite (round_half_up_int _ _ E). cbv zeta in *. destruct (_ <? _)%Z; [|done]. congruence.
Qed.
Lemma numeric_opt_idemp (s : Z) (q x : option Q) : numeric_opt s q = Ok x -> numeric_opt s x = Ok x.
Proof.
  destruct q as [q|]; simpl; [|by intros [= <-]].
  intros (y & E & [= <-])%rbind_ok. simpl. by rewrite (numeric_idemp _ _ _ E).
Qed.
Lemma round_half_up_mono (x y : Q) : x <= y -> (round_half_up x <= round_half_up y)%Z.
Proof.
  intros H. unfold round_half_up. destruct (Qleb_spec 0 x), (Qleb_spec 0 y).
  - apply Qfloor_resp_le. lra.
  - lra.
  - assert (0 <= Qfloor (y + (1 # 2)))%Z by (rewrite Zle_Qle; change (inject_Z 0) with 0;
      change 0 with (inject_Z 0); rewrite <- Zle_Qle; apply (Qfloor_resp_le 0); lra).
    assert (0 <= Qfloor (- x + (1 # 2)))%Z by (apply (Qfloor_resp_le 0); lra). lia.
  - assert (Qfloor (- y + (1 # 2)) <= Qfloor (- x + (1 # 2)))%Z by (apply Qfloor_resp_le; lra). lia.
Qed.
Lemma numeric_mono (s : Z) (x y a b : Q) :
  x <= y -> numeric s x = Ok a -> numeric s y = Ok b -> a <= b.
Proof.
  intros L Ea Eb. apply numeric_value in Ea as [Ea _], Eb as [Eb _].
  apply (scale_le 10 ten_ge_2 s). rewrite Ea, Eb, <- Zle_Qle. apply round_half_up_mono.
  exact (proj1 (scale_le 10 ten_ge_2 s x y) L).
Qed.

(** A row as the table holds it. *)
Definition stored (p : PositionModel) : Prop := store p = Ok p.
Record columns (p p' : PositionModel) : Prop := {
  co_qa : numeric 4 (p_leg_a_signed_qty p) = Ok (p_leg_a_signed_qty p');
  co_ma : numeric 8 (p_leg_a_entry_mark p) = Ok (p_leg_a_entry_mark p');
  co_qb : numeric_opt 4 (p_leg_b_signed_qty p) = Ok (p_leg_b_signed_qty p');
  co_mb : numeric_opt 8 (p_leg_b_entry_mark p) = Ok (p_leg_b_entry_mark p');
  co_realised : numeric 8 (p_realised_pnl p) = Ok (p_realised_pnl p');
  co_commission : numeric 8 (p_commission p) = Ok (p_commission p');
  co_live : numeric 8 (p_live_pnl p) = Ok (p_live_pnl p');
  co_target : numeric 4 (p_target p) = Ok (p_target p');
  co_stop : numeric 4 (p_stop p) = Ok (p_stop p')
}.
(** The columns no operation rewrites, rounding apart. *)
Record same_text (p p' : PositionModel) : Prop := {
  st_account : p_account_id p' = p_account_id p; st_trade : p_trade_id p' = p_trade_id p;
  st_strategy : p_strategy_id p' = p_strategy_id p; st_a : p_leg_a_symbol p' = p_leg_a_symbol p;
  st_b : p_leg_b_symbol p' = p_leg_b_symbol p;
  st_ta : p_leg_a_instrument_type p' = p_leg_a_instrument_type p;
  st_tb : p_leg_b_instrument_type p' = p_leg_b_instrument_type p;
  st_opened : p_opened_at p' = p_opened_at p; st_limit : p_time_limit p' = p_time_limit p
}.
Lemma store_ok (p p' : PositionModel) :
  store p = Ok p' -> columns p p' /\ same_text p p' /\ p_risk_state p' = p_risk_state p
    /\ p_closed_at p' = p_closed_at p /\ p_exit_reason p' = p_exit_reason p.
Proof.
  unfold store. intros H. repeat (apply rbind_ok in H as (? & ? & H)). injection H as <-.
  split_and!; try done; by constructor.
Qed.
Lemma columns_store (p : PositionModel) : columns p p -> stored p.
Proof. intros [C1 C2 C3 C4 C5 C6 C7 C8 C9]. unfold stored, store.
  rewrite C1, C2, C3, C4, C5, C6, C7, C8, C9. simpl. by destruct p. Qed.
Lemma store_stored (p p' : PositionModel) : store p = Ok p' -> stored p'.
Proof.
  intros ([] & _)%store_ok. apply columns_store.
  constructor; (eapply numeric_idemp || eapply numeric_opt_idemp); eassumption.
Qed.

(** ** The life of a position *)
Definition table_ok (m : PositionTable) : Prop :=
  keyed m /\ forall k p, m !! k = Some p -> stored p.
Lemma save_table_ok (p : PositionModel) (m m' : PositionTable) :
  table_ok m -> save p m = Ok m' -> table_ok m'.
Proof.
  intros [K S] H. split; [by eapply save_keyed|]. apply save_ok in H as (p' & E & ->).
  intros k q L. apply lookup_insert_Some in L as [[_ <-]|[_ L]]; [by eapply store_stored|by eapply S].
Qed.

(** What a session does to a row it read without a lock. *)
Inductive Unlocked : Type := SetLivePnl (live : Q) | SetExits (x : ExitEdit) | SetPending.
Record Reading : Type := { rd_account : Z; rd_trade : string; rd_row : PositionModel; rd_what : Unlocked }.
Definition read_for (u : Unlocked) (account : Z) (t : string) (m : PositionTable) : option PositionModel :=
  match u with
  | SetLivePnl _ => match get_open_by_trade_id t (Some account) m with Ok r => r | Raise _ => None end
  | SetExits _ => match read_editable account t m with Ok p => Some p | Raise _ => None end
  | SetPending => read_open account t m
  end.
Definition write_for (u : Unlocked) (read : PositionModel) : PositionModel -> PositionModel :=
  match u with
  | SetLivePnl live => write_live_pnl live read
  | SetExits x => write_exits x read
  | SetPending => write_pending
  end.

(** What the services do to the ledger: the operations that insert, lock, or
    are one UPDATE take one step; the others read in one step and write in
    another, whatever comes in between. *)
Inductive LedgerOp : Type :=
  | OpOpen (now : Z) (trade : OpenModelBlueTrade) (account : Z) (x : ExitSettings)
  | OpClose (now : Z) (trade_id : string) (account : Z) (marks : option (gmap string Q))
      (commission : option Q) (reason : option string)
  | OpExitReason (account : Z) (reason : string) (trade_id : option string)
  | OpRead (u : Unlocked) (account : Z) (trade_id : string)
  | OpWrite (i : nat).
Record Ledger : Type := { lg_rows : PositionTable; lg_readings : list Reading }.

(** One transaction: it leaves nothing when it raises. *)
Definition committed {A : Type} (m : PositionTable) (r : result A) (f : A -> PositionTable) : PositionTable :=
  match r with Ok a => f a | Raise _ => m end.
Definition locked_op (m : PositionTable) (op : LedgerOp) : PositionTable :=
  match op with
  | OpOpen now t a x => committed m (open_trade now t a x m) fst
  | OpClose now t a marks c r => committed m (close_trade now t (Some a) marks c r m) fst
  | OpExitReason a r t => (set_exit_reason a r t m).1
  | _ => m
  end.
Definition ledger_op (l : Ledger) (op : LedgerOp) : Ledger :=
  match op with
  | OpRead u a t =>
      match read_for u a t (lg_rows l) with
      | Some p => {| lg_rows := lg_rows l;
                     lg_readings := lg_readings l ++
                       [{| rd_account := a; rd_trade := t; rd_row := p; rd_what := u |}] |}
      | None => l
      end
  | OpWrite i =>
      match lg_readings l !! i with
      | Some r =>
          {| lg_rows := committed (lg_rows l)
               (write_over (rd_account r) (rd_trade r) (write_for (rd_what r) (rd_row r)) (lg_rows l)) id;
             lg_readings := delete i (lg_readings l) |}
      | None => l
      end
  | op => {| lg_rows := locked_op (lg_rows l) op; lg_readings := lg_readings l |}
  end.
Definition ledger_run (ops : list LedgerOp) (l : Ledger) : Ledger := fold_left ledger_op ops l.
Definition at_rest (m : PositionTable) : Ledger := {| lg_rows := m; lg_readings := [] |}.

(** The write of a PENDING mark that comes after the row was closed. *)
Definition late_mark (k : Z * string) (op : LedgerOp) (l : Ledger) : bool :=
  match op with
  | OpWrite i =>
      match lg_readings l !! i with
      | Some {| rd_account := a; rd_trade := t; rd_what := SetPending |} =>
          bool_decide ((a, t) = k)
          && match lg_rows l !! k with Some p => in_state RISK_STATE_CLOSED p | None => false end
      | _ => false
      end
  | _ => false
  end.
Fixpoint no_late_mark (k : Z * string) (ops : list LedgerOp) (l : Ledger) : bool :=
  match ops with
  | [] => true
  | op :: ops => negb (late_mark k op l) && no_late_mark k ops (ledger_op l op)
  end.

Definition rank (s : RiskState) : nat :=
  match s with RISK_STATE_OPEN => 0 | RISK_STATE_FLATTENED_PENDING_PRICE => 1 | RISK_STATE_CLOSED => 2 end.
(** A row and what became of it: the same pair. *)
Record same_pair (p p' : PositionModel) : Prop := {
  sp_text : same_text p p';
  sp_qa : p_leg_a_signed_qty p' = p_leg_a_signed_qty p;
  sp_ma : p_leg_a_entry_mark p' = p_leg_a_entry_mark p;
  sp_qb : p_leg_b_signed_qty p' = p_leg_b_signed_qty p;
  sp_mb : p_leg_b_entry_mark p' = p_leg_b_entry_mark p
}.
(** An edit of the exits named a value that [holds]. *)
Definition edited {A : Type} (ops : list LedgerOp) (p : PositionModel) (field : ExitEdit -> option A)
    (holds : A -> Prop) : Prop :=
  exists x v, OpRead (SetExits x) (p_account_id p) (p_trade_id p) ∈ ops /\ field x = Some v /\ holds v.
(** The profit, the commission and the time a close books, as their columns
    hold them. *)
Record booked (q p' : PositionModel) : Prop := {
  bk_realised : numeric 8 (p_realised_pnl q) = Ok (p_realised_pnl p');
  bk_commission : numeric 8 (p_commission q) = Ok (p_commission p');
  bk_closed_at : p_closed_at p' = p_closed_at q
}.
(** What the operations [ops] may have made of a row [p]. *)
Record lives_on (ops : list LedgerOp) (p p' : PositionModel) : Prop := {
  lo_pair : same_pair p p';
  lo_rank : (rank (p_risk_state p) <= rank (p_risk_state p'))%nat;
  lo_money : p_risk_state p' = p_risk_state p \/ p_risk_state p' <> RISK_STATE_CLOSED ->
    p_realised_pnl p' = p_realised_pnl p /\ p_commission p' = p_commission p
    /\ p_closed_at p' = p_closed_at p;
  lo_closing : p_risk_state p <> RISK_STATE_CLOSED -> p_risk_state p' = RISK_STATE_CLOSED ->
    exists now marks c r,
      OpClose now (p_trade_id p) (p_account_id p) marks c r ∈ ops /\ marks_cover marks p = true
      /\ booked (closed_row now (default ∅ marks) c r p) p';
  lo_reason : p_exit_reason p' = p_exit_reason p
    \/ p_risk_state p <> RISK_STATE_CLOSED /\ exists r, p_exit_reason p' = Some r
       /\ (OpExitReason (p_account_id p) r None ∈ ops
           \/ OpExitReason (p_account_id p) r (Some (p_trade_id p)) ∈ ops
           \/ exists now marks c, OpClose now (p_trade_id p) (p_account_id p) marks c (Some r) ∈ ops);
  lo_live : p_live_pnl p' = p_live_pnl p
    \/ (exists live, OpRead (SetLivePnl live) (p_account_id p) (p_trade_id p) ∈ ops
         /\ numeric 8 live = Ok (p_live_pnl p'))
    \/ p_risk_state p <> RISK_STATE_CLOSED /\ p_risk_state p' = RISK_STATE_CLOSED
       /\ p_live_pnl p' = p_realised_pnl p';
  lo_target : p_target p' = p_target p
    \/ edited ops p xe_target (fun q => numeric 4 q = Ok (p_target p'));
  lo_stop : p_stop p' = p_stop p \/ edited ops p xe_stop (fun q => numeric 4 q = Ok (p_stop p'));
  lo_target_unit : p_target_unit p' = p_target_unit p
    \/ edited ops p xe_target_unit (eq (p_target_unit p'));
  lo_stop_unit : p_stop_unit p' = p_stop_unit p \/ edited ops p xe_stop_unit (eq (p_stop_unit p'));
  lo_automation : p_exit_automation_enabled p' = p_exit_automation_enabled p
    \/ edited ops p xe_automation (eq (p_exit_automation_enabled p'))
}.

Lemma same_pair_refl (p : PositionModel) : same_pair p p.
Proof. by constructor. Qed.
Lemma same_pair_trans (p q r : PositionModel) : same_pair p q -> same_pair q r -> same_pair p r.
Proof.
  intros [[] ? ? ? ?] [[] ? ? ? ?]. constructor; try congruence. constructor; congruence.
Qed.
Lemma same_pair_key (p q : PositionModel) : same_pair p q -> row_key q = row_key p.
Proof. intros [[E1 E2 _ _ _ _ _ _ _] _ _ _ _]. unfold row_key. by rewrite E1, E2. Qed.

Lemma lives_on_refl (ops : list LedgerOp) (p : PositionModel) : lives_on ops p p.
Proof. constructor; auto using same_pair_refl; done. Qed.

(** What a close books depends on the pair and the commission so far. *)
Lemma closed_row_same (now : Z) (marks : gmap string Q) (c : option Q) (r : option string)
    (p q p' : PositionModel) :
  same_pair p q -> p_commission q = p_commission p ->
  booked (closed_row now marks c r q) p' -> booked (closed_row now marks c r p) p'.
Proof.
  intros [[_ _ _ Ta Tb _ _ _ _] Qa Ma Qb Mb] C. unfold closed_row.
  assert (E : realised_of marks q = realised_of marks p)
    by (unfold realised_of; by rewrite Ta, Tb, Qa, Ma, Qb, Mb).
  rewrite E, C. destruct c as [c|]; [destruct (0 <? c)|]; intros []; by constructor; simpl in *.
Qed.
Lemma marks_cover_same (marks : option (gmap string Q)) (p q : PositionModel) :
  same_pair p q -> marks_cover marks q = marks_cover marks p.
Proof.
  intros [[_ _ _ Ta Tb _ _ _ _] _ _ _ _]. unfold marks_cover, needed_symbols. by rewrite Ta, Tb.
Qed.

Lemma rank_closed (s t : RiskState) :
  (rank s <= rank t)%nat -> s = RISK_STATE_CLOSED -> t = RISK_STATE_CLOSED.
Proof. intros L ->. destruct t; simpl in L; try done; lia. Qed.

Lemma edited_pair {A : Type} (ops : list LedgerOp) (p q : PositionModel) (f : ExitEdit -> option A) P :
  same_pair p q -> edited ops q f P -> edited ops p f P.
Proof. intros [[E1 E2 _ _ _ _ _ _ _] _ _ _ _]. unfold edited. by rewrite E1, E2. Qed.

Lemma lives_on_trans (ops : list LedgerOp) (p q r : PositionModel) :
  lives_on ops p q -> lives_on ops q r -> lives_on ops p r.
Proof.
  intros [P1 R1 M1 C1 X1 L1 T1 S1 U1 V1 A1] [P2 R2 M2 C2 X2 L2 T2 S2 U2 V2 A2].
  assert (Ka : p_account_id q = p_account_id p) by apply P1.
  assert (Kt : p_trade_id q = p_trade_id p) by apply P1.
  rewrite Ka, Kt in *.
  assert (D : p_risk_state p = RISK_STATE_CLOSED \/ p_risk_state p <> RISK_STATE_CLOSED)
    by (destruct (p_risk_state p); auto).
  assert (Dq : p_risk_state q = RISK_STATE_CLOSED \/ p_risk_state q <> RISK_STATE_CLOSED)
    by (destruct (p_risk_state q); auto).
  assert (Down : p_risk_state q <> RISK_STATE_CLOSED -> p_risk_state p <> RISK_STATE_CLOSED)
    by (intros N E; apply N; by eapply rank_closed).
  assert (Up : p_risk_state q = RISK_STATE_CLOSED -> p_risk_state r = RISK_STATE_CLOSED)
    by (by apply rank_closed).
  constructor.
  - by eapply same_pair_trans.
  - lia.
  - intros H. destruct M2 as (-> & -> & ->); [|apply M1].
    + destruct H as [H|H]; [|by right]. left.
      destruct (p_risk_state p), (p_risk_state q), (p_risk_state r); try done; simpl in *; lia.
    + destruct H as [H|H]; [|right; intros E; by apply H, Up]. left.
      destruct (p_risk_state p), (p_risk_state q), (p_risk_state r); try done; simpl in *; lia.
  - intros N E. destruct Dq as [Eq|Nq].
    + destruct (C1 N Eq) as (now & marks & c & x & I & Cv & []).
      exists now, marks, c, x. split_and!; [done|done|]. destruct M2 as (H1 & H2 & H3); [left; congruence|].
      constructor; congruence.
    + destruct (C2 Nq E) as (now & marks & c & x & I & Cv & B). exists now, marks, c, x.
      rewrite (marks_cover_same _ _ _ P1) in Cv. split_and!; [done|done|].
      eapply closed_row_same; [exact P1| |exact B]. apply M1. by right.
  - destruct X2 as [->|(N & X2)]; [exact X1|right]. split; [by apply Down|exact X2].
  - destruct L2 as [->|[L2|(N & E & L2)]].
    + destruct L1 as [L1|[L1|(N & E & L1)]]; [by left|by right; left|right; right].
      split_and!; [done|by apply Up|]. destruct M2 as (H1 & _); [left; by rewrite E, (Up E)|]. congruence.
    + by right; left.
    + right; right. split_and!; [by apply Down|done|done].
  - destruct T2 as [->|T2]; [exact T1|right; by eapply edited_pair].
  - destruct S2 as [->|S2]; [exact S1|right; by eapply edited_pair].
  - destruct U2 as [->|U2]; [exact U1|right; by eapply edited_pair].
  - destruct V2 as [->|V2]; [exact V1|right; by eapply edited_pair].
  - destruct A2 as [->|A2]; [exact A1|right; by eapply edited_pair].
Qed.

(** ** One step of one row *)
(** [late]: the step may be the late write of a PENDING mark. *)
Inductive touched (ops : list LedgerOp) (late : bool) (p p' : PositionModel) : Prop :=
  | touched_not : p' = p -> touched ops late p p'
  | touched_close now marks c r :
      OpClose now (p_trade_id p) (p_account_id p) marks c r ∈ ops ->
      p_risk_state p <> RISK_STATE_CLOSED -> marks_cover marks p = true ->
      store (closed_row now (default ∅ marks) c r p) = Ok p' -> touched ops late p p'
  | touched_reason r t :
      OpExitReason (p_account_id p) r t ∈ ops -> t = None \/ t = Some (p_trade_id p) ->
      p_risk_state p = RISK_STATE_OPEN ->
      p' = with_state (p_risk_state p) (p_closed_at p) (Some r) p -> touched ops late p p'
  | touched_live live read :
      OpRead (SetLivePnl live) (p_account_id p) (p_trade_id p) ∈ ops ->
      store (write_live_pnl live read p) = Ok p' -> touched ops late p p'
  | touched_exits x read :
      OpRead (SetExits x) (p_account_id p) (p_trade_id p) ∈ ops ->
      store (write_exits x read p) = Ok p' -> touched ops late p p'
  | touched_pending :
      (late = false -> p_risk_state p <> RISK_STATE_CLOSED) ->
      store (write_pending p) = Ok p' -> touched ops late p p'.

Lemma stored_columns (p : PositionModel) : stored p -> columns p p.
Proof. by intros (C & _)%store_ok. Qed.

(** A row stored with other columns: the ones that are the same come back. *)
Lemma store_pair (p q p' : PositionModel) : stored p -> same_pair p q -> store q = Ok p' -> same_pair p p'.
Proof.
  intros []%stored_columns [T E1 E2 E3 E4] ([] & T' & _)%store_ok.
  constructor; try congruence. destruct T, T'. constructor; congruence.
Qed.
Lemma closed_row_pair (now : Z) (marks : gmap string Q) (c : option Q) (r : option string)
    (p : PositionModel) : same_pair p (closed_row now marks c r p).
Proof. unfold closed_row. destruct c as [c|]; [destruct (0 <? c)|]; by constructor. Qed.

Lemma touched_pair (ops : list LedgerOp) (late : bool) (p p' : PositionModel) :
  stored p -> touched ops late p p' -> same_pair p p'.
Proof.
  intros S [->|now marks c r _ _ _ E|r t _ _ _ ->|live read _ E|x read _ E|_ E];
    [apply same_pair_refl|eapply store_pair; [done| |exact E]; apply closed_row_pair|by constructor|..];
    eapply store_pair; try exact E; done.
Qed.
Lemma touched_stored (ops : list LedgerOp) (late : bool) (p p' : PositionModel) :
  stored p -> touched ops late p p' -> stored p'.
Proof.
  intros S [->|now marks c r _ _ _ E|r t _ _ _ ->|live read _ E|x read _ E|_ E];
    [done|by eapply store_stored|..]; [|by eapply store_stored..].
  apply columns_store. apply stored_columns in S as []. by constructor.
Qed.

Lemma put_q_holds (s : Z) (new read cur x : Q) :
  numeric s cur = Ok cur -> numeric s (put_q new read cur) = Ok x -> x = cur \/ numeric s new = Ok x.
Proof. unfold put_q. destruct (Qeq_bool new read); [|by right]. intros E F. left. congruence. Qed.
Lemma put_given (s : Z) (new : option Q) (read cur x : Q) :
  numeric s cur = Ok cur -> numeric s (put_q (default read new) read cur) = Ok x ->
  x = cur \/ exists q, new = Some q /\ numeric s q = Ok x.
Proof.
  intros E F. destruct new as [q|]; simpl in F.
  - destruct (put_q_holds _ _ _ _ _ E F); [by left|right; by exists q].
  - left. unfold put_q in F. rewrite Qeq_bool_refl in F. congruence.
Qed.
Lemma put_text_given (new : option string) (read cur : string) :
  put_text (default read new) read cur = cur
  \/ exists v, new = Some v /\ put_text (default read new) read cur = v.
Proof.
  unfold put_text. destruct new as [v|]; simpl; [|by rewrite String.eqb_refl; left].
  destruct (v =? read)%string; [by left|right; by exists v].
Qed.
Lemma put_bool_given (new : option bool) (read cur : bool) :
  put_bool (default read new) read cur = cur
  \/ exists v, new = Some v /\ put_bool (default read new) read cur = v.
Proof.
  unfold put_bool. destruct new as [v|]; simpl; [|by rewrite eqb_reflx; left].
  destruct (Bool.eqb v read); [by left|right; by exists v].
Qed.

Lemma store_plain (p p' : PositionModel) :
  store p = Ok p' -> p_target_unit p' = p_target_unit p /\ p_stop_unit p' = p_stop_unit p
    /\ p_exit_automation_enabled p' = p_exit_automation_enabled p.
Proof. unfold store. intros H. repeat (apply rbind_ok in H as (? & ? & H)). by injection H as <-. Qed.
Lemma closed_row_shape (now : Z) (marks : gmap string Q) (c : option Q) (r : option string)
    (p : PositionModel) :
  exists net total, closed_row now marks c r p
    = with_state RISK_STATE_CLOSED (Some now) (match r with Some r => Some r | None => p_exit_reason p end)
        (with_money net total net p).
Proof. unfold closed_row. destruct c as [c|]; [destruct (0 <? c)|]; by do 2 eexists. Qed.

Section TouchedLives.
Context (ops : list LedgerOp) (p p' : PositionModel) (S : stored p).

Lemma close_lives now marks c r :
  OpClose now (p_trade_id p) (p_account_id p) marks c r ∈ ops ->
  p_risk_state p <> RISK_STATE_CLOSED -> marks_cover marks p = true ->
  store (closed_row now (default ∅ marks) c r p) = Ok p' -> lives_on ops p p'.
Proof.
  intros I N Cv E. pose proof (store_plain _ _ E) as (U1 & U2 & U3).
  pose proof (store_pair _ _ _ S (closed_row_pair _ _ _ _ _) E) as P.
  apply store_ok in E as (C & _ & St & Cl & Re).
  assert (B : booked (closed_row now (default ∅ marks) c r p) p').
  { destruct C. by constructor. }
  destruct (closed_row_shape now (default ∅ marks) c r p) as (net & total & Eq).
  rewrite Eq in C, St, Re, U1, U2, U3. simpl in *. apply stored_columns in S as [].
  destruct C as [_ _ _ _ C5 _ C7 C8 C9]. simpl in *. constructor; try (by left; congruence).
  - done.
  - rewrite St. destruct (p_risk_state p); simpl; lia.
  - rewrite St. intros [E|E]; [by rewrite E in N|done].
  - intros _ _. by exists now, marks, c, r.
  - destruct r as [r|]; [right|by left]. split; [done|]. exists r. split; [done|]. right; right. by eauto.
  - right; right. split_and!; [done|done|congruence].
Qed.

Lemma live_lives live read :
  OpRead (SetLivePnl live) (p_account_id p) (p_trade_id p) ∈ ops ->
  store (write_live_pnl live read p) = Ok p' -> lives_on ops p p'.
Proof.
  intros I E. pose proof (store_plain _ _ E) as (U1 & U2 & U3).
  assert (P : same_pair p p') by (eapply store_pair; [done| |exact E]; done).
  apply store_ok in E as ([_ _ _ _ C5 C6 C7 C8 C9] & _ & St & Cl & Re).
  apply stored_columns in S as []. simpl in *. constructor; try (by left; congruence).
  - done.
  - by rewrite St.
  - intros _. split_and!; congruence.
  - intros N E. congruence.
  - destruct (put_q_holds _ _ _ _ _ co_live0 C7) as [L|L]; [by left|right; left; by exists live].
Qed.

Lemma exits_lives x read :
  OpRead (SetExits x) (p_account_id p) (p_trade_id p) ∈ ops ->
  store (write_exits x read p) = Ok p' -> lives_on ops p p'.
Proof.
  intros I E. pose proof (store_plain _ _ E) as (U1 & U2 & U3).
  assert (P : same_pair p p') by (eapply store_pair; [done| |exact E]; done).
  apply store_ok in E as ([_ _ _ _ C5 C6 C7 C8 C9] & _ & St & Cl & Re).
  apply stored_columns in S as []. simpl in *. constructor; try (by left; congruence).
  - done.
  - by rewrite St.
  - intros _. split_and!; congruence.
  - intros N E. congruence.
  - destruct (put_given _ _ _ _ _ co_target0 C8) as [?|(q & ? & ?)]; [by left|right; by exists x, q].
  - destruct (put_given _ _ _ _ _ co_stop0 C9) as [?|(q & ? & ?)]; [by left|right; by exists x, q].
  - destruct (put_text_given (xe_target_unit x) (p_target_unit read) (p_target_unit p)) as [?|(v & ? & ?)];
      [left; congruence|right; exists x, v; split_and!; congruence].
  - destruct (put_text_given (xe_stop_unit x) (p_stop_unit read) (p_stop_unit p)) as [?|(v & ? & ?)];
      [left; congruence|right; exists x, v; split_and!; congruence].
  - destruct (put_bool_given (xe_automation x) (p_exit_automation_enabled read)
                (p_exit_automation_enabled p)) as [?|(v & ? & ?)];
      [left; congruence|right; exists x, v; split_and!; congruence].
Qed.

Lemma pending_lives :
  p_risk_state p <> RISK_STATE_CLOSED -> store (write_pending p) = Ok p' -> lives_on ops p p'.
Proof.
  intros N E. pose proof (store_plain _ _ E) as (U1 & U2 & U3).
  assert (P : same_pair p p') by (eapply store_pair; [done| |exact E]; done).
  apply store_ok in E as ([_ _ _ _ C5 C6 C7 C8 C9] & _ & St & Cl & Re).
  apply stored_columns in S as []. simpl in *. constructor; try (by left; congruence).
  - done.
  - rewrite St. destruct (p_risk_state p); simpl; (lia || done).
  - intros _. split_and!; congruence.
  - intros _ E. congruence.
Qed.

Lemma reason_lives r t :
  OpExitReason (p_account_id p) r t ∈ ops -> t = None \/ t = Some (p_trade_id p) ->
  p_risk_state p = RISK_STATE_OPEN ->
  lives_on ops p (with_state (p_risk_state p) (p_closed_at p) (Some r) p).
Proof.
  intros I T O. constructor; try (by left); try done.
  right. split; [by rewrite O|]. exists r. split; [done|].
  destruct T as [->| ->]; [by left|by right; left].
Qed.
End TouchedLives.

Lemma touched_lives (ops : list LedgerOp) (p p' : PositionModel) :
  stored p -> touched ops false p p' -> lives_on ops p p'.
Proof.
  intros S [->|now marks c r I N Cv E|r t I T O ->|live read I E|x read I E|N E].
  - apply lives_on_refl.
  - by eapply close_lives.
  - by eapply reason_lives.
  - by eapply live_lives.
  - by eapply exits_lives.
  - by apply pending_lives; [|apply N|].
Qed.

(** ** One step of the ledger *)
Lemma open_trade_ok (now : Z) (t : OpenModelBlueTrade) (account : Z) (x : ExitSettings)
    (m m' : PositionTable) (row : PositionModel) :
  keyed m -> open_trade now t account x m = Ok (m', row) ->
  exists a b, ot_legs t = [a; b] /\ row = new_position now account t a b x
    /\ m !! (account, ot_trade_id t) = None /\ save row m = Ok m'.
Proof.
  intros K. unfold open_trade. destruct (ot_legs t) as [|a [|b [|]]]; try done.
  rewrite (get_row_at m K). simpl. destruct (m !! _) eqn:E; [done|].
  intros (m1 & S & [= <- <-])%rbind_ok. by exists a, b.
Qed.

Lemma close_trade_at (now : Z) (t : string) (account : Z) (marks : option (gmap string Q))
    (commission : option Q) (reason : option string) (m : PositionTable) :
  keyed m ->
  close_trade now t (Some account) marks commission reason m
  = match m !! (account, t) with
    | None => Raise (KeyError t)
    | Some p =>
        if in_state RISK_STATE_CLOSED p then Ok (m, p)
        else if marks_cover marks p
        then let p := closed_row now (default ∅ marks) commission reason p in
             let! m := save p m in Ok (m, p)
        else Raise (ValueError "INCOMPLETE_EXIT_MARKS")
    end.
Proof.
  intros K. unfold close_trade. rewrite (find_closable_at m K), (get_row_at m K). simpl.
  destruct (m !! _) as [p|]; [|done]. by destruct (in_state _ p).
Qed.

Definition row_step (ops : list LedgerOp) (late : Z * string -> bool) (m m' : PositionTable) : Prop :=
  table_ok m' /\
  forall k p, m !! k = Some p -> exists p', m' !! k = Some p' /\ touched ops (late k) p p'.
Lemma row_step_refl (ops : list LedgerOp) (late : Z * string -> bool) (m : PositionTable) :
  table_ok m -> row_step ops late m m.
Proof. intros T. split; [done|]. intros k p E. exists p. split; [done|by apply touched_not]. Qed.

(** A row found under its key is saved again. *)
Lemma save_step (ops : list LedgerOp) (late : Z * string -> bool) (m : PositionTable)
    (account : Z) (t : string) (p q : PositionModel) :
  table_ok m -> m !! (account, t) = Some p -> row_key q = row_key p ->
  (forall q', p_account_id p = account -> p_trade_id p = t -> store q = Ok q' ->
     touched ops (late (account, t)) p q') ->
  row_step ops late m (committed m (save q m) id).
Proof.
  intros T E Kq F. destruct (save q m) as [m'|] eqn:Sv; simpl; [|by apply row_step_refl].
  split; [by eapply save_table_ok|]. apply save_ok in Sv as (q' & Eq & ->). intros k x L.
  pose proof (proj1 T _ _ E) as Kp. rewrite Kq, Kp. unfold row_key in Kp. injection Kp as Ka Kt.
  destruct (decide (k = (account, t))) as [->|N].
  - exists q'. rewrite lookup_insert_eq. split; [done|]. assert (x = p) as -> by congruence. auto.
  - exists x. rewrite lookup_insert_ne by done. split; [done|by apply touched_not].
Qed.
Lemma committed_pair (m : PositionTable) (r : result PositionTable) (row : PositionModel) :
  committed m (let! m' := r in Ok (m', row)) fst = committed m r id.
Proof. by destruct r. Qed.

Lemma open_step (ops : list LedgerOp) (late : Z * string -> bool) (now : Z) (t : OpenModelBlueTrade)
    (account : Z) (x : ExitSettings) (m : PositionTable) :
  table_ok m -> row_step ops late m (committed m (open_trade now t account x m) fst).
Proof.
  intros T. destruct (open_trade now t account x m) as [[m' row]|] eqn:E; [|by apply row_step_refl].
  apply open_trade_ok in E as (a & b & _ & -> & N & Sv); [|apply T].
  split; [by eapply save_table_ok|]. intros k p L. exists p. split; [|by apply touched_not].
  apply save_ok in Sv as (q & _ & ->). simpl. rewrite lookup_insert_ne; [done|].
  intros <-. unfold row_key in L. simpl in L. congruence.
Qed.

Lemma close_step (ops : list LedgerOp) (late : Z * string -> bool) (now : Z) (t : string)
    (account : Z) (marks : option (gmap string Q)) (c : option Q) (r : option string)
    (m : PositionTable) :
  table_ok m -> OpClose now t account marks c r ∈ ops ->
  row_step ops late m (committed m (close_trade now t (Some account) marks c r m) fst).
Proof.
  intros T I. rewrite close_trade_at by apply T.
  destruct (m !! (account, t)) as [p|] eqn:E; [|by apply row_step_refl].
  destruct (in_state _ p) eqn:C; [by apply row_step_refl|].
  destruct (marks_cover marks p) eqn:Cv; [|by apply row_step_refl].
  rewrite committed_pair. eapply save_step; [done|exact E|apply same_pair_key, closed_row_pair|].
  intros q' Ka Kt Sq. eapply touched_close; [by rewrite Ka, Kt| |exact Cv|exact Sq].
  unfold in_state in C. by bool_to_prop.
Qed.

Lemma reason_step (ops : list LedgerOp) (late : Z * string -> bool) (account : Z) (r : string)
    (t : option string) (m : PositionTable) :
  table_ok m -> OpExitReason account r t ∈ ops ->
  row_step ops late m (set_exit_reason account r t m).1.
Proof.
  intros T I. unfold set_exit_reason. cbv zeta. simpl fst.
  match goal with |- context [?g <$> m] => set (f := g) end.
  assert (F : forall k p, m !! k = Some p -> touched ops (late k) p (f p)).
  { intros k p E. unfold f. destruct (_ && _) eqn:H; [|by apply touched_not].
    bool_to_prop. unfold in_state in *. bool_to_prop. subst account.
    eapply touched_reason; [exact I| |done|done]. destruct t as [t|]; [right|by left]. by bool_to_prop; subst. }
  split; [split|].
  - intros k q E. rewrite lookup_fmap in E. destruct (m !! k) as [p|] eqn:L; [|done].
    injection E as <-. rewrite (same_pair_key p); [by apply T|].
    eapply touched_pair; [by eapply T|by eapply (F k)].
  - intros k q E. rewrite lookup_fmap in E. destruct (m !! k) as [p|] eqn:L; [|done].
    injection E as <-. eapply touched_stored; [by eapply T|by eapply (F k)].
  - intros k p E. exists (f p). rewrite lookup_fmap, E. split; [done|by apply F].
Qed.

(** The readings come from the operations. *)
Definition readings_from (ops : list LedgerOp) (l : Ledger) : Prop :=
  Forall (fun r => OpRead (rd_what r) (rd_account r) (rd_trade r) ∈ ops) (lg_readings l).

Lemma write_step (ops : list LedgerOp) (late : Z * string -> bool) (r : Reading) (m : PositionTable) :
  table_ok m -> OpRead (rd_what r) (rd_account r) (rd_trade r) ∈ ops ->
  (rd_what r = SetPending -> late (rd_account r, rd_trade r) = false ->
   forall p, m !! (rd_account r, rd_trade r) = Some p -> p_risk_state p <> RISK_STATE_CLOSED) ->
  row_step ops late m (committed m
    (write_over (rd_account r) (rd_trade r) (write_for (rd_what r) (rd_row r)) m) id).
Proof.
  intros T I N. unfold write_over. destruct (m !! _) as [p|] eqn:E; [|by apply row_step_refl].
  eapply save_step; [done|exact E|by destruct (rd_what r)|]. intros q' Ka Kt Sq. rewrite <- Ka, <- Kt in I.
  destruct (rd_what r) as [live|x|]; simpl in *;
    [by eapply touched_live|by eapply touched_exits|apply touched_pending; [|done]].
  intros L. by eapply N.
Qed.

Lemma ledger_op_step (ops : list LedgerOp) (op : LedgerOp) (l : Ledger) :
  table_ok (lg_rows l) -> readings_from ops l -> op ∈ ops ->
  readings_from ops (ledger_op l op)
  /\ row_step ops (fun k => late_mark k op l) (lg_rows l) (lg_rows (ledger_op l op)).
Proof.
  intros T R I. destruct op as [now t a x|now t a marks c r|a r t|u a t|i]; simpl.
  - split; [done|by apply open_step].
  - split; [done|by apply close_step].
  - split; [done|by apply reason_step].
  - destruct (read_for u a t (lg_rows l)) as [p|]; simpl; (split; [|by apply row_step_refl]); [|done].
    apply Forall_app; split; [done|]. by constructor.
  - destruct (lg_readings l !! i) as [r|] eqn:E; simpl; [|split; [done|by apply row_step_refl]].
    split; [by apply Forall_delete|]. apply write_step; [done|exact (Forall_lookup_1 _ _ _ _ R E)|].
    intros W L p Ep Cl. destruct r as [a t row w]. simpl in *. subst w.
    rewrite Ep in L. unfold in_state in L. by rewrite !bool_decide_true in L.
Qed.

Lemma ledger_run_lives (all ops : list LedgerOp) (l : Ledger) (k : Z * string) (p : PositionModel) :
  table_ok (lg_rows l) -> readings_from all l -> ops ⊆ all -> lg_rows l !! k = Some p ->
  table_ok (lg_rows (ledger_run ops l)) /\
  exists p', lg_rows (ledger_run ops l) !! k = Some p' /\ same_pair p p'
    /\ (no_late_mark k ops l = true -> lives_on all p p').
Proof.
  revert l p. induction ops as [|op ops IH]; intros l p T R I E; simpl.
  - split; [done|]. exists p. split_and!; [done|apply same_pair_refl|intros _; apply lives_on_refl].
  - destruct (ledger_op_step all op l T R) as (R' & T' & F); [set_solver|].
    destruct (F k p E) as (q & Eq & Q). pose proof (proj2 T _ _ E) as St.
    destruct (IH (ledger_op l op) q T' R') as (T'' & p' & E' & P & L); [set_solver|done|].
    split; [done|]. exists p'. split_and!; [done|eapply same_pair_trans; [|exact P]; by eapply touched_pair|].
    intros N. bool_to_prop. eapply lives_on_trans; [|by apply L].
    apply touched_lives; [done|]. by replace (late_mark k op l) with false in Q by (by destruct (late_mark k op l)).
Qed.

(** C26: The life of a position, whatever the services do to the ledger
    afterwards and however the unlocked reads and writes of different sessions
    interleave: its row stays under its account and trade id, and is the pair
    it was opened as.  And unless the kill switch's PENDING mark on it, taken
    when it was open, is written after it was closed: its state only moves
    forward; while it is not closed its profit, commission and closing time do
    not move; it becomes closed only by a close of that trade and account,
    with every mark it needs, and then has that close's profit, commission and
    time, for good; its exit reason, its live profit and its exit settings are
    the ones it had or ones an operation on it wrote. *)
Theorem position_life (ops : list LedgerOp) (m : PositionTable) (k : Z * string) (p : PositionModel) :
  table_ok m -> m !! k = Some p ->
  exists p', lg_rows (ledger_run ops (at_rest m)) !! k = Some p' /\ same_pair p p'
    /\ (no_late_mark k ops (at_rest m) = true -> lives_on ops p p').
Proof.
  intros T E. apply (ledger_run_lives ops ops (at_rest m) k p); [done|constructor|done|done].
Qed.

(** The ledger stays well typed: whatever is opened, closed, flattened, priced
    or edited, each row lies under its own account and trade id, and each of its
    columns holds a value the numeric type of the column can hold, rounded to
    its scale -- what is read back is what was stored. *)
Theorem ledger_typed (ops : list LedgerOp) (m : PositionTable) :
  table_ok m -> table_ok (lg_rows (ledger_run ops (at_rest m))).
Proof.
  intros T. enough (G : forall l, table_ok (lg_rows l) -> readings_from ops l -> forall tl, tl ⊆ ops ->
    table_ok (lg_rows (ledger_run tl l))) by (apply G; [done|constructor|done]).
  intros l Tl R tl. revert l Tl R. induction tl as [|op tl IH]; intros l Tl R I; [done|].
  destruct (ledger_op_step ops op l Tl R) as (R' & T' & _); [set_solver|]. apply IH; [done|done|set_solver].
Qed.

(** The unlocked operations are a read step, what others do, and a write step. *)
Lemma update_live_pnl_steps (a : Z) (t : string) (live : Q) (ops : list LedgerOp) (m : PositionTable) :
  keyed m -> Forall (fun op => match op with OpRead _ _ _ | OpWrite _ => False | _ => True end) ops ->
  lg_rows (ledger_run (OpRead (SetLivePnl live) a t :: ops ++ [OpWrite 0]) (at_rest m))
  = let between m := fold_left locked_op ops m in
    committed (between m) (update_live_pnl a t live between m) id.
Proof.
  intros K F. assert (G : forall m rs, fold_left ledger_op ops {| lg_rows := m; lg_readings := rs |}
      = {| lg_rows := fold_left locked_op ops m; lg_readings := rs |}).
  { induction F as [|op ops Fo _ IH]; intros m' rs; simpl; [done|]. rewrite <- IH. by destruct op. }
  unfold ledger_run, update_live_pnl, at_rest. simpl fold_left. rewrite fold_left_app, (get_open_at m K). simpl.
  destruct (m !! (a, t)) as [p|]; [destruct (in_state _ p)|]; by rewrite G.
Qed.

(** ** What the database book promises *)
Lemma numeric_repr (s : Z) (q x : Q) : numeric s q = Ok x -> dec_repr x.
Proof.
  unfold numeric. cbv zeta. destruct (_ <? _)%Z eqn:E; [|done]. intros [= <-].
  exists (round_half_up (q * pw 10 s)), (- s)%Z. split; [|apply Qred_correct].
  bool_to_prop. lia.
Qed.
Lemma round_half_up_opp (q : Q) : round_half_up (- q) = (- round_half_up q)%Z.
Proof.
  unfold round_half_up. destruct (Qleb_spec 0 q), (Qleb_spec 0 (- q)).
  - assert (E : q == inject_Z 0) by (change (inject_Z 0) with 0; lra).
    rewrite (floor_half _ 0 E), (floor_half (- q) 0); [done|]. change (inject_Z 0) with 0 in *. lra.
  - by rewrite (Qfloor_comp (- - q + (1 # 2)) (q + (1 # 2))) by ring.
  - lia.
  - lra.
Qed.
#[global] Instance round_half_up_proper : Proper (Qeq ==> eq) round_half_up.
Proof.
  intros x y E. unfold round_half_up. rewrite E at 1. destruct (0 <=? y).
  - apply Qfloor_comp. by rewrite E.
  - f_equal. apply Qfloor_comp. by rewrite E.
Qed.
#[global] Instance numeric_proper (s : Z) : Proper (Qeq ==> eq) (numeric s).
Proof.
  intros x y E. unfold numeric.
  by rewrite (round_half_up_proper (x * pw 10 s) (y * pw 10 s)) by (by rewrite E).
Qed.
(** A column holds the opposite of the opposite. *)
Lemma numeric_opp (s : Z) (q x : Q) :
  numeric s q = Ok x -> exists y, numeric s (- q) = Ok y /\ y == - x.
Proof.
  unfold numeric. cbv zeta.
  rewrite (round_half_up_proper (- q * pw 10 s) (- (q * pw 10 s))) by ring.
  rewrite round_half_up_opp, Z.abs_opp. destruct (_ <? _)%Z; [|done]. intros [= <-].
  eexists. split; [done|]. rewrite !Qred_correct, inject_Z_opp. ring.
Qed.

(** What the ledger keeps of a leg: the symbol as it is written everywhere,
    the quantity to four decimals and the price to eight. *)
Record kept (l l' : OpenModelBlueTradeLeg) : Prop := {
  kp_symbol : ol_symbol l' = normalize_symbol (JStr (ol_symbol l));
  kp_type : ol_instrument_type l' = Some (str_or (opt_str (ol_instrument_type l)) "STK");
  kp_side : ol_side l' = ol_side l;
  kp_quantity : exists q, numeric 4 (ol_quantity l) = Ok q /\ ol_quantity l' == q;
  kp_price : numeric 8 (ol_price l) = Ok (ol_price l')
}.
(** A leg worth keeping: a symbol, and at least half of the least quantity the
    ledger tells from nothing. *)
Definition keepable (l : OpenModelBlueTradeLeg) : Prop :=
  str_empty (normalize_symbol (JStr (ol_symbol l))) = false
  /\ forall q, numeric 4 (ol_quantity l) = Ok q -> 0 < q.

Lemma leg_kept (l : OpenModelBlueTradeLeg) (signed mark : Q) (type : option string) :
  keepable l -> numeric 4 (signed_qty (ol_side l) (ol_quantity l)) = Ok signed ->
  numeric 8 (ol_price l) = Ok mark ->
  str_or (opt_str type) "STK" = str_or (opt_str (ol_instrument_type l)) "STK" ->
  exists l', leg_from_signed (Some (normalize_symbol (JStr (ol_symbol l)))) (Some signed) (Some mark) type
             = Some l' /\ kept l l'.
Proof.
  intros [N P] Q4 Q8 T. remember (normalize_symbol (JStr (ol_symbol l))) as sym eqn:Sym.
  unfold leg_from_signed, opt_str at 1. simpl default. rewrite N. eexists. split; [done|].
  assert (exists q, numeric 4 (ol_quantity l) = Ok q
    /\ signed == match ol_side l with BUY => q | SELL => - q end) as (q & Eq & Es).
  { destruct (ol_side l); simpl in Q4; [by exists signed|].
    destruct (numeric_opp 4 _ _ Q4) as (q & E & Eo). exists q. split; [|lra].
    rewrite <- E. apply numeric_proper. ring. }
  pose proof (P q Eq) as Pq. constructor; simpl; [done|by rewrite T| | |done].
  - destruct (ol_side l); destruct (Qleb_spec 0 signed); try done; lra.
  - exists q. split; [done|]. apply numeric_repr in Eq. rewrite <- (dabs_eq q Eq) by lra.
    unfold dabs. apply rnd_proper; [apply ten_ge_2|]. rewrite Es. destruct (ol_side l); [reflexivity|apply Qabs_opp].
Qed.

Lemma opened_kept (now account : Z) (t : OpenModelBlueTrade) (a b : OpenModelBlueTradeLeg)
    (x : ExitSettings) (realised commission live : Q) (p : PositionModel) :
  ot_legs t = [a; b] -> keepable a -> keepable b ->
  store (with_money realised commission live (new_position now account t a b x)) = Ok p ->
  ot_trade_id (to_open_trade p) = ot_trade_id t /\ ot_strategy_id (to_open_trade p) = ot_strategy_id t
  /\ Forall2 kept (ot_legs t) (ot_legs (to_open_trade p)).
Proof.
  intros L Ka Kb S. apply store_ok in S as ([Qa Ma Qb Mb _ _ _ _ _] & T & _).
  destruct T as [_ T1 T2 T3 T4 T5 T6 _ _]. simpl in *.
  apply rbind_ok in Qb as (qb & Qb & [= Eqb]), Mb as (mb & Mb & [= Emb]).
  destruct (leg_kept a (p_leg_a_signed_qty p) (p_leg_a_entry_mark p)
              (Some (p_leg_a_instrument_type p)) Ka Qa Ma) as (a' & Ea & Pa).
  { rewrite T5. by destruct (ol_instrument_type a). }
  destruct (leg_kept b qb mb (p_leg_b_instrument_type p) Kb Qb Mb) as (b' & Eb & Pb); [by rewrite T6|].
  split_and!; [done|done|]. rewrite L, T3, T4, <- Eqb, <- Emb. simpl in *. rewrite Ea, Eb. simpl.
  apply Forall2_cons; split; [done|]. apply Forall2_cons; split; [done|]. constructor.
Qed.

(** Closing without marks stores the row as it is. *)
Lemma realised_no_marks (p : PositionModel) : realised_of ∅ p = 0.
Proof.
  unfold realised_of. rewrite lookup_empty.
  destruct (p_leg_b_symbol p) as [[|c s]|], (p_leg_b_signed_qty p), (p_leg_b_entry_mark p);
    done.
Qed.
Lemma close_plain_stored (now : Z) (p : PositionModel) :
  stored p -> store (closed_row now ∅ None None p) = Ok (closed_row now ∅ None None p).
Proof.
  intros []%stored_columns. apply columns_store. unfold closed_row. rewrite realised_no_marks.
  by constructor.
Qed.

Lemma require_ok (strategy : string) (account : Z) (db : Database) (r : AccountRow) (l : AllocationRow) :
  require_account_allocation strategy account db = Ok (r, l) -> ar_id r = account /\ al_enabled l = true.
Proof.
  unfold require_account_allocation, get_enabled_account.
  destruct (List.find _ (accounts db)) as [r'|] eqn:E; [|done].
  destruct (get_allocation _ _ _) as [l'|]; [|done]. destruct (al_enabled l') eqn:A; [|done].
  intros [= <- <-]. apply find_some in E as [_ E]. by bool_to_prop.
Qed.

Lemma db_record_blocked (trade : OpenModelBlueTrade) (account : option Z) (a : Z) (b : DatabaseBook)
    (p : PositionModel) :
  require_account account b = Ok a -> keyed (bk_positions b) ->
  bk_positions b !! (a, ot_trade_id trade) = Some p ->
  exists e, db_record_open trade account b = Raise e.
Proof.
  intros R K E. unfold db_record_open. rewrite R. simpl.
  destruct (require_account_allocation _ a _) as [[r l]|] eqn:Q; simpl; [|eauto].
  apply require_ok in Q as [<- _]. unfold open_trade.
  destruct (ot_legs trade) as [|? [|? [|]]]; simpl; eauto.
  rewrite (get_row_at _ K), E. simpl. eauto.
Qed.


(** C27: The trade book in the database keeps what its clients rely on, in any
    state the services can reach: a recorded pair is found again under its
    account -- after a restart too -- with the same sides and its quantities and
    prices as the columns hold them; it blocks its trade id for good; closing
    returns the pair and from then on none is open. *)
Theorem database_book_keeps (trade : OpenModelBlueTrade) (account : option Z) (b b1 : DatabaseBook) :
  table_ok (bk_positions b) -> Forall keepable (ot_legs trade) ->
  db_record_open trade account b = Ok b1 ->
  let id := ot_trade_id trade in
  exists t b2,
    db_get id account b1 = Ok (Some t) /\ ot_trade_id t = id
    /\ ot_strategy_id t = ot_strategy_id trade /\ Forall2 kept (ot_legs trade) (ot_legs t)
    /\ (exists e, db_record_open trade account b1 = Raise e)
    /\ db_close id account b1 = Ok (t, b2) /\ db_get id account b2 = Ok None
    /\ (exists e, db_record_open trade account b2 = Raise e)
    /\ db_close id account b2 = Ok (t, b2).
Proof.
  intros T F H id. unfold db_record_open in H. apply rbind_ok in H as (a & R & H).
  apply rbind_ok in H as ([r l] & Q & H). apply require_ok in Q as [<- _].
  apply rbind_ok in H as ([m row] & O & [= <-]). pose proof T as [K _].
  apply open_trade_ok in O as (x & y & L & -> & N & Sv); [|done].
  pose proof (save_table_ok _ _ _ T Sv) as T1. apply save_ok in Sv as (p & Sp & Em).
  assert (E : m !! (ar_id r, id) = Some p) by (rewrite Em; apply lookup_insert_eq).
  rewrite L in F. apply Forall_cons in F as [Fx F]. apply Forall_cons in F as [Fy _].
  destruct (opened_kept _ _ _ x y _ 0 0 0 p L Fx Fy Sp) as (I1 & I2 & I3).
  apply store_ok in Sp as (_ & _ & S & _). simpl in S.
  destruct T1 as [K1 St1]. set (now := bk_now b). set (c := closed_row now ∅ None None p).
  assert (Kc : row_key c = (ar_id r, id)) by (apply (K1 _ _ E)).
  assert (Cl : close_trade now id (Some (ar_id r)) None None None m = Ok (<[(ar_id r, id) := c]> m, c)).
  { rewrite close_trade_at, E by done. unfold in_state. rewrite S. simpl. unfold save.
    rewrite close_plain_stored by (by eapply St1). simpl. fold c. by rewrite Kc. }
  set (m2 := <[(ar_id r, id) := c]> m) in *.
  assert (K2 : keyed m2).
  { intros k q L2. apply lookup_insert_Some in L2 as [[<- <-]|[_ L2]]; [done|by apply K1]. }
  assert (E2 : m2 !! (ar_id r, id) = Some c) by apply lookup_insert_eq.
  exists (to_open_trade p), (with_positions m2 b). split_and!.
  - unfold db_get. change (require_account account _) with (require_account account b). rewrite R.
    simpl. unfold get_open_trade. rewrite (get_open_at m K1), E. unfold in_state. by rewrite S.
  - exact I1.
  - exact I2.
  - by rewrite L in I3 |- *.
  - by eapply db_record_blocked.
  - unfold db_close. change (require_account account _) with (require_account account b). rewrite R.
    simpl. fold now. by rewrite Cl.
  - unfold db_get. change (require_account account _) with (require_account account b). rewrite R.
    simpl. unfold get_open_trade. by rewrite (get_open_at m2 K2), E2.
  - by eapply db_record_blocked.
  - unfold db_close. change (require_account account _) with (require_account account b). rewrite R.
    simpl. by rewrite close_trade_at, E2 by done.
Qed.

(** ** Concrete instances *)
Definition ex_db : Database := {|
  accounts := [{| ar_id := 7; ar_ibkr_account := "DU7"; ar_enabled := true; ar_total_margin := 100000 |}];
  allocations := [{| al_account_id := 7; al_strategy_id := "model_blue"; al_enabled := true;
    al_alloc_pct := 1 # 2; al_pair_max_allocation_pct := 2 # 10; al_target := 500; al_stop := 300;
    al_time_limit := 5; al_max_open_positions := 10; al_target_unit := "ABSOLUTE";
    al_stop_unit := EmptyString; al_exit_automation_enabled := true |}];
  strategies := [{| st_strategy_id := "model_blue"; st_enabled := true |}] |}.
Definition ex_pair_trade : OpenModelBlueTrade := {|
  ot_trade_id := "T1"; ot_strategy_id := "model_blue"; ot_direction := 1;
  ot_legs := [{| ol_symbol := "spy"; ol_instrument_type := Some "STK"%string; ol_side := BUY;
                 ol_quantity := 10; ol_price := 50012345678 # 100000000 |};
              {| ol_symbol := "QQQ"; ol_instrument_type := Some "CFD"%string; ol_side := SELL;
                 ol_quantity := 12; ol_price := 1000000001 # 3000000 |}] |}.
Definition ex_empty_book : DatabaseBook := {|
  bk_database := ex_db; bk_positions := ∅; bk_now := 100; bk_account := None |}.
Definition ex_open_book : DatabaseBook :=
  match db_record_open ex_pair_trade (Some 7%Z) ex_empty_book with Ok b => b | Raise _ => ex_empty_book end.

Lemma empty_table_ok : table_ok ∅.
Proof. by split; intros k p E; rewrite lookup_empty in E. Qed.
Lemma database_book_keeps_witness :
  exists t b2, db_get "T1" (Some 7%Z) ex_open_book = Ok (Some t)
    /\ map ol_side (ot_legs t) = [BUY; SELL]
    /\ db_close "T1" (Some 7%Z) ex_open_book = Ok (t, b2)
    /\ db_close "T1" (Some 7%Z) b2 = Ok (t, b2).
Proof.
  destruct (database_book_keeps ex_pair_trade (Some 7%Z) ex_empty_book ex_open_book)
    as (t & b2 & G & _ & _ & K & _ & C & _ & _ & C').
  - apply empty_table_ok.
  - apply Forall_cons; split; [|apply Forall_cons; split; [|constructor]];
      (split; [by vm_compute|intros q; vm_compute; by intros [= <-]]).
  - by vm_compute.
  - exists t, b2. split_and!; [exact G| |exact C|exact C'].
    apply Forall2_cons_inv_l in K as (x & l & [_ _ Kx _ _] & K & ->).
    apply Forall2_cons_inv_l in K as (y & l' & [_ _ Ky _ _] & K & ->).
    apply Forall2_nil_inv_l in K as ->. simpl. by rewrite Kx, Ky.
Defined.

Definition ex_closing : LedgerOp :=
  OpClose 200 "T1" 7 (Some {[ "SPY"%string := 501; "QQQ"%string := 330 ]}) (Some (5 # 2)) None.
(** A profit is read for the open pair, the target is met and both legs are
    closed, and only then the profit is written. *)
Definition ex_ops : list LedgerOp :=
  [OpRead (SetLivePnl 9) 7 "T1"; OpExitReason 7 "TARGET" None; ex_closing; OpWrite 0;
   OpRead SetPending 7 "T1"].
Lemma ex_open_table_ok : table_ok (bk_positions ex_open_book).
Proof.
  replace (bk_positions ex_open_book) with (committed ∅ (open_trade 100 ex_pair_trade 7
    (exits_of (hd {| al_account_id := 0; al_strategy_id := EmptyString; al_enabled := false;
       al_alloc_pct := 0; al_pair_max_allocation_pct := 0; al_target := 0; al_stop := 0;
       al_time_limit := 0; al_max_open_positions := 0; al_target_unit := EmptyString;
       al_stop_unit := EmptyString; al_exit_automation_enabled := false |} (allocations ex_db))) ∅) fst)
    by (by vm_compute).
  apply (open_step [] (fun _ => false)), empty_table_ok.
Qed.
Lemma position_life_witness :
  exists p p', bk_positions ex_open_book !! (7%Z, "T1"%string) = Some p
    /\ p_risk_state p = RISK_STATE_OPEN
    /\ lg_rows (ledger_run ex_ops (at_rest (bk_positions ex_open_book))) !! (7%Z, "T1"%string) = Some p'
    /\ p_leg_a_symbol p' = "SPY"%string /\ lives_on ex_ops p p'.
Proof.
  destruct (bk_positions ex_open_book !! (7%Z, "T1"%string)) as [p|] eqn:E; [|by vm_compute in E].
  destruct (position_life ex_ops _ (7%Z, "T1"%string) p ex_open_table_ok E) as (p' & E' & P & L).
  exists p, p'. split_and!; [done| |exact E'| |apply L; by vm_compute].
  - vm_compute in E. by injection E as <-.
  - rewrite (st_a _ _ (sp_text _ _ P)). vm_compute in E. by injection E as <-.
Defined.
Lemma ledger_typed_witness : table_ok (lg_rows (ledger_run ex_ops (at_rest ∅))).
Proof. apply ledger_typed. apply empty_table_ok. Defined.

(** The late mark: the kill switch reads the pair open, the pair is closed at
    its marks, and the PENDING mark written after it takes the close back; the
    next close books another profit.  The live profit read before a close stays
    on the closed row. *)
Example late_mark_reopens :
  let run ops := lg_rows (ledger_run ops (at_rest (bk_positions ex_open_book))) !! (7%Z, "T1"%string) in
  let late := [OpRead SetPending 7 "T1"; ex_closing; OpWrite 0] in
  option_map p_risk_state (run late) = Some RISK_STATE_FLATTENED_PENDING_PRICE
  /\ option_map p_closed_at (run late) = Some (Some 200%Z)
  /\ option_map p_realised_pnl (run (late ++ [OpClose 300 "T1" 7 None None None])) = Some 0
  /\ option_map p_live_pnl (run ex_ops) = Some 9
  /\ option_map p_risk_state (run ex_ops) = Some RISK_STATE_CLOSED.
Proof. by vm_compute. Qed.

(** The commission of the opening is taken off only when the close reports
    one of its own. *)
Example commission_needs_both :
  let p := with_money 0 4 0 (new_position 0 7 ex_pair_trade
             {| ol_symbol := "SPY"; ol_instrument_type := None; ol_side := BUY; ol_quantity := 10; ol_price := 500 |}
             {| ol_symbol := "QQQ"; ol_instrument_type := None; ol_side := SELL; ol_quantity := 12; ol_price := 400 |}
             {| xs_target := 0; xs_stop := 0; xs_time_limit := 0; xs_target_unit := EmptyString;
                xs_stop_unit := EmptyString; xs_automation := false |}) in
  let marks := {[ "SPY"%string := 501; "QQQ"%string := 400 ]} in
  p_realised_pnl (closed_row 9 marks None None p) == 10
  /\ p_realised_pnl (closed_row 9 marks (Some 1) None p) == 5.
Proof. by vm_compute. Qed.
