(* ===== verification/OrderLedger.v ===== *)
(** * The order, basket and event ledgers:
    [db/repositories/order_repository.py], [basket_repository.py] and
    [event_repository.py]

    What the program writes of its orders and baskets, and the sweeps that
    escalate what stays unfinished.  The columns the order book screens add are
    left out. *)

From S2P Require Import Prelude Rounding PyText PyTime Identifiers RmsModels Margin Checks Engine Instruments Oms Accounts TradeBook Positions.

#[local] Open Scope Q_scope.
#[local] Open Scope py_scope.
#[local] Set Warnings "-clear-no-such-hyp".

(** [a or b] of optional numbers: zero is false. *)
Definition q_or (a b : option Q) : option Q :=
  match a with Some q => if Qeq_bool q 0 then b else a | None => b end.
(** [derived or order.average_fill_price or order.last_fill_price]. *)
Definition order_price (o : OMSOrder) : option Q :=
  q_or (executions_weighted_average (o_executions o))
    (q_or (average_fill_price o) (last_fill_price o)).

Record OrderModel : Type := {
  om_id : Z;
  om_signal_id : Z;
  om_trade_id : option string;
  om_internal_order_id : string;
  om_basket_id : option Z;
  om_is_compensation : bool;
  om_compensation_of : option string;
  om_account_id : Z;
  om_strategy_id : string;
  om_leg : string;
  om_symbol : string;
  om_ibkr_contract : string;
  om_buy_sell : OrderSide;
  om_quantity : Q;
  om_limit_price : Q;
  om_status : OMSOrderStatus;
  om_broker_order_id : option string;
  om_fill_price : option Q;
  om_fill_qty : option Q;
  om_filled_at : option Z;
  om_margin_impact : option Q;
  om_updated_at : Z
}.

Definition terminal_order_status (s : OMSOrderStatus) : bool :=
  match s with FILLED | CANCELLED | REJECTED => true | _ => false end.

(** [_margin_impact_from_order]: a NaN raises when it is compared. *)
Definition margin_impact_from_order (o : OMSOrder) : result (option Q) :=
  let idx := default 0%Z (o_leg_index o) in
  if (idx <? 0)%Z then Ok None
  else match legs (o_intent o) !! Z.to_nat idx with
       | None => Ok None
       | Some leg =>
           let meta := match leg_metadata leg with Some (JObj fields) => fields | _ => [] end in
           let source := py_str (jor (jget "margin_source" meta) (JStr EmptyString)) in
           if negb (source =? "WHAT_IF")%string then Ok None
           else match jget "margin_impact" meta with
                | JNull => Ok None
                | raw =>
                    match parse_decimal (py_str raw) with
                    | None => Ok None
                    | Some DNaN => Raise InvalidOperation
                    | Some (DInf neg) => if neg then Ok None else Raise (OtherError "numeric field overflow")
                    | Some (DFin v) => Ok (if v <? 0 then None else Some v)
                    end
                end
       end.

Definition order_contract (o : OMSOrder) : string :=
  match o_resolved o with
  | Some r => identity_key r
  | None =>
      let idx := default 0%Z (o_leg_index o) in
      let itype := match (if (idx <? 0)%Z then None else legs (o_intent o) !! Z.to_nat idx) with
                   | Some leg => str_or (opt_str (leg_instrument_type leg)) "STK"
                   | None => "STK"%string
                   end in
      (o_symbol o ++ "-" ++ itype ++ "-SMART-USD")%string
  end.

(** A fill price that fits the column. *)
Definition plausible_price (p : option Q) : option Q :=
  match p with
  | Some q => if inject_Z (10 ^ 12) <=? Qabs (fl q) then None else Some q
  | None => None
  end.

(** What is written of an order, given the row it may already have; [filled_at]
    is the time its last execution was received. *)
Definition merged_fill (o : OMSOrder) (filled_at : option Z) (existing : option OrderModel)
    : OMSOrderStatus * Q * option Q * option Z :=
  let filled := dec_of_num (NFloat (filled_quantity o)) in
  let price := plausible_price (order_price o) in
  match existing with
  | Some e =>
      if terminal_order_status (om_status e) then
        (om_status e,
         match om_fill_qty e with Some q => if filled <? q then q else filled | None => filled end,
         match price with Some p => Some p | None => om_fill_price e end,
         match filled_at with Some t => Some t | None => om_filled_at e end)
      else (o_status o, filled, price, filled_at)
  | None => (o_status o, filled, price, filled_at)
  end.

Abbreviation OrderTable := (gmap string OrderModel).

Record OrderTags : Type := {
  tg_signal_pk : Z; tg_account_id : Z; tg_trade_id : string; tg_strategy_id : string;
  tg_leg_label : string
}.
Definition new_order_row (id now : Z) (o : OMSOrder) (x : OrderTags) (side : OrderSide) (status : OMSOrderStatus)
    (quantity limit filled : Q) (price : option Q) (filled_at : option Z) (margin : option Q)
    : OrderModel := {|
  om_id := id; om_signal_id := tg_signal_pk x; om_trade_id := Some (tg_trade_id x);
  om_internal_order_id := internal_order_id o; om_basket_id := basket_id o;
  om_is_compensation := is_compensation o; om_compensation_of := compensation_of_internal_order_id o;
  om_account_id := tg_account_id x; om_strategy_id := tg_strategy_id x; om_leg := tg_leg_label x;
  om_symbol := o_symbol o; om_ibkr_contract := order_contract o; om_buy_sell := side;
  om_quantity := quantity; om_limit_price := limit; om_status := status;
  om_broker_order_id := option_map str_Z (ibkr_order_id o); om_fill_price := price;
  om_fill_qty := Some filled; om_filled_at := filled_at; om_margin_impact := margin;
  om_updated_at := now |}.
(** The conflicting row: [updated_at] keeps the time of the insert, since
    [onupdate] is not exercised by an upsert. *)
Definition update_order_row (o : OMSOrder) (status : OMSOrderStatus)
    (quantity limit filled : Q) (price : option Q) (filled_at : option Z) (margin : option Q)
    (e : OrderModel) : OrderModel := {|
  om_id := om_id e; om_signal_id := om_signal_id e; om_trade_id := om_trade_id e;
  om_internal_order_id := om_internal_order_id e;
  om_basket_id := match basket_id o with Some b => Some b | None => om_basket_id e end;
  om_is_compensation := is_compensation o;
  om_compensation_of := match compensation_of_internal_order_id o with
                        | Some c => Some c | None => om_compensation_of e end;
  om_account_id := om_account_id e; om_strategy_id := om_strategy_id e; om_leg := om_leg e;
  om_symbol := om_symbol e; om_ibkr_contract := om_ibkr_contract e; om_buy_sell := om_buy_sell e;
  om_quantity := quantity; om_limit_price := limit; om_status := status;
  om_broker_order_id := option_map str_Z (ibkr_order_id o); om_fill_price := price;
  om_fill_qty := Some filled;
  om_filled_at := match filled_at with Some t => Some t | None => om_filled_at e end;
  om_margin_impact := match margin with Some m => Some m | None => om_margin_impact e end;
  om_updated_at := om_updated_at e |}.

(** [record_oms_order]: INSERT ... ON CONFLICT DO UPDATE. *)
Definition record_oms_order (id now : Z) (o : OMSOrder) (filled_at : option Z) (x : OrderTags)
    (m : OrderTable) : result (OrderTable * OrderModel) :=
  let existing := m !! internal_order_id o in
  let '(status, filled, price, at_) := merged_fill o filled_at existing in
  let! side := from_option Ok (Raise AttributeError) (o_side o) in
  let! margin := margin_impact_from_order o in
  let! quantity := numeric 4 (dec_of_num (o_quantity o)) in
  let! limit := numeric 4 (default 0 (limit_price o)) in
  let! filled := numeric 4 filled in
  let! price := numeric_opt 8 price in
  let! margin := numeric_opt 4 margin in
  let row := match existing with
             | None => new_order_row id now o x side status quantity limit filled price at_ margin
             | Some e => update_order_row o status quantity limit filled price at_ margin e
             end in
  Ok (<[internal_order_id o := row]> m, row).

(** ** Baskets *)
Record BasketModel : Type := {
  bm_id : Z;
  bm_account_id : Z;
  bm_trade_id : string;
  bm_strategy_id : string;
  bm_action : OrderAction;
  bm_state : BasketState;
  bm_intended_leg_count : Z;
  bm_recovery_status : option string;
  bm_recovery_detail : option string;
  bm_recovered_at : option Z;
  bm_updated_at : Z
}.
Abbreviation BasketTable := (gmap Z BasketModel).

Definition INCOMPLETE_STATES : list BasketState := [B_PENDING; EXECUTING; UNWINDING].
Definition basket_values (m : BasketTable) : list BasketModel := map snd (map_to_list m).
Definition is_basket (account : Z) (trade : string) (action : OrderAction) (b : BasketModel) : bool :=
  (bm_account_id b =? account)%Z && String.eqb (bm_trade_id b) trade
  && bool_decide (bm_action b = action).
Definition basket_get (account : Z) (trade : string) (action : OrderAction) (m : BasketTable)
    : option BasketModel := List.find (is_basket account trade action) (basket_values m).
Definition list_incomplete (m : BasketTable) : list BasketModel :=
  List.filter (fun b => bool_decide (bm_state b ∈ INCOMPLETE_STATES)) (basket_values m).
Definition list_critical (m : BasketTable) : list BasketModel :=
  List.filter (fun b => bool_decide (bm_state b = CRITICAL)) (basket_values m).
Definition has_critical (account : Z) (strategy : string) (m : BasketTable) : bool :=
  existsb (fun b => (bm_account_id b =? account)%Z && String.eqb (bm_strategy_id b) strategy
                    && bool_decide (bm_state b = CRITICAL)) (basket_values m).

Definition set_basket_row (now : Z) (state : BasketState) (strategy : string) (count : Z)
    (status detail : option string) (recovered : option Z) (b : BasketModel) : BasketModel := {|
  bm_id := bm_id b; bm_account_id := bm_account_id b; bm_trade_id := bm_trade_id b;
  bm_strategy_id := strategy; bm_action := bm_action b; bm_state := state;
  bm_intended_leg_count := count;
  bm_recovery_status := match status with Some s => Some s | None => bm_recovery_status b end;
  bm_recovery_detail := match detail with Some s => Some s | None => bm_recovery_detail b end;
  bm_recovered_at := match recovered with Some t => Some t | None => bm_recovered_at b end;
  bm_updated_at := now |}.
Definition basket_upsert (id now account : Z) (trade strategy : string) (action : OrderAction)
    (state : BasketState) (count : Z) (status detail : option string) (recovered : option Z)
    (m : BasketTable) : BasketTable * BasketModel :=
  let row := match basket_get account trade action m with
             | None => {| bm_id := id; bm_account_id := account; bm_trade_id := trade;
                          bm_strategy_id := strategy; bm_action := action; bm_state := state;
                          bm_intended_leg_count := count; bm_recovery_status := status;
                          bm_recovery_detail := detail; bm_recovered_at := recovered;
                          bm_updated_at := now |}
             | Some b => set_basket_row now state strategy count status detail recovered b
             end in
  (<[bm_id row := row]> m, row).
Definition update_recovery (now account : Z) (trade : string) (action : OrderAction)
    (status detail : option string) (recovered : option Z) (state : option BasketState)
    (m : BasketTable) : BasketTable * option BasketModel :=
  match basket_get account trade action m with
  | None => (m, None)
  | Some b =>
      let row := set_basket_row now (default (bm_state b) state) (bm_strategy_id b)
                   (bm_intended_leg_count b) status detail recovered b in
      (<[bm_id row := row]> m, Some row)
  end.

(** ** The sweeps *)
(** [f"{x:.0f}"] of a non-negative number. *)
Definition fmt_0f (x : Q) : string := str_Z (half_even x).
Definition escalate (now : Z) (status detail : string) (b : BasketModel) : BasketModel :=
  set_basket_row now CRITICAL (bm_strategy_id b) (bm_intended_leg_count b) (Some status)
    (Some detail) None b.

(** The fills of a basket in the order ledger. *)
Definition basket_fills (id : Z) (orders : OrderTable) : Q :=
  fold_right (fun o a => default 0 (om_fill_qty o) + a) 0
    (List.filter (fun o => bool_decide (om_basket_id o = Some id)) (map snd (map_to_list orders))).
Definition stale_executing (cutoff : Z) (b : BasketModel) : bool :=
  bool_decide (bm_state b = EXECUTING) && (bm_updated_at b <? cutoff)%Z.
Definition reapable (cutoff : Z) (orders : OrderTable) (b : BasketModel) : bool :=
  stale_executing cutoff b && (fl (basket_fills (bm_id b) orders) <=? 0).
Definition reap_stale_executing (now : Z) (older_than : Q) (orders : OrderTable) (m : BasketTable)
    : BasketTable * Z :=
  let cutoff := (now - timedelta_seconds older_than)%Z in
  ((fun b => if reapable cutoff orders b
             then escalate now "REAPED" ("Aged EXECUTING with no fills for " ++ fmt_0f older_than ++ "s") b
             else b) <$> m,
   Z.of_nat (length (List.filter (reapable cutoff orders) (basket_values m)))).

Definition order_status_value (s : OMSOrderStatus) : string :=
  match s with
  | PENDING => "PENDING" | SUBMITTED => "SUBMITTED" | PARTIALLY_FILLED => "PARTIALLY_FILLED"
  | FILLED => "FILLED" | CANCELLED => "CANCELLED" | REJECTED => "REJECTED" | ERROR => "ERROR"
  end.
Definition stale_order (cutoff : Z) (o : OrderModel) : bool :=
  match om_status o with PENDING | SUBMITTED | PARTIALLY_FILLED => true | _ => false end
  && (om_updated_at o <? cutoff)%Z && Qeq_bool (default 0 (om_fill_qty o)) 0.
Definition stale_detail (older_than : Q) (o : OrderModel) : string :=
  ("Stale order " ++ om_internal_order_id o ++ " status=" ++ order_status_value (om_status o)
   ++ " with zero fills for " ++ fmt_0f older_than ++ "s")%string.
(** One stale order: its basket is escalated unless it is still executing. *)
Definition reap_order (now : Z) (older_than : Q) (m : BasketTable) (o : OrderModel) : BasketTable :=
  match om_basket_id o with
  | None => m
  | Some id =>
      alter (fun b => if bool_decide (bm_state b = EXECUTING) then b
                      else escalate now "ORDER_REAPED" (stale_detail older_than o) b) id m
  end.
Definition reap_stale_orders (now : Z) (older_than : Q) (orders : OrderTable) (m : BasketTable)
    : BasketTable * Z :=
  let cutoff := (now - timedelta_seconds older_than)%Z in
  let l := List.filter (stale_order cutoff) (map snd (map_to_list orders)) in
  (fold_left (reap_order now older_than) l m, Z.of_nat (length l)).

(** ** Events *)
Record EventRow : Type := {
  ev_process : string; ev_kind : string; ev_detail : json; ev_signal_id : option Z;
  ev_order_id : option Z; ev_basket_id : option Z; ev_key : option string
}.
(** [append]: an event whose key is taken is dropped. *)
Definition append_event (e : EventRow) (log : list EventRow) : list EventRow * option EventRow :=
  match ev_key e with
  | Some (String _ _ as k) =>
      match List.find (fun x => bool_decide (ev_key x = Some k)) log with
      | Some x => (log, Some x)
      | None => (log ++ [e], Some e)
      end
  | _ => (log ++ [e], Some e)
  end.

Lemma record_oms_at (id now : Z) (o : OMSOrder) (filled_at : option Z) (x : OrderTags)
    (m m' : OrderTable) (row : OrderModel) :
  record_oms_order id now o filled_at x m = Ok (m', row) -> m' = <[internal_order_id o := row]> m.
Proof.
  unfold record_oms_order. destruct (merged_fill _ _ _) as [[[s f] q] w]. intros H.
  repeat (apply rbind_ok in H as (? & _ & H)). by injection H as <- <-.
Qed.

(** ** Fills are never lost *)

Definition order_row_ok (e : OrderModel) : Prop := numeric_opt 4 (om_fill_qty e) = Ok (om_fill_qty e).
Definition order_table_ok (m : OrderTable) : Prop := forall k e, m !! k = Some e -> order_row_ok e.

(** What never changes of a row, and what a terminal row keeps besides. *)
Record same_order_row (e e' : OrderModel) : Prop := {
  sor_id : om_id e' = om_id e; sor_signal : om_signal_id e' = om_signal_id e;
  sor_trade : om_trade_id e' = om_trade_id e; sor_account : om_account_id e' = om_account_id e;
  sor_strategy : om_strategy_id e' = om_strategy_id e; sor_leg : om_leg e' = om_leg e;
  sor_symbol : om_symbol e' = om_symbol e; sor_side : om_buy_sell e' = om_buy_sell e
}.
Record settled_from (e e' : OrderModel) : Prop := {
  sf_status : om_status e' = om_status e;
  sf_fill : forall q, om_fill_qty e = Some q -> exists q', om_fill_qty e' = Some q' /\ q <= q';
  sf_price : is_Some (om_fill_price e) -> is_Some (om_fill_price e')
}.
Definition order_lives_on (e e' : OrderModel) : Prop :=
  same_order_row e e' /\ (terminal_order_status (om_status e) = true -> settled_from e e').

Lemma order_lives_refl (e : OrderModel) : order_lives_on e e.
Proof. split; [done|]. intros _. constructor; [done| |done]. intros q E. exists q. split; [done|apply Qle_refl]. Qed.
Lemma order_lives_trans (e f g : OrderModel) :
  order_lives_on e f -> order_lives_on f g -> order_lives_on e g.
Proof.
  intros [[] S1] [[] S2]. split; [constructor; congruence|]. intros T.
  destruct (S1 T) as [E1 F1 P1]. destruct S2 as [E2 F2 P2]; [by rewrite E1|].
  constructor; [by etrans| |by auto]. intros q E. destruct (F1 q E) as (q1 & E' & L1).
  destruct (F2 q1 E') as (q2 & E'' & L2). exists q2. split; [done|by eapply Qle_trans].
Qed.

Record RecordOp : Type := {
  ro_id : Z; ro_now : Z; ro_order : OMSOrder; ro_filled_at : option Z; ro_tags : OrderTags
}.
Definition record_step (m : OrderTable) (op : RecordOp) : OrderTable :=
  match record_oms_order (ro_id op) (ro_now op) (ro_order op) (ro_filled_at op) (ro_tags op) m with
  | Ok (m', _) => m'
  | Raise _ => m
  end.

Lemma record_step_ok (m : OrderTable) (op : RecordOp) :
  order_table_ok m ->
  order_table_ok (record_step m op)
  /\ forall k e, m !! k = Some e -> exists e', record_step m op !! k = Some e' /\ order_lives_on e e'.
Proof.
  intros K. unfold record_step, record_oms_order.
  destruct (merged_fill _ _ _) as [[[status filled] price] at_] eqn:M.
  assert (R : forall k e, m !! k = Some e -> exists e', m !! k = Some e' /\ order_lives_on e e')
    by (intros k e E; exists e; split; [done|apply order_lives_refl]).
  destruct (o_side _) as [side|]; simpl; [|done].
  destruct (margin_impact_from_order _) as [margin|]; simpl; [|done].
  destruct (numeric 4 (dec_of_num _)) as [quantity|]; simpl; [|done].
  destruct (numeric 4 (default 0 _)) as [limit|]; simpl; [|done].
  destruct (numeric 4 filled) as [fill|] eqn:F; simpl; [|done].
  destruct (numeric_opt 8 price) as [price'|] eqn:P; simpl; [|done].
  destruct (numeric_opt 4 margin) as [margin'|]; simpl; [|done].
  set (id := internal_order_id (ro_order op)) in *.
  assert (N : numeric_opt 4 (Some fill) = Ok (Some fill))
    by (simpl; by rewrite (numeric_idemp _ _ _ F)).
  split.
  - intros k e E. apply lookup_insert_Some in E as [[_ <-]|[_ E]]; [|by eapply K].
    by destruct (m !! id).
  - intros k e E. destruct (decide (k = id)) as [->|Ne]; [|rewrite lookup_insert_ne by done; auto].
    rewrite lookup_insert_eq. eexists. split; [done|]. rewrite E in *. split; [done|]. intros T.
    unfold merged_fill in M. rewrite T in M. injection M as <- <- <- <-. constructor; simpl; [done| |].
    + intros q Eq. exists fill. split; [done|]. rewrite Eq in F. pose proof (K _ _ E) as Ke.
      unfold order_row_ok in Ke. rewrite Eq in Ke. simpl in Ke.
      apply rbind_ok in Ke as (q' & Ke & [= ->]).
      eapply numeric_mono; [|exact Ke|exact F]. destruct (_ <? q) eqn:L; bool_to_prop; lra.
    + intros [pe Pe]. rewrite Pe in P. destruct (plausible_price _) as [p|]; simpl in P;
        apply rbind_ok in P as (? & _ & [= <-]); eauto.
Qed.

(** C29: The order ledger never forgets an execution: whatever is recorded
    afterwards -- stale snapshots, replays, retries of the same order -- a row
    that reached FILLED, CANCELLED or REJECTED keeps that status, its filled
    quantity never goes down and its fill price is never lost; and no row ever
    changes its trade, account, leg, symbol or side. *)
Theorem terminal_order_final (ops : list RecordOp) (m : OrderTable) (k : string) (e : OrderModel) :
  order_table_ok m -> m !! k = Some e ->
  exists e', fold_left record_step ops m !! k = Some e' /\ order_lives_on e e'.
Proof.
  revert m e. induction ops as [|op ops IH]; intros m e K E; simpl; [exists e; split; [done|apply order_lives_refl]|].
  destruct (record_step_ok m op K) as [K' L]. destruct (L k e E) as (e1 & E1 & L1).
  destruct (IH _ e1 K' E1) as (e2 & E2 & L2). exists e2. split; [done|by eapply order_lives_trans].
Qed.

Definition ex_fill (status : OMSOrderStatus) (filled : Q) : RecordOp := {|
  ro_id := 1; ro_now := 100;
  ro_order := with_broker (new_order "o1" (ex_intent OPEN ex_pair) "SPY" (Some BUY) (NDec 10) (Some 500)
      "LMT" PENDING None (Some 0%Z) None) (Some 7%Z) status filled (NFloat (10 - filled)) None None None None
    None [] None false;
  ro_filled_at := None;
  ro_tags := {| tg_signal_pk := 1; tg_account_id := 4; tg_trade_id := "T1"; tg_strategy_id := "S";
                tg_leg_label := "SPY" |} |}.
Definition ex_filled_table : OrderTable := record_step ∅ (ex_fill FILLED 10).
Definition ex_filled_row : OrderModel :=
  default (new_order_row 0 0 (ro_order (ex_fill FILLED 10)) (ro_tags (ex_fill FILLED 10)) BUY PENDING 0 0 0
             None None None) (ex_filled_table !! "o1"%string).
(** A stale snapshot of a filled order, recorded after the fill. *)
Lemma terminal_order_final_witness :
  om_status ex_filled_row = FILLED /\ om_fill_qty ex_filled_row = Some 10 /\
  exists e', fold_left record_step [ex_fill SUBMITTED 3; ex_fill CANCELLED 0] ex_filled_table !! "o1"%string
             = Some e' /\ order_lives_on ex_filled_row e'.
Proof.
  split; [vm_compute; reflexivity|]. split; [vm_compute; reflexivity|].
  apply (terminal_order_final [ex_fill SUBMITTED 3; ex_fill CANCELLED 0] ex_filled_table "o1" ex_filled_row).
  - exact (proj1 (record_step_ok ∅ (ex_fill FILLED 10) ltac:(intros k e E; by rewrite lookup_empty in E))).
  - vm_compute. reflexivity.
Defined.
