(* ===== verification/Persistence.v ===== *)
(** * The transaction that ends an execution:
    [services/model_blue/persistence.py]

    What the broker filled becomes the position, the processed signal, the
    order rows and an event, in one transaction; what the broker filled of a
    CLOSE is compared with the position first.  The writer is the
    [Persistence] of [Strategy.v], over the tables of [Positions.v],
    [SignalInbox.v] and [OrderLedger.v]. *)

From S2P Require Import Prelude Rounding PyText Identifiers RmsModels Parser Sizer Accounts TradeBook Strategy Oms JobQueue SignalInbox Positions OrderLedger.

#[local] Open Scope Q_scope.
#[local] Open Scope py_scope.
#[local] Set Warnings "-clear-no-such-hyp".

(** ** What the orders tell *)
(** [_decimal_or_none(filled_quantity)]. *)
Definition order_filled_qty (o : OMSOrder) : Q := repr_dec (filled_quantity o).

Definition exit_marks_from_orders (orders : list OMSOrder) : gmap string Q :=
  fold_left (fun marks o =>
    if is_compensation o then marks
    else match order_price o with
         | Some price => if str_empty (o_symbol o) then marks else <[o_symbol o := price]> marks
         | None => marks
         end) orders ∅.

Definition commission_step (acc : Q * bool) (o : OMSOrder) : Q * bool :=
  let (total, found) := acc in
  match o_executions o with
  | [] => match o_commission o with
          | None => acc
          | Some c => (dadd total c, true)
          end
  | execs => let part := executions_commission_total execs in
             if 0 <? part then (dadd total part, true) else acc
  end.
Definition commission_from_orders (orders : list OMSOrder) : option Q :=
  let (total, found) := fold_left commission_step orders (0, false) in
  if found && (0 <? total) then Some total else None.

Definition filled_step (filled : gmap string Q) (o : OMSOrder) : gmap string Q :=
  if is_compensation o then filled
  else let qty := order_filled_qty o in
       if (qty <=? 0) || str_empty (o_symbol o) then filled
       else <[o_symbol o := dadd (default 0 (filled !! o_symbol o)) qty]> filled.
Definition filled_qty_by_symbol (orders : list OMSOrder) : gmap string Q :=
  fold_left filled_step orders ∅.

Definition CLOSE_QTY_EPS : Q := 1 # 10000.
Definition leg_matches (filled : gmap string Q) (leg : option string * option Q) : bool :=
  match leg with
  | (Some symbol, Some signed) =>
      str_empty symbol
      || (dabs (dsub (default 0 (filled !! symbol)) (dabs signed)) <=? CLOSE_QTY_EPS)
  | _ => true
  end.
Definition assert_close_qty_matches_open (p : PositionModel) (filled : gmap string Q) : result unit :=
  if forallb (leg_matches filled)
       [(Some (p_leg_a_symbol p), Some (p_leg_a_signed_qty p));
        (p_leg_b_symbol p, p_leg_b_signed_qty p)]
  then Ok tt else Raise (ModelBlueValidationError "CLOSE_QTY_MISMATCH").
Definition close_fills_match_open (p : PositionModel) (orders : list OMSOrder) : bool :=
  match assert_close_qty_matches_open p (filled_qty_by_symbol orders) with
  | Ok _ => true
  | Raise (ModelBlueValidationError _) => false
  | Raise _ => false
  end.

(** ** The position of the fills *)
Definition order_leg_index (o : OMSOrder) : Z := default 0%Z (o_leg_index o).
(** [sorted(by_leg)]. *)
Fixpoint insert_index (i : Z) (l : list Z) : list Z :=
  match l with
  | [] => [i]
  | j :: l' => if (i <? j)%Z then i :: l else if (i =? j)%Z then l else j :: insert_index i l'
  end.
Definition leg_indices (orders : list OMSOrder) : list Z :=
  fold_left (fun l o => insert_index (order_leg_index o) l) orders [].

Record LegFill : Type := {
  lf_qty : Q; lf_weighted : Q; lf_type : option string; lf_symbol : option string;
  lf_side : option OrderSide
}.
Definition no_fill : LegFill :=
  {| lf_qty := 0; lf_weighted := 0; lf_type := None; lf_symbol := None; lf_side := None |}.
Definition fill_type (o : OMSOrder) (before : option string) : option string :=
  match o_resolved o, o_leg_index o with
  | Some r, _ => Some (ri_sec_type r)
  | None, Some i =>
      match (if (i <? 0)%Z then None else legs (o_intent o) !! Z.to_nat i) with
      | Some l => leg_instrument_type l
      | None => before
      end
  | None, None => before
  end.
Definition add_fill (acc : LegFill) (o : OMSOrder) : result LegFill :=
  if negb (bool_decide (o_status o = FILLED)) && (filled_quantity o <=? 0) then Ok acc
  else
    let fill_qty := repr_dec (filled_quantity o) in
    if fill_qty <=? 0 then Ok acc
    else match order_price o with
         | None => Raise (ModelBlueValidationError "POSITION_REQUIRES_FILLS")
         | Some price =>
             Ok {| lf_qty := dadd (lf_qty acc) fill_qty;
                   lf_weighted := dadd (lf_weighted acc) (dmul fill_qty price);
                   lf_type := fill_type o (lf_type acc); lf_symbol := Some (o_symbol o);
                   lf_side := o_side o |}
         end.
Definition leg_of_fill (f : LegFill) : result OpenModelBlueTradeLeg :=
  match lf_symbol f, lf_side f with
  | Some symbol, Some side =>
      if lf_qty f <=? 0 then Raise (ModelBlueValidationError "POSITION_REQUIRES_FILLS")
      else if str_empty (opt_str (lf_type f))
      then Raise (ModelBlueValidationError "POSITION_REQUIRES_INSTRUMENT_TYPE")
      else Ok {| ol_symbol := symbol; ol_instrument_type := lf_type f; ol_side := side;
                 ol_quantity := lf_qty f; ol_price := ddiv (lf_weighted f) (lf_qty f) |}
  | _, _ => Raise (ModelBlueValidationError "POSITION_REQUIRES_FILLS")
  end.
Definition leg_from_orders (orders : list OMSOrder) (index : Z) : result OpenModelBlueTradeLeg :=
  let! f := fold_left (fun acc o => let! a := acc in add_fill a o)
              (List.filter (fun o => (order_leg_index o =? index)%Z) orders) (Ok no_fill) in
  leg_of_fill f.
Definition open_trade_from_fills (trade : OpenModelBlueTrade) (orders : list OMSOrder)
    : result OpenModelBlueTrade :=
  let fills := List.filter (fun o => negb (is_compensation o)) orders in
  let indices := leg_indices fills in
  if negb (Nat.eqb (length indices) 2)
  then Raise (ModelBlueValidationError "POSITION_REQUIRES_FILLS")
  else
    let! ls := mapR (leg_from_orders fills) indices in
    Ok {| ot_trade_id := ot_trade_id trade; ot_strategy_id := ot_strategy_id trade;
          ot_direction := ot_direction trade; ot_legs := ls |}.

(** ** The tables *)
Record Ledgers : Type := {
  lg_book : DatabaseBook;
  lg_signals : list SignalRecord;
  lg_orders : OrderTable;
  lg_events : list EventRow;
  lg_signal_seq : Z;
  lg_order_seq : Z
}.
Definition set_positions (m : PositionTable) (g : Ledgers) : Ledgers := {|
  lg_book := with_positions m (lg_book g); lg_signals := lg_signals g; lg_orders := lg_orders g;
  lg_events := lg_events g; lg_signal_seq := lg_signal_seq g; lg_order_seq := lg_order_seq g |}.
Definition set_signals (l : list SignalRecord) (g : Ledgers) : Ledgers := {|
  lg_book := lg_book g; lg_signals := l; lg_orders := lg_orders g;
  lg_events := lg_events g; lg_signal_seq := lg_signal_seq g + 1; lg_order_seq := lg_order_seq g |}.
Definition set_orders (m : OrderTable) (g : Ledgers) : Ledgers := {|
  lg_book := lg_book g; lg_signals := lg_signals g; lg_orders := m;
  lg_events := lg_events g; lg_signal_seq := lg_signal_seq g; lg_order_seq := lg_order_seq g + 1 |}.
Definition set_events (l : list EventRow) (g : Ledgers) : Ledgers := {|
  lg_book := lg_book g; lg_signals := lg_signals g; lg_orders := lg_orders g;
  lg_events := l; lg_signal_seq := lg_signal_seq g; lg_order_seq := lg_order_seq g |}.
Definition lg_positions (g : Ledgers) : PositionTable := bk_positions (lg_book g).
Definition lg_now (g : Ledgers) : Z := bk_now (lg_book g).

(** The database book reads and writes its table of these. *)
Definition lift_book {A : Type} (r : result (A * DatabaseBook)) (g : Ledgers) : result (A * Ledgers) :=
  let! (a, b) := r in Ok (a, set_positions (bk_positions b) g).
#[global] Instance LedgersBook : ModelBlueTradeBook Ledgers := {|
  book_get t a g := book_get t a (lg_book g);
  book_record_open t a g := let! b := book_record_open t a (lg_book g) in Ok (set_positions (bk_positions b) g);
  book_close t a g := lift_book (book_close t a (lg_book g)) g;
  book_get_row t a g := book_get_row t a (lg_book g) |}.

Section Writer.
(** [str] of a [Decimal], the time an order's last execution was received
    ([OMSOrder] leaves its time stamps out), and the writer's own account. *)
Variables (price_text : pydec -> string) (received_at : OMSOrder -> option Z) (default_account : option Z).

Definition account_id_from (orders : list OMSOrder) (account : option Z) : result Z :=
  match account with
  | Some a => Ok a
  | None =>
      match orders with
      | o :: _ => match account_id (o_intent o) with
                  | Some a => Ok a
                  | None => from_option Ok (Raise (ModelBlueValidationError "MODEL_BLUE_ACCOUNT_MISSING")) default_account
                  end
      | [] => from_option Ok (Raise (ModelBlueValidationError "MODEL_BLUE_ACCOUNT_MISSING")) default_account
      end
  end.

Definition write_signal (signal : Signal) (persist_id : string) (g : Ledgers)
    : result (Ledgers * SignalRecord) :=
  let! (l, row) := record_processed price_text (lg_signal_seq g) (lg_now g) signal persist_id
                     SIGNAL_STATUS_PROCESSED (lg_signals g) in
  Ok (set_signals l g, row).

Definition write_order (signal_pk account : Z) (trade strategy : string) (io : Z * OMSOrder)
    (g : Ledgers) : result Ledgers :=
  let (index, o) := io in
  if is_compensation o then Ok g
  else
    let! (m, _) := record_oms_order (lg_order_seq g) (lg_now g) o (received_at o)
                     {| tg_signal_pk := signal_pk; tg_account_id := account; tg_trade_id := trade;
                        tg_strategy_id := strategy; tg_leg_label := ("L" ++ str_Z index)%string |}
                     (lg_orders g) in
    Ok (set_orders m g).
Fixpoint write_orders (signal_pk account : Z) (trade strategy : string) (l : list (Z * OMSOrder))
    (g : Ledgers) : result Ledgers :=
  match l with
  | [] => Ok g
  | io :: l => let! g := write_order signal_pk account trade strategy io g in
               write_orders signal_pk account trade strategy l g
  end.

Definition position_event (kind key : string) (account : Z) (trade : string)
    (strategy : list (string * json)) (signal_pk : Z) : EventRow := {|
  ev_process := "position"; ev_kind := kind;
  ev_detail := JObj ([("account_id"%string, JInt account); ("trade_id"%string, JStr trade)] ++ strategy);
  ev_signal_id := Some signal_pk; ev_order_id := None; ev_basket_id := None;
  ev_key := Some (key ++ ":" ++ str_Z account ++ ":" ++ trade)%string |}.

(** [row.commission = comm], flushed with the next statement. *)
Definition write_commission (orders : list OMSOrder) (row : PositionModel) (m : PositionTable)
    : result PositionTable :=
  match commission_from_orders orders with
  | Some c => if 0 <? c then save (with_money (p_realised_pnl row) c (p_live_pnl row) row) m else Ok m
  | None => Ok m
  end.

Definition persist_open (signal : Signal) (trade : OpenModelBlueTrade) (orders : list OMSOrder)
    (account : option Z) (g : Ledgers) : result Ledgers :=
  let! resolved := account_id_from orders account in
  let! trade := open_trade_from_fills trade orders in
  let! (acct, allocation) :=
    require_account_allocation (ot_strategy_id trade) resolved (bk_database (lg_book g)) in
  let! (g, sig_row) := write_signal signal (ot_trade_id trade) g in
  let! (m, row) := open_trade (lg_now g) trade (ar_id acct) (exits_of allocation) (lg_positions g) in
  let! m := write_commission orders row m in
  let! g := write_orders (sr_id sig_row) (ar_id acct) (ot_trade_id trade) (ot_strategy_id trade)
              (enumerate orders) (set_positions m g) in
  Ok (set_events (fst (append_event (position_event "POSITION_OPEN" "position_open" (ar_id acct)
        (ot_trade_id trade) [("strategy_id"%string, JStr (ot_strategy_id trade))] (sr_id sig_row))
        (lg_events g))) g).

Definition persist_close (signal : Signal) (trade_id : string) (orders : list OMSOrder)
    (account : option Z) (g : Ledgers) : result (Ledgers * OpenModelBlueTrade) :=
  let! resolved := account_id_from orders account in
  let! found := get_by_trade_id trade_id (Some resolved) (lg_positions g) in
  match found with
  | None => Raise (KeyError trade_id)
  | Some row =>
      let! _ := assert_close_qty_matches_open row (filled_qty_by_symbol orders) in
      let! (m, row) := close_trade (lg_now g) trade_id (Some resolved)
                         (Some (exit_marks_from_orders orders)) (commission_from_orders orders) None
                         (lg_positions g) in
      let closed := to_open_trade row in
      let! (g, sig_row) := write_signal signal (trade_id ++ ":CLOSE") (set_positions m g) in
      let! g := write_orders (sr_id sig_row) resolved trade_id (ot_strategy_id closed)
                  (enumerate orders) g in
      Ok (set_events (fst (append_event (position_event "POSITION_CLOSE" "position_close" resolved
            trade_id [] (sr_id sig_row)) (lg_events g))) g, closed)
  end.

Definition ModelBlueExecutionPersistence : Strategy.Persistence (B := Ledgers) (list OMSOrder) := {|
  Strategy.persist_open := persist_open;
  Strategy.persist_close signal trade_id orders account g :=
    let! (g, _) := persist_close signal trade_id orders account g in Ok g |}.
End Writer.

(** ** What the transactions leave of the positions *)
Section Facts.
Variables (price_text : pydec -> string) (received_at : OMSOrder -> option Z) (default_account : option Z).
Abbreviation signal_tx := (write_signal price_text).
Abbreviation orders_tx := (write_orders received_at).
Abbreviation open_tx := (persist_open price_text received_at default_account).
Abbreviation close_tx := (persist_close price_text received_at default_account).

Lemma write_signal_keeps (signal : Signal) (id : string) (g g' : Ledgers) (row : SignalRecord) :
  signal_tx signal id g = Ok (g', row) -> lg_book g' = lg_book g /\ str_empty id = false.
Proof.
  unfold Persistence.write_signal, record_processed, SignalInbox.upsert.
  destruct (str_empty id); [done|]. intros ([l r] & _ & [= <- _])%rbind_ok. done.
Qed.
Lemma write_order_keeps (pk a : Z) (t s : string) (io : Z * OMSOrder) (g g' : Ledgers) :
  write_order received_at pk a t s io g = Ok g' -> lg_book g' = lg_book g.
Proof.
  destruct io as [i o]. simpl. destruct (is_compensation o); [by intros [= <-]|].
  by intros ([m r] & _ & [= <-])%rbind_ok.
Qed.
Lemma write_orders_keeps (pk a : Z) (t s : string) (l : list (Z * OMSOrder)) (g g' : Ledgers) :
  orders_tx pk a t s l g = Ok g' -> lg_book g' = lg_book g.
Proof.
  revert g. induction l as [|io l IH]; intros g; simpl; [by intros [= <-]|].
  intros (g1 & E & H)%rbind_ok. apply write_order_keeps in E. apply IH in H. congruence.
Qed.

(** An OPEN that was persisted: the row its fills were stored as. *)
Lemma persist_open_row (signal : Signal) (trade : OpenModelBlueTrade) (orders : list OMSOrder)
    (a : Z) (g g' : Ledgers) :
  table_ok (lg_positions g) -> open_tx signal trade orders (Some a) g = Ok g' ->
  exists fills x y exits c p,
    open_trade_from_fills trade orders = Ok fills /\ ot_legs fills = [x; y]
    /\ store (with_money 0 c 0 (new_position (lg_now g) a fills x y exits)) = Ok p
    /\ lg_positions g' = <[(a, ot_trade_id trade) := p]> (lg_positions g)
    /\ table_ok (lg_positions g') /\ str_empty (ot_trade_id trade) = false
    /\ bk_account (lg_book g') = bk_account (lg_book g).
Proof.
  intros T H. unfold Persistence.persist_open in H. simpl in H.
  apply rbind_ok in H as (fills & F & H). apply rbind_ok in H as ([acct al] & R & H).
  apply require_ok in R as [<- _]. apply rbind_ok in H as ([g1 row] & W & H).
  assert (Id : ot_trade_id fills = ot_trade_id trade).
  { unfold open_trade_from_fills in F. destruct (negb _); [done|].
    by apply rbind_ok in F as (ls & _ & [= <-]). }
  apply write_signal_keeps in W as [W N]. rewrite Id in N.
  apply rbind_ok in H as ([m q] & O & H). unfold lg_now, lg_positions in O. rewrite W in O.
  apply open_trade_ok in O as (x & y & L & -> & _ & Sv); [|by apply T].
  apply rbind_ok in H as (m' & C & H). apply rbind_ok in H as (g2 & Wo & [= <-]).
  apply write_orders_keeps in Wo. simpl in Wo. rewrite W in Wo.
  assert (Pos : bk_positions (lg_book g2) = m') by (by rewrite Wo).
  pose proof (save_table_ok _ _ _ T Sv) as Tm.
  pose proof (save_ok _ _ _ Sv) as (p0 & Sp & Em).
  assert (exists c p, store (with_money 0 c 0 (new_position (lg_now g) (ar_id acct) fills x y (exits_of al)))
    = Ok p /\ m' = <[(ar_id acct, ot_trade_id trade) := p]> (lg_positions g) /\ table_ok m')
    as (c & p & Sc & Mc & Tc).
  { unfold write_commission in C. unfold lg_now.
    assert (K : row_key (new_position (bk_now (lg_book g)) (ar_id acct) fills x y (exits_of al))
      = (ar_id acct, ot_trade_id trade)) by (unfold row_key; simpl; by rewrite Id).
    destruct (commission_from_orders orders) as [c|]; [destruct (0 <? c)|].
    2,3: injection C as <-; exists 0, p0; split; [exact Sp|]; split; [by rewrite Em, K|done].
    pose proof (save_table_ok _ _ _ Tm C). apply save_ok in C as (p & Sc & Mc). exists c, p.
    split; [exact Sc|]. split; [|done]. rewrite Mc, Em. unfold row_key at 1. simpl. rewrite K, Id.
    apply insert_insert_eq. }
  exists fills, x, y, (exits_of al), c, p. unfold lg_positions at 1 2. simpl. rewrite Pos. split_and!; try done.
  - unfold lg_positions. simpl. by rewrite Pos.
  - by rewrite Wo.
Qed.

(** ** From the fills of an OPEN to its CLOSE *)
(** What the broker filled of a leg, by the orders that were not compensations. *)
Definition leg_orders (orders : list OMSOrder) (index : Z) : list OMSOrder :=
  List.filter (fun o => (order_leg_index o =? index)%Z)
    (List.filter (fun o => negb (is_compensation o)) orders).
Definition filled_of (orders : list OMSOrder) : Q :=
  fold_left dadd (List.filter (Qltb 0) (map order_filled_qty orders)) 0.
Record holds_fills (orders : list OMSOrder) (index : Z) (l : OpenModelBlueTradeLeg) : Prop := {
  hf_quantity : ol_quantity l = filled_of (leg_orders orders index);
  hf_order : exists o, o ∈ leg_orders orders index /\ o_side o = Some (ol_side l)
                       /\ o_symbol o = ol_symbol l
}.

Lemma add_fill_ok (acc f : LegFill) (o : OMSOrder) :
  add_fill acc o = Ok f ->
  (f = acc /\ order_filled_qty o <= 0)
  \/ (lf_qty f = dadd (lf_qty acc) (order_filled_qty o) /\ 0 < order_filled_qty o
      /\ lf_symbol f = Some (o_symbol o) /\ lf_side f = o_side o).
Proof.
  unfold add_fill, order_filled_qty. destruct (negb _ && _) eqn:E.
  - intros [= <-]. left. split; [done|]. bool_to_prop. by apply repr_nonpos.
  - destruct (Qleb_spec (repr_dec (filled_quantity o)) 0); [intros [= <-]; by left|].
    destruct (order_price o); [|done]. intros [= <-]. right. split_and!; try done. lra.
Qed.
Lemma add_fills_ok (l : list OMSOrder) (acc f : LegFill) :
  fold_left (fun a o => let! a := a in add_fill a o) l (Ok acc) = Ok f ->
  lf_qty f = fold_left dadd (List.filter (Qltb 0) (map order_filled_qty l)) (lf_qty acc)
  /\ ((lf_symbol f = lf_symbol acc /\ lf_side f = lf_side acc)
      \/ exists o, o ∈ l /\ lf_symbol f = Some (o_symbol o) /\ lf_side f = o_side o).
Proof.
  revert acc. induction l as [|o l IH]; intros acc; simpl.
  { intros [= <-]. split; [done|by left]. }
  destruct (add_fill acc o) as [a|e] eqn:A.
  2: { intros H. exfalso. clear - H. induction l; simpl in H; [done|auto]. }
  intros H. apply IH in H as [Q S]. apply add_fill_ok in A as [[-> N]|(Qa & P & Sy & Si)].
  - destruct (Qltb_spec 0 (order_filled_qty o)); [lra|]. split; [done|].
    destruct S as [S|(o' & L & S)]; [by left|right]. exists o'. split; [by right|done].
  - destruct (Qltb_spec 0 (order_filled_qty o)); [|lra]. split; [simpl; by rewrite Q, Qa|]. right.
    destruct S as [[S1 S2]|(o' & L & S)]; [exists o; split; [by left|by rewrite S1, S2]|].
    exists o'. split; [by right|done].
Qed.
Lemma fills_held (trade fills : OpenModelBlueTrade) (orders : list OMSOrder) :
  open_trade_from_fills trade orders = Ok fills ->
  Forall2 (holds_fills orders) (leg_indices (List.filter (fun o => negb (is_compensation o)) orders))
    (ot_legs fills).
Proof.
  unfold open_trade_from_fills. destruct (negb _); [done|].
  intros (ls & M & [= <-])%rbind_ok. simpl. apply mapR_ok in M. eapply Forall2_impl; [exact M|].
  intros i l (f & F & L)%rbind_ok. fold (leg_orders orders i) in F. apply add_fills_ok in F as [Q S].
  unfold leg_of_fill in L. destruct (lf_symbol f) as [sym|] eqn:Sy; [|done].
  destruct (lf_side f) as [side|] eqn:Si; [|done]. destruct (_ <=? 0); [done|].
  destruct (str_empty _); [done|]. injection L as <-. constructor; simpl; [exact Q|].
  destruct S as [[? _]|(o & L & E1 & E2)]; [done|]. exists o. split; [done|].
  split; [congruence|]. congruence.
Qed.

(** A CLOSE leg that reverses what a leg of an OPEN filled; the quantity is the
    filled one at four decimals. *)
Record reverses (l : OpenModelBlueTradeLeg) (c : OrderLeg) : Prop := {
  rv_symbol : leg_symbol c = normalize_symbol (JStr (ol_symbol l));
  rv_type : leg_instrument_type c = Some (str_or (opt_str (ol_instrument_type l)) "STK");
  rv_side : leg_side c = opposite (ol_side l);
  rv_quantity : exists q, numeric 4 (ol_quantity l) = Ok q /\ leg_quantity c = NFloat (fl q)
}.
(** A closing order the broker filled as asked. *)
Record answers (c : OrderLeg) (o : OMSOrder) : Prop := {
  an_close : is_compensation o = false;
  an_symbol : o_symbol o = leg_symbol c;
  an_filled : filled_quantity o = num_val (leg_quantity c)
}.

Lemma kept_reverses (i : Z) (l k : OpenModelBlueTradeLeg) : kept l k -> reverses l (close_leg (i, k)).
Proof.
  intros [S T D (q & N & E) P]. constructor; simpl; [done|done|by rewrite D|].
  exists q. split; [done|]. f_equal. apply (rnd_eq 2 two_ge_2 53 _ _ E).
Qed.
Lemma kept_all_reverse (i : Z) (ls ks : list OpenModelBlueTradeLeg) :
  Forall2 kept ls ks -> Forall2 reverses ls (map close_leg (enumerate_from i ks)).
Proof.
  intros F. revert i. induction F as [|l k ls ks K F IH]; intros i; simpl; [constructor|].
  apply Forall2_cons. split; [by apply kept_reverses|apply IH].
Qed.

Lemma close_enough (q signed : Q) :
  0 <= q -> q <= inject_Z (10 ^ 10) -> dabs signed == q ->
  (dabs (dsub (dadd 0 (repr_dec (fl q))) (dabs signed)) <=? CLOSE_QTY_EPS) = true.
Proof.
  intros P L E. pose proof (repr_fl_err q P) as [A B]. set (r := repr_dec (fl q)) in *.
  assert (R : 0 <= r) by (unfold flt_u in A; change (inject_Z (10 ^ 10)) with (10000000000 # 1) in L; lra).
  pose proof (ctx_err (0 + r) ltac:(lra)) as [C D].
  change (ctx (0 + r)) with (dadd 0 r) in *. change (inject_Z (10 ^ 10)) with (10000000000 # 1) in L.
  assert (K : dec_repr CLOSE_QTY_EPS) by (exists 1%Z, (-4)%Z; split; [lia|reflexivity]).
  apply Qle_bool_iff. unfold dabs at 1. apply (rounds_le (f := ctx)); [done|].
  apply Qabs_Qle_condition. unfold dec_u, flt_u in *. split.
  - assert (K' : dec_repr (- CLOSE_QTY_EPS)) by (exists (-1)%Z, (-4)%Z; split; [lia|reflexivity]).
    apply (rounds_ge (f := ctx)); [done|]. unfold CLOSE_QTY_EPS. rewrite E. lra.
  - apply (rounds_le (f := ctx)); [done|]. unfold CLOSE_QTY_EPS. rewrite E. lra.
Qed.
Lemma signed_abs (side : OrderSide) (quantity q signed : Q) :
  numeric 4 quantity = Ok q -> numeric 4 (signed_qty side quantity) = Ok signed -> 0 <= q ->
  dabs signed == q.
Proof.
  intros N S P. pose proof (numeric_repr _ _ _ N) as R.
  assert (E : Qabs signed == q).
  { destruct side; simpl in S.
    - rewrite N in S. injection S as <-. by apply Qabs_pos.
    - destruct (numeric_opp _ _ _ N) as (y & Y & Ey).
      assert (signed = y) as -> by (cut (numeric 4 (- quantity) = Ok signed); [congruence|];
        rewrite <- S; apply numeric_proper; reflexivity).
      rewrite Ey, Qabs_opp. by apply Qabs_pos. }
  unfold dabs. rewrite (rnd_eq 10 ten_ge_2 28 _ _ E : ctx _ = ctx _). by apply (rounds_exact (f := ctx)).
Qed.

(** Two closing orders of different symbols, filled as asked. *)
Lemma answered_filled (ca cb : OrderLeg) (oa ob : OMSOrder) :
  answers ca oa -> answers cb ob -> leg_symbol ca <> leg_symbol cb ->
  str_empty (leg_symbol ca) = false -> str_empty (leg_symbol cb) = false ->
  0 < repr_dec (num_val (leg_quantity ca)) -> 0 < repr_dec (num_val (leg_quantity cb)) ->
  filled_qty_by_symbol [oa; ob] !! leg_symbol ca = Some (dadd 0 (repr_dec (num_val (leg_quantity ca))))
  /\ filled_qty_by_symbol [oa; ob] !! leg_symbol cb = Some (dadd 0 (repr_dec (num_val (leg_quantity cb)))).
Proof.
  intros [A1 A2 A3] [B1 B2 B3] D Sa Sb Pa Pb. unfold filled_qty_by_symbol. simpl.
  unfold filled_step, order_filled_qty. rewrite A1, B1, A2, B2, A3, B3, Sa, Sb.
  destruct (Qleb_spec (repr_dec (num_val (leg_quantity ca))) 0); [lra|].
  destruct (Qleb_spec (repr_dec (num_val (leg_quantity cb))) 0); [lra|]. simpl.
  rewrite lookup_empty, (lookup_insert_ne ∅ _ _ _ D), lookup_empty. simpl.
  split; [by rewrite lookup_insert_ne, lookup_insert_eq|by rewrite lookup_insert_eq].
Qed.

(** A row opened from fills: its legs and what its CLOSE asks for. *)
Lemma opened_closable (now a : Z) (fills : OpenModelBlueTrade) (x y : OpenModelBlueTradeLeg)
    (exits : ExitSettings) (c : Q) (p : PositionModel) (closing : list OMSOrder) :
  ot_legs fills = [x; y] -> keepable x -> keepable y ->
  store (with_money 0 c 0 (new_position now a fills x y exits)) = Ok p ->
  normalize_symbol (JStr (ol_symbol x)) <> normalize_symbol (JStr (ol_symbol y)) ->
  Forall (fun l => forall q, numeric 4 (ol_quantity l) = Ok q -> q <= inject_Z (10 ^ 10)) [x; y] ->
  Forall2 answers (map close_leg (enumerate (ot_legs (to_open_trade p)))) closing ->
  assert_close_qty_matches_open p (filled_qty_by_symbol closing) = Ok tt.
Proof.
  intros L Kx Ky S D B A. destruct (opened_kept _ _ _ x y _ _ _ _ p L Kx Ky S) as (_ & _ & F).
  rewrite L in F. apply (kept_all_reverse 0) in F. fold (enumerate (ot_legs (to_open_trade p))) in F.
  apply store_ok in S as ([Qa _ Qb _ _ _ _ _ _] & [_ _ _ Ta Tb _ _ _ _] & _).
  simpl in Qa, Qb, Ta, Tb. apply rbind_ok in Qb as (sb & Qb & [= Esb]).
  destruct (map close_leg _) as [|ca [|cb [|]]]; try (by apply Forall2_length in F).
  apply Forall2_cons in F as [[Sa _ _ (qa & Na & Ea)] F]. apply Forall2_cons in F as [[Sb _ _ (qb & Nb & Eb)] _].
  apply Forall2_cons_inv_l in A as (oa & ? & Aa & A & ->).
  apply Forall2_cons_inv_l in A as (ob & ? & Ab & A & ->). apply Forall2_nil_inv_l in A as ->.
  apply Forall_cons in B as [Ba B]. apply Forall_cons in B as [Bb _]. specialize (Ba _ Na). specialize (Bb _ Nb).
  destruct Kx as [Nx Px], Ky as [Ny Py]. pose proof (Px _ Na) as Pa. pose proof (Py _ Nb) as Pb.
  assert (forall q : Q, 0 < q -> 0 < repr_dec (fl q)) as Pos.
  { intros q P. pose proof (repr_fl_err q (Qlt_le_weak _ _ P)) as [H _]. unfold flt_u in H. lra. }
  destruct (answered_filled ca cb oa ob Aa Ab) as [La Lb]; rewrite ?Sa, ?Sb, ?Ea, ?Eb; simpl; auto.
  rewrite Sa, Ea in La. rewrite Sb, Eb in Lb. simpl in La, Lb.
  unfold assert_close_qty_matches_open. cbn [forallb leg_matches]. rewrite Ta, Tb, <- Esb. cbn [leg_matches].
  rewrite La, Lb. cbn [default from_option id].
  rewrite !close_enough; [by rewrite !orb_true_r|lra|done|by eapply signed_abs; eauto; lra
    |lra|done|by eapply signed_abs; eauto; lra].
Qed.

(** C25: A pair is closed by what it was opened with: once an OPEN is persisted
    from the orders of the broker, the legs are the sums of what each leg's orders
    filled, compensations apart, the row is open with them, every CLOSE signal
    of the trade builds an intent that reverses these fills -- not what had been
    asked for -- at four decimals, and when the broker fills that intent the
    closing transaction accepts its quantities. *)
Theorem filled_pair_closes (h : ModelBlueStrategy (B := Ledgers) (list OMSOrder)) (s_open s_close : Signal)
    (account : AccountExecutionContext) (intent : OrderIntent) (orders : list OMSOrder) (g g' : Ledgers) :
  persistence _ h = Some (ModelBlueExecutionPersistence price_text received_at default_account) ->
  table_ok (lg_positions g) ->
  action intent = OPEN -> account_id intent = Some (ax_account_id account) ->
  after_submit _ h s_open intent orders g = Ok g' ->
  str_upper (sig_action s_close) = "CLOSE"%string ->
  signal_trade_id s_close = signal_trade_id s_open ->
  exists fills p close,
    open_trade_from_fills (trade_of s_open intent) orders = Ok fills
    /\ Forall2 (holds_fills orders)
         (leg_indices (List.filter (fun o => negb (is_compensation o)) orders)) (ot_legs fills)
    /\ lg_positions g' !! (ax_account_id account, signal_trade_id s_open) = Some p
    /\ p_risk_state p = RISK_STATE_OPEN
    /\ build_intent _ h s_close (Some account) g' = Ok close
    /\ (Forall keepable (ot_legs fills) ->
        Forall2 reverses (ot_legs fills) (legs close)
        /\ forall closing,
             NoDup (map leg_symbol (legs close)) ->
             Forall (fun l => forall q, numeric 4 (ol_quantity l) = Ok q -> q <= inject_Z (10 ^ 10))
               (ot_legs fills) ->
             Forall2 answers (legs close) closing ->
             assert_close_qty_matches_open p (filled_qty_by_symbol closing) = Ok tt).
Proof.
  intros Hp T Ho Ha Hs Hc Hid. unfold after_submit in Hs. rewrite Ho, Hp, Ha in Hs. simpl in Hs.
  destruct (persist_open_row _ _ _ _ _ _ T Hs) as (fills & x & y & exits & c & p & F & L & S & Pos & [K _] & N & _).
  assert (E : lg_positions g' !! (ax_account_id account, signal_trade_id s_open) = Some p)
    by (rewrite Pos; apply lookup_insert_eq).
  pose proof (store_ok _ _ S) as (_ & _ & St & _). simpl in St.
  exists fills, p. eexists. split; [exact F|]. split; [exact (fills_held _ _ _ F)|]. split; [exact E|]. split; [exact St|]. split.
  - unfold build_intent. rewrite Hc. cbn [String.eqb Ascii.eqb Bool.eqb]. unfold build_close_intent.
    simpl in N. rewrite Hid, N. unfold book_get. simpl. unfold db_get. simpl. unfold get_open_trade.
    change (bk_positions (lg_book g')) with (lg_positions g'). rewrite (get_open_at _ K), E. simpl.
    unfold in_state. rewrite St. simpl. reflexivity.
  - cbn [legs]. rewrite L. intros Kp. apply Forall_cons in Kp as [Kx Kp]. apply Forall_cons in Kp as [Ky _].
    destruct (opened_kept _ _ _ x y _ _ _ _ p L Kx Ky S) as (_ & _ & Kept). rewrite L in Kept.
    split; [by apply (kept_all_reverse 0)|]. intros closing D B A.
    eapply opened_closable; eauto. pose proof (kept_all_reverse 0 _ _ Kept) as R.
    fold (enumerate (ot_legs (to_open_trade p))) in R.
    destruct (map close_leg _) as [|ca [|cb [|]]]; try (by apply Forall2_length in R).
    apply Forall2_cons in R as [[Sa _ _ _] R]. apply Forall2_cons in R as [[Sb _ _ _] _].
    simpl in D. rewrite Sa, Sb in D. apply NoDup_cons in D as [D _]. intros Eq. apply D. rewrite Eq. by left.
Qed.

(** ** The closing transaction *)
Lemma write_signal_processed (signal : Signal) (id : string) (g g' : Ledgers) (row : SignalRecord) :
  signal_tx signal id g = Ok (g', row) ->
  signal_is_processed (opt_str (sig_strategy_id signal)) id (lg_signals g') = true
  /\ lg_orders g' = lg_orders g.
Proof.
  intros H. pose proof (write_signal_keeps _ _ _ _ _ H) as [_ N]. unfold Persistence.write_signal in H.
  apply rbind_ok in H as ([l r] & E & [= <- <-]). split; [|done]. simpl.
  unfold record_processed in E.
  destruct (upsert_ok price_text (lg_signal_seq g) (lg_now g) signal id SIGNAL_STATUS_PROCESSED None
              (lg_signals g) N) as [r' E']. rewrite E in E'. injection E' as -> _.
  unfold signal_is_processed. rewrite get_upsert.
  assert (same_signal (opt_str (sig_strategy_id signal)) id (audit_values price_text (lg_signal_seq g)
    (lg_now g) signal id SIGNAL_STATUS_PROCESSED None) = true) as -> by (by apply same_signal_spec).
  destruct (get_by_strategy_signal _ _ _); [|done]. rewrite merge_processed. by apply orb_true_r.
Qed.

Lemma write_orders_records (pk a : Z) (t s : string) (l : list (Z * OMSOrder)) (g g' : Ledgers) :
  orders_tx pk a t s l g = Ok g' ->
  lg_signals g' = lg_signals g
  /\ (forall k, is_Some (lg_orders g !! k) -> is_Some (lg_orders g' !! k))
  /\ forall io, io ∈ l -> is_compensation io.2 = false -> is_Some (lg_orders g' !! internal_order_id io.2).
Proof.
  revert g. induction l as [|io l IH]; intros g; simpl.
  { intros [= <-]. split_and!; try done. intros io H. by apply not_elem_of_nil in H. }
  intros (g1 & E & H)%rbind_ok. apply IH in H as (S & O & R).
  assert (lg_signals g1 = lg_signals g /\ (forall k, is_Some (lg_orders g !! k) -> is_Some (lg_orders g1 !! k))
    /\ (is_compensation io.2 = false -> is_Some (lg_orders g1 !! internal_order_id io.2))) as (S1 & O1 & R1).
  { destruct io as [i o]. simpl in *. destruct (is_compensation o); [by injection E as <-|].
    apply rbind_ok in E as ([m r] & E & [= <-]). apply record_oms_at in E as ->. simpl.
    split_and!; [done| |by rewrite lookup_insert_eq; eauto]. intros k K.
    destruct (decide (k = internal_order_id o)) as [->|N]; [by rewrite lookup_insert_eq; eauto|].
    by rewrite lookup_insert_ne. }
  split_and!; [congruence|by auto|]. intros io' [->|L]%elem_of_cons C; [by auto|by apply R].
Qed.

Lemma closed_row_key (now : Z) (marks : gmap string Q) (c : option Q) (r : option string)
    (p : PositionModel) : row_key (closed_row now marks c r p) = row_key p.
Proof. unfold closed_row. destruct c as [c|]; [by destruct (0 <? c)|done]. Qed.
Lemma closed_row_state (now : Z) (marks : gmap string Q) (c : option Q) (r : option string)
    (p : PositionModel) : p_risk_state (closed_row now marks c r p) = RISK_STATE_CLOSED.
Proof. done. Qed.

(** What a closing transaction that commits has done, and when it cannot
    commit: it commits only if the fills of the closing orders match the open
    quantities of both legs; then the row is closed with the profit between
    entry marks and exit marks less the commissions -- or was closed already and
    stays as it was --, no other position changes, the CLOSE signal is processed
    and every order that is not a compensation is in the ledger. *)
Theorem persist_close_settles (signal : Signal) (trade_id : string) (orders : list OMSOrder) (a : Z)
    (g g' : Ledgers) (closed : OpenModelBlueTrade) :
  table_ok (lg_positions g) ->
  close_tx signal trade_id orders (Some a) g = Ok (g', closed) ->
  exists p p',
    lg_positions g !! (a, trade_id) = Some p
    /\ close_fills_match_open p orders = true
    /\ lg_positions g' = <[(a, trade_id) := p']> (lg_positions g)
    /\ p_risk_state p' = RISK_STATE_CLOSED
    /\ (if in_state RISK_STATE_CLOSED p then p' = p
        else marks_cover (Some (exit_marks_from_orders orders)) p = true
             /\ store (closed_row (lg_now g) (exit_marks_from_orders orders)
                         (commission_from_orders orders) None p) = Ok p')
    /\ signal_is_processed (opt_str (sig_strategy_id signal)) (trade_id ++ ":CLOSE") (lg_signals g') = true
    /\ forall o, o ∈ orders -> is_compensation o = false -> is_Some (lg_orders g' !! internal_order_id o).
Proof.
  intros [K St] H. unfold Persistence.persist_close in H. simpl in H. rewrite (get_row_at _ K) in H.
  simpl in H. destruct (lg_positions g !! (a, trade_id)) as [p|] eqn:E; [|done].
  apply rbind_ok in H as ([] & M & H). rewrite (close_trade_at _ _ _ _ _ _ _ K), E in H.
  apply rbind_ok in H as ([m row] & C & H). apply rbind_ok in H as ([g1 sig] & W & H).
  apply rbind_ok in H as (g2 & O & [= <- <-]). pose proof (write_signal_keeps _ _ _ _ _ W) as [B _].
  apply write_signal_processed in W as [W _]. pose proof (write_orders_keeps _ _ _ _ _ _ _ O) as B2.
  apply write_orders_records in O as (S2 & _ & R).
  assert (P : lg_positions g2 = m) by (unfold lg_positions; by rewrite B2, B).
  assert (exists p', m = <[(a, trade_id) := p']> (lg_positions g) /\ p_risk_state p' = RISK_STATE_CLOSED
    /\ (if in_state RISK_STATE_CLOSED p then p' = p
        else marks_cover (Some (exit_marks_from_orders orders)) p = true
             /\ store (closed_row (lg_now g) (exit_marks_from_orders orders)
                         (commission_from_orders orders) None p) = Ok p')) as (p' & Pm & Pc & Ps).
  { destruct (in_state RISK_STATE_CLOSED p) eqn:I.
    - injection C as <- <-. exists p. split; [by rewrite insert_id|]. split; [|done].
      unfold in_state in I. by bool_to_prop.
    - destruct (marks_cover _ p); [|done]. apply rbind_ok in C as (m' & C & [= <- <-]).
      apply save_ok in C as (p' & Sp & ->). exists p'. pose proof (store_ok _ _ Sp) as (_ & _ & R' & _).
      split; [|split; [by rewrite R'; apply closed_row_state|done]]. f_equal. rewrite closed_row_key.
      apply (K _ _ E). }
  exists p, p'. split_and!; try done.
  - unfold close_fills_match_open. by rewrite M.
  - unfold lg_positions. simpl. fold (lg_positions g2). by rewrite P.
  - simpl. by rewrite S2.
  - simpl. intros o (i & L)%elem_enumerate C'. by apply (R (i, o)).
Qed.
End Facts.

(** ** A pair filled with a retry, and its close *)
Definition ex_fill (id symbol : string) (side : OrderSide) (index : Z) (qty price commission : Q)
    (intent : OrderIntent) : OMSOrder :=
  with_broker (new_order id intent symbol (Some side) (NFloat qty) (Some price) "LMT" PENDING None
      (Some index) None) (Some 1%Z) FILLED qty (NFloat 0) (Some price) None None (Some commission)
    None [] None false.
Definition ex_open_orders : list OMSOrder :=
  [ex_fill "o1" "SPY" BUY 0 4 500 1 ex_open_intent; ex_fill "o2" "QQQ" SELL 1 12 400 1 ex_open_intent;
   ex_fill "o3" "SPY" BUY 0 6 502 1 ex_open_intent].
Definition ex_ledgers : Ledgers := {|
  lg_book := ex_empty_book; lg_signals := []; lg_orders := ∅; lg_events := [];
  lg_signal_seq := 1; lg_order_seq := 1 |}.
Definition ex_text (d : pydec) : string := "1".
Definition ex_writer : ModelBlueStrategy (B := Ledgers) (list OMSOrder) :=
  new_strategy _ None None (Some (ModelBlueExecutionPersistence ex_text (fun _ => None) None))
    (settings _ ex_strategy).
Definition ex_after_open : Ledgers :=
  match after_submit _ ex_writer ex_open ex_open_intent ex_open_orders ex_ledgers with
  | Ok g => g | Raise _ => ex_ledgers
  end.
Definition ex_close_orders : list OMSOrder :=
  [ex_fill "c1" "SPY" SELL 0 10 510 1 ex_open_intent; ex_fill "c2" "QQQ" BUY 1 12 390 1 ex_open_intent].

Lemma filled_pair_closes_witness :
  exists p close,
    lg_positions ex_after_open !! (7%Z, "T1"%string) = Some p
    /\ build_intent _ ex_writer ex_close (Some ex_account) ex_after_open = Ok close
    /\ map leg_side (legs close) = [SELL; BUY]
    /\ assert_close_qty_matches_open p (filled_qty_by_symbol ex_close_orders) = Ok tt.
Proof.
  destruct (filled_pair_closes ex_text (fun _ => None) None ex_writer ex_open ex_close ex_account
    ex_open_intent ex_open_orders ex_ledgers ex_after_open) as (fills & p & close & F & _ & P & _ & B & K);
    [done|apply empty_table_ok|done|done|by vm_compute|by vm_compute|by vm_compute|].
  exists p, close. vm_compute in F. injection F as <-. destruct K as [R A].
  { apply Forall_cons; split; [|apply Forall_cons; split; [|constructor]];
      (split; [by vm_compute|intros q; vm_compute; by intros [= <-]]). }
  assert (E : map leg_symbol (legs close) = ["SPY"; "QQQ"]%string
    /\ map (fun c => num_val (leg_quantity c)) (legs close) = [10; 12]
    /\ map leg_side (legs close) = [SELL; BUY]).
  { vm_compute in B. injection B as <-. split_and!; reflexivity. }
  split_and!; [exact P|exact B|apply E|]. apply A; [rewrite (proj1 E); vm_compute|..].
  - apply NoDup_cons. split; [|apply NoDup_singleton]. by intros ?%list_elem_of_singleton.
  - apply Forall_cons; split; [|apply Forall_cons; split; [|constructor]];
      (intros q; vm_compute; by intros [= <-]).
  - vm_compute in B. injection B as <-. repeat (apply Forall2_cons; split; [by constructor|]). constructor.
Defined.

Definition ex_closed : Ledgers * OpenModelBlueTrade :=
  match persist_close ex_text (fun _ => None) None ex_close "T1" ex_close_orders (Some 7%Z) ex_after_open with
  | Ok r => r | Raise _ => (ex_ledgers, ex_pair_trade)
  end.
Lemma persist_close_settles_witness :
  exists p', lg_positions (fst ex_closed) !! (7%Z, "T1"%string) = Some p'
    /\ p_risk_state p' = RISK_STATE_CLOSED
    /\ signal_is_processed "model_blue" "T1:CLOSE" (lg_signals (fst ex_closed)) = true.
Proof.
  destruct (persist_close_settles ex_text (fun _ => None) None ex_close "T1" ex_close_orders 7
    ex_after_open (fst ex_closed) (snd ex_closed)) as (p & p' & _ & _ & P & C & _ & S & _).
  - destruct (persist_open_row ex_text (fun _ => None) None ex_open (trade_of ex_open ex_open_intent)
      ex_open_orders 7 ex_ledgers ex_after_open empty_table_ok) as (? & ? & ? & ? & ? & ? & _ & _ & _ & _ & T & _);
      [by vm_compute|exact T].
  - by vm_compute.
  - exists p'. rewrite P. split_and!; [apply lookup_insert_eq|exact C|exact S].
Defined.

(** A CLOSE whose leg took two orders: the exit mark is the price of the last
    one, although 4 of the 10 were sold at 500. *)
Example retry_exit_mark :
  exit_marks_from_orders [ex_fill "c1" "SPY" SELL 0 4 500 1 ex_open_intent;
                          ex_fill "c2" "SPY" SELL 0 6 510 1 ex_open_intent] !! "SPY"%string = Some 510
  /\ filled_qty_by_symbol [ex_fill "c1" "SPY" SELL 0 4 500 1 ex_open_intent;
                           ex_fill "c2" "SPY" SELL 0 6 510 1 ex_open_intent] !! "SPY"%string = Some 10.
Proof. by vm_compute. Qed.
