(* ===== verification/RejectReasons.v ===== *)
(** * Reject reasons of several accounts in one text:
    [services/account_reject_reason.py]

    The jobs of several accounts share the [reject_reason] of their signal:
    each tags its text with its account, reads what is there and writes the
    merge back.  The regular expression of the file is written out as the
    deterministic scan it is: the label ends at the first colon, the reason
    before the next header. *)

From Stdlib Require Import Sorting.
From S2P Require Import Prelude PyText Identifiers.

#[local] Open Scope string_scope.
#[local] Arguments String.append !s1 s2 : simpl nomatch.
#[local] Set Warnings "-clear-no-such-hyp".

Definition GENERIC_REJECT_FALLBACK : string := "Execution rejected by RMS/OMS policy".
Definition BASKET_STATE_NAMES : list string :=
  ["PENDING"; "EXECUTING"; "OPEN"; "CLOSED"; "UNWINDING"; "COMPENSATED"; "CRITICAL"; "RECOVERED"].

(** ** The scan *)
Definition found {A : Type} (o : option A) : bool := match o with Some _ => true | None => false end.
(** What follows [word], whatever the case. *)
Fixpoint after_word (word s : string) : option string :=
  match word, s with
  | EmptyString, _ => Some s
  | String w word, String c s => if Ascii.eqb (upper_char c) w then after_word word s else None
  | String _ _, EmptyString => None
  end.
(** The rest of a label and what follows its colon. *)
Fixpoint take_label (s : string) : option (string * string) :=
  match s with
  | EmptyString => None
  | String c s =>
      if Ascii.eqb c ":"%char then Some (EmptyString, s)
      else if is_space c then None
      else match take_label s with Some (w, rest) => Some (String c w, rest) | None => None end
  end.
(** [Account\s+(\S+?):] at the start of [s]: the label and the rest. *)
Definition header (s : string) : option (string * string) :=
  match after_word "ACCOUNT" s with
  | Some (String b r) =>
      if is_space b then
        match lstrip r with
        | EmptyString => None
        | String c r => match take_label r with Some (w, rest) => Some (String c w, rest) | None => None end
        end
      else None
  | _ => None
  end.
(** A header at the start of [s], a semicolon and white space before it or not. *)
Definition boundary (s : string) : bool :=
  match s with
  | String ";"%char r => found (header (lstrip r)) || found (header s)
  | _ => found (header s)
  end.
(** The reason, up to the next header or the end. *)
Fixpoint cut (s : string) : string * string :=
  if boundary s then (EmptyString, s)
  else match s with
       | EmptyString => (EmptyString, EmptyString)
       | String c s' => let (a, r) := cut s' in (String c a, r)
       end.
(** [finditer]; [fuel] is the length of the text. *)
Fixpoint matches (fuel : nat) (s : string) : list (string * string) :=
  match fuel, s with
  | S n, String _ s' =>
      match header s with
      | Some (label, rest) =>
          let (reason, rest) := cut (lstrip rest) in (label, reason) :: matches n rest
      | None => matches n s'
      end
  | _, _ => []
  end.

Abbreviation Segments := (gmap string string).
(** [rstrip] of the characters space and semicolon. *)
Fixpoint rstrip_semi (s : string) : string :=
  match s with
  | EmptyString => EmptyString
  | String c s =>
      match rstrip_semi s with
      | EmptyString => if Ascii.eqb c " "%char || Ascii.eqb c ";"%char then EmptyString
                       else String c EmptyString
      | r => String c r
      end
  end.
Definition add_segment (out : Segments) (m : string * string) : Segments :=
  let label := str_upper (str_strip m.1) in
  let reason := rstrip_semi (str_strip m.2) in
  if str_empty label || str_empty reason then out else <[label := reason]> out.
Definition parse_account_reject_segments (raw : option string) : Segments :=
  let text := str_strip (opt_str raw) in
  if str_empty text then ∅ else fold_left add_segment (matches (String.length text) text) ∅.
Definition has_account_prefixed_segments (raw : option string) : bool :=
  negb (bool_decide (parse_account_reject_segments raw = ∅)).

(** ** Writing *)
Fixpoint insert_label (x : string * string) (l : list (string * string)) : list (string * string) :=
  match l with
  | [] => [x]
  | y :: l' => if String.leb x.1 y.1 then x :: l else y :: insert_label x l'
  end.
Definition by_label (m : Segments) : list (string * string) :=
  fold_right insert_label [] (map_to_list m).
Definition segment_text (x : string * string) : string := "Account " ++ x.1 ++ ": " ++ x.2.
Definition format_segments (m : Segments) : string :=
  String.concat "; " (map segment_text (by_label m)).

Definition blank (raw : option string) : bool := str_empty (str_strip (opt_str raw)).
Definition format_account_reject_reason (ibkr_account reason : option string) (account_id : option Z)
    : option string :=
  if blank reason then None
  else
    let text := str_strip (opt_str reason) in
    if has_account_prefixed_segments (Some text) then Some text
    else
      let label := str_or (str_strip (opt_str ibkr_account))
                     (match account_id with Some a => str_Z a | None => EmptyString end) in
      Some (if str_empty label then text else segment_text (label, text)).

Definition merge_account_reject_reasons (existing incoming : option string) : option string :=
  if blank incoming then if blank existing then None else existing
  else
    let text := str_strip (opt_str incoming) in
    let new := parse_account_reject_segments (Some text) in
    let old := parse_account_reject_segments existing in
    if bool_decide (new = ∅) then
      if bool_decide (old = ∅) then Some text else Some (format_segments old)
    else Some (format_segments (new ∪ old)).

(** ** Reading *)
Definition lookup_key (segments : Segments) (keys : list string) : option string :=
  match List.find (fun k => found (segments !! k)) keys with
  | Some k => segments !! k
  | None => None
  end.
Definition scope_reject_reason_for_account (raw ibkr_account : option string) (account_id : option Z)
    : option string :=
  if blank raw then None
  else
    let text := str_strip (opt_str raw) in
    let segments := parse_account_reject_segments (Some text) in
    if bool_decide (segments = ∅) then Some text
    else
      lookup_key segments
        ((if blank ibkr_account then [] else [str_upper (str_strip (opt_str ibkr_account))])
         ++ match account_id with Some a => [str_Z a] | None => [] end).

Definition is_generic_reject_reason (reason : option string) : bool :=
  match reason with None => true | Some r => str_strip r =? GENERIC_REJECT_FALLBACK end.
Definition is_basket_state_error (msg : string) : bool :=
  existsb (String.eqb (str_upper (str_strip msg))) BASKET_STATE_NAMES.
Definition resolve_reject_source (job_reject signal_reject : option string) : option string :=
  let specific r := negb (str_empty (opt_str r)) && negb (is_generic_reject_reason r) in
  if specific job_reject then job_reject
  else if specific signal_reject then signal_reject
  else if str_empty (opt_str job_reject) then signal_reject else job_reject.

Example parse_two :
  by_label (parse_account_reject_segments (Some "Account du7: no  funds ; ACCOUNT 12: BASKET_CRITICAL: a=b;"))
  = [("12", "BASKET_CRITICAL: a=b"); ("DU7", "no  funds")].
Proof. by vm_compute. Qed.

(** ** Strings without a header *)
Fixpoint headerless (s : string) : bool :=
  negb (found (header s)) && match s with String _ s => headerless s | EmptyString => true end.
(** A label: no white space, no colon but perhaps the first character. *)
Fixpoint plain (s : string) : bool :=
  match s with
  | EmptyString => true
  | String c s => negb (is_space c) && negb (Ascii.eqb c ":"%char) && plain s
  end.
Definition label_word (s : string) : bool :=
  match s with EmptyString => false | String c w => negb (is_space c) && plain w end.

Lemma app_nil_r_str (s : string) : s ++ EmptyString = s.
Proof. induction s as [|c s IH]; cbn [String.append]; [done|]. by rewrite IH. Qed.
Lemma app_assoc_str (a b c : string) : (a ++ b) ++ c = a ++ (b ++ c).
Proof. induction a as [|x a IH]; cbn [String.append]; [done|]. by rewrite IH. Qed.

Lemma after_word_app (w s r t : string) : after_word w s = Some r -> after_word w (s ++ t) = Some (r ++ t).
Proof.
  revert s. induction w as [|c w IH]; intros s; simpl; [by intros [= ->]|].
  destruct s as [|x s]; simpl; [done|]. destruct (Ascii.eqb _ c); [apply IH|done].
Qed.
Lemma take_label_app (s w r t : string) : take_label s = Some (w, r) -> take_label (s ++ t) = Some (w, r ++ t).
Proof.
  revert w. induction s as [|c s IH]; intros w; simpl; [done|].
  destruct (Ascii.eqb c ":"); [by intros [= <- <-]|]. destruct (is_space c); [done|].
  destruct (take_label s) as [[w' r']|]; [|done]. intros [= <- <-]. by rewrite (IH w' eq_refl).
Qed.
Lemma lstrip_app (s t : string) : str_empty (lstrip s) = false -> lstrip (s ++ t) = lstrip s ++ t.
Proof. induction s as [|c s IH]; simpl; [done|]. by destruct (is_space c). Qed.
Lemma lstrip_blank (s t : string) : str_empty (lstrip s) = true -> lstrip (s ++ t) = lstrip t.
Proof. induction s as [|c s IH]; simpl; [done|]. by destruct (is_space c). Qed.
Lemma header_app (s l r t : string) : header s = Some (l, r) -> header (s ++ t) = Some (l, r ++ t).
Proof.
  unfold header. destruct (after_word _ s) as [[|b q]|] eqn:A; [done| |done].
  rewrite (after_word_app _ _ _ t A). simpl. destruct (is_space b); [|done].
  destruct (lstrip q) as [|c q'] eqn:L; [done|]. rewrite lstrip_app, L by (by rewrite L). simpl.
  destruct (take_label q') as [[w r']|] eqn:T; [|done]. intros [= <- <-].
  by rewrite (take_label_app _ _ _ t T).
Qed.
Lemma header_prefix (s t : string) : header (s ++ t) = None -> header s = None.
Proof. intros H. destruct (header s) as [[l r]|] eqn:E; [|done]. by rewrite (header_app _ _ _ t E) in H. Qed.

(** A text without header stays so when a semicolon and a blank follow. *)
Lemma after_word_semi (w s t : string) :
  has_char ";" w = false -> after_word w s = None -> after_word w (s ++ String ";" t) = None.
Proof.
  revert s. induction w as [|c w IH]; intros s N; [done|].
  change (Ascii.eqb ";" c || has_char ";" w = false) in N. apply orb_false_iff in N as [Nc Nw].
  destruct s as [|x s]; cbn [String.append after_word]; intros H.
  - change (upper_char ";") with ";"%char. by rewrite Nc.
  - destruct (Ascii.eqb (upper_char x) c); [by apply IH|done].
Qed.
Lemma take_label_semi (s t : string) : take_label s = None -> take_label (s ++ "; " ++ t) = None.
Proof.
  induction s as [|c s IH]; [done|]. cbn [take_label String.append]. destruct (Ascii.eqb c ":"); [done|].
  destruct (is_space c); [done|]. cbn [String.append] in IH. destruct (take_label s) as [[w r]|]; [done|]. intros _. by rewrite IH.
Qed.
Lemma header_semi (s t : string) : header s = None -> header (s ++ "; " ++ t) = None.
Proof.
  unfold header. destruct (after_word "ACCOUNT" s) as [q|] eqn:A.
  - rewrite (after_word_app _ _ _ ("; " ++ t) A). destruct q as [|b q]; [done|].
    cbn [String.append]. destruct (is_space b); [|done].
    destruct (str_empty (lstrip q)) eqn:L; [by rewrite lstrip_blank by done|].
    change (String ";" (String " " t)) with ("; " ++ t). rewrite lstrip_app by done.
    destruct (lstrip q) as [|c q']; [done|]. cbn [String.append].
    destruct (take_label q') as [[w r]|] eqn:T; [done|]. intros _.
    pose proof (take_label_semi q' t T) as X. cbn [String.append] in X. by rewrite X.
  - intros _. pose proof (after_word_semi "ACCOUNT" s (String " " t) eq_refl A) as X.
    cbn [String.append]. by rewrite X.
Qed.

Lemma headerless_header (s : string) : headerless s = true -> header s = None.
Proof. destruct s; simpl; [done|]. intros H. bool_to_prop. by destruct (header _). Qed.
Lemma headerless_suffix (a b : string) : headerless (a ++ b) = true -> headerless b = true.
Proof. induction a as [|c a IH]; [done|]. cbn [String.append headerless]. intros H. bool_to_prop. auto. Qed.
Lemma headerless_prefix (a b : string) : headerless (a ++ b) = true -> headerless a = true.
Proof.
  induction a as [|c a IH]; [done|]. intros H. pose proof (headerless_header _ H) as N.
  apply header_prefix in N. cbn [String.append headerless] in *. rewrite N. bool_to_prop. simpl. auto.
Qed.

(** ** Tidy segments *)
Lemma lstrip_suffix (s : string) : exists a, s = a ++ lstrip s.
Proof.
  induction s as [|c s [a IH]]; [by exists EmptyString|]. cbn [lstrip]. destruct (is_space c); [|by exists EmptyString].
  exists (String c a). cbn [String.append]. by f_equal.
Qed.
Lemma rstrip_prefix (s : string) : exists b, s = rstrip s ++ b.
Proof.
  induction s as [|c s [b IH]]; [by exists EmptyString|]. cbn [rstrip]. destruct (rstrip s) as [|x r].
  - destruct (is_space c); [by exists (String c s)|]. exists s. done.
  - exists b. cbn [String.append]. by f_equal.
Qed.
Lemma rstrip_semi_prefix (s : string) : exists b, s = rstrip_semi s ++ b.
Proof.
  induction s as [|c s [b IH]]; [by exists EmptyString|]. cbn [rstrip_semi]. destruct (rstrip_semi s) as [|x r].
  - destruct (_ || _); [by exists (String c s)|]. exists s. done.
  - exists b. cbn [String.append]. by f_equal.
Qed.
Lemma headerless_trim (s : string) : headerless s = true -> headerless (rstrip_semi (str_strip s)) = true.
Proof.
  intros H. unfold str_strip. destruct (lstrip_suffix s) as [a A]. rewrite A in H. apply headerless_suffix in H.
  destruct (rstrip_prefix (lstrip s)) as [b B]. rewrite B in H. apply headerless_prefix in H.
  destruct (rstrip_semi_prefix (rstrip (lstrip s))) as [c C]. rewrite C in H. by apply headerless_prefix in H.
Qed.

Lemma cut_headerless (s a r : string) :
  cut s = (a, r) -> headerless a = true /\ s = a ++ r /\ (r = EmptyString \/ boundary r = true).
Proof.
  revert a. induction s as [|c s IH]; intros a; cbn [cut].
  - intros E. assert (a = EmptyString /\ r = EmptyString) as [-> ->] by (destruct (boundary EmptyString); by injection E).
    split_and!; [done|done|by left].
  - destruct (boundary (String c s)) eqn:B; [intros [= <- <-]; split_and!; [done|done|by right]|].
    destruct (cut s) as [a' r'] eqn:C. intros [= <- <-]. destruct (IH a' eq_refl) as (H & E & R).
    split_and!; [|cbn [String.append]; by f_equal|done].
    assert (N : header (String c s) = None).
    { unfold boundary in B. destruct (header (String c s)); [|done].
      destruct (Ascii.ascii_dec c ";") as [->|D]; [by rewrite orb_true_r in B|].
      destruct c as [[] [] [] [] [] [] [] []]; done. }
    rewrite E in N. change (String c (a' ++ r')) with (String c a' ++ r') in N. apply header_prefix in N.
    cbn [headerless]. by rewrite N, H.
Qed.

Record segment_ok (label reason : string) : Prop := {
  so_label : label_word label = true;
  so_reason : str_empty reason = false;
  so_headerless : headerless reason = true
}.
Lemma take_label_plain (s w r : string) : take_label s = Some (w, r) -> plain w = true.
Proof.
  revert w. induction s as [|c s IH]; intros w; [done|]. cbn [take_label].
  destruct (Ascii.eqb c ":") eqn:E; [by intros [= <- <-]|]. destruct (is_space c) eqn:S; [done|].
  destruct (take_label s) as [[w' r']|]; [|done]. intros [= <- <-]. cbn [plain]. by rewrite E, S, (IH w').
Qed.
Lemma lstrip_head (s r : string) (c : Ascii.ascii) : lstrip s = String c r -> is_space c = false.
Proof.
  induction s as [|x s IH]; [done|]. cbn [lstrip]. destruct (is_space x) eqn:E; [done|]. by intros [= <- _].
Qed.
Lemma header_label (s l r : string) : header s = Some (l, r) -> label_word l = true.
Proof.
  unfold header. destruct (after_word _ s) as [[|b q]|]; [done| |done]. destruct (is_space b); [|done].
  destruct (lstrip q) as [|c q'] eqn:L; [done|]. destruct (take_label q') as [[w r']|] eqn:T; [|done].
  intros [= <- <-]. cbn [label_word]. by rewrite (lstrip_head _ _ _ L), (take_label_plain _ _ _ T).
Qed.
Lemma matches_ok (n : nat) (s : string) (x : string * string) :
  x ∈ matches n s -> label_word x.1 = true /\ headerless x.2 = true.
Proof.
  revert s. induction n as [|n IH]; intros s; cbn [matches]; [by intros ?%not_elem_of_nil|].
  destruct s as [|c s]; [by intros ?%not_elem_of_nil|].
  destruct (header (String c s)) as [[l r]|] eqn:H; [|apply IH].
  destruct (cut (lstrip r)) as [a r'] eqn:C. intros [->|E]%elem_of_cons; [|by eapply IH].
  split; [by eapply header_label|by apply cut_headerless in C as (? & _)].
Qed.

Lemma strip_word (s : string) : label_word s = true -> str_strip s = s.
Proof.
  destruct s as [|c w]; [done|]. cbn [label_word]. intros H. bool_to_prop.
  unfold str_strip. cbn [lstrip]. assert (Hc : is_space c = false) by done; rewrite Hc.
  assert (P : rstrip w = w).
  { induction w as [|x w IH]; [done|]. cbn [plain] in *. bool_to_prop. cbn [rstrip].
    rewrite IH by done. destruct w; [|done]. match goal with X : is_space x = false |- _ => by rewrite X end. }
  cbn [rstrip]. rewrite P. destruct w; [by rewrite Hc|done].
Qed.
Lemma upper_colon (c : Ascii.ascii) : Ascii.eqb (upper_char c) ":" = Ascii.eqb c ":".
Proof. destruct c as [[] [] [] [] [] [] [] []]; by vm_compute. Qed.
Lemma upper_word (s : string) : label_word s = true -> label_word (str_upper s) = true.
Proof.
  destruct s as [|c w]; [done|]. unfold str_upper. cbn [str_map label_word]. intros H. bool_to_prop.
  rewrite is_space_upper. apply andb_true_iff. split; [by apply negb_true_iff|].
  match goal with X : plain w = true |- _ => revert X end.
  induction w as [|x w IH]; [done|]. cbn [str_map plain]. intros X. rewrite is_space_upper, upper_colon.
  apply andb_true_iff in X as [-> X]. by apply IH.
Qed.
Lemma upper_idemp (s : string) : str_upper (str_upper s) = str_upper s.
Proof. apply str_map_idemp, upper_char_idemp. Qed.

Definition segments_ok (m : Segments) : Prop :=
  map_Forall (fun l r => segment_ok l r /\ str_upper l = l) m.
Lemma parse_ok (raw : option string) : segments_ok (parse_account_reject_segments raw).
Proof.
  unfold parse_account_reject_segments. destruct (str_empty _); [apply map_Forall_empty|].
  assert (F : Forall (fun x => label_word x.1 = true /\ headerless x.2 = true)
    (matches (String.length (str_strip (opt_str raw))) (str_strip (opt_str raw))))
    by (apply Forall_forall; intros x; apply matches_ok).
  cut (forall l m, Forall (fun x => label_word x.1 = true /\ headerless x.2 = true) l -> segments_ok m ->
         segments_ok (fold_left add_segment l m)); [intros A; apply A; [done|apply map_Forall_empty]|].
  clear. induction l as [|x l IH]; intros m F M; simpl; [done|]. apply Forall_cons in F as [[Fl Fr] F].
  apply IH; [done|]. unfold add_segment. rewrite (strip_word _ Fl).
  destruct (str_empty (str_upper x.1)); [done|]. simpl.
  destruct (str_empty (rstrip_semi _)) eqn:E; [done|]. apply map_Forall_insert_2; [|done].
  split; [|apply upper_idemp]. constructor; [by apply upper_word|done|by apply headerless_trim].
Qed.

(** ** Reading back what was written *)
Definition trimmed (r : string) : Prop := str_strip r = r /\ rstrip_semi r = r.
Definition joined (l : list (string * string)) : string := String.concat "; " (map segment_text l).
Definition entry_ok (x : string * string) : Prop := segment_ok x.1 x.2 /\ trimmed x.2.

Lemma take_label_word (w rest : string) : plain w = true -> take_label (w ++ String ":" rest) = Some (w, rest).
Proof.
  induction w as [|c w IH]; [done|]. cbn [plain take_label String.append]. intros H. bool_to_prop.
  repeat match goal with X : _ = false |- _ => rewrite X; clear X end. by rewrite IH.
Qed.
Lemma header_segment (l rest : string) :
  label_word l = true -> header ("Account " ++ l ++ ": " ++ rest) = Some (l, " " ++ rest).
Proof.
  intros W. unfold header. change (after_word "ACCOUNT" ("Account " ++ l ++ ": " ++ rest))
    with (Some (" " ++ l ++ ": " ++ rest)). cbn [String.append].
  destruct l as [|c w]; [done|]. cbn [label_word] in W. bool_to_prop.
  change (is_space " ") with true. cbn iota. cbn [String.append lstrip].
  match goal with X : is_space c = false |- _ => rewrite X end. by rewrite take_label_word.
Qed.
Lemma lstrip_trimmed (r t : string) :
  str_empty r = false -> str_strip r = r -> lstrip (" " ++ r ++ t) = r ++ t.
Proof.
  intros N S. change (lstrip (" " ++ r ++ t)) with (lstrip (r ++ t)). destruct r as [|c r]; [done|].
  cbn [String.append lstrip]. destruct (is_space c) eqn:E; [|done]. exfalso.
  unfold str_strip in S. cbn [lstrip] in S. rewrite E in S.
  destruct (rstrip_prefix (lstrip r)) as [b B]. rewrite S in B.
  destruct (lstrip r) as [|x q] eqn:L; [done|]. apply lstrip_head in L. injection B as -> _. congruence.
Qed.
Lemma boundary_headerless (s t : string) :
  headerless s = true -> str_empty s = false -> boundary (s ++ "; " ++ t) = false.
Proof.
  intros H N. destruct s as [|c r]; [done|]. pose proof (headerless_header _ H) as Hh.
  pose proof (header_semi _ t Hh) as Hs. change (String c r ++ "; " ++ t) with (String c (r ++ "; " ++ t)) in *.
  unfold boundary. rewrite Hs. destruct (Ascii.ascii_dec c ";") as [->|D].
  - assert (R : headerless r = true) by (by apply (headerless_suffix ";" r)).
    destruct (str_empty (lstrip r)) eqn:L; [by rewrite lstrip_blank by done|].
    rewrite lstrip_app by done. destruct (lstrip_suffix r) as [a A]. rewrite A in R.
    apply headerless_suffix, headerless_header in R. by rewrite header_semi.
  - by destruct c as [[] [] [] [] [] [] [] []].
Qed.
Lemma boundary_headerless_end (s : string) : headerless s = true -> boundary s = false.
Proof.
  intros H. pose proof (headerless_header _ H) as Hh. destruct s as [|c r]; [done|]. unfold boundary.
  rewrite Hh. destruct (Ascii.ascii_dec c ";") as [->|D]; [|by destruct c as [[] [] [] [] [] [] [] []]].
  apply (headerless_suffix ";" r) in H. destruct (lstrip_suffix r) as [a A]. rewrite A in H.
  by apply headerless_suffix, headerless_header in H as ->.
Qed.
Lemma cut_text (r t : string) :
  headerless r = true -> boundary ("; " ++ t) = true -> cut (r ++ "; " ++ t) = (r, "; " ++ t).
Proof.
  intros H B. induction r as [|c r IH].
  - change (EmptyString ++ "; " ++ t) with ("; " ++ t). destruct ("; " ++ t) eqn:E; cbn [cut]; by rewrite B.
  - pose proof (boundary_headerless _ t H eq_refl) as N.
    change (String c r ++ "; " ++ t) with (String c (r ++ "; " ++ t)) in *. cbn [cut]. rewrite N.
    by rewrite IH by (by apply (headerless_suffix (String c EmptyString) r)).
Qed.
Lemma cut_end (r : string) : headerless r = true -> cut r = (r, EmptyString).
Proof.
  intros H. induction r as [|c r IH]; [done|]. cbn [cut]. rewrite (boundary_headerless_end _ H).
  by rewrite IH by (by apply (headerless_suffix (String c EmptyString) r)).
Qed.

Lemma length_app_str (a b : string) : String.length (a ++ b) = (String.length a + String.length b)%nat.
Proof. induction a as [|c a IH]; [done|]. cbn [String.append String.length]. by rewrite IH. Qed.
Lemma segment_cons (x : string * string) (t : string) :
  segment_text x ++ t = "Account " ++ x.1 ++ ": " ++ x.2 ++ t.
Proof. unfold segment_text. by rewrite !app_assoc_str. Qed.

Lemma matches_header (n : nat) (s l r a r' : string) :
  header s = Some (l, r) -> cut (lstrip r) = (a, r') -> matches (S n) s = (l, a) :: matches n r'.
Proof. intros H C. destruct s as [|c s]; [done|]. cbn [matches]. by rewrite H, C. Qed.
Lemma matches_segment (n : nat) (x : string * string) (t a r : string) :
  entry_ok x -> cut (x.2 ++ t) = (a, r) ->
  matches (S n) (segment_text x ++ t) = (x.1, a) :: matches n r.
Proof.
  intros [[W N H] [S _]] C. rewrite segment_cons. eapply matches_header; [by apply header_segment|].
  by rewrite (lstrip_trimmed _ _ N S).
Qed.
Lemma matches_skip (n : nat) (t : string) :
  matches (S (S n)) ("; " ++ "Account " ++ t) = matches n ("Account " ++ t).
Proof. reflexivity. Qed.
Lemma segment_head (x : string * string) (t : string) :
  segment_text x ++ t = "Account " ++ (x.1 ++ ": " ++ x.2 ++ t).
Proof. apply segment_cons. Qed.
Lemma boundary_semi (s : string) :
  boundary ("; " ++ s) = found (header (lstrip s)) || found (header ("; " ++ s)).
Proof. reflexivity. Qed.
Lemma lstrip_account (s : string) : lstrip ("Account " ++ s) = "Account " ++ s.
Proof. reflexivity. Qed.
Lemma boundary_segment (x : string * string) (t : string) :
  label_word x.1 = true -> boundary ("; " ++ segment_text x ++ t) = true.
Proof. intros W. by rewrite boundary_semi, segment_head, lstrip_account, header_segment. Qed.

Lemma matches_joined (l : list (string * string)) (n : nat) :
  Forall entry_ok l -> (String.length (joined l) <= n)%nat -> matches n (joined l) = l.
Proof.
  revert n. induction l as [|x l IH]; intros n F L; [by destruct n|].
  apply Forall_cons in F as [E F]. pose proof E as [[W N H] T].
  assert (P : (8 <= String.length (segment_text x))%nat) by (unfold segment_text; rewrite !length_app_str; simpl; lia).
  destruct l as [|y l].
  - unfold joined in *. simpl in *. destruct n as [|n]; [lia|].
    rewrite <- (app_nil_r_str (segment_text x)), (matches_segment n x EmptyString x.2 EmptyString E);
      [by destruct n, x|]. rewrite app_nil_r_str. by apply cut_end.
  - change (joined (x :: y :: l)) with (segment_text x ++ "; " ++ joined (y :: l)) in *.
    rewrite !length_app_str in L. destruct n as [|n]; [simpl in *; lia|].
    assert (J : exists t, joined (y :: l) = segment_text y ++ t).
    { destruct l; [exists EmptyString; by rewrite app_nil_r_str|eexists; reflexivity]. }
    destruct J as [t J]. assert (Wy : label_word y.1 = true) by (apply Forall_cons in F as [[[]] _]; done).
    rewrite (matches_segment n x _ x.2 ("; " ++ joined (y :: l)) E).
    + destruct n as [|[|n]]; [simpl in *; lia|simpl in *; lia|]. rewrite J at 1. rewrite segment_head.
      rewrite matches_skip. rewrite <- segment_head, <- J. rewrite IH; [by destruct x| |].
      * done.
      * simpl in L. lia.
    + apply cut_text; [done|]. rewrite J. by apply boundary_segment.
Qed.

Lemma rstrip_app (p r : string) : str_empty r = false -> rstrip r = r -> rstrip (p ++ r) = p ++ r.
Proof.
  intros N R. induction p as [|c p IH]; [done|]. cbn [String.append rstrip]. rewrite IH.
  destruct p; cbn [String.append]; [by destruct r|done].
Qed.
Lemma trimmed_rstrip (r : string) : str_strip r = r -> rstrip r = r.
Proof. intros S. rewrite <- S. unfold str_strip. apply rstrip_idemp. Qed.
Lemma strip_joined (l : list (string * string)) :
  Forall entry_ok l -> str_strip (joined l) = joined l.
Proof.
  intros F. destruct l as [|x l]; [done|].
  assert (R : exists p r, joined (x :: l) = p ++ r /\ str_empty r = false /\ rstrip r = r).
  { revert x F. induction l as [|y l IH]; intros x F; apply Forall_cons in F as [[[_ N _] [S _]] F].
    - exists ("Account " ++ x.1 ++ ": "), x.2. split; [|by split; [|apply trimmed_rstrip]].
      unfold joined. simpl String.concat. unfold segment_text. by rewrite !app_assoc_str.
    - destruct (IH y F) as (p & r & E & Nr & Rr). exists (segment_text x ++ "; " ++ p), r.
      split; [|done]. change (joined (x :: y :: l)) with (segment_text x ++ "; " ++ joined (y :: l)).
      by rewrite E, !app_assoc_str. }
  destruct R as (p & r & E & Nr & Rr). unfold str_strip.
  assert (L : lstrip (joined (x :: l)) = joined (x :: l)).
  { unfold joined. cbn [map]. destruct (map segment_text l) as [|b q]; reflexivity. }
  rewrite L, E. by apply rstrip_app.
Qed.

Lemma insert_label_perm (x : string * string) (l : list (string * string)) : insert_label x l ≡ₚ x :: l.
Proof.
  induction l as [|y l IH]; [done|]. cbn [insert_label]. destruct (String.leb _ _); [done|].
  rewrite IH. apply Permutation_swap.
Qed.
Lemma by_label_perm (m : Segments) : by_label m ≡ₚ map_to_list m.
Proof.
  unfold by_label. induction (map_to_list m) as [|x l IH]; [done|]. simpl. by rewrite insert_label_perm, IH.
Qed.
Lemma add_segments (l : list (string * string)) (m : Segments) :
  Forall (fun x => entry_ok x /\ str_upper x.1 = x.1) l -> NoDup l.*1 -> (forall x, x ∈ l -> m !! x.1 = None) ->
  fold_left add_segment l m = list_to_map l ∪ m.
Proof.
  revert m. induction l as [|x l IH]; intros m F D N; simpl; [by rewrite map_empty_union|].
  apply Forall_cons in F as [[[[W Nr H] [S R]] U] F]. apply NoDup_cons in D as [Dx D].
  assert (A : add_segment m x = <[x.1 := x.2]> m).
  { unfold add_segment. rewrite (strip_word _ W), U, S, R, Nr. by destruct x.1. }
  rewrite A, IH; [| done | done |].
  - destruct x as [k v]. simpl. rewrite <- insert_union_l, <- insert_union_r; [done|].
    apply not_elem_of_list_to_map_1. exact Dx.
  - intros y Y. rewrite lookup_insert_ne; [apply N; by right|]. intros E. apply Dx. rewrite E.
    apply list_elem_of_fmap. by exists y.
Qed.

(** What is written is read back. *)
Lemma parse_format (m : Segments) :
  segments_ok m -> map_Forall (fun _ r => trimmed r) m ->
  parse_account_reject_segments (Some (format_segments m)) = m.
Proof.
  intros K T. assert (F : Forall (fun x => entry_ok x /\ str_upper x.1 = x.1) (by_label m)).
  { apply Forall_forall. intros [k r] E. rewrite by_label_perm in E. apply elem_of_map_to_list in E.
    destruct (K _ _ E) as [S U]. by split; [split; [|apply (T _ _ E)]|]. }
  assert (Fe : Forall entry_ok (by_label m)) by (eapply Forall_impl; [exact F|by intros x []]).
  change (format_segments m) with (joined (by_label m)). unfold parse_account_reject_segments. simpl opt_str.
  rewrite (strip_joined _ Fe). destruct (by_label m) as [|x l] eqn:B.
  - pose proof (by_label_perm m) as P. rewrite B in P. symmetry in P. apply Permutation_nil_r in P.
    apply map_to_list_empty_iff in P. by rewrite P.
  - rewrite <- B in *. assert (N : str_empty (joined (by_label m)) = false).
    { rewrite B. unfold joined. cbn [map]. by destruct (map segment_text l). }
    rewrite N, matches_joined by done. rewrite add_segments; [|done| |by intros; apply lookup_empty].
    + rewrite map_union_empty, (list_to_map_proper _ (map_to_list m));
        [apply list_to_map_to_list| |apply by_label_perm].
      rewrite by_label_perm. apply NoDup_fst_map_to_list.
    + rewrite by_label_perm. apply NoDup_fst_map_to_list.
Qed.

(** ** Accounts that write to the same text *)
(** Every reason of a text ends in neither white space nor semicolons, as the
    messages of one line do. *)
Definition tidy (raw : option string) : Prop :=
  map_Forall (fun _ r => trimmed r) (parse_account_reject_segments raw).
Abbreviation segments_of := parse_account_reject_segments.

Lemma segments_blank (raw : option string) : blank raw = true -> segments_of raw = ∅.
Proof. unfold blank, parse_account_reject_segments. by intros ->. Qed.
Lemma segments_strip (raw : option string) :
  segments_of (Some (str_strip (opt_str raw))) = segments_of raw.
Proof. unfold parse_account_reject_segments. simpl opt_str. by rewrite strip_idemp. Qed.

(** Merging texts is merging their segments, the incoming ones first. *)
Lemma merge_union (a b : option string) :
  tidy a -> tidy b -> segments_of a <> ∅ \/ segments_of b <> ∅ ->
  segments_of (merge_account_reject_reasons a b) = segments_of b ∪ segments_of a.
Proof.
  intros Ta Tb N. unfold merge_account_reject_reasons. destruct (blank b) eqn:B.
  - rewrite (segments_blank _ B), map_empty_union. destruct (blank a) eqn:A; [|done].
    destruct N as [N|N]; destruct N; by apply segments_blank.
  - rewrite segments_strip. destruct (bool_decide (segments_of b = ∅)) eqn:Eb; bool_to_prop.
    + destruct (bool_decide (segments_of a = ∅)) eqn:Ea; bool_to_prop; [by destruct N|].
      rewrite Eb, map_empty_union. apply parse_format; [apply parse_ok|exact Ta].
    + apply parse_format; [unfold segments_ok; apply map_Forall_union_2; apply parse_ok|].
      by apply map_Forall_union_2.
Qed.

Lemma matches_headerless (n : nat) (s : string) : headerless s = true -> matches n s = [].
Proof.
  revert s. induction n as [|n IH]; intros s H; [done|]. destruct s as [|c s]; [done|].
  pose proof (headerless_header _ H) as N. cbn [matches]. rewrite N. apply IH.
  by apply (headerless_suffix (String c EmptyString) s).
Qed.
Lemma segments_headerless (s : string) : headerless s = true -> segments_of (Some s) = ∅.
Proof.
  intros H. unfold parse_account_reject_segments. simpl opt_str. destruct (str_empty _); [done|].
  unfold str_strip. destruct (lstrip_suffix s) as [a A]. rewrite A in H. apply headerless_suffix in H.
  destruct (rstrip_prefix (lstrip s)) as [b B]. rewrite B in H. apply headerless_prefix in H.
  by rewrite matches_headerless.
Qed.
Lemma segments_tagged (label reason : string) :
  label_word label = true -> str_empty reason = false -> headerless reason = true -> trimmed reason ->
  segments_of (Some (segment_text (label, reason))) = {[ str_upper label := reason ]}.
Proof.
  intros W N H [S R]. assert (E : entry_ok (label, reason)) by (by split; [split|split]).
  unfold parse_account_reject_segments. simpl opt_str.
  change (segment_text (label, reason)) with (joined [(label, reason)]).
  rewrite strip_joined by (by apply Forall_singleton).
  change (str_empty (joined [(label, reason)])) with false. cbn iota.
  rewrite matches_joined; [|by apply Forall_singleton|done]. simpl. unfold add_segment. simpl.
  rewrite (strip_word _ W), S, R, N. destruct label as [|c w]; [done|]. reflexivity.
Qed.

(** An account that reports its rejection into the text its siblings
    share loses none of theirs and reads its own back: the merged text gives
    every other account the reason it had, and this account the reason it
    reported, whatever was there before. *)
Theorem sibling_reasons_kept (existing : option string) (account reason : string) :
  tidy existing -> label_word account = true ->
  str_empty reason = false -> headerless reason = true -> trimmed reason ->
  let merged := merge_account_reject_reasons existing
                  (format_account_reject_reason (Some account) (Some reason) None) in
  scope_reject_reason_for_account merged (Some account) None = Some reason
  /\ forall label, label <> str_upper account ->
       segments_of merged !! label = segments_of existing !! label.
Proof.
  intros T W N H Tr merged. pose proof Tr as [S R].
  assert (F : format_account_reject_reason (Some account) (Some reason) None
    = Some (segment_text (account, reason))).
  { unfold format_account_reject_reason, blank. simpl opt_str. rewrite S, N.
    unfold has_account_prefixed_segments. rewrite segments_headerless by done.
    rewrite bool_decide_eq_true_2 by done. rewrite (strip_word _ W).
    destruct account as [|c w]; [done|]. reflexivity. }
  assert (M : segments_of merged = {[ str_upper account := reason ]} ∪ segments_of existing).
  { unfold merged. rewrite F, <- (segments_tagged account reason W N H Tr). apply merge_union; [done| |right].
    - unfold tidy. rewrite segments_tagged by done. by apply map_Forall_singleton.
    - rewrite segments_tagged by done. apply map_non_empty_singleton. }
  assert (L : segments_of merged !! str_upper account = Some reason)
    by (rewrite M; apply lookup_union_Some_l, lookup_singleton_eq).
  split.
  - unfold scope_reject_reason_for_account. destruct (blank merged) eqn:B.
    { by rewrite (segments_blank _ B) in L. }
    rewrite segments_strip, bool_decide_eq_false_2 by (intros E; by rewrite E in L).
    unfold blank. simpl opt_str. rewrite (strip_word _ W).
    destruct account as [|c w]; [done|]. cbn [str_empty]. unfold lookup_key. simpl.
    rewrite L. simpl. by rewrite L.
  - intros label D. rewrite M. apply lookup_union_r, lookup_singleton_ne. congruence.
Qed.
Lemma sibling_reasons_kept_witness :
  scope_reject_reason_for_account (merge_account_reject_reasons (Some "Account DU2: BASKET_CRITICAL")
      (format_account_reject_reason (Some "du7") (Some "NO_OPEN_POSITION") None)) (Some "du7") None
  = Some "NO_OPEN_POSITION".
Proof.
  apply (sibling_reasons_kept (Some "Account DU2: BASKET_CRITICAL") "du7" "NO_OPEN_POSITION");
    [|reflexivity..|by split].
  unfold tidy. change (segments_of (Some "Account DU2: BASKET_CRITICAL")) with
    ({[ "DU2" := "BASKET_CRITICAL" ]} : Segments). by apply map_Forall_singleton.
Defined.
