(* ===== verification/RuntimeState.v ===== *)
(** * The runtime state of the order manager: the buckets of the risk context
    that [services/order_manager.py] keeps in memory

    Exposures, open counts, deployed value and margin commitments: how an
    execution moves them, how they are rebuilt from the positions ledger, and
    the margin gate before sizing. *)

From S2P Require Import Prelude Rounding PyText PyTime Identifiers RmsModels Margin Checks Accounts TradeBook Oms Coordinator Positions OrderLedger.

#[local] Open Scope Q_scope.
#[local] Open Scope py_scope.
#[local] Set Warnings "-clear-no-such-hyp".

(** ** The mutable buckets *)
Record Buckets : Type := {
  bu_processed : gset dup_key;
  bu_positions : gmap acct_key Z;
  bu_exposures : gmap acct_key Q;
  bu_used : gmap (Z * string) Q
}.
Definition buckets (c : RMSContext) : Buckets := {|
  bu_processed := processed_signals c; bu_positions := open_positions c;
  bu_exposures := symbol_exposures c; bu_used := model_value_used c |}.
(** The context with the buckets of [b] and the commitments [m]. *)
Definition with_buckets (b : Buckets) (m : gmap string (list (datetime * Q))) (c : RMSContext)
    : RMSContext := {|
  processed_signals := bu_processed b; strategy_configs := strategy_configs c;
  open_positions := bu_positions b; symbol_exposures := bu_exposures b;
  per_symbol_limits := per_symbol_limits c; default_symbol_limits := default_symbol_limits c;
  account_open_limits := account_open_limits c; model_value_limit := model_value_limit c;
  model_value_used := bu_used b; market_value_check_enabled := market_value_check_enabled c;
  margin_snapshots := margin_snapshots c; margin_commitments := m; margin_rates := margin_rates c;
  margin_rate_sources := margin_rate_sources c; margin_policy := margin_policy c;
  current_time := current_time c; rollover_window_days := rollover_window_days c;
  target_rollover_month := target_rollover_month c; rollover_checker := rollover_checker c |}.
Definition set_buckets (b : Buckets) (c : RMSContext) : RMSContext :=
  with_buckets b (margin_commitments c) c.

(** The settings of the strategies, accounts and symbols. *)
Definition with_settings (configs : gmap string StrategyConfig) (symbols : gmap (Z * string) Q)
    (defaults : gmap Z Q) (opens : gmap (Z * string) Z) (values : gmap (Z * string) Q)
    (snapshots : gmap string AccountMarginSnapshot) (c : RMSContext) : RMSContext := {|
  processed_signals := processed_signals c; strategy_configs := configs;
  open_positions := open_positions c; symbol_exposures := symbol_exposures c;
  per_symbol_limits := symbols; default_symbol_limits := defaults; account_open_limits := opens;
  model_value_limit := values; model_value_used := model_value_used c;
  market_value_check_enabled := market_value_check_enabled c; margin_snapshots := snapshots;
  margin_commitments := margin_commitments c; margin_rates := margin_rates c;
  margin_rate_sources := margin_rate_sources c; margin_policy := margin_policy c;
  current_time := current_time c; rollover_window_days := rollover_window_days c;
  target_rollover_month := target_rollover_month c; rollover_checker := rollover_checker c |}.

(** [d[k] = d.get(k, 0) + x]. *)
Definition bump {K : Type} `{Countable K} (k : K) (x : Q) (m : gmap K Q) : gmap K Q :=
  <[k := dadd (default 0 (m !! k)) x]> m.
(** [d[k] = max(0, d.get(k, 0) - x)]. *)
Definition drain {K : Type} `{Countable K} (k : K) (x : Q) (m : gmap K Q) : gmap K Q :=
  <[k := Qmaxb 0 (dsub (default 0 (m !! k)) x)]> m.
Definition count_up {K : Type} `{Countable K} (k : K) (n : Z) (m : gmap K Z) : gmap K Z :=
  <[k := (default 0 (m !! k) + n)%Z]> m.
Definition count_down {K : Type} `{Countable K} (k : K) (n : Z) (m : gmap K Z) : gmap K Z :=
  <[k := Z.max 0 (default 0%Z (m !! k) - n)]> m.

(** ** From the positions ledger *)
Definition strategy_key (s : string) : string := normalize_strategy_id (JStr s).
Definition symbol_key (s : string) : string := normalize_symbol (JStr s).
Definition market_row (p : PositionModel) : position_row := {|
  leg_a_signed_qty := p_leg_a_signed_qty p; leg_a_entry_mark := p_leg_a_entry_mark p;
  leg_b_symbol := p_leg_b_symbol p; leg_b_signed_qty := p_leg_b_signed_qty p;
  leg_b_entry_mark := p_leg_b_entry_mark p |}.
(** The notionals of a row's legs, by symbol. *)
Definition row_notionals (p : PositionModel) : list (acct_key * Q) :=
  (inl (p_account_id p, symbol_key (p_leg_a_symbol p)),
   dmul (dabs (p_leg_a_signed_qty p)) (p_leg_a_entry_mark p))
  :: match p_leg_b_signed_qty p, p_leg_b_entry_mark p with
     | Some q, Some m =>
         if str_empty (opt_str (p_leg_b_symbol p)) then []
         else [(inl (p_account_id p, symbol_key (opt_str (p_leg_b_symbol p))), dmul (dabs q) m)]
     | _, _ => []
     end.
Definition add_row_exposure (p : PositionModel) (b : Buckets) : Buckets := {|
  bu_processed := bu_processed b; bu_positions := bu_positions b;
  bu_exposures := fold_left (fun m kx => bump kx.1 kx.2 m) (row_notionals p) (bu_exposures b);
  bu_used := bump (p_account_id p, strategy_key (p_strategy_id p))
               (position_row_market_value (market_row p)) (bu_used b) |}.
Definition add_open_row (b : Buckets) (p : PositionModel) : Buckets :=
  let b := add_row_exposure p b in
  {| bu_processed := bu_processed b;
     bu_positions := count_up (inl (p_account_id p, strategy_key (p_strategy_id p))) 1 (bu_positions b);
     bu_exposures := bu_exposures b; bu_used := bu_used b |}.
(** The order of the counting and of the exposures is immaterial: they are
    different buckets. *)
Definition rebuild_rms_from_positions (open_rows : list PositionModel) (c : RMSContext) : RMSContext :=
  set_buckets (fold_left add_open_row open_rows
    {| bu_processed := processed_signals c; bu_positions := ∅; bu_exposures := ∅; bu_used := ∅ |}) c.

(** [_reseed_model_value_used]: the key is the strategy as the row spells it. *)
Definition reseed_model_value_used (open_rows : list PositionModel) (c : RMSContext) : RMSContext :=
  set_buckets {| bu_processed := processed_signals c; bu_positions := open_positions c;
                 bu_exposures := symbol_exposures c;
                 bu_used := fold_left (fun m p => bump (p_account_id p, p_strategy_id p)
                              (position_row_market_value (market_row p)) m) open_rows ∅ |} c.

Record SymbolLimitRow : Type := { sl_account_id : Z; sl_limit_symbol : string; sl_money_limit : Q }.
Record AccountLimitRow : Type := { acl_id : Z; acl_default_symbol_limit : option Q }.
Definition apply_symbol_limits (limits : list SymbolLimitRow) (rows : option (list AccountLimitRow))
    (c : RMSContext) : RMSContext :=
  with_settings (strategy_configs c)
    (fold_left (fun m l => <[(sl_account_id l, symbol_key (sl_limit_symbol l)) := sl_money_limit l]> m)
       limits ∅)
    (match rows with
     | None => default_symbol_limits c
     | Some rows => fold_left (fun m a => match acl_default_symbol_limit a with
                                          | Some q => <[acl_id a := q]> m
                                          | None => m
                                          end) rows ∅
     end)
    (account_open_limits c) (model_value_limit c) (margin_snapshots c) c.

(** [hydrate_runtime_from_db], the part on the risk context; [processed] are
    the keys of the processed OPEN signals, [routes] the accounts of a strategy. *)
Definition hydrated_signals (processed : list (string * string)) (routes : option (string -> list Z))
    (rows : list PositionModel) : gset dup_key :=
  list_to_set (map (fun ss => inr (strategy_key ss.1, ss.2)) processed
    ++ match routes with
       | None => []
       | Some f => flat_map (fun ss => map (fun a => inl (a, strategy_key ss.1, ss.2)) (f (strategy_key ss.1)))
                     processed
       end
    ++ map (fun p => inl (p_account_id p, strategy_key (p_strategy_id p), p_trade_id p)) rows).
Definition hydrate_runtime (processed : list (string * string)) (routes : option (string -> list Z))
    (rows : list PositionModel) (limits : list SymbolLimitRow) (accounts : list AccountLimitRow)
    (c : RMSContext) : RMSContext :=
  let b := fold_left add_open_row (List.filter (in_state RISK_STATE_OPEN) rows)
             {| bu_processed := hydrated_signals processed routes rows; bu_positions := ∅;
                bu_exposures := ∅; bu_used := ∅ |} in
  apply_symbol_limits limits (Some accounts) (set_buckets b c).

(** [_ensure_strategy_config]. *)
Definition ensure_strategy_config (strategy : string) (limit : option Z) (c : RMSContext) : RMSContext :=
  let set cfg := with_settings (<[strategy := cfg]> (strategy_configs c)) (per_symbol_limits c)
                   (default_symbol_limits c) (account_open_limits c) (model_value_limit c)
                   (margin_snapshots c) c in
  if str_empty strategy then c
  else match strategy_configs c !! strategy with
       | None => set {| cfg_strategy_id := strategy;
                        max_open_positions := Some (default 100%Z limit);
                        money_limit_per_symbol := None |}
       | Some old =>
           match limit with
           | None => c
           | Some n =>
               if bool_decide (max_open_positions old = Some n) then c
               else set {| cfg_strategy_id := strategy; max_open_positions := Some n;
                           money_limit_per_symbol := money_limit_per_symbol old |}
           end
       end.

(** ** Margin *)
Definition account_label (s : option string) : string := str_upper (str_strip (opt_str s)).
(** [_on_margin_snapshot]: naive time stamps count as UTC. *)
Definition on_margin_snapshot (s : AccountMarginSnapshot) (c : RMSContext) : RMSContext :=
  let key := str_upper (str_strip (snap_ibkr_account s)) in
  let c := with_settings (strategy_configs c) (per_symbol_limits c) (default_symbol_limits c)
             (account_open_limits c) (model_value_limit c) (<[key := s]> (margin_snapshots c)) c in
  match as_of s with
  | None => c
  | Some t =>
      with_buckets (buckets c)
        (<[key := List.filter (fun e => (t - COMMITMENT_GRACE <=? dt_us e.1)%Z)
                    (default [] (margin_commitments c !! key))]> (margin_commitments c)) c
  end.

(** [_commit_margin]; [now] is the wall clock. *)
Definition commit_margin (now : Z) (intent : OrderIntent) (opening : bool) (c : RMSContext) : RMSContext :=
  let account := account_label (ibkr_account intent) in
  if str_empty account then c
  else
    let required := fst (estimate_required_margin intent (margin_rates c) (margin_rate_sources c)
                           (margin_policy c)) in
    if required <=? 0 then c
    else with_buckets (buckets c)
           (<[account := default [] (margin_commitments c !! account)
                ++ [(mk_datetime now true, if opening then required else ctx (- required))]]>
              (margin_commitments c)) c.

Inductive MarginGate : Type :=
  | GateOk | GateUnavailable (account : string) | GateStale (account : string)
  | GateNoFreeFunds (account : string) (effective floor : Q)
  | GateNoFreeFundsLookAhead (account : string) (look_ahead floor : Q).
(** [_assert_account_has_free_margin]; [fetch] is the snapshot of the margin
    service, absent when there is none. *)
Definition assert_account_has_free_margin (now : Z) (fetch : option (string -> option AccountMarginSnapshot))
    (ibkr : option string) (c : RMSContext) : RMSContext * MarginGate :=
  match fetch with
  | None => (c, GateOk)
  | Some snapshot_for =>
      let policy := margin_policy c in
      let account := account_label ibkr in
      let found := match margin_snapshots c !! account with
                   | Some s => Some s
                   | None => snapshot_for account
                   end in
      let commitments := default [] (margin_commitments c !! account) in
      match found with
      | None => (c, GateUnavailable account)
      | Some s =>
          let c := with_settings (strategy_configs c) (per_symbol_limits c) (default_symbol_limits c)
                     (account_open_limits c) (model_value_limit c)
                     (<[account := s]> (margin_snapshots c)) c in
          (c, if is_stale now s && reject_on_stale_snapshot policy then GateStale account
              else match effective_free_margin s commitments policy with
                   | None => GateUnavailable account
                   | Some effective =>
                       let floor := headroom_floor s policy in
                       if effective <=? floor then GateNoFreeFunds account effective floor
                       else if enforce_look_ahead policy then
                         match look_ahead_effective_free s commitments policy with
                         | Some ahead => if ahead <=? floor then GateNoFreeFundsLookAhead account ahead floor
                                         else GateOk
                         | None => GateOk
                         end
                       else GateOk
                   end)
      end
  end.

(** [_annotate_margin_metadata]; [text] is [str] of a [Decimal]. *)
(** [meta[k] = v]. *)
Fixpoint set_field (k : string) (v : json) (fields : list (string * json)) : list (string * json) :=
  match fields with
  | [] => [(k, v)]
  | (k', v') :: fs => if String.eqb k k' then (k, v) :: fs else (k', v') :: set_field k v fs
  end.
Definition with_metadata (meta : json) (l : OrderLeg) : OrderLeg := {|
  leg_symbol := leg_symbol l; leg_side := leg_side l; leg_quantity := leg_quantity l;
  leg_price := leg_price l; leg_contract_month := leg_contract_month l; leg_con_id := leg_con_id l;
  leg_notional := leg_notional l; leg_instrument_type := leg_instrument_type l;
  leg_weight := leg_weight l; leg_leg_index := leg_leg_index l; leg_metadata := Some meta;
  leg_exchange := leg_exchange l; leg_currency := leg_currency l; leg_resolved := leg_resolved l |}.
Definition with_new_legs (ls : list OrderLeg) (i : OrderIntent) : OrderIntent := {|
  signal_id := signal_id i; strategy_id := strategy_id i; action := action i; legs := ls;
  account_id := account_id i; ibkr_account := ibkr_account i; market := market i;
  timestamp := timestamp i; intent_mode := intent_mode i |}.
Definition annotate_leg (text : Q -> string) (c : RMSContext) (l : OrderLeg) : OrderLeg :=
  let (required, source) := leg_required_margin l (margin_rates c) (margin_rate_sources c) (margin_policy c) in
  let fields := match leg_metadata l with Some (JObj fs) => fs | _ => [] end in
  with_metadata (JObj (set_field "margin_source" (JStr source)
                         (set_field "margin_impact" (JStr (text required)) fields))) l.
Definition annotate_margin_metadata (text : Q -> string) (c : RMSContext) (i : OrderIntent) : OrderIntent :=
  with_new_legs (map (annotate_leg text c) (legs i)) i.

(** ** Executions *)
(** One order of a leg into the weighted price. *)
Definition weigh_fill (acc : Q * Q) (o : OMSOrder) : Q * Q :=
  let fill_qty := repr_dec (filled_quantity o) in
  if fill_qty <=? 0 then acc
  else match order_price o with
       | None => acc
       | Some price => (dadd (fst acc) (dmul fill_qty price), dadd (snd acc) fill_qty)
       end.
Definition filled_leg (orders : list OMSOrder) (il : Z * OrderLeg) : OrderLeg :=
  let (index, leg) := il in
  match List.filter (fun o => bool_decide (o_leg_index o = Some index) && negb (is_compensation o)) orders with
  | [] => leg
  | matching =>
      let qty := py_sum (map filled_quantity matching) in
      let (num, den) := fold_left weigh_fill matching (0, 0) in
      let px := if 0 <? den then ddiv num den else leg_price leg in
      {| leg_symbol := leg_symbol leg; leg_side := leg_side leg; leg_quantity := NFloat qty;
         leg_price := px; leg_contract_month := leg_contract_month leg; leg_con_id := leg_con_id leg;
         leg_notional := Some (dmul (repr_dec qty) px); leg_instrument_type := leg_instrument_type leg;
         leg_weight := leg_weight leg; leg_leg_index := leg_leg_index leg;
         leg_metadata := leg_metadata leg; leg_exchange := leg_exchange leg;
         leg_currency := leg_currency leg; leg_resolved := leg_resolved leg |}
  end.
Definition intent_with_fills (i : OrderIntent) (orders : list OMSOrder) : OrderIntent :=
  with_new_legs (map (filled_leg orders) (enumerate (legs i))) i.

(** The exposures a leg adds, or takes away. *)
Definition book_leg (i : OrderIntent) (opening : bool) (m : gmap acct_key Q) (l : OrderLeg) : gmap acct_key Q :=
  let key := exposure_key i (leg_symbol l) in
  if opening then bump key (effective_notional l) m else drain key (effective_notional l) m.
Definition book_value (i : OrderIntent) (opening : bool) (value : Q) (m : gmap (Z * string) Q)
    : gmap (Z * string) Q :=
  match model_value_key i with
  | None => m
  | Some key => if opening then bump key value m else drain key value m
  end.

(** [_record_unsettled_exposure]. *)
Definition record_unsettled_exposure (now : Z) (i : OrderIntent) (orders : list OMSOrder) (c : RMSContext)
    : RMSContext :=
  match orders with
  | [] => c
  | _ =>
      let filled := intent_with_fills i orders in
      let opening := bool_decide (action i = OPEN) in
      let exposures := fold_left (book_leg i opening)
                         (List.filter (fun l => negb (dec_of_num (leg_quantity l) <=? 0)) (legs filled))
                         (symbol_exposures c) in
      let c := commit_margin now filled opening
                 (set_buckets {| bu_processed := processed_signals c; bu_positions := open_positions c;
                                 bu_exposures := exposures; bu_used := model_value_used c |} c) in
      let value := intent_market_value filled in
      set_buckets {| bu_processed := processed_signals c; bu_positions := open_positions c;
                     bu_exposures := symbol_exposures c;
                     bu_used := if 0 <? value then book_value i opening value (model_value_used c)
                                else model_value_used c |} c
  end.

(** [_update_runtime_state] on the risk context, for a strategy handler. *)
Definition update_runtime_state (now : Z) (i : OrderIntent) (c : RMSContext) : RMSContext :=
  let opening := bool_decide (action i = OPEN) in
  let key := open_position_key i in
  commit_margin now i opening
    (set_buckets {|
       bu_processed := if opening then {[ duplicate_lookup_key i ]} ∪ processed_signals c
                       else processed_signals c;
       bu_positions := if opening then count_up key 1 (open_positions c)
                       else count_down key 1 (open_positions c);
       bu_exposures := fold_left (book_leg i opening) (legs i) (symbol_exposures c);
       bu_used := book_value i opening (intent_market_value i) (model_value_used c) |} c).
(** And without one, for the first leg's symbol and the strategy. *)
Definition update_runtime_legacy (i : OrderIntent) (c : RMSContext) : result RMSContext :=
  match legs i with
  | [] => Raise IndexError
  | l :: _ =>
      let qty := round_down (num_val (leg_quantity l)) in
      let symbol := inr (leg_symbol l) in let strategy := inr (strategy_id i) in
      let positions := open_positions c in
      Ok (set_buckets {| bu_processed := processed_signals c;
            bu_positions :=
              match action i with
              | OPEN => count_up strategy qty (count_up symbol qty positions)
              | CLOSE =>
                  <[strategy := Z.max 0 (default 0%Z (positions !! strategy) - qty)]>
                    (count_down symbol qty positions)
              end;
            bu_exposures := symbol_exposures c; bu_used := model_value_used c |} c)
  end.

(** ** The buckets are the ledger *)
Section Sums.
Context {K : Type} `{Countable K}.
Definition bumps (l : list (K * Q)) (m : gmap K Q) : gmap K Q :=
  fold_left (fun m kx => bump kx.1 kx.2 m) l m.
(** What a list adds to a key: nothing, or the sum in order from [x]. *)
Definition total_of (k : K) (l : list (K * Q)) (x : option Q) : option Q :=
  fold_left (fun a kx => if bool_decide (kx.1 = k) then Some (dadd (default 0 a) kx.2) else a) l x.

Lemma bumps_lookup (l : list (K * Q)) (m : gmap K Q) (k : K) : bumps l m !! k = total_of k l (m !! k).
Proof.
  unfold bumps, total_of. revert m. induction l as [|[k' x] l IH]; intros m; simpl; [done|]. rewrite IH.
  f_equal. unfold bump. destruct (decide (k' = k)) as [->|N].
  - by rewrite bool_decide_eq_true_2, lookup_insert_eq.
  - by rewrite bool_decide_eq_false_2, lookup_insert_ne.
Qed.
Lemma existsb_length {A : Type} (f : A -> bool) (l : list A) :
  existsb f l = negb (Nat.eqb (length (List.filter f l)) 0).
Proof. induction l as [|x l IH]; simpl; [done|]. by destruct (f x). Qed.
Lemma counts_lookup (l : list K) (m : gmap K Z) (k : K) :
  fold_left (fun m k => count_up k 1 m) l m !! k
  = if existsb (fun x => bool_decide (x = k)) l
    then Some (default 0 (m !! k) + Z.of_nat (length (List.filter (fun x => bool_decide (x = k)) l)))%Z
    else m !! k.
Proof.
  revert m. induction l as [|x l IH]; intros m; simpl; [done|]. rewrite IH. unfold count_up.
  destruct (decide (x = k)) as [->|N].
  - rewrite lookup_insert_eq, bool_decide_eq_true_2 by done. simpl.
    destruct (existsb _ l) eqn:E; [f_equal; lia|].
    assert (List.filter (fun x => bool_decide (x = k)) l = []) as ->; [|simpl; f_equal; lia].
    apply Bool.not_true_iff_false in E. rewrite existsb_exists in E.
    destruct (List.filter _ l) as [|y q] eqn:F; [done|]. destruct E. exists y.
    apply (proj1 (filter_In (fun x => bool_decide (x = k)) y l)). rewrite F. by left.
  - by rewrite lookup_insert_ne, bool_decide_eq_false_2 by done.
Qed.
End Sums.

Definition row_strategy (p : PositionModel) : Z * string := (p_account_id p, strategy_key (p_strategy_id p)).
Definition row_value (p : PositionModel) : (Z * string) * Q :=
  (row_strategy p, position_row_market_value (market_row p)).
Lemma open_rows_buckets (rows : list PositionModel) (b : Buckets) :
  let b' := fold_left add_open_row rows b in
  bu_processed b' = bu_processed b
  /\ bu_positions b' = fold_left (fun m k => count_up k 1 m) (map (fun p => inl (row_strategy p)) rows)
                         (bu_positions b)
  /\ bu_exposures b' = bumps (flat_map row_notionals rows) (bu_exposures b)
  /\ bu_used b' = bumps (map row_value rows) (bu_used b).
Proof.
  revert b. induction rows as [|p rows IH]; intros b; [done|]. cbn [fold_left].
  destruct (IH (add_open_row b p)) as (-> & -> & -> & ->). split_and!; try done.
  unfold bumps. cbn [flat_map]. by rewrite fold_left_app.
Qed.

(** C23: The risk buckets rebuilt from the ledger are the ledger, whatever was
    in memory before: the open count of an account and strategy is the number
    of its open rows, the exposure of an account and symbol is the sum of the
    notionals of the legs of that symbol over all strategies, the deployed value
    is the sum of the rows' values; the processed signals and every setting
    stay. *)
Theorem rebuild_exact (rows : list PositionModel) (c : RMSContext) :
  let c' := rebuild_rms_from_positions rows c in
  (forall a s, open_positions c' !! inl (a, s)
     = let n := length (List.filter (fun p => bool_decide (row_strategy p = (a, s))) rows) in
       if Nat.eqb n 0 then None else Some (Z.of_nat n))
  /\ (forall s, open_positions c' !! inr s = None)
  /\ (forall k, symbol_exposures c' !! k = total_of k (flat_map row_notionals rows) None)
  /\ (forall k, model_value_used c' !! k = total_of k (map row_value rows) None)
  /\ processed_signals c' = processed_signals c /\ margin_commitments c' = margin_commitments c
  /\ c' = rebuild_rms_from_positions rows
            (set_buckets {| bu_processed := processed_signals c; bu_positions := ∅; bu_exposures := ∅;
                            bu_used := ∅ |} c).
Proof.
  intros c'. unfold c', rebuild_rms_from_positions.
  destruct (open_rows_buckets rows {| bu_processed := processed_signals c; bu_positions := ∅;
    bu_exposures := ∅; bu_used := ∅ |}) as (P & N & E & U). simpl in N, E, U.
  assert (M : forall a s, length (List.filter (fun x => bool_decide (x = inl (a, s)))
      (map (fun p => inl (row_strategy p) : acct_key) rows))
    = length (List.filter (fun p => bool_decide (row_strategy p = (a, s))) rows)).
  { clear. intros a s. induction rows as [|p rows IH]; [done|]. simpl.
    rewrite (bool_decide_ext (inl (row_strategy p) = inl (a, s) :> acct_key) (row_strategy p = (a, s)))
      by (split; congruence). by destruct (bool_decide _); simpl; rewrite IH. }
  split_and!; simpl.
  - intros a s. rewrite N, counts_lookup, existsb_length, lookup_empty, M. by destruct (length _).
  - intros s. rewrite N, counts_lookup, existsb_length, lookup_empty. clear.
    assert (List.filter (fun x : acct_key => bool_decide (x = inr s))
      (map (fun p => inl (row_strategy p)) rows) = []) as ->; [|done].
    induction rows as [|p rows IH]; [done|]. exact IH.
  - intros k. by rewrite E, bumps_lookup, lookup_empty.
  - intros k. by rewrite U, bumps_lookup, lookup_empty.
  - exact P.
  - done.
  - done.
Qed.

Lemma rebuild_buckets (rows : list PositionModel) (c : RMSContext) :
  buckets (rebuild_rms_from_positions rows c)
  = fold_left add_open_row rows
      {| bu_processed := processed_signals c; bu_positions := ∅; bu_exposures := ∅; bu_used := ∅ |}.
Proof. unfold rebuild_rms_from_positions, buckets. simpl. by destruct (fold_left _ _ _). Qed.
Lemma commit_margin_buckets (now : Z) (i : OrderIntent) (opening : bool) (c : RMSContext) :
  buckets (commit_margin now i opening c) = buckets c.
Proof. unfold commit_margin. repeat case_match; done. Qed.

(** The exposure of a basket that did not settle is gone from the risk
    buckets as soon as they are rebuilt from the ledger, which has no row for
    it: after the rebuild that ends every execution the buckets are what they
    would be had the fills not been booked. *)
Theorem unsettled_exposure_lost (now : Z) (i : OrderIntent) (orders : list OMSOrder)
    (rows : list PositionModel) (c : RMSContext) :
  buckets (rebuild_rms_from_positions rows (record_unsettled_exposure now i orders c))
  = buckets (rebuild_rms_from_positions rows c).
Proof.
  rewrite !rebuild_buckets. do 2 f_equal. unfold record_unsettled_exposure. destruct orders; [done|].
  simpl. match goal with |- processed_signals (commit_margin ?n ?j ?o ?d) = _ =>
    exact (f_equal bu_processed (commit_margin_buckets n j o d)) end.
Qed.

(** After a restart an OPEN of an account is refused as a duplicate exactly
    when the ledger has a row of that account, strategy and trade, or its signal
    was processed and the account is still routed to the strategy. *)
Theorem restart_duplicates (processed : list (string * string)) (routes : option (string -> list Z))
    (rows : list PositionModel) (limits : list SymbolLimitRow) (accounts : list AccountLimitRow)
    (c : RMSContext) (i : OrderIntent) (a : Z) :
  action i = OPEN -> account_id i = Some a ->
  let strategy := strategy_key (strategy_id i) in
  let signal := normalize_signal_id (JStr (signal_id i)) in
  outcome (duplicate_evaluate i (hydrate_runtime processed routes rows limits accounts c)) = REJECT
  <-> (exists p, p ∈ rows /\ p_account_id p = a /\ strategy_key (p_strategy_id p) = strategy
                /\ p_trade_id p = signal)
      \/ (exists f ss, routes = Some f /\ ss ∈ processed /\ strategy_key ss.1 = strategy
                /\ ss.2 = signal /\ a ∈ f strategy).
Proof.
  intros O A strategy signal. unfold duplicate_evaluate. rewrite O, bool_decide_eq_false_2 by done.
  assert (D : processed_signals (hydrate_runtime processed routes rows limits accounts c)
    = hydrated_signals processed routes rows).
  { unfold hydrate_runtime, apply_symbol_limits. simpl.
    match goal with |- context [fold_left add_open_row ?l ?b] =>
      destruct (open_rows_buckets l b) as (P & _) end. exact P. }
  rewrite D. unfold duplicate_lookup_key. rewrite A. fold (strategy_key (strategy_id i)).
  fold strategy signal.
  assert (M : inl (a, strategy, signal) ∈ hydrated_signals processed routes rows
    <-> (exists p, p ∈ rows /\ p_account_id p = a /\ strategy_key (p_strategy_id p) = strategy
                /\ p_trade_id p = signal)
      \/ (exists f ss, routes = Some f /\ ss ∈ processed /\ strategy_key ss.1 = strategy
                /\ ss.2 = signal /\ a ∈ f strategy)).
  { unfold hydrated_signals. rewrite elem_of_list_to_set, !elem_of_app, !list_elem_of_fmap. split.
    - intros [(ss & [=] & _)|[I|(p & [= -> E E'] & I)]]; [|left; by exists p].
      destruct routes as [f|]; [|by inversion I]. right.
      apply list_elem_of_In, in_flat_map in I as (ss & I & J).
      apply list_elem_of_In, list_elem_of_fmap in J as (b & [= -> E E'] & J).
      exists f, ss. split_and!; try done; [by apply list_elem_of_In|by rewrite E].
    - intros [(p & I & <- & <- & <-)|(f & ss & -> & I & E & <- & J)].
      + right. right. by exists p.
      + right. left. apply list_elem_of_In, in_flat_map. exists ss. split; [by apply list_elem_of_In|].
        apply list_elem_of_In, list_elem_of_fmap. exists a. rewrite E. by split. }
  rewrite <- M. case_bool_decide; simpl; split; done.
Qed.

Definition ex_replay : OrderIntent := {|
  signal_id := " T1 "; strategy_id := "Model_Blue"; action := OPEN; legs := []; account_id := Some 7%Z;
  ibkr_account := None; market := None; timestamp := 0; intent_mode := MODE_OPEN |}.
Lemma restart_duplicates_witness :
  outcome (duplicate_evaluate ex_replay
    (hydrate_runtime [("model_blue"%string, "T1"%string)] (Some (fun _ => [7%Z])) [] [] [] ex_context)) = REJECT.
Proof.
  apply (restart_duplicates [("model_blue"%string, "T1"%string)] (Some (fun _ => [7%Z])) [] [] [] ex_context
    ex_replay 7 eq_refl eq_refl).
  right. exists (fun _ => [7%Z]), ("model_blue"%string, "T1"%string).
  split_and!; [reflexivity|by left|by vm_compute|by vm_compute|by left].
Defined.
