(* ===== verification/ExposureLocks.v ===== *)
(** * The exposure guard of the order manager: [_exposure_guard] and
    [_get_exposure_lock] of [services/order_manager.py]

    An execution takes the asyncio locks of everything its risk checks read and
    its result writes, one after the other in the order of the [repr] of their
    keys, and gives them back when it is over.  A lock is not reentrant.  The
    locks are created on first use, so that they are named by their keys. *)

From Stdlib Require OrdersEx.
From stdpp Require Import relations sorting.
From S2P Require Import Prelude Rounding PyText PyTime Identifiers RmsModels Margin Checks Engine Parser Sizer Accounts TradeBook Strategy Instruments Oms Coordinator RuntimeState.

#[local] Open Scope Z_scope.
#[local] Set Warnings "-clear-no-such-hyp".

(** ** Keys *)
Inductive LockKey : Type :=
  | LExposure (k : acct_key)
  | LMargin (account : string)
  | LModelValue (k : Z * string).
#[global] Instance LockKey_eq_dec : EqDecision LockKey.
Proof. solve_decision. Defined.

(** The keys of an intent, in the order they are listed. *)
Definition guard_keys (i : OrderIntent) : list LockKey :=
  map (fun l => LExposure (exposure_key i (leg_symbol l))) (legs i)
  ++ (if str_empty (opt_str (ibkr_account i)) then [] else [LMargin (account_label (ibkr_account i))])
  ++ match model_value_key i with Some k => [LModelValue k] | None => [] end.

(** [repr] of a tuple of an integer and a string, and of the keys. *)
Definition pair_repr (k : Z * string) (closing : string) : string :=
  (str_Z k.1 ++ String "," (" " ++ (str_repr k.2 ++ closing)))%string.
Definition key_repr (k : LockKey) : string :=
  match k with
  | LExposure (inl k) => ("(" ++ pair_repr k ")")%string
  | LExposure (inr s) => str_repr s
  | LMargin a => ("('__margin__', " ++ str_repr a ++ ")")%string
  | LModelValue k => ("('__model_value__', " ++ pair_repr k ")")%string
  end.
Definition key_lt (k k' : LockKey) : Prop := OrdersEx.String_as_OT.lt (key_repr k) (key_repr k').
#[global] Instance key_lt_dec : RelDecision key_lt.
Proof. intros k k'. unfold key_lt, OrdersEx.String_as_OT.lt. solve_decision. Defined.

(** [sorted(keys, key=repr)]: a stable insertion. *)
Fixpoint insert_key (k : LockKey) (l : list LockKey) : list LockKey :=
  match l with
  | [] => [k]
  | k' :: l' => if bool_decide (key_lt k' k) then k' :: insert_key k l' else k :: l
  end.
Fixpoint sorted_keys (l : list LockKey) : list LockKey :=
  match l with [] => [] | k :: l => insert_key k (sorted_keys l) end.
Definition ordered_keys (i : OrderIntent) : list LockKey := sorted_keys (guard_keys i).

(** ** Executions that compete for the locks *)
Inductive TaskPhase : Type := Acquiring | Inside | Finished.
#[global] Instance TaskPhase_eq_dec : EqDecision TaskPhase.
Proof. solve_decision. Defined.
(** [t_wants] are the keys the loop has not reached, the first one being
    awaited. *)
Record Task : Type := { t_keys : list LockKey; t_held : list LockKey; t_wants : list LockKey; t_phase : TaskPhase }.
Definition begin_guard (keys : list LockKey) : Task :=
  {| t_keys := keys; t_held := []; t_wants := keys; t_phase := Acquiring |}.
Definition take (t : Task) : Task :=
  match t_wants t with
  | [] => t
  | k :: w => {| t_keys := t_keys t; t_held := t_held t ++ [k]; t_wants := w; t_phase := Acquiring |}
  end.
Definition enter (t : Task) : Task :=
  {| t_keys := t_keys t; t_held := t_held t; t_wants := []; t_phase := Inside |}.
(** The [finally] clause, on a return, an exception or a cancellation. *)
Definition leave (t : Task) : Task :=
  {| t_keys := t_keys t; t_held := []; t_wants := t_wants t; t_phase := Finished |}.

Abbreviation Tasks := (list Task).
Definition holds (s : Tasks) (k : LockKey) : Prop := exists i t, s !! i = Some t /\ k ∈ t_held t.

(** What one task can do. *)
Inductive moves (s : Tasks) : Task -> Task -> Prop :=
  | Takes t k w : t_phase t = Acquiring -> t_wants t = k :: w -> ~ holds s k -> moves s t (take t)
  | Enters t : t_phase t = Acquiring -> t_wants t = [] -> moves s t (enter t)
  | Leaves t : t_phase t = Inside -> moves s t (leave t).
(** A step of the executions; one that is cancelled; a new one. *)
Definition advance (s s' : Tasks) : Prop :=
  exists i t t', s !! i = Some t /\ moves s t t' /\ s' = <[i := t']> s.
Inductive lock_step (s : Tasks) : Tasks -> Prop :=
  | Advances s' : advance s s' -> lock_step s s'
  | Cancels i t : s !! i = Some t -> t_phase t = Acquiring -> lock_step s (<[i := leave t]> s)
  | Arrives keys : lock_step s (s ++ [begin_guard keys]).
Inductive reachable : Tasks -> Prop :=
  | reach_init : reachable []
  | reach_step s s' : reachable s -> lock_step s s' -> reachable s'.

(** ** The order of the keys *)
#[global] Instance key_lt_strict : StrictOrder key_lt.
Proof.
  split.
  - intros k. apply OrdersEx.String_as_OT.lt_strorder.
  - intros k k' k''. apply OrdersEx.String_as_OT.lt_strorder.
Qed.

Lemma str_repr_quote (s : string) : exists q t, str_repr s = String q t /\ is_quote q.
Proof.
  unfold str_repr. set (q := if _ && _ then _ else _).
  assert (is_quote q) by (unfold q; case_match; [by right|by left]).
  simpl. eauto.
Qed.
(** Texts with a known first character. *)
Lemma first_char (c c' : Ascii.ascii) (s s' : string) : String c s = String c' s' -> c = c' /\ s = s'.
Proof. by intros [= -> ->]. Qed.
Lemma same_prefix (p s s' : string) : (p ++ s = p ++ s')%string -> s = s'.
Proof. induction p as [|c p IH]; simpl; [done|]. intros [_ E]%first_char. by apply IH. Qed.
Lemma pair_repr_inj (k k' : Z * string) (t t' : string) :
  pair_repr k t = pair_repr k' t' -> k = k'.
Proof.
  destruct k as [a x], k' as [a' x']. unfold pair_repr. cbn [fst snd]. intros E.
  apply separated_inj in E as [A E]; [|by apply str_Z_no_char..].
  apply str_Z_inj in A as ->. apply (same_prefix " ") in E. by apply str_repr_inj in E as [-> _].
Qed.
Lemma pair_repr_head (k : Z * string) (t : string) :
  exists c s, pair_repr k t = String c s /\ c <> "'"%char.
Proof.
  unfold pair_repr. destruct (str_Z k.1) as [|c s] eqn:E; cbn [String.append]; [by eexists _, _|].
  eexists _, _. split; [done|]. intros ->.
  pose proof (str_Z_no_char "'" k.1 eq_refl ltac:(done)) as N. by rewrite E in N.
Qed.
Lemma str_repr_paren (s t : string) : str_repr s <> String "("%char t.
Proof.
  destruct (str_repr_quote s) as (q & u & -> & [-> | ->]); intros [H _]%first_char; discriminate.
Qed.
Lemma pair_repr_quote (k : Z * string) (t u : string) : pair_repr k t <> String "'"%char u.
Proof. destruct (pair_repr_head k t) as (c & v & -> & N). by intros [H _]%first_char. Qed.
Lemma key_repr_inj (k k' : LockKey) : key_repr k = key_repr k' -> k = k'.
Proof.
  destruct k as [[x|x]|a|x], k' as [[y|y]|b|y]; unfold key_repr; intros E;
    try (by destruct (str_repr_paren _ _ E)); try (by destruct (str_repr_paren _ _ (eq_sym E))).
  - apply (same_prefix "(") in E. by apply pair_repr_inj in E as ->.
  - apply (same_prefix "(") in E. by destruct (pair_repr_quote _ _ _ E).
  - apply (same_prefix "(") in E. by destruct (pair_repr_quote _ _ _ E).
  - pose proof (str_repr_inj x y EmptyString EmptyString) as I. rewrite E in I.
    by destruct I as [-> _].
  - apply (same_prefix "(") in E. by destruct (pair_repr_quote _ _ _ (eq_sym E)).
  - apply (same_prefix "('__margin__', ") in E. by apply str_repr_inj in E as [-> _].
  - apply (same_prefix "('__m") in E. apply first_char in E as [E _]. discriminate.
  - apply (same_prefix "(") in E. by destruct (pair_repr_quote _ _ _ (eq_sym E)).
  - apply (same_prefix "('__m") in E. apply first_char in E as [E _]. discriminate.
  - apply (same_prefix "('__model_value__', ") in E. by apply pair_repr_inj in E as ->.
Qed.
Lemma key_lt_total (k k' : LockKey) : ~ key_lt k k' -> k <> k' -> key_lt k' k.
Proof.
  unfold key_lt, OrdersEx.String_as_OT.lt. intros L N.
  destruct (OrdersEx.String_as_OT.compare_spec (key_repr k) (key_repr k')) as [E|E|E]; [|done|done].
  by apply key_repr_inj in E.
Qed.

Lemma insert_key_perm (k : LockKey) (l : list LockKey) : insert_key k l ≡ₚ k :: l.
Proof.
  induction l as [|k' l IH]; simpl; [done|]. case_bool_decide; [|done].
  rewrite IH. by constructor.
Qed.
Lemma sorted_keys_perm (l : list LockKey) : sorted_keys l ≡ₚ l.
Proof. induction l as [|k l IH]; simpl; [done|]. by rewrite insert_key_perm, IH. Qed.
Lemma insert_key_sorted (k : LockKey) (l : list LockKey) :
  k ∉ l -> StronglySorted key_lt l -> StronglySorted key_lt (insert_key k l).
Proof.
  intros N. induction 1 as [|k' l S IH F]; simpl; [by repeat constructor|].
  apply not_elem_of_cons in N as [N N']. case_bool_decide as L.
  - constructor; [auto|]. rewrite insert_key_perm. by constructor.
  - apply key_lt_total in L; [|done]. constructor; [by constructor|]. constructor; [done|].
    eapply Forall_impl; [exact F|]. intros x. by etrans.
Qed.
Lemma sorted_keys_sorted (l : list LockKey) : NoDup l -> StronglySorted key_lt (sorted_keys l).
Proof.
  induction 1 as [|k l N _ IH]; simpl; [constructor|]. apply insert_key_sorted; [|done].
  by rewrite sorted_keys_perm.
Qed.
(** A list with a transitive irreflexive relation has a maximal element. *)
Lemma maximal_key (l : list LockKey) :
  l <> [] -> exists k, k ∈ l /\ forall k', k' ∈ l -> ~ key_lt k k'.
Proof.
  induction l as [|k l IH]; [done|]. intros _. destruct l as [|k1 l].
  { exists k. split; [by left|]. intros k' ->%list_elem_of_singleton. apply irreflexivity, _. }
  destruct IH as (m & I & M); [done|]. destruct (decide (key_lt m k)) as [L|L].
  - exists k. split; [by left|]. intros k' [->|I']%elem_of_cons; [apply irreflexivity, _|].
    intros L'. apply (M k' I'). by etrans.
  - exists m. split; [by right|]. intros k' [->|I']%elem_of_cons; auto.
Qed.

(** ** The invariant of the locks *)
Record task_ok (t : Task) : Prop := {
  tk_acquiring : t_phase t = Acquiring -> t_held t ++ t_wants t = t_keys t;
  tk_inside : t_phase t = Inside -> t_held t = t_keys t;
  tk_finished : t_phase t = Finished -> t_held t = []
}.
Record locks_ok (s : Tasks) : Prop := {
  lk_tasks i t : s !! i = Some t -> task_ok t /\ NoDup (t_held t);
  lk_exclusive i j t u k : s !! i = Some t -> s !! j = Some u -> k ∈ t_held t -> k ∈ t_held u -> i = j
}.

Lemma moves_ok (s : Tasks) (t t' : Task) : moves s t t' -> task_ok t -> task_ok t'.
Proof.
  intros [u k w P W F|u P W|u P] [A I N].
  - split; unfold take; rewrite W; simpl; [|done..]. intros _. rewrite <- (A P), W.
    by rewrite <- app_assoc.
  - split; simpl; [done| |done]. intros _. by rewrite <- (A P), W, app_nil_r.
  - by split.
Qed.
(** What a move adds to the keys held was free. *)
Lemma moves_held (s : Tasks) (t t' : Task) :
  moves s t t' -> t_keys t' = t_keys t
    /\ (t_held t' = t_held t \/ t_held t' = [] \/ exists k, t_held t' = t_held t ++ [k] /\ ~ holds s k).
Proof.
  intros [u k w P W F|u P W|u P]; simpl; [|auto..]. unfold take. rewrite W. simpl.
  split; [done|]. right. right. eauto.
Qed.
Lemma replace_ok (s : Tasks) (i : nat) (t t' : Task) :
  locks_ok s -> s !! i = Some t -> task_ok t' -> 
  (t_held t' = t_held t \/ t_held t' = [] \/ exists k, t_held t' = t_held t ++ [k] /\ ~ holds s k) ->
  locks_ok (<[i := t']> s).
Proof.
  intros [T X] Hi O H. destruct (T i t Hi) as [_ D].
  assert (D' : NoDup (t_held t')).
  { destruct H as [E|[E|(k & E & F)]]; rewrite E; [done|constructor|].
    apply NoDup_app. split_and!; [done| |by apply NoDup_singleton].
    intros x I ->%list_elem_of_singleton. apply F. by exists i, t. }
  assert (U : forall j u k, j <> i -> s !! j = Some u -> k ∈ t_held t' -> k ∈ t_held u -> False).
  { intros j u k N Hj I I'. destruct H as [E|[E|(k' & E & F)]]; rewrite E in I; [|by inversion I|].
    - apply N. by apply (X j i u t k).
    - apply elem_of_app in I as [I|I]; [|apply list_elem_of_singleton in I as ->; by apply F; exists j, u].
      apply N. by apply (X j i u t k). }
  split.
  - intros j u [(-> & <- & _)|(N & Hj)]%list_lookup_insert_Some; [done|eauto].
  - intros j l u v k [(-> & <- & _)|(N & Hj)]%list_lookup_insert_Some
      [(-> & <- & _)|(N' & Hl)]%list_lookup_insert_Some I I'; [done| | |eauto].
    + by destruct (U l v k).
    + by destruct (U j u k).
Qed.
Lemma start_ok (keys : list LockKey) : task_ok (begin_guard keys).
Proof. by split. Qed.
Lemma step_locks (s s' : Tasks) : lock_step s s' -> locks_ok s -> locks_ok s'.
Proof.
  intros [s'' (i & t & t' & Hi & M & ->)|i t Hi P|keys] O.
  - destruct (lk_tasks s O i t Hi) as [K _].
    eapply replace_ok; eauto using moves_ok. by apply moves_held in M as [_ H].
  - eapply replace_ok; eauto. by split.
  - destruct O as [T X].
    assert (A : forall i t, (s ++ [begin_guard keys]) !! i = Some t -> s !! i = Some t \/ t = begin_guard keys).
    { intros i t [Hi|(_ & Hi)]%lookup_app_Some; [by left|]. right.
      by destruct (i - length s)%nat as [|[|]]; inversion Hi. }
    split.
    + intros i t H. destruct (A i t H) as [Hi|Hi]; [eauto|]. subst t. split; [apply start_ok|constructor].
    + intros i j t u k H H' I I'. destruct (A i t H) as [Hi|Hi]; [|subst t; inversion I].
      destruct (A j u H') as [Hj|Hj]; [eauto|subst u; inversion I'].
Qed.
Lemma reachable_locks (s : Tasks) : reachable s -> locks_ok s.
Proof.
  induction 1 as [|s s' _ IH Hs]; [|by eapply step_locks].
  split; [intros i t H|intros i j t u k H]; by rewrite lookup_nil in H.
Qed.
Lemma advance_reachable (s s' : Tasks) : reachable s -> rtc advance s s' -> reachable s'.
Proof.
  intros R. induction 1 as [|s s1 s' A _ IH]; [done|]. apply IH. eapply reach_step; [done|].
  by apply Advances.
Qed.

(** ** What the guard isolates *)
(** An execution evaluates and books intents of one scope: those the risk
    checks adjust, whose instruments are resolved or whose quantities become
    the fills, keep the account, the strategy, the signal and the symbols. *)
Record same_scope (i j : OrderIntent) : Prop := {
  sc_account : account_id j = account_id i;
  sc_ibkr : ibkr_account j = ibkr_account i;
  sc_strategy : strategy_id j = strategy_id i;
  sc_signal : signal_id j = signal_id i;
  sc_symbols : forall l, l ∈ legs j -> exists l', l' ∈ legs i /\ leg_symbol l' = leg_symbol l
}.
#[global] Instance same_scope_preorder : PreOrder same_scope.
Proof.
  split; [split; eauto|]. intros i j k [A1 B1 C1 D1 S1] [A2 B2 C2 D2 S2].
  split; try congruence. intros l L. destruct (S2 l L) as (l' & L' & E').
  destruct (S1 l' L') as (l'' & L'' & E''). exists l''. split; [done|congruence].
Qed.
(** The ways an execution books its result. *)
Inductive books (i : OrderIntent) (c : RMSContext) : RMSContext -> Prop :=
  | BooksRun now j : same_scope i j -> books i c (update_runtime_state now j c)
  | BooksUnsettled now j orders : same_scope i j -> books i c (record_unsettled_exposure now j orders c).

(** [c'] differs from [c] in buckets the risk checks of [i] do not read. *)
Record unread (i : OrderIntent) (c c' : RMSContext) : Prop := {
  ur_only : c' = with_buckets (buckets c') (margin_commitments c') c;
  ur_exposures : forall l, l ∈ legs i ->
    symbol_exposures c' !! exposure_key i (leg_symbol l) = symbol_exposures c !! exposure_key i (leg_symbol l);
  ur_margin : margin_commitments c' !! account_label (ibkr_account i)
              = margin_commitments c !! account_label (ibkr_account i);
  ur_used : forall k, model_value_key i = Some k -> model_value_used c' !! k = model_value_used c !! k;
  ur_positions : open_positions c' !! open_position_key i = open_positions c !! open_position_key i;
  ur_processed : duplicate_lookup_key i ∈ processed_signals c' <-> duplicate_lookup_key i ∈ processed_signals c
}.

Lemma guard_keys_elem (i : OrderIntent) (k : LockKey) :
  k ∈ guard_keys i <->
    (exists l, l ∈ legs i /\ k = LExposure (exposure_key i (leg_symbol l)))
    \/ (str_empty (opt_str (ibkr_account i)) = false /\ k = LMargin (account_label (ibkr_account i)))
    \/ exists v, model_value_key i = Some v /\ k = LModelValue v.
Proof.
  unfold guard_keys. rewrite !elem_of_app, list_elem_of_fmap. split.
  - intros [(l & -> & L)|[M|M]]; [left; eauto| |].
    + destruct (str_empty _) eqn:E; [by apply not_elem_of_nil in M|].
      apply list_elem_of_singleton in M. auto.
    + destruct (model_value_key i) as [v|]; [|by apply not_elem_of_nil in M].
      apply list_elem_of_singleton in M. eauto.
  - intros [(l & L & ->)|[[E ->]|(v & -> & ->)]].
    + left. eauto.
    + right. left. rewrite E. by left.
    + right. right. by left.
Qed.
Lemma ordered_keys_elem (i : OrderIntent) (k : LockKey) : k ∈ ordered_keys i <-> k ∈ guard_keys i.
Proof. unfold ordered_keys. by rewrite sorted_keys_perm. Qed.

Definition apart (i j : OrderIntent) : Prop := forall k, k ∈ guard_keys i -> k ∉ guard_keys j.
Lemma apart_exposure i j l l' :
  apart i j -> l ∈ legs i -> l' ∈ legs j ->
  exposure_key i (leg_symbol l) <> exposure_key j (leg_symbol l').
Proof.
  intros A L L' E. apply (A (LExposure (exposure_key i (leg_symbol l)))); apply guard_keys_elem; left; [eauto|].
  exists l'. by rewrite E.
Qed.
Lemma apart_value i j k : apart i j -> model_value_key i = Some k -> model_value_key j <> Some k.
Proof.
  intros A Ei Ej. apply (A (LModelValue k)); apply guard_keys_elem; right; right; eauto.
Qed.
Lemma label_empty (s : option string) : str_empty (opt_str s) = true -> account_label s = EmptyString.
Proof. unfold account_label. by destruct (opt_str s). Qed.
Lemma apart_label i j :
  apart i j -> account_label (ibkr_account i) = account_label (ibkr_account j) ->
  account_label (ibkr_account j) = EmptyString.
Proof.
  intros A E. destruct (str_empty (opt_str (ibkr_account j))) eqn:Ej; [by apply label_empty|].
  destruct (str_empty (opt_str (ibkr_account i))) eqn:Ei; [rewrite <- E; by apply label_empty|].
  destruct (A (LMargin (account_label (ibkr_account i)))); apply guard_keys_elem; right; left; [done|].
  by rewrite E.
Qed.

(** *** What a booking writes *)
Lemma book_legs_other (j : OrderIntent) (opening : bool) (l : list OrderLeg) (m : gmap acct_key Q) (k : acct_key) :
  (forall x, x ∈ l -> exposure_key j (leg_symbol x) <> k) -> fold_left (book_leg j opening) l m !! k = m !! k.
Proof.
  revert m. induction l as [|x l IH]; intros m H; simpl; [done|]. rewrite IH by (intros; apply H; by right).
  unfold book_leg, bump, drain. destruct opening; by rewrite lookup_insert_ne by (apply H; left).
Qed.
Lemma commit_margin_other (now : Z) (j : OrderIntent) (opening : bool) (c : RMSContext) (a : string) :
  account_label (ibkr_account j) <> a \/ account_label (ibkr_account j) = EmptyString ->
  margin_commitments (commit_margin now j opening c) !! a = margin_commitments c !! a.
Proof.
  intros H. unfold commit_margin. destruct (str_empty _) eqn:E; [done|]. destruct (_ <=? 0)%Q; [done|].
  simpl. rewrite lookup_insert_ne; [done|]. destruct H as [H|H]; [done|by rewrite H in E].
Qed.
Lemma commit_margin_only (now : Z) (j : OrderIntent) (opening : bool) (c : RMSContext) :
  exists m, commit_margin now j opening c = with_buckets (buckets c) m c.
Proof.
  assert (H : exists m, c = with_buckets (buckets c) m c) by (exists (margin_commitments c); by destruct c).
  unfold commit_margin. destruct (str_empty _); [done|]. destruct (_ <=? 0)%Q; [done|]. by eexists.
Qed.
Lemma book_value_other (j : OrderIntent) (opening : bool) (v : Q) (m : gmap (Z * string) Q) (k : Z * string) :
  model_value_key j <> Some k -> book_value j opening v m !! k = m !! k.
Proof.
  unfold book_value, bump, drain. intros H. destruct (model_value_key j) as [k'|]; [|done].
  destruct opening; rewrite lookup_insert_ne; congruence.
Qed.
Lemma scope_keys i j : same_scope i j -> forall s, exposure_key j s = exposure_key i s.
Proof. intros [A _ _ _ _] s. unfold exposure_key. by rewrite A. Qed.
Lemma scope_value i j : same_scope i j -> model_value_key j = model_value_key i.
Proof. intros [A _ S _ _]. unfold model_value_key. by rewrite A, S. Qed.
Lemma scope_position i j : same_scope i j -> open_position_key j = open_position_key i.
Proof. intros [A _ S _ _]. unfold open_position_key. by rewrite A, S. Qed.
Lemma scope_duplicate i j : same_scope i j -> duplicate_lookup_key j = duplicate_lookup_key i.
Proof. intros [A _ S G _]. unfold duplicate_lookup_key. by rewrite A, S, G. Qed.
Lemma scope_filled j orders l : l ∈ legs (intent_with_fills j orders) ->
  exists l', l' ∈ legs j /\ leg_symbol l' = leg_symbol l.
Proof.
  unfold intent_with_fills. simpl. intros ((z & l') & -> & L)%list_elem_of_fmap.
  assert (H : forall (x : list OrderLeg) n, (z, l') ∈ enumerate_from n x -> l' ∈ x).
  { induction x as [|y x IH]; intros n H; simpl in H; [by apply not_elem_of_nil in H|].
    apply elem_of_cons in H as [[= _ <-]|H]; [by left|right; by eapply IH]. }
  exists l'. split; [by eapply H|]. unfold filled_leg. case_match; [done|]. by case_match.
Qed.
Lemma filled_scope i j orders : same_scope i j -> same_scope i (intent_with_fills j orders).
Proof.
  intros S. transitivity j; [done|]. split; try done. intros l L. by eapply scope_filled.
Qed.

(** A booking of [j] is not read by the checks of [i] when the two are apart:
    with an account, the lock of its strategy's budget covers the count of its
    positions and its signals too. *)
Lemma apart_position i j :
  apart i j -> is_Some (account_id i) -> open_position_key j <> open_position_key i.
Proof.
  intros A [a Ha]. unfold open_position_key. rewrite Ha. destruct (account_id j) as [b|] eqn:Hb; [|done].
  intros [= -> E]. apply (apart_value i j (a, normalize_strategy_id (JStr (strategy_id i))) A).
  - unfold model_value_key. by rewrite Ha.
  - unfold model_value_key. by rewrite Hb, E.
Qed.
Lemma apart_duplicate i j :
  apart i j -> is_Some (account_id i) -> duplicate_lookup_key j <> duplicate_lookup_key i.
Proof.
  intros A [a Ha]. unfold duplicate_lookup_key. rewrite Ha. destruct (account_id j) as [b|] eqn:Hb; [|done].
  intros [= -> E _]. apply (apart_value i j (a, normalize_strategy_id (JStr (strategy_id i))) A).
  - unfold model_value_key. by rewrite Ha.
  - unfold model_value_key. by rewrite Hb, E.
Qed.
Lemma books_unread i j c c' : apart i j -> is_Some (account_id i) -> books j c c' -> unread i c c'.
Proof.
  intros A Ha B.
  assert (Hm : forall k, same_scope j k -> account_label (ibkr_account k) <> account_label (ibkr_account i)
            \/ account_label (ibkr_account k) = EmptyString).
  { intros k [_ -> _ _ _]. destruct (decide (account_label (ibkr_account j) = account_label (ibkr_account i))) as [E|];
      [|by left]. right. by eapply apart_label. }
  assert (Hx : forall k o ls m l, same_scope j k -> l ∈ legs i -> (forall x, x ∈ ls -> x ∈ legs k) ->
            fold_left (book_leg k o) ls m !! exposure_key i (leg_symbol l) = m !! exposure_key i (leg_symbol l)).
  { intros k o ls m l S L Sub. apply book_legs_other. intros x Hx E.
    destruct (sc_symbols _ _ S x (Sub x Hx)) as (x' & Hx' & Es).
    rewrite (scope_keys _ _ S), <- Es in E. by apply (apart_exposure i j l x' A L Hx'). }
  destruct B as [now k S|now k orders S].
  - unfold update_runtime_state. destruct (commit_margin_only now k (bool_decide (action k = OPEN))
      (set_buckets {|
        bu_processed := if bool_decide (action k = OPEN) then {[ duplicate_lookup_key k ]} ∪ processed_signals c
                        else processed_signals c;
        bu_positions := if bool_decide (action k = OPEN) then count_up (open_position_key k) 1 (open_positions c)
                        else count_down (open_position_key k) 1 (open_positions c);
        bu_exposures := fold_left (book_leg k (bool_decide (action k = OPEN))) (legs k) (symbol_exposures c);
        bu_used := book_value k (bool_decide (action k = OPEN)) (intent_market_value k) (model_value_used c) |} c))
      as (m & E).
    split.
    + rewrite E. done.
    + intros l L. rewrite E. simpl. by apply Hx.
    + rewrite commit_margin_other by by apply Hm. done.
    + intros v V. rewrite E. simpl. apply book_value_other. rewrite (scope_value _ _ S). by eapply apart_value.
    + rewrite E. simpl. pose proof (apart_position i j A Ha) as N. rewrite <- (scope_position _ _ S) in N.
      unfold count_up, count_down. case_bool_decide; by rewrite lookup_insert_ne.
    + rewrite E. simpl. pose proof (apart_duplicate i j A Ha) as N. rewrite <- (scope_duplicate _ _ S) in N.
      case_bool_decide; [set_solver|done].
  - unfold record_unsettled_exposure. destruct orders as [|o os]; [by split; [by destruct c|..]|].
    set (f := intent_with_fills k (o :: os)). pose proof (filled_scope _ _ (o :: os) S) as Sf. fold f in Sf.
    set (ls := List.filter _ (legs f)).
    assert (Sub : forall x, x ∈ ls -> x ∈ legs f).
    { intros x Hl. apply list_elem_of_In, List.filter_In in Hl as [Hl _]. by apply list_elem_of_In. }
    match goal with |- context [commit_margin now f ?op ?c0] =>
      destruct (commit_margin_only now f op c0) as (m & E); set (c1 := commit_margin now f op c0) in *;
      assert (Hc : margin_commitments c1 !! account_label (ibkr_account i)
                   = margin_commitments c !! account_label (ibkr_account i))
        by (unfold c1; by rewrite commit_margin_other by by apply Hm) end.
    clearbody c1. subst c1. simpl in Hc. split; try done.
    + intros l L. simpl.
      transitivity (fold_left (book_leg k (bool_decide (action k = OPEN))) ls (symbol_exposures c)
                      !! exposure_key i (leg_symbol l)); [done|].
      apply book_legs_other. intros x Hl E. destruct (sc_symbols _ _ Sf x (Sub x Hl)) as (x' & Hx' & Es).
      rewrite (scope_keys _ _ S), <- Es in E. by apply (apart_exposure i j l x' A L Hx').
    + intros v V. simpl. destruct (0 <? _)%Q; [|done]. apply book_value_other.
      rewrite (scope_value _ _ S). by eapply apart_value.
Qed.

(** *** What the checks read *)
Lemma symbol_keys (i : OrderIntent) (s : string) : exposure_key i (normalize_symbol (JStr s)) = exposure_key i s.
Proof. unfold exposure_key, normalize_symbol. simpl. by rewrite !upper_strip_idemp. Qed.
Lemma notionals_symbols (ls : list OrderLeg) (d : string * Q) :
  d ∈ symbol_order_notionals ls -> exists l, l ∈ ls /\ d.1 = normalize_symbol (JStr (leg_symbol l)).
Proof.
  unfold symbol_order_notionals.
  assert (Hadd : forall k x (m : list (string * Q)) d, d ∈ dict_add k x m -> d.1 = k \/ exists d', d' ∈ m /\ d'.1 = d.1).
  { intros k x m. induction m as [|[k' y] m IH]; intros e; cbn [dict_add].
    - intros ->%list_elem_of_singleton. by left.
    - destruct (String.eqb_spec k' k) as [->|N].
      + intros [->|H]%elem_of_cons; [by left|right]. exists e. split; [by right|done].
      + intros [->|H]%elem_of_cons; [right; eexists; split; [by left|done]|].
        destruct (IH e H) as [?|(d' & ? & ?)]; [by left|right]. exists d'. split; [by right|done]. }
  assert (G : forall ls acc d, d ∈ fold_left (fun d leg =>
            dict_add (normalize_symbol (JStr (leg_symbol leg))) (effective_notional leg) d) ls acc ->
          (exists d', d' ∈ acc /\ d'.1 = d.1) \/ exists l, l ∈ ls /\ d.1 = normalize_symbol (JStr (leg_symbol l))).
  { induction ls0 as [|l ls0 IH]; intros acc e H; cbn [fold_left] in H; [left; eauto|].
    destruct (IH _ _ H) as [(d' & H' & E)|(l' & L & E)].
    - destruct (Hadd _ _ _ _ H') as [E'|(d'' & H'' & E'')]; [right|left].
      + exists l. split; [by left|congruence].
      + exists d''. split; [done|congruence].
    - right. exists l'. split; [by right|done]. }
  intros H. destruct (G ls [] d H) as [(d' & H' & _)|]; [by apply not_elem_of_nil in H'|done].
Qed.

Section Read.
Variables (i : OrderIntent) (c c' : RMSContext).
Hypothesis U : unread i c c'.

Ltac fields := rewrite (ur_only _ _ _ U); cbn [with_buckets strategy_configs per_symbol_limits
  default_symbol_limits account_open_limits model_value_limit market_value_check_enabled margin_snapshots
  margin_rates margin_rate_sources margin_policy current_time rollover_window_days target_rollover_month
  rollover_checker buckets margin_commitments model_value_used symbol_exposures open_positions
  processed_signals bu_processed bu_positions bu_exposures bu_used].

Lemma margin_read now : margin_evaluate now i c' = margin_evaluate now i c.
Proof.
  pose proof (ur_margin _ _ _ U) as M. unfold account_label in M. unfold margin_evaluate. fields. by rewrite M.
Qed.
Lemma duplicate_read : duplicate_evaluate i c' = duplicate_evaluate i c.
Proof.
  unfold duplicate_evaluate. rewrite (bool_decide_ext _ _ (ur_processed _ _ _ U)). done.
Qed.
Lemma strategy_read : strategy_evaluate i c' = strategy_evaluate i c.
Proof. unfold strategy_evaluate. by fields. Qed.
Lemma contract_read : contract_month_evaluate i c' = contract_month_evaluate i c.
Proof. unfold contract_month_evaluate, should_rollover. by fields. Qed.
Lemma position_read : position_limit_evaluate i c' = position_limit_evaluate i c.
Proof.
  pose proof (ur_positions _ _ _ U) as P. unfold position_limit_evaluate, position_cap. rewrite P. by fields.
Qed.
Lemma money_read : money_evaluate i c' = money_evaluate i c.
Proof.
  unfold money_evaluate. destruct (reduces i); [done|].
  assert (H : forall d, (forall e, e ∈ d -> exists l, l ∈ legs i /\ e.1 = normalize_symbol (JStr (leg_symbol l))) ->
            money_loop i c' d = money_loop i c d).
  { induction d as [|[s x] d IH]; intros Hd; cbn [money_loop]; [done|].
    destruct (Hd (s, x)) as (l & L & Es); [by left|]. cbn [fst] in Es.
    assert (Ex : symbol_exposures c' !! exposure_key i s = symbol_exposures c !! exposure_key i s)
      by (rewrite Es, symbol_keys; by apply (ur_exposures _ _ _ U)).
    rewrite Ex, IH by (intros e He; apply Hd; by right).
    assert (El : symbol_limit i c' s = symbol_limit i c s) by (unfold symbol_limit; by fields). by rewrite El. }
  apply H. intros e He. by apply notionals_symbols.
Qed.
Lemma value_read : market_value_evaluate i c' = market_value_evaluate i c.
Proof.
  unfold market_value_evaluate. pose proof (ur_used _ _ _ U) as V.
  destruct (model_value_key i) as [k|]; [rewrite (V k eq_refl)|]; by fields.
Qed.
Lemma gate_read now fetch :
  (assert_account_has_free_margin now fetch (ibkr_account i) c').2
  = (assert_account_has_free_margin now fetch (ibkr_account i) c).2.
Proof.
  pose proof (ur_margin _ _ _ U) as M. unfold assert_account_has_free_margin. destruct fetch; [|done].
  rewrite M. fields. by case_match.
Qed.
End Read.

(** The checks keep the scope. *)
Lemma unread_scope i j c c' : same_scope i j -> unread i c c' -> unread j c c'.
Proof.
  intros S [O X M V P D]. split; [done|..].
  - intros l L. destruct (sc_symbols _ _ S l L) as (l' & L' & <-). rewrite (scope_keys _ _ S). by apply X.
  - by rewrite (sc_ibkr _ _ S).
  - intros k. rewrite (scope_value _ _ S). apply V.
  - by rewrite (scope_position _ _ S).
  - by rewrite (scope_duplicate _ _ S).
Qed.
Lemma month_scope i c r : contract_month_evaluate i c = Ok r -> same_scope i (next_intent r i).
Proof.
  intros H. destruct (contract_month_next i c r H) as [->|(m & ->)]; [done|].
  split; try done. simpl. intros l (l' & -> & L)%list_elem_of_fmap. by exists l'.
Qed.
Lemma evaluate_read now i c c' :
  unread i c c' -> evaluate (get_default_checks now) i c' = evaluate (get_default_checks now) i c.
Proof.
  intros U. unfold evaluate, get_default_checks.
  assert (Step : forall ck cs o j audit, bc_evaluate ck j c' = bc_evaluate ck j c ->
    (forall r audit, bc_evaluate ck j c = Ok r ->
       run_checks cs o (next_intent r j) c' audit = run_checks cs o (next_intent r j) c audit) ->
    run_checks (ck :: cs) o j c' audit = run_checks (ck :: cs) o j c audit).
  { intros ck cs o j audit E H. simpl. rewrite E. destruct (bc_evaluate ck j c) as [r|] eqn:Er; [|done].
    simpl. case_match; [done|]. by apply H. }
  apply Step; [simpl; by rewrite (margin_read i c c')|]. intros r1 a1 [= <-].
  rewrite no_adjust_next by apply margin_no_adjust.
  apply Step; [simpl; by rewrite (duplicate_read i c c')|]. intros r2 a2 [= <-].
  rewrite no_adjust_next by apply duplicate_no_adjust.
  apply Step; [simpl; by rewrite (strategy_read i c c')|]. intros r3 a3 [= <-].
  rewrite no_adjust_next by apply strategy_no_adjust.
  apply Step; [simpl; by rewrite (contract_read i c c')|]. intros r4 a4 H4.
  pose proof (unread_scope _ _ _ _ (month_scope _ _ _ H4) U) as U4. set (j := next_intent r4 i) in *.
  apply Step; [simpl; by rewrite (position_read j c c')|]. intros r5 a5 [= <-].
  rewrite no_adjust_next by apply position_no_adjust.
  apply Step; [simpl; by rewrite (money_read j c c')|]. intros r6 a6 [= <-].
  rewrite no_adjust_next by apply money_no_adjust.
  apply Step; [simpl; by rewrite (value_read j c c')|]. done.
Qed.

(** C22: Two executions that are inside the guard at the same time do not
    disturb each other's risk checks: whatever one of them books -- a completed
    basket, or the fills of one that did not settle -- all the default checks
    and the free-margin gate give the other one, an intent with an account, the
    verdict they would have given without it.  (An intent without an account
    takes no lock for the count of its strategy's positions.) *)
Theorem guard_excludes (s : Tasks) (n m : nat) (t u : Task) (i j : OrderIntent) (now : Z)
    (fetch : option (string -> option AccountMarginSnapshot)) (c c' : RMSContext) :
  reachable s -> s !! n = Some t -> s !! m = Some u -> n <> m ->
  t_phase t = Inside -> t_phase u = Inside ->
  t_keys t = ordered_keys i -> t_keys u = ordered_keys j -> is_Some (account_id i) -> books j c c' ->
  evaluate (get_default_checks now) i c' = evaluate (get_default_checks now) i c
  /\ (assert_account_has_free_margin now fetch (ibkr_account i) c').2
     = (assert_account_has_free_margin now fetch (ibkr_account i) c).2.
Proof.
  intros R Hi Hj N P P' Ki Kj Ha B. destruct (reachable_locks s R) as [T X].
  destruct (T n t Hi) as [[_ A _] _]. destruct (T m u Hj) as [[_ A' _] _].
  assert (Ap : apart i j).
  { intros k I I'. apply N. eapply (X n m t u k); [done..| |].
    - rewrite A, Ki by done. by apply ordered_keys_elem.
    - rewrite A', Kj by done. by apply ordered_keys_elem. }
  pose proof (books_unread _ _ _ _ Ap Ha B) as U. split; [by apply evaluate_read|by apply gate_read].
Qed.

(** ** Progress *)
Definition orderly (t : Task) : Prop :=
  exists intent, t_keys t = ordered_keys intent /\ NoDup (guard_keys intent).
Definition all_finished (s : Tasks) : Prop := Forall (fun t => t_phase t = Finished) s.

#[global] Instance holds_dec (s : Tasks) (k : LockKey) : Decision (holds s k).
Proof.
  destruct (decide (Exists (fun t => k ∈ t_held t) s)) as [H|H].
  - left. apply Exists_exists in H as (t & [i Hi]%list_elem_of_lookup & I). by exists i, t.
  - right. intros (i & t & Hi & I). apply H, Exists_exists. exists t. split; [|done].
    by apply list_elem_of_lookup_2 in Hi.
Defined.

(** The key each acquiring execution waits for. *)
Definition awaited (t : Task) : option LockKey :=
  match t_phase t with Acquiring => head (t_wants t) | _ => None end.
Lemma blocked_all (s : Tasks) (i : nat) (t : Task) :
  (forall s', ~ advance s s') -> s !! i = Some t -> t_phase t <> Finished ->
  exists k, awaited t = Some k /\ holds s k.
Proof.
  intros B Hi F. unfold awaited. destruct (t_phase t) eqn:P; [|exfalso|done].
  - destruct (t_wants t) as [|k w] eqn:W.
    + exfalso. eapply B. exists i, t, (enter t). split_and!; [done|by constructor|done].
    + exists k. split; [done|]. destruct (decide (holds s k)) as [H|H]; [done|].
      exfalso. eapply B. exists i, t, (take t). split_and!; [done| |done]. by econstructor.
  - eapply B. exists i, t, (leave t). split_and!; [done|by constructor|done].
Qed.
Lemma orderly_sorted (t : Task) : orderly t -> StronglySorted key_lt (t_keys t).
Proof. intros (i & -> & D). by apply sorted_keys_sorted. Qed.
(** A holder waits for something above what it holds. *)
Lemma awaited_above (t : Task) (k k' : LockKey) :
  task_ok t -> orderly t -> awaited t = Some k' -> k ∈ t_held t -> key_lt k k'.
Proof.
  intros [A _ _] S%orderly_sorted W I. unfold awaited in W. destruct (t_phase t); [|done..].
  rewrite <- A in S by done. destruct (t_wants t) as [|x w]; [done|]. injection W as ->.
  apply StronglySorted_app in S as (S & _ & _). apply S; [done|by left].
Qed.
Lemma no_deadlock (s : Tasks) :
  locks_ok s -> Forall orderly s -> (forall s', ~ advance s s') -> all_finished s.
Proof.
  intros O F B. rewrite Forall_forall in F.
  assert (E : omap awaited s = []).
  { destruct (decide (omap awaited s = [])) as [E|E]; [done|].
    apply maximal_key in E as (k & (t & It & W)%list_elem_of_omap & M).
    assert (Pt : t_phase t <> Finished) by (intros P; unfold awaited in W; by rewrite P in W).
    apply list_elem_of_lookup in It as (i & Hi).
    destruct (blocked_all s i t B Hi Pt) as (k1 & W1 & j & u & Hj & I). simplify_eq.
    destruct (lk_tasks s O j u Hj) as [K _].
    assert (Pu : t_phase u <> Finished) by (intros P; rewrite (tk_finished u K P) in I; inversion I).
    destruct (blocked_all s j u B Hj Pu) as (k2 & W2 & _).
    assert (L : key_lt k k2)
      by (eapply awaited_above; eauto using list_elem_of_lookup_2).
    exfalso. apply (M k2); [|done]. apply list_elem_of_omap. exists u. split; [|done].
    by apply list_elem_of_lookup_2 in Hj. }
  apply Forall_lookup. intros i t Hi. destruct (decide (t_phase t = Finished)) as [P|P]; [done|].
  destruct (blocked_all s i t B Hi P) as (k & W & _). exfalso.
  assert (I : k ∈ omap awaited s)
    by (apply list_elem_of_omap; exists t; split; [by apply list_elem_of_lookup_2 in Hi|done]).
  rewrite E in I. inversion I.
Qed.

(** The steps an execution has ahead of it. *)
Definition work (t : Task) : nat :=
  match t_phase t with Acquiring => 2 + length (t_wants t) | Inside => 1 | Finished => 0 end.
Definition total_work (s : Tasks) : nat := sum_list_with work s.
Lemma moves_work (s : Tasks) (t t' : Task) : moves s t t' -> S (work t') = work t.
Proof.
  intros [u k w P W F|u P W|u P]; unfold work, take, enter, leave; rewrite ?W, ?P; simpl; rewrite ?W; done.
Qed.
Lemma sum_insert (s : Tasks) (i : nat) (t t' : Task) :
  s !! i = Some t -> (total_work (<[i := t']> s) + work t = total_work s + work t')%nat.
Proof.
  unfold total_work. revert i. induction s as [|x s IH]; intros [|i] H; simpl; [done..| |].
  - injection H as ->. lia.
  - simpl in H. apply IH in H. lia.
Qed.
Lemma advance_work (s s' : Tasks) : advance s s' -> S (total_work s') = total_work s.
Proof.
  intros (i & t & t' & Hi & M & ->). apply moves_work in M.
  pose proof (sum_insert s i t t' Hi). lia.
Qed.
Lemma advances_work (s s' : Tasks) (n : nat) :
  nsteps advance n s s' -> (n + total_work s' = total_work s)%nat.
Proof. induction 1 as [|n s s1 s' A _ IH]; [done|]. apply advance_work in A. lia. Qed.
Lemma advance_orderly (s s' : Tasks) : advance s s' -> Forall orderly s -> Forall orderly s'.
Proof.
  intros (i & t & t' & Hi & M & ->) F. apply Forall_insert; [done|].
  apply moves_held in M as [K _]. rewrite Forall_lookup in F. unfold orderly in *. rewrite K. eauto.
Qed.
Lemma advances_orderly (s s' : Tasks) : rtc advance s s' -> Forall orderly s -> Forall orderly s'.
Proof. induction 1; eauto using advance_orderly. Qed.

(** C8: Executions whose keys are distinct never block one another for ever:
    from any reachable state every sequence of steps, in any interleaving, is
    bounded by the work left, and where it cannot go on every execution has
    left the guard. *)
Theorem guard_live (s s' : Tasks) (n : nat) :
  reachable s -> Forall orderly s -> nsteps advance n s s' ->
  (n <= total_work s)%nat /\ ((forall s'', ~ advance s' s'') -> all_finished s').
Proof.
  intros R F H. split; [apply advances_work in H; lia|]. intros B.
  assert (C : rtc advance s s') by (by apply rtc_nsteps; exists n).
  apply no_deadlock; [|by eapply advances_orderly|done].
  by apply reachable_locks, (advance_reachable s).
Qed.

(** ** The guard against itself *)
Lemma self_blocked_stays (s s' : Tasks) (i : nat) (t : Task) (k : LockKey) :
  advance s s' -> s !! i = Some t -> awaited t = Some k -> k ∈ t_held t -> s' !! i = Some t.
Proof.
  intros (j & u & u' & Hj & M & ->) Hi W I. destruct (decide (i = j)) as [->|N].
  - exfalso. simplify_eq. unfold awaited in W.
    destruct M as [u k1 w P E F|u P E|u P]; rewrite P in W; [|rewrite E in W|]; simplify_eq/=.
    rewrite E in W. simplify_eq/=. apply F. by exists j, u.
  - by rewrite list_lookup_insert_ne.
Qed.

(** Steps without a cancellation. *)
Definition goes (s s' : Tasks) : Prop := advance s s' \/ exists keys, s' = s ++ [begin_guard keys].
Lemma goes_step (s s' : Tasks) : goes s s' -> lock_step s s'.
Proof. intros [A|(keys & ->)]; [by apply Advances|apply Arrives]. Qed.
Lemma goes_reachable (s s' : Tasks) : reachable s -> rtc goes s s' -> reachable s'.
Proof.
  intros R. induction 1 as [|s s1 s' G _ IH]; [done|]. apply IH. eapply reach_step; eauto using goes_step.
Qed.
Lemma self_blocked_forever (s s' : Tasks) (i : nat) (t : Task) (k : LockKey) :
  rtc goes s s' -> s !! i = Some t -> awaited t = Some k -> k ∈ t_held t -> s' !! i = Some t.
Proof.
  induction 1 as [|s s1 s' [A|(keys & ->)] _ IH]; intros Hi W I; [done| |]; apply IH; try done.
  - by eapply self_blocked_stays.
  - by apply lookup_app_l_Some.
Qed.

(** An intent with two legs of one symbol asks twice for the same lock.  It
    never gets inside the guard; and when it has come to the second request it
    waits for itself for ever, unless it is cancelled, and no execution that
    needs a lock it holds gets inside either: the margin lock of the account
    among them, which sorts first. *)
Theorem same_symbol_freezes (s : Tasks) (n : nat) (t : Task) (i : OrderIntent) :
  reachable s -> s !! n = Some t -> t_keys t = ordered_keys i -> ~ NoDup (guard_keys i) ->
  t_phase t <> Inside
  /\ forall k s', awaited t = Some k -> k ∈ t_held t -> rtc goes s s' ->
       s' !! n = Some t
       /\ forall m u k', m <> n -> s' !! m = Some u -> k' ∈ t_held t -> k' ∈ t_keys u ->
            t_phase u <> Inside.
Proof.
  intros R Hn K D. split.
  - intros P. destruct (lk_tasks s (reachable_locks s R) n t Hn) as [T N].
    rewrite (tk_inside t T P), K in N. apply D. by rewrite <- (sorted_keys_perm (guard_keys i)).
  - intros k s' W I G. assert (Hn' : s' !! n = Some t) by (by eapply self_blocked_forever).
    split; [done|]. intros m u k' N Hm I' J P.
    assert (O : locks_ok s') by (apply reachable_locks; by eapply goes_reachable).
    destruct (lk_tasks s' O m u Hm) as [T _]. rewrite <- (tk_inside u T P) in J.
    apply N. by eapply (lk_exclusive s' O m n).
Qed.

(** ** Running a schedule *)
Definition try_advance (i : nat) (s : Tasks) : option Tasks :=
  t ← s !! i;
  match t_phase t with
  | Acquiring =>
      match t_wants t with
      | [] => Some (<[i := enter t]> s)
      | k :: _ => if bool_decide (holds s k) then None else Some (<[i := take t]> s)
      end
  | Inside => Some (<[i := leave t]> s)
  | Finished => None
  end.
Lemma try_advance_sound (i : nat) (s s' : Tasks) : try_advance i s = Some s' -> advance s s'.
Proof.
  unfold try_advance. destruct (s !! i) as [t|] eqn:Hi; simpl; [|done].
  destruct (t_phase t) eqn:P; [destruct (t_wants t) as [|k w] eqn:W; [|case_bool_decide]| |];
    intros [= <-]; (eexists i, t, _; split_and!; [done| |done]).
  - by apply Enters.
  - by eapply Takes.
  - by apply Leaves.
Qed.
Fixpoint run_schedule (l : list nat) (s : Tasks) : option Tasks :=
  match l with [] => Some s | i :: l => s ← try_advance i s; run_schedule l s end.
Lemma run_schedule_sound (l : list nat) (s s' : Tasks) :
  run_schedule l s = Some s' -> rtc advance s s'.
Proof.
  revert s. induction l as [|i l IH]; simpl; intros s; [by intros [= ->]|].
  destruct (try_advance i s) as [s1|] eqn:E; simpl; [|done]. intros H.
  eapply rtc_l; [by eapply try_advance_sound|auto].
Qed.
Lemma reachable_starts (l : list (list LockKey)) : reachable (map begin_guard l).
Proof.
  induction l as [|keys l IH] using rev_ind; [constructor|]. rewrite map_app. simpl.
  eapply reach_step; [done|]. apply Arrives.
Qed.
Lemma run_reachable (l : list (list LockKey)) (sched : list nat) (s : Tasks) :
  run_schedule sched (map begin_guard l) = Some s -> reachable s.
Proof.
  intros H%run_schedule_sound. by eapply advance_reachable, H; first apply reachable_starts.
Qed.

(** ** Examples: an alert naming one symbol twice, and the intents of two
    accounts *)
Definition ex_twin_alert : list (string * json) :=
  render_open "T1" "SMART" 1 (ex_ld "SPY" (1 # 2) 500) (ex_ld "SPY" (- (1 # 2)) 400).
Definition ex_pair_alert : list (string * json) :=
  render_open "T2" "SMART" 1 (ex_ld "SPY" (1 # 2) 500) (ex_ld "QQQ" (- (1 # 2)) 400).
Definition ex_build (alert : list (string * json)) : result OrderIntent :=
  rbind (parse_model_blue_payload alert 0 "r" None)
    (fun s => build_intent unit ex_strategy s (Some ex_account) (∅ : InMemory.Book)).
Definition ex_intent_of (alert : list (string * json)) : OrderIntent :=
  match ex_build alert with Ok i => i | Raise _ => ex_open_intent end.
Definition ex_twin : OrderIntent := ex_intent_of ex_twin_alert.
Definition ex_pair : OrderIntent := ex_intent_of ex_pair_alert.
Example ex_twin_sized : is_ok (ex_build ex_twin_alert) = true.
Proof. by vm_compute. Qed.
Example ex_twin_keys : ordered_keys ex_twin
  = [LMargin "DU7"; LModelValue (7, "model_blue"%string);
     LExposure (inl (7, "SPY"%string)); LExposure (inl (7, "SPY"%string))].
Proof. by vm_compute. Qed.
Definition ex_tasks : list (list LockKey) := [ordered_keys ex_twin; ordered_keys ex_pair].
(** The twin alert takes three locks; the pair starts, finishes nothing. *)
Definition ex_frozen : Tasks := default [] (run_schedule [0; 0; 0]%nat (map begin_guard ex_tasks)).
Lemma ex_twin_not_distinct : ~ NoDup (guard_keys ex_twin).
Proof. apply (bool_decide_eq_false_1 (NoDup (guard_keys ex_twin))). by vm_compute. Qed.
Lemma ex_pair_distinct : NoDup (guard_keys ex_pair).
Proof. apply (bool_decide_eq_true_1 (NoDup (guard_keys ex_pair))). by vm_compute. Qed.
Lemma ex_frozen_reachable : reachable ex_frozen.
Proof. apply (run_reachable ex_tasks [0; 0; 0]%nat). by vm_compute. Qed.
Lemma ex_orderly (i : OrderIntent) : NoDup (guard_keys i) -> orderly (begin_guard (ordered_keys i)).
Proof. intros D. by exists i. Qed.

Lemma same_symbol_freezes_witness :
  exists t u, ex_frozen !! 0%nat = Some t /\ ex_frozen !! 1%nat = Some u
    /\ awaited t = Some (LExposure (inl (7, "SPY"%string)))
    /\ forall s', rtc goes ex_frozen s' -> s' !! 0%nat = Some t
         /\ forall m v, m <> 0%nat -> s' !! m = Some v -> LMargin "DU7" ∈ t_keys v -> t_phase v <> Inside.
Proof.
  destruct (ex_frozen !! 0%nat) as [t|] eqn:E; [|vm_compute in E; discriminate].
  destruct (ex_frozen !! 1%nat) as [u|] eqn:F; [|vm_compute in F; discriminate].
  exists t, u. split; [reflexivity|]. split; [reflexivity|].
  assert (K : t_keys t = ordered_keys ex_twin) by (vm_compute in E; injection E as <-; by vm_compute).
  assert (W : awaited t = Some (LExposure (inl (7, "SPY"%string))))
    by (vm_compute in E; injection E as <-; by vm_compute).
  assert (I : LExposure (inl (7, "SPY"%string)) ∈ t_held t /\ LMargin "DU7" ∈ t_held t)
    by (vm_compute in E; injection E as <-; split; apply (bool_decide_eq_true_1 _); by vm_compute).
  split; [exact W|]. intros s' G.
  destruct (same_symbol_freezes ex_frozen 0 t ex_twin ex_frozen_reachable E K ex_twin_not_distinct)
    as [_ H].
  destruct (H _ s' W (proj1 I) G) as [H1 H2]. split; [exact H1|].
  intros m v N Hm J. exact (H2 m v _ N Hm (proj2 I) J).
Defined.

(** Two executions of the pair. *)
Definition ex_two : Tasks := map begin_guard [ordered_keys ex_pair; ordered_keys ex_pair].
Lemma guard_live_witness :
  (0 <= total_work ex_two)%nat /\ ((forall s'', ~ advance ex_two s'') -> all_finished ex_two).
Proof.
  apply (guard_live ex_two ex_two 0).
  - apply (reachable_starts [ordered_keys ex_pair; ordered_keys ex_pair]).
  - repeat constructor; apply ex_orderly, ex_pair_distinct.
  - constructor.
Defined.

(** The pair and the same for another account, both inside. *)
Definition ex_other : OrderIntent := {|
  signal_id := signal_id ex_pair; strategy_id := strategy_id ex_pair; action := action ex_pair;
  legs := legs ex_pair; account_id := Some 8; ibkr_account := Some "DU8"%string; market := market ex_pair;
  timestamp := timestamp ex_pair; intent_mode := intent_mode ex_pair |}.
Definition ex_apart : Tasks :=
  default [] (run_schedule [0; 0; 0; 0; 0; 1; 1; 1; 1; 1]%nat
                (map begin_guard [ordered_keys ex_pair; ordered_keys ex_other])).
Lemma guard_excludes_witness :
  exists t u, ex_apart !! 0%nat = Some t /\ ex_apart !! 1%nat = Some u
    /\ t_phase t = Inside /\ t_phase u = Inside
    /\ evaluate (get_default_checks 0) ex_pair (update_runtime_state 0 ex_other ex_context)
       = evaluate (get_default_checks 0) ex_pair ex_context.
Proof.
  destruct (ex_apart !! 0%nat) as [t|] eqn:E; [|vm_compute in E; discriminate].
  destruct (ex_apart !! 1%nat) as [u|] eqn:F; [|vm_compute in F; discriminate].
  assert (P : t_phase t = Inside /\ t_keys t = ordered_keys ex_pair)
    by (vm_compute in E; injection E as <-; split; [done|by vm_compute]).
  assert (Q : t_phase u = Inside /\ t_keys u = ordered_keys ex_other)
    by (vm_compute in F; injection F as <-; split; [done|by vm_compute]).
  exists t, u. split; [reflexivity|]. split; [reflexivity|]. split; [apply P|]. split; [apply Q|].
  apply (guard_excludes ex_apart 0 1 t u ex_pair ex_other 0 None ex_context
           (update_runtime_state 0 ex_other ex_context));
    [|exact E|exact F|discriminate|apply P|apply Q|apply P|apply Q|exists 7; by vm_compute|by apply BooksRun].
  apply (run_reachable [ordered_keys ex_pair; ordered_keys ex_other] [0; 0; 0; 0; 0; 1; 1; 1; 1; 1]%nat).
  by vm_compute.
Defined.
