(* ===== verification/OrderManager.v ===== *)
(** * The order manager: [services/order_manager.py]

    From a signal to its executions: the red zone, the inbox, the strategy,
    the fan-out over the accounts, the gates, the claim, the basket and the
    bookkeeping.  An execution holds the locks of [ExposureLocks.v]; the
    accounts of a fan-out are run one after the other.  Texts of exceptions
    are the codes they start with; log lines and the live profit are left
    out. *)

From S2P Require Import Prelude Rounding PyText PyTime Identifiers RmsModels Margin Checks Engine Parser Sizer Accounts TradeBook Strategy Instruments Oms Coordinator Claims JobQueue SignalInbox Positions OrderLedger RejectReasons RuntimeState.

#[local] Open Scope Q_scope.
#[local] Open Scope py_scope.
#[local] Set Warnings "-clear-no-such-hyp".

(** ** Results *)
Record AccountExecutionOutcome : Type := {
  ao_account_id : option Z;
  ao_ibkr_account : option string;
  ao_result : option ExecutionResult;
  ao_error : option exn
}.
Definition ao_success (o : AccountExecutionOutcome) : bool :=
  match ao_result o, ao_error o with Some r, None => er_success r | _, _ => false end.
Record FanoutExecutionResult : Type := {
  fo_outcomes : list AccountExecutionOutcome;
  fo_unexpected : bool;
  fo_deferred : bool
}.
Definition fo_success (f : FanoutExecutionResult) : bool := existsb ao_success (fo_outcomes f).
Definition all_rejected (f : FanoutExecutionResult) : bool :=
  match fo_outcomes f with [] => false | _ => negb (fo_success f) end.
Definition fo_orders (f : FanoutExecutionResult) : list nat :=
  flat_map (fun o => match ao_result o with Some r => er_orders r | None => [] end) (fo_outcomes f).
Definition from_single (account : option Z) (ibkr : option string) (r : ExecutionResult)
    : FanoutExecutionResult := {|
  fo_outcomes := [{| ao_account_id := account; ao_ibkr_account := ibkr; ao_result := Some r;
                     ao_error := None |}];
  fo_unexpected := false; fo_deferred := false |}.

(** The subclasses of [ValueError]. *)
Definition is_value_error (e : exn) : bool :=
  match e with ModelBlueValidationError _ | ValueError _ | InstrumentResolutionError _ => true | _ => false end.

(** ** Reasons of a refused fan-out: [services/account_reject_reason.py] *)
Definition filled_text (s : option string) : option string :=
  let t := str_strip (opt_str s) in if str_empty t then None else Some t.
Fixpoint first_order_broker_error (orders : list OMSOrder) : option string :=
  match orders with
  | [] => None
  | o :: orders =>
      match filled_text (error_message o) with
      | Some t => if String.prefix "Connection closed unexpectedly" t
                  then first_order_broker_error orders else Some t
      | None => first_order_broker_error orders
      end
  end.
(** A result exists only for an intent that passed the risk checks, whose
    result has no reason. *)
Definition outcome_reject_reason (orders_of : list nat -> list OMSOrder) (o : AccountExecutionOutcome)
    : option string :=
  match ao_error o with
  | Some e => if str_empty (exn_text e) then None else filled_text (Some (exn_text e))
  | None =>
      match ao_result o with
      | None => None
      | Some r =>
          match first_order_broker_error (orders_of (er_orders r)) with
          | Some t => Some t
          | None => match filled_text (er_error_message r) with
                    | Some t => if is_basket_state_error t then None else Some t
                    | None => None
                    end
          end
      end
  end.
Definition collect_reason (orders_of : list nat -> list OMSOrder) (merged : option string)
    (o : AccountExecutionOutcome) : option string :=
  match outcome_reject_reason orders_of o with
  | None => merged
  | Some raw =>
      let formatted := format_account_reject_reason (ao_ibkr_account o) (Some raw) (ao_account_id o) in
      if str_empty (opt_str formatted) then merged else merge_account_reject_reasons merged formatted
  end.
Definition collect_fanout_reject_reasons (orders_of : list nat -> list OMSOrder) (f : FanoutExecutionResult)
    : string :=
  str_or (opt_str (fold_left (collect_reason orders_of) (fo_outcomes f) None)) GENERIC_REJECT_FALLBACK.

(** ** Settings, strategies and the environment *)
Inductive Backend : Type := NoOms | Direct | Baskets.
#[global] Instance Backend_eq_dec : EqDecision Backend.
Proof. solve_decision. Defined.
Record Settings : Type := {
  ms_backend : Backend;
  ms_order_type : string;
  ms_symbol : option string;
  ms_quantity : option Z;
  ms_price : option Q;
  ms_strategy_id : string;
  ms_router : bool;                       (* an account router is configured *)
  ms_margin_service : bool;
  ms_probe : bool;                        (* the adapter can ask for a what-if *)
  market_value_utilisation_cap : Q
}.

(** A strategy handler, with the trade book [B] it keeps. *)
Record StrategyHandler (B : Type) : Type := {
  sh_build_intent : Signal -> option AccountExecutionContext -> B -> result OrderIntent;
  sh_after_submit : Signal -> OrderIntent -> ExecutionResult -> B -> result B;
  uses_per_leg_prices : bool
}.
Arguments sh_build_intent {B} _. Arguments sh_after_submit {B} _. Arguments uses_per_leg_prices {B} _.
(** [ModelBlueStrategy] as a handler. *)
Definition model_blue_handler {B : Type} `{!ModelBlueTradeBook B} (h : ModelBlueStrategy (B := B) ExecutionResult)
    : StrategyHandler B := {|
  sh_build_intent := build_intent ExecutionResult h;
  sh_after_submit := after_submit ExecutionResult h;
  uses_per_leg_prices := true |}.

(** What the manager asks besides what [Oms.Environment] answers: the red zone
    of the session clock, the trading pause, the margin service, the catalog
    of instruments and the discovery of missing ones, the what-if of the
    broker, the accounts, the open rows of the positions ledger, and the label
    of an account, [None] when the lookup fails. *)
Class Surroundings (E : Type) : Type := {
  env_red_zone : E -> result bool;
  env_paused : E -> Z -> bool;
  env_snapshot_for : E -> string -> option AccountMarginSnapshot;
  env_catalog : E -> option InstrumentCatalog;
  env_discover : list string -> Step E -> Step E;
  env_probe : Contract -> OrderLeg -> string -> Step E -> Step E * result (option Q);
  env_accounts : E -> Database;
  env_open_rows : E -> option (list PositionModel);
  env_correlation : E -> option string;
  env_fresh_id : E -> string;
  env_account_label : E -> Z -> option string
}.
(** What is asked of the outside does not place orders. *)
Class LawfulSurroundings (E : Type) `{!Surroundings E} : Prop := {
  discover_law l s : heap_evolves None s.2 (env_discover l s).2;
  probe_law c l a s : heap_evolves None s.2 (env_probe c l a s).1.2
}.

(** ** State *)
Record Manager (E B : Type) : Type := {
  mg_world : World E;
  mg_context : RMSContext;
  mg_claims : ClaimTable;
  mg_inbox : list SignalRecord;
  mg_book : B
}.
Arguments mg_world {E B} _. Arguments mg_context {E B} _. Arguments mg_claims {E B} _.
Arguments mg_inbox {E B} _. Arguments mg_book {E B} _.
Abbreviation G E B A := (St (Manager E B) A).

Section OrderManager.
Context {E B : Type} `{!Environment E, !Surroundings E}.
Variable cfg : Config.
Variable st : Settings.
Variable checks : list BaseRMSCheck.
Variable registry : string -> option (StrategyHandler B).
(** [str] of a [Decimal]. *)
Variable price_text : pydec -> string.
Variable str_dec : Q -> string.

Definition set_world (w : World E) (m : Manager E B) : Manager E B := {|
  mg_world := w; mg_context := mg_context m; mg_claims := mg_claims m; mg_inbox := mg_inbox m;
  mg_book := mg_book m |}.
Definition set_context (c : RMSContext) (m : Manager E B) : Manager E B := {|
  mg_world := mg_world m; mg_context := c; mg_claims := mg_claims m; mg_inbox := mg_inbox m;
  mg_book := mg_book m |}.
Definition set_claims (t : ClaimTable) (m : Manager E B) : Manager E B := {|
  mg_world := mg_world m; mg_context := mg_context m; mg_claims := t; mg_inbox := mg_inbox m;
  mg_book := mg_book m |}.
Definition set_inbox (l : list SignalRecord) (m : Manager E B) : Manager E B := {|
  mg_world := mg_world m; mg_context := mg_context m; mg_claims := mg_claims m; mg_inbox := l;
  mg_book := mg_book m |}.
Definition set_book (b : B) (m : Manager E B) : Manager E B := {|
  mg_world := mg_world m; mg_context := mg_context m; mg_claims := mg_claims m; mg_inbox := mg_inbox m;
  mg_book := b |}.
Definition on_world {A} (f : M E A) : G E B A := fun m =>
  let (w, r) := f (mg_world m) in (set_world w m, r).
Definition on_context (f : RMSContext -> RMSContext) : G E B unit :=
  modify (fun m => set_context (f (mg_context m)) m).
Definition env_of (m : Manager E B) : E := w_env (mg_world m).
(** The coordinator shares the risk context. *)
Definition basket_config (m : Manager E B) : Config := {|
  execute_stk_as_cfd := execute_stk_as_cfd cfg; session_factory := session_factory cfg;
  fill_timeout := fill_timeout cfg; cancel_timeout := cancel_timeout cfg;
  retry_policy := retry_policy cfg; rms_engine := Some checks; rms_context := Some (mg_context m);
  paper_retries_allowed := paper_retries_allowed cfg; recovery_service := recovery_service cfg |}.
Definition coordinated {A} (f : Config -> M E A) : G E B A := fun m => on_world (f (basket_config m)) m.
(** A transaction: callbacks run, then it commits or raises. *)
Definition transaction {A} (body : G E B A) : G E B A :=
  on_world (env_do (fun s => (env_events s, tt))) ;;;
  do! ok := on_world (env_do (fun s => let (e, ok) := env_write_ok s.1 in ((e, s.2), ok))) in
  if (ok : bool) then body else raise (OtherError "DBAPIError").

(** ** Audits *)
Definition outcome_text (o : RMSOutcome) : string :=
  match o with PASS => "PASS" | REJECT => "REJECT" | ADJUST => "ADJUST" | HALT => "HALT" end.
Definition audit_rms (i : OrderIntent) (r : RMSResult) : G E B unit :=
  coordinated (fun c => event c ("RMS_" ++ outcome_text (res_outcome r))
    (Some ("rms_" ++ str_lower (outcome_text (res_outcome r)) ++ ":" ++ account_text (account_id i)
           ++ ":" ++ signal_id i))%string).
Definition audit_instruments_resolved (i : OrderIntent) : G E B unit :=
  coordinated (fun c => event c "INSTRUMENT_RESOLVED"
    (Some ("instrument_resolved:" ++ account_text (account_id i) ++ ":" ++ signal_id i))%string).

(** [_persist_inbound_signal]: whether a row was written. *)
Definition persist_inbound_signal (signal : Signal) (status : string) (why : option string)
    : G E B (option SignalRecord) :=
  if negb (session_factory cfg) then ret None
  else if str_empty (persist_signal_id_for signal) then ret None
  else
    catch (transaction (fun m =>
             match record_inbound price_text (env_row_id (env_of m)) (env_now (env_of m)) signal
                     (Some (persist_signal_id_for signal)) status why (mg_inbox m) with
             | Ok (l, r) => (set_inbox l m, Ok (Some r))
             | Raise e => (m, Raise e)
             end))
      (fun _ => ret None).

(** ** Instruments *)
Definition cfd_symbols (map_on : bool) (i : OrderIntent) : list string :=
  omap (fun l =>
    match ibkr_sec_type (fst (execution_instrument_type (opt_str (leg_instrument_type l)) map_on)) with
    | Ok t => if (t =? "CFD")%string then Some (leg_symbol l) else None
    | Raise _ => None
    end) (legs i).
Definition snapshot_rows (c : InstrumentCatalog) (map_on : bool) (i : OrderIntent) : list InstrumentRecord :=
  flat_map (fun l =>
    if str_empty (leg_symbol l) then []
    else match ibkr_sec_type (fst (execution_instrument_type (opt_str (leg_instrument_type l)) map_on)) with
         | Ok t => c (leg_symbol l) t
         | Raise _ => []
         end) (legs i).
Definition resolve_instruments (i : OrderIntent) : G E B OrderIntent :=
  let map_on := apply_stk_to_cfd_for_strategy (execute_stk_as_cfd cfg) (strategy_id i) in
  do! catalog := get (fun m => env_catalog (env_of m)) in
  match catalog with
  | Some _ => if session_factory cfg && negb (bool_decide (cfd_symbols map_on i = []))
              then on_world (env_do (fun s => (env_discover (cfd_symbols map_on i) s, tt))) else ret tt
  | None => ret tt
  end ;;;
  do! snapshot := get (fun m => match env_catalog (env_of m) with
                                | Some c => InMemoryInstrumentCatalog (snapshot_rows c map_on i)
                                | None => EmptyInstrumentCatalog
                                end) in
  do! resolved := match attach_resolved i snapshot map_on with
                  | Raise (InstrumentResolutionError code) => raise (ValueError code)
                  | r => lift r
                  end in
  if existsb (fun l => dec_of_num (leg_quantity l) <=? 0) (legs resolved)
  then raise (ValueError "ZERO_QUANTITY")
  else audit_instruments_resolved resolved ;;; ret resolved.

(** ** Margin *)
Definition gate_error (g : MarginGate) : option exn :=
  match g with
  | GateOk => None
  | GateUnavailable _ => Some (ValueError "MARGIN_SNAPSHOT_UNAVAILABLE")
  | GateStale _ => Some (ValueError "MARGIN_SNAPSHOT_STALE")
  | GateNoFreeFunds _ _ _ => Some (ValueError "MARGIN_NO_FREE_FUNDS")
  | GateNoFreeFundsLookAhead _ _ _ => Some (ValueError "MARGIN_NO_FREE_FUNDS_LOOK_AHEAD")
  end.
Definition margin_gate (ibkr : option string) : G E B unit := fun m =>
  let (c, g) := assert_account_has_free_margin (env_now (env_of m))
                  (if ms_margin_service st then Some (env_snapshot_for (env_of m)) else None)
                  ibkr (mg_context m) in
  (set_context c m, match gate_error g with Some e => Raise e | None => Ok tt end).

(** The what-ifs of the legs: the sum of what they change. *)
Definition probe_leg (account : string) (confirmed : Q) (l : OrderLeg) : G E B Q :=
  match leg_resolved l with
  | None => raise (ValueError "MARGIN_PROBE_UNKNOWN")
  | Some r =>
      do! found := on_world (env_do (env_probe (ibkr_contract_from_resolved r) l account)) in
      do! change := lift found in
      match change with
      | None => raise (ValueError "MARGIN_PROBE_UNKNOWN")
      | Some x => ret (dadd confirmed (dabs x))
      end
  end.
Definition margin_rejection (i : OrderIntent) : RMSResult := {|
  res_outcome := REJECT; res_intent := i; original_intent := i; res_check_number := Some 1%Z;
  res_reason := None;
  check_results := [{| check_number := 1; check_name := "MARGIN"; outcome := REJECT;
                       check_reason := None; adjusted_intent := None |}] |}.
Definition confirm_margin_if_borderline (i : OrderIntent) : G E B unit :=
  do! c := get mg_context in
  let policy := margin_policy c in
  let account := account_label (ibkr_account i) in
  if negb (check_enabled policy) || negb (confirm_borderline policy) then ret tt
  else if negb (bool_decide (action i = OPEN)) then ret tt
  else if str_empty account then ret tt
  else match margin_snapshots c !! account with
  | None => ret tt
  | Some snapshot =>
      let required := fst (estimate_required_margin i (margin_rates c) (margin_rate_sources c) policy) in
      match effective_free_margin snapshot (default [] (margin_commitments c !! account)) policy with
      | None => ret tt
      | Some effective =>
          match classify_headroom required effective policy with
          | BORDERLINE =>
              if negb (ms_probe st) then raise (ValueError "MARGIN_PROBE_UNKNOWN")
              else
                do! confirmed := loop (probe_leg account) (legs i) 0 in
                let usable := dsub effective (min_free_buffer policy) in
                if usable <=? confirmed then
                  audit_rms i (margin_rejection i) ;;;
                  raise (ValueError "MARGIN_INSUFFICIENT_CONFIRMED")
                else ret tt
          | _ => ret tt
          end
      end
  end.

(** ** The claim *)
Definition claim_request (i : OrderIntent) (m : Manager E B) : ClaimRequest := {|
  cq_key := execution_dedupe_key i; cq_account_id := account_id i; cq_strategy_id := strategy_id i;
  cq_signal_id := signal_id i; cq_action := action_value (action i);
  cq_correlation_id := env_correlation (env_of m); cq_stale_after := 300 |}.
Definition refusal_error (r : Refusal) : exn :=
  OtherError (match r with
              | DuplicateExecutionError => "DUPLICATE_EXECUTION"
              | ExecutionInFlightError => "EXECUTION_IN_FLIGHT"
              | ClaimNeedsReconciliationError => "CLAIM_STALE"
              end).
(** [_acquire_execution_claim]: the key, when there is a database. *)
Definition acquire_execution_claim (i : OrderIntent) : G E B (option string) :=
  if negb (session_factory cfg) then ret None
  else transaction (fun m =>
         let (t, r) := acquire (env_now (env_of m)) (claim_request i m) (mg_claims m) in
         match r with
         | inl _ => (set_claims t m, Ok (Some (execution_dedupe_key i)))
         | inr refusal => (m, Raise (refusal_error refusal))
         end).
(** [_seal_execution_claim]: failures are logged. *)
Definition seal_execution_claim (key : option string) : G E B unit :=
  match key with
  | Some key =>
      catch (transaction (modify (fun m =>
               set_claims (fst (mark_executed (env_now (env_of m)) key None (mg_claims m))) m)))
        (fun _ => ret tt)
  | None => ret tt
  end.
(** [_resolve_failed_claim]: it counts the orders of the signal and leaves the
    claim as it is in either case. *)
Definition resolve_failed_claim (key : option string) : G E B unit :=
  match key with
  | Some _ => catch (transaction (ret tt)) (fun _ => ret tt)
  | None => ret tt
  end.

(** ** Bookkeeping *)
Definition update_state (h : option (StrategyHandler B)) (signal : Signal) (i : OrderIntent)
    (r : ExecutionResult) : G E B unit :=
  match h with
  | Some h =>
      do! now := get (fun m => env_now (env_of m)) in
      on_context (update_runtime_state now i) ;;;
      (fun m => match sh_after_submit h signal i r (mg_book m) with
                | Ok b => (set_book b m, Ok tt)
                | Raise e => (m, Raise e)
                end) ;;;
      persist_inbound_signal signal SIGNAL_STATUS_PROCESSED None ;;; ret tt
  | None => fun m => match update_runtime_legacy i (mg_context m) with
                     | Ok c => (set_context c m, Ok tt)
                     | Raise e => (m, Raise e)
                     end
  end.
Definition rebuild_rms : G E B unit :=
  if negb (session_factory cfg) then ret tt
  else fun m => match env_open_rows (env_of m) with
                | Some rows => (set_context (rebuild_rms_from_positions rows (mg_context m)) m, Ok tt)
                | None => (m, Raise (OtherError "DBAPIError"))
                end.

(** ** The gates *)
Definition red_zone_gate (i : OrderIntent) : G E B unit :=
  if bool_decide (intent_mode i = EMERGENCY_FLATTEN) then ret tt
  else
    do! r := get (fun m => env_red_zone (env_of m)) in
    match r with
    | Ok true => raise (ValueError "RED_ZONE_DEFERRED: projected in red zone, refusing claim")
    | Ok false => ret tt
    | Raise e => if is_value_error e then raise e else raise (ValueError "RED_ZONE_DEFERRED")
    end.
Definition blocked_account (f : E -> Z -> bool) (i : OrderIntent) (m : Manager E B) : bool :=
  bool_decide (action i = OPEN)
  && match account_id i with Some a => f (env_of m) a | None => false end.
Definition critical_block (i : OrderIntent) (m : Manager E B) : bool :=
  bool_decide (action i = OPEN) && bool_decide (ms_backend st = Baskets)
  && is_open_blocked (account_id i) (strategy_id i) (mg_world m).
(** [i] is the intent that came in, [ready] what is going to be executed. *)
Definition gates (i ready : OrderIntent) : G E B unit :=
  do! m := get id in
  if bool_decide (ms_backend st = NoOms) then raise (OtherError "No OMSService configured on OrderManager.")
  else if critical_block i m then raise (ValueError "BASKET_CRITICAL")
  else if blocked_account env_kill_switch ready m then raise (ValueError "KILL_SWITCH_ACTIVE")
  else if blocked_account env_paused ready m then raise (ValueError "TRADING_PAUSED")
  else red_zone_gate ready.

(** ** [_evaluate_and_submit_locked] *)
(** What precedes the gates: the risk checks and the instruments, then the
    margin (Gate C). *)
Definition checked_intent (i : OrderIntent) : G E B (RMSResult * OrderIntent) :=
  on_context (ensure_strategy_config (strategy_id i) None) ;;;
  if existsb (fun l => dec_of_num (leg_quantity l) <=? 0) (legs i)
  then raise (ValueError "ZERO_QUANTITY")
  else
    do! c := get mg_context in
    do! rms := lift (evaluate checks i c) in
    audit_rms i rms ;;;
    if negb (bool_decide (res_outcome rms = PASS)) then raise (ValueError "RMS check rejected intent")
    else
      do! resolved := resolve_instruments (res_intent rms) in
      do! c := get mg_context in
      ret (rms, annotate_margin_metadata str_dec c resolved).
Definition prepare_intent (i : OrderIntent) : G E B (RMSResult * OrderIntent) :=
  do! (rms, ready) := checked_intent i in
  confirm_margin_if_borderline ready ;;;
  ret (rms, ready).

(** The result of a basket for the caller. *)
Definition basket_error (s : BasketState) : string :=
  match s with
  | B_PENDING => "PENDING" | EXECUTING => "EXECUTING" | B_OPEN => "OPEN" | B_CLOSED => "CLOSED"
  | UNWINDING => "UNWINDING" | COMPENSATED => "COMPENSATED" | CRITICAL => "CRITICAL"
  | B_RECOVERED => "RECOVERED"
  end.
Definition basket_result (r : BasketExecutionResult) : result ExecutionResult :=
  match (match bx_orders r with [] => bx_compensation_orders r | l => l end) with
  | [] => Raise (OtherError "Basket coordinator returned no child orders.")
  | o :: _ => Ok {| er_order := o; er_success := bx_success r;
                    er_error_message := if bx_success r then None
                                        else Some (basket_error (b_state (bx_basket r)));
                    er_orders := bx_orders r ++ bx_compensation_orders r |}
  end.
(** [try: body except Exception: resolve the claim; raise]. *)
Definition or_hold {A} (key : option string) (body : G E B A) : G E B A :=
  catch body (fun e => resolve_failed_claim key ;;; raise e).

Definition execute_basket (h : option (StrategyHandler B)) (signal : Signal) (pk : option Z)
    (rms : RMSResult) (i : OrderIntent) (key : option string) : G E B ExecutionResult :=
  do! (r, er) := or_hold key
    (do! r := coordinated (fun c => execute c i rms (ms_order_type st) pk) in
     do! er := lift (basket_result r) in ret (r, er)) in
  do! orders := on_world (orders_at (bx_orders r)) in
  (if bx_success r then
     seal_execution_claim key ;;;
     update_state h signal (intent_with_fills i orders) er
   else
     (if bool_decide (b_state (bx_basket r) = COMPENSATED) then ret tt
      else do! now := get (fun m => env_now (env_of m)) in
           on_context (record_unsettled_exposure now i orders)) ;;;
     resolve_failed_claim key) ;;;
  rebuild_rms ;;;
  ret er.

(** The price of an order, which is finite in this development. *)
Definition signal_price (signal : Signal) : result (option Q) :=
  match sig_price signal with
  | Some (DFin p) => Ok (Some p)
  | Some _ => Raise InvalidOperation
  | None => Ok (ms_price st)
  end.
Definition execute_direct (h : option (StrategyHandler B)) (signal : Signal)
    (rms : RMSResult) (i : OrderIntent) (key : option string) : G E B ExecutionResult :=
  do! price := lift (if match h with Some h => uses_per_leg_prices h | None => false end
                     then Ok None else signal_price signal) in
  do! er := or_hold key
    (do! er := on_world (submit_intent (execute_stk_as_cfd cfg) i rms None price (ms_order_type st)) in
     if er_success er then ret er else raise (OtherError "OMS submission failed")) in
  seal_execution_claim key ;;;
  update_state h signal i er ;;;
  ret er.

Definition evaluate_and_submit_locked (h : option (StrategyHandler B)) (signal : Signal) (pk : option Z)
    (i : OrderIntent) : G E B ExecutionResult :=
  do! (rms, ready) := prepare_intent i in
  gates i ready ;;;
  do! key := acquire_execution_claim ready in
  match ms_backend st with
  | Direct => execute_direct h signal rms ready key
  | _ => execute_basket h signal pk rms ready key
  end.
(** [_evaluate_and_submit], inside the guard: Gate A, and the rest. *)
Definition entry_margin_gate (i : OrderIntent) : G E B unit :=
  if bool_decide (action i = OPEN) && negb (str_empty (opt_str (ibkr_account i)))
  then margin_gate (ibkr_account i) else ret tt.
Definition evaluate_and_submit (h : option (StrategyHandler B)) (signal : Signal) (pk : option Z)
    (i : OrderIntent) : G E B ExecutionResult :=
  entry_margin_gate i ;;; evaluate_and_submit_locked h signal pk i.

(** ** The accounts of a signal *)
Definition contexts_for_scope (contexts : list AccountExecutionContext) (scope : option string)
    : list AccountExecutionContext :=
  let wanted := str_strip (opt_str scope) in
  if str_empty wanted then contexts
  else List.filter (fun x => (str_Z (ax_account_id x) =? wanted)%string
                             || (str_upper (str_strip (ax_ibkr_account x)) =? str_upper wanted)%string)
         contexts.
Definition account_settings (x : AccountExecutionContext) (c : RMSContext) : RMSContext :=
  with_settings (strategy_configs c) (per_symbol_limits c) (default_symbol_limits c)
    (<[(ax_account_id x, ax_strategy_id x) := ax_max_open_positions x]> (account_open_limits c))
    (<[(ax_account_id x, ax_strategy_id x) :=
        dmul (ax_committed_notional x) (market_value_utilisation_cap st)]> (model_value_limit c))
    (margin_snapshots c) c.
Definition build_for (h : StrategyHandler B) (signal : Signal) (x : option AccountExecutionContext)
    : G E B OrderIntent := fun m => (m, sh_build_intent h signal x (mg_book m)).
Definition account_outcome (x : AccountExecutionContext) (r : option ExecutionResult) (e : option exn)
    : AccountExecutionOutcome := {|
  ao_account_id := Some (ax_account_id x); ao_ibkr_account := Some (ax_ibkr_account x);
  ao_result := r; ao_error := e |}.
Definition fanout_single_account (h : StrategyHandler B) (signal : Signal) (pk : option Z)
    (raise_if_single : bool) (x : AccountExecutionContext) : G E B AccountExecutionOutcome :=
  on_context (ensure_strategy_config (ax_strategy_id x) None) ;;;
  on_context (account_settings x) ;;;
  catch
    (do! i := build_for h signal (Some x) in
     do! m := get id in
     if bool_decide (action i = OPEN) && env_kill_switch (env_of m) (ax_account_id x)
     then raise (ValueError "KILL_SWITCH_ACTIVE")
     else if bool_decide (action i = OPEN) && env_paused (env_of m) (ax_account_id x)
     then raise (ValueError "TRADING_PAUSED")
     else
       do! r := evaluate_and_submit (Some h) signal pk i in
       ret (account_outcome x (Some r) None))
    (fun e => if is_value_error e && negb raise_if_single then ret (account_outcome x None (Some e))
              else raise e).
(** One account of [gather], and what the loop over its results does. *)
Definition gather_account (h : StrategyHandler B) (signal : Signal) (pk : option Z) (single : bool)
    (acc : list AccountExecutionOutcome * bool) (x : AccountExecutionContext)
    : G E B (list AccountExecutionOutcome * bool) :=
  let (outcomes, unexpected) := acc in
  do! (o, bad) := catch (do! o := fanout_single_account h signal pk single x in ret (o, false))
    (fun e => if is_value_error e && single then raise e
              else ret (account_outcome x None (Some e), true)) in
  ret (outcomes ++ [o], unexpected || bad).
Definition fanout_accounts (h : StrategyHandler B) (signal : Signal) (pk : option Z)
    (contexts : list AccountExecutionContext) : G E B FanoutExecutionResult :=
  do! (outcomes, unexpected) :=
    loop (gather_account h signal pk (Nat.eqb (length contexts) 1)) contexts ([], false) in
  ret {| fo_outcomes := outcomes; fo_unexpected := unexpected; fo_deferred := false |}.

(** [_process_legacy_single_name]. *)
Definition legacy_side (signal : Signal) : OrderSide :=
  if negb (str_empty (opt_str (sig_side signal))) then
    let s := str_upper (opt_str (sig_side signal)) in
    if (s =? "SELL")%string || (s =? "SHORT")%string then SELL else BUY
  else match sig_signal_type signal with SIG_BUY => BUY | _ => SELL end.
Definition legacy_quantity (signal : Signal) (opening : bool) (symbol strategy : string) (c : RMSContext)
    : result Z :=
  if opening then
    match (match sig_quantity signal with Some q => Some q | None => ms_quantity st end) with
    | Some q => if (q <=? 0)%Z then Raise (ValueError "MISSING_QUANTITY") else Ok q
    | None => Raise (ValueError "MISSING_QUANTITY")
    end
  else
    let count := default 0%Z (open_positions c !! inr symbol) in
    let count := if (count <=? 0)%Z then default 0%Z (open_positions c !! inr strategy) else count in
    if (count <=? 0)%Z then Raise (ValueError "NO_OPEN_POSITION")
    else Ok (match sig_quantity signal with
             | Some q => if (0 <? q)%Z then q else count
             | None => count
             end).
Definition strategy_of (signal : Signal) : string :=
  str_or (opt_str (sig_strategy_id signal)) (ms_strategy_id st).
Definition legacy_intent (signal : Signal) (m : Manager E B) : result OrderIntent :=
  let strategy := strategy_of signal in
  let symbol := str_or (opt_str (sig_symbol signal)) (opt_str (ms_symbol st)) in
  if str_empty symbol || (symbol =? "N/A")%string then Raise (ValueError "MISSING_SYMBOL")
  else
    let opening := negb (str_upper (str_or (sig_action signal) "OPEN") =? "CLOSE")%string in
    let! qty := legacy_quantity signal opening symbol strategy (mg_context m) in
    let! price := signal_price signal in
    if (str_upper (ms_order_type st) =? "LIMIT")%string
       && match price with Some p => p <=? 0 | None => true end
    then Raise (ValueError "MISSING_LIMIT_PRICE")
    else Ok {|
      signal_id := str_or (opt_str (sig_signal_id signal)) (env_fresh_id (env_of m));
      strategy_id := strategy; action := if opening then OPEN else CLOSE;
      legs := [{| leg_symbol := symbol; leg_side := legacy_side signal;
                  leg_quantity := NFloat (inject_Z qty); leg_price := default 0 price;
                  leg_contract_month := None; leg_con_id := None; leg_notional := None;
                  leg_instrument_type := Some "STK"%string; leg_weight := None;
                  leg_leg_index := Some 0%Z; leg_metadata := None; leg_exchange := None;
                  leg_currency := None; leg_resolved := None |}];
      account_id := None; ibkr_account := None; market := None; timestamp := sig_timestamp signal;
      intent_mode := MODE_OPEN |}.

(** ** [process_signal_execution] *)
Definition process_inner (signal : Signal) (pk : option Z) (scope : option string)
    : G E B FanoutExecutionResult :=
  match registry (strategy_of signal) with
  | None =>
      if ms_router st then raise (ValueError "UNKNOWN_STRATEGY")
      else
        do! i := (fun m => (m, legacy_intent signal m)) in
        do! r := evaluate_and_submit None signal pk i in
        ret (from_single (account_id i) (ibkr_account i) r)
  | Some h =>
      if negb (ms_router st) then
        do! i := build_for h signal None in
        do! r := evaluate_and_submit (Some h) signal pk i in
        ret (from_single (account_id i) (ibkr_account i) r)
      else
        do! all := get (fun m => resolve (env_accounts (env_of m)) (strategy_of signal)) in
        match contexts_for_scope all scope with
        | [] => raise (ValueError "NO_ELIGIBLE_ACCOUNTS")
        | contexts => fanout_accounts h signal pk contexts
        end
  end.

Definition is_emergency_flatten (signal : Signal) : bool :=
  match sig_raw_payload signal with
  | Some (JObj ((_ :: _) as fields)) =>
      match jget "intent_mode" fields with JStr s => (s =? "EMERGENCY_FLATTEN")%string | _ => false end
  | _ => false
  end.
(** The reason the inbox already has; a failing lookup is logged. *)
Definition prior_reason (signal : Signal) : G E B (option string) :=
  if str_empty (persist_signal_id_for signal) || negb (session_factory cfg) then ret None
  else catch (transaction (get (fun m =>
                match get_by_strategy_signal (strategy_of signal) (persist_signal_id_for signal) (mg_inbox m) with
                | Some r => sr_reject_reason r
                | None => None
                end)))
         (fun _ => ret None).
Definition reject_all (signal : Signal) (row : option SignalRecord) (f : FanoutExecutionResult)
    : G E B unit :=
  do! heap := get (fun m => w_heap (mg_world m)) in
  let why := collect_fanout_reject_reasons (fun l => omap (fun i => heap !! i) l) f in
  do! existing :=
    match (match row with Some r => sr_reject_reason r | None => None end) with
    | Some t => ret (Some t)
    | None => prior_reason signal
    end in
  persist_inbound_signal signal SIGNAL_STATUS_REJECTED (merge_account_reject_reasons existing (Some why)) ;;;
  ret tt.
(** [scope.strip().isdigit()], and [int(scope)]. *)
Definition scope_account (scope : option string) : option Z :=
  let s := str_strip (opt_str scope) in
  if str_empty s || negb (forallb is_digit (chars s)) then None
  else match py_int s with Ok n => Some n | Raise _ => None end.
Definition reject_one (signal : Signal) (scope : option string) (e : exn) : G E B unit :=
  let text := Some (exn_text e) in
  let account := scope_account scope in
  do! label := get (fun m => if session_factory cfg
                             then a ← account; env_account_label (env_of m) a else None) in
  let why := match label with
             | Some l => format_account_reject_reason (Some l) text account
             | None => format_account_reject_reason None text account
             end in
  do! existing := prior_reason signal in
  persist_inbound_signal signal SIGNAL_STATUS_REJECTED (merge_account_reject_reasons existing why) ;;;
  ret tt.
Definition deferred_result : FanoutExecutionResult :=
  {| fo_outcomes := []; fo_unexpected := false; fo_deferred := true |}.

(** [None] for HOLD. *)
Definition process_signal_execution (signal : Signal) (scope : option string)
    : G E B (option FanoutExecutionResult) :=
  match sig_signal_type signal with
  | SIG_HOLD => ret None
  | _ =>
      do! red := (if is_emergency_flatten signal then ret false
                  else do! r := get (fun m => env_red_zone (env_of m)) in lift r) in
      if (red : bool) then ret (Some deferred_result)
      else
        do! row := persist_inbound_signal signal SIGNAL_STATUS_NEW None in
        catch
          (do! f := process_inner signal (option_map sr_id row) scope in
           (if all_rejected f then reject_all signal row f else ret tt) ;;;
           ret (Some f))
          (fun e => reject_one signal scope e ;;; raise e)
  end.
End OrderManager.
