(* ===== verification/OrderFlow.v ===== *)
(** * What the order manager promises: facts about [OrderManager.v]

    Nothing is ordered before every gate has been passed and the claim of the
    intent has been taken; a claim that was taken stays taken. *)

From S2P Require Import Prelude Rounding PyText PyTime Identifiers RmsModels Margin Checks Engine Parser Sizer Accounts TradeBook Strategy Instruments Oms Coordinator Claims JobQueue SignalInbox Positions OrderLedger RejectReasons RuntimeState OrderManager SimBroker Baskets.

#[local] Open Scope Q_scope.
#[local] Open Scope py_scope.
#[local] Set Warnings "-clear-no-such-hyp".

(** ** The identity of an intent

    The mode is not part of it: check 4 resets it. *)
Record same_identity (i j : OrderIntent) : Prop := {
  si_signal : signal_id j = signal_id i;
  si_strategy : strategy_id j = strategy_id i;
  si_account : account_id j = account_id i;
  si_action : action j = action i
}.
#[global] Instance same_identity_preorder : PreOrder same_identity.
Proof. split; [by split|]. intros i j k [] []. split; congruence. Qed.
Lemma same_identity_key (i j : OrderIntent) :
  same_identity i j -> execution_dedupe_key j = execution_dedupe_key i.
Proof. intros []. unfold execution_dedupe_key. congruence. Qed.

(** Checks that leave the identity alone, as the default ones do. *)
Definition checks_keep (cs : list BaseRMSCheck) : Prop :=
  Forall (fun c => forall i rc r, bc_evaluate c i rc = Ok r -> same_identity i (next_intent r i)) cs.
Lemma default_checks_keep (now : Z) : checks_keep (get_default_checks now).
Proof.
  unfold checks_keep, get_default_checks.
  repeat (apply Forall_cons; split; [simpl; intros i rc r H|]); [..|done].
  - injection H as <-. by rewrite no_adjust_next by apply margin_no_adjust.
  - injection H as <-. by rewrite no_adjust_next by apply duplicate_no_adjust.
  - injection H as <-. by rewrite no_adjust_next by apply strategy_no_adjust.
  - destruct (contract_month_next i rc r H) as [F|(m & F)]; rewrite F; by constructor.
  - injection H as <-. by rewrite no_adjust_next by apply position_no_adjust.
  - injection H as <-. by rewrite no_adjust_next by apply money_no_adjust.
  - injection H as <-. rewrite no_adjust_next; [done|]. unfold market_value_evaluate. by repeat case_match.
Qed.
Lemma run_checks_keep (cs : list BaseRMSCheck) (original current : OrderIntent) (rc : RMSContext)
    (audit : list CheckResult) (res : RMSResult) :
  checks_keep cs -> run_checks cs original current rc audit = Ok res -> same_identity current (res_intent res).
Proof.
  intros K. revert current audit. induction K as [|c cs Kc _ IH]; intros current audit; simpl.
  - by intros [= <-].
  - intros H. apply rbind_ok in H as (r & Hr & H). destruct (stops (outcome r)); [by injection H as <-|].
    etrans; [by apply (Kc current rc r)|by eapply IH].
Qed.

(** ** Steps that order nothing *)
Section Quiet.
Context {E B : Type} `{!Environment E, !LawfulEnvironment E, !Surroundings E, !LawfulSurroundings E}.
Variable cfg : Config.
Variable st : Settings.
Variable checks : list BaseRMSCheck.
Variable price_text : pydec -> string.
Variable str_dec : Q -> string.

(** The claims, the orders and the latches are as they were; the broker may
    have moved orders, as it may at any time. *)
Record quiet (m m' : Manager E B) : Prop := {
  qu_claims : mg_claims m' = mg_claims m;
  qu_heap : heap_evolves None (w_heap (mg_world m)) (w_heap (mg_world m'));
  qu_orders : w_orders (mg_world m') = w_orders (mg_world m);
  qu_submitted : w_submitted (mg_world m') = w_submitted (mg_world m);
  qu_retries : w_retry_ids (mg_world m') = w_retry_ids (mg_world m);
  qu_critical : w_critical (mg_world m') = w_critical (mg_world m);
  qu_scheduled : w_scheduled (mg_world m') = w_scheduled (mg_world m)
}.
#[global] Instance quiet_preorder : PreOrder quiet.
Proof.
  split; [intros m; split; try done; apply heap_evolves_refl|].
  intros m1 m2 m3 [] []. split; try congruence. by eapply heap_evolves_trans.
Qed.
Definition keeps {A} (f : G E B A) : Prop := forall m, quiet m (f m).1.

Lemma quiet_ret {A} (a : A) : keeps (ret a).
Proof. intros m. done. Qed.
Lemma quiet_raise {A} e : keeps (raise e : G E B A).
Proof. intros m. done. Qed.
Lemma quiet_get {A} (f : Manager E B -> A) : keeps (get f).
Proof. intros m. done. Qed.
Lemma quiet_lift {A} (r : result A) : keeps (lift r : G E B A).
Proof. intros m. done. Qed.
Lemma quiet_bind {A A'} (f : G E B A) (k : A -> G E B A') :
  keeps f -> (forall a, keeps (k a)) -> keeps (bind f k).
Proof.
  intros F K m. unfold bind. specialize (F m). destruct (f m) as [m1 [a|e]]; simpl in *; [|done].
  etrans; [exact F|apply K].
Qed.
Lemma quiet_catch {A} (f : G E B A) (h : exn -> G E B A) :
  keeps f -> (forall e, keeps (h e)) -> keeps (catch f h).
Proof.
  intros F K m. unfold catch. specialize (F m). destruct (f m) as [m1 [a|e]]; simpl in *; [done|].
  etrans; [exact F|apply K].
Qed.
Lemma quiet_loop {A S} (body : S -> A -> G E B S) (l : list A) (s : S) :
  (forall s x, keeps (body s x)) -> keeps (loop body l s).
Proof.
  intros H. revert s. induction l as [|x l IH]; intros s; simpl; [apply quiet_ret|].
  by apply quiet_bind.
Qed.
Lemma quiet_if {A} (b : bool) (f g : G E B A) : keeps f -> keeps g -> keeps (if b then f else g).
Proof. by destruct b. Qed.
Lemma quiet_context f : keeps (on_context f : G E B unit).
Proof. intros m. split; try done. apply heap_evolves_refl. Qed.
(** A step of the world that changes nothing but its log, its environment and
    what the broker does to orders. *)
Record still (w w' : World E) : Prop := {
  sl_heap : heap_evolves None (w_heap w) (w_heap w');
  sl_orders : w_orders w' = w_orders w;
  sl_submitted : w_submitted w' = w_submitted w;
  sl_retries : w_retry_ids w' = w_retry_ids w;
  sl_critical : w_critical w' = w_critical w;
  sl_scheduled : w_scheduled w' = w_scheduled w
}.
Lemma quiet_world {A} (f : M E A) : (forall w, still w (f w).1) -> keeps (on_world f).
Proof.
  intros H m. unfold on_world. specialize (H (mg_world m)). destruct (f (mg_world m)) as [w r].
  destruct H. by split.
Qed.
Lemma still_env {A} (f : Step E -> Step E * A) (w : World E) :
  (forall s, heap_evolves None s.2 (f s).1.2) -> still w (env_do f w).1.
Proof.
  intros H. unfold env_do. specialize (H (w_env w, w_heap w)). destruct (f _) as [s a]. by split.
Qed.
Lemma still_trans (w1 w2 w3 : World E) : still w1 w2 -> still w2 w3 -> still w1 w3.
Proof. intros [] []. split; try congruence. by eapply heap_evolves_trans. Qed.
Lemma still_refl (w : World E) : still w w.
Proof. split; try done. apply heap_evolves_refl. Qed.
Lemma write_law (s : Step E) : heap_evolves None s.2 (let (e, ok) := env_write_ok s.1 in ((e, s.2), ok)).1.2.
Proof. destruct (env_write_ok s.1). apply heap_evolves_refl. Qed.
Lemma still_transact (x : Write) (w : World E) : still w (transact x w).1.
Proof.
  unfold transact, bind.
  pose proof (still_env (fun s : Step E => (env_events s, tt)) w ltac:(intros; apply events_law)) as H.
  destruct (env_do _ w) as [w1 [[]|e]]; simpl in *; [|done].
  pose proof (still_env (fun s : Step E => let (e, ok) := env_write_ok s.1 in ((e, s.2), ok)) w1 write_law) as H1.
  destruct (env_do _ w1) as [w2 [[|]|e]]; simpl in *; eapply still_trans; eauto.
  destruct H1. by split.
Qed.
Lemma still_event (c : Config) kind key (w : World E) : still w (event c kind key w).1.
Proof.
  unfold event. destruct (session_factory c); [|apply still_refl].
  unfold catch. pose proof (still_transact (EventWrite kind key) w) as H.
  by destruct (transact _ w) as [w1 [a|e]].
Qed.
Lemma quiet_transaction {A} (body : G E B A) : keeps body -> keeps (transaction body).
Proof.
  intros H. unfold transaction. apply quiet_bind; [apply quiet_world; intros w; apply still_env; intros; apply events_law|].
  intros []. apply quiet_bind; [apply quiet_world; intros w; apply still_env, write_law|].
  intros [|]; [done|apply quiet_raise].
Qed.

Lemma quiet_event f kind key : keeps (coordinated cfg checks (fun c => event (f c) kind key)).
Proof.
  intros m. unfold coordinated. apply (quiet_world (event (f (basket_config cfg checks m)) kind key)).
  intros w. apply still_event.
Qed.
Lemma quiet_audit i r : keeps (audit_rms cfg checks i r).
Proof. apply (quiet_event (fun c => c)). Qed.
Lemma quiet_resolved i : keeps (audit_instruments_resolved cfg checks i).
Proof. apply (quiet_event (fun c => c)). Qed.
Lemma quiet_inbound signal status why : keeps (persist_inbound_signal cfg price_text signal status why).
Proof.
  unfold persist_inbound_signal. repeat (case_match; [apply quiet_ret|]).
  apply quiet_catch; [|intros; apply quiet_ret]. apply quiet_transaction. intros m.
  case_match; [case_match|]; split; try done; apply heap_evolves_refl.
Qed.
Lemma quiet_discover l : keeps (on_world (env_do (fun s => (env_discover l s, tt)))).
Proof. apply quiet_world. intros w. apply still_env. intros s. apply discover_law. Qed.
Lemma quiet_probe c l a : keeps (on_world (env_do (env_probe c l a))).
Proof. apply quiet_world. intros w. apply still_env. intros s. apply probe_law. Qed.

(** Follows the structure of an operation. *)
Ltac keep_step :=
  match goal with
  | |- keeps (bind _ _) => apply quiet_bind; [|intros ?]
  | |- keeps (catch _ _) => apply quiet_catch; [|intros ?]
  | |- keeps (loop _ _ _) => apply quiet_loop; intros ? ?
  | |- keeps (ret _) => apply quiet_ret
  | |- keeps (raise _) => apply quiet_raise
  | |- keeps (get _) => apply quiet_get
  | |- keeps (lift _) => apply quiet_lift
  | |- keeps (on_context _) => apply quiet_context
  | |- keeps (transaction _) => apply quiet_transaction
  | |- keeps (audit_rms _ _ _ _) => apply quiet_audit
  | |- keeps (audit_instruments_resolved _ _ _) => apply quiet_resolved
  | |- keeps (persist_inbound_signal _ _ _ _ _) => apply quiet_inbound
  | |- keeps (on_world (env_do (fun s => (env_discover _ s, tt)))) => apply quiet_discover
  | |- keeps (on_world (env_do (env_probe _ _ _))) => apply quiet_probe
  | |- keeps (let (_, _) := ?x in _) => destruct x
  | |- keeps (match ?x with _ => _ end) => destruct x
  | |- keeps (let _ := _ in _) => cbv zeta
  end.
Ltac keep := repeat keep_step.

Lemma quiet_resolve i : keeps (resolve_instruments cfg checks i).
Proof. unfold resolve_instruments. keep. Qed.
Lemma quiet_margin_gate ibkr : keeps (margin_gate st ibkr).
Proof.
  intros m. unfold margin_gate. destruct (assert_account_has_free_margin _ _ _ _) as [c g]. simpl.
  split; try done. apply heap_evolves_refl.
Qed.
Lemma quiet_confirm i : keeps (confirm_margin_if_borderline cfg st checks i).
Proof. unfold confirm_margin_if_borderline, probe_leg. keep. Qed.
Lemma quiet_checked i : keeps (checked_intent cfg checks str_dec i).
Proof. unfold checked_intent. keep. apply quiet_resolve. Qed.
Lemma quiet_prepare i : keeps (prepare_intent cfg st checks str_dec i).
Proof.
  unfold prepare_intent. apply quiet_bind; [apply quiet_checked|]. intros [rms ready].
  keep. apply quiet_confirm.
Qed.
Lemma quiet_entry i : keeps (entry_margin_gate st i).
Proof. unfold entry_margin_gate. destruct (_ && _); [apply quiet_margin_gate|apply quiet_ret]. Qed.

(** ** What precedes the gates *)
Lemma resolve_sound i (m m' : Manager E B) i' :
  resolve_instruments cfg checks i m = (m', Ok i') ->
  same_identity i i' /\ intent_mode i' = intent_mode i
  /\ Forall (fun l => 0 < dec_of_num (leg_quantity l)) (legs i').
Proof.
  unfold resolve_instruments. intros H. apply ran_ok in H as (m1 & c & _ & H).
  apply ran_ok in H as (m2 & [] & _ & H). apply ran_ok in H as (m3 & snap & _ & H).
  apply ran_ok in H as (m4 & r & Hr & H).
  assert (R : attach_resolved i snap (apply_stk_to_cfd_for_strategy (execute_stk_as_cfd cfg) (strategy_id i)) = Ok r).
  { destruct (attach_resolved _ _ _) as [x|[]]; simpl in Hr; try discriminate; by injection Hr as _ ->. }
  destruct (existsb _ _) eqn:Z; [done|]. apply ran_ok in H as (m5 & [] & _ & H).
  injection H as _ ->. apply attach_resolved_sound in R as [-> _]. split; [by split|]. split; [done|].
  simpl. apply Forall_forall. intros l Il. apply Qnot_le_lt. intros L.
  apply (Bool.diff_true_false). rewrite <- Z. symmetry. apply existsb_exists. exists l.
  split; [by apply list_elem_of_In|by apply Qleb_true].
Qed.

Lemma checked_sound i (m m' : Manager E B) rms ready :
  checked_intent cfg checks str_dec i m = (m', Ok (rms, ready)) ->
  evaluate checks i (ensure_strategy_config (strategy_id i) None (mg_context m)) = Ok rms
  /\ res_outcome rms = PASS
  /\ (checks_keep checks -> same_identity i ready)
  /\ Forall (fun l => 0 < dec_of_num (leg_quantity l)) (legs ready).
Proof.
  unfold checked_intent. intros H. apply ran_ok in H as (m1 & [] & H1 & H). injection H1 as <-.
  destruct (existsb _ _); [done|]. apply ran_ok in H as (m2 & c & H2 & H). injection H2 as <- <-.
  apply ran_ok in H as (m3 & r & H3 & H). injection H3 as <- H3.
  apply ran_ok in H as (m4 & [] & _ & H).
  destruct (negb _) eqn:P; [done|]. bool_to_prop.
  apply ran_ok in H as (m5 & resolved & H5 & H). apply ran_ok in H as (m6 & c & _ & H).
  injection H as _ <- <-.
  apply resolve_sound in H5 as (I & _ & Q). split_and!; [done|done| |].
  - intros K. etrans; [by eapply run_checks_keep|]. etrans; [done|by split].
  - simpl. apply Forall_map. eapply Forall_impl; [exact Q|]. intros l. unfold annotate_leg. simpl.
    by destruct (leg_required_margin _ _ _ _).
Qed.

(** ** The margin, before the checks and after them *)
(** Gate A: an opening order of an account is looked at only when the
    account's snapshot is fresh and leaves more than the floor, now and, where
    the policy says so, after the next change of margins. *)
Definition entry_margin (i : OrderIntent) (m : Manager E B) : Prop :=
  let policy := margin_policy (mg_context m) in
  let account := account_label (ibkr_account i) in
  let commitments := default [] (margin_commitments (mg_context m) !! account) in
  action i = OPEN -> opt_str (ibkr_account i) <> EmptyString -> ms_margin_service st = true ->
  exists snapshot effective,
    match margin_snapshots (mg_context m) !! account with
    | Some s => s = snapshot
    | None => env_snapshot_for (env_of m) account = Some snapshot
    end
    /\ (reject_on_stale_snapshot policy = true -> is_stale (env_now (env_of m)) snapshot = false)
    /\ effective_free_margin snapshot commitments policy = Some effective
    /\ headroom_floor snapshot policy < effective
    /\ (enforce_look_ahead policy = true -> forall ahead,
         look_ahead_effective_free snapshot commitments policy = Some ahead ->
         headroom_floor snapshot policy < ahead).
Lemma entry_sound i (m m' : Manager E B) : entry_margin_gate st i m = (m', Ok tt) -> entry_margin i m.
Proof.
  unfold entry_margin_gate, entry_margin. intros H A N S. rewrite A, bool_decide_eq_true_2 in H by done.
  destruct (str_empty _) eqn:Em; [by destruct (opt_str (ibkr_account i))|]. simpl in H.
  unfold margin_gate in H. rewrite S in H. unfold assert_account_has_free_margin in H. revert H.
  destruct (match margin_snapshots _ !! _ with Some s => Some s | None => _ end) as [s|] eqn:F; [|done].
  destruct (is_stale _ s && _) eqn:St; [done|].
  destruct (effective_free_margin s _ _) as [e|] eqn:Ef; [|done].
  destruct (e <=? headroom_floor s _) eqn:Fl; [done|]. intros H. exists s, e. split_and!; try done.
  - by destruct (margin_snapshots _ !! _); simplify_eq.
  - intros R. rewrite R in St. by rewrite andb_true_r in St.
  - by bool_to_prop.
  - intros L ahead La. rewrite L, La in H. destruct (ahead <=? _) eqn:Ah; [done|]. by bool_to_prop.
Qed.

(** The what-ifs of the legs, one after the other, and the changes of margin
    the broker answers. *)
Inductive what_ifs (account : string) : list OrderLeg -> list Q -> Manager E B -> Manager E B -> Prop :=
  | no_leg m : what_ifs account [] [] m m
  | what_if l ls r x xs m w m' :
      leg_resolved l = Some r ->
      env_do (env_probe (ibkr_contract_from_resolved r) l account) (mg_world m) = (w, Ok (Ok (Some x))) ->
      what_ifs account ls xs (set_world w m) m' ->
      what_ifs account (l :: ls) (x :: xs) m m'.
(** Gate C: what lies in the borderline band was confirmed by the broker. *)
Definition borderline_confirmed (i : OrderIntent) (m m' : Manager E B) : Prop :=
  let c := mg_context m in
  let policy := margin_policy c in
  let account := account_label (ibkr_account i) in
  forall snapshot effective,
    check_enabled policy = true -> confirm_borderline policy = true -> action i = OPEN ->
    account <> EmptyString -> margin_snapshots c !! account = Some snapshot ->
    effective_free_margin snapshot (default [] (margin_commitments c !! account)) policy = Some effective ->
    classify_headroom (fst (estimate_required_margin i (margin_rates c) (margin_rate_sources c) policy))
      effective policy = BORDERLINE ->
    ms_probe st = true /\ exists changes, what_ifs account (legs i) changes m m'
      /\ fold_left (fun sum x => dadd sum (dabs x)) changes 0 < dsub effective (min_free_buffer policy).
Lemma probes_sound account ls sum (m m' : Manager E B) total :
  loop (probe_leg account) ls sum m = (m', Ok total) ->
  exists changes, what_ifs account ls changes m m' /\ total = fold_left (fun s x => dadd s (dabs x)) changes sum.
Proof.
  revert sum m. induction ls as [|l ls IH]; intros sum m; cbn [loop].
  { intros [= <- <-]. exists []. split; [constructor|done]. }
  intros H. apply ran_ok in H as (m1 & s1 & P & H). unfold probe_leg in P.
  destruct (leg_resolved l) as [r|] eqn:R; [|done]. apply ran_ok in P as (m2 & found & F & P).
  apply ran_ok in P as (m3 & change & L & P). unfold on_world in F.
  destruct (env_do _ (mg_world m)) as [w [f|e]] eqn:D; [|done]. injection F as <- <-.
  destruct f as [f|e]; [|done]. injection L as <- <-. destruct f as [x|]; [|done]. injection P as <- <-.
  apply IH in H as (xs & W & ->). exists (x :: xs). split; [by econstructor|done].
Qed.
Lemma confirm_sound i (m m' : Manager E B) :
  confirm_margin_if_borderline cfg st checks i m = (m', Ok tt) -> borderline_confirmed i m m'.
Proof.
  unfold confirm_margin_if_borderline, borderline_confirmed. intros H snapshot effective Ce Cb A N Sn Ef Bl.
  apply ran_ok in H as (m1 & c & [= <- <-] & H). rewrite Ce, Cb in H. cbn [negb orb] in H.
  rewrite A, bool_decide_eq_true_2 in H by done. cbn [negb] in H.
  destruct (str_empty _) eqn:Em; [by destruct (account_label (ibkr_account i))|].
  rewrite Sn, Ef, Bl in H. destruct (ms_probe st); [|done]. cbn [negb] in H. split; [done|].
  apply ran_ok in H as (m2 & total & L & H). apply probes_sound in L as (changes & W & ->).
  destruct (dsub effective _ <=? _) eqn:U; [by apply ran_ok in H as (? & ? & _ & [=])|].
  injection H as <-. exists changes. split; [done|]. by bool_to_prop.
Qed.

(** ** The gates *)
Record cleared (i ready : OrderIntent) (m : Manager E B) : Prop := {
  cd_backend : ms_backend st <> NoOms;
  cd_critical : critical_block st i m = false;
  cd_killed : blocked_account env_kill_switch ready m = false;
  cd_paused : blocked_account env_paused ready m = false;
  cd_zone : intent_mode ready = EMERGENCY_FLATTEN \/ env_red_zone (env_of m) = Ok false
}.
Lemma gates_exact i ready (m : Manager E B) :
  (gates st i ready m).1 = m /\ ((gates st i ready m).2 = Ok tt <-> cleared i ready m).
Proof.
  assert (T : forall (e : exn), (m, @Raise unit e).1 = m /\
    ((m, @Raise unit e).2 = Ok tt <-> False)) by (intros e; by split).
  unfold gates, bind, get, id, red_zone_gate.
  case_bool_decide as D1; [destruct (T (OtherError "No OMSService configured on OrderManager.")) as [T1 T2]; split; [done|]; rewrite T2; by split; [|intros []]|].
  destruct (critical_block st i m) eqn:D2; [split; [done|]; split; [done|intros []; congruence]|].
  destruct (blocked_account env_kill_switch ready m) eqn:D3; [split; [done|]; split; [done|intros []; congruence]|].
  destruct (blocked_account env_paused ready m) eqn:D4; [split; [done|]; split; [done|intros []; congruence]|].
  case_bool_decide as D5; [split; [done|]; split; [|done]; intros _; split; by auto|].
  unfold bind, get. destruct (env_red_zone (env_of m)) as [[|]|e] eqn:D6.
  - split; [done|]. split; [done|]. intros [_ _ _ _ [|]]; congruence.
  - split; [done|]. split; [|done]. intros _. split; by auto.
  - destruct (is_value_error e); (split; [done|]; split; [done|intros [_ _ _ _ [|]]; congruence]).
Qed.

(** ** The claim *)
Lemma free_of (k : string) (t : ClaimTable) : free k t = 0%nat \/ free k t = 1%nat.
Proof. unfold free. repeat case_match; auto. Qed.
Lemma acquire_free (now : Z) (q : ClaimRequest) (t t' : ClaimTable) (c : ExecutionClaim) :
  acquire now q t = (t', inl c) -> free (cq_key q) t = 1%nat /\ t' = <[cq_key q := c]> t /\ cl_state c = CL_CLAIMED.
Proof.
  unfold acquire, free. destruct (t !! cq_key q) as [o|] eqn:L; [destruct (cl_state o) eqn:S|];
    intros H; simplify_eq; done.
Qed.
Lemma acquire_claim_spec ready (m m' : Manager E B) r :
  acquire_execution_claim cfg ready m = (m', r) ->
  match r with
  | Raise _ => quiet m m'
  | Ok None => m' = m /\ session_factory cfg = false
  | Ok (Some key) => key = execution_dedupe_key ready /\ session_factory cfg = true
      /\ free key (mg_claims m) = 1%nat
      /\ exists c, mg_claims m' = <[key := c]> (mg_claims m) /\ cl_state c = CL_CLAIMED
  end.
Proof.
  unfold acquire_execution_claim. destruct (session_factory cfg) eqn:S; simpl; [|by intros [= <- <-]].
  unfold transaction. intros H.
  set (events := on_world (env_do (fun s : Step E => (env_events s, tt)))) in H.
  set (write := on_world (env_do (fun s : Step E => let (e, ok) := env_write_ok s.1 in ((e, s.2), ok)))) in H.
  assert (K1 : keeps events)
    by (apply quiet_world; intros w; apply still_env; intros; apply events_law).
  assert (K2 : keeps write) by (apply quiet_world; intros w; apply still_env, write_law).
  unfold bind in H. specialize (K1 m). destruct (events m) as [m1 [u|e]]; simpl in K1; [|by simplify_eq].
  specialize (K2 m1). destruct (write m1) as [m2 [ok|e]]; simpl in K2; [|simplify_eq; by etrans].
  assert (K : quiet m m2) by (by etrans). destruct ok; [|by injection H as <- <-].
  destruct (acquire _ _ _) as [t [c|f]] eqn:A; injection H as <- <-; [|done].
  apply acquire_free in A as (F & -> & C). simpl in F. rewrite (qu_claims _ _ K) in *.
  split_and!; try done. by exists c.
Qed.

(** Claims that are taken stay taken. *)
Definition firm (t t' : ClaimTable) : Prop := forall k, free k t = 0%nat -> free k t' = 0%nat.
#[global] Instance firm_preorder : PreOrder firm.
Proof. split; [by intros t k|]. intros t1 t2 t3 F1 F2 k H. by apply F2, F1. Qed.
Lemma firm_seal now key note t : firm t (mark_executed now key note t).1.
Proof. intros k H. pose proof (free_sealed k _ _ (mark_executed_sealed now key note t k)). lia. Qed.
Lemma firm_insert k c t : cl_state c = CL_CLAIMED -> firm t (<[k := c]> t) /\ free k (<[k := c]> t) = 0%nat.
Proof.
  intros C. split; [intros k' H|]; unfold free; [|by rewrite lookup_insert_eq, C].
  destruct (decide (k = k')) as [->|N]; [by rewrite lookup_insert_eq, C|].
  by rewrite lookup_insert_ne.
Qed.
Definition holds_claims {A} (f : G E B A) : Prop := forall m, firm (mg_claims m) (mg_claims (f m).1).
Lemma firm_keeps {A} (f : G E B A) : keeps f -> holds_claims f.
Proof. intros K m. by rewrite (qu_claims _ _ (K m)). Qed.
Lemma firm_bind {A A'} (f : G E B A) (k : A -> G E B A') :
  holds_claims f -> (forall a, holds_claims (k a)) -> holds_claims (bind f k).
Proof.
  intros F K m. unfold bind. specialize (F m). destruct (f m) as [m1 [a|e]]; simpl in *; [|done].
  etrans; [exact F|apply K].
Qed.
Lemma firm_catch {A} (f : G E B A) (h : exn -> G E B A) :
  holds_claims f -> (forall e, holds_claims (h e)) -> holds_claims (catch f h).
Proof.
  intros F K m. unfold catch. specialize (F m). destruct (f m) as [m1 [a|e]]; simpl in *; [done|].
  etrans; [exact F|apply K].
Qed.
Lemma firm_world {A} (f : M E A) : holds_claims (on_world f).
Proof. intros m. unfold on_world. by destruct (f (mg_world m)). Qed.
Lemma firm_coordinated {A} (f : Config -> M E A) : holds_claims (coordinated cfg checks f).
Proof. intros m. unfold coordinated. apply firm_world. Qed.
Lemma firm_transaction {A} (body : G E B A) : holds_claims body -> holds_claims (transaction body).
Proof.
  intros H. apply firm_bind; [apply firm_world|intros _]. apply firm_bind; [apply firm_world|].
  intros [|]; [done|]. intros m. done.
Qed.

Lemma firm_seal_claim key : holds_claims (seal_execution_claim key).
Proof.
  destruct key; [|by intros m]. apply firm_catch; [|by intros e m].
  apply firm_transaction. intros m. apply firm_seal.
Qed.
Lemma firm_failed key : holds_claims (resolve_failed_claim key).
Proof. apply firm_keeps. unfold resolve_failed_claim. keep. Qed.
Lemma firm_update h signal i r : holds_claims (update_state cfg price_text h signal i r).
Proof.
  apply firm_keeps. unfold update_state. destruct h; [keep|]; intros m; case_match;
    (split; try done; apply heap_evolves_refl).
Qed.
Lemma firm_rebuild : holds_claims (rebuild_rms cfg).
Proof. intros m. unfold rebuild_rms. repeat case_match; done. Qed.
Lemma firm_or_hold {A} key (f : G E B A) : holds_claims f -> holds_claims (or_hold key f).
Proof.
  intros F. apply firm_catch; [done|]. intros e. apply firm_bind; [apply firm_failed|]. intros u m. done.
Qed.
Lemma firm_pure {A} (f : Manager E B -> result A) : holds_claims (fun m => (m, f m)).
Proof. by intros m. Qed.
Lemma firm_basket h signal pk rms i key :
  holds_claims (execute_basket cfg st checks price_text h signal pk rms i key).
Proof.
  unfold execute_basket. apply firm_bind.
  { apply firm_or_hold, firm_bind; [apply firm_coordinated|]. intros r.
    apply firm_bind; [apply firm_pure|]. intros er. apply firm_pure. }
  intros [r er]. apply firm_bind; [apply firm_world|]. intros orders. apply firm_bind.
  - destruct (bx_success r).
    + apply firm_bind; [apply firm_seal_claim|]. intros. apply firm_update.
    + apply firm_bind; [|intros; apply firm_failed]. apply firm_keeps. keep.
  - intros u. apply firm_bind; [apply firm_rebuild|]. intros. apply firm_pure.
Qed.
Lemma firm_direct h signal rms i key :
  holds_claims (execute_direct cfg st price_text h signal rms i key).
Proof.
  unfold execute_direct. apply firm_bind; [apply firm_pure|]. intros price. apply firm_bind.
  { apply firm_or_hold, firm_bind; [apply firm_world|]. intros er.
    destruct (er_success er); apply firm_pure. }
  intros er. apply firm_bind; [apply firm_seal_claim|]. intros u.
  apply firm_bind; [apply firm_update|]. intros. apply firm_pure.
Qed.

(** ** The theorems *)
Abbreviation submit h signal pk i :=
  (evaluate_and_submit_locked cfg st checks price_text str_dec h signal pk i).

(** The run, up to the claim. *)
Lemma submit_split h signal pk i (m : Manager E B) :
  (quiet m (submit h signal pk i m).1 /\ exists e, (submit h signal pk i m).2 = Raise e)
  \/ exists rms ready m1 key m2,
       prepare_intent cfg st checks str_dec i m = (m1, Ok (rms, ready))
       /\ cleared i ready m1 /\ acquire_execution_claim cfg ready m1 = (m2, Ok key)
       /\ firm (mg_claims m2) (mg_claims (submit h signal pk i m).1).
Proof.
  pose proof (quiet_prepare i m) as K. unfold evaluate_and_submit_locked.
  rewrite (bind_run (prepare_intent _ _ _ _ i)).
  destruct (prepare_intent _ _ _ _ i m) as [m1 [[rms ready]|e]] eqn:P; simpl in K; [|by left; eauto].
  rewrite (bind_run (gates st i ready)). destruct (gates_exact i ready m1) as [G1 G2].
  destruct (gates st i ready m1) as [m1' [[]|e]]; simpl in G1; subst m1'; [|by left; eauto].
  assert (C : cleared i ready m1) by (by apply G2).
  rewrite (bind_run (acquire_execution_claim cfg ready)).
  destruct (acquire_execution_claim cfg ready m1) as [m2 [key|e]] eqn:A.
  - right. exists rms, ready, m1, key, m2. split_and!; [done..|].
    destruct (ms_backend st); [apply firm_basket|apply firm_direct|apply firm_basket].
  - left. apply acquire_claim_spec in A. split; [by etrans|eauto].
Qed.

(** What an execution that is not refused went through: [m1] is the state
    after the checks, [m2] the one after Gate C, in which the gates are
    passed. *)
Definition let_through (i : OrderIntent) (m after : Manager E B) : Prop :=
  exists rms ready m1 m2,
    checked_intent cfg checks str_dec i m = (m1, Ok (rms, ready))
    /\ confirm_margin_if_borderline cfg st checks ready m1 = (m2, Ok tt)
    /\ evaluate checks i (ensure_strategy_config (strategy_id i) None (mg_context m)) = Ok rms
    /\ res_outcome rms = PASS
    /\ same_identity i ready /\ Forall (fun l => 0 < dec_of_num (leg_quantity l)) (legs ready)
    /\ borderline_confirmed ready m1 m2
    /\ quiet m m2 /\ cleared i ready m2
    /\ (session_factory cfg = true ->
        free (execution_dedupe_key i) (mg_claims m) = 1%nat
        /\ free (execution_dedupe_key i) (mg_claims after) = 0%nat).
Lemma locked_let_through h signal pk i (m : Manager E B) :
  checks_keep checks ->
  let after := (submit h signal pk i m).1 in
  (quiet m after /\ exists e, (submit h signal pk i m).2 = Raise e) \/ let_through i m after.
Proof.
  intros K after. destruct (submit_split h signal pk i m) as [Q|(rms & ready & m2 & key & m3 & P & C & A & F)];
    [by left|right].
  pose proof (quiet_prepare i m) as Q. rewrite P in Q. simpl in Q.
  apply ran_ok in P as (m1 & [rms' ready'] & P & G). apply ran_ok in G as (m2' & [] & G & R).
  injection R as -> -> ->.
  destruct (checked_sound i m m1 rms ready P) as (Ev & Pass & Same & Pos). specialize (Same K).
  exists rms, ready, m1, m2. split_and!; try done; [by apply confirm_sound|]. intros S.
  apply acquire_claim_spec in A. destruct key as [key|]; [|destruct A; congruence].
  destruct A as (-> & _ & Fr & c & Ec & Cc). rewrite (same_identity_key i ready Same) in *.
  rewrite (qu_claims _ _ Q) in *. split; [done|]. apply F. rewrite Ec. by apply firm_insert.
Qed.

(** C1: Nothing reaches the broker unless every gate was passed: a submission
    either changes no order, no claim and no latch, and raises; or the account
    had free margin when it came in (Gate A), its intent passed the risk checks
    and has positive quantities, a margin in the borderline band was confirmed
    by the broker's what-ifs (Gate C), it is of an account that is neither
    latched, killed nor paused (for an OPEN), outside the red zone (unless it
    is an emergency), and its claim was free and is now taken.  The states in
    which the gates are read are those of the run: [m0] after Gate A, [m1] and
    [m2] in [let_through]. *)
Theorem orders_need_clearance (h : option (StrategyHandler B)) (signal : Signal) (pk : option Z)
    (i : OrderIntent) (m : Manager E B) :
  checks_keep checks ->
  let out := evaluate_and_submit cfg st checks price_text str_dec h signal pk i m in
  (quiet m out.1 /\ exists e, out.2 = Raise e)
  \/ (entry_margin i m /\ exists m0, entry_margin_gate st i m = (m0, Ok tt) /\ quiet m m0 /\ let_through i m0 out.1).
Proof.
  intros K out. subst out. pose proof (quiet_entry i m) as Q. unfold evaluate_and_submit. rewrite bind_run.
  destruct (entry_margin_gate st i m) as [m0 [[]|e]] eqn:G; simpl in Q; [|left; by eauto].
  destruct (locked_let_through h signal pk i m0 K) as [[Q' R]|L].
  - left. split; [by etrans|done].
  - right. split; [by eapply entry_sound|]. by exists m0.
Qed.

(** What can happen between two executions: other executions, sweeps of stale
    claims, and whatever leaves the claims alone. *)
Inductive happens : Manager E B -> Manager E B -> Prop :=
  | Executes h signal pk j m : happens m (submit h signal pk j m).1
  | Sweeps count now stale m :
      happens m (set_claims (reconcile_stale_claims count now stale (mg_claims m)).1 m)
  | Elsewhere m m' : mg_claims m' = mg_claims m -> happens m m'.
Lemma submit_firm h signal pk i (m : Manager E B) : firm (mg_claims m) (mg_claims (submit h signal pk i m).1).
Proof.
  destruct (submit_split h signal pk i m) as [[Q _]|(rms & ready & m1 & key & m2 & P & _ & A & F)].
  - by rewrite (qu_claims _ _ Q).
  - pose proof (quiet_prepare i m) as Q. rewrite P in Q. simpl in Q. rewrite <- (qu_claims _ _ Q).
    etrans; [|exact F]. apply acquire_claim_spec in A. destruct key; [|by destruct A as [-> _]].
    destruct A as (_ & _ & _ & c & -> & C). by apply firm_insert.
Qed.
Lemma happens_firm (m m' : Manager E B) : rtc happens m m' -> firm (mg_claims m) (mg_claims m').
Proof.
  induction 1 as [|m1 m2 m3 H _ IH]; [done|]. etrans; [|exact IH].
  destruct H as [h signal pk j m1|count now stale m1|m1 m2 E1]; [apply submit_firm| |by rewrite E1].
  intros k F. pose proof (free_sealed k _ _ (reconcile_sealed count now stale (mg_claims m1) k)).
  simpl. lia.
Qed.

(** C2: An intent reaches the broker at most once: after an execution, however
    it ended and whatever happens in between, a second execution with the same
    account, strategy and signal changes no order, no claim and no latch, and
    raises, unless the first one was such an execution itself. *)
Theorem executed_once (h h' : option (StrategyHandler B)) (signal signal' : Signal) (pk pk' : option Z)
    (i j : OrderIntent) (m m' : Manager E B) :
  checks_keep checks -> session_factory cfg = true ->
  execution_dedupe_key j = execution_dedupe_key i ->
  rtc happens (submit h signal pk i m).1 m' ->
  (quiet m (submit h signal pk i m).1 /\ exists e, (submit h signal pk i m).2 = Raise e)
  \/ (quiet m' (submit h' signal' pk' j m').1 /\ exists e, (submit h' signal' pk' j m').2 = Raise e).
Proof.
  intros K S D H.
  destruct (locked_let_through h signal pk i m K) as [Q|(_ & _ & _ & _ & _ & _ & _ & _ & _ & _ & _ & _ & _ & C)]; [by left|].
  destruct (C S) as [_ Taken]. apply (happens_firm _ _ H) in Taken. right.
  destruct (locked_let_through h' signal' pk' j m' K) as [Q|(_ & _ & _ & _ & _ & _ & _ & _ & _ & _ & _ & _ & _ & C')];
    [done|]. destruct (C' S) as [Free _]. rewrite D in Free. lia.
Qed.

(** ** The fan-out *)
Lemma single_account h signal pk single x (m m' : Manager E B) o :
  fanout_single_account cfg st checks price_text str_dec h signal pk single x m = (m', Ok o) ->
  ao_account_id o = Some (ax_account_id x) /\ ao_ibkr_account o = Some (ax_ibkr_account x)
  /\ (is_Some (ao_result o) <-> ao_error o = None).
Proof.
  unfold fanout_single_account. intros H. apply ran_ok in H as (m1 & [] & _ & H).
  apply ran_ok in H as (m2 & [] & _ & H). unfold catch in H.
  match type of H with (match ?f ?s with _ => _ end = _) => destruct (f s) as [m3 [a|e]] eqn:F end.
  - injection H as _ <-. apply ran_ok in F as (m4 & i & _ & F). apply ran_ok in F as (m5 & c & _ & F).
    destruct (bool_decide _ && _); [done|]. destruct (bool_decide _ && _); [done|].
    apply ran_ok in F as (m6 & r & _ & F). by injection F as _ <-.
  - destruct (is_value_error e && negb single); [|done]. injection H as _ <-. simpl.
    by split_and!; try intros [? ?].
Qed.
Lemma gather_spec h signal pk single l acc (m m' : Manager E B) r :
  loop (gather_account cfg st checks price_text str_dec h signal pk single) l acc m = (m', r) ->
  match r with
  | Ok (outcomes, _) => exists new, outcomes = acc.1 ++ new
      /\ Forall2 (fun x o => ao_account_id o = Some (ax_account_id x)
                            /\ ao_ibkr_account o = Some (ax_ibkr_account x)
                            /\ (is_Some (ao_result o) <-> ao_error o = None)) l new
  | Raise e => single = true /\ is_value_error e = true
  end.
Proof.
  revert acc m. induction l as [|x l IH]; intros [outs bad] m; simpl.
  { intros [= <- <-]. exists []. by rewrite app_nil_r. }
  rewrite bind_run. unfold gather_account at 1. rewrite bind_run. unfold catch. rewrite bind_run.
  destruct (fanout_single_account _ _ _ _ _ _ _ _ _ x m) as [m1 [o|e]] eqn:F; simpl.
  - intros H. apply IH in H. destruct r as [[outcomes b]|e]; [|done]. destruct H as (new & -> & N).
    exists (o :: new). simpl. rewrite <- app_assoc. split; [done|]. constructor; [|done].
    by eapply single_account.
  - destruct (is_value_error e && single) eqn:V; [bool_to_prop; by intros [= _ <-]|]. simpl.
    intros H. apply IH in H. destruct r as [[outcomes b]|e']; [|done]. destruct H as (new & -> & N).
    exists (account_outcome x None (Some e) :: new). simpl. rewrite <- app_assoc. split; [done|].
    constructor; [|done]. simpl. by split_and!; try intros [? ?].
Qed.

(** A fan-out over several accounts never raises and drops none: it returns
    one outcome per account, in their order, each with the account's result or
    with its error and not both, whatever happens in the others.  With one
    account it can raise only that account's own refusal. *)
Theorem fanout_complete (h : StrategyHandler B) (signal : Signal) (pk : option Z)
    (contexts : list AccountExecutionContext) (m : Manager E B) :
  match (fanout_accounts cfg st checks price_text str_dec h signal pk contexts m).2 with
  | Ok f => Forall2 (fun x o => ao_account_id o = Some (ax_account_id x)
                               /\ ao_ibkr_account o = Some (ax_ibkr_account x)
                               /\ (is_Some (ao_result o) <-> ao_error o = None))
              contexts (fo_outcomes f)
  | Raise e => length contexts = 1%nat /\ is_value_error e = true
  end.
Proof.
  unfold fanout_accounts. rewrite bind_run.
  destruct (loop _ contexts ([], false) m) as [m1 r] eqn:L. apply gather_spec in L.
  destruct r as [[outcomes bad]|e]; simpl.
  - by destruct L as (new & -> & N).
  - by destruct L as [L%Nat.eqb_eq V].
Qed.
End Quiet.

(** ** Examples: the scripted broker, outside the red zone *)
#[export] Instance SimSurroundings : Surroundings Sim := {|
  env_red_zone := fun b => Ok (5 <? sim_clock b);
  env_paused := fun _ _ => false; env_snapshot_for := fun _ _ => None; env_catalog := fun _ => None;
  env_discover := fun _ s => s; env_probe := fun _ _ _ s => (s, Ok None);
  env_accounts := fun _ => ex_db;
  env_open_rows := fun _ => Some []; env_correlation := fun _ => None;
  env_fresh_id := fun _ => "SIG-1"%string; env_account_label := fun _ _ => None |}.
#[export] Instance SimLawfulSurroundings : LawfulSurroundings Sim.
Proof. split; intros; apply heap_evolves_refl. Qed.

Definition ex_settings : Settings := {|
  ms_backend := Baskets; ms_order_type := "MARKET"; ms_symbol := None; ms_quantity := None;
  ms_price := None; ms_strategy_id := "model_blue"; ms_router := true; ms_margin_service := false;
  ms_probe := false; market_value_utilisation_cap := 1 |}.
Definition ex_cfg : Config := ex_basket_cfg None.
Definition ex_handler : StrategyHandler InMemory.Book :=
  model_blue_handler (new_strategy ExecutionResult None None None
    {| cfg_min_order_notional := 100; cfg_pair_ratio_tolerance := 1 # 2; cfg_pair_min_deployment_pct := 0 |}).
Definition ex_manager (replies : list Reply) : Manager Sim InMemory.Book := {|
  mg_world := start replies [] []; mg_context := ex_context; mg_claims := ∅; mg_inbox := [];
  mg_book := ∅ |}.
Definition ex_submit (m : Manager Sim InMemory.Book) : Manager Sim InMemory.Book * result ExecutionResult :=
  evaluate_and_submit_locked ex_cfg ex_settings (get_default_checks 0) (fun _ => EmptyString)
    (fun _ => EmptyString) (Some ex_handler) ex_open None ex_pair_intent m.
Example ex_executed : is_ok (ex_submit (ex_manager [Fill; Fill])).2 = true.
Proof. by vm_compute. Qed.

Lemma executed_once_witness :
  let after := (ex_submit (ex_manager [Fill; Fill])).1 in
  quiet after (ex_submit after).1 /\ exists e, (ex_submit after).2 = Raise e.
Proof.
  intros after.
  destruct (executed_once ex_cfg ex_settings (get_default_checks 0) (fun _ => EmptyString)
    (fun _ => EmptyString) (Some ex_handler) (Some ex_handler) ex_open ex_open None None
    ex_pair_intent ex_pair_intent (ex_manager [Fill; Fill]) after
    (default_checks_keep 0) eq_refl eq_refl (rtc_refl _ _)) as [[_ [e H]]|Q]; [|exact Q].
  exfalso. pose proof ex_executed as X. unfold ex_submit in X. rewrite H in X. discriminate X.
Defined.

(** The same with the margin service. *)
Definition ex_margined : Settings := {|
  ms_backend := Baskets; ms_order_type := "MARKET"; ms_symbol := None; ms_quantity := None;
  ms_price := None; ms_strategy_id := "model_blue"; ms_router := true; ms_margin_service := true;
  ms_probe := true; market_value_utilisation_cap := 1 |}.
Definition ex_enter (m : Manager Sim InMemory.Book) : Manager Sim InMemory.Book * result ExecutionResult :=
  evaluate_and_submit ex_cfg ex_margined (get_default_checks 0) (fun _ => EmptyString)
    (fun _ => EmptyString) (Some ex_handler) ex_open None ex_pair_intent m.
Example ex_entered : is_ok (ex_enter (ex_manager [Fill; Fill])).2 = true.
Proof. by vm_compute. Qed.
Lemma orders_need_clearance_witness :
  (exists snapshot effective,
     margin_snapshots ex_context !! account_label (ibkr_account ex_pair_intent) = Some snapshot
     /\ effective_free_margin snapshot [] (margin_policy ex_context) = Some effective
     /\ headroom_floor snapshot (margin_policy ex_context) < effective)
  /\ exists m0, let_through ex_cfg ex_margined (get_default_checks 0) (fun _ => EmptyString)
       ex_pair_intent m0 (ex_enter (ex_manager [Fill; Fill])).1.
Proof.
  destruct (orders_need_clearance ex_cfg ex_margined (get_default_checks 0) (fun _ => EmptyString)
    (fun _ => EmptyString) (Some ex_handler) ex_open None ex_pair_intent (ex_manager [Fill; Fill])
    (default_checks_keep 0)) as [[_ [e H]]|[En (m0 & _ & _ & L)]].
  - exfalso. pose proof ex_entered as X. unfold ex_enter in X. rewrite H in X. discriminate X.
  - split; [|by exists m0]. destruct (En eq_refl) as (s & x & F & _ & Ef & Fl & _); [discriminate|reflexivity|].
    exists s, x. split; [|split; [exact Ef|exact Fl]]. simpl mg_context in F.
    destruct (margin_snapshots ex_context !! _) as [s'|] eqn:Sn; [by subst s'|].
    vm_compute in Sn. discriminate Sn.
Defined.
