(* ===== verification/Inbound.v ===== *)
(** * Inbound parsing: [services/strategies/inbound.py],
    [services/strategies/registry.py] and [services/strategies/legacy.py]

    A webhook payload is parsed by the first strategy that can handle its
    strategy id, and by the single-name parser when there is none. *)

From S2P Require Import Prelude Rounding PyText PyTime Identifiers RmsModels Parser Claims JobQueue SignalInbox RejectReasons OrderManager.

#[local] Open Scope py_scope.

(** ** [StrategyRegistry]: the first handler that can handle an id *)
Section Registry.
Context {H : Type} (can_handle : H -> option string -> bool).
Definition registry_get (handlers : list H) (strategy_id : option string) : option H :=
  List.find (fun h => can_handle h strategy_id) handlers.
Definition register (h : H) (handlers : list H) : list H := handlers ++ [h].
Lemma registry_first (handlers : list H) s h :
  registry_get handlers s = Some h -> can_handle h s = true.
Proof. intros F. by apply List.find_some in F as []. Qed.
(** A later registration never takes an id from an earlier one. *)
Lemma register_get (handlers : list H) (new : H) s :
  registry_get (register new handlers) s =
  match registry_get handlers s with
  | Some h => Some h
  | None => if can_handle new s then Some new else None
  end.
Proof.
  unfold registry_get, register. induction handlers as [|h l IH]; simpl; [done|].
  by destruct (can_handle h s).
Qed.
End Registry.

(** What parsing uses of a handler. *)
Record InboundHandler : Type := {
  ih_can_handle : option string -> bool;
  ih_parse_payload : list (string * json) -> Z -> string -> option json -> result Signal
}.
Definition model_blue_inbound : InboundHandler := {|
  ih_can_handle := is_model_blue_strategy; ih_parse_payload := parse_model_blue_payload |}.

(** ** [parse_legacy_signal] *)
(** [a or b or c]. *)
Definition first_of (keys : list string) (d : json) (payload : list (string * json)) : json :=
  fold_right (fun k v => jor (jget k payload) v) d keys.
Definition extract_decimal (val : json) : pydec :=
  match val with JNull => DFin 0 | v => default (DFin 0) (decimal_of_json v) end.
(** [payload.get("ref_price_a", payload.get("price"))]: a present [null] counts. *)
Definition legacy_ref_price (payload : list (string * json)) : pydec :=
  extract_decimal (default (jget "price" payload) (jfind "ref_price_a" payload)).
(** [int(float(str(raw)))] under [except (ValueError, TypeError)]. *)
Definition legacy_raw_quantity (payload : list (string * json)) : result (option Z) :=
  let raw := jor (jget "quantity" payload) (jor (jget "qty" payload) (jget "position_size" payload)) in
  match raw with
  | JNull => Ok None
  | v => match parse_float (py_str v) with
         | Ok f => match py_int_of (JFloat f) with
                   | Ok n => Ok (Some n)
                   | Raise TypeError | Raise (ValueError _) => Ok None
                   | Raise e => Raise e
                   end
         | Raise TypeError | Raise (ValueError _) => Ok None
         | Raise e => Raise e
         end
  end.
(** [price if price > 0 else None]; comparing a NaN raises. *)
Definition positive_price (p : pydec) : result (option pydec) :=
  match p with
  | DNaN => Raise InvalidOperation
  | DInf neg => Ok (if neg then None else Some p)
  | DFin q => Ok (if (0 <? q)%Q then Some p else None)
  end.
Definition legacy_signal_type (payload : list (string * json)) : SignalType :=
  let t := str_upper (py_str (first_of ["action"; "signal_type"]%string (JStr "BUY") payload)) in
  if (t =? "HOLD")%string then SIG_HOLD
  else if (t =? "SELL")%string || (t =? "SHORT")%string || (t =? "CLOSE")%string then SIG_SELL
  else SIG_BUY.
Definition inbound_reason (request_id : string) : string :=
  ("TradingView webhook request_id=" ++ request_id)%string.
Definition parse_legacy_signal (payload : list (string * json)) (strategy_id request_id : string)
    (utc_now : Z) (capture_data : json) : result Signal :=
  let signal_id := py_str (first_of ["signal_id"; "trade_id"]%string (JStr request_id) payload) in
  let action := str_upper (py_str (first_of ["action"; "signal_type"]%string (JStr "OPEN") payload)) in
  let pair := py_str (first_of ["pair"; "ticker"; "symbol"]%string (JStr "N/A") payload) in
  let side := str_upper (py_str (first_of ["side"; "direction"]%string (JStr "BUY") payload)) in
  let! quantity := legacy_raw_quantity payload in
  let! price := positive_price (legacy_ref_price payload) in
  Ok {| sig_signal_type := legacy_signal_type payload; sig_timestamp := utc_now;
        sig_reason := inbound_reason request_id; sig_signal_id := Some signal_id;
        sig_strategy_id := Some strategy_id; sig_action := action;
        sig_symbol := if (pair =? "N/A")%string then None else Some pair; sig_side := Some side;
        sig_price := price; sig_quantity := quantity; sig_trade_id := None; sig_direction := None;
        sig_market := None; sig_legs := []; sig_raw_payload := Some capture_data |}.

(** ** [parse_tradingview_payload] *)
Definition inbound_strategy (payload : list (string * json)) : string :=
  py_str (first_of ["strategy"; "strategy_id"]%string (JStr "default_strategy") payload).
Definition parse_tradingview_payload (handlers : list InboundHandler) (payload : list (string * json))
    (timestamp : Z) (request_id : string) (capture_data : json) : result Signal :=
  match registry_get ih_can_handle handlers (Some (inbound_strategy payload)) with
  | Some h => ih_parse_payload h payload timestamp (inbound_reason request_id) (Some capture_data)
  | None => parse_legacy_signal payload (inbound_strategy payload) request_id timestamp capture_data
  end.
(** [OrderManager.parse_inbound_payload] on a stored payload; one that is no
    object has no [get]. *)
Definition parse_inbound_payload (handlers : list InboundHandler) (payload : json) (timestamp : Z)
    (request_id : string) (capture_data : json) : result Signal :=
  match payload with
  | JObj fields => parse_tradingview_payload handlers fields timestamp request_id capture_data
  | _ => Raise AttributeError
  end.

(** ** Texts are never empty *)
Lemma repr_nonempty (v : json) : str_empty (py_repr v) = false \/ exists f, v = JFloat f.
Proof.
  destruct v as [|[]|n|f|s|l|l]; try (by left); [|by right; eauto].
  left. simpl. destruct (Z.ltb_spec n 0) as [L|L].
  - unfold str_Z. by rewrite (proj2 (Z.ltb_lt n 0) L).
  - by destruct (str_Z_digits n L) as (c & s & -> & _).
Qed.
Lemma first_of_truthy keys d payload : truthy d = true -> truthy (first_of keys d payload) = true.
Proof.
  intros D. induction keys as [|k keys IH]; simpl; [done|]. unfold jor. by destruct (truthy (jget k payload)) eqn:T.
Qed.
Lemma of_chars_app_nonempty (l l' : list Ascii.ascii) :
  l' <> [] -> str_empty (of_chars (l ++ l')) = false.
Proof. destruct l as [|c l]; [|done]. by destruct l'. Qed.
Lemma float_text_nonempty (q : Q) : str_empty (float_text q) = false.
Proof.
  unfold float_text. destruct (q <? 0)%Q; [done|].
  destruct (_ && _); [destruct (_ <=? 0)%Z; [done|]; destruct (_ <=? _)%Z|].
  - rewrite app_assoc. by apply of_chars_app_nonempty.
  - by apply of_chars_app_nonempty.
  - apply of_chars_app_nonempty. by destruct (_ <? 0)%Z.
Qed.
Lemma truthy_text (v : json) : truthy v = true -> str_empty (py_str v) = false.
Proof.
  intros T. destruct v as [| | |[q| |]|s| |]; try (by destruct (repr_nonempty JNull));
    try (by (unfold py_str; match goal with |- str_empty (py_repr ?v) = _ => destruct (repr_nonempty v) as [H|[f H]]; [exact H|discriminate H] end)).
  - unfold py_str, py_repr, str_float. destruct (Qeq_bool q 0); [done|]. apply float_text_nonempty.
  - by destruct neg.
  - simpl in *. by destruct s.
Qed.
Lemma inbound_strategy_nonempty payload : str_empty (inbound_strategy payload) = false.
Proof. by apply truthy_text, first_of_truthy. Qed.

(** ** Facts about the legacy parser *)
Lemma legacy_quantity_cases payload :
  (exists n, legacy_raw_quantity payload = Ok n)
  \/ (legacy_raw_quantity payload = Raise OverflowError
      /\ exists raw neg, parse_float (py_str raw) = Ok (FInf neg)).
Proof.
  unfold legacy_raw_quantity. destruct (jor _ _) as [| | | | | |] eqn:R; [by left; eauto|..];
    match goal with |- context [parse_float ?t] => destruct (parse_float t) as [[q|neg|]|e] eqn:F end;
    simpl; try (by left; eauto); try (by right; eauto);
    left; unfold parse_float in F; repeat case_match; simplify_eq; eauto.
Qed.

(** The legacy parser refuses two things only, a quantity that overflows and
    a price that is no number; any other payload gives a signal whose price,
    if it has one, is positive, whose symbol is never the placeholder, whose
    action and side are upper case, and which carries no legs and no trade id. *)
Theorem legacy_parse_exact (payload : list (string * json)) (strategy_id request_id : string)
    (utc_now : Z) (capture_data : json) :
  match parse_legacy_signal payload strategy_id request_id utc_now capture_data with
  | Ok s =>
      match sig_price s with
      | Some p => p = legacy_ref_price payload /\ price_ok p
      | None => match legacy_ref_price payload with DFin q => (q <= 0)%Q | DInf neg => neg = true | DNaN => False end
      end
      /\ sig_symbol s <> Some "N/A"%string
      /\ str_upper (sig_action s) = sig_action s
      /\ (exists t, sig_side s = Some t /\ str_upper t = t)
      /\ sig_legs s = [] /\ sig_trade_id s = None /\ sig_strategy_id s = Some strategy_id
  | Raise e =>
      (e = OverflowError /\ exists raw neg, parse_float (py_str raw) = Ok (FInf neg))
      \/ (e = InvalidOperation /\ legacy_ref_price payload = DNaN)
  end.
Proof.
  unfold parse_legacy_signal.
  destruct (legacy_quantity_cases payload) as [[n ->]|[-> X]]; simpl; [|by left].
  unfold positive_price. destruct (legacy_ref_price payload) as [q|neg|] eqn:P; simpl; [| |by right].
  - destruct (0 <? q)%Q eqn:L; bool_to_prop; simpl; rewrite !upper_idemp;
      split_and!; try done; try (case_match; [done|]; intros [= ?]; bool_to_prop; congruence); eauto using upper_idemp.
  - destruct neg; simpl; rewrite !upper_idemp;
      split_and!; try done; try (case_match; [done|]; intros [= ?]; bool_to_prop; congruence); eauto using upper_idemp.
Qed.

(** ** Facts about the dispatch *)
Section Dispatch.
Context {E B : Type} `{!Environment E, !Surroundings E}.
Variable st : Settings.

(** The strategy that parses a payload is the one that executes it: the
    signal is routed by the registry to the handler that parsed it, and to
    none when the single-name parser did. *)
Theorem inbound_route_stable (payload : list (string * json)) (ts : Z) (request_id : string)
    (capture : json) (s : Signal) :
  parse_tradingview_payload [model_blue_inbound] payload ts request_id capture = Ok s ->
  registry_get ih_can_handle [model_blue_inbound] (Some (strategy_of st s))
  = registry_get ih_can_handle [model_blue_inbound] (Some (inbound_strategy payload))
  /\ (is_model_blue_strategy (Some (inbound_strategy payload)) = true -> signal_ok s)
  /\ sig_reason s = inbound_reason request_id /\ sig_timestamp s = ts
  /\ sig_raw_payload s = Some capture.
Proof.
  unfold parse_tradingview_payload, registry_get. simpl.
  destruct (is_model_blue_strategy (Some (inbound_strategy payload))) eqn:M; simpl; intros H.
  - assert (K : signal_ok s) by (by eapply parsed_signal_ok).
    unfold strategy_of. rewrite (so_strategy _ K). simpl. split; [done|]. split; [done|].
    unfold parse_model_blue_payload in H. repeat (case_match; [done|]).
    apply rbind_ok in H as (d & _ & H). destruct (_ =? "CLOSE")%string; [by injection H as <-|].
    apply rbind_ok in H as (l & _ & H). by injection H as <-.
  - unfold parse_legacy_signal in H. apply rbind_ok in H as (n & _ & H).
    apply rbind_ok in H as (p & _ & H). injection H as <-. unfold strategy_of. simpl.
    unfold str_or. by rewrite inbound_strategy_nonempty, M.
Qed.
End Dispatch.

(** A payload that names the strategy under [strategy_id] only is given to the
    strategy, which reads [strategy] only and refuses it. *)
Lemma strategy_id_only_refused (payload : list (string * json)) ts request_id capture :
  is_model_blue_strategy (Some (inbound_strategy payload)) = true ->
  truthy (jget "strategy" payload) = false ->
  parse_tradingview_payload [model_blue_inbound] payload ts request_id capture
  = Raise (ModelBlueValidationError "MODEL_BLUE_STRATEGY_MISMATCH").
Proof.
  intros M T. unfold parse_tradingview_payload, registry_get. simpl. rewrite M. simpl.
  unfold parse_model_blue_payload, text_field, jor. by rewrite T.
Qed.

(** ** Examples *)
Definition ex_st : Settings := {|
  ms_backend := Direct; ms_order_type := "MARKET"; ms_symbol := None; ms_quantity := None;
  ms_price := None; ms_strategy_id := "default"; ms_router := false; ms_margin_service := false;
  ms_probe := false; market_value_utilisation_cap := 1 |}.
Lemma inbound_route_stable_witness :
  exists s, parse_tradingview_payload [model_blue_inbound] ex_payload 0 "r" (JObj []) = Ok s
    /\ registry_get ih_can_handle [model_blue_inbound] (Some (strategy_of ex_st s))
       = registry_get ih_can_handle [model_blue_inbound] (Some (inbound_strategy ex_payload)).
Proof.
  destruct (parse_tradingview_payload [model_blue_inbound] ex_payload 0 "r" (JObj [])) as [s|] eqn:P;
    [|vm_compute in P; discriminate].
  exists s. split; [reflexivity|].
  exact (proj1 (inbound_route_stable ex_st ex_payload 0 "r" (JObj []) s P)).
Defined.

(** A single-name payload whose signal and trade ids differ is executed under
    another signal than the one its job, and with it the evidence that
    protects the job, is filed under. *)
Definition ex_single : list (string * json) :=
  [("strategy", JStr "trend"); ("signal_id", JStr "S1"); ("trade_id", JStr "T1");
   ("action", JStr "open"); ("ticker", JStr "SPY"); ("price", JStr "510.25"); ("qty", JStr "3.9")]%string.
Example legacy_ids_differ :
  (exists s, parse_tradingview_payload [model_blue_inbound] ex_single 0 "r" (JObj []) = Ok s
     /\ sig_signal_id s = Some "S1"%string /\ sig_action s = "OPEN"%string /\ sig_quantity s = Some 3%Z)
  /\ (compute_idempotency_key "x" ex_single).1.1.2 = "T1"%string.
Proof. split; [eexists; split; [vm_compute; reflexivity|by vm_compute]|by vm_compute]. Qed.
(** An infinite quantity and a price that is no number escape the
    guards that are meant to catch them. *)
Example legacy_overflow :
  parse_legacy_signal [("qty", JStr "inf")]%string "trend" "r" 0 (JObj []) = Raise OverflowError
  /\ parse_legacy_signal [("price", JStr "NaN")]%string "trend" "r" 0 (JObj []) = Raise InvalidOperation.
Proof. by vm_compute. Qed.
