(* ===== verification/Worker.v ===== *)
(** * Executing a job: [services/worker_pool.py]

    What a worker does with the job it claimed: the fenced status writes, the
    parsing, the red zone, the order manager and the verdict.  Sessions of
    other workers commit between its transactions; the heartbeat loses the
    lease at any time. *)

From S2P Require Import Prelude Rounding PyText PyTime Identifiers RmsModels Margin Checks Engine Parser Sizer Accounts TradeBook Strategy Instruments Oms Coordinator Claims JobQueue SignalInbox Positions OrderLedger RejectReasons RuntimeState OrderManager Inbound.

#[local] Open Scope Z_scope.
#[local] Open Scope py_scope.
#[local] Set Warnings "-clear-no-such-hyp".

(** What a worker meets besides the surroundings of the order manager: the
    orders of the ledger, what other sessions did to the jobs before a session
    of the worker and between the check and the write of a park, a heartbeat
    that lost the lease, the resolved close of the session clock. *)
Class PoolSurroundings (E : Type) : Type := {
  env_orders : E -> list Z;
  env_other_jobs : E -> gmap Z SignalJob -> gmap Z SignalJob;
  env_park_race : E -> gmap Z SignalJob -> gmap Z SignalJob;
  env_lease_lost : E -> bool;
  env_session_close : E -> result (option Z)
}.

Record Pool (E B : Type) : Type := {
  po_manager : Manager E B;
  po_jobs : gmap Z SignalJob;
  po_lost : bool;                         (* lease_lost, set by a status write *)
  po_in_flight : Z
}.
Arguments po_manager {E B} _. Arguments po_jobs {E B} _. Arguments po_lost {E B} _.
Arguments po_in_flight {E B} _.
Abbreviation P E B A := (St (Pool E B) A).

(** [Decimal(str(leg.get("price") or 0))] of the first leg of the first
    bucket; whatever goes wrong on the way gives no price. *)
Definition first_leg (bucket : json) : option json :=
  match bucket with
  | JObj fields => match jor (jget "legs" fields) (JList [JObj []]) with
                   | JList (leg :: _) => Some leg
                   | _ => None
                   end
  | _ => None
  end.
Definition reference_price (payload : json) : option pydec :=
  match payload with
  | JObj fields =>
      match jget "buckets" fields with
      | JList (bucket :: _) =>
          match first_leg bucket with
          | Some (JObj leg) => decimal_of_json (jor (jget "price" leg) (JInt 0))
          | _ => None
          end
      | _ => None
      end
  | _ => None
  end.
(** What the column [reference_price] keeps. *)
Definition price_column (p : option pydec) : result (option pydec) :=
  match p with
  | None => Ok None
  | Some (DFin q) => let! q := numeric 4 q in Ok (Some (DFin q))
  | Some DNaN => Ok (Some DNaN)
  | Some (DInf _) => Raise (OtherError "numeric field overflow")
  end.
Definition payload_is_emergency (payload : json) : bool :=
  match payload with
  | JObj fields => match jget "intent_mode" fields with
                   | JStr s => (s =? "EMERGENCY_FLATTEN")%string
                   | _ => false
                   end
  | _ => false
  end.
(** [FanoutExecutionResult.error_message]. *)
Definition outcome_error (o : AccountExecutionOutcome) : option string :=
  match (match ao_error o with Some e => exn_text e | None => EmptyString end) with
  | EmptyString => match ao_result o with
                   | Some r => match er_error_message r with
                               | Some (String _ _ as t) => Some t
                               | _ => None
                               end
                   | None => None
                   end
  | t => Some t
  end.
Definition fo_error_message (f : FanoutExecutionResult) : option string :=
  head (omap outcome_error (fo_outcomes f)).

Section Worker.
Context {E B : Type} `{!Environment E, !Surroundings E, !PoolSurroundings E}.
Variable cfg : Config.
Variable st : Settings.
Variable checks : list BaseRMSCheck.
Variable registry : string -> option (StrategyHandler B).
Variable handlers : list InboundHandler.
Variable price_text : pydec -> string.
Variable str_dec : Q -> string.
Variable buffer_seconds : Z.
Variable lease_duration : Q.
Variable worker : string.

Definition set_manager (m : Manager E B) (p : Pool E B) : Pool E B :=
  {| po_manager := m; po_jobs := po_jobs p; po_lost := po_lost p; po_in_flight := po_in_flight p |}.
Definition set_jobs (j : gmap Z SignalJob) (p : Pool E B) : Pool E B :=
  {| po_manager := po_manager p; po_jobs := j; po_lost := po_lost p; po_in_flight := po_in_flight p |}.
Definition set_lost (p : Pool E B) : Pool E B :=
  {| po_manager := po_manager p; po_jobs := po_jobs p; po_lost := true; po_in_flight := po_in_flight p |}.
Definition set_in_flight (n : Z) (p : Pool E B) : Pool E B :=
  {| po_manager := po_manager p; po_jobs := po_jobs p; po_lost := po_lost p; po_in_flight := n |}.
Definition on_manager {A} (f : G E B A) : P E B A := fun p =>
  let (m, r) := f (po_manager p) in (set_manager m p, r).
Definition pool_env (p : Pool E B) : E := env_of (po_manager p).
Definition pool_now (p : Pool E B) : Z := env_now (pool_env p).
Definition tables (p : Pool E B) : Tables := {|
  t_jobs := po_jobs p; t_signals := mg_inbox (po_manager p); t_orders := env_orders (pool_env p);
  t_claims := mg_claims (po_manager p) |}.
Definition set_tables (t : Tables) (p : Pool E B) : Pool E B :=
  set_jobs (t_jobs t) (set_manager (set_inbox (t_signals t) (po_manager p)) p).
(** A session opens: what others committed is there, and it may fail. *)
Definition session_begin : P E B unit :=
  on_manager (transaction (ret tt)) ;;;
  modify (fun p => set_jobs (env_other_jobs (pool_env p) (po_jobs p)) p).
Definition lease_lost (p : Pool E B) : bool := po_lost p || env_lease_lost (pool_env p).

(** [_write_status]. *)
Definition write_status (id : Z) (status : JobStatus) (error : option string) : P E B bool :=
  session_begin ;;;
  (fun p => match update_status (pool_now p) id status error (Some worker) true lease_duration (po_jobs p) with
            | Ok (jobs, rows) => if rows =? 0 then (set_lost (set_jobs jobs p), Ok false)
                                 else (set_jobs jobs p, Ok true)
            | Raise e => (p, Raise e)
            end).

(** Parking a job; [found] is what else its session does first. *)
Definition deferral_of (p : Pool E B) (price : option pydec) (close : option Z) : Deferral := {|
  df_deferred_at := pool_now p; df_reason := "RED_ZONE_DEFERRED"; df_reference_price := price;
  df_resolved_session_close := close; df_applied_buffer_seconds := buffer_seconds;
  df_session_count := 0 |}.
Definition park_row (job : SignalJob) (close : option Z) : P E B unit := fun p =>
  match price_column (reference_price (j_raw_payload job)) with
  | Ok price =>
      let (t, r) := park_red_zone (j_id job) worker (deferral_of p price close)
                      (env_park_race (pool_env p)) (tables p) in
      (set_tables t p, let! _ := r in Ok tt)
  | Raise e =>
      (p, match park_check (j_id job) worker (tables p) with Some _ => Raise e | None => Ok tt end)
  end.
Definition session_close : P E B (option Z) :=
  do! r := get (fun p => env_session_close (pool_env p)) in lift r.
Definition park_claimed (job : SignalJob) : P E B unit :=
  do! close := session_close in
  session_begin ;;; park_row job close.
(** The park of a deferred result: a job that is parked already is left alone. *)
Definition park_unless_parked (job : SignalJob) : P E B unit :=
  do! close := session_close in
  session_begin ;;;
  do! existing := get (fun p => po_jobs p !! j_id job) in
  match existing with
  | Some j => if deferred j then ret tt else park_row job close
  | None => ret tt
  end.

(** The red zone of the worker: whether the job was parked. *)
Definition red_zone_event (kind : string) : P E B unit :=
  modify (fun p => set_manager (set_world (add_log (EventWrite kind None) (mg_world (po_manager p))) (po_manager p)) p).
Definition red_zone_worker_gate (job : SignalJob) : P E B bool :=
  catch
    (if payload_is_emergency (j_raw_payload job) then ret false
     else
       do! r := get (fun p => env_red_zone (pool_env p)) in
       do! red := lift r in
       if (red : bool) then park_claimed job ;;; red_zone_event "RED_ZONE_BLOCKED" ;;; ret true else ret false)
    (fun _ => ret false).

(** What is written for an execution that was not deferred. *)
Definition execution_verdict (orders_of : list nat -> list OMSOrder) (x : option FanoutExecutionResult)
    : JobStatus * option string :=
  match x with
  | Some f =>
      if fo_unexpected f
      then (JOB_RECOVERY_REQUIRED, Some "Unexpected error during multi-account fan-out; reconciliation required."%string)
      else if all_rejected f then (JOB_REJECTED, Some (collect_fanout_reject_reasons orders_of f))
      else if negb (fo_success f)
      then (JOB_FAILED, Some (str_or (opt_str (fo_error_message f)) "Execution incomplete"))
      else (JOB_COMPLETED, None)
  | None => (JOB_COMPLETED, None)
  end.
Definition is_deferred (x : option FanoutExecutionResult) : bool :=
  match x with Some f => fo_deferred f | None => false end.
Definition finish (job : SignalJob) (x : option FanoutExecutionResult) : P E B unit :=
  if is_deferred x then catch (park_unless_parked job) (fun _ => ret tt)
  else
    do! p := get id in
    if lease_lost p then ret tt
    else
      let heap := w_heap (mg_world (po_manager p)) in
      let (status, error) := execution_verdict (fun l => omap (fun i => heap !! i) l) x in
      write_status (j_id job) status error ;;; ret tt.

(** What is written for an execution that raised: [FAILED], unless there are
    orders or a claim of its signal. *)
Definition failure_verdict (job : SignalJob) (e : exn) : P E B (JobStatus * string) :=
  catch
    (session_begin ;;;
     do! t := get tables in
     let emitted := count_orders_emitted t (j_strategy_id job) (j_signal_id job) in
     if evidence t job
     then ret (JOB_RECOVERY_REQUIRED,
               (exn_text e ++ " — " ++ str_Z emitted ++ " order(s) already emitted; reconciliation required.")%string)
     else ret (JOB_FAILED, exn_text e))
    (fun _ => ret (JOB_FAILED, exn_text e)).
Definition on_failure (job : SignalJob) (e : exn) : P E B unit :=
  do! parked := (if str_in "RED_ZONE_DEFERRED" (exn_text e)
                 then catch (park_claimed job ;;; ret true) (fun _ => ret false) else ret false) in
  if (parked : bool) then ret tt
  else
    do! (status, error) := failure_verdict job e in
    write_status (j_id job) status (Some error) ;;; ret tt.

(** [_execute_job]. *)
Definition capture_of (job : SignalJob) : json := jor (default JNull (j_capture_data job)) (JObj []).
Definition execute_job (job : SignalJob) : P E B unit :=
  do! held := write_status (j_id job) JOB_PROCESSING None in
  if negb (held : bool) then ret tt
  else
    do! now := get pool_now in
    match parse_inbound_payload handlers (j_raw_payload job) now (j_correlation_id job) (capture_of job) with
    | Raise e => write_status (j_id job) JOB_REJECTED (Some (exn_text e)) ;;; ret tt
    | Ok signal =>
        do! parked := red_zone_worker_gate job in
        if (parked : bool) then ret tt
        else
          catch
            (do! x := on_manager (process_signal_execution cfg st checks registry price_text str_dec
                                    signal (j_account_scope job)) in
             finish job x)
            (on_failure job)
    end.

(** [_process_claimed_job], once it has the lock of its domain. *)
Definition process_claimed_job (job : SignalJob) : P E B unit :=
  do! lost := get lease_lost in
  if (lost : bool) then ret tt
  else
    modify (fun p => set_in_flight (po_in_flight p + 1) p) ;;;
    (fun p => let (p, r) := execute_job job p in
              (set_in_flight (Z.max 0 (po_in_flight p - 1)) p, r)).
Definition domain_key (job : SignalJob) : string * string :=
  (str_or (opt_str (j_account_scope job)) "default", j_strategy_id job).
End Worker.
