(* ===== verification/WorkerFacts.v ===== *)
(** * What a worker promises: facts about [Worker.v]

    A worker writes to its own job only, under its own lease; a run that ends
    leaves a verdict, and the verdict says FAILED only when nothing of the
    signal was claimed. *)

From S2P Require Import Prelude Rounding PyText PyTime Identifiers RmsModels Margin Checks Engine Parser Sizer Accounts TradeBook Strategy Instruments Oms Coordinator Claims JobQueue QueueFacts SignalInbox Positions OrderLedger RejectReasons RuntimeState OrderManager SimBroker Baskets OrderFlow Inbound Worker.

#[local] Open Scope Z_scope.
#[local] Open Scope py_scope.
#[local] Set Warnings "-clear-no-such-hyp".

Section WorkerFacts.
Context {E B : Type} `{!Environment E, !Surroundings E, !PoolSurroundings E}.
Variable cfg : Config.
Variable st : Settings.
Variable checks : list BaseRMSCheck.
Variable registry : string -> option (StrategyHandler B).
Variable handlers : list InboundHandler.
Variable price_text : pydec -> string.
Variable str_dec : Q -> string.
Variable buffer_seconds : Z.
Variable lease_duration : Q.
Variable worker : string.
Abbreviation run := (execute_job cfg st checks registry handlers price_text str_dec buffer_seconds
                       lease_duration worker).
Abbreviation process m signal scope :=
  (process_signal_execution (E := E) cfg st checks registry price_text str_dec signal scope m).

(** ** The fence *)
(** What happens to the table of jobs while a worker executes the job [id];
    the second component is the row the worker read, found its own, and is
    about to park: commits of other sessions, a status written to the row that
    is the worker's under a lease, the check of a park on such a row, and the
    write of a park, which finds the row by its key only, in whatever state the
    other sessions left it. *)
Abbreviation Jobs := (gmap Z SignalJob * option SignalJob)%type.
Inductive job_step (id : Z) : Jobs -> Jobs -> Prop :=
  | OtherSession (e : E) m parking : job_step id (m, parking) (env_other_jobs e m, parking)
  | ParkRace (e : E) m j : job_step id (m, Some j) (env_park_race e m, Some j)
  | StatusWrite m j now status error :
      m !! id = Some j -> owned worker j = true ->
      status ∈ [JOB_PROCESSING; JOB_COMPLETED; JOB_REJECTED; JOB_FAILED; JOB_RECOVERY_REQUIRED] ->
      job_step id (m, None) (<[id := status_update now lease_duration status error (Some worker) j]> m, None)
  | ParkCheck m j :
      m !! id = Some j -> owned worker j = true -> job_step id (m, None) (m, Some j)
  | ParkWrite m loaded j d :
      m !! id = Some j -> job_step id (m, Some loaded) (<[id := park_over d loaded j]> m, None)
  | ParkLost m loaded : m !! id = None -> job_step id (m, Some loaded) (m, None).
Definition fenced {A} (id : Z) (f : P E B A) : Prop :=
  forall p, rtc (job_step id) (po_jobs p, None) (po_jobs (f p).1, None).

Lemma fenced_same {A} id (f : P E B A) : (forall p, po_jobs (f p).1 = po_jobs p) -> fenced id f.
Proof. intros H p. by rewrite H. Qed.
Lemma fenced_bind {A A'} id (f : P E B A) (k : A -> P E B A') :
  fenced id f -> (forall a, fenced id (k a)) -> fenced id (bind f k).
Proof.
  intros F K p. unfold bind. specialize (F p). destruct (f p) as [p1 [a|e]]; simpl in *; [|done].
  etrans; [exact F|apply K].
Qed.
Lemma fenced_catch {A} id (f : P E B A) (h : exn -> P E B A) :
  fenced id f -> (forall e, fenced id (h e)) -> fenced id (catch f h).
Proof.
  intros F K p. unfold catch. specialize (F p). destruct (f p) as [p1 [a|e]]; simpl in *; [done|].
  etrans; [exact F|apply K].
Qed.
Lemma fenced_manager {A} id (f : G E B A) : fenced id (on_manager f).
Proof. apply fenced_same. intros p. unfold on_manager. by destruct (f (po_manager p)). Qed.
Lemma fenced_session id : fenced id (session_begin : P E B unit).
Proof. apply fenced_bind; [apply fenced_manager|]. intros [] p. apply rtc_once, OtherSession. Qed.
Lemma fenced_write id status error :
  status ∈ [JOB_PROCESSING; JOB_COMPLETED; JOB_REJECTED; JOB_FAILED; JOB_RECOVERY_REQUIRED] ->
  fenced id (write_status (E := E) (B := B) lease_duration worker id status error).
Proof.
  intros S. apply fenced_bind; [apply fenced_session|]. intros [] p. simpl. unfold update_job.
  destruct (po_jobs p !! id) as [j|] eqn:L; [|done]. destruct (owned worker j) eqn:O; [|done].
  by eapply rtc_once, StatusWrite.
Qed.
Lemma park_check_spec id t j :
  park_check id worker t = Some j -> t_jobs t !! id = Some j /\ owned worker j = true.
Proof.
  unfold park_check. destruct (t_jobs t !! id) as [k|]; [|done].
  destruct (owned worker k) eqn:O; [|done]. by intros [= <-].
Qed.
Lemma fenced_park_row job close : fenced (j_id job) (park_row (E := E) (B := B) buffer_seconds worker job close).
Proof.
  intros p. unfold park_row. destruct (price_column _) as [price|e]; [|done]. unfold park_red_zone.
  destruct (park_check _ _ _) as [j|] eqn:C; [|done]. apply park_check_spec in C as [L O].
  eapply rtc_l; [by apply (ParkCheck _ _ j)|]. eapply rtc_l; [apply (ParkRace _ (pool_env p))|].
  simpl in *. unfold park_write. simpl. destruct (env_park_race _ _ !! j_id job) as [c|] eqn:Lc.
  - by apply rtc_once, ParkWrite.
  - by apply rtc_once, ParkLost.
Qed.

(** Follows the structure of an operation. *)
Ltac fence_step :=
  match goal with
  | |- fenced _ (bind _ _) => apply fenced_bind; [|intros ?]
  | |- fenced _ (catch _ _) => apply fenced_catch; [|intros ?]
  | |- fenced _ session_begin => apply fenced_session
  | |- fenced _ (on_manager _) => apply fenced_manager
  | |- fenced _ (park_row _ _ _ _) => apply fenced_park_row
  | |- fenced _ (red_zone_event _) => by apply fenced_same
  | |- fenced _ (ret _) => by apply fenced_same
  | |- fenced _ (raise _) => by apply fenced_same
  | |- fenced _ (get _) => by apply fenced_same
  | |- fenced _ (lift _) => by apply fenced_same
  | |- fenced _ (match ?x with _ => _ end) => destruct x eqn:?
  end.
Ltac fence := repeat fence_step.

Lemma fenced_park job : fenced (j_id job) (park_claimed (E := E) (B := B) buffer_seconds worker job).
Proof. unfold park_claimed, session_close. fence. Qed.
Lemma fenced_unless job : fenced (j_id job) (park_unless_parked (E := E) (B := B) buffer_seconds worker job).
Proof. unfold park_unless_parked, session_close. fence. Qed.
Lemma verdict_status orders_of x :
  (execution_verdict orders_of x).1 ∈ [JOB_PROCESSING; JOB_COMPLETED; JOB_REJECTED; JOB_FAILED; JOB_RECOVERY_REQUIRED].
Proof. unfold execution_verdict. repeat case_match; set_solver. Qed.
Lemma failure_verdict_spec job e (p p' : Pool E B) r :
  failure_verdict job e p = (p', r) ->
  exists status text, r = Ok (status, text) /\ (status = JOB_FAILED \/ status = JOB_RECOVERY_REQUIRED).
Proof.
  unfold failure_verdict, catch. rewrite !bind_run.
  destruct (session_begin p) as [p1 [[]|e1]]; [|intros [= <- <-]; eauto].
  rewrite bind_run. unfold get. destruct (evidence _ _); intros [= <- <-]; eauto.
Qed.
Lemma fenced_gate job : fenced (j_id job) (red_zone_worker_gate (E := E) (B := B) buffer_seconds worker job).
Proof. unfold red_zone_worker_gate. fence; apply fenced_park. Qed.
Lemma fenced_finish job x :
  fenced (j_id job) (finish (E := E) (B := B) buffer_seconds lease_duration worker job x).
Proof.
  unfold finish. fence; [apply fenced_unless|]. apply fenced_write.
  match goal with H : execution_verdict ?o ?x = (?s, _) |- _ => pose proof (verdict_status o x) as V; by rewrite H in V end.
Qed.
Lemma fenced_failure job e :
  fenced (j_id job) (on_failure (E := E) (B := B) buffer_seconds lease_duration worker job e).
Proof.
  unfold on_failure. apply fenced_bind; [fence; apply fenced_park|]. intros [|]; [by apply fenced_same|].
  intros p. rewrite bind_run.
  assert (F : fenced (j_id job) (failure_verdict (E := E) (B := B) job e)) by (unfold failure_verdict; fence).
  specialize (F p). destruct (failure_verdict job e p) as [p1 r] eqn:V. simpl in F.
  apply failure_verdict_spec in V as (status & text & -> & S). etrans; [exact F|].
  refine (fenced_bind _ _ _ (fenced_write _ _ _ _) _ p1); [|by intros; apply fenced_same].
  destruct S as [->| ->]; set_solver.
Qed.
Lemma fenced_run job : fenced (j_id job) (run job).
Proof.
  unfold execute_job. fence; try (apply fenced_write; set_solver); [apply fenced_gate|apply fenced_finish|].
  apply fenced_failure.
Qed.

(** C14: A worker touches nothing but the job it claimed.  Whatever an
    execution does to the table of jobs is a commit of another session, a
    status written to the row of the job when that row is active and names the
    worker, or a deferral: a check that finds the row the worker's own, then --
    other sessions may commit in between, so that it can overwrite the lease of
    another worker ([QueueFacts.park_overwrites_claim]) -- a write by the key
    of the row. *)
Theorem worker_writes_fenced (job : SignalJob) (p : Pool E B) :
  rtc (job_step (j_id job)) (po_jobs p, None)
    (po_jobs (process_claimed_job cfg st checks registry handlers price_text str_dec buffer_seconds
                lease_duration worker job p).1, None).
Proof.
  unfold process_claimed_job. rewrite bind_run. simpl. destruct (lease_lost p); [done|].
  rewrite bind_run. unfold modify. cbv beta iota.
  pose proof (fenced_run job (set_in_flight (po_in_flight p + 1) p)) as F.
  destruct (run job _) as [p1 r]. exact F.
Qed.

(** ** What an execution returns *)
Lemma fanout_nonempty h signal pk contexts (m m' : Manager E B) f :
  contexts <> [] ->
  fanout_accounts cfg st checks price_text str_dec h signal pk contexts m = (m', Ok f) ->
  fo_outcomes f <> [].
Proof.
  intros N H. apply ran_ok in H as (m1 & [outcomes bad] & L & [= _ <-]). apply gather_spec in L.
  destruct L as (new & -> & F). simpl. intros ->. inversion F. congruence.
Qed.
Lemma inner_nonempty signal pk scope (m m' : Manager E B) f :
  process_inner cfg st checks registry price_text str_dec signal pk scope m = (m', Ok f) ->
  fo_outcomes f <> [].
Proof.
  unfold process_inner. destruct (registry _) as [h|].
  - destruct (negb _); intros H.
    + apply ran_ok in H as (m1 & i & _ & H). by apply ran_ok in H as (m2 & r & _ & [= _ <-]).
    + apply ran_ok in H as (m1 & all & _ & H). destruct (contexts_for_scope all scope) as [|a l]; [done|].
      by apply (fanout_nonempty h signal pk (a :: l) m1 m' f).
  - destruct (ms_router st); [done|]. intros H. apply ran_ok in H as (m1 & i & _ & H).
    by apply ran_ok in H as (m2 & r & _ & [= _ <-]).
Qed.
Lemma process_shape signal scope (m m' : Manager E B) f :
  process m signal scope = (m', Ok (Some f)) -> fo_deferred f = true \/ fo_outcomes f <> [].
Proof.
  unfold process_signal_execution. intros H.
  destruct (sig_signal_type signal); [|..|done];
    (apply ran_ok in H as (m1 & red & _ & H); destruct (red : bool); [injection H as _ <-; by left|];
     right; apply ran_ok in H as (m2 & row & _ & H); unfold catch in H;
     match type of H with (match ?g ?s with _ => _ end = _) => destruct (g s) as [m3 [a|e]] eqn:K end;
     [injection H as _ ->; apply ran_ok in K as (m4 & f' & I & K);
      apply ran_ok in K as (m5 & [] & _ & [= _ <-]); by eapply inner_nonempty
     |by apply ran_ok in H as (m4 & [] & _ & H)]).
Qed.
(** The execution of a signal never ends "incomplete": what failed without an
    exception was rejected. *)
Lemma verdict_not_failed orders_of signal scope (m m' : Manager E B) x :
  process m signal scope = (m', Ok x) -> is_deferred x = false -> (execution_verdict orders_of x).1 <> JOB_FAILED.
Proof.
  intros H D. destruct x as [f|]; [|done]. simpl in *. apply process_shape in H as [H|H]; [congruence|].
  unfold all_rejected. destruct (fo_unexpected f); [done|]. destruct (fo_outcomes f); [done|].
  by destruct (fo_success f).
Qed.

(** ** Every execution ends and leaves a verdict *)
Section Settles.
Variable job : SignalJob.

(** While the lease lives: the database accepts writes, no other session
    touches the row the worker holds, and the heartbeat keeps the lease. *)
Record lease_lives : Prop := {
  ll_writes : forall e : E, (env_write_ok e).2 = true;
  ll_others : forall (e : E) m row, m !! j_id job = Some row -> owned worker row = true ->
    env_other_jobs e m !! j_id job = Some row /\ env_park_race e m !! j_id job = Some row;
  ll_beats : forall e : E, env_lease_lost e = false
}.
Hypothesis lives : lease_lives.

Record same (p p' : Pool E B) : Prop := {
  sm_row : forall row, po_jobs p !! j_id job = Some row -> owned worker row = true ->
    po_jobs p' !! j_id job = Some row;
  sm_lost : po_lost p' = po_lost p;
  sm_claims : mg_claims (po_manager p') = mg_claims (po_manager p)
}.
#[local] Instance same_preorder : PreOrder same.
Proof. split; [by split|]. intros p q r [] []. split; [eauto|congruence..]. Qed.
Definition owns_row (p : Pool E B) : Prop :=
  po_lost p = false /\ exists row, po_jobs p !! j_id job = Some row /\ owned worker row = true.
Definition status_of (p : Pool E B) : option JobStatus := j_status <$> po_jobs p !! j_id job.
Lemma owns_row_same p p' : same p p' -> owns_row p -> owns_row p'.
Proof. intros [] [L (row & H & O)]. split; [congruence|]. exists row. split; [auto|done]. Qed.

Lemma transaction_commits (m : Manager E B) :
  exists m1, transaction (ret tt) m = (m1, Ok tt) /\ mg_claims m1 = mg_claims m.
Proof.
  unfold transaction. rewrite bind_run. unfold on_world at 1, env_do at 1. rewrite bind_run.
  unfold on_world at 1, env_do at 1. cbv zeta beta.
  match goal with |- context [env_write_ok ?e] => pose proof (ll_writes lives e) as Hw;
    destruct (env_write_ok e) as [e2 ok] end.
  simpl in Hw. subst ok. eexists. by split.
Qed.
Lemma session_same (p : Pool E B) : exists p1, session_begin p = (p1, Ok tt) /\ same p p1.
Proof.
  unfold session_begin. rewrite bind_run. unfold on_manager at 1.
  destruct (transaction_commits (po_manager p)) as (m1 & -> & C). eexists. split; [reflexivity|].
  split; [|done|exact C]. intros row R O. simpl. by apply (ll_others lives).
Qed.
Lemma write_spec status error (p : Pool E B) :
  owns_row p -> exists p', write_status lease_duration worker (j_id job) status error p = (p', Ok true) /\
    mg_claims (po_manager p') = mg_claims (po_manager p) /\ po_lost p' = false /\
    exists now row, owned worker row = true /\
      po_jobs p' !! j_id job = Some (status_update now lease_duration status error (Some worker) row).
Proof.
  intros H. unfold write_status. rewrite bind_run. destruct (session_same p) as (p1 & -> & S).
  pose proof (owns_row_same _ _ S H) as [L (row & R & O)]. simpl. unfold update_job. rewrite R, O.
  eexists. split; [reflexivity|]. split; [apply S|]. split; [done|]. eexists _, row.
  split; [done|]. simpl. by rewrite lookup_insert_eq.
Qed.
Lemma status_written now status error row :
  j_status (status_update now lease_duration status error (Some worker) row) = status.
Proof. by destruct status. Qed.

(** A park of a job that is the worker's writes, unless its price does not fit
    the column. *)
Definition price_fits : Prop := is_ok (price_column (reference_price (j_raw_payload job))) = true.
Lemma park_row_spec close (p p' : Pool E B) r :
  owns_row p -> park_row buffer_seconds worker job close p = (p', r) ->
  match r with
  | Ok _ => status_of p' = Some JOB_DEFERRED_RED_ZONE
  | Raise _ => p' = p /\ ~ price_fits
  end.
Proof.
  unfold park_row, price_fits. intros [L (row & R & O)].
  destruct (price_column _) as [price|e].
  - unfold park_red_zone, park_check. simpl. rewrite R, O. unfold park_write. simpl.
    rewrite (proj2 (ll_others lives _ _ _ R O)).
    intros [= <- <-]. unfold status_of. simpl. by rewrite lookup_insert_eq.
  - unfold park_check. simpl. rewrite R, O. intros [= <- <-]. by split.
Qed.
(** Why a deferral of a job that is the worker's can fail. *)
Definition unparkable (p : Pool E B) : Prop :=
  (exists e, env_session_close (pool_env p) = Raise e) \/ ~ price_fits.
Lemma park_spec (p p' : Pool E B) r :
  owns_row p -> park_claimed buffer_seconds worker job p = (p', r) ->
  match r with
  | Ok _ => status_of p' = Some JOB_DEFERRED_RED_ZONE
  | Raise _ => same p p'
  end.
Proof.
  intros H. unfold park_claimed. rewrite bind_run. unfold session_close. rewrite bind_run. simpl.
  unfold lift. destruct (env_session_close (pool_env p)) as [close|e]; [|by intros [= <- <-]].
  rewrite bind_run. destruct (session_same p) as (p1 & -> & S).
  intros P. apply park_row_spec in P; [|by eapply owns_row_same]. destruct r; [done|].
  by destruct P as [-> _].
Qed.
Lemma unless_spec (p p' : Pool E B) r :
  owns_row p -> park_unless_parked buffer_seconds worker job p = (p', r) ->
  match r with
  | Ok _ => status_of p' = Some JOB_DEFERRED_RED_ZONE
  | Raise _ => unparkable p'
  end.
Proof.
  intros H. unfold park_unless_parked. rewrite bind_run. unfold session_close. rewrite bind_run. simpl.
  unfold lift. destruct (env_session_close (pool_env p)) as [close|e] eqn:Ec;
    [|intros [= <- <-]; left; eauto].
  rewrite bind_run. destruct (session_same p) as (p1 & -> & S).
  pose proof (owns_row_same _ _ S H) as H1. rewrite bind_run. simpl.
  destruct H1 as [L (row & R & O)]. rewrite R. unfold deferred. case_bool_decide as D.
  - unfold owned, active in O. rewrite D in O. bool_to_prop. set_solver.
  - intros P. eapply park_row_spec in P; [|split; eauto]. destruct r; [done|right; apply P].
Qed.
Lemma gate_spec (p p' : Pool E B) r :
  owns_row p -> red_zone_worker_gate buffer_seconds worker job p = (p', r) ->
  match r with
  | Ok true => status_of p' = Some JOB_DEFERRED_RED_ZONE
  | Ok false => same p p'
  | Raise _ => False
  end.
Proof.
  intros H. unfold red_zone_worker_gate, catch. destruct (payload_is_emergency _); [by intros [= <- <-]|].
  rewrite !bind_run. unfold get, lift. cbv beta iota. rewrite bind_run.
  destruct (env_red_zone (pool_env p)) as [[|]|e]; [|by intros [= <- <-]..]. rewrite bind_run.
  destruct (park_claimed buffer_seconds worker job p) as [p1 [[]|e]] eqn:P; apply park_spec in P; try done;
    by intros [= <- <-].
Qed.

Definition FINAL_STATUSES : list JobStatus :=
  [JOB_COMPLETED; JOB_REJECTED; JOB_FAILED; JOB_RECOVERY_REQUIRED; JOB_DEFERRED_RED_ZONE].
(** How a run ends, in the pool it leaves: the row has a final status, which is
    FAILED only when the signal holds no claim; or it was to be deferred and
    could not be, because the session clock has no close or the price does not
    fit its column. *)
Inductive ended (p : Pool E B) : Prop :=
  | WithVerdict s :
      status_of p = Some s -> s ∈ FINAL_STATUSES ->
      (s = JOB_FAILED ->
       has_claimed (j_strategy_id job) (j_signal_id job) (mg_claims (po_manager p)) = false) ->
      ended p
  | Unparked : unparkable p -> ended p.
Lemma ended_write status error (p : Pool E B) :
  owns_row p -> status ∈ FINAL_STATUSES ->
  (status = JOB_FAILED ->
   has_claimed (j_strategy_id job) (j_signal_id job) (mg_claims (po_manager p)) = false) ->
  exists p', (write_status lease_duration worker (j_id job) status error ;;; ret tt) p = (p', Ok tt) /\ ended p'.
Proof.
  intros H F N. rewrite bind_run. destruct (write_spec status error p H) as (p' & -> & C & _ & now & row & _ & R).
  exists p'. split; [done|]. apply (WithVerdict _ status); [|done|by rewrite C].
  unfold status_of. rewrite R. simpl. by rewrite status_written.
Qed.
Lemma verdict_final orders_of x : (execution_verdict orders_of x).1 ∈ FINAL_STATUSES.
Proof. unfold execution_verdict. repeat case_match; set_solver. Qed.
Lemma ended_deferred (p : Pool E B) : status_of p = Some JOB_DEFERRED_RED_ZONE -> ended p.
Proof. intros H. apply (WithVerdict _ JOB_DEFERRED_RED_ZONE); [done|set_solver|done]. Qed.

Lemma finish_spec x (p : Pool E B) :
  owns_row p -> (is_deferred x = false -> forall orders_of, (execution_verdict orders_of x).1 <> JOB_FAILED) ->
  exists p', finish buffer_seconds lease_duration worker job x p = (p', Ok tt) /\ ended p'.
Proof.
  intros H N. unfold finish. destruct (is_deferred x).
  - unfold catch. destruct (park_unless_parked buffer_seconds worker job p) as [p1 [[]|e]] eqn:P;
      apply unless_spec in P; try done; exists p1; (split; [done|]); [by apply ended_deferred|by apply Unparked].
  - rewrite bind_run. simpl. unfold lease_lost. rewrite (ll_beats lives), (proj1 H). simpl.
    set (o := fun l => omap _ l). pose proof (verdict_final o x) as F. specialize (N eq_refl o).
    destruct (execution_verdict o x) as [status error]. simpl in *. by apply ended_write.
Qed.

Lemma failure_lookup e (p : Pool E B) :
  exists p1 status text, failure_verdict job e p = (p1, Ok (status, text)) /\ same p p1 /\
    (status = JOB_FAILED \/ status = JOB_RECOVERY_REQUIRED) /\
    (status = JOB_FAILED ->
     has_claimed (j_strategy_id job) (j_signal_id job) (mg_claims (po_manager p1)) = false).
Proof.
  unfold failure_verdict, catch. rewrite !bind_run. destruct (session_same p) as (p1 & -> & S).
  rewrite bind_run. simpl. destruct (evidence (tables p1) job) eqn:Ev.
  - eexists p1, _, _. split; [reflexivity|]. split; [done|]. split; [by right|done].
  - eexists p1, _, _. split; [reflexivity|]. split; [done|]. split; [by left|].
    intros _. unfold evidence in Ev. by apply orb_false_iff in Ev as [_ Ev].
Qed.
Lemma failure_spec e (p : Pool E B) :
  owns_row p -> exists p', on_failure buffer_seconds lease_duration worker job e p = (p', Ok tt) /\ ended p'.
Proof.
  intros H. unfold on_failure. rewrite bind_run.
  match goal with |- context [match ?f p with _ => _ end] =>
    assert (K : exists p1 b, f p = (p1, Ok b)
      /\ (if b : bool then status_of p1 = Some JOB_DEFERRED_RED_ZONE else same p p1)) end.
  { destruct (str_in _ _); [|by exists p, false]. unfold catch. rewrite bind_run.
    destruct (park_claimed buffer_seconds worker job p) as [p1 [[]|e1]] eqn:P; apply park_spec in P; try done;
      [by exists p1, true|by exists p1, false]. }
  destruct K as (p1 & b & -> & K). destruct b; [exists p1; split; [done|by apply ended_deferred]|].
  apply (owns_row_same _ _ K) in H. clear K. rewrite bind_run.
  destruct (failure_lookup e p1) as (p2 & status & text & -> & V & S & N).
  apply (owns_row_same _ _ V) in H. apply ended_write; [done| |done].
  destruct S as [->| ->]; set_solver.
Qed.

(** C6: The execution of a job the worker holds always returns, and gives the
    job a verdict: its row is COMPLETED, REJECTED, FAILED, RECOVERY_REQUIRED or
    DEFERRED_RED_ZONE, FAILED only when the signal of the job holds no claim.
    The only other end is a deferral of a job whose price does not fit its
    column, or for which the session clock has no close.  All this while its
    lease lives: the database accepts writes, no other session touches the
    row, and the heartbeat keeps the lease ([lease_lives]). *)
Theorem execution_settles (p : Pool E B) :
  owns_row p -> exists p', run job p = (p', Ok tt) /\ ended p'.
Proof.
  intros H. unfold execute_job. rewrite bind_run.
  destruct (write_spec JOB_PROCESSING None p H) as (p1 & -> & _ & L & now & row & O & J). cbn [negb].
  assert (H1 : owns_row p1).
  { split; [done|]. eexists. split; [exact J|].
    unfold owned, active, status_update. simpl. by rewrite bool_decide_eq_true_2. }
  clear H J L. rewrite bind_run. simpl.
  destruct (parse_inbound_payload _ _ _ _ _) as [signal|e]; [|by apply ended_write; [|set_solver|]].
  rewrite bind_run. destruct (red_zone_worker_gate buffer_seconds worker job p1) as [p2 r] eqn:G.
  apply gate_spec in G; [|done]. destruct r as [[|]|]; [|..|done].
  { exists p2. split; [done|by apply ended_deferred]. }
  apply (owns_row_same _ _ G) in H1. clear G. unfold catch. rewrite bind_run. unfold on_manager at 1.
  destruct (process (po_manager p2) signal (j_account_scope job)) as [m [x|e]] eqn:X.
  - destruct (finish_spec x (set_manager m p2)) as (p3 & F & En); [done|intros D o; by eapply verdict_not_failed|].
    rewrite F. by exists p3.
  - by apply failure_spec.
Qed.
End Settles.
End WorkerFacts.

(** ** Examples: the scripted broker, one account *)
#[export] Instance SimPool : PoolSurroundings Sim := {|
  env_orders := fun _ => []; env_other_jobs := fun _ m => m; env_park_race := fun _ m => m; env_lease_lost := fun _ => false;
  env_session_close := fun _ => Ok (Some 57600000000) |}.
Definition ex_registry (s : string) : option (StrategyHandler InMemory.Book) :=
  if is_model_blue_strategy (Some s) then Some ex_handler else None.
Definition ex_row : SignalJob :=
  job_with JOB_CLAIMED (Some "worker-1"%string) (Some 40) None
    (new_job 1 0 "T1" "model_blue" (Some "T1"%string) "k" (JObj ex_payload) None "r" (Some "7"%string)).
Definition ex_pool (replies : list Reply) : Pool Sim InMemory.Book := {|
  po_manager := ex_manager replies; po_jobs := {[ 1 := ex_row ]}; po_lost := false; po_in_flight := 0 |}.
Definition ex_execute (p : Pool Sim InMemory.Book) : Pool Sim InMemory.Book * result unit :=
  execute_job ex_cfg ex_settings (get_default_checks 0) ex_registry [model_blue_inbound]
    (fun _ => EmptyString) (fun _ => EmptyString) 900 30 "worker-1" ex_row p.
Example ex_completed :
  (j_status <$> po_jobs (ex_execute (ex_pool [Fill; Fill])).1 !! 1) = Some JOB_COMPLETED
  /\ (ex_execute (ex_pool [Fill; Fill])).2 = Ok tt.
Proof. by vm_compute. Qed.
(** A basket that ends CRITICAL, one leg filled and its compensation refused,
    is reported REJECTED on the job and on the signal. *)
Example critical_reported_rejected :
  let p := (ex_execute (ex_pool [Fill; Refuse; Refuse])).1 in
  (j_status <$> po_jobs p !! 1) = Some JOB_REJECTED
  /\ map sr_status (mg_inbox (po_manager p)) = ["REJECTED"%string]
  /\ map o_status (w_heap (mg_world (po_manager p))) = [FILLED; REJECTED; REJECTED]
  /\ bool_decide ((7, "model_blue"%string) ∈ w_critical (mg_world (po_manager p))) = true.
Proof. by vm_compute. Qed.

(** The same over the broker with a database that never fails. *)
#[export] Instance SteadySurroundings : Surroundings Steady := SimSurroundings.
#[export] Instance SteadyPool : PoolSurroundings Steady := SimPool.
Definition ex_steady_pool : Pool Steady InMemory.Book := {|
  po_manager := {| mg_world := start [Fill; Fill] [] [] : World Steady; mg_context := ex_context;
                   mg_claims := ∅; mg_inbox := []; mg_book := ∅ |};
  po_jobs := {[ 1 := ex_row ]}; po_lost := false; po_in_flight := 0 |}.

Lemma execution_settles_witness :
  exists p', execute_job (E := Steady) ex_cfg ex_settings (get_default_checks 0) ex_registry
      [model_blue_inbound] (fun _ => EmptyString) (fun _ => EmptyString) 900 30 "worker-1" ex_row
      ex_steady_pool = (p', Ok tt)
    /\ ended (E := Steady) ex_row p'.
Proof.
  apply (execution_settles (E := Steady) ex_cfg ex_settings (get_default_checks 0) ex_registry
    [model_blue_inbound] (fun _ => EmptyString) (fun _ => EmptyString) 900 30 "worker-1" ex_row).
  - split; [reflexivity| |reflexivity]. intros e m row R _. split; exact R.
  - split; [reflexivity|]. exists ex_row. split; [reflexivity|vm_compute; reflexivity].
Defined.
