(* ===== verification/RedZoneRelease.v ===== *)
(** * Releasing deferred jobs: [services/red_zone_release.py]

    One cycle of the service: outside the red zone and with the gateway
    connected, all deferred jobs are voided or queued again in one
    transaction, unless a breaker trips. *)

From S2P Require Import Prelude Rounding PyText PyTime Identifiers RmsModels SessionClock Instruments Claims JobQueue QueueFacts.

#[local] Open Scope Z_scope.
#[local] Open Scope py_scope.
#[local] Set Warnings "-clear-no-such-hyp".

Record ReleaseSettings : Type := {
  max_auto_release_count : Z;
  max_auto_release_notional : option Q;
  max_deferred_sessions : Z
}.
(** What the cycle asks the session clock, of instants. *)
Record ReleaseClock : Type := {
  rk_in_red_zone : Z -> result bool;
  rk_session_count : Z -> Z -> result Z
}.
Definition utc_instant (t : Z) : moment := {| mo_wall := t; mo_offset := Some 0 |}.
Definition session_release_clock (cal : option Calendar) (csv : gmap Z CsvEntry) (range : option (Z * Z))
    (hol half : gset Z) (to_et : Z -> Z) (c : SessionClock) : ReleaseClock := {|
  rk_in_red_zone := fun now => in_red_zone cal csv range hol half to_et c (utc_instant now);
  rk_session_count := fun at_ now =>
    deferred_session_count cal csv range hol half to_et (utc_instant at_) (utc_instant now) |}.

(** Events by kind, with the job and the reason. *)
Definition Event : Type := string * option Z * string.
Record Desk : Type := { dk_tables : Tables; dk_events : list Event }.

(** ** Deferred jobs in the order of their deferral, those without one last *)
Definition earlier_deferral (j k : SignalJob) : bool :=
  match j_deferral j, j_deferral k with
  | Some d, Some e => df_deferred_at d <=? df_deferred_at e
  | Some _, None => true
  | None, None => true
  | None, Some _ => false
  end.
Fixpoint insert_deferred (j : SignalJob) (l : list SignalJob) : list SignalJob :=
  match l with
  | [] => [j]
  | k :: l => if earlier_deferral j k then j :: k :: l else k :: insert_deferred j l
  end.
Definition deferred_jobs (t : Tables) : list SignalJob :=
  fold_right insert_deferred [] (List.filter deferred (map snd (map_to_list (t_jobs t)))).

Definition keyed (m : gmap Z SignalJob) : Prop := forall i j, m !! i = Some j -> j_id j = i.
Lemma insert_deferred_perm j l : insert_deferred j l ≡ₚ j :: l.
Proof.
  induction l as [|k l IH]; simpl; [done|]. destruct (earlier_deferral j k); [done|].
  rewrite IH. apply perm_swap.
Qed.
Lemma deferred_jobs_perm t :
  deferred_jobs t ≡ₚ List.filter deferred (map snd (map_to_list (t_jobs t))).
Proof.
  unfold deferred_jobs. induction (List.filter _ _) as [|j l IH]; simpl; [done|].
  by rewrite insert_deferred_perm, IH.
Qed.
Lemma deferred_jobs_elem t j :
  j ∈ deferred_jobs t <-> deferred j = true /\ exists i, t_jobs t !! i = Some j.
Proof. rewrite deferred_jobs_perm, filter_elem, jobs_elem. tauto. Qed.
Lemma deferred_jobs_ids t : keyed (t_jobs t) -> NoDup (map j_id (deferred_jobs t)).
Proof.
  intros K. rewrite deferred_jobs_perm.
  assert (E : map j_id (map snd (map_to_list (t_jobs t))) = map fst (map_to_list (t_jobs t))).
  { rewrite map_map. apply map_ext_in. intros [i j] H. apply list_elem_of_In, elem_of_map_to_list in H.
    by apply K. }
  assert (N : NoDup (map j_id (map snd (map_to_list (t_jobs t))))).
  { rewrite E. apply NoDup_fst_map_to_list. }
  clear E. induction (map snd _) as [|j l IH]; simpl in *; [done|].
  apply NoDup_cons in N as [F N]. destruct (deferred j); [|by apply IH]. simpl. apply NoDup_cons.
  split; [|by apply IH]. intros I. apply F. apply list_elem_of_fmap in I as (x & -> & I).
  apply list_elem_of_fmap. exists x. split; [done|]. by apply filter_elem in I as [I _].
Qed.

(** ** The breakers *)
(** [total += abs(price)]. *)
Definition add_reference (total : pydec) (j : SignalJob) : pydec :=
  match (d ← j_deferral j; df_reference_price d), total with
  | None, _ => total
  | Some (DFin q), DFin t => DFin (dadd t (dabs q))
  | Some DNaN, _ | _, DNaN => DNaN
  | Some (DInf _), _ | _, DInf _ => DInf false
  end.
Definition total_reference (l : list SignalJob) : pydec := fold_left add_reference l (DFin 0).
(** [total > limit]: comparing a NaN raises. *)
Definition over_notional (limit : Q) (total : pydec) : result bool :=
  match total with
  | DNaN => Raise InvalidOperation
  | DInf neg => Ok (negb neg)
  | DFin t => Ok (negb (t <=? limit)%Q)
  end.

(** ** The validity of a job's contracts *)
Definition expiry_instrument_of (v : json) : result bool :=
  if truthy v then match v with
                   | JStr s => Ok (is_expiry_instrument (Some s))
                   | _ => Raise AttributeError
                   end
  else Ok (is_expiry_instrument None).
(** The month of a leg is in the past, or cannot be read. *)
Definition month_expired (now : Z) (cm : json) : bool :=
  let '(y0, m0, _) := civil_from_days (now / day_us) in
  match str_split "-"%char (py_str cm) with
  | a :: b :: _ =>
      match py_int a, py_int b with
      | Ok y, Ok m => (y * 12 + m <? y0 * 12 + m0)
      | _, _ => true
      end
  | _ => true
  end.
Definition month_malformed (cm : json) : bool :=
  match str_split "-"%char (py_str cm) with
  | a :: b :: _ => match py_int a, py_int b with Ok _, Ok _ => false | _, _ => true end
  | _ => true
  end.
(** The loop over the legs of a bucket: a missing or malformed month ends it, a
    past one does not. *)
Fixpoint legs_expired (now : Z) (acc : bool) (legs : list json) : result bool :=
  match legs with
  | [] => Ok acc
  | JObj leg :: legs =>
      let! expiry := expiry_instrument_of (jget "instrument_type" leg) in
      if negb expiry then legs_expired now acc legs
      else
        let cm := jget "contract_month" leg in
        if negb (truthy cm) then Ok true
        else if month_malformed cm then Ok true
        else legs_expired now (acc || month_expired now cm) legs
  | _ :: legs => legs_expired now acc legs
  end.
(** [for leg in bucket.get("legs") or []]: the keys of an object and the
    characters of a text are no objects. *)
Definition bucket_expired (now : Z) (acc : bool) (bucket : json) : result bool :=
  match bucket with
  | JObj fields =>
      match jor (jget "legs" fields) (JList []) with
      | JList legs => legs_expired now acc legs
      | JObj _ | JStr _ => Ok acc
      | _ => Raise TypeError
      end
  | _ => Ok acc
  end.
Fixpoint buckets_expired (now : Z) (acc : bool) (buckets : list json) : result bool :=
  match buckets with
  | [] => Ok acc
  | b :: buckets => let! acc := bucket_expired now acc b in buckets_expired now acc buckets
  end.
Definition payload_expired (now : Z) (payload : json) : result bool :=
  match jor payload (JObj []) with
  | JObj fields => match jget "buckets" fields with
                   | JList buckets => buckets_expired now false buckets
                   | _ => Ok false
                   end
  | _ => Ok false
  end.

(** ** One job *)
Section Release.
Variable settings : ReleaseSettings.
Variable clock : ReleaseClock.
Variable killed : Z -> bool.
Variable now : Z.

Definition scope_of (j : SignalJob) : option Z :=
  s ← j_account_scope j; match py_int s with Ok n => Some n | Raise _ => None end.
(** The sessions since the deferral, and why the job is void. *)
Definition release_verdict (j : SignalJob) : result (Z * option string) :=
  let! cnt := rk_session_count clock (match j_deferral j with
                                      | Some d => df_deferred_at d
                                      | None => j_received_at j
                                      end) now in
  Ok (cnt, if max_deferred_sessions settings <? cnt then Some "VOID_STALE"%string
           else if match scope_of j with Some a => killed a | None => false end
           then Some "VOID_KILLSWITCH"%string
           else match payload_expired now (j_raw_payload j) with
                | Ok true => Some "VOID_EXPIRED_CONTRACT"%string
                | _ => None
                end).
Definition set_session_count (cnt : Z) (d : Deferral) : Deferral := {|
  df_deferred_at := df_deferred_at d; df_reason := df_reason d;
  df_reference_price := df_reference_price d; df_resolved_session_close := df_resolved_session_close d;
  df_applied_buffer_seconds := df_applied_buffer_seconds d; df_session_count := cnt |}.
Definition released_row (cnt : Z) (j : SignalJob) : SignalJob :=
  job_times (j_attempt_count j) (Some now) (j_claimed_at j) (j_processing_started_at j)
    (j_completed_at j) (option_map (set_session_count cnt) (j_deferral j))
    (job_with JOB_QUEUED (j_worker_id j) (j_lease_expires_at j) (j_last_error j) j).
Definition voided_row (why : string) (j : SignalJob) : SignalJob :=
  complete_at now (job_with JOB_REJECTED None None (Some why) j).
Definition release_update (cnt : Z) (j : SignalJob) (t : Tables) : Tables * Z :=
  let (m, n) := update_job (j_id j) deferred (released_row cnt) (t_jobs t) in
  if n =? 0 then (t, 0)
  else (with_signals (set_signal_status (j_strategy_id j) (j_signal_id j) "NEW" None (t_signals t))
          (with_jobs m t), n).
Definition add_event (kind : string) (id : option Z) (why : string) (t : Tables) (d : Desk) : Desk :=
  {| dk_tables := t; dk_events := dk_events d ++ [(kind, id, why)] |}.
Definition release_job_once (d : Desk) (j : SignalJob) : result Desk :=
  let! (cnt, why) := release_verdict j in
  match why with
  | Some why => Ok (add_event "RED_ZONE_VOIDED" (Some (j_id j)) why
                      (void_deferred_job now (j_id j) why (dk_tables d)).1 d)
  | None => let (t, n) := release_update cnt j (dk_tables d) in
            Ok (if n =? 0 then d else add_event "RED_ZONE_RELEASED" (Some (j_id j)) EmptyString t d)
  end.
Fixpoint release_jobs (l : list SignalJob) (d : Desk) : result Desk :=
  match l with
  | [] => Ok d
  | j :: l => let! d := release_job_once d j in release_jobs l d
  end.

(** ** The cycle

    [gateway] is what the client answers, [None] without one.  A transaction
    that raises leaves nothing. *)
Definition missed_window (d : Desk) : Desk :=
  fold_left (fun d j => add_event "RED_ZONE_MISSED_WINDOW" (Some (j_id j))
                          "gateway_disconnected_during_release_window" (dk_tables d) d)
    (firstn 3 (deferred_jobs (dk_tables d))) d.
Definition release_transaction (d : Desk) : result Desk :=
  let l := deferred_jobs (dk_tables d) in
  let count := Z.of_nat (length l) in
  match l with
  | [] => Ok d
  | _ =>
      if max_auto_release_count settings <? count
      then Ok (add_event "RED_ZONE_BREAKER" None "count" (dk_tables d) d)
      else
        let! over := match max_auto_release_notional settings with
                     | Some limit => over_notional limit (total_reference l)
                     | None => Ok false
                     end in
        if (over : bool) then Ok (add_event "RED_ZONE_BREAKER" None "notional" (dk_tables d) d)
        else release_jobs (firstn (Z.to_nat (max_auto_release_count settings)) l) d
  end.
Definition gateway_ok (gateway : option (result bool)) : bool :=
  match gateway with Some (Ok b) => b | Some (Raise _) => false | None => true end.
Definition release_cycle (gateway : option (result bool)) (d : Desk) : Desk * result unit :=
  match rk_in_red_zone clock now with
  | Raise e => (d, Raise e)
  | Ok true => (d, Ok tt)
  | Ok false =>
      if gateway_ok gateway
      then match release_transaction d with
           | Ok d' => (d', Ok tt)
           | Raise e => (d, Raise e)
           end
      else (missed_window d, Ok tt)
  end.

(** ** Facts *)
(** What a cycle makes of a row. *)
Definition after_release (j : SignalJob) : SignalJob :=
  if deferred j then
    match release_verdict j with
    | Ok (_, Some why) => voided_row why j
    | Ok (cnt, None) => released_row cnt j
    | Raise _ => j
    end
  else j.
Lemma after_release_final j : is_ok (release_verdict j) = true -> deferred (after_release j) = false.
Proof.
  unfold after_release. destruct (deferred j) eqn:D; [|done]. by destruct (release_verdict j) as [[c [w|]]|].
Qed.
Lemma release_one_spec d d' j :
  t_jobs (dk_tables d) !! j_id j = Some j -> deferred j = true -> release_job_once d j = Ok d' ->
  t_jobs (dk_tables d') = <[j_id j := after_release j]> (t_jobs (dk_tables d))
  /\ is_ok (release_verdict j) = true.
Proof.
  intros L D. unfold release_job_once, after_release. rewrite D.
  destruct (release_verdict j) as [[cnt [why|]]|e]; simpl; [| |done]; intros H; (split; [|done]).
  - injection H as <-. unfold void_deferred_job. simpl. by rewrite L, D.
  - unfold release_update, update_job in H. rewrite L, D in H. by injection H as <-.
Qed.
Lemma release_jobs_spec l d d' :
  NoDup (map j_id l) -> Forall (fun j => t_jobs (dk_tables d) !! j_id j = Some j /\ deferred j = true) l ->
  release_jobs l d = Ok d' ->
  Forall (fun j => is_ok (release_verdict j) = true) l
  /\ forall i, t_jobs (dk_tables d') !! i
       = if bool_decide (i ∈ map j_id l) then after_release <$> t_jobs (dk_tables d) !! i
         else t_jobs (dk_tables d) !! i.
Proof.
  revert d. induction l as [|j l IH]; intros d N F; simpl.
  { intros [= <-]. split; [done|]. done. }
  intros (d1 & R & H)%rbind_ok. simpl in N. apply NoDup_cons in N as [Nj N].
  apply Forall_cons in F as [[L D] F]. apply release_one_spec in R as [T V]; [|done..].
  apply IH in H as [W H]; [|done|].
  - split; [by constructor|]. intros i. rewrite H, T. destruct (decide (i = j_id j)) as [->|Ne].
    + rewrite lookup_insert_eq, L. repeat case_bool_decide; try done; set_solver.
    + rewrite lookup_insert_ne by done. case_bool_decide; case_bool_decide; try done; set_solver.
  - apply Forall_forall. intros k Ik. rewrite Forall_forall in F. destruct (F k Ik) as [Lk Dk].
    split; [|done]. rewrite T, lookup_insert_ne; [done|]. intros E. apply Nj. rewrite E.
    by apply list_elem_of_fmap_2.
Qed.

Lemma tables_after_release t d' :
  keyed (t_jobs t) ->
  (forall i, t_jobs d' !! i = if bool_decide (i ∈ map j_id (deferred_jobs t))
                              then after_release <$> t_jobs t !! i else t_jobs t !! i) ->
  t_jobs d' = after_release <$> t_jobs t.
Proof.
  intros K H. apply map_eq. intros i. rewrite H, lookup_fmap. case_bool_decide as I; [done|].
  destruct (t_jobs t !! i) as [j|] eqn:L; [|done]. simpl. f_equal. unfold after_release.
  destruct (deferred j) eqn:D; [|done]. destruct I. rewrite <- (K i j L). apply list_elem_of_fmap_2.
  apply deferred_jobs_elem. eauto.
Qed.

(** The breakers let a cycle through. *)
Definition within_breakers (t : Tables) : Prop :=
  Z.of_nat (length (deferred_jobs t)) <= max_auto_release_count settings
  /\ match max_auto_release_notional settings with
     | Some limit => over_notional limit (total_reference (deferred_jobs t)) = Ok false
     | None => True
     end.

Lemma release_transaction_spec d d' :
  keyed (t_jobs (dk_tables d)) -> release_transaction d = Ok d' ->
  dk_tables d' = dk_tables d
  \/ (within_breakers (dk_tables d) /\ t_jobs (dk_tables d') = after_release <$> t_jobs (dk_tables d)
      /\ Forall (fun j => is_ok (release_verdict j) = true) (deferred_jobs (dk_tables d))).
Proof.
  intros K. unfold release_transaction, within_breakers.
  pose proof (deferred_jobs_ids _ K) as N.
  assert (F : Forall (fun j => t_jobs (dk_tables d) !! j_id j = Some j /\ deferred j = true)
                (deferred_jobs (dk_tables d))).
  { apply Forall_forall. intros j I. apply deferred_jobs_elem in I as [D [i L]].
    by rewrite (K i j L). }
  pose proof (tables_after_release (dk_tables d) (dk_tables d') K) as A.
  destruct (deferred_jobs (dk_tables d)) as [|j0 l0]; [by intros [= <-]; left|].
  set (l := j0 :: l0) in *. destruct (Z.ltb_spec (max_auto_release_count settings) (Z.of_nat (length l))) as [C|C];
    [by intros [= <-]; left|].
  intros (over & O & H)%rbind_ok. destruct over; [injection H as <-; by left|].
  rewrite firstn_all2 in H by lia. apply release_jobs_spec in H as [V H]; [|done..]. right.
  split_and!; [done|by destruct (max_auto_release_notional settings)|by apply A|done].
Qed.
Lemma none_deferred t t' :
  t_jobs t' = after_release <$> t_jobs t ->
  Forall (fun j => is_ok (release_verdict j) = true) (deferred_jobs t) -> deferred_jobs t' = [].
Proof.
  intros E V. destruct (deferred_jobs t') as [|k l] eqn:D; [done|].
  assert (I : k ∈ deferred_jobs t') by (rewrite D; by left).
  apply deferred_jobs_elem in I as [Dk [i L]]. rewrite E, lookup_fmap in L.
  destruct (t_jobs t !! i) as [j|] eqn:Lj; [|done]. simpl in L. injection L as <-.
  destruct (deferred j) eqn:Dj.
  - rewrite after_release_final in Dk; [done|]. rewrite Forall_forall in V. apply V, deferred_jobs_elem. eauto.
  - unfold after_release in Dk. rewrite Dj in Dk. congruence.
Qed.

Lemma missed_same d : dk_tables (missed_window d) = dk_tables d.
Proof.
  unfold missed_window. generalize (firstn 3 (deferred_jobs (dk_tables d))). intros l. revert d.
  induction l as [|j l IH]; intros d; simpl; [done|]. by rewrite IH.
Qed.

(** A cycle decides every deferred job or none: outside the red zone, with
    the gateway connected and the breakers satisfied, each deferred row is
    voided or queued again exactly as its own verdict says and every other row
    stays as it is, so no job is left deferred; in every other case, and when
    anything raises, no row of jobs or signals changes. *)
Theorem release_cycle_exact (gateway : option (result bool)) (d d' : Desk) (r : result unit) :
  keyed (t_jobs (dk_tables d)) ->
  release_cycle gateway d = (d', r) ->
  dk_tables d' = dk_tables d
  \/ (rk_in_red_zone clock now = Ok false /\ (gateway = None \/ gateway = Some (Ok true))
      /\ within_breakers (dk_tables d)
      /\ t_jobs (dk_tables d') = after_release <$> t_jobs (dk_tables d)
      /\ Forall (fun j => is_ok (release_verdict j) = true) (deferred_jobs (dk_tables d))
      /\ deferred_jobs (dk_tables d') = []).
Proof.
  intros K. unfold release_cycle. destruct (rk_in_red_zone clock now) as [[|]|e] eqn:Z;
    [by intros [= <- _]; left| |by intros [= <- _]; left].
  destruct (gateway_ok gateway) eqn:G;
    [|intros [= <- _]; left; apply missed_same].
  destruct (release_transaction d) as [d1|e] eqn:T; [|by intros [= <- _]; left]. intros [= <- _].
  apply release_transaction_spec in T as [T|(W & J & V)]; [by left| |done]. right.
  split_and!; try done.
  - by destruct gateway as [[[]|]|]; auto.
  - by eapply none_deferred.
Qed.
End Release.

(** ** The count breaker never resets *)
Section Latch.
Variable settings : ReleaseSettings.

(** Every deferred row of [t] is one of [t']. *)
Definition still_deferred (t t' : Tables) : Prop :=
  forall i j, t_jobs t !! i = Some j -> deferred j = true -> t_jobs t' !! i = Some j.
(** What happens while jobs are deferred: cycles of the service, at any time
    and whatever the clock, the gateway and the kill switch say, further parks,
    and whatever leaves deferred rows alone -- also between the two halves of
    a park. *)
Inductive meanwhile : Desk -> Desk -> Prop :=
  | Cycles clock killed now gateway d :
      meanwhile d (release_cycle settings clock killed now gateway d).1
  | Parks id worker x between d :
      let read := with_jobs (between (t_jobs (dk_tables d))) (dk_tables d) in
      still_deferred (dk_tables d) read -> keyed (t_jobs read) ->
      meanwhile d {| dk_tables := (park_red_zone id worker x between (dk_tables d)).1;
                     dk_events := dk_events d |}
  | Elsewhere d d' :
      still_deferred (dk_tables d) (dk_tables d') -> keyed (t_jobs (dk_tables d')) -> meanwhile d d'.

Lemma deferred_count t t' :
  keyed (t_jobs t) -> still_deferred t t' -> (length (deferred_jobs t) <= length (deferred_jobs t'))%nat.
Proof.
  intros K S. apply submseteq_length, NoDup_submseteq.
  - apply (NoDup_fmap_1 j_id), deferred_jobs_ids, K.
  - intros j I. apply deferred_jobs_elem in I as [D [i L]]. apply (proj2 (deferred_jobs_elem t' j)). by split; [|exists i; apply S].
Qed.
Lemma cycle_tripped clock killed now gateway d :
  max_auto_release_count settings < Z.of_nat (length (deferred_jobs (dk_tables d))) ->
  dk_tables (release_cycle settings clock killed now gateway d).1 = dk_tables d.
Proof.
  intros C. unfold release_cycle, release_transaction. destruct (rk_in_red_zone clock now) as [[|]|e]; [done| |done].
  destruct (gateway_ok gateway); [|apply missed_same].
  destruct (deferred_jobs (dk_tables d)) as [|j l]; [done|].
  by rewrite (proj2 (Z.ltb_lt _ _) C).
Qed.
Lemma park_still id worker x between t :
  let read := with_jobs (between (t_jobs t)) t in
  keyed (t_jobs t) -> still_deferred t read -> keyed (t_jobs read) ->
  still_deferred t (park_red_zone id worker x between t).1
  /\ keyed (t_jobs (park_red_zone id worker x between t).1).
Proof.
  intros read K S K'. unfold park_red_zone, park_check.
  destruct (t_jobs t !! id) as [j|] eqn:L; [|by split; [intros i j|]].
  destruct (owned worker j) eqn:O; [|by split; [intros i k|]]. unfold park_write. fold read.
  destruct (t_jobs read !! id) as [c|] eqn:Lc; [|done]. simpl. split.
  - intros i k Lk D. simpl. destruct (decide (i = id)) as [->|N];
      [|by rewrite lookup_insert_ne by done; apply S].
    rewrite L in Lk. injection Lk as ->. unfold owned, active, deferred in *.
    apply bool_decide_eq_true_1 in D. rewrite D in O. by apply andb_true_iff in O as [_ O].
  - intros i k. destruct (decide (i = id)) as [->|N]; [|rewrite lookup_insert_ne by done; apply K'].
    rewrite lookup_insert_eq. intros [= <-]. by apply (K' id c).
Qed.

(** The count breaker never resets by itself: once more jobs are deferred
    than the limit, no cycle releases or voids any of them, however often the
    service runs and whatever else happens to the queue; each of these rows
    stays exactly as it was parked. *)
Theorem breaker_latches (d d' : Desk) :
  keyed (t_jobs (dk_tables d)) ->
  max_auto_release_count settings < Z.of_nat (length (deferred_jobs (dk_tables d))) ->
  rtc meanwhile d d' -> still_deferred (dk_tables d) (dk_tables d').
Proof.
  intros K C R. revert K C. induction R as [d|d1 d2 d3 H _ IH]; intros K C; [by intros i j|].
  assert (S : still_deferred (dk_tables d1) (dk_tables d2) /\ keyed (t_jobs (dk_tables d2))).
  { destruct H as [clock killed now gateway d|id worker x between d read S K'|d d' S K']; [|by apply park_still|done].
    rewrite cycle_tripped by done. by split; [intros i j|]. }
  destruct S as [S K2]. pose proof (deferred_count _ _ K S).
  intros i j L D. apply IH; [done|lia|by apply S|done].
Qed.
End Latch.

(** ** Examples: Monday's deferrals on Tuesday morning *)
Definition ex_release_clock : ReleaseClock :=
  session_release_clock (Some weekdays) ∅ None ∅ ∅ winter ex_clock.
Definition ex_now : Z := combine ex_day (time_of 15 0).
Definition ex_settings (notional : option Q) : ReleaseSettings := {|
  max_auto_release_count := 2; max_auto_release_notional := notional; max_deferred_sessions := 1 |}.
Definition ex_parked_at (price : option pydec) : Deferral := {|
  df_deferred_at := combine (ex_day - 1) (time_of 20 59); df_reason := "RED_ZONE_DEFERRED";
  df_reference_price := price; df_resolved_session_close := None;
  df_applied_buffer_seconds := 45; df_session_count := 0 |}.
Definition ex_deferred (id : Z) (scope : string) (payload : json) (price : option pydec) : SignalJob :=
  park_job (ex_parked_at price)
    (new_job id 0 "T1" "model_blue" (Some "T1"%string) "k" payload None "r" (Some scope)).
Definition ex_desk (l : list SignalJob) : Desk := {|
  dk_tables := {| t_jobs := list_to_map (map (fun j => (j_id j, j)) l);
                  t_signals := t_signals ex_parked; t_orders := [1]; t_claims := ∅ |};
  dk_events := [] |}.
Definition ex_future (month : string) : json :=
  JObj [("buckets", JList [JObj [("legs", JList [JObj [("instrument_type", JStr "FUT");
                                                      ("contract_month", JStr month)]])]])]%string.
Definition ex_cycle (notional : option Q) (l : list SignalJob) : Desk * result unit :=
  release_cycle (ex_settings notional) ex_release_clock (fun a => a =? 9) ex_now None (ex_desk l).
Definition ex_statuses (d : Desk) : list (JobStatus * option string) :=
  omap (fun i => (fun j => (j_status j, j_last_error j)) <$> t_jobs (dk_tables d) !! i) [1; 2; 3].

Example ex_released :
  ex_statuses (ex_cycle None [ex_deferred 1 "7" (ex_future "2026-01") None;
                              ex_deferred 2 "7" (ex_future "2025-12") None]).1
  = [(JOB_QUEUED, Some "RED_ZONE_DEFERRED"%string); (JOB_REJECTED, Some "VOID_EXPIRED_CONTRACT"%string)]
  /\ ex_statuses (ex_cycle None [ex_deferred 1 "9" JNull None]).1
     = [(JOB_REJECTED, Some "VOID_KILLSWITCH"%string)].
Proof. by vm_compute. Qed.
(** A malformed bucket after an expired one lets the expired contract through. *)
Example expired_let_through :
  payload_expired ex_now (ex_future "2025-12") = Ok true
  /\ payload_expired ex_now
       (match ex_future "2025-12" with
        | JObj [(k, JList [b])] => JObj [(k, JList [b; JObj [("legs"%string, JInt 1)]])]
        | v => v
        end) = Raise TypeError.
Proof. by vm_compute. Qed.
(** One deferral whose reference price is no number keeps every cycle with a
    notional limit from deciding anything. *)
Example nan_blocks_release :
  (ex_cycle (Some 1000000%Q) [ex_deferred 1 "7" JNull (Some (DFin 500)); ex_deferred 2 "8" JNull (Some DNaN)]).2
  = Raise InvalidOperation.
Proof. by vm_compute. Qed.
(** Releasing or voiding one account's job rewrites the signal that another
    account has executed. *)
Example release_hides_processed :
  map sr_status (t_signals ex_parked) = ["PROCESSED"%string]
  /\ map sr_status (t_signals (dk_tables (ex_cycle None [ex_deferred 1 "7" JNull None]).1)) = ["NEW"%string]
  /\ map sr_status (t_signals (dk_tables (ex_cycle None [ex_deferred 1 "9" JNull None]).1)) = ["REJECTED"%string].
Proof. by vm_compute. Qed.

Lemma ex_keyed l : NoDup (map j_id l) -> keyed (t_jobs (dk_tables (ex_desk l))).
Proof.
  intros N i j L. simpl in L. apply elem_of_list_to_map_2 in L.
  by apply list_elem_of_fmap in L as (k & [= -> ->] & _).
Qed.
Definition ex_two : list SignalJob := [ex_deferred 1 "7" JNull None; ex_deferred 2 "8" JNull None].
Definition ex_three : list SignalJob := ex_deferred 3 "7" JNull None :: ex_two.
Lemma release_cycle_exact_witness : deferred_jobs (dk_tables (ex_cycle None ex_two).1) = [].
Proof.
  destruct (release_cycle_exact (ex_settings None) ex_release_clock (fun a => a =? 9) ex_now None
    (ex_desk ex_two) (ex_cycle None ex_two).1 (ex_cycle None ex_two).2) as [E|(_ & _ & _ & _ & _ & D)];
    [apply ex_keyed; repeat constructor; set_solver|apply surjective_pairing| |exact D].
  exfalso. assert (X : ex_statuses (ex_cycle None ex_two).1 = ex_statuses (ex_desk ex_two))
    by (unfold ex_statuses; by rewrite E).
  vm_compute in X. discriminate X.
Defined.
Lemma breaker_latches_witness :
  still_deferred (dk_tables (ex_desk ex_three)) (dk_tables (ex_cycle None ex_three).1).
Proof.
  apply (breaker_latches (ex_settings None) (ex_desk ex_three)).
  - apply ex_keyed. repeat constructor; set_solver.
  - vm_compute. reflexivity.
  - apply rtc_once, Cycles.
Defined.
