(* ===== verification/TradingPause.v ===== *)
(** * The trading pause: [services/trading_pause.py]

    The column [accounts.trading_paused] and the cache that the gates read; the
    database is written first, the cache second. *)

From S2P Require Import Prelude Rounding PyText PyTime.

#[local] Open Scope Z_scope.
#[local] Set Warnings "-clear-no-such-hyp".

Record PauseRow : Type := {
  trading_paused : bool;
  paused_at : option Z;
  paused_by : option string
}.
Record PauseState : Type := { ps_rows : gmap Z PauseRow; ps_cache : gset Z }.

Definition is_account_trading_paused (s : PauseState) (account : Z) : bool :=
  bool_decide (account ∈ ps_cache s).
Definition get_paused_accounts (s : PauseState) : gset Z := ps_cache s.
Definition pause_account_cache (account : Z) (s : PauseState) : PauseState :=
  {| ps_rows := ps_rows s; ps_cache := {[ account ]} ∪ ps_cache s |}.
Definition resume_account_cache (account : Z) (s : PauseState) : PauseState :=
  {| ps_rows := ps_rows s; ps_cache := ps_cache s ∖ {[ account ]} |}.
Definition paused_rows (rows : gmap Z PauseRow) : gset Z :=
  list_to_set (map fst (List.filter (fun kr => trading_paused kr.2) (map_to_list rows))).
(** [hydrate_trading_pause_cache]; a failing query raises before the cache is
    cleared. *)
Definition hydrate_trading_pause_cache (query_ok : bool) (s : PauseState) : PauseState * result (gset Z) :=
  if query_ok
  then let c := paused_rows (ps_rows s) in ({| ps_rows := ps_rows s; ps_cache := c |}, Ok c)
  else (s, Raise (OtherError "DBAPIError")).
Definition get_pause_status (account : Z) (s : PauseState) : option PauseRow * bool :=
  match ps_rows s !! account with
  | Some r => (Some r, trading_paused r)
  | None => (None, false)
  end.

(** What the two operations do to the row and to the cache. *)
Inductive Toggle : Type := Pause (by_ : string) | Resume.
Definition wants (t : Toggle) : bool := match t with Pause _ => true | Resume => false end.
Definition toggled (now : Z) (t : Toggle) : PauseRow :=
  match t with
  | Pause by_ => {| trading_paused := true; paused_at := Some now; paused_by := Some by_ |}
  | Resume => {| trading_paused := false; paused_at := None; paused_by := None |}
  end.
Definition cache_write (account : Z) (t : Toggle) (s : PauseState) : PauseState :=
  match t with Pause _ => pause_account_cache account s | Resume => resume_account_cache account s end.
(** The transaction: the row, and whether it changed.  On a row that is as
    wanted already the cache is written inside of it. *)
Definition toggle_commit (now : Z) (account : Z) (t : Toggle) (commit_ok : bool) (s : PauseState)
    : PauseState * result (option PauseRow * bool) :=
  match ps_rows s !! account with
  | None => (s, Ok (None, false))
  | Some r =>
      if Bool.eqb (trading_paused r) (wants t) then (cache_write account t s, Ok (Some r, false))
      else if commit_ok
      then ({| ps_rows := <[account := toggled now t]> (ps_rows s); ps_cache := ps_cache s |},
            Ok (Some (toggled now t), true))
      else (s, Raise (OtherError "DBAPIError"))
  end.
(** [pause_account] and [resume_account]: the cache follows a commit that
    changed the row. *)
Definition toggle_account (now : Z) (account : Z) (t : Toggle) (commit_ok : bool) (s : PauseState)
    : PauseState * result (option PauseRow * bool) :=
  match toggle_commit now account t commit_ok s with
  | (s, Ok (row, true)) => (cache_write account t s, Ok (row, true))
  | out => out
  end.
Definition pause_account (now account : Z) (by_ : string) := toggle_account now account (Pause by_).
Definition resume_account (now account : Z) := toggle_account now account Resume.

(** ** The cache and the column *)
Definition column_paused (s : PauseState) (account : Z) : bool := (get_pause_status account s).2.
Definition agrees (s : PauseState) (account : Z) : Prop :=
  is_account_trading_paused s account = column_paused s account.

Lemma paused_rows_elem (rows : gmap Z PauseRow) (a : Z) :
  a ∈ paused_rows rows <-> exists r, rows !! a = Some r /\ trading_paused r = true.
Proof.
  unfold paused_rows. rewrite elem_of_list_to_set, list_elem_of_fmap. split.
  - intros ([k r] & -> & I). apply filter_elem in I as [I P]. apply elem_of_map_to_list in I. eauto.
  - intros (r & L & P). exists (a, r). split; [done|]. apply filter_elem. split; [|done].
    by apply elem_of_map_to_list.
Qed.
Lemma cache_write_reads account t s a :
  is_account_trading_paused (cache_write account t s) a
  = if decide (a = account) then wants t else is_account_trading_paused s a.
Proof.
  unfold is_account_trading_paused, cache_write. destruct t; simpl; destruct (decide (a = account)) as [->|N];
    repeat case_bool_decide; try done; set_solver.
Qed.
Lemma toggled_wants now t : trading_paused (toggled now t) = wants t.
Proof. by destruct t. Qed.

Lemma hydrate_agrees s a : agrees (hydrate_trading_pause_cache true s).1 a.
Proof.
  unfold agrees, is_account_trading_paused, column_paused, get_pause_status. simpl.
  destruct (ps_rows s !! a) as [r|] eqn:L.
  - destruct (trading_paused r) eqn:P; [apply bool_decide_eq_true_2|apply bool_decide_eq_false_2];
      rewrite paused_rows_elem; [by exists r|]. intros (r' & L' & P'). congruence.
  - apply bool_decide_eq_false_2. rewrite paused_rows_elem. intros (r' & L' & P'). congruence.
Qed.

Lemma cache_write_rows account t s : ps_rows (cache_write account t s) = ps_rows s.
Proof. by destruct t. Qed.
Lemma cache_write_settled account t s :
  is_account_trading_paused s account = wants t -> cache_write account t s = s.
Proof.
  intros W. destruct s as [rows c].
  assert (K : bool_decide (account ∈ c) = wants t) by exact W. clear W.
  destruct t; simpl in K; [apply bool_decide_eq_true_1 in K|apply bool_decide_eq_false_1 in K];
    unfold cache_write, pause_account_cache, resume_account_cache; simpl; f_equal; apply leibniz_equiv;
    set_solver.
Qed.
(** A state whose row and cache are as wanted. *)
Lemma toggle_settled now account t ok s row :
  ps_rows s !! account = Some row -> trading_paused row = wants t ->
  toggle_account now account t ok (cache_write account t s) = (cache_write account t s, Ok (Some row, false)).
Proof.
  intros L W. unfold toggle_account, toggle_commit. rewrite cache_write_rows, L, W, eqb_reflx.
  rewrite cache_write_settled; [done|]. rewrite cache_write_reads. by rewrite decide_True.
Qed.
(** What writing the cache of a row that is as wanted leaves. *)
Lemma settled_agrees account t s row :
  ps_rows s !! account = Some row -> trading_paused row = wants t ->
  agrees (cache_write account t s) account
  /\ is_account_trading_paused (cache_write account t s) account = wants t
  /\ ps_rows (cache_write account t s) !! account = Some row.
Proof.
  intros L W. unfold agrees, column_paused, get_pause_status.
  rewrite cache_write_reads, cache_write_rows, L, decide_True by done. simpl. by rewrite W.
Qed.
Lemma other_account account t s a :
  a <> account -> agrees (cache_write account t s) a <-> agrees s a.
Proof.
  intros N. unfold agrees, column_paused, get_pause_status.
  by rewrite cache_write_reads, cache_write_rows, decide_False by done.
Qed.

(** The cache that the gates read is the column: a hydration makes it so, and
    a pause or a resume of any account keeps it so and settles its own account
    as asked, whatever the cache held for it before; when the account does not
    exist or the commit fails nothing changes; and a second call changes no
    row, so the first time and author of a pause are kept. *)
Theorem pause_cache_follows (now now' account : Z) (t : Toggle) (commit_ok commit_ok' : bool) (s : PauseState) :
  let (s', r) := toggle_account now account t commit_ok s in
  (forall a, a <> account -> (agrees s' a <-> agrees s a) /\ ps_rows s' !! a = ps_rows s !! a)
  /\ match r with
     | Ok (Some row, _) => agrees s' account /\ is_account_trading_paused s' account = wants t
         /\ ps_rows s' !! account = Some row
         /\ toggle_account now' account t commit_ok' s' = (s', Ok (Some row, false))
     | Ok (None, changed) => ps_rows s !! account = None /\ s' = s /\ changed = false
     | Raise _ => s' = s /\ commit_ok = false
     end
  /\ forall a, agrees (hydrate_trading_pause_cache true s').1 a.
Proof.
  destruct (toggle_account now account t commit_ok s) as [s' r] eqn:T.
  split_and!; [| |intros a; apply hydrate_agrees];
    unfold toggle_account, toggle_commit in T; destruct (ps_rows s !! account) as [row|] eqn:L; [| | |by injection T as <- <-].
  - intros a N. destruct (Bool.eqb _ _); [|destruct commit_ok]; injection T as <- <-; [| |done].
    + by rewrite other_account, cache_write_rows.
    + rewrite other_account, cache_write_rows by done. unfold agrees, column_paused, get_pause_status. simpl.
      by rewrite lookup_insert_ne.
  - by injection T as <- <-.
  - destruct (Bool.eqb _ _) eqn:W; [apply eqb_prop in W|destruct commit_ok]; injection T as <- <-; [| |done].
    + destruct (settled_agrees account t s row L W) as (A & C & R). split_and!; try done. by apply toggle_settled.
    + set (s1 := {| ps_rows := _; ps_cache := _ |}).
      assert (L1 : ps_rows s1 !! account = Some (toggled now t)) by apply lookup_insert_eq.
      destruct (settled_agrees account t s1 _ L1 (toggled_wants now t)) as (A & C & R).
      split_and!; try done. apply toggle_settled; [done|apply toggled_wants].
Qed.

(** ** Two operations at once

    Between the commit and the write of the cache the operation waits for its
    session to close, and another one may run as a whole: the cache then
    keeps the value of the operation that committed first. *)
Definition overtaken (now : Z) (account : Z) (first second : Toggle) (s : PauseState) : PauseState :=
  let (s, r) := toggle_commit now account first true s in
  let s := (toggle_account now account second true s).1 in
  match r with Ok (_, true) => cache_write account first s | _ => s end.
Example pause_lost :
  let s := {| ps_rows := {[ 7 := toggled 0 (Pause "op") ]}; ps_cache := {[ 7 ]} |} in
  let s' := overtaken 1 7 Resume (Pause "op") s in
  column_paused s' 7 = true /\ is_account_trading_paused s' 7 = false.
Proof. by vm_compute. Qed.
