(* ===== verification/TradeExecutions.v ===== *)
(** * The trade book: broker executions of [broker/ibkr/executions.py], their
    table of [db/repositories/trade_execution_repository.py] and the sync of
    [services/trade_book_sync_service.py]

    One row per execution id.  A line's quantities and prices are floats, the
    table's columns decimals; an execution's time is an instant here. *)

From S2P Require Import Prelude Rounding PyText PyTime Identifiers RmsModels Accounts TradeBook Positions.

#[local] Open Scope Q_scope.
#[local] Open Scope py_scope.
#[local] Set Warnings "-clear-no-such-hyp".

Definition SANE_PRICE_LIMIT : Q := 1000000000000.

Definition normalize_execution_side (raw : option string) : string :=
  let r := opt_str raw in
  if str_empty r then "UNKNOWN"
  else let s := str_upper (str_strip r) in
       if bool_decide (s ∈ ["BOT"; "BUY"]) then "BUY"
       else if bool_decide (s ∈ ["SLD"; "SELL"]) then "SELL" else s.

(** A float of a callback: [None] stands for one that is missing, not a number
    or infinite. *)
Definition safe_float (v : option Q) : Q := default 0 v.
Definition clean_commission (raw : option Q) : option Q :=
  match raw with Some v => if (0 <=? v) && (v <? SANE_PRICE_LIMIT) then Some v else None | None => None end.
Definition clean_realized_pnl (raw : option Q) : option Q :=
  match raw with Some v => if Qabs v <? SANE_PRICE_LIMIT then Some v else None | None => None end.

Record BrokerExecutionLine : Type := {
  bl_exec_id : string;
  bl_executed_at : Z;
  bl_ibkr_account : string;
  bl_symbol : string;
  bl_sec_type : string;
  bl_currency : string;
  bl_exchange : string;
  bl_con_id : Z;
  bl_side : string;
  bl_quantity : Q;
  bl_price : Q;
  bl_cum_qty : Q;
  bl_avg_price : Q;
  bl_broker_order_id : option Z;
  bl_perm_id : option Z;
  bl_client_id : option Z;
  bl_commission : option Q;
  bl_commission_currency : option string;
  bl_realized_pnl : option Q
}.
Definition charged (c : option Q) (currency : option string) (pnl : option Q) (l : BrokerExecutionLine)
    : BrokerExecutionLine := {|
  bl_exec_id := bl_exec_id l; bl_executed_at := bl_executed_at l; bl_ibkr_account := bl_ibkr_account l;
  bl_symbol := bl_symbol l; bl_sec_type := bl_sec_type l; bl_currency := bl_currency l;
  bl_exchange := bl_exchange l; bl_con_id := bl_con_id l; bl_side := bl_side l;
  bl_quantity := bl_quantity l; bl_price := bl_price l; bl_cum_qty := bl_cum_qty l;
  bl_avg_price := bl_avg_price l; bl_broker_order_id := bl_broker_order_id l; bl_perm_id := bl_perm_id l;
  bl_client_id := bl_client_id l; bl_commission := c; bl_commission_currency := currency;
  bl_realized_pnl := pnl |}.

(** What the collector reads of the two callbacks. *)
Record ExecCallback : Type := {
  ec_execId : string;
  ec_time : Z;
  ec_acctNumber : string;
  ec_symbol : string;
  ec_secType : string;
  ec_currency : string;
  ec_exchange : string;
  ec_conId : Z;
  ec_side : option string;
  ec_shares : option Q;
  ec_price : option Q;
  ec_cumQty : option Q;
  ec_avgPrice : option Q;
  ec_orderId : option Z;
  ec_permId : option Z;
  ec_clientId : option Z
}.
Record CommissionReport : Type := {
  cr_execId : string; cr_commission : option Q; cr_currency : string; cr_realizedPNL : option Q
}.
Definition line_of (e : ExecCallback) : BrokerExecutionLine := {|
  bl_exec_id := str_strip (ec_execId e); bl_executed_at := ec_time e;
  bl_ibkr_account := str_strip (ec_acctNumber e); bl_symbol := str_strip (ec_symbol e);
  bl_sec_type := str_strip (ec_secType e); bl_currency := str_strip (str_or (ec_currency e) "USD");
  bl_exchange := str_strip (ec_exchange e); bl_con_id := ec_conId e;
  bl_side := normalize_execution_side (ec_side e); bl_quantity := safe_float (ec_shares e);
  bl_price := safe_float (ec_price e); bl_cum_qty := safe_float (ec_cumQty e);
  bl_avg_price := safe_float (ec_avgPrice e); bl_broker_order_id := ec_orderId e;
  bl_perm_id := ec_permId e; bl_client_id := ec_clientId e; bl_commission := None;
  bl_commission_currency := None; bl_realized_pnl := None |}.

(** ** The collector of one request *)
Definition Charge : Type := option Q * string * option Q.
Record Collector : Type := {
  co_req_id : option Z;
  co_executions : list (string * BrokerExecutionLine);   (* in order of arrival *)
  co_pending : gmap string Charge;
  co_done : bool
}.
Definition collector_reset (req : Z) (c : Collector) : Collector := {|
  co_req_id := Some req; co_executions := []; co_pending := ∅; co_done := false |}.
Definition with_collected (l : list (string * BrokerExecutionLine)) (p : gmap string Charge) (c : Collector)
    : Collector := {|
  co_req_id := co_req_id c; co_executions := l; co_pending := p; co_done := co_done c |}.
Definition seen (id : string) (l : list (string * BrokerExecutionLine)) : option BrokerExecutionLine :=
  option_map snd (List.find (fun x => String.eqb (fst x) id) l).
Definition put_line (id : string) (x : BrokerExecutionLine) (l : list (string * BrokerExecutionLine)) :=
  if bool_decide (is_Some (seen id l))
  then map (fun y => if String.eqb (fst y) id then (id, x) else y) l else l ++ [(id, x)].
(** The commission a repeated or corrected report keeps, or the one that came
    before it. *)
Definition take_charge (id : string) (c : Collector) : (option Q * option string * option Q) * gmap string Charge :=
  let held := match seen id (co_executions c) with
              | Some old => match bl_commission old with
                            | Some _ => Some (bl_commission old, bl_commission_currency old, bl_realized_pnl old)
                            | None => None
                            end
              | None => None
              end in
  match held, co_pending c !! id with
  | Some k, _ => (k, co_pending c)
  | None, Some (k, cur, pnl) => ((k, Some cur, pnl), delete id (co_pending c))
  | None, None => ((None, None, None), co_pending c)
  end.
Definition collector_exec_details (req : Z) (e : ExecCallback) (c : Collector) : Collector :=
  if negb (bool_decide (co_req_id c = Some req)) then c
  else
    let id := str_strip (ec_execId e) in
    if str_empty id then c
    else
      let '(k, cur, pnl, pending) := take_charge id c in
      with_collected (put_line id (charged k cur pnl (line_of e)) (co_executions c)) pending c.
Definition collector_commission_report (r : CommissionReport) (c : Collector) : Collector :=
  let id := str_strip (cr_execId r) in
  if str_empty id then c
  else
    let k := clean_commission (cr_commission r) in
    let cur := str_strip (cr_currency r) in
    let pnl := clean_realized_pnl (cr_realizedPNL r) in
    match seen id (co_executions c) with
    | Some old => with_collected (put_line id (charged k (Some cur) pnl old) (co_executions c)) (co_pending c) c
    | None => with_collected (co_executions c) (<[id := (k, cur, pnl)]> (co_pending c)) c
    end.
Definition collector_exec_details_end (req : Z) (c : Collector) : Collector :=
  if bool_decide (co_req_id c = Some req)
  then {| co_req_id := co_req_id c; co_executions := co_executions c; co_pending := co_pending c; co_done := true |}
  else c.
Definition collector_snapshot (c : Collector) : list BrokerExecutionLine := map snd (co_executions c).

(** ** The table *)
Record TradeExecution : Type := {
  te_exec_id : string;
  te_account_id : Z;
  te_ibkr_account : string;
  te_order_id : option Z;
  te_symbol : string;
  te_sec_type : string;
  te_exchange : string;
  te_currency : string;
  te_con_id : Z;
  te_side : string;
  te_quantity : Q;
  te_price : Q;
  te_cum_qty : Q;
  te_avg_price : Q;
  te_broker_order_id : option string;
  te_perm_id : option Z;
  te_client_id : option Z;
  te_commission : option Q;
  te_commission_currency : option string;
  te_realized_pnl : option Q;
  te_executed_at : Z;
  te_correction_count : Z
}.
Abbreviation TradeBookTable := (gmap string TradeExecution).

(** Whether a line differs from the row that is there. *)
Definition is_correction (l : BrokerExecutionLine) (old : TradeExecution) : bool :=
  negb (Qeq_bool (te_quantity old) (repr_dec (bl_quantity l)))
  || negb (Qeq_bool (te_price old) (repr_dec (bl_price l)))
  || negb (String.eqb (te_symbol old) (bl_symbol l)) || negb (String.eqb (te_side old) (bl_side l)).
Definition upsert_one (l : BrokerExecutionLine) (account : Z) (order : option Z) (m : TradeBookTable)
    : result TradeBookTable :=
  let old := m !! bl_exec_id l in
  let! quantity := numeric 8 (repr_dec (bl_quantity l)) in
  let! price := numeric 8 (repr_dec (bl_price l)) in
  let! cum := numeric 8 (repr_dec (bl_cum_qty l)) in
  let! avg := numeric 8 (repr_dec (bl_avg_price l)) in
  let! commission := numeric_opt 8 (option_map repr_dec (bl_commission l)) in
  let! pnl := numeric_opt 8 (option_map repr_dec (bl_realized_pnl l)) in
  let kept := fun {A} (f : TradeExecution -> option A) (new : option A) =>
    match new, old with None, Some o => f o | _, _ => new end in
  Ok (<[bl_exec_id l := {|
    te_exec_id := bl_exec_id l; te_account_id := account;
    te_ibkr_account := str_upper (str_strip (bl_ibkr_account l)); te_order_id := kept te_order_id order;
    te_symbol := str_upper (str_strip (bl_symbol l)); te_sec_type := str_or (bl_sec_type l) "STK";
    te_exchange := str_or (bl_exchange l) "SMART"; te_currency := str_or (bl_currency l) "USD";
    te_con_id := bl_con_id l; te_side := bl_side l; te_quantity := quantity; te_price := price;
    te_cum_qty := cum; te_avg_price := avg; te_broker_order_id := option_map str_Z (bl_broker_order_id l);
    te_perm_id := bl_perm_id l; te_client_id := bl_client_id l;
    te_commission := kept te_commission commission;
    te_commission_currency := match commission, old with
                              | None, Some o => te_commission_currency o
                              | _, _ => bl_commission_currency l
                              end;
    te_realized_pnl := kept te_realized_pnl pnl; te_executed_at := bl_executed_at l;
    te_correction_count := match old with
                           | Some o => te_correction_count o + (if is_correction l o then 1 else 0)
                           | None => 0
                           end |}]> m).
Fixpoint upsert_batch (lines : list BrokerExecutionLine) (account : Z) (orders : option (gmap string Z))
    (m : TradeBookTable) : result TradeBookTable :=
  match lines with
  | [] => Ok m
  | l :: lines =>
      let order := match orders, bl_broker_order_id l with
                   | Some orders, Some id => orders !! str_Z id
                   | _, _ => None
                   end in
      let! m := upsert_one l account order m in upsert_batch lines account orders m
  end.
Definition count_for_account (account : Z) (m : TradeBookTable) : nat :=
  length (List.filter (fun e => (te_account_id e =? account)%Z) (map snd (map_to_list m))).

(** One sync of an account; [fetched] is [None] when the gateway's request
    raised.  The result is the number of lines and whether it timed out; a
    failing upsert raises after its transaction is undone. *)
Definition sync_one_account (busy connected : bool) (fetched : option (list BrokerExecutionLine * bool))
    (account : Z) (orders : gmap string Z) (m : TradeBookTable) : result (TradeBookTable * (Z * bool)) :=
  if busy || negb connected then Ok (m, (0, false)%Z)
  else match fetched with
       | None => Ok (m, (0, true)%Z)
       | Some (lines, timed_out) =>
           let! m := upsert_batch lines account (if bool_decide (orders = ∅) then None else Some orders) m in
           Ok (m, (Z.of_nat (length lines), timed_out))
       end.

(** ** Facts *)
(** A line that the table can hold as it is. *)
Record exact_line (l : BrokerExecutionLine) : Prop := {
  el_symbol : str_upper (str_strip (bl_symbol l)) = bl_symbol l;
  el_quantity : forall q, numeric 8 (repr_dec (bl_quantity l)) = Ok q -> q == repr_dec (bl_quantity l);
  el_price : forall q, numeric 8 (repr_dec (bl_price l)) = Ok q -> q == repr_dec (bl_price l)
}.
Lemma upsert_row l account order m m' :
  upsert_one l account order m = Ok m' ->
  exists e, m' = <[bl_exec_id l := e]> m /\ te_symbol e = str_upper (str_strip (bl_symbol l))
    /\ te_side e = bl_side l /\ te_account_id e = account
    /\ numeric 8 (repr_dec (bl_quantity l)) = Ok (te_quantity e) /\ numeric 8 (repr_dec (bl_price l)) = Ok (te_price e)
    /\ (forall old, m !! bl_exec_id l = Some old ->
          te_correction_count e = (te_correction_count old + if is_correction l old then 1 else 0)%Z
          /\ (bl_commission l = None -> te_commission e = te_commission old)
          /\ (bl_realized_pnl l = None -> te_realized_pnl e = te_realized_pnl old)
          /\ (order = None -> te_order_id e = te_order_id old))
    /\ (bl_commission l <> None -> is_Some (te_commission e)).
Proof.
  unfold upsert_one. cbv zeta.
  intros (q & Q & (p & P & (c & _ & (a & _ & (k & K & (r & R & H)%rbind_ok)%rbind_ok)%rbind_ok)%rbind_ok)%rbind_ok)%rbind_ok.
  injection H as <-. eexists. split; [reflexivity|]. cbn. split_and!; try done.
  - intros old ->. split; [done|]. destruct (bl_commission l), (bl_realized_pnl l), order; simpl in *;
      repeat match goal with H : rbind _ _ = Ok _ |- _ => apply rbind_ok in H as (? & _ & [= <-])
                           | H : Ok _ = Ok _ |- _ => injection H as <- end; done.
  - intros N. destruct (bl_commission l); [|done]. simpl in K. apply rbind_ok in K as (x & _ & [= <-]). by eexists.
Qed.
(** A commission that is in the table stays known. *)
Lemma charge_kept l account order m m' id old :
  upsert_one l account order m = Ok m' -> m !! id = Some old -> is_Some (te_commission old) ->
  exists e, m' !! id = Some e /\ is_Some (te_commission e).
Proof.
  intros (e & -> & _ & _ & _ & _ & _ & O & C)%upsert_row L S.
  destruct (decide (bl_exec_id l = id)) as [E|N]; [subst id|exists old; by rewrite lookup_insert_ne].
  exists e. rewrite lookup_insert_eq. split; [done|]. destruct (bl_commission l) eqn:B; [by apply C|].
  destruct (O old L) as (_ & K & _). by rewrite K.
Qed.

(** Syncing the trade book again changes nothing and loses nothing: a line
    that the table can hold, upserted again into the table it made, leaves
    every row as it is, its number of corrections included; and however many
    lines are synced, with or without commissions, a commission that is in
    the table stays known. *)
Theorem trade_book_sync (l : BrokerExecutionLine) (account : Z) (order : option Z) (m m' : TradeBookTable) :
  upsert_one l account order m = Ok m' ->
  (exact_line l -> exists m'', upsert_one l account order m' = Ok m''
     /\ forall id, option_map te_correction_count (m'' !! id) = option_map te_correction_count (m' !! id)
                   /\ option_map te_quantity (m'' !! id) = option_map te_quantity (m' !! id)
                   /\ option_map te_price (m'' !! id) = option_map te_price (m' !! id)
                   /\ (forall e, m' !! id = Some e -> is_Some (te_commission e) ->
                         exists e'', m'' !! id = Some e'' /\ is_Some (te_commission e'')))
  /\ forall lines orders m2, upsert_batch lines account orders m' = Ok m2 ->
       forall id e, m' !! id = Some e -> is_Some (te_commission e) ->
       exists e2, m2 !! id = Some e2 /\ is_Some (te_commission e2).
Proof.
  intros U. split.
  - intros [Es Eq Ep]. destruct (upsert_row _ _ _ _ _ U) as (e & -> & Sy & Si & _ & Nq & Np & _ & _).
    assert (X : exists m'', upsert_one l account order (<[bl_exec_id l := e]> m) = Ok m'').
    { unfold upsert_one in *. cbv zeta in *.
      repeat (apply rbind_ok in U as (? & -> & U)). simpl. by eexists. }
    destruct X as (m'' & U2). exists m''. split; [done|]. intros id.
    pose proof (fun old => charge_kept l account order _ m'' id old U2) as Ck.
    destruct (upsert_row _ _ _ _ _ U2) as (e2 & -> & _ & _ & _ & Nq2 & Np2 & O & _).
    destruct (O e ltac:(by rewrite lookup_insert_eq)) as (Cc & _ & _ & _).
    assert (F : is_correction l e = false).
    { unfold is_correction. rewrite Sy, Si, Es, !String.eqb_refl.
      by rewrite (Qeq_eq_bool _ _ (Eq _ Nq)), (Qeq_eq_bool _ _ (Ep _ Np)). }
    destruct (decide (bl_exec_id l = id)) as [<-|N].
    + rewrite !lookup_insert_eq in *. simpl. rewrite Cc, F. split_and!; [f_equal; lia|congruence|congruence|].
      intros x [= <-]. by apply Ck.
    + rewrite !(lookup_insert_ne _ _ _ _ N) in *. by split_and!.
  - intros lines orders. clear U. revert m'. induction lines as [|k lines IH]; intros m1 m2; simpl.
    + intros [= <-] id e L S. by exists e.
    + intros (m3 & U & B)%rbind_ok id e L S. destruct (charge_kept _ _ _ _ _ id e U L S) as (e3 & L3 & S3).
      by apply (IH m3 m2 B id e3).
Qed.

(** ** Examples *)
Definition ex_line (price : Q) (commission : option Q) : BrokerExecutionLine := {|
  bl_exec_id := "x1"; bl_executed_at := 5; bl_ibkr_account := "DU7"; bl_symbol := "SPY"; bl_sec_type := "STK";
  bl_currency := "USD"; bl_exchange := "SMART"; bl_con_id := 1; bl_side := "BUY"; bl_quantity := 10;
  bl_price := price; bl_cum_qty := 10; bl_avg_price := price; bl_broker_order_id := Some 4%Z;
  bl_perm_id := None; bl_client_id := None; bl_commission := commission; bl_commission_currency := None;
  bl_realized_pnl := None |}.
Definition corrections (r : result TradeBookTable) : list Z :=
  match r with Ok m => map te_correction_count (map snd (map_to_list m)) | Raise _ => [] end.
(** A price of more than eight decimals is a correction at every sync. *)
Example corrected_forever :
  corrections (upsert_batch [ex_line (fl (1 # 3)) None; ex_line (fl (1 # 3)) None; ex_line (fl (1 # 3)) None] 7 None ∅)
  = [2%Z].
Proof. vm_compute. reflexivity. Qed.
(** The commission may come first. *)
Example commission_first :
  let c := collector_reset 9 {| co_req_id := None; co_executions := []; co_pending := ∅; co_done := false |} in
  let r := {| cr_execId := "x1"; cr_commission := Some 1; cr_currency := "USD"; cr_realizedPNL := None |} in
  let e := {| ec_execId := "x1"; ec_time := 5; ec_acctNumber := "DU7"; ec_symbol := "SPY"; ec_secType := "STK";
              ec_currency := "USD"; ec_exchange := "SMART"; ec_conId := 1; ec_side := Some "BOT"%string;
              ec_shares := Some 10; ec_price := Some 5; ec_cumQty := Some 10; ec_avgPrice := Some 5;
              ec_orderId := Some 4%Z; ec_permId := None; ec_clientId := None |} in
  map (fun l => (bl_side l, bl_commission l)) (collector_snapshot (collector_exec_details 9 e (collector_commission_report r c)))
  = [("BUY"%string, Some 1)]
  /\ collector_snapshot (collector_commission_report r (collector_exec_details 9 e c))
     = collector_snapshot (collector_exec_details 9 e (collector_commission_report r c)).
Proof. vm_compute. auto. Qed.
Lemma ex_exact : exact_line (ex_line 100 (Some 1)).
Proof.
  assert (E1 : numeric 8 (repr_dec 10) = Ok 10) by (vm_compute; reflexivity).
  assert (E2 : numeric 8 (repr_dec 100) = Ok 100) by (vm_compute; reflexivity).
  split; cbn [ex_line bl_symbol bl_quantity bl_price]; [reflexivity| |]; intros q; rewrite ?E1, ?E2;
    intros [= <-]; vm_compute; reflexivity.
Qed.
Lemma trade_book_sync_witness :
  exists m m'', upsert_one (ex_line 100 (Some 1)) 7 None ∅ = Ok m /\ upsert_one (ex_line 100 (Some 1)) 7 None m = Ok m''.
Proof.
  destruct (upsert_one (ex_line 100 (Some 1)) 7 None ∅) as [m|e] eqn:U; [|by vm_compute in U].
  destruct (trade_book_sync _ _ _ _ _ U) as [X _]. destruct (X ex_exact) as (m'' & U2 & _).
  exists m, m''. split; [reflexivity|exact U2].
Defined.
