(* ===== verification/ManualLedger.v ===== *)
(** * Manual trading: the ledger of [db/repositories/manual_repository.py] over
    [db/models/manual_order.py]

    Orders, executions and positions of the manual desk, kept apart from the
    engine's.  Rows are listed by id; what a flush stores is rounded to the
    columns' scales. *)

From S2P Require Import Prelude Rounding PyText PyTime Identifiers RmsModels Accounts TradeBook Positions.

#[local] Open Scope Q_scope.
#[local] Open Scope py_scope.
#[local] Set Warnings "-clear-no-such-hyp".

Inductive ManualOrderStatus : Type :=
  | MO_PENDING_SUBMIT | MO_SUBMITTED | MO_PARTIALLY_FILLED | MO_FILLED | MO_CANCELLED | MO_REJECTED
  | MO_ERROR.
#[global] Instance ManualOrderStatus_eq_dec : EqDecision ManualOrderStatus.
Proof. solve_decision. Defined.

Record ManualOrder : Type := {
  mo_id : Z;
  mo_account_id : Z;
  mo_ibkr_account : string;
  mo_idempotency_key : string;
  mo_internal_order_id : string;
  mo_trade_id : string;
  mo_broker_order_id : option string;
  mo_perm_id : option Z;
  mo_con_id : Z;
  mo_symbol : string;
  mo_sec_type : string;
  mo_exchange : string;
  mo_currency : string;
  mo_side : string;
  mo_quantity : Q;
  mo_order_type : string;
  mo_limit_price : option Q;
  mo_tif : string;
  mo_status : ManualOrderStatus;
  mo_source : string;
  mo_reject_reason : option string;
  mo_submitted_at : option Z;
  mo_completed_at : option Z
}.
Record ManualExecution : Type := {
  me_order_id : Z;
  me_exec_id : string;
  me_broker_order_id : option string;
  me_quantity : Q;
  me_price : Q;
  me_commission : option Q;
  me_commission_currency : option string;
  me_executed_at : Z
}.
Inductive ManualStatus : Type :=
  | MAN_OPEN | MAN_CLOSING | MAN_CLOSED | MAN_FLATTENED_PENDING_PRICE | MAN_PENDING_PRICE.
#[global] Instance ManualStatus_eq_dec : EqDecision ManualStatus.
Proof. solve_decision. Defined.
Record ManualPosition : Type := {
  mp_id : Z;
  mp_account_id : Z;
  mp_trade_id : string;
  mp_symbol : string;
  mp_con_id : Z;
  mp_sec_type : string;
  mp_currency : string;
  mp_signed_qty : Q;
  mp_avg_cost : Q;
  mp_realized_pnl : Q;
  mp_status : ManualStatus;
  mp_opened_at : Z;
  mp_closed_at : option Z
}.
Record ManualHalt : Type := {
  mh_halted : bool; mh_halted_by : option string; mh_halted_at : option Z; mh_reason : option string
}.
(** An audit row, without its payload. *)
Record ManualAudit : Type := { ma_account_id : Z; ma_action : string; ma_request_id : option string }.

Record ManualBook : Type := {
  mb_orders : list ManualOrder;
  mb_execs : list ManualExecution;
  mb_positions : list ManualPosition;
  mb_halts : gmap Z ManualHalt;
  mb_audit : list ManualAudit;
  mb_next : Z                               (* the sequences of the ids *)
}.
Definition empty_book : ManualBook := {|
  mb_orders := []; mb_execs := []; mb_positions := []; mb_halts := ∅; mb_audit := []; mb_next := 1 |}.
Definition set_manual_orders (l : list ManualOrder) (b : ManualBook) : ManualBook := {|
  mb_orders := l; mb_execs := mb_execs b; mb_positions := mb_positions b; mb_halts := mb_halts b;
  mb_audit := mb_audit b; mb_next := mb_next b |}.
Definition set_manual_execs (l : list ManualExecution) (b : ManualBook) : ManualBook := {|
  mb_orders := mb_orders b; mb_execs := l; mb_positions := mb_positions b; mb_halts := mb_halts b;
  mb_audit := mb_audit b; mb_next := mb_next b |}.
Definition set_manual_positions (l : list ManualPosition) (b : ManualBook) : ManualBook := {|
  mb_orders := mb_orders b; mb_execs := mb_execs b; mb_positions := l; mb_halts := mb_halts b;
  mb_audit := mb_audit b; mb_next := mb_next b |}.
Definition set_halts (h : gmap Z ManualHalt) (b : ManualBook) : ManualBook := {|
  mb_orders := mb_orders b; mb_execs := mb_execs b; mb_positions := mb_positions b; mb_halts := h;
  mb_audit := mb_audit b; mb_next := mb_next b |}.
Definition next_manual_id (b : ManualBook) : ManualBook := {|
  mb_orders := mb_orders b; mb_execs := mb_execs b; mb_positions := mb_positions b;
  mb_halts := mb_halts b; mb_audit := mb_audit b; mb_next := (mb_next b + 1)%Z |}.

(** ** Audit and halts *)
Definition record_event (account : Z) (action : string) (request : option string) (b : ManualBook)
    : ManualBook := {|
  mb_orders := mb_orders b; mb_execs := mb_execs b; mb_positions := mb_positions b;
  mb_halts := mb_halts b;
  mb_audit := mb_audit b ++ [{| ma_account_id := account; ma_action := str_upper (str_strip action);
                                ma_request_id := request |}];
  mb_next := mb_next b |}.
Definition get_halt_state (account : Z) (b : ManualBook) : option ManualHalt := mb_halts b !! account.
Definition set_halt (now account : Z) (halted : bool) (by_ reason : option string) (b : ManualBook)
    : ManualBook :=
  set_halts (<[account := {| mh_halted := halted; mh_halted_by := by_;
                             mh_halted_at := if halted then Some now else None;
                             mh_reason := reason |}]> (mb_halts b)) b.

(** ** Orders *)
Definition norm_text (s : string) : string := str_upper (str_strip s).
(** The row [create_order] adds for the values it is given. *)
Definition order_row (id : Z) (qty : Q) (limit : option Q) (o : ManualOrder) : ManualOrder := {|
  mo_id := id; mo_account_id := mo_account_id o; mo_ibkr_account := norm_text (mo_ibkr_account o);
  mo_idempotency_key := mo_idempotency_key o; mo_internal_order_id := mo_internal_order_id o;
  mo_trade_id := mo_trade_id o; mo_broker_order_id := None; mo_perm_id := mo_perm_id o;
  mo_con_id := mo_con_id o; mo_symbol := norm_text (mo_symbol o);
  mo_sec_type := norm_text (mo_sec_type o); mo_exchange := norm_text (mo_exchange o);
  mo_currency := norm_text (mo_currency o); mo_side := norm_text (mo_side o); mo_quantity := qty;
  mo_order_type := norm_text (mo_order_type o); mo_limit_price := limit; mo_tif := norm_text (mo_tif o);
  mo_status := mo_status o; mo_source := "manual"; mo_reject_reason := None; mo_submitted_at := None;
  mo_completed_at := None |}.
Definition has_key (account : Z) (key : string) (o : ManualOrder) : bool :=
  (mo_account_id o =? account)%Z && String.eqb (mo_idempotency_key o) key.
Definition has_internal (id : string) (o : ManualOrder) : bool := String.eqb (mo_internal_order_id o) id.
Definition create_order (o : ManualOrder) (b : ManualBook) : result (ManualBook * ManualOrder) :=
  let! qty := numeric 4 (mo_quantity o) in
  let! limit := numeric_opt 8 (mo_limit_price o) in
  if existsb (fun k => has_key (mo_account_id o) (mo_idempotency_key o) k
                       || has_internal (mo_internal_order_id o) k) (mb_orders b)
  then Raise (OtherError "IntegrityError")
  else let row := order_row (mb_next b) qty limit o in
       Ok (next_manual_id (set_manual_orders (mb_orders b ++ [row]) b), row).

(** The first row, and the one of the greatest id. *)
Definition find_order (p : ManualOrder -> bool) (b : ManualBook) : option ManualOrder :=
  List.find p (mb_orders b).
Definition last_order (p : ManualOrder -> bool) (b : ManualBook) : option ManualOrder :=
  List.find p (rev (mb_orders b)).
Definition of_account (account : option Z) (o : ManualOrder) : bool :=
  match account with Some a => (mo_account_id o =? a)%Z | None => true end.
Definition get_by_id (id : Z) (account : option Z) (b : ManualBook) : option ManualOrder :=
  find_order (fun o => (mo_id o =? id)%Z && of_account account o) b.
Definition get_by_internal_id (id : string) (b : ManualBook) : option ManualOrder :=
  find_order (has_internal id) b.
Definition manual_by_idempotency_key (account : Z) (key : string) (b : ManualBook) : option ManualOrder :=
  find_order (has_key account key) b.
Definition get_by_broker_order_id (id : string) (account : option Z) (b : ManualBook) : option ManualOrder :=
  last_order (fun o => bool_decide (mo_broker_order_id o = Some id) && of_account account o) b.
Definition get_by_perm_id (perm : Z) (account : option Z) (b : ManualBook) : option ManualOrder :=
  last_order (fun o => bool_decide (mo_perm_id o = Some perm) && of_account account o) b.
Definition get_unresolved_orders (b : ManualBook) : list ManualOrder :=
  List.filter (fun o => bool_decide (mo_status o ∈ [MO_PENDING_SUBMIT; MO_SUBMITTED; MO_PARTIALLY_FILLED]))
    (mb_orders b).

(** What an update gives; a value that is not given stays. *)
Record OrderUpdate : Type := {
  up_status : ManualOrderStatus;
  up_broker_order_id : option string;
  up_perm_id : option Z;
  up_submitted_at : option Z;
  up_completed_at : option Z;
  up_reject_reason : option string
}.
Definition to_status (s : ManualOrderStatus) : OrderUpdate := {|
  up_status := s; up_broker_order_id := None; up_perm_id := None; up_submitted_at := None;
  up_completed_at := None; up_reject_reason := None |}.
Definition or_keep {A} (new old : option A) : option A :=
  match new with Some x => Some x | None => old end.
Definition updated_order (u : OrderUpdate) (o : ManualOrder) : ManualOrder := {|
  mo_id := mo_id o; mo_account_id := mo_account_id o; mo_ibkr_account := mo_ibkr_account o;
  mo_idempotency_key := mo_idempotency_key o; mo_internal_order_id := mo_internal_order_id o;
  mo_trade_id := mo_trade_id o;
  mo_broker_order_id := or_keep (up_broker_order_id u) (mo_broker_order_id o);
  mo_perm_id := or_keep (up_perm_id u) (mo_perm_id o); mo_con_id := mo_con_id o;
  mo_symbol := mo_symbol o; mo_sec_type := mo_sec_type o; mo_exchange := mo_exchange o;
  mo_currency := mo_currency o; mo_side := mo_side o; mo_quantity := mo_quantity o;
  mo_order_type := mo_order_type o; mo_limit_price := mo_limit_price o; mo_tif := mo_tif o;
  mo_status := up_status u; mo_source := mo_source o;
  mo_reject_reason := or_keep (up_reject_reason u) (mo_reject_reason o);
  mo_submitted_at := or_keep (up_submitted_at u) (mo_submitted_at o);
  mo_completed_at := or_keep (up_completed_at u) (mo_completed_at o) |}.
Definition with_source (source : string) (o : ManualOrder) : ManualOrder := {|
  mo_id := mo_id o; mo_account_id := mo_account_id o; mo_ibkr_account := mo_ibkr_account o;
  mo_idempotency_key := mo_idempotency_key o; mo_internal_order_id := mo_internal_order_id o;
  mo_trade_id := mo_trade_id o; mo_broker_order_id := mo_broker_order_id o;
  mo_perm_id := mo_perm_id o; mo_con_id := mo_con_id o;
  mo_symbol := mo_symbol o; mo_sec_type := mo_sec_type o; mo_exchange := mo_exchange o;
  mo_currency := mo_currency o; mo_side := mo_side o; mo_quantity := mo_quantity o;
  mo_order_type := mo_order_type o; mo_limit_price := mo_limit_price o; mo_tif := mo_tif o;
  mo_status := mo_status o; mo_source := source; mo_reject_reason := mo_reject_reason o;
  mo_submitted_at := mo_submitted_at o; mo_completed_at := mo_completed_at o |}.
Definition change_order (id : Z) (f : ManualOrder -> ManualOrder) (b : ManualBook) : ManualBook :=
  set_manual_orders (map (fun o => if (mo_id o =? id)%Z then f o else o) (mb_orders b)) b.
Definition update_order_status (id : Z) (u : OrderUpdate) (b : ManualBook) : ManualBook * option ManualOrder :=
  let b := change_order id (updated_order u) b in (b, get_by_id id None b).

(** ** Executions *)
Definition get_by_exec_id (exec_id : string) (b : ManualBook) : option ManualExecution :=
  List.find (fun e => String.eqb (me_exec_id e) exec_id) (mb_execs b).
Definition list_for_order (order : Z) (b : ManualBook) : list ManualExecution :=
  List.filter (fun e => (me_order_id e =? order)%Z) (mb_execs b).
(** The execution, and whether it is new. *)
Definition record_execution_with_dedup (e : ManualExecution) (b : ManualBook)
    : result (ManualBook * (ManualExecution * bool)) :=
  let! qty := numeric 4 (me_quantity e) in
  let! price := numeric 8 (me_price e) in
  let! commission := numeric_opt 8 (me_commission e) in
  match get_by_exec_id (me_exec_id e) b with
  | Some old => Ok (b, (old, false))
  | None =>
      let row := {| me_order_id := me_order_id e; me_exec_id := me_exec_id e;
                    me_broker_order_id := me_broker_order_id e; me_quantity := qty; me_price := price;
                    me_commission := commission; me_commission_currency := me_commission_currency e;
                    me_executed_at := me_executed_at e |} in
      Ok (set_manual_execs (mb_execs b ++ [row]) b, (row, true))
  end.
Definition commissioned (commission : Q) (currency : option string) (e : ManualExecution)
    : ManualExecution := {|
  me_order_id := me_order_id e; me_exec_id := me_exec_id e; me_broker_order_id := me_broker_order_id e;
  me_quantity := me_quantity e; me_price := me_price e; me_commission := Some commission;
  me_commission_currency := or_keep currency (me_commission_currency e);
  me_executed_at := me_executed_at e |}.
Definition update_commission (exec_id : string) (commission : Q) (currency : option string)
    (b : ManualBook) : result (ManualBook * (option ManualExecution * bool)) :=
  match get_by_exec_id exec_id b with
  | None => Ok (b, (None, false))
  | Some e =>
      if match me_commission e with Some c => negb (Qeq_bool c 0) | None => false end
      then Ok (b, (Some e, false))
      else
        let! c := numeric 8 commission in
        let e := commissioned c currency e in
        Ok (set_manual_execs (map (fun x => if String.eqb (me_exec_id x) exec_id then e else x) (mb_execs b)) b,
            (Some e, true))
  end.

(** ** Positions *)
Definition at_trade (account : Z) (trade : string) (p : ManualPosition) : bool :=
  (mp_account_id p =? account)%Z && String.eqb (mp_trade_id p) trade.
Definition position_of (account : Z) (trade : string) (b : ManualBook) : option ManualPosition :=
  List.find (at_trade account trade) (mb_positions b).
Definition list_open_for_account (account : Z) (b : ManualBook) : list ManualPosition :=
  List.filter (fun p => (mp_account_id p =? account)%Z && bool_decide (mp_status p = MAN_OPEN))
    (mb_positions b).
Definition list_all_for_account (account : Z) (b : ManualBook) : list ManualPosition :=
  List.filter (fun p => (mp_account_id p =? account)%Z) (mb_positions b).
Definition change_position (account : Z) (trade : string) (p : ManualPosition) (b : ManualBook) : ManualBook :=
  set_manual_positions (map (fun x => if at_trade account trade x then p else x) (mb_positions b)) b.
Definition moved_position (qty avg realized : Q) (status : ManualStatus) (closed_at : option Z) (p : ManualPosition)
    : ManualPosition := {|
  mp_id := mp_id p; mp_account_id := mp_account_id p; mp_trade_id := mp_trade_id p;
  mp_symbol := mp_symbol p; mp_con_id := mp_con_id p; mp_sec_type := mp_sec_type p;
  mp_currency := mp_currency p; mp_signed_qty := qty; mp_avg_cost := avg; mp_realized_pnl := realized;
  mp_status := status; mp_opened_at := mp_opened_at p; mp_closed_at := closed_at |}.
(** What a flush stores of a row. *)
Definition store_position (p : ManualPosition) : result ManualPosition :=
  let! q := numeric 4 (mp_signed_qty p) in
  let! a := numeric 8 (mp_avg_cost p) in
  let! r := numeric 8 (mp_realized_pnl p) in
  Ok (moved_position q a r (mp_status p) (mp_closed_at p) p).
Definition create_position (p : ManualPosition) (b : ManualBook) : result ManualBook :=
  let! p := store_position p in
  if existsb (at_trade (mp_account_id p) (mp_trade_id p)) (mb_positions b)
  then Raise (OtherError "IntegrityError")
  else Ok (next_manual_id (set_manual_positions (mb_positions b ++ [p]) b)).

(** A fill as [apply_execution] is given it. *)
Record Fill : Type := {
  fi_account_id : Z;
  fi_trade_id : string;
  fi_symbol : string;
  fi_con_id : Z;
  fi_sec_type : string;
  fi_currency : string;
  fi_side : string;
  fi_quantity : Q;
  fi_price : Q;
  fi_commission : Q
}.
Definition dneg (x : Q) : Q := dsub 0 x.
Definition signed_fill (f : Fill) : result Q :=
  let s := norm_text (fi_side f) in
  if bool_decide (s ∈ ["BOT"; "BUY"]) then Ok (fi_quantity f)
  else if bool_decide (s ∈ ["SLD"; "SELL"]) then Ok (dneg (fi_quantity f))
  else Raise (ValueError ("Invalid execution side: " ++ fi_side f)).
Definition opened_position (id now : Z) (d : Q) (f : Fill) : ManualPosition := {|
  mp_id := id; mp_account_id := fi_account_id f; mp_trade_id := fi_trade_id f;
  mp_symbol := norm_text (fi_symbol f); mp_con_id := fi_con_id f;
  mp_sec_type := norm_text (fi_sec_type f); mp_currency := norm_text (fi_currency f);
  mp_signed_qty := d; mp_avg_cost := fi_price f; mp_realized_pnl := dneg (fi_commission f);
  mp_status := MAN_OPEN; mp_opened_at := now; mp_closed_at := None |}.
Definition same_direction (q d : Q) : bool := (0 <? q) && (0 <? d) || (q <? 0) && (d <? 0).
(** Adding, and reducing, closing or flipping: the row and the change of the
    realised profit. *)
Definition extend_fill (d : Q) (f : Fill) (p : ManualPosition) : ManualPosition * Q :=
  let q := mp_signed_qty p in
  let new_qty := dadd q d in
  let new_avg := ddiv (dadd (dmul (dabs q) (mp_avg_cost p)) (dmul (fi_quantity f) (fi_price f)))
                   (dabs new_qty) in
  (moved_position new_qty new_avg (dsub (mp_realized_pnl p) (fi_commission f)) MAN_OPEN (mp_closed_at p) p,
   dneg (fi_commission f)).
Definition against_fill (now : Z) (d : Q) (f : Fill) (p : ManualPosition) : ManualPosition * Q :=
  let q := mp_signed_qty p in
  let avg := mp_avg_cost p in
  let abs_curr := dabs q in
  let close_qty := if fi_quantity f <? abs_curr then fi_quantity f else abs_curr in
  let gross := if 0 <? q then dmul close_qty (dsub (fi_price f) avg)
               else dmul close_qty (dsub avg (fi_price f)) in
  let delta := dsub gross (fi_commission f) in
  let realized := dadd (mp_realized_pnl p) delta in
  (if fi_quantity f <? abs_curr then moved_position (dadd q d) avg realized MAN_OPEN (mp_closed_at p) p
   else if Qeq_bool abs_curr (fi_quantity f) then moved_position 0 avg realized MAN_CLOSED (Some now) p
   else moved_position (dmul (if 0 <? d then 1 else -(1)) (dsub (fi_quantity f) abs_curr)) (fi_price f) realized
          MAN_OPEN None p,
   delta).
Definition apply_fill (now : Z) (d : Q) (f : Fill) (p : ManualPosition) : ManualPosition * Q :=
  if Qeq_bool (mp_signed_qty p) 0
  then (moved_position d (fi_price f) (dsub (mp_realized_pnl p) (fi_commission f)) MAN_OPEN None p,
        dneg (fi_commission f))
  else if same_direction (mp_signed_qty p) d then extend_fill d f p
  else against_fill now d f p.
Definition is_closed (p : ManualPosition) : bool :=
  bool_decide (mp_status p = MAN_CLOSED) && Qeq_bool (mp_signed_qty p) 0.
Definition REUSE_REJECTED : string := "MANUAL_POSITION_CLOSED_TRADE_ID_REUSE_REJECTED".
(** The row as the session holds it, and the change of the realised profit. *)
Definition apply_execution (now : Z) (f : Fill) (b : ManualBook)
    : ManualBook * result (ManualPosition * Q) :=
  match signed_fill f with
  | Raise e => (b, Raise e)
  | Ok d =>
      match position_of (fi_account_id f) (fi_trade_id f) b with
      | None =>
          let p := opened_position (mb_next b) now d f in
          match store_position p with
          | Ok p' => (next_manual_id (set_manual_positions (mb_positions b ++ [p']) b),
                      Ok (p, dneg (fi_commission f)))
          | Raise e => (b, Raise e)
          end
      | Some p =>
          if is_closed p then
            (record_event (fi_account_id f) REUSE_REJECTED (Some (fi_trade_id f)) b,
             Raise (ValueError ("trade_id '" ++ fi_trade_id f
                      ++ "' was previously CLOSED and must not be reused; submit a new trade_id")))
          else
            let p' := apply_fill now d f p in
            match store_position (fst p') with
            | Ok stored => (change_position (fi_account_id f) (fi_trade_id f) stored b, Ok p')
            | Raise e => (b, Raise e)
            end
      end
  end.

(** ** Facts *)
Lemma position_of_change account trade p q b :
  position_of account trade b = Some q -> at_trade account trade p = true ->
  position_of account trade (change_position account trade p b) = Some p.
Proof.
  unfold position_of, change_position; cbn [set_manual_positions mb_positions]. intros F P.
  induction (mb_positions b) as [|x l IH]; [done|]. simpl in *.
  destruct (at_trade account trade x) eqn:E; [by rewrite P|]. rewrite E. by apply IH.
Qed.
Lemma position_of_append account trade p l b :
  position_of account trade b = None -> at_trade account trade p = true -> mb_positions b = l ->
  position_of account trade (next_manual_id (set_manual_positions (l ++ [p]) b)) = Some p.
Proof.
  unfold position_of; cbn [next_manual_id set_manual_positions mb_positions]. intros F P <-.
  induction (mb_positions b) as [|x l IH]; simpl in *; [by rewrite P|].
  destruct (at_trade account trade x); [done|by apply IH].
Qed.
Lemma position_of_at account trade b p : position_of account trade b = Some p -> at_trade account trade p = true.
Proof. intros H. by apply List.find_some in H as [_ H]. Qed.
Lemma position_of_other account trade trade' p b :
  trade' <> trade -> at_trade account trade p = true ->
  position_of account trade' (change_position account trade p b) = position_of account trade' b.
Proof.
  intros N P. unfold position_of, change_position; cbn [set_manual_positions mb_positions].
  assert (X : forall q, at_trade account trade q = true -> at_trade account trade' q = false).
  { intros q [_ E%String.eqb_eq]%andb_true_iff. unfold at_trade. rewrite E.
    by rewrite (proj2 (String.eqb_neq trade trade')), andb_false_r by congruence. }
  induction (mb_positions b) as [|x l IH]; [done|]. simpl. destruct (at_trade account trade x) eqn:E.
  - by rewrite (X p P), (X x E).
  - by destruct (at_trade account trade' x).
Qed.
Lemma store_closed p p' : store_position p = Ok p' -> is_closed p = true -> is_closed p' = true.
Proof.
  unfold store_position, is_closed. intros (q & Hq & (a & _ & (r & _ & [= <-])%rbind_ok)%rbind_ok)%rbind_ok.
  cbn [moved_position mp_status mp_signed_qty]. intros [S E]%andb_true_iff. rewrite S. simpl.
  apply Qeq_bool_eq in E. apply Qeq_eq_bool. destruct (numeric_value _ _ _ Hq) as [V _].
  rewrite (round_half_up_int _ 0) in V by (rewrite E; unfold inject_Z; ring).
  pose proof (pw_pos 10 ten_ge_2 4). apply (Qmult_inj_r _ _ (pw 10 4)); [lra|]. rewrite V. unfold inject_Z. ring.
Qed.
Lemma store_at account trade p p' : store_position p = Ok p' -> at_trade account trade p' = at_trade account trade p.
Proof. unfold store_position. by intros (q & _ & (a & _ & (r & _ & [= <-])%rbind_ok)%rbind_ok)%rbind_ok. Qed.
