(* ===== verification/ManualLedgerFacts.v ===== *)
(** * The manual ledger keeps its books

    What a position has cost, its quantity at the average price less the
    realised profit, is what its fills have paid: each fill moves the two apart
    by no more than the columns' rounding. *)

From S2P Require Import Prelude Rounding PyText PyTime Identifiers RmsModels Accounts TradeBook Positions ManualLedger.

#[local] Open Scope Q_scope.
#[local] Open Scope py_scope.
#[local] Set Warnings "-clear-no-such-hyp".

(** ** Values of a fixed number of decimals *)
Definition grid (k : Z) (x : Q) : Prop := exists z, x * pw 10 k == inject_Z z.
#[global] Instance grid_proper k : Proper (Qeq ==> iff) (grid k).
Proof. intros x y E. unfold grid. by setoid_rewrite E. Qed.
Lemma grid_add k x y : grid k x -> grid k y -> grid k (x + y).
Proof. intros [a A] [b B]. exists (a + b)%Z. rewrite inject_Z_plus, <- A, <- B. ring. Qed.
Lemma grid_opp k x : grid k x -> grid k (- x).
Proof. intros [a A]. exists (- a)%Z. rewrite inject_Z_opp, <- A. ring. Qed.
Lemma grid_sub k x y : grid k x -> grid k y -> grid k (x - y).
Proof. intros H K. apply grid_add; [done|by apply grid_opp]. Qed.
Lemma grid_mul j k x y : grid j x -> grid k y -> grid (j + k) (x * y).
Proof.
  intros [a A] [b B]. exists (a * b)%Z. rewrite inject_Z_mult, <- A, <- B, (pw_plus 10 ten_ge_2). ring.
Qed.
Lemma grid_weaken j k x : (j <= k)%Z -> grid j x -> grid k x.
Proof.
  intros L [a A]. exists (a * 10 ^ (k - j))%Z.
  rewrite inject_Z_mult, <- A, <- (pw_nonneg_int 10) by lia.
  replace k with (j + (k - j))%Z at 1 by lia. rewrite (pw_plus 10 ten_ge_2). ring.
Qed.
Lemma grid_abs k x : grid k x -> grid k (Qabs x).
Proof.
  intros H. destruct (Qlt_le_dec x 0); [rewrite Qabs_neg by lra; by apply grid_opp|by rewrite Qabs_pos].
Qed.
Lemma grid_0 k : grid k 0. Proof. exists 0%Z. unfold inject_Z. ring. Qed.
Lemma grid_exact k x B : grid k x -> pw 10 (28 - k) == B -> - B <= x <= B -> ctx x == x.
Proof.
  intros [z Z] E [L U]. apply (rounds_exact (f := ctx)). exists z, (- k)%Z. split.
  - assert (H : Qabs (inject_Z z) <= inject_Z (10 ^ 28)).
    { rewrite <- (pw_nonneg_int 10) by lia. rewrite <- Z. replace 28%Z with ((28 - k) + k)%Z by lia.
      rewrite (pw_plus 10 ten_ge_2), E. pose proof (pw_pos 10 ten_ge_2 k).
      apply Qabs_Qle_condition. split; nra. }
    apply Qabs_Qle_condition in H as [H1 H2].
    rewrite <- inject_Z_opp in H1. rewrite <- Zle_Qle in H1, H2. lia.
  - rewrite <- Z, <- Qmult_assoc, <- (pw_plus 10 ten_ge_2), Z.add_opp_diag_r.
    change (pw 10 0) with 1. ring.
Qed.

(** *** What the columns do *)
Lemma half_up_err (q : Q) : Qabs (inject_Z (round_half_up q) - q) <= 1 # 2.
Proof.
  unfold round_half_up. apply Qabs_Qle_condition. destruct (0 <=? q) eqn:E.
  - destruct (Qfloor_bounds (q + (1 # 2))). split; lra.
  - rewrite inject_Z_opp. destruct (Qfloor_bounds (- q + (1 # 2))). split; lra.
Qed.
Lemma numeric_near (s : Z) (q x : Q) :
  numeric s q = Ok x -> Qabs (x - q) <= (1 # 2) * pw 10 (- s) /\ grid s x.
Proof.
  intros H. destruct (numeric_value s q x H) as [E _]. split; [|by exists (round_half_up (q * pw 10 s))].
  pose proof (half_up_err (q * pw 10 s)) as Hd. rewrite <- E in Hd.
  pose proof (pw_pos 10 ten_ge_2 s). pose proof (pw_pos 10 ten_ge_2 (- s)).
  pose proof (pw_opp_l 10 ten_ge_2 s) as I. apply Qabs_Qle_condition in Hd as [L1 L2].
  apply Qabs_Qle_condition.
  assert (E' : x - q == (x * pw 10 s - q * pw 10 s) * pw 10 (- s)).
  { transitivity ((x - q) * (pw 10 (- s) * pw 10 s)); [rewrite I; ring|ring]. }
  rewrite E'. split; nra.
Qed.
Lemma numeric_grid (s : Z) (q x : Q) : numeric s q = Ok x -> grid s q -> x == q.
Proof.
  intros H [z Z]. destruct (numeric_value s q x H) as [E _]. rewrite (round_half_up_int _ _ Z), <- Z in E.
  pose proof (pw_pos 10 ten_ge_2 s). by apply Qmult_inj_r in E; [|lra].
Qed.
Lemma numeric_range (s : Z) (q x : Q) : numeric s q = Ok x -> Qabs x <= pw 10 (18 - s).
Proof.
  intros H. destruct (numeric_value s q x H) as [E _]. unfold numeric in H.
  destruct (_ <? _)%Z eqn:L; [|done]. apply Z.ltb_lt in L. clear H.
  assert (B : Qabs (inject_Z (round_half_up (q * pw 10 s))) <= inject_Z (10 ^ 18)).
  { apply Qabs_Qle_condition. rewrite <- inject_Z_opp, <- !Zle_Qle. lia. }
  rewrite <- E in B. pose proof (pw_pos 10 ten_ge_2 s). pose proof (pw_pos 10 ten_ge_2 (18 - s)).
  rewrite <- (pw_nonneg_int 10) in B by lia. replace 18%Z with ((18 - s) + s)%Z in B by lia.
  rewrite (pw_plus 10 ten_ge_2) in B. rewrite Qabs_Qmult, (Qabs_pos (pw 10 s)) in B by lra. nra.
Qed.
Lemma ctx_grid4 x : grid 4 x -> - 10000000000 <= x <= 10000000000 -> ctx x == x.
Proof. intros G H. apply (grid_exact 4 x 1000000000000000000000000 G); [reflexivity|lra]. Qed.
Lemma ctx_grid8 x : grid 8 x -> - 20000000000 <= x <= 20000000000 -> ctx x == x.
Proof. intros G H. apply (grid_exact 8 x 100000000000000000000 G); [reflexivity|lra]. Qed.
Lemma ctx_grid12 x : grid 12 x -> - 10000000000000000 <= x <= 10000000000000000 -> ctx x == x.
Proof. intros G H. apply (grid_exact 12 x 10000000000000000 G); [reflexivity|lra]. Qed.

(** ** Fills and rows of an ordinary size *)
(** Up to a thousand million shares at up to a million each. *)
Definition MAX_QTY : Q := 1000000000.
Definition MAX_PRICE : Q := 1000000.
Record sane_fill (f : Fill) (d : Q) : Prop := {
  sf_side : d == fi_quantity f \/ d == - fi_quantity f;
  sf_qty : 0 < fi_quantity f <= MAX_QTY;
  sf_qty_grid : grid 4 (fi_quantity f);
  sf_price : 0 <= fi_price f <= MAX_PRICE;
  sf_price_grid : grid 8 (fi_price f);
  sf_commission : - MAX_PRICE <= fi_commission f <= MAX_PRICE;
  sf_commission_grid : grid 8 (fi_commission f)
}.
Record booked (V : Q) (p : ManualPosition) : Prop := {
  bo_qty : - V <= mp_signed_qty p <= V;
  bo_qty_grid : grid 4 (mp_signed_qty p);
  bo_avg : 0 <= mp_avg_cost p <= MAX_PRICE;
  bo_avg_grid : grid 8 (mp_avg_cost p);
  bo_realized : - 10000000000 <= mp_realized_pnl p <= 10000000000;
  bo_realized_grid : grid 8 (mp_realized_pnl p)
}.
(** What a position has cost. *)
Definition cost (p : ManualPosition) : Q := mp_signed_qty p * mp_avg_cost p - mp_realized_pnl p.
(** What a fill pays. *)
Definition paid (f : Fill) (d : Q) : Q := d * fi_price f + fi_commission f.
(** A row in the session is near what a flush stores. *)
Definition UNIT : Q := 1 # 100000000.
Lemma store_near p p' :
  store_position p = Ok p' -> grid 4 (mp_signed_qty p) ->
  mp_signed_qty p' == mp_signed_qty p
  /\ Qabs (mp_avg_cost p' - mp_avg_cost p) <= (1 # 2) * UNIT /\ grid 8 (mp_avg_cost p')
  /\ Qabs (mp_realized_pnl p' - mp_realized_pnl p) <= (1 # 2) * UNIT /\ grid 8 (mp_realized_pnl p')
  /\ - 10000000000 <= mp_realized_pnl p' <= 10000000000
  /\ mp_status p' = mp_status p.
Proof.
  unfold store_position. intros (q & Hq & (a & Ha & (r & Hr & [= <-])%rbind_ok)%rbind_ok)%rbind_ok G. simpl.
  apply numeric_near in Ha as [A GA]. pose proof (numeric_range _ _ _ Hr) as R. apply numeric_near in Hr as [Hr GR].
  change (pw 10 (-8)) with UNIT in A, Hr. change (pw 10 (18 - 8)) with 10000000000 in R.
  apply Qabs_Qle_condition in R. split_and!; [by apply (numeric_grid 4)|done..|lra|lra|done].
Qed.

(** *** One fill *)
Lemma dabs_grid4 x : grid 4 x -> - 10000000000 <= x <= 10000000000 -> dabs x == Qabs x.
Proof.
  intros G H. apply ctx_grid4; [by apply grid_abs|]. pose proof (Qabs_nonneg x).
  split; [lra|]. apply Qabs_Qle_condition. lra.
Qed.
Lemma dmul_exact x y :
  grid 4 x -> grid 8 y -> - (2 * MAX_QTY) <= x <= 2 * MAX_QTY -> - MAX_PRICE <= y <= MAX_PRICE ->
  dmul x y == x * y.
Proof.
  unfold MAX_QTY, MAX_PRICE. intros G K Hx Hy. apply ctx_grid12; [by apply (grid_mul 4 8)|]. split; nra.
Qed.
Lemma dneg_grid8 x : grid 8 x -> - MAX_PRICE <= x <= MAX_PRICE -> dneg x == - x.
Proof.
  unfold MAX_PRICE. intros G H. unfold dneg, dsub. rewrite ctx_grid8; [ring| |lra].
  apply grid_sub; [apply grid_0|done].
Qed.
Lemma sane_signed f d : sane_fill f d -> grid 4 d /\ - MAX_QTY <= d <= MAX_QTY /\ Qabs d == fi_quantity f.
Proof.
  intros [[S|S] Q G _ _ _ _]; rewrite S; split_and!; try lra; [done|by rewrite Qabs_pos by lra|by apply grid_opp|].
  rewrite Qabs_opp, Qabs_pos; lra.
Qed.
(** After a fill and before the flush. *)
Record moved_by (f : Fill) (d : Q) (e : Q) (p p' : ManualPosition) : Prop := {
  mv_qty_grid : grid 4 (mp_signed_qty p');
  mv_qty : Qabs (mp_signed_qty p') <= Qabs (mp_signed_qty p) + fi_quantity f;
  mv_avg : 0 <= mp_avg_cost p' <= MAX_PRICE;
  mv_cost : Qabs (cost p' - (cost p + paid f d)) <= e * Qabs (mp_signed_qty p')
}.
Section OneFill.
Context (V : Q) (p : ManualPosition) (f : Fill) (d : Q).
Hypothesis (HV : V <= MAX_QTY) (B : booked V p) (S : sane_fill f d).

Lemma sum_exact : dadd (mp_signed_qty p) d == mp_signed_qty p + d /\ grid 4 (mp_signed_qty p + d).
Proof.
  destruct (sane_signed f d S) as (Gd & Hd & _). destruct B as [Q G _ _ _ _]. unfold MAX_QTY in *.
  assert (grid 4 (mp_signed_qty p + d)) by by apply grid_add. split; [|done]. apply ctx_grid4; [done|lra].
Qed.
Lemma realized_less_commission :
  dsub (mp_realized_pnl p) (fi_commission f) == mp_realized_pnl p - fi_commission f.
Proof.
  destruct B as [_ _ _ _ R GR], S as [_ _ _ _ _ C GC]. unfold MAX_PRICE in *.
  apply ctx_grid8; [by apply grid_sub|lra].
Qed.
Lemma same_direction_spec :
  same_direction (mp_signed_qty p) d = true ->
  (0 < mp_signed_qty p /\ d == fi_quantity f) \/ (mp_signed_qty p < 0 /\ d == - fi_quantity f).
Proof.
  unfold same_direction. intros H. destruct S as [Sd Q _ _ _ _ _].
  apply orb_true_iff in H as [[H1 H2]%andb_true_iff|[H1 H2]%andb_true_iff]; bool_to_prop;
    destruct Sd as [E|E]; rewrite E in H2; [left|lra|lra|right]; split; lra || exact E.
Qed.
(** The average of an addition. *)
Lemma average_near :
  let N := Qabs (mp_signed_qty p) * mp_avg_cost p + fi_quantity f * fi_price f in
  let y := Qabs (mp_signed_qty p) + fi_quantity f in
  ddiv (dadd (dmul (dabs (mp_signed_qty p)) (mp_avg_cost p)) (dmul (fi_quantity f) (fi_price f))) y == ddiv N y
  /\ 0 <= ddiv N y <= MAX_PRICE /\ Qabs (ddiv N y * y - N) <= (1 # 100000000000000000000) * y.
Proof.
  intros N y.
  destruct B as [Q G [A1 A2] GA _ _], S as [_ [n1 n2] Gn [P1 P2] GP _ _]. unfold MAX_QTY, MAX_PRICE in *.
  assert (HQ : 0 <= Qabs (mp_signed_qty p) <= 1000000000)
    by (split; [apply Qabs_nonneg|apply Qabs_Qle_condition; lra]).
  set (a := Qabs (mp_signed_qty p)) in *.
  assert (Hy : 0 < y) by (unfold y; lra).
  assert (HN : 0 <= N <= 1000000 * y) by (unfold N, y; split; nra).
  assert (GN : grid 12 N).
  { apply grid_add; (apply (grid_mul 4 8); [|done]); [by apply grid_abs|done]. }
  assert (HD : 0 <= N / y <= 1000000) by (split; [apply Qle_shift_div_l|apply Qle_shift_div_r]; lra).
  split_and!.
  - apply ddiv_proper; [|reflexivity]. rewrite dabs_grid4 by (done || lra). fold a.
    rewrite !dmul_exact; unfold MAX_QTY, MAX_PRICE; try (done || lra); [|by apply grid_abs].
    apply ctx_grid12; [done|]. unfold y in HN. fold N. lra.
  - apply ctx_nonneg. lra.
  - apply (rounds_le (f := ctx)); [|lra]. apply (representable_int 10 28 1000000). lia.
  - destruct (ddiv_bounds N y ltac:(lra) Hy) as [L U]. unfold dec_u in *. apply Qabs_Qle_condition. split; lra.
Qed.
Lemma extend_moves :
  same_direction (mp_signed_qty p) d = true ->
  moved_by f d (1 # 100000000000000000000) p (fst (extend_fill d f p)).
Proof.
  intros Dir%same_direction_spec. destruct sum_exact as [Es Gs], average_near as (Ea & Ha & Na).
  pose proof realized_less_commission as Er. pose proof (sf_qty f d S) as Hn.
  set (y := Qabs (mp_signed_qty p) + fi_quantity f) in *.
  assert (Ey : Qabs (mp_signed_qty p + d) == y).
  { unfold y. destruct Dir as [[H1 E]|[H1 E]]; rewrite E.
    - rewrite !Qabs_pos by lra. reflexivity.
    - rewrite !Qabs_neg by lra. ring. }
  assert (Ed : dabs (dadd (mp_signed_qty p) d) == y).
  { rewrite Es, dabs_grid4; [done|done|]. pose proof (bo_qty V p B) as Q.
    destruct (sane_signed f d S) as (_ & Hd & _). unfold MAX_QTY in *. lra. }
  split; unfold extend_fill; cbn [fst moved_position mp_signed_qty mp_avg_cost].
  - by rewrite Es.
  - rewrite Es, Ey. unfold y. lra.
  - by rewrite Ed, Ea.
  - unfold cost, paid; cbn [moved_position mp_signed_qty mp_avg_cost mp_realized_pnl].
    rewrite Ed, Ea, Er, Es, Ey. apply Qabs_Qle_condition in Na as [L U]. unfold y in *.
    apply Qabs_Qle_condition. destruct Dir as [[H1 E]|[H1 E]]; rewrite E in *.
    + rewrite !(Qabs_pos (mp_signed_qty p)) in * by lra. split; lra.
    + rewrite !(Qabs_neg (mp_signed_qty p)) in * by lra. split; lra.
Qed.
Lemma opposite_spec :
  ~ mp_signed_qty p == 0 -> same_direction (mp_signed_qty p) d = false ->
  (0 < mp_signed_qty p /\ d == - fi_quantity f) \/ (mp_signed_qty p < 0 /\ d == fi_quantity f).
Proof.
  intros N H. apply orb_false_iff in H as [H1 H2]. destruct S as [Sd Q _ _ _ _ _].
  apply andb_false_iff in H1 as [H1|H1], H2 as [H2|H2]; bool_to_prop; destruct Sd as [E|E];
    rewrite ?E in *; try lra; try (right; split; lra || exact E); left; split; lra || exact E.
Qed.
(** The profit of what is closed, exactly. *)
Lemma profit_exact (a b x : Q) :
  grid 4 x -> 0 <= x <= MAX_QTY -> grid 8 a -> grid 8 b -> 0 <= a <= MAX_PRICE -> 0 <= b <= MAX_PRICE ->
  dadd (mp_realized_pnl p) (dsub (dmul x (dsub a b)) (fi_commission f))
  == mp_realized_pnl p + (x * (a - b) - fi_commission f).
Proof.
  intros Gx Hx Ga Gb Ha Hb. destruct B as [_ _ _ _ R GR], S as [_ _ _ _ _ C GC]. unfold MAX_QTY, MAX_PRICE in *.
  assert (E1 : dsub a b == a - b) by (apply ctx_grid8; [by apply grid_sub|lra]).
  assert (E2 : dmul x (a - b) == x * (a - b))
    by (apply dmul_exact; unfold MAX_QTY, MAX_PRICE; [done|by apply grid_sub|lra|lra]).
  assert (G : grid 12 (x * (a - b))) by (apply (grid_mul 4 8); [done|by apply grid_sub]).
  assert (Bd : -1000000000000000 <= x * (a - b) <= 1000000000000000) by (split; nra).
  assert (G3 : grid 12 (x * (a - b) - fi_commission f)) by (apply grid_sub; [done|by apply (grid_weaken 8); [lia|]]).
  rewrite E1, E2. unfold dsub. rewrite (ctx_grid12 _ G3) by lra.
  apply ctx_grid12; [|lra]. apply grid_add; [by apply (grid_weaken 8); [lia|]|done].
Qed.
Lemma against_profit now :
  0 < Qabs (mp_signed_qty p) ->
  let x := if fi_quantity f <? Qabs (mp_signed_qty p) then fi_quantity f else Qabs (mp_signed_qty p) in
  mp_realized_pnl (fst (against_fill now d f p))
  == mp_realized_pnl p
     + (x * (if 0 <? mp_signed_qty p then fi_price f - mp_avg_cost p else mp_avg_cost p - fi_price f)
        - fi_commission f).
Proof.
  intros P x. pose proof (sf_qty f d S) as Hn. pose proof (sf_qty_grid f d S) as Gn.
  destruct B as [Q G A GA _ _]. pose proof (sf_price f d S) as HP. pose proof (sf_price_grid f d S) as GP.
  unfold MAX_QTY in *. assert (Ea : dabs (mp_signed_qty p) == Qabs (mp_signed_qty p)) by (apply dabs_grid4; [done|lra]).
  assert (HQ : Qabs (mp_signed_qty p) <= 1000000000) by (apply Qabs_Qle_condition; lra).
  unfold against_fill; cbv zeta.
  transitivity (dadd (mp_realized_pnl p) (dsub (if 0 <? mp_signed_qty p then dmul x (dsub (fi_price f) (mp_avg_cost p))
    else dmul x (dsub (mp_avg_cost p) (fi_price f))) (fi_commission f))).
  - cbn [fst]. repeat case_match; cbn [moved_position mp_realized_pnl]; unfold x; try reflexivity;
      bool_to_prop; rewrite Ea in *; repeat case_match; bool_to_prop; try lra; by rewrite ?Ea.
  - assert (grid 4 x /\ 0 <= x <= 1000000000) as [Gx Hx]
      by (unfold x; case_match; bool_to_prop; split; try done; try lra; by apply grid_abs).
    destruct (0 <? mp_signed_qty p); by apply profit_exact.
Qed.
(** What is left, and at which average. *)
Lemma against_rest now :
  0 < Qabs (mp_signed_qty p) ->
  (0 < mp_signed_qty p /\ d == - fi_quantity f) \/ (mp_signed_qty p < 0 /\ d == fi_quantity f) ->
  let p' := fst (against_fill now d f p) in
  mp_signed_qty p' == mp_signed_qty p + d /\ grid 4 (mp_signed_qty p')
  /\ (mp_avg_cost p' = mp_avg_cost p /\ fi_quantity f <= Qabs (mp_signed_qty p)
      \/ mp_avg_cost p' = fi_price f /\ Qabs (mp_signed_qty p) <= fi_quantity f).
Proof.
  intros P Dir p'. destruct sum_exact as [Es Gs]. pose proof (sf_qty f d S) as Hn.
  pose proof (sf_qty_grid f d S) as Gn. destruct B as [Q G _ _ _ _]. unfold MAX_QTY in *.
  assert (Ea : dabs (mp_signed_qty p) == Qabs (mp_signed_qty p)) by (apply dabs_grid4; [done|lra]).
  assert (HQ : Qabs (mp_signed_qty p) <= 1000000000) by (apply Qabs_Qle_condition; lra).
  unfold p', against_fill; cbn [fst].
  destruct (fi_quantity f <? dabs (mp_signed_qty p)) eqn:L; bool_to_prop; rewrite Ea in L;
    [|destruct (Qeq_bool _ _) eqn:E; [apply Qeq_bool_eq in E|]]; cbn [moved_position mp_signed_qty mp_avg_cost].
  - split_and!; [done|by rewrite Es|left; split; [done|lra]].
  - rewrite Ea in E. split_and!; [|apply grid_0|left; split; [done|lra]].
    destruct Dir as [[H1 E1]|[H1 E1]]; rewrite E1, <- E; [rewrite Qabs_pos|rewrite Qabs_neg]; lra.
  - assert (Ef : dsub (fi_quantity f) (dabs (mp_signed_qty p)) == fi_quantity f - Qabs (mp_signed_qty p)).
    { rewrite Ea. apply ctx_grid4; [apply grid_sub; [done|by apply grid_abs]|lra]. }
    assert (Gf : grid 4 (fi_quantity f - Qabs (mp_signed_qty p))) by (apply grid_sub; [done|by apply grid_abs]).
    destruct Dir as [[H1 E1]|[H1 E1]].
    + assert ((0 <? d) = false) as -> by (destruct (0 <? d) eqn:X; bool_to_prop; lra).
      assert (Em : dmul (- (1)) (dsub (fi_quantity f) (dabs (mp_signed_qty p))) == mp_signed_qty p + d).
      { rewrite Ef. unfold dmul. rewrite Qabs_pos in * by lra.
        rewrite ctx_grid4; [rewrite E1; ring| |lra].
        assert (X : (- (1)) * (fi_quantity f - mp_signed_qty p) == - (fi_quantity f - mp_signed_qty p)) by ring.
        rewrite X. by apply grid_opp. }
      split_and!; [done|by rewrite Em|right; split; [done|lra]].
    + assert ((0 <? d) = true) as -> by (destruct (0 <? d) eqn:X; bool_to_prop; lra).
      assert (Em : dmul 1 (dsub (fi_quantity f) (dabs (mp_signed_qty p))) == mp_signed_qty p + d).
      { rewrite Ef. unfold dmul. rewrite Qmult_1_l, ctx_grid4 by (done || lra).
        rewrite E1, Qabs_neg by lra. ring. }
      split_and!; [done|by rewrite Em|right; split; [done|lra]].
Qed.
Lemma against_moves now :
  ~ mp_signed_qty p == 0 -> same_direction (mp_signed_qty p) d = false ->
  moved_by f d 0 p (fst (against_fill now d f p)).
Proof.
  intros N Dir%opposite_spec; [|done].
  assert (P : 0 < Qabs (mp_signed_qty p))
    by (destruct Dir as [[H _]|[H _]]; [rewrite Qabs_pos|rewrite Qabs_neg]; lra).
  pose proof (against_profit now P) as Ep. destruct (against_rest now P Dir) as (Eq & Gq & Avg).
  pose proof (sf_qty f d S) as Hn. pose proof (sf_price f d S) as HP. pose proof (bo_avg V p B) as HA.
  cbv zeta in Ep. set (p' := fst (against_fill now d f p)) in *. split; [done| | |].
  - rewrite Eq. destruct (sane_signed f d S) as (_ & _ & Ed). rewrite <- Ed. apply Qabs_triangle.
  - destruct Avg as [[-> _]|[-> _]]; done.
  - unfold cost, paid. rewrite Eq, Ep, Qmult_0_l. apply Qabs_Qle_condition.
    assert (Z : forall x, x == 0 -> - 0 <= x <= 0) by (intros x ->; lra). apply Z. clear Z.
    destruct Dir as [[H1 E1]|[H1 E1]].
    + assert ((0 <? mp_signed_qty p) = true) as -> by (destruct (0 <? _) eqn:X; bool_to_prop; lra).
      rewrite Qabs_pos in * by lra. rewrite E1. destruct Avg as [[-> L]|[-> L]]; case_match; bool_to_prop;
        rewrite ?Qabs_pos by lra; [ring| |lra|ring].
      assert (E : fi_quantity f == mp_signed_qty p) by lra. rewrite E. ring.
    + assert ((0 <? mp_signed_qty p) = false) as -> by (destruct (0 <? _) eqn:X; bool_to_prop; lra).
      rewrite Qabs_neg in * by lra. rewrite E1. destruct Avg as [[-> L]|[-> L]]; case_match; bool_to_prop;
        rewrite ?Qabs_neg by lra; [ring| |lra|ring].
      assert (E : fi_quantity f == - mp_signed_qty p) by lra. rewrite E. ring.
Qed.
End OneFill.

Lemma apply_fill_moves V now d f p :
  V <= MAX_QTY -> booked V p -> sane_fill f d ->
  moved_by f d (1 # 100000000000000000000) p (fst (apply_fill now d f p)).
Proof.
  intros HV B S. unfold apply_fill. destruct (Qeq_bool (mp_signed_qty p) 0) eqn:E.
  - apply Qeq_bool_eq in E. destruct (sane_signed f d S) as (Gd & _ & Ed).
    split; cbn [fst moved_position mp_signed_qty mp_avg_cost];
      [done|rewrite E, Ed; change (Qabs 0) with 0; lra|apply (sf_price f d S)|].
    unfold cost, paid; cbn [moved_position mp_signed_qty mp_avg_cost mp_realized_pnl].
    rewrite (realized_less_commission V p f d B S), Ed, E. pose proof (sf_qty f d S).
    apply Qabs_Qle_condition. split; lra.
  - assert (N : ~ mp_signed_qty p == 0) by (intros X; apply Qeq_eq_bool in X; congruence).
    destruct (same_direction (mp_signed_qty p) d) eqn:D; [by apply (extend_moves V)|].
    destruct (against_moves V p f d HV B S now N D) as [M1 M2 M3 M4]. split; [done..|].
    pose proof (Qabs_nonneg (mp_signed_qty (fst (against_fill now d f p)))). lra.
Qed.
Lemma store_avg p p' : store_position p = Ok p' -> 0 <= mp_avg_cost p <= MAX_PRICE -> 0 <= mp_avg_cost p' <= MAX_PRICE.
Proof.
  unfold store_position. intros (q & _ & (a & Ha & (r & _ & [= <-])%rbind_ok)%rbind_ok)%rbind_ok [L U].
  cbn [moved_position mp_avg_cost]. split.
  - apply (numeric_mono 8 0 (mp_avg_cost p) 0 a L); [by vm_compute|done].
  - apply (numeric_mono 8 (mp_avg_cost p) MAX_PRICE a MAX_PRICE U); [done|by vm_compute].
Qed.
(** A flush adds half a unit for the profit and for each share. *)
Lemma store_cost p p' :
  store_position p = Ok p' -> grid 4 (mp_signed_qty p) ->
  Qabs (cost p' - cost p) <= (1 # 2) * UNIT * (1 + Qabs (mp_signed_qty p)).
Proof.
  intros St G. destruct (store_near p p' St G) as (Eq & Ha & _ & Hr & _). unfold cost. rewrite Eq.
  assert (E : mp_signed_qty p * mp_avg_cost p' - mp_realized_pnl p' - (mp_signed_qty p * mp_avg_cost p - mp_realized_pnl p)
    == mp_signed_qty p * (mp_avg_cost p' - mp_avg_cost p) + - (mp_realized_pnl p' - mp_realized_pnl p)) by ring.
  rewrite E. eapply Qle_trans; [apply Qabs_triangle|]. rewrite Qabs_opp, Qabs_Qmult.
  pose proof (Qabs_nonneg (mp_signed_qty p)). nra.
Qed.
Lemma Qabs_chain x y z a b : Qabs (x - y) <= a -> Qabs (y - z) <= b -> Qabs (x - z) <= a + b.
Proof.
  intros H K. apply Qabs_Qle_condition in H, K. apply Qabs_Qle_condition. lra.
Qed.
(** A stored row, one fill later. *)
Lemma fill_booked V now d f p p' :
  V + fi_quantity f <= MAX_QTY -> booked V p -> sane_fill f d ->
  store_position (fst (apply_fill now d f p)) = Ok p' ->
  booked (V + fi_quantity f) p' /\ Qabs (cost p' - (cost p + paid f d)) <= UNIT * (1 + (V + fi_quantity f)).
Proof.
  intros HV B S St. pose proof (sf_qty f d S) as Hn. pose proof (bo_qty V p B) as HQ.
  assert (HQ' : Qabs (mp_signed_qty p) <= V) by (by apply Qabs_Qle_condition).
  destruct (apply_fill_moves V now d f p ltac:(lra) B S) as [G Q A C].
  destruct (store_near _ _ St G) as (Eq & _ & Ga & _ & Gr & R & _). pose proof (store_avg _ _ St A) as A'.
  pose proof (store_cost _ _ St G) as K. split.
  - assert (H : Qabs (mp_signed_qty (fst (apply_fill now d f p))) <= V + fi_quantity f) by lra.
    apply Qabs_Qle_condition in H. split; try done; by rewrite Eq.
  - eapply Qle_trans; [exact (Qabs_chain _ _ _ _ _ K C)|].
    pose proof (Qabs_nonneg (mp_signed_qty (fst (apply_fill now d f p)))). unfold UNIT. lra.
Qed.
Lemma opened_booked id now d f p' :
  sane_fill f d -> store_position (opened_position id now d f) = Ok p' ->
  booked (fi_quantity f) p' /\ Qabs (cost p' - paid f d) <= UNIT * (1 + fi_quantity f).
Proof.
  intros S St. destruct (sane_signed f d S) as (Gd & Hd & Ed). pose proof (sf_price f d S) as A.
  destruct (store_near _ _ St Gd) as (Eq & _ & Ga & _ & Gr & R & _).
  pose proof (store_avg _ _ St A) as A'. pose proof (store_cost _ _ St Gd) as K.
  cbn [opened_position mp_signed_qty] in Eq, K. rewrite Ed in K. pose proof (sf_qty f d S). split.
  - split; try done; rewrite Eq; [|done]. apply Qabs_Qle_condition. rewrite Ed. lra.
  - assert (E : cost (opened_position id now d f) == paid f d).
    { unfold cost, paid; cbn [opened_position mp_signed_qty mp_avg_cost mp_realized_pnl].
      rewrite dneg_grid8; [ring| |]; apply S. }
    rewrite E in K. unfold UNIT in *. lra.
Qed.

(** ** The fills of a trade *)
(** Fills one after the other, each of them accepted. *)
Fixpoint apply_all (l : list (Z * Fill)) (b : ManualBook) : result ManualBook :=
  match l with
  | [] => Ok b
  | (now, f) :: l =>
      match apply_execution now f b with
      | (b, Ok _) => apply_all l b
      | (_, Raise e) => Raise e
      end
  end.
(** A fill of an ordinary size for a trade. *)
Record ordinary (account : Z) (trade : string) (f : Fill) : Prop := {
  or_account : fi_account_id f = account;
  or_trade : fi_trade_id f = trade;
  or_qty : 0 < fi_quantity f;
  or_qty_grid : grid 4 (fi_quantity f);
  or_price : 0 <= fi_price f <= MAX_PRICE;
  or_price_grid : grid 8 (fi_price f);
  or_commission : - MAX_PRICE <= fi_commission f <= MAX_PRICE;
  or_commission_grid : grid 8 (fi_commission f)
}.
Definition total_qty (l : list (Z * Fill)) : Q := fold_right (fun x a => fi_quantity (snd x) + a) 0 l.
Definition fill_paid (f : Fill) : Q := match signed_fill f with Ok d => paid f d | Raise _ => 0 end.
Definition total_paid (l : list (Z * Fill)) : Q := fold_right (fun x a => fill_paid (snd x) + a) 0 l.

Lemma ordinary_sane account trade f d :
  ordinary account trade f -> fi_quantity f <= MAX_QTY -> signed_fill f = Ok d -> sane_fill f d.
Proof.
  intros [_ _ Q G P GP C GC] L H. split; try done.
  unfold signed_fill in H. repeat case_match; try done; injection H as <-; [by left|right].
  unfold dneg, dsub. unfold MAX_QTY in L. rewrite ctx_grid4; [ring| |lra]. apply grid_sub; [apply grid_0|done].
Qed.
(** The row of a trade after one more accepted fill. *)
Lemma apply_booked account trade now f b b' r :
  ordinary account trade f -> apply_execution now f b = (b', Ok r) ->
  exists d, signed_fill f = Ok d /\
  match position_of account trade b with
  | None => exists p', position_of account trade b' = Some p'
                       /\ store_position (opened_position (mb_next b) now d f) = Ok p'
  | Some p => exists p', position_of account trade b' = Some p'
                         /\ store_position (fst (apply_fill now d f p)) = Ok p'
  end.
Proof.
  intros O H. unfold apply_execution in H. rewrite (or_account _ _ _ O), (or_trade _ _ _ O) in H.
  destruct (signed_fill f) as [d|]; [|done]. exists d. split; [done|].
  destruct (position_of account trade b) as [p|] eqn:F.
  - destruct (is_closed p); [done|]. destruct (store_position _) as [p'|] eqn:St; [|done].
    injection H as <- _. exists p'. split; [|done]. eapply position_of_change; [done|].
    apply position_of_at in F. unfold store_position in St.
    apply rbind_ok in St as (? & _ & (? & _ & (? & _ & [= <-])%rbind_ok)%rbind_ok).
    unfold at_trade in *. cbn [moved_position mp_account_id mp_trade_id].
    unfold apply_fill, extend_fill, against_fill. repeat case_match; done.
  - destruct (store_position _) as [p'|] eqn:St; [|done]. injection H as <- _. exists p'. split; [|done].
    apply position_of_append; [done| |done]. unfold store_position in St.
    apply rbind_ok in St as (? & _ & (? & _ & (? & _ & [= <-])%rbind_ok)%rbind_ok).
    unfold at_trade. cbn [moved_position opened_position mp_account_id mp_trade_id].
    by rewrite (or_account _ _ _ O), (or_trade _ _ _ O), Z.eqb_refl, String.eqb_refl.
Qed.
Lemma total_qty_nonneg account trade l : Forall (fun x => ordinary account trade (snd x)) l -> 0 <= total_qty l.
Proof. induction 1 as [|x l O _ IH]; simpl; [lra|]. pose proof (or_qty _ _ _ O). lra. Qed.
Lemma apply_all_cons now f l b b' :
  apply_all ((now, f) :: l) b = Ok b' -> exists b1 r, apply_execution now f b = (b1, Ok r) /\ apply_all l b1 = Ok b'.
Proof. simpl. destruct (apply_execution now f b) as [b1 [r|e]]; [eauto|done]. Qed.
(** The drift of each fill is bounded by what the final row can hold. *)
Definition drift (n : nat) (v : Q) : Q := inject_Z (Z.of_nat n) * (UNIT * (1 + v)).
Lemma drift_S n v : drift (S n) v == drift n v + UNIT * (1 + v).
Proof. unfold drift. rewrite Nat2Z.inj_succ, <- Z.add_1_r, inject_Z_plus. change (inject_Z 1) with 1. ring. Qed.
Lemma Qeq_le x y : x == y -> x <= y.
Proof. lra. Qed.
Lemma drift_mono n v w : v <= w -> drift n v <= drift n w.
Proof.
  intros L. unfold drift, UNIT. assert (0 <= inject_Z (Z.of_nat n)) by (change 0 with (inject_Z 0); rewrite <- Zle_Qle; lia).
  nra.
Qed.
Lemma fills_booked account trade l b b' V p :
  Forall (fun x => ordinary account trade (snd x)) l -> apply_all l b = Ok b' ->
  position_of account trade b = Some p -> 0 <= V -> V + total_qty l <= MAX_QTY -> booked V p ->
  exists p', position_of account trade b' = Some p'
    /\ Qabs (cost p' - (cost p + total_paid l)) <= drift (length l) (V + total_qty l).
Proof.
  intros F. revert b V p. induction F as [|[now f] l O F IH]; intros b V p A P HV0 HV B.
  - injection A as <-. exists p. split; [done|]. unfold total_paid, drift; cbn [fold_right length].
    assert (E : cost p - (cost p + 0) == 0) by ring. rewrite E. by vm_compute.
  - apply apply_all_cons in A as (b1 & r & A1 & A2). simpl in O, HV.
    destruct (apply_booked account trade now f b b1 r O A1) as (d & D & X). rewrite P in X.
    destruct X as (p1 & P1 & St). pose proof (total_qty_nonneg _ _ _ F) as T.
    pose proof (ordinary_sane account trade f d O ltac:(lra) D) as S. pose proof (or_qty _ _ _ O) as Hn.
    destruct (fill_booked V now d f p p1 ltac:(lra) B S St) as [B1 C1].
    destruct (IH b1 (V + fi_quantity f) p1 A2 P1 ltac:(lra) ltac:(lra) B1) as (p' & P' & C').
    exists p'. split; [done|]. cbn [length total_paid total_qty fold_right snd].
    fold (total_paid l). fold (total_qty l). unfold fill_paid at 1. rewrite D, drift_S.
    assert (E : cost p + (paid f d + total_paid l) == (cost p + paid f d) + total_paid l) by ring. rewrite E.
    assert (C2 : Qabs (cost p1 + total_paid l - (cost p + paid f d + total_paid l)) <= UNIT * (1 + (V + fi_quantity f))).
    { assert (E2 : cost p1 + total_paid l - (cost p + paid f d + total_paid l) == cost p1 - (cost p + paid f d)) by ring.
      by rewrite E2. }
    pose proof (Qabs_chain _ _ _ _ _ C' C2) as K. eapply Qle_trans; [exact K|].
    assert (E3 : V + fi_quantity f + total_qty l == V + (fi_quantity f + total_qty l)) by ring.
    pose proof (drift_mono (length l) _ _ (Qeq_le _ _ E3)). unfold UNIT. lra.
Qed.

(** C18: The manual ledger balances: after any number of accepted fills of a new
    trade, opening, adding, reducing, closing or flipping it, its quantity at
    the average price less its realised profit is the cash its fills paid,
    commissions included, within a hundred-millionth per fill and share; so
    the profit of a trade that is flat is what its fills left. *)
Theorem books_balance (account : Z) (trade : string) (l : list (Z * Fill)) (b b' : ManualBook) :
  l <> [] -> Forall (fun x => ordinary account trade (snd x)) l -> total_qty l <= MAX_QTY ->
  position_of account trade b = None -> apply_all l b = Ok b' ->
  exists p, position_of account trade b' = Some p
    /\ Qabs (cost p - total_paid l) <= drift (length l) (total_qty l)
    /\ (mp_signed_qty p == 0 -> Qabs (mp_realized_pnl p + total_paid l) <= drift (length l) (total_qty l)).
Proof.
  intros N F HV P A. destruct F as [|[now f] l O F]; [done|]. simpl in O, HV.
  apply apply_all_cons in A as (b1 & r & A1 & A2).
  destruct (apply_booked account trade now f b b1 r O A1) as (d & D & X). rewrite P in X.
  destruct X as (p1 & P1 & St). pose proof (total_qty_nonneg _ _ _ F) as T.
  pose proof (ordinary_sane account trade f d O ltac:(lra) D) as S. pose proof (or_qty _ _ _ O) as Hn.
  destruct (opened_booked _ _ _ _ _ S St) as [B1 C1].
  destruct (fills_booked account trade l b1 b' (fi_quantity f) p1 F A2 P1 ltac:(lra) ltac:(lra) B1) as (p & P' & C).
  assert (K : Qabs (cost p - total_paid ((now, f) :: l)) <= drift (length ((now, f) :: l)) (total_qty ((now, f) :: l))).
  { cbn [length total_paid total_qty fold_right snd]. fold (total_paid l). fold (total_qty l).
    unfold fill_paid at 1. rewrite D, drift_S.
    assert (C2 : Qabs (cost p1 + total_paid l - (paid f d + total_paid l)) <= UNIT * (1 + fi_quantity f)).
    { assert (E : cost p1 + total_paid l - (paid f d + total_paid l) == cost p1 - paid f d) by ring. by rewrite E. }
    pose proof (Qabs_chain _ _ _ _ _ C C2) as K. eapply Qle_trans; [exact K|]. unfold UNIT. lra. }
  exists p. split_and!; [done|done|]. intros E.
  assert (E' : mp_realized_pnl p + total_paid ((now, f) :: l) == - (cost p - total_paid ((now, f) :: l)))
    by (unfold cost; rewrite E; ring).
  by rewrite E', Qabs_opp.
Qed.

(** ** Examples *)
Definition ex_fill (side : string) (qty price : Q) : Fill := {|
  fi_account_id := 7; fi_trade_id := "T1"; fi_symbol := "SPY"; fi_con_id := 11; fi_sec_type := "CFD";
  fi_currency := "USD"; fi_side := side; fi_quantity := qty; fi_price := price; fi_commission := 1 |}.
Definition ex_round : list (Z * Fill) :=
  [(10%Z, ex_fill "BOT" 3 100); (11%Z, ex_fill "BOT" 4 (1001 # 10)); (12%Z, ex_fill "SLD" 7 102)].
(** A round trip: bought at two prices, sold at one. *)
Example round_trip :
  match apply_all ex_round empty_book with
  | Ok b => map (fun p => (mp_status p, Qred (mp_signed_qty p), Qred (mp_realized_pnl p))) (mb_positions b)
            = [(MAN_CLOSED, 0, 529999999 # 50000000)]
  | Raise _ => False
  end.
Proof. vm_compute. reflexivity. Qed.
Lemma ex_ordinary side qty price z w :
  0 < qty -> qty * pw 10 4 == inject_Z z -> 0 <= price <= MAX_PRICE -> price * pw 10 8 == inject_Z w ->
  ordinary 7 "T1" (ex_fill side qty price).
Proof.
  intros. split; cbn [ex_fill fi_account_id fi_trade_id fi_quantity fi_price fi_commission]; try done.
  - by exists z.
  - by exists w.
  - exists 100000000%Z. by vm_compute.
Qed.
Ltac ordinary_fill z w :=
  apply (ex_ordinary _ _ _ z w);
  [reflexivity|vm_compute; reflexivity|split; vm_compute; discriminate|vm_compute; reflexivity].
Lemma books_balance_witness :
  exists b p, apply_all ex_round empty_book = Ok b /\ position_of 7 "T1" b = Some p
    /\ Qabs (cost p - total_paid ex_round) <= drift 3 14.
Proof.
  destruct (apply_all ex_round empty_book) as [b|e] eqn:A; [|by vm_compute in A].
  destruct (books_balance 7 "T1" ex_round empty_book b) as (p & P & C & _); [done| |by vm_compute|done|done|].
  - constructor; [ordinary_fill 30000%Z 10000000000%Z|]. constructor; [ordinary_fill 40000%Z 10010000000%Z|].
    constructor; [ordinary_fill 70000%Z 10200000000%Z|constructor].
  - exists b, p. split_and!; [done|done|exact C].
Defined.
