(* ===== verification/ManualCallbacks.v ===== *)
(** * Manual trading: the broker's callbacks, [services/manual_callbacks.py], and
    the scan at startup, [services/manual_recovery.py]

    A callback is one transaction over the manual ledger and the trade book;
    the buffer of early commissions is in memory.  The watch list of the live
    profits is left out. *)

From S2P Require Import Prelude Rounding PyText PyTime Identifiers RmsModels Accounts TradeBook Positions TradeExecutions ManualLedger.

#[local] Open Scope Q_scope.
#[local] Open Scope py_scope.
#[local] Set Warnings "-clear-no-such-hyp".

(** [replace(" ", "")]. *)
Fixpoint remove_spaces (s : string) : string :=
  match s with
  | EmptyString => EmptyString
  | String c s => if Ascii.eqb c " "%char then remove_spaces s else String c (remove_spaces s)
  end.
Definition map_ib_order_status (raw : string) : ManualOrderStatus :=
  let norm := remove_spaces (str_upper (str_strip raw)) in
  if bool_decide (norm ∈ ["SUBMITTED"; "PENDINGSUBMIT"; "PRESUBMITTED"; "APIPENDING"]) then MO_SUBMITTED
  else if String.eqb norm "PARTIALLYFILLED" then MO_PARTIALLY_FILLED
  else if String.eqb norm "FILLED" then MO_FILLED
  else if bool_decide (norm ∈ ["CANCELLED"; "APICANCELLED"]) then MO_CANCELLED
  else if bool_decide (norm ∈ ["INACTIVE"; "REJECTED"]) then MO_REJECTED
  else MO_SUBMITTED.

Record Listener : Type := {
  ls_book : ManualBook;
  ls_trades : TradeBookTable;
  ls_accounts : gmap string Z;                (* accounts: ibkr_account to id *)
  ls_pending : gmap string (Q * string)       (* _pending_commissions *)
}.
Definition set_book (b : ManualBook) (s : Listener) : Listener := {|
  ls_book := b; ls_trades := ls_trades s; ls_accounts := ls_accounts s; ls_pending := ls_pending s |}.
Definition set_trades (t : TradeBookTable) (s : Listener) : Listener := {|
  ls_book := ls_book s; ls_trades := t; ls_accounts := ls_accounts s; ls_pending := ls_pending s |}.
Definition set_pending (p : gmap string (Q * string)) (s : Listener) : Listener := {|
  ls_book := ls_book s; ls_trades := ls_trades s; ls_accounts := ls_accounts s; ls_pending := p |}.

(** ** Order status *)
Definition order_terminal (s : ManualOrderStatus) : bool :=
  bool_decide (s ∈ [MO_FILLED; MO_CANCELLED; MO_REJECTED; MO_ERROR]).
Definition no_regress (old new : ManualOrderStatus) : ManualOrderStatus :=
  if bool_decide (old = MO_PARTIALLY_FILLED) && bool_decide (new = MO_SUBMITTED) then MO_PARTIALLY_FILLED
  else new.
Definition missing_perm (o : ManualOrder) : bool :=
  match mo_perm_id o with Some p => (p =? 0)%Z | None => true end.
Definition with_perm (perm : option Z) (u : OrderUpdate) : OrderUpdate := {|
  up_status := up_status u; up_broker_order_id := up_broker_order_id u; up_perm_id := perm;
  up_submitted_at := up_submitted_at u; up_completed_at := up_completed_at u;
  up_reject_reason := up_reject_reason u |}.
Definition with_completed (at_ : option Z) (u : OrderUpdate) : OrderUpdate := {|
  up_status := up_status u; up_broker_order_id := up_broker_order_id u; up_perm_id := up_perm_id u;
  up_submitted_at := up_submitted_at u; up_completed_at := at_; up_reject_reason := up_reject_reason u |}.
Definition with_broker (id : option string) (u : OrderUpdate) : OrderUpdate := {|
  up_status := up_status u; up_broker_order_id := id; up_perm_id := up_perm_id u;
  up_submitted_at := up_submitted_at u; up_completed_at := up_completed_at u;
  up_reject_reason := up_reject_reason u |}.
Definition with_reason (r : string) (u : OrderUpdate) : OrderUpdate := {|
  up_status := up_status u; up_broker_order_id := up_broker_order_id u; up_perm_id := up_perm_id u;
  up_submitted_at := up_submitted_at u; up_completed_at := up_completed_at u;
  up_reject_reason := Some r |}.
Definition or_else {A} (a b : option A) : option A := match a with Some x => Some x | None => b end.

Definition handle_order_status (now order_id : Z) (status : string) (perm_id : Z) (b : ManualBook)
    : ManualBook :=
  match or_else (get_by_broker_order_id (str_Z order_id) None b)
          (if (0 <? perm_id)%Z then get_by_perm_id perm_id None b else None) with
  | None => b
  | Some o =>
      let new_perm := if (0 <? perm_id)%Z && missing_perm o then Some perm_id else None in
      if order_terminal (mo_status o) then
        match new_perm with
        | Some _ => fst (update_order_status (mo_id o) (with_perm new_perm (to_status (mo_status o))) b)
        | None => b
        end
      else
        let mapped := no_regress (mo_status o) (map_ib_order_status status) in
        let completed := if bool_decide (mapped ∈ [MO_FILLED; MO_CANCELLED; MO_REJECTED]) then Some now else None in
        let b := fst (update_order_status (mo_id o) (with_completed completed (with_perm new_perm (to_status mapped))) b) in
        record_event (mo_account_id o) "MANUAL_ORDER_STATUS_UPDATED" None b
  end.

Definition handle_open_order (order_id : Z) (order_ref : string) (perm_id : Z) (raw_status : string)
    (b : ManualBook) : ManualBook :=
  match or_else (if str_empty order_ref then None else get_by_internal_id order_ref b)
          (or_else (if (0 <? order_id)%Z then get_by_broker_order_id (str_Z order_id) None b else None)
             (if (0 <? perm_id)%Z then get_by_perm_id perm_id None b else None)) with
  | None => b
  | Some o =>
      let b_id := if str_empty (opt_str (mo_broker_order_id o)) && (0 <? order_id)%Z
                  then Some (str_Z order_id) else None in
      let p_id := if missing_perm o && (0 <? perm_id)%Z then Some perm_id else None in
      let u s := with_broker b_id (with_perm p_id (to_status s)) in
      if order_terminal (mo_status o) then
        match b_id, p_id with
        | None, None => b
        | _, _ => fst (update_order_status (mo_id o) (u (mo_status o)) b)
        end
      else
        let mapped := if str_empty raw_status then mo_status o else map_ib_order_status raw_status in
        fst (update_order_status (mo_id o) (u (no_regress (mo_status o) mapped)) b)
  end.

(** [on_error] and [handle_error]. *)
Definition informational (code : Z) : bool :=
  ((2000 <=? code) && (code <? 3000) || bool_decide (code ∈ [10349; 2104; 2107; 2158; 399; 2109; 100]))%Z.
Definition handle_error (now req code : Z) (message : string) (b : ManualBook) : ManualBook :=
  if informational code then b
  else
    match get_by_broker_order_id (str_Z req) None b with
    | None => b
    | Some o =>
        if order_terminal (mo_status o) then b
        else
          let u := with_reason ("TWS Error " ++ str_Z code ++ ": " ++ message)
                     (with_completed (Some now) (to_status MO_REJECTED)) in
          record_event (mo_account_id o) "MANUAL_ORDER_REJECTED" None (fst (update_order_status (mo_id o) u b))
    end.

(** ** Executions *)
Record ExecContract : Type := { xc_conId : Z; xc_symbol : string; xc_secType : string }.
Record ManualExec : Type := {
  mx_execId : string;
  mx_orderId : option Z;
  mx_permId : option Z;
  mx_orderRef : string;
  mx_acctNumber : string;
  mx_shares : Q;
  mx_price : Q;
  mx_side : option string;
  mx_executed_at : Z
}.
Definition text_conflict (actual expected : string) : bool :=
  negb (str_empty (str_strip actual)) && negb (String.eqb (norm_text actual) (norm_text expected)).
Definition contract_matches (o : ManualOrder) (c : option ExecContract) : bool :=
  match c with
  | None => true
  | Some c =>
      negb (negb (xc_conId c =? 0)%Z && negb (xc_conId c =? mo_con_id o)%Z)
      && negb (text_conflict (xc_symbol c) (mo_symbol o))
      && negb (text_conflict (xc_secType c) (mo_sec_type o))
  end.
Definition perm_matches (o : ManualOrder) (perm : option Z) : bool :=
  match perm, mo_perm_id o with
  | None, _ | _, None => true
  | Some p, Some k => (p =? 0)%Z || (k =? p)%Z
  end.
(** The order of an execution: by its own name, by its permanent id, by the
    broker's order id; each must fit the account and the contract. *)
Definition correlate (account : option Z) (acct : string) (x : ManualExec) (c : option ExecContract)
    (b : ManualBook) : option ManualOrder :=
  let by_ref :=
    let r := str_strip (mx_orderRef x) in
    if str_empty r then None
    else match get_by_internal_id r b with
         | Some o =>
             if match account with Some a => (a =? 0)%Z || (mo_account_id o =? a)%Z | None => true end
                && negb (negb (str_empty acct) && negb (String.eqb acct (norm_text (mo_ibkr_account o))))
                && contract_matches o c && perm_matches o (mx_permId x)
             then Some o else None
         | None => None
         end in
  let by_perm :=
    match mx_permId x with
    | Some p => if (0 <? p)%Z then
                  match get_by_perm_id p account b with
                  | Some o => if contract_matches o c then Some o else None
                  | None => None
                  end
                else None
    | None => None
    end in
  let by_id :=
    match mx_orderId x with
    | Some i => if (0 <? i)%Z then
                  match get_by_broker_order_id (str_Z i) account b with
                  | Some o => if contract_matches o c && perm_matches o (mx_permId x) then Some o else None
                  | None => None
                  end
                else None
    | None => None
    end in
  or_else by_ref (or_else by_perm by_id).

(** The status after a fill. *)
Definition filled_update (now : Z) (total : Q) (o : ManualOrder) : OrderUpdate :=
  if mo_quantity o <=? total then with_completed (Some now) (to_status MO_FILLED)
  else if bool_decide (mo_status o ∈ [MO_CANCELLED; MO_REJECTED; MO_ERROR])
  then with_completed (Some (default now (mo_completed_at o))) (to_status (mo_status o))
  else to_status MO_PARTIALLY_FILLED.
Definition fill_of (x : ManualExec) (side : string) (commission : Q) (o : ManualOrder) : Fill := {|
  fi_account_id := mo_account_id o; fi_trade_id := mo_trade_id o; fi_symbol := mo_symbol o;
  fi_con_id := mo_con_id o; fi_sec_type := mo_sec_type o; fi_currency := mo_currency o; fi_side := side;
  fi_quantity := mx_shares x; fi_price := mx_price x; fi_commission := commission |}.
Definition mirror_line (x : ManualExec) (id side : string) (total delta : Q) (buffered : option (Q * string))
    (o : ManualOrder) : BrokerExecutionLine := {|
  bl_exec_id := id; bl_executed_at := mx_executed_at x; bl_ibkr_account := mo_ibkr_account o;
  bl_symbol := mo_symbol o; bl_sec_type := mo_sec_type o; bl_currency := mo_currency o;
  bl_exchange := mo_exchange o; bl_con_id := mo_con_id o; bl_side := side; bl_quantity := fl (mx_shares x);
  bl_price := fl (mx_price x); bl_cum_qty := fl total; bl_avg_price := fl (mx_price x);
  bl_broker_order_id := mx_orderId x; bl_perm_id := mx_permId x; bl_client_id := None;
  bl_commission := option_map (fun k => fl (fst k)) buffered;
  bl_commission_currency := option_map snd buffered;
  bl_realized_pnl := if Qeq_bool delta 0 then None else Some (fl delta) |}.
Definition capture_perm (perm : option Z) (o : ManualOrder) (b : ManualBook) : ManualBook :=
  match perm with
  | Some p => if negb (p =? 0)%Z && missing_perm o
              then change_order (mo_id o) (updated_order (with_perm (Some p) (to_status (mo_status o)))) b
              else b
  | None => b
  end.

(** After the execution row is new: the position, the order, the trade book. *)
Definition settle_execution (now : Z) (x : ManualExec) (id side : string) (buffered : option (Q * string))
    (o : ManualOrder) (s : Listener) : result (Listener * bool) :=
  match apply_execution now (fill_of x side (default 0 (option_map fst buffered)) o) (ls_book s) with
  | (b, Raise (ValueError _)) =>
      Ok (set_book (record_event (mo_account_id o) REUSE_REJECTED None b) s, false)
  | (_, Raise e) => Raise e
  | (b, Ok (_, delta)) =>
      let total := dsum (map me_quantity (list_for_order (mo_id o) b)) in
      let b := fst (update_order_status (mo_id o) (filled_update now total o) b) in
      let! trades := upsert_one (mirror_line x id side total delta buffered o) (mo_account_id o) None (ls_trades s) in
      let b := record_event (mo_account_id o) "MANUAL_EXECUTION_RECEIVED" None b in
      Ok (set_trades trades (set_book b s), true)
  end.
Definition exec_row (x : ManualExec) (id : string) (buffered : option (Q * string)) (o : ManualOrder)
    : ManualExecution := {|
  me_order_id := mo_id o; me_exec_id := id;
  me_broker_order_id := match mx_orderId x with Some i => Some (str_Z i) | None => mo_broker_order_id o end;
  me_quantity := mx_shares x; me_price := mx_price x; me_commission := option_map fst buffered;
  me_commission_currency := option_map snd buffered; me_executed_at := mx_executed_at x |}.
(** The transaction: the order it belongs to, and whether it was new. *)
Definition exec_transaction (now : Z) (x : ManualExec) (c : option ExecContract) (id : string)
    (buffered : option (Q * string)) (s : Listener) : result (Listener * (option Z * bool)) :=
  let acct := norm_text (mx_acctNumber x) in
  let account := if str_empty acct then None else ls_accounts s !! acct in
  match correlate account acct x c (ls_book s) with
  | None => Ok (s, (None, false))
  | Some o =>
      if negb (str_empty acct) && negb (String.eqb acct (norm_text (mo_ibkr_account o))) then Ok (s, (None, false))
      else
        let b := capture_perm (mx_permId x) o (ls_book s) in
        if match position_of (mo_account_id o) (mo_trade_id o) b with Some p => is_closed p | None => false end
        then Ok (set_book (record_event (mo_account_id o) REUSE_REJECTED None b) s, (Some (mo_id o), false))
        else
          let! (b, (_, is_new)) := record_execution_with_dedup (exec_row x id buffered o) b in
          if is_new then
            let! (s, new) := settle_execution now x id (normalize_execution_side (mx_side x)) buffered o
                               (set_book b s) in
            Ok (s, (Some (mo_id o), new))
          else Ok (set_book (record_event (mo_account_id o) "MANUAL_EXECUTION_DUPLICATE" None b) s,
                   (Some (mo_id o), false))
  end.
Definition handle_exec_details (now : Z) (x : ManualExec) (c : option ExecContract) (s : Listener)
    : Listener * result (option Z * bool) :=
  let id := str_strip (mx_execId x) in
  if str_empty id then (s, Ok (None, false))
  else
    let buffered := ls_pending s !! id in
    let s := set_pending (delete id (ls_pending s)) s in
    match exec_transaction now x c id buffered s with
    | Ok (s', r) => (s', Ok r)
    | Raise e => (s, Raise e)
    end.

Definition charge_position (account : Z) (trade : string) (commission : Q) (b : ManualBook)
    : result ManualBook :=
  match position_of account trade b with
  | None => Ok b
  | Some p =>
      let! p' := store_position (moved_position (mp_signed_qty p) (mp_avg_cost p)
                                   (dsub (mp_realized_pnl p) commission) (mp_status p) (mp_closed_at p) p) in
      Ok (change_position account trade p' b)
  end.
Definition handle_commission_report (exec_id : string) (commission : Q) (currency : string) (s : Listener)
    : Listener * result bool :=
  let id := str_strip exec_id in
  let currency := str_or currency "USD" in
  if str_empty id then (s, Ok false)
  else match get_by_exec_id id (ls_book s) with
       | None => (set_pending (<[id := (commission, currency)]> (ls_pending s)) s, Ok true)
       | Some e =>
           let r :=
             let! (b, (_, was_updated)) := update_commission id commission (Some currency) (ls_book s) in
             if was_updated then
               match get_by_id (me_order_id e) None b with
               | None => Ok (b, true)
               | Some o =>
                   let! b := charge_position (mo_account_id o) (mo_trade_id o) commission b in
                   Ok (record_event (mo_account_id o) "MANUAL_COMMISSION_RECEIVED" None b, true)
               end
             else Ok (b, false) in
           match r with Ok (b, v) => (set_book b s, Ok v) | Raise e => (s, Raise e) end
       end.

(** ** The scan at startup *)
Definition UNCONFIRMED : string :=
  "UNCONFIRMED_BROKER_SUBMISSION_REQUIRES_RECOVERY: order was pending submission across restart".
Definition recover_order (o : ManualOrder) (b : ManualBook) : ManualBook :=
  if bool_decide (mo_status o = MO_PENDING_SUBMIT)
  then record_event (mo_account_id o) "MANUAL_ORDER_RECOVERY_REQUIRED" None
         (fst (update_order_status (mo_id o) (with_reason UNCONFIRMED (to_status MO_ERROR)) b))
  else b.
Definition run_manual_recovery (b : ManualBook) : ManualBook * nat :=
  let l := get_unresolved_orders b in (fold_left (fun b o => recover_order o b) l b, length l).
