(* ===== verification/KillSwitch.v ===== *)
(** * The kill switch: operations, caches and dispatch of
    [services/kill_switch.py], with [db/models/kill_switch.py],
    [kill_switch_snapshot.py] and the unique index of the armed operations

    An operation is armed until an operator clears it; two caches are what the
    gates read.  The flattens of manual and engine positions and of the ledger
    are in [ManualFlatten.v], [EngineFlatten.v] and [AccountFlatten.v].  The counters that are never moved
    are left out. *)

From S2P Require Import Prelude Rounding PyText PyTime Identifiers RmsModels Accounts TradeBook Positions TradeExecutions ManualLedger.

#[local] Open Scope Z_scope.
#[local] Open Scope py_scope.
#[local] Set Warnings "-clear-no-such-hyp".

Inductive KsStatus : Type :=
  | KS_IDLE | KS_ACTIVATING | KS_FLATTENING | KS_RECONCILING | KS_RETRYING | KS_FLAT | KS_COMPLETE
  | KS_UNRESOLVED | KS_CLEARED.
#[global] Instance KsStatus_eq_dec : EqDecision KsStatus.
Proof. solve_decision. Defined.
Inductive KsScope : Type := SCOPE_ENGINE | SCOPE_ACCOUNT | SCOPE_MANUAL.
#[global] Instance KsScope_eq_dec : EqDecision KsScope.
Proof. solve_decision. Defined.

Definition ARMED_STATUSES : list KsStatus :=
  [KS_ACTIVATING; KS_FLATTENING; KS_RECONCILING; KS_RETRYING; KS_FLAT; KS_COMPLETE; KS_UNRESOLVED].
Definition MANUAL_FLATTEN_ACTIVE_STATUSES : list KsStatus :=
  [KS_ACTIVATING; KS_FLATTENING; KS_RECONCILING; KS_RETRYING].

Record Operation : Type := {
  op_id : Z;
  op_account_id : Z;
  op_ibkr_account : string;
  op_scope : KsScope;
  op_status : KsStatus;
  op_requested_by : string;
  op_initial_position_count : Z;
  op_flattened_count : Z;
  op_unresolved_count : Z;
  op_cleared_at : option Z;
  op_cleared_by : option string;
  op_created_at : Z;
  op_updated_at : Z
}.
Definition with_status (status : KsStatus) (o : Operation) : Operation := {|
  op_id := op_id o; op_account_id := op_account_id o; op_ibkr_account := op_ibkr_account o;
  op_scope := op_scope o; op_status := status; op_requested_by := op_requested_by o;
  op_initial_position_count := op_initial_position_count o; op_flattened_count := op_flattened_count o;
  op_unresolved_count := op_unresolved_count o; op_cleared_at := op_cleared_at o;
  op_cleared_by := op_cleared_by o; op_created_at := op_created_at o; op_updated_at := op_updated_at o |}.
Definition op_armed (o : Operation) : bool := bool_decide (op_status o ∈ ARMED_STATUSES).

(** A row of [kill_switch_flatten_snapshots]. *)
Inductive SnapBody : Type :=
  | SnapEngine (leg_a_symbol : option string) (leg_a_signed_qty leg_a_entry_mark : option Q)
      (leg_b_symbol : option string) (leg_b_signed_qty leg_b_entry_mark : option Q)
  | SnapManual (position : option Z) (symbol : option string) (con_id : option Z)
      (sec_type : option string) (side : OrderSide) (signed_qty avg_cost : option Q).
Record FlattenSnapshot : Type := {
  sn_operation_id : Z;
  sn_account_id : Z;
  sn_trade_id : string;
  sn_body : SnapBody;
  sn_opened_at : option Z
}.

Record KillState : Type := {
  ks_accounts : gmap Z string;             (* id to ibkr_account *)
  ks_ops : gmap Z Operation;
  ks_snapshots : list FlattenSnapshot;
  ks_positions : PositionTable;
  ks_manual : ManualBook;
  ks_cache : gset Z;                        (* _KILL_SWITCH_ACTIVE_ACCOUNTS *)
  ks_manual_cache : gset Z                  (* _MANUAL_KILL_SWITCH_ACTIVE_ACCOUNTS *)
}.
Definition set_ops (ops : gmap Z Operation) (s : KillState) : KillState := {|
  ks_accounts := ks_accounts s; ks_ops := ops; ks_snapshots := ks_snapshots s;
  ks_positions := ks_positions s; ks_manual := ks_manual s; ks_cache := ks_cache s;
  ks_manual_cache := ks_manual_cache s |}.
Definition set_caches (c m : gset Z) (s : KillState) : KillState := {|
  ks_accounts := ks_accounts s; ks_ops := ks_ops s; ks_snapshots := ks_snapshots s;
  ks_positions := ks_positions s; ks_manual := ks_manual s; ks_cache := c; ks_manual_cache := m |}.
Definition add_snapshots (l : list FlattenSnapshot) (s : KillState) : KillState := {|
  ks_accounts := ks_accounts s; ks_ops := ks_ops s; ks_snapshots := ks_snapshots s ++ l;
  ks_positions := ks_positions s; ks_manual := ks_manual s; ks_cache := ks_cache s;
  ks_manual_cache := ks_manual_cache s |}.

(** ** The caches *)
Definition is_account_kill_switch_active (s : KillState) (account : Z) : bool :=
  bool_decide (account ∈ ks_cache s).
Definition is_manual_kill_switch_active (s : KillState) (account : Z) : bool :=
  bool_decide (account ∈ ks_manual_cache s).
Definition arm_kill_switch_cache (account : Z) (s : KillState) : KillState :=
  set_caches ({[ account ]} ∪ ks_cache s) (ks_manual_cache s) s.
Definition arm_manual_cache (account : Z) (s : KillState) : KillState :=
  set_caches (ks_cache s) ({[ account ]} ∪ ks_manual_cache s) s.
Definition disarm_manual_cache (account : Z) (s : KillState) : KillState :=
  set_caches (ks_cache s) (ks_manual_cache s ∖ {[ account ]}) s.
Definition clear_account_kill_switch_cache (account : Z) (s : KillState) : KillState :=
  set_caches (ks_cache s ∖ {[ account ]}) (ks_manual_cache s ∖ {[ account ]}) s.

(** ** Queries *)
Definition ops_where (p : Operation -> bool) (s : KillState) : list Operation :=
  List.filter p (map snd (map_to_list (ks_ops s))).
Definition accounts_where (p : Operation -> bool) (s : KillState) : gset Z :=
  list_to_set (map op_account_id (ops_where p s)).
(** The scopes that block OPENs. *)
Definition engine_scope (o : Operation) : bool := negb (bool_decide (op_scope o = SCOPE_MANUAL)).
Definition blocks_opens (o : Operation) : bool := op_armed o && engine_scope o.
Definition blocks_manual (o : Operation) : bool :=
  bool_decide (op_status o ∈ MANUAL_FLATTEN_ACTIVE_STATUSES) && bool_decide (op_scope o = SCOPE_MANUAL).
(** The latest of a list, by creation. *)
Fixpoint latest (l : list Operation) : option Operation :=
  match l with
  | [] => None
  | o :: l => match latest l with
              | Some k => if op_created_at o <? op_created_at k then Some k else Some o
              | None => Some o
              end
  end.
Definition get_armed_kill_switch_operation (account : Z) (scope : option KsScope) (s : KillState)
    : option Operation :=
  latest (ops_where (fun o => (op_account_id o =? account) && op_armed o
    && match scope with Some sc => bool_decide (op_scope o = sc) | None => engine_scope o end) s).
Definition get_active_manual_kill_switch_operation (account : Z) (s : KillState) : option Operation :=
  latest (ops_where (fun o => (op_account_id o =? account) && blocks_manual o) s).

(** [hydrate_kill_switch_cache]; a failing query raises before a cache is
    cleared. *)
Definition hydrate_kill_switch_cache (query_ok : bool) (s : KillState) : KillState * result (gset Z) :=
  if query_ok
  then let armed := accounts_where blocks_opens s in
       (set_caches armed (accounts_where blocks_manual s) s, Ok armed)
  else (s, Raise (OtherError "DBAPIError")).

(** A restart: the caches of a new process are empty, and
    [hydrate_runtime_from_db] logs a hydration that fails and goes on. *)
Definition restart_kill_switch (query_ok : bool) (s : KillState) : KillState :=
  (hydrate_kill_switch_cache query_ok (set_caches ∅ ∅ s)).1.

(** [clear_account_kill_switch]: the number of operations cleared. *)
Definition scope_is (scope : option KsScope) (o : Operation) : bool :=
  match scope with Some sc => bool_decide (op_scope o = sc) | None => true end.
Definition cleared_row (now : Z) (by_ : string) (o : Operation) : Operation := {|
  op_id := op_id o; op_account_id := op_account_id o; op_ibkr_account := op_ibkr_account o;
  op_scope := op_scope o; op_status := KS_CLEARED; op_requested_by := op_requested_by o;
  op_initial_position_count := op_initial_position_count o; op_flattened_count := op_flattened_count o;
  op_unresolved_count := op_unresolved_count o; op_cleared_at := Some now; op_cleared_by := Some by_;
  op_created_at := op_created_at o; op_updated_at := now |}.
Definition clears (account : Z) (scope : option KsScope) (o : Operation) : bool :=
  (op_account_id o =? account) && op_armed o && scope_is scope o.
Definition clear_account_kill_switch (now account : Z) (by_ : string) (scope : option KsScope)
    (commit_ok : bool) (s : KillState) : KillState * result Z :=
  if commit_ok then
    let count := Z.of_nat (length (ops_where (clears account scope) s)) in
    let s := set_ops ((fun o => if clears account scope o then cleared_row now by_ o else o) <$> ks_ops s) s in
    let engine := match scope with None | Some SCOPE_ENGINE | Some SCOPE_ACCOUNT => true | _ => false end in
    let manual := match scope with None | Some SCOPE_MANUAL => true | _ => false end in
    (set_caches (if engine then ks_cache s ∖ {[ account ]} else ks_cache s)
       (if manual then ks_manual_cache s ∖ {[ account ]} else ks_manual_cache s) s, Ok count)
  else (s, Raise (OtherError "DBAPIError")).

(** ** New operations *)
(** An insert under the unique index: one armed operation per account and
    scope. *)
Definition index_conflict (o k : Operation) : bool :=
  op_armed o && op_armed k && (op_account_id k =? op_account_id o) && bool_decide (op_scope k = op_scope o).
Definition insert_operation (o : Operation) (s : KillState) : result KillState :=
  if bool_decide (ops_where (index_conflict o) s = []) then Ok (set_ops (<[op_id o := o]> (ks_ops s)) s)
  else Raise (OtherError "IntegrityError").
Definition new_operation (id now account : Z) (ibkr : string) (scope : KsScope) (status : KsStatus)
    (by_ : string) (count : Z) : Operation := {|
  op_id := id; op_account_id := account; op_ibkr_account := ibkr; op_scope := scope; op_status := status;
  op_requested_by := by_; op_initial_position_count := count; op_flattened_count := 0;
  op_unresolved_count := 0; op_cleared_at := None; op_cleared_by := None; op_created_at := now;
  op_updated_at := now |}.
Definition open_positions_of (account : Z) (s : KillState) : list PositionModel :=
  List.filter (fun p => (p_account_id p =? account) && bool_decide (p_risk_state p = RISK_STATE_OPEN))
    (map snd (map_to_list (ks_positions s))).
Definition manual_positions_of (account : Z) (statuses : list ManualStatus) (s : KillState) : list ManualPosition :=
  List.filter (fun m => (mp_account_id m =? account) && bool_decide (mp_status m ∈ statuses)) (mb_positions (ks_manual s)).
Definition existing_op (account : Z) (scope : KsScope) (statuses : list KsStatus) (s : KillState)
    : option Operation :=
  head (ops_where (fun o => (op_account_id o =? account) && bool_decide (op_scope o = scope)
                            && bool_decide (op_status o ∈ statuses)) s).

Definition snapshot_engine (op account : Z) (p : PositionModel) : FlattenSnapshot := {|
  sn_operation_id := op; sn_account_id := account; sn_trade_id := p_trade_id p;
  sn_body := SnapEngine (Some (p_leg_a_symbol p)) (Some (p_leg_a_signed_qty p)) (Some (p_leg_a_entry_mark p))
               (p_leg_b_symbol p) (p_leg_b_signed_qty p) (p_leg_b_entry_mark p);
  sn_opened_at := Some (p_opened_at p) |}.
Definition snapshot_manual (op account : Z) (m : ManualPosition) : FlattenSnapshot := {|
  sn_operation_id := op; sn_account_id := account; sn_trade_id := mp_trade_id m;
  sn_body := SnapManual (Some (mp_id m)) (Some (mp_symbol m)) (Some (mp_con_id m)) (Some (mp_sec_type m))
               (if (0 <? mp_signed_qty m)%Q then BUY else SELL) (Some (mp_signed_qty m)) (Some (mp_avg_cost m));
  sn_opened_at := Some (mp_opened_at m) |}.

(** The three ways to start an operation, as transactions: the caches are
    written inside, and stay written when the commit fails. *)
Definition commit (ok : bool) (before : KillState) (after : result KillState) (cached : KillState -> KillState)
    (o : Operation) : KillState * result (Operation * bool) :=
  match after with
  | Raise e => (before, Raise e)
  | Ok s => if ok then (cached s, Ok (o, true)) else (cached before, Raise (OtherError "DBAPIError"))
  end.
Definition account_missing (account : Z) : exn :=
  ValueError ("Account " ++ str_Z account ++ " not found.").
Definition initiate_square_off (id now account : Z) (by_ : string) (ok : bool) (s : KillState)
    : KillState * result (Operation * bool) :=
  match ks_accounts s !! account with
  | None => (s, Raise (account_missing account))
  | Some ibkr =>
      match existing_op account SCOPE_ENGINE ARMED_STATUSES s with
      | Some o => (s, Ok (o, false))
      | None =>
          let o := new_operation id now account ibkr SCOPE_ENGINE KS_ACTIVATING by_
                     (Z.of_nat (length (open_positions_of account s))) in
          (* the row is written when the transaction commits *)
          match insert_operation o s with
          | Ok s' => commit ok s (Ok s') (arm_kill_switch_cache account) o
          | Raise e => (arm_kill_switch_cache account s, Raise e)
          end
      end
  end.
Definition arm_account_kill_switch_only (id now account : Z) (by_ : string) (ok : bool) (s : KillState)
    : KillState * result (Operation * bool) :=
  match ks_accounts s !! account with
  | None => (s, Raise (account_missing account))
  | Some ibkr =>
      match existing_op account SCOPE_ACCOUNT ARMED_STATUSES s with
      | Some o => (arm_kill_switch_cache account s, Ok (o, false))
      | None =>
          let engine := open_positions_of account s in
          let manual := manual_positions_of account [MAN_OPEN] s in
          let o := new_operation id now account ibkr SCOPE_ACCOUNT KS_ACTIVATING by_
                     (Z.of_nat (length engine) + Z.of_nat (length manual)) in
          let after := let! s' := insert_operation o s in
                       Ok (add_snapshots (map (snapshot_engine id account) engine
                                          ++ map (snapshot_manual id account) manual) s') in
          commit ok s after (arm_kill_switch_cache account) o
      end
  end.
Definition MANUAL_FLATTENABLE : list ManualStatus := [MAN_OPEN; MAN_CLOSING; MAN_FLATTENED_PENDING_PRICE].
Definition initiate_manual_square_off (id now account : Z) (by_ : string) (ok : bool) (s : KillState)
    : KillState * result (Operation * bool) :=
  match ks_accounts s !! account with
  | None => (s, Raise (account_missing account))
  | Some ibkr =>
      match existing_op account SCOPE_MANUAL MANUAL_FLATTEN_ACTIVE_STATUSES s with
      | Some o => (arm_manual_cache account s, Ok (o, false))
      | None =>
          let manual := manual_positions_of account MANUAL_FLATTENABLE s in
          match manual with
          | [] =>
              let o := new_operation id now account ibkr SCOPE_MANUAL KS_COMPLETE by_ 0 in
              commit ok s (insert_operation o s) (fun s => s) o
          | _ =>
              let o := new_operation id now account ibkr SCOPE_MANUAL KS_ACTIVATING by_
                         (Z.of_nat (length manual)) in
              let after := let! s' := insert_operation o s in
                           Ok (add_snapshots (map (snapshot_manual id account) manual) s') in
              commit ok s after (arm_manual_cache account) o
          end
      end
  end.

(** ** The life of an operation *)
(** The first transaction of both flatten workers: the operation goes to
    FLATTENING, or there is nothing to do. *)
Definition begin_flatten (now id : Z) (s : KillState) : KillState * option Operation :=
  match ks_ops s !! id with
  | None => (s, None)
  | Some o =>
      if bool_decide (op_status o ∈ [KS_COMPLETE; KS_UNRESOLVED; KS_CLEARED]) then (s, None)
      else let o := with_status KS_FLATTENING o in (set_ops (<[id := o]> (ks_ops s)) s, Some o)
  end.
(** [_update_operation_completion]. *)
Definition completed_row (now : Z) (status : KsStatus) (unresolved : Z) (o : Operation) : Operation := {|
  op_id := op_id o; op_account_id := op_account_id o; op_ibkr_account := op_ibkr_account o;
  op_scope := op_scope o; op_status := status; op_requested_by := op_requested_by o;
  op_initial_position_count := op_initial_position_count o;
  op_flattened_count := Z.max 0 (op_initial_position_count o - unresolved);
  op_unresolved_count := unresolved; op_cleared_at := op_cleared_at o; op_cleared_by := op_cleared_by o;
  op_created_at := op_created_at o; op_updated_at := now |}.
Definition update_operation_completion (now id : Z) (status : KsStatus) (unresolved : Z) (s : KillState)
    : KillState :=
  match ks_ops s !! id with
  | None => s
  | Some o =>
      if bool_decide (op_status o = KS_COMPLETE) && negb (bool_decide (status = KS_COMPLETE)) then s
      else if bool_decide (op_status o = KS_CLEARED) then s
      else set_ops (<[id := completed_row now status unresolved o]> (ks_ops s)) s
  end.

(** Which operations a restart resumes, and how; which the sweep retries. *)
Inductive Resumed : Type := ResumeManual (id : Z) | ResumeEngine (id : Z).
Definition RESUME_STATUSES : list KsStatus := [KS_ACTIVATING; KS_FLATTENING; KS_RECONCILING].
Definition resume_incomplete_flattens (s : KillState) : list Resumed :=
  map (fun o => if bool_decide (op_scope o = SCOPE_MANUAL) then ResumeManual (op_id o) else ResumeEngine (op_id o))
    (ops_where (fun o => bool_decide (op_status o ∈ RESUME_STATUSES)) s).
Inductive Retried : Type := RetryManual (id : Z) | RetrySnapshot (id : Z) | RetryTier2 (id : Z).
Definition has_snapshot (id : Z) (s : KillState) : bool :=
  existsb (fun sn => sn_operation_id sn =? id) (ks_snapshots s).
Definition retry_kind (s : KillState) (o : Operation) : Retried :=
  match op_scope o with
  | SCOPE_MANUAL => RetryManual (op_id o)
  | SCOPE_ACCOUNT => RetrySnapshot (op_id o)
  | SCOPE_ENGINE => if has_snapshot (op_id o) s then RetrySnapshot (op_id o) else RetryTier2 (op_id o)
  end.
Definition retry_unresolved_operations (in_flight : gset Z) (account : option Z) (s : KillState) : list Retried :=
  map (retry_kind s)
    (ops_where (fun o => bool_decide (op_status o ∈ [KS_UNRESOLVED; KS_RECONCILING])
                         && match account with Some a => op_account_id o =? a | None => true end
                         && negb (bool_decide (op_id o ∈ in_flight))) s).
Definition attempt_finalize_for_account (in_flight : gset Z) (account : Z) (s : KillState) : option Retried :=
  match latest (ops_where (fun o => (op_account_id o =? account)
                                    && bool_decide (op_status o ∈ [KS_UNRESOLVED; KS_RECONCILING])) s) with
  | Some o => if bool_decide (op_id o ∈ in_flight) then None else Some (RetryTier2 (op_id o))
  | None => None
  end.

(** ** Facts *)
Lemma ops_where_elem p s o : o ∈ ops_where p s <-> p o = true /\ exists i, ks_ops s !! i = Some o.
Proof. unfold ops_where. rewrite filter_elem, values_elem. tauto. Qed.
Lemma accounts_where_elem p s a :
  a ∈ accounts_where p s <-> exists i o, ks_ops s !! i = Some o /\ p o = true /\ op_account_id o = a.
Proof.
  unfold accounts_where. rewrite elem_of_list_to_set, list_elem_of_fmap. split.
  - intros (o & -> & I). apply ops_where_elem in I as [P [i L]]. eauto.
  - intros (i & o & L & P & E). exists o. split; [done|]. apply ops_where_elem. eauto.
Qed.
Lemma head_elem {A} (l : list A) x : head l = Some x -> x ∈ l.
Proof. destruct l; [done|]. intros [= ->]. by left. Qed.
Lemma existing_spec account scope statuses s o :
  existing_op account scope statuses s = Some o ->
  op_account_id o = account /\ op_scope o = scope /\ op_status o ∈ statuses /\ exists i, ks_ops s !! i = Some o.
Proof.
  intros E. apply head_elem, ops_where_elem in E as [P L].
  apply andb_true_iff in P as [[P1 P2]%andb_true_iff P3].
  apply Z.eqb_eq in P1. apply bool_decide_eq_true_1 in P2, P3. done.
Qed.
Lemma insert_spec o s s' : insert_operation o s = Ok s' -> s' = set_ops (<[op_id o := o]> (ks_ops s)) s.
Proof. unfold insert_operation. case_bool_decide; [by intros [= <-]|done]. Qed.

(** An account has an armed operation, and the gate is shut unless the caches
    were lost. *)
Record held (account id : Z) (lost : bool) (s : KillState) : Prop := {
  hd_blocked : lost = false -> is_account_kill_switch_active s account = true;
  hd_op : exists o, ks_ops s !! id = Some o /\ op_account_id o = account /\ blocks_opens o = true
}.
(** What can happen to the kill switch, short of clearing an account: requests
    of all kinds, workers, completions, restarts, and whatever leaves the
    operations and the caches alone.  The second component tells whether the
    caches were lost: the last restart could not read them. *)
Inductive ks_step (account : Z) : KillState * bool -> KillState * bool -> Prop :=
  | Initiates id now a by_ ok s l :
      ks_ops s !! id = None -> ks_step account (s, l) ((initiate_square_off id now a by_ ok s).1, l)
  | Arms id now a by_ ok s l :
      ks_ops s !! id = None -> ks_step account (s, l) ((arm_account_kill_switch_only id now a by_ ok s).1, l)
  | InitiatesManual id now a by_ ok s l :
      ks_ops s !! id = None -> ks_step account (s, l) ((initiate_manual_square_off id now a by_ ok s).1, l)
  | Begins now id s l : ks_step account (s, l) ((begin_flatten now id s).1, l)
  | Completes now id status unresolved s l :
      status ∈ [KS_COMPLETE; KS_UNRESOLVED; KS_RECONCILING] ->
      ks_step account (s, l) (update_operation_completion now id status unresolved s, l)
  | ReleasesManual a s l : ks_step account (s, l) (disarm_manual_cache a s, l)
  | Restarts ok s l : ks_step account (s, l) (restart_kill_switch ok s, negb ok)
  | ClearsOther now a by_ scope ok s l :
      a <> account -> ks_step account (s, l) ((clear_account_kill_switch now a by_ scope ok s).1, l)
  | Aside s s' l :
      ks_ops s' = ks_ops s -> ks_cache s' = ks_cache s -> ks_step account (s, l) (s', l).

Lemma held_mono account id l s s' :
  held account id l s -> (ks_cache s ⊆ ks_cache s') ->
  (forall o, ks_ops s !! id = Some o -> blocks_opens o = true ->
     exists o', ks_ops s' !! id = Some o' /\ op_account_id o' = op_account_id o /\ blocks_opens o' = true) ->
  held account id l s'.
Proof.
  intros [B (o & L & A & K)] C O. split.
  - intros Hl. specialize (B Hl). apply bool_decide_eq_true_1 in B. by apply bool_decide_eq_true_2, C.
  - destruct (O o L K) as (o' & L' & A' & K'). exists o'. by rewrite A'.
Qed.
Lemma held_cache account id lost s s' :
  held account id lost s -> ks_ops s' = ks_ops s -> ks_cache s ⊆ ks_cache s' -> held account id lost s'.
Proof. intros H E C. eapply held_mono; [done..|]. rewrite E. eauto. Qed.
Lemma held_insert account id lost s o m :
  held account id lost s -> ks_ops s !! op_id o = None -> ks_cache s ⊆ ks_cache m ->
  ks_ops m = <[op_id o := o]> (ks_ops s) -> held account id lost m.
Proof.
  intros H F C E. eapply held_mono; [done..|]. intros k L K. exists k. split; [|done].
  rewrite E, lookup_insert_ne; [done|]. congruence.
Qed.
Lemma held_commit account id lost ok s after cached o :
  held account id lost s -> ks_ops s !! op_id o = None ->
  (forall s', after = Ok s' -> ks_ops s' = <[op_id o := o]> (ks_ops s) /\ ks_cache s' = ks_cache s) ->
  (forall x, ks_ops (cached x) = ks_ops x /\ ks_cache x ⊆ ks_cache (cached x)) ->
  held account id lost (commit ok s after cached o).1.
Proof.
  intros H F A C. unfold commit. destruct after as [s'|e]; [|done]. destruct (A s' eq_refl) as [A1 A2].
  destruct ok; simpl.
  - destruct (C s') as [C1 C2]. eapply held_insert; [done|done| |by rewrite C1]. by rewrite <- A2.
  - destruct (C s) as [C1 C2]. by eapply held_cache.
Qed.
Lemma arm_cached account x :
  ks_ops (arm_kill_switch_cache account x) = ks_ops x /\ ks_cache x ⊆ ks_cache (arm_kill_switch_cache account x).
Proof. split; [done|]. simpl. set_solver. Qed.
Lemma held_initiate account id lost n now a by_ ok s :
  held account id lost s -> ks_ops s !! n = None -> held account id lost (initiate_square_off n now a by_ ok s).1.
Proof.
  intros H F. unfold initiate_square_off. destruct (ks_accounts s !! a); [|done].
  destruct (existing_op _ _ _ _); [done|]. destruct (insert_operation _ s) as [s'|e] eqn:I.
  - apply insert_spec in I. eapply held_commit; [done|done| |apply arm_cached]. by intros ? [= <-]; subst s'.
  - eapply held_cache; [done|apply arm_cached..].
Qed.
Lemma after_snapshots o l s s' :
  rbind (insert_operation o s) (fun x => Ok (add_snapshots l x)) = Ok s' ->
  ks_ops s' = <[op_id o := o]> (ks_ops s) /\ ks_cache s' = ks_cache s.
Proof. intros (x & I & [= <-])%rbind_ok. by apply insert_spec in I as ->. Qed.
Lemma held_arm account id lost n now a by_ ok s :
  held account id lost s -> ks_ops s !! n = None -> held account id lost (arm_account_kill_switch_only n now a by_ ok s).1.
Proof.
  intros H F. unfold arm_account_kill_switch_only. destruct (ks_accounts s !! a); [|done].
  destruct (existing_op _ _ _ _); [by eapply held_cache; [|apply arm_cached..]|].
  eapply held_commit; [done|done| |apply arm_cached]. intros s'. apply after_snapshots.
Qed.
Lemma held_manual account id lost n now a by_ ok s :
  held account id lost s -> ks_ops s !! n = None -> held account id lost (initiate_manual_square_off n now a by_ ok s).1.
Proof.
  intros H F. unfold initiate_manual_square_off. destruct (ks_accounts s !! a); [|done].
  destruct (existing_op _ _ _ _); [by eapply held_cache|].
  destruct (manual_positions_of _ _ _); (eapply held_commit; [done|done| |by intros x]).
  - intros s' I. by apply insert_spec in I as ->.
  - intros s'. apply after_snapshots.
Qed.
Lemma armed_status status o :
  status ∈ ARMED_STATUSES -> blocks_opens o = true -> blocks_opens (with_status status o) = true.
Proof.
  intros A [_ E]%andb_true_iff. apply andb_true_iff. split; [|exact E]. by apply bool_decide_eq_true_2.
Qed.
Lemma held_begin account id lost now n s : held account id lost s -> held account id lost (begin_flatten now n s).1.
Proof.
  intros H. unfold begin_flatten. destruct (ks_ops s !! n) as [k|] eqn:L; [|done].
  case_bool_decide; [done|]. eapply held_mono; [done..|]. intros o O K. simpl.
  destruct (decide (id = n)) as [->|N]; [|exists o; by rewrite lookup_insert_ne].
  rewrite L in O. injection O as <-. exists (with_status KS_FLATTENING k). rewrite lookup_insert_eq.
  split_and!; [done..|]. apply armed_status; [set_solver|done].
Qed.
Lemma held_complete account id lost now n status unresolved s :
  status ∈ [KS_COMPLETE; KS_UNRESOLVED; KS_RECONCILING] ->
  held account id lost s -> held account id lost (update_operation_completion now n status unresolved s).
Proof.
  intros S H. unfold update_operation_completion. destruct (ks_ops s !! n) as [k|] eqn:L; [|done].
  destruct (_ && _); [done|]. case_bool_decide; [done|]. eapply held_mono; [done..|]. intros o O K. simpl.
  destruct (decide (id = n)) as [->|N]; [|exists o; by rewrite lookup_insert_ne].
  rewrite L in O. injection O as <-. exists (completed_row now status unresolved k). rewrite lookup_insert_eq.
  split_and!; [done..|]. apply (armed_status status k); [set_solver|done].
Qed.
Lemma held_restart account id lost ok s :
  held account id lost s -> held account id (negb ok) (restart_kill_switch ok s).
Proof.
  intros [_ O]. destruct ok; (split; [|exact O]); [|done]. intros _. apply bool_decide_eq_true_2. simpl.
  destruct O as (o & L & A & K). apply accounts_where_elem. eauto.
Qed.
Lemma held_clear account id lost now a by_ scope ok s :
  a <> account -> held account id lost s -> held account id lost (clear_account_kill_switch now a by_ scope ok s).1.
Proof.
  intros N [B (o & L & A & K)]. destruct ok; [|split; eauto]. split.
  - intros Hl. specialize (B Hl). apply bool_decide_eq_true_1 in B. apply bool_decide_eq_true_2. simpl. destruct scope as [[]|]; set_solver.
  - exists o. split; [|done]. simpl. rewrite lookup_fmap, L. simpl. unfold clears.
    by rewrite (proj2 (Z.eqb_neq _ _)) by congruence.
Qed.
#[local] Hint Resolve held_initiate held_arm held_manual held_begin held_complete held_restart held_clear : core.
Lemma held_step account id x y :
  ks_step account x y -> held account id x.2 x.1 -> held account id y.2 y.1.
Proof.
  intros [] Hd; simpl in *; eauto.
  - by eapply held_cache.
  - eapply held_cache; [done..|]. by match goal with E : ks_cache _ = _ |- _ => rewrite E end.
Qed.

(** C17: Only an operator's clear re-opens an account: while an operation of the
    engine or account scope is armed it stays armed, whatever happens to the
    kill switch -- repeated requests, flatten workers, completed or unresolved
    operations, failing commits and restarts -- and new OPENs stay blocked,
    unless the last restart could not read the operations back: then the
    process runs with empty caches and the gate is open ([lost_caches_open]). *)
Theorem armed_until_cleared (account id : Z) (s s' : KillState) (lost : bool) :
  held account id false s -> rtc (ks_step account) (s, false) (s', lost) ->
  (exists o, ks_ops s' !! id = Some o /\ op_account_id o = account /\ op_armed o = true)
  /\ (lost = false -> is_account_kill_switch_active s' account = true).
Proof.
  intros H R.
  assert (K : forall x y, rtc (ks_step account) x y -> held account id x.2 x.1 -> held account id y.2 y.1)
    by (induction 1; eauto using held_step).
  destruct (K _ _ R H) as [B (o & L & A & [Ar _]%andb_true_iff)]. simpl in *. eauto.
Qed.

(** ** One operation per account and scope *)
Definition one_armed (s : KillState) : Prop := forall i j o k,
  ks_ops s !! i = Some o -> ks_ops s !! j = Some k -> op_armed o = true -> op_armed k = true ->
  op_account_id o = op_account_id k -> op_scope o = op_scope k -> i = j.
Lemma insert_one_armed o s s' : one_armed s -> insert_operation o s = Ok s' -> one_armed s'.
Proof.
  intros U I. unfold insert_operation in I. case_bool_decide as C; [|done]. injection I as <-.
  assert (F : forall i k, ks_ops s !! i = Some k -> index_conflict o k = false).
  { intros i k L. destruct (index_conflict o k) eqn:E; [|done]. exfalso.
    assert (I : k ∈ ops_where (index_conflict o) s) by (apply ops_where_elem; eauto).
    rewrite C in I. by apply not_elem_of_nil in I. }
  assert (X : forall i k, ks_ops s !! i = Some k -> op_armed o = true -> op_armed k = true ->
            op_account_id o = op_account_id k -> op_scope o = op_scope k -> False).
  { intros i k L A A' E E'. apply F in L. unfold index_conflict in L.
    rewrite A, A', (proj2 (Z.eqb_eq _ _)), bool_decide_eq_true_2 in L by done. done. }
  intros i j k l Lk Ll Ak Al E E'. simpl in *.
  destruct (decide (i = op_id o)) as [->|Ni], (decide (j = op_id o)) as [->|Nj]; [done| | |].
  - rewrite lookup_insert_eq in Lk. rewrite lookup_insert_ne in Ll by done. injection Lk as <-.
    by destruct (X j l).
  - rewrite lookup_insert_eq in Ll. rewrite lookup_insert_ne in Lk by done. injection Ll as <-.
    by destruct (X i k).
  - rewrite lookup_insert_ne in Lk, Ll by done. by eapply (U i j).
Qed.
Lemma existing_unique account scope statuses s i o :
  one_armed s -> (forall st, st ∈ statuses -> st ∈ ARMED_STATUSES) ->
  ks_ops s !! i = Some o -> op_account_id o = account -> op_scope o = scope -> op_status o ∈ statuses ->
  existing_op account scope statuses s = Some o.
Proof.
  intros U A L <- <- S. destruct (existing_op _ _ _ _) as [k|] eqn:E.
  - apply existing_spec in E as (Ea & Es & St & j & Lk). f_equal.
    assert (i = j) as ->; [|congruence].
    eapply (U i j o k); [done|done| | |done|done]; apply bool_decide_eq_true_2; by apply A.
  - exfalso. unfold existing_op in E. apply head_None in E.
    assert (I : o ∈ ops_where (fun k => (op_account_id k =? op_account_id o)
        && bool_decide (op_scope k = op_scope o) && bool_decide (op_status k ∈ statuses)) s).
    { apply ops_where_elem. split; [|eauto]. by rewrite Z.eqb_refl, !bool_decide_eq_true_2. }
    rewrite E in I. by apply not_elem_of_nil in I.
Qed.

(** An unresolved flatten is never sent again: while an account's engine
    operation is UNRESOLVED, a new square-off returns that operation and
    starts nothing, its worker does nothing, a restart does not resume it, and
    the sweeps only read the ledger; so until an operator clears the account,
    and with it re-opens it, no order goes out for what is left. *)
Theorem unresolved_not_resent (s : KillState) (id now account n : Z) (by_ ibkr : string) (ok : bool)
    (o : Operation) :
  one_armed s -> ks_ops s !! id = Some o -> op_id o = id -> op_account_id o = account ->
  op_scope o = SCOPE_ENGINE -> op_status o = KS_UNRESOLVED -> ks_accounts s !! account = Some ibkr ->
  initiate_square_off n now account by_ ok s = (s, Ok (o, false))
  /\ begin_flatten now id s = (s, None)
  /\ (o ∉ ops_where (fun k => bool_decide (op_status k ∈ RESUME_STATUSES)) s)
  /\ (retry_kind s o = RetryTier2 id \/ retry_kind s o = RetrySnapshot id).
Proof.
  intros U L I A Sc St Ib. split_and!.
  - unfold initiate_square_off. rewrite Ib.
    rewrite (existing_unique _ _ _ s id o U (fun _ H => H) L A Sc); [done|]. rewrite St. set_solver.
  - unfold begin_flatten. rewrite L, bool_decide_eq_true_2; [done|]. rewrite St. set_solver.
  - intros [E _]%ops_where_elem. apply bool_decide_eq_true_1 in E. rewrite St in E. set_solver.
  - unfold retry_kind. rewrite Sc, I. destruct (has_snapshot id s); auto.
Qed.

(** A manual square-off works once: when an earlier one has ended, COMPLETE or
    UNRESOLVED, the next request is refused by the unique index. *)
Theorem manual_square_off_once (s : KillState) (id now account n : Z) (by_ ibkr : string) (ok : bool)
    (o : Operation) :
  one_armed s -> ks_ops s !! id = Some o -> op_account_id o = account -> op_scope o = SCOPE_MANUAL ->
  op_status o ∈ [KS_FLAT; KS_COMPLETE; KS_UNRESOLVED] -> ks_accounts s !! account = Some ibkr ->
  initiate_manual_square_off n now account by_ ok s = (s, Raise (OtherError "IntegrityError")).
Proof.
  intros U L A Sc St Ib. unfold initiate_manual_square_off. rewrite Ib.
  assert (Ar : op_armed o = true) by (apply bool_decide_eq_true_2; set_solver).
  assert (X : forall st l, st ∈ [KS_ACTIVATING; KS_COMPLETE] ->
    insert_operation (new_operation n now account ibkr SCOPE_MANUAL st by_ l) s = Raise (OtherError "IntegrityError")).
  { intros st l S. unfold insert_operation. rewrite bool_decide_eq_false_2; [done|]. intros E.
    assert (I : o ∈ ops_where (index_conflict (new_operation n now account ibkr SCOPE_MANUAL st by_ l)) s).
    { apply ops_where_elem. split; [|eauto]. unfold index_conflict. simpl.
      assert (An : op_armed (new_operation n now account ibkr SCOPE_MANUAL st by_ l) = true)
        by (apply bool_decide_eq_true_2; simpl; set_solver).
      by rewrite An, Ar, A, Z.eqb_refl, Sc, bool_decide_eq_true_2. }
    rewrite E in I. by apply not_elem_of_nil in I. }
  destruct (existing_op _ _ _ _) as [k|] eqn:E.
  - exfalso. apply existing_spec in E as (Ea & Es & Sk & j & Lk).
    assert (id = j) as ->.
    { eapply (U id j o k); [done|done|done| |congruence|congruence]. apply bool_decide_eq_true_2. set_solver. }
    rewrite L in Lk. injection Lk as Lk. subst k. unfold MANUAL_FLATTEN_ACTIVE_STATUSES in Sk.
    rewrite !elem_of_cons, elem_of_nil in St. rewrite !elem_of_cons, elem_of_nil in Sk. intuition congruence.
  - destruct (manual_positions_of _ _ _); rewrite X by set_solver; done.
Qed.

(** A completion counts within the initial positions and never takes an
    operation out of COMPLETE or CLEARED. *)
Lemma completion_stays (now id : Z) (status : KsStatus) (unresolved : Z) (s : KillState) (o : Operation) :
  ks_ops s !! id = Some o -> 0 <= unresolved -> 0 <= op_flattened_count o <= op_initial_position_count o ->
  exists o', ks_ops (update_operation_completion now id status unresolved s) !! id = Some o'
    /\ 0 <= op_flattened_count o' <= op_initial_position_count o'
    /\ (op_status o = KS_COMPLETE -> op_status o' = KS_COMPLETE)
    /\ (op_status o = KS_CLEARED -> o' = o).
Proof.
  intros L U [F1 F2]. unfold update_operation_completion. rewrite L.
  destruct (bool_decide (op_status o = KS_COMPLETE) && _) eqn:C; [exists o; by split_and!|].
  destruct (bool_decide (op_status o = KS_CLEARED)) eqn:D; [exists o; by split_and!|].
  exists (completed_row now status unresolved o). simpl. rewrite lookup_insert_eq.
  split_and!; [done|lia|lia| |intros E; by rewrite E in D].
  intros E. rewrite E in C. by destruct (bool_decide_reflect (status = KS_COMPLETE)).
Qed.

(** ** Examples *)
Definition ex_ks_position : PositionModel := {|
  p_account_id := 7; p_trade_id := "T1"; p_strategy_id := "model_blue"; p_leg_a_symbol := "SPY";
  p_leg_a_signed_qty := 10; p_leg_a_entry_mark := 500; p_leg_b_symbol := Some "QQQ"%string;
  p_leg_b_signed_qty := Some (-12)%Q; p_leg_b_entry_mark := Some 400%Q; p_realised_pnl := 0;
  p_commission := 0; p_live_pnl := 0; p_target := 500; p_stop := 300; p_time_limit := 5;
  p_target_unit := "ABSOLUTE"; p_stop_unit := "ABSOLUTE"; p_exit_reason := None;
  p_exit_automation_enabled := false; p_leg_a_instrument_type := "STK";
  p_leg_b_instrument_type := Some "STK"%string; p_opened_at := 10; p_closed_at := None;
  p_risk_state := RISK_STATE_OPEN |}.
Definition ex_kill : KillState := {|
  ks_accounts := {[ 7 := "DU7"%string ]}; ks_ops := ∅; ks_snapshots := [];
  ks_positions := {[ (7, "T1"%string) := ex_ks_position ]}; ks_manual := empty_book; ks_cache := ∅;
  ks_manual_cache := ∅ |}.
(** The emergency webhook arms an account without sending orders; its
    operation is left ACTIVATING, and the next restart hands it to the worker
    that sends them. *)
Example armed_only_flattens_after_restart :
  let s := (arm_account_kill_switch_only 1 20 7 "emergency_webhook" true ex_kill).1 in
  let s := (hydrate_kill_switch_cache true s).1 in
  resume_incomplete_flattens s = [ResumeEngine 1]
  /\ option_map op_status (begin_flatten 30 1 s).2 = Some KS_FLATTENING
  /\ length (open_positions_of 7 s) = 1%nat.
Proof. by vm_compute. Qed.
(** Clearing one scope opens the gate although the other scope is armed, until
    a restart shuts it again. *)
Example scoped_clear_opens :
  let s := (arm_account_kill_switch_only 1 20 7 "emergency_webhook" true ex_kill).1 in
  let s := (clear_account_kill_switch 30 7 "op" (Some SCOPE_ENGINE) true s).1 in
  is_account_kill_switch_active s 7 = false
  /\ is_account_kill_switch_active (hydrate_kill_switch_cache true s).1 7 = true.
Proof. by vm_compute. Qed.

Definition ex_armed : KillState := (initiate_square_off 1 20 7 "operator" true ex_kill).1.
Definition ex_unresolved : KillState :=
  update_operation_completion 40 1 KS_UNRESOLVED 1 (begin_flatten 30 1 ex_armed).1.
Definition ex_op (status : KsStatus) (scope : KsScope) : Operation :=
  with_status status (new_operation 1 20 7 "DU7" scope status "operator" 0).
Lemma ex_single_op o s : one_armed (set_ops {[ 1 := o ]} s).
Proof.
  intros i j k l Lk Ll _ _ _ _. simpl in *. apply lookup_singleton_Some in Lk as [<- _].
  by apply lookup_singleton_Some in Ll as [<- _].
Qed.
(** A restart that cannot read the operations opens the gate: the operation is
    still armed in the database, and its account takes new OPENs. *)
Example lost_caches_open :
  let s := restart_kill_switch false ex_unresolved in
  is_account_kill_switch_active ex_unresolved 7 = true
  /\ is_account_kill_switch_active s 7 = false
  /\ is_Some (get_armed_kill_switch_operation 7 None s).
Proof. split; [by vm_compute|]. split; [by vm_compute|]. vm_compute. eauto. Qed.
Lemma armed_until_cleared_witness :
  is_account_kill_switch_active (restart_kill_switch true ex_unresolved) 7 = true.
Proof.
  apply (armed_until_cleared 7 1 ex_armed (restart_kill_switch true ex_unresolved) false).
  - split; [by vm_compute|]. eexists. split_and!; [by vm_compute|by vm_compute|by vm_compute].
  - eapply rtc_l; [apply (Begins 7 30 1)|].
    eapply rtc_l; [apply (Completes 7 40 1 KS_UNRESOLVED 1); set_solver|].
    apply rtc_once, (Restarts 7 true).
  - reflexivity.
Defined.
Lemma unresolved_not_resent_witness :
  let o := ex_op KS_UNRESOLVED SCOPE_ENGINE in
  initiate_square_off 2 50 7 "operator" true (set_ops {[ 1 := o ]} ex_kill)
  = (set_ops {[ 1 := o ]} ex_kill, Ok (o, false)).
Proof.
  intros o.
  apply (unresolved_not_resent (set_ops {[ 1 := o ]} ex_kill) 1 50 7 2 "operator" "DU7" true o);
    [apply ex_single_op|by vm_compute..].
Defined.
Lemma manual_square_off_once_witness :
  let s := set_ops {[ 1 := ex_op KS_COMPLETE SCOPE_MANUAL ]} ex_kill in
  initiate_manual_square_off 2 50 7 "operator" true s = (s, Raise (OtherError "IntegrityError")).
Proof.
  intros s.
  apply (manual_square_off_once s 1 50 7 2 "operator" "DU7" true (ex_op KS_COMPLETE SCOPE_MANUAL));
    [apply ex_single_op|by vm_compute|by vm_compute|by vm_compute| |by vm_compute]. simpl. set_solver.
Defined.
