(* ===== verification/ManualTrading.v ===== *)
(** * Manual trading: the service of [services/manual_trading.py]

    Validation, durable submission and cancellation of an operator's orders.
    What the database and the gateway answer is given; every commit is a point
    at which the process may stop. *)

From S2P Require Import Prelude Rounding PyText PyTime Identifiers RmsModels Accounts TradeBook Positions TradeExecutions ManualLedger ManualCallbacks KillSwitch TradingPause.

#[local] Open Scope Q_scope.
#[local] Open Scope py_scope.
#[local] Set Warnings "-clear-no-such-hyp".

(** [ManualOrderSubmitRequest]; a missing [min_tick] is [None]. *)
Record ManualRequest : Type := {
  rq_idempotency_key : string;
  rq_symbol : string;
  rq_con_id : Z;
  rq_sec_type : string;
  rq_exchange : string;
  rq_currency : string;
  rq_side : string;
  rq_quantity : Q;
  rq_order_type : string;
  rq_limit_price : option Q;
  rq_tif : string;
  rq_min_tick : option Q;
  rq_trade_id : option string
}.
(** What the gates look at. *)
Record DeskGates : Type := { dk_connected : bool; dk_kill : KillState; dk_pause : PauseState }.

(** ** Validation *)
Inductive GateRefusal : Type :=
  | Disconnected | AccountDisabled | ManuallyHalted (reason : string) | KillSwitchActive
  | ManualKillSwitchActive | ArmedOperation (s : KsStatus) | ActiveManualOperation (s : KsStatus)
  | TradingPaused | BadSecType | BadConId | NoSymbol | NoExchange | NoCurrency | StopNotExecutable
  | UnsupportedType | BadQuantity | NoLimitPrice | OffTick.
Definition refuse (c : bool) (r : GateRefusal) : list GateRefusal := if c then [r] else [].

Definition kill_gate (d : DeskGates) (account : Z) : list GateRefusal :=
  if is_account_kill_switch_active (dk_kill d) account then [KillSwitchActive]
  else if is_manual_kill_switch_active (dk_kill d) account then [ManualKillSwitchActive]
  else match get_armed_kill_switch_operation account None (dk_kill d) with
       | Some o => [ArmedOperation (op_status o)]
       | None => match get_active_manual_kill_switch_operation account (dk_kill d) with
                 | Some o => [ActiveManualOperation (op_status o)]
                 | None => []
                 end
       end.
(** The open position an order of a paused account would reduce: listed from
    the latest. *)
Definition newest_first (l : list ManualPosition) : list ManualPosition :=
  let later p k := (mp_opened_at k <? mp_opened_at p)%Z
                   || (mp_opened_at k =? mp_opened_at p)%Z && (mp_id k <? mp_id p)%Z in
  let fix insert p l := match l with
                        | [] => [p]
                        | k :: l' => if later p k then p :: l else k :: insert p l'
                        end in
  fold_right insert [] l.
Definition reduced_position (account : Z) (r : ManualRequest) (b : ManualBook) : option ManualPosition :=
  List.find (fun p => (negb (str_empty (opt_str (rq_trade_id r))) && String.eqb (mp_trade_id p) (opt_str (rq_trade_id r)))
                      || (String.eqb (mp_symbol p) (norm_text (rq_symbol r)) && (mp_con_id p =? rq_con_id r)%Z))
    (newest_first (list_open_for_account account b)).
Definition is_reducing (account : Z) (r : ManualRequest) (b : ManualBook) : bool :=
  match reduced_position account r b with
  | Some p => (0 <? mp_signed_qty p) && String.eqb (rq_side r) "SELL" && (rq_quantity r <=? mp_signed_qty p)
              || (mp_signed_qty p <? 0) && String.eqb (rq_side r) "BUY" && (rq_quantity r <=? dabs (mp_signed_qty p))
  | None => false
  end.
Definition paused (d : DeskGates) (account : Z) : bool :=
  is_account_trading_paused (dk_pause d) account || (get_pause_status account (dk_pause d)).2.
(** [ticks] is an integer up to 1e-5. *)
Definition on_tick (price tick : Q) : bool :=
  let ticks := ddiv price (repr_dec tick) in
  dabs (dsub ticks (inject_Z (half_even ticks))) <=? (1 # 100000).
Definition price_gate (r : ManualRequest) : list GateRefusal :=
  if String.eqb (norm_text (rq_order_type r)) "LIMIT" then
    match rq_limit_price r with
    | Some p =>
        if p <=? 0 then [NoLimitPrice]
        else match rq_min_tick r with
             | Some t => refuse ((0 <? t) && negb (on_tick p t)) OffTick
             | None => []
             end
    | None => [NoLimitPrice]
    end
  else [].
Definition validate_pretrade (d : DeskGates) (a : AccountRow) (r : ManualRequest) (b : ManualBook) : list GateRefusal :=
  refuse (negb (dk_connected d)) Disconnected
  ++ refuse (negb (ar_enabled a)) AccountDisabled
  ++ match get_halt_state (ar_id a) b with
     | Some h => refuse (mh_halted h) (ManuallyHalted (str_or (opt_str (mh_reason h)) "No reason provided"))
     | None => []
     end
  ++ kill_gate d (ar_id a)
  ++ refuse (paused d (ar_id a) && negb (is_reducing (ar_id a) r b)) TradingPaused
  ++ refuse (negb (String.eqb (rq_sec_type r) "CFD")) BadSecType
  ++ refuse (rq_con_id r <=? 0)%Z BadConId
  ++ refuse (str_empty (str_strip (rq_symbol r))) NoSymbol
  ++ refuse (str_empty (str_strip (rq_exchange r))) NoExchange
  ++ refuse (str_empty (str_strip (rq_currency r))) NoCurrency
  ++ (let t := norm_text (rq_order_type r) in
      if String.eqb t "STOP" then [StopNotExecutable]
      else refuse (negb (bool_decide (t ∈ ["LIMIT"; "MARKET"]))) UnsupportedType)
  ++ refuse (rq_quantity r <=? 0) BadQuantity
  ++ price_gate r.

(** ** Submission *)
(** A call of [placeOrder]. *)
Record Placed : Type := {
  pl_broker_id : Z;
  pl_con_id : Z;
  pl_symbol : string;
  pl_action : string;
  pl_quantity : Q;
  pl_type : string;
  pl_limit : option Q;
  pl_tif : string;
  pl_account : string;
  pl_ref : string
}.
Inductive Response : Type :=
  | Submitted (o : ManualOrder) | Replayed (o : ManualOrder)
  | HttpError (code : Z) | ServerError (e : exn).

(** An order of the same key with the same parameters. *)
Definition is_same_param (r : ManualRequest) (o : ManualOrder) : bool :=
  let trade := str_strip (opt_str (rq_trade_id r)) in
  (mo_con_id o =? rq_con_id r)%Z && String.eqb (mo_symbol o) (norm_text (rq_symbol r))
  && String.eqb (mo_side o) (rq_side r) && Qeq_bool (mo_quantity o) (rq_quantity r)
  && String.eqb (mo_order_type o) (rq_order_type r)
  && match mo_limit_price o, rq_limit_price r with
     | Some x, Some y => Qeq_bool x y
     | None, None => true
     | _, _ => false
     end
  && String.eqb (mo_tif o) (norm_text (rq_tif r)) && String.eqb (mo_exchange o) (norm_text (rq_exchange r))
  && String.eqb (mo_currency o) (norm_text (rq_currency r))
  && String.eqb (mo_sec_type o) (norm_text (rq_sec_type r))
  && (str_empty trade || String.eqb (str_strip (mo_trade_id o)) trade).
Definition replay (r : ManualRequest) (o : ManualOrder) : Response :=
  if is_same_param r o then Replayed o else HttpError 409.

(** What the run of one submission meets: the random parts of the two names,
    the commits that succeed, the connection after the first, the pacing, the
    order id, the placement. *)
Record Weather : Type := {
  wt_order_hex : string;
  wt_trade_hex : string;
  wt_commits : nat;
  wt_connected : bool;
  wt_paced : bool;
  wt_order_id : option Z;
  wt_placed : bool
}.
Definition requested_order (a : AccountRow) (key : string) (w : Weather) (r : ManualRequest) : ManualOrder := {|
  mo_id := 0; mo_account_id := ar_id a; mo_ibkr_account := ar_ibkr_account a; mo_idempotency_key := key;
  mo_internal_order_id := "MAN_" ++ wt_order_hex w;
  mo_trade_id := if str_empty (opt_str (rq_trade_id r)) then "TRD_" ++ wt_trade_hex w
                 else str_strip (opt_str (rq_trade_id r));
  mo_broker_order_id := None; mo_perm_id := None; mo_con_id := rq_con_id r;
  mo_symbol := norm_text (rq_symbol r); mo_sec_type := "CFD";
  mo_exchange := str_or (norm_text (rq_exchange r)) "SMART";
  mo_currency := str_or (norm_text (rq_currency r)) "USD"; mo_side := rq_side r;
  mo_quantity := rq_quantity r; mo_order_type := rq_order_type r; mo_limit_price := rq_limit_price r;
  mo_tif := str_or (norm_text (rq_tif r)) "DAY"; mo_status := MO_PENDING_SUBMIT; mo_source := "manual";
  mo_reject_reason := None; mo_submitted_at := None; mo_completed_at := None |}.
Definition placed_order (a : AccountRow) (broker : Z) (o : ManualOrder) (r : ManualRequest) : Placed := {|
  pl_broker_id := broker; pl_con_id := rq_con_id r; pl_symbol := norm_text (rq_symbol r);
  pl_action := norm_text (rq_side r); pl_quantity := fl (rq_quantity r);
  pl_type := if String.eqb (rq_order_type r) "LIMIT" then "LMT" else "MKT";
  pl_limit := if String.eqb (rq_order_type r) "LIMIT" then option_map fl (rq_limit_price r) else None;
  pl_tif := str_or (norm_text (rq_tif r)) "DAY"; pl_account := ar_ibkr_account a;
  pl_ref := mo_internal_order_id o |}.
Definition db_lost : exn := OtherError "DBAPIError".
(** A failure that is written down: the order ends as ERROR. *)
Definition fail_order (o : ManualOrder) (reason : string) (code : Z) (ok : bool) (b : ManualBook)
    : ManualBook * Response :=
  if ok then (fst (update_order_status (mo_id o) (with_reason reason (to_status MO_ERROR)) b), HttpError code)
  else (b, ServerError db_lost).
(** From the durable row to the gateway and back. *)
Definition transmit (now : Z) (a : AccountRow) (w : Weather) (r : ManualRequest) (o : ManualOrder)
    (b : ManualBook) : ManualBook * list Placed * Response :=
  let more n := (n <=? wt_commits w)%nat in
  if negb (wt_connected w) then
    let '(b, e) := fail_order o "Gateway disconnected before order placement" 503 (more 2%nat) b in (b, [], e)
  else if negb (wt_paced w) then
    let '(b, e) := fail_order o "Gateway rate limiter timeout" 504 (more 2%nat) b in (b, [], e)
  else match wt_order_id w with
       | None => let '(b, e) := fail_order o "Order ID allocation failed" 500 (more 2%nat) b in (b, [], e)
       | Some id =>
           if negb (more 2%nat) then (b, [], ServerError db_lost)
           else
             let b := change_order (mo_id o)
                        (updated_order (with_broker (Some (str_Z id)) (to_status MO_PENDING_SUBMIT))) b in
             if negb (wt_placed w) then
               let '(b, e) := fail_order o "placeOrder exception" 502 (more 3%nat) b in (b, [], e)
             else
               let sent := [placed_order a id o r] in
               if negb (more 3%nat) then (b, sent, ServerError db_lost)
               else
                 let '(b, row) := update_order_status (mo_id o)
                   {| up_status := MO_SUBMITTED; up_broker_order_id := Some (str_Z id); up_perm_id := None;
                      up_submitted_at := Some now; up_completed_at := None; up_reject_reason := None |} b in
                 (record_event (ar_id a) "MANUAL_ORDER_SUBMITTED" (Some (mo_internal_order_id o)) b, sent,
                  Submitted (default o row))
       end.
(** [submit_manual_order]: [seen] is the ledger the barrier reads, [b] the one the
    insert meets, when another request may have come first. *)
Definition submit_manual_order (now : Z) (d : DeskGates) (a : AccountRow) (w : Weather) (r : ManualRequest)
    (seen b : ManualBook) : ManualBook * list Placed * Response :=
  match validate_pretrade d a r seen with
  | _ :: _ => (b, [], HttpError 400)
  | [] =>
      let key := str_strip (rq_idempotency_key r) in
      match manual_by_idempotency_key (ar_id a) key seen with
      | Some o => (b, [], replay r o)
      | None =>
          match create_order (requested_order a key w r) b with
          | Ok (b', o) =>
              if (1 <=? wt_commits w)%nat then transmit now a w r o b' else (b, [], ServerError db_lost)
          | Raise (OtherError "IntegrityError") =>
              match manual_by_idempotency_key (ar_id a) key b with
              | Some o => (b, [], replay r o)
              | None => (b, [], ServerError (OtherError "IntegrityError"))
              end
          | Raise e => (b, [], ServerError e)
          end
      end
  end.

(** ** Cancellation *)
Inductive CancelResponse : Type := AlreadyCancelled | CancelledLocally | CancelRequested | CancelError (code : Z).
(** The ledger, the broker order the gateway is asked to cancel, the answer. *)
Definition cancel_order (now account id : Z) (connected paced sent_ok : bool) (b : ManualBook)
    : ManualBook * option string * CancelResponse :=
  match get_by_id id (Some account) b with
  | None => (b, None, CancelError 404)
  | Some o =>
      let request := Some (mo_internal_order_id o) in
      match mo_status o with
      | MO_CANCELLED => (b, None, AlreadyCancelled)
      | MO_FILLED | MO_REJECTED | MO_ERROR =>
          (record_event account "MANUAL_ORDER_CANCEL_REJECTED" request b, None, CancelError 400)
      | _ =>
          if str_empty (opt_str (mo_broker_order_id o)) then
            if bool_decide (mo_status o = MO_PENDING_SUBMIT) then
              let u := with_reason "Cancelled by operator prior to broker submission"
                         (with_completed (Some now) (to_status MO_CANCELLED)) in
              (record_event account "MANUAL_ORDER_CANCELLED" request (fst (update_order_status (mo_id o) u b)), None,
               CancelledLocally)
            else (b, None, CancelError 500)
          else if negb connected then (b, None, CancelError 503)
          else if negb paced then (b, None, CancelError 504)
          else if negb sent_ok then (b, mo_broker_order_id o, CancelError 502)
          else (record_event account "MANUAL_ORDER_CANCEL_REQUESTED" request b, mo_broker_order_id o, CancelRequested)
      end
  end.
