(* ===== verification/ManualFlatten.v ===== *)
(** * The flatten of manual positions: [_execute_manual_flatten_operation],
    [_flatten_single_manual_position] and [_reconcile_and_finalize_manual] of
    [services/kill_switch.py]

    One market order per position of the snapshot, under a key of its own; then
    the positions are settled from their executions and the broker's
    quantities.  What the broker holds and what the database and the gateway
    answer is given. *)

From S2P Require Import Prelude Rounding PyText PyTime Identifiers RmsModels Accounts TradeBook Positions TradeExecutions ManualLedger ManualCallbacks KillSwitch TradingPause ManualTrading.

#[local] Open Scope Q_scope.
#[local] Open Scope py_scope.
#[local] Set Warnings "-clear-no-such-hyp".

Definition set_manual (b : ManualBook) (s : KillState) : KillState := {|
  ks_accounts := ks_accounts s; ks_ops := ks_ops s; ks_snapshots := ks_snapshots s;
  ks_positions := ks_positions s; ks_manual := b; ks_cache := ks_cache s;
  ks_manual_cache := ks_manual_cache s |}.

(** A row of [broker_positions] of one account. *)
Record BrokerPosition : Type := { bp_symbol : string; bp_signed_qty : Q }.
Definition add_qty (symbol : string) (q : Q) (m : gmap string Q) : gmap string Q :=
  <[norm_text symbol := dadd (default 0 (m !! norm_text symbol)) q]> m.
Definition broker_quantities (l : list BrokerPosition) : gmap string Q :=
  fold_left (fun m p => add_qty (bp_symbol p) (bp_signed_qty p) m) l ∅.
Definition engine_quantities (l : list PositionModel) : gmap string Q :=
  fold_left (fun m p =>
    let m := if str_empty (p_leg_a_symbol p) then m else add_qty (p_leg_a_symbol p) (p_leg_a_signed_qty p) m in
    match p_leg_b_symbol p, p_leg_b_signed_qty p with
    | Some (String _ _ as s), Some q => add_qty s q m
    | _, _ => m
    end) l ∅.
Definition qty_at (m : gmap string Q) (symbol : string) : Q := default 0 (m !! norm_text symbol).

(** By opening time, those without one last, else as they were captured. *)
Definition fifo_before (x y : FlattenSnapshot) : bool :=
  match sn_opened_at x, sn_opened_at y with
  | Some a, Some b => (a <=? b)%Z
  | _, None => true
  | None, Some _ => false
  end.
Fixpoint fifo_insert (x : FlattenSnapshot) (l : list FlattenSnapshot) : list FlattenSnapshot :=
  match l with
  | [] => [x]
  | y :: l' => if fifo_before x y then x :: l else y :: fifo_insert x l'
  end.
Definition fifo (l : list FlattenSnapshot) : list FlattenSnapshot := fold_right fifo_insert [] l.
Definition snapshots_of (op : Z) (s : KillState) : list FlattenSnapshot :=
  List.filter (fun x => (sn_operation_id x =? op)%Z) (ks_snapshots s).
Definition is_manual (x : FlattenSnapshot) : bool :=
  match sn_body x with SnapManual _ _ _ _ _ _ _ => true | _ => false end.

Section Flatten.
(** The text of an operation's id. *)
Variable uuid_text : Z -> string.

Definition flatten_key (op : Z) (x : FlattenSnapshot) : string :=
  "killswitch-manual:" ++ uuid_text op ++ ":" ++ sn_trade_id x.
Definition flatten_internal_id (op : Z) (x : FlattenSnapshot) : string :=
  let tail := match sn_body x with
              | SnapManual (Some p) _ _ _ _ _ _ => if (p =? 0)%Z then sn_trade_id x else str_Z p
              | _ => sn_trade_id x
              end in
  let id := ("KILLSWITCH-MANUAL-" ++ uuid_text op ++ "-" ++ tail)%string in
  if (64 <? String.length id)%nat
  then String.substring 0 64 ("KSMAN-" ++ String.substring 0 8 (uuid_text op) ++ "-" ++ tail)%string else id.
(** The close order of what is left of a position. *)
Definition flatten_order (account : Z) (ibkr : string) (op : Z) (x : FlattenSnapshot) (p : ManualPosition)
    : ManualOrder :=
  let '(symbol, con, sec) := match sn_body x with
                             | SnapManual _ s c t _ _ _ => (opt_str s, default 0%Z c, str_or (opt_str t) "CFD")
                             | _ => (EmptyString, 0%Z, "CFD"%string)
                             end in
  {| mo_id := 0; mo_account_id := account; mo_ibkr_account := ibkr; mo_idempotency_key := flatten_key op x;
     mo_internal_order_id := flatten_internal_id op x; mo_trade_id := sn_trade_id x;
     mo_broker_order_id := None; mo_perm_id := None; mo_con_id := con; mo_symbol := symbol;
     mo_sec_type := sec; mo_exchange := "SMART"; mo_currency := "USD";
     mo_side := if 0 <? mp_signed_qty p then "SELL" else "BUY"; mo_quantity := dabs (mp_signed_qty p);
     mo_order_type := "MARKET"; mo_limit_price := None; mo_tif := "DAY"; mo_status := MO_PENDING_SUBMIT;
     mo_source := "manual"; mo_reject_reason := None; mo_submitted_at := None; mo_completed_at := None |}.
Definition flatten_placed (broker : Z) (ibkr : string) (o : ManualOrder) : Placed := {|
  pl_broker_id := broker; pl_con_id := mo_con_id o; pl_symbol := norm_text (mo_symbol o);
  pl_action := mo_side o; pl_quantity := fl (mo_quantity o); pl_type := "MKT"; pl_limit := None;
  pl_tif := "DAY"; pl_account := ibkr; pl_ref := mo_internal_order_id o |}.
Definition in_flight_order (o : ManualOrder) : bool :=
  bool_decide (mo_status o ∈ [MO_SUBMITTED; MO_FILLED; MO_PARTIALLY_FILLED]).
(** An error that is written down, when its transaction commits. *)
Definition flatten_error (o : ManualOrder) (reason : string) (ok : bool) (b : ManualBook)
    : ManualBook * result bool :=
  if ok then (fst (update_order_status (mo_id o) (with_reason reason (to_status MO_ERROR)) b), Ok false)
  else (b, Raise db_lost).
Definition flatten_transmit (now account : Z) (ibkr : string) (w : Weather) (o : ManualOrder) (b : ManualBook)
    : ManualBook * list Placed * result bool :=
  let more n := (n <=? wt_commits w)%nat in
  if negb (wt_connected w) then (b, [], Ok true)
  else if negb (wt_paced w) then
    let '(b, e) := flatten_error o "Rate limiter timeout" (more 2%nat) b in (b, [], e)
  else match wt_order_id w with
       | None => let '(b, e) := flatten_error o "Order ID allocation failed" (more 2%nat) b in (b, [], e)
       | Some id =>
           if negb (more 2%nat) then (b, [], Raise db_lost)
           else
             let b := fst (update_order_status (mo_id o) (with_broker (Some (str_Z id)) (to_status MO_PENDING_SUBMIT)) b) in
             if negb (wt_placed w) then
               let '(b, e) := flatten_error o "placeOrder failed" (more 3%nat) b in (b, [], e)
             else if negb (more 3%nat) then (b, [flatten_placed id ibkr o], Raise db_lost)
             else
               let b := fst (update_order_status (mo_id o)
                 {| up_status := MO_SUBMITTED; up_broker_order_id := Some (str_Z id); up_perm_id := None;
                    up_submitted_at := Some now; up_completed_at := None; up_reject_reason := None |} b) in
               (record_event account "MANUAL_KILL_SWITCH_ORDER_SUBMITTED" (Some (mo_internal_order_id o)) b,
                [flatten_placed id ibkr o], Ok true)
       end.
Definition flatten_single_manual_position (now account : Z) (ibkr : string) (op : Z) (w : Weather)
    (x : FlattenSnapshot) (b : ManualBook) : ManualBook * list Placed * result bool :=
  match position_of account (sn_trade_id x) b with
  | None => (b, [], Ok true)
  | Some p =>
      if bool_decide (mp_status p = MAN_CLOSED) || Qeq_bool (mp_signed_qty p) 0 then (b, [], Ok true)
      else
        let create :=
          match create_order (flatten_order account ibkr op x p) b with
          | Raise e => (b, [], Raise e)
          | Ok (b', o) =>
              if (1 <=? wt_commits w)%nat
              then flatten_transmit now account ibkr w o (change_order (mo_id o) (with_source "ks_manual") b')
              else (b, [], Raise db_lost)
          end in
        match manual_by_idempotency_key account (flatten_key op x) b with
        | Some o => if in_flight_order o then (b, [], Ok true) else create
        | None => create
        end
  end.
(** The orders of all positions of the snapshot; a failing one is logged. *)
Fixpoint flatten_manual_positions (now account : Z) (ibkr : string) (op : Z) (ws : FlattenSnapshot -> Weather)
    (l : list FlattenSnapshot) (b : ManualBook) : ManualBook * list Placed :=
  match l with
  | [] => (b, [])
  | x :: l =>
      let '(b, sent, _) := flatten_single_manual_position now account ibkr op (ws x) x b in
      let '(b, more) := flatten_manual_positions now account ibkr op ws l b in (b, sent ++ more)
  end.

(** ** Reconciliation *)
(** Notional, quantity and commission of some executions. *)
Definition exec_qty (l : list ManualExecution) : Q := dsum (map me_quantity l).
Definition exec_notional (l : list ManualExecution) : Q := dsum (map (fun e => dmul (me_quantity e) (me_price e)) l).
Definition exec_commission (l : list ManualExecution) : Q := dsum (map (fun e => default 0 (me_commission e)) l).
(** The profit of closing [qty] of a position at the average price. *)
Definition exit_pnl (signed avg qty : Q) (l : list ManualExecution) : Q :=
  let n := exec_qty l in
  let wavg := if 0 <? n then ddiv (exec_notional l) n else 0 in
  let gross := if 0 <? signed then dmul qty (dsub wavg avg) else dmul qty (dsub avg wavg) in
  dsub gross (exec_commission l).
Definition execs_of_orders (l : list ManualOrder) (b : ManualBook) : list ManualExecution :=
  List.filter (fun e => bool_decide (me_order_id e ∈ map mo_id l)) (mb_execs b).
Definition orders_of_trade (account : Z) (trade : string) (b : ManualBook) : list ManualOrder :=
  List.filter (fun o => (mo_account_id o =? account)%Z && String.eqb (mo_trade_id o) trade) (mb_orders b).

Inductive Settled : Type := Flattened | PendingPrice | StillOpen.
Definition close_position (now : Z) (pnl : Q) (p : ManualPosition) : ManualPosition :=
  moved_position 0 (mp_avg_cost p) pnl MAN_CLOSED (Some now) p.
Definition with_manual_status (st : ManualStatus) (p : ManualPosition) : ManualPosition :=
  moved_position (mp_signed_qty p) (mp_avg_cost p) (mp_realized_pnl p) st (mp_closed_at p) p.
(** The broker's evidence, for a position that its close orders do not settle. *)
Definition settle_by_broker (now : Z) (any_rows : bool) (broker engine : gmap string Q) (symbol : string)
    (signed avg : Q) (execs : list ManualExecution) (p : ManualPosition) : ManualPosition * Settled :=
  if Qeq_bool (qty_at broker symbol) (qty_at engine symbol) && any_rows then
    match execs with
    | [] => (with_manual_status MAN_FLATTENED_PENDING_PRICE p, PendingPrice)
    | _ => if dabs signed <=? exec_qty execs
           then (close_position now (exit_pnl signed avg (dabs signed) execs) p, Flattened)
           else (p, StillOpen)
    end
  else (p, StillOpen).
Definition settle_position (now : Z) (any_rows : bool) (broker engine : gmap string Q) (account : Z)
    (x : FlattenSnapshot) (b : ManualBook) (p : ManualPosition) : ManualPosition * Settled :=
  let '(symbol, signed, avg) := match sn_body x with
                                | SnapManual _ s _ _ _ q a => (opt_str s, default 0 q, default 0 a)
                                | _ => (EmptyString, 0, 0)
                                end in
  let req := dabs signed in
  let trade := orders_of_trade account (sn_trade_id x) b in
  let closes := List.filter (fun o => String.eqb (mo_source o) "ks_manual") trade in
  let filled := List.filter (fun o => bool_decide (mo_status o = MO_FILLED)) closes in
  let partly := List.filter (fun o => bool_decide (mo_status o = MO_PARTIALLY_FILLED)) closes in
  let by_broker p := settle_by_broker now any_rows broker engine symbol signed avg (execs_of_orders trade b) p in
  match filled, partly with
  | _ :: _, _ =>
      let execs := execs_of_orders filled b in
      match execs with
      | [] => (with_manual_status MAN_FLATTENED_PENDING_PRICE p, PendingPrice)
      | _ => if (req <=? exec_qty execs) && negb (bool_decide (mp_status p = MAN_CLOSED))
             then (close_position now (exit_pnl signed avg req execs) p, Flattened)
             else by_broker p
      end
  | [], _ :: _ =>
      let execs := execs_of_orders partly b in
      let done := exec_qty execs in
      let rem := dsub req done in
      let p := if (0 <? done) && negb (bool_decide (execs = []))
               then moved_position (dmul (if 0 <? signed then 1 else -(1)) rem) (mp_avg_cost p)
                      (exit_pnl signed avg done execs) MAN_CLOSING (mp_closed_at p) p
               else p in
      if 0 <? rem then (p, StillOpen) else by_broker p
  | [], [] => by_broker p
  end.
(** One position of the snapshot; the number of those left unsettled. *)
Definition reconcile_one (now : Z) (any_rows : bool) (broker engine : gmap string Q) (account : Z)
    (x : FlattenSnapshot) (b : ManualBook) : result (ManualBook * Z) :=
  match position_of account (sn_trade_id x) b with
  | None => Ok (b, 0%Z)
  | Some p =>
      if is_closed p then Ok (b, 0%Z)
      else
        let '(p', r) := settle_position now any_rows broker engine account x b p in
        let! stored := store_position p' in
        Ok (change_position account (sn_trade_id x) stored b,
            match r with Flattened => 0%Z | _ => 1%Z end)
  end.
Fixpoint reconcile_all (now : Z) (any_rows : bool) (broker engine : gmap string Q) (account : Z)
    (l : list FlattenSnapshot) (b : ManualBook) : result (ManualBook * Z) :=
  match l with
  | [] => Ok (b, 0%Z)
  | x :: l =>
      let! (b, n) := reconcile_one now any_rows broker engine account x b in
      let! (b, m) := reconcile_all now any_rows broker engine account l b in Ok (b, (n + m)%Z)
  end.
Definition reconcile_and_finalize_manual (now op account : Z) (rows : list BrokerPosition) (s : KillState)
    : result KillState :=
  match fifo (List.filter is_manual (snapshots_of op s)) with
  | [] => Ok (disarm_manual_cache account (update_operation_completion now op KS_COMPLETE 0 s))
  | l =>
      let! (b, unresolved) := reconcile_all now (negb (bool_decide (rows = []))) (broker_quantities rows)
                                (engine_quantities (open_positions_of account s)) account l (ks_manual s) in
      let s := set_manual b s in
      let s := if (unresolved =? 0)%Z then disarm_manual_cache account s else s in
      Ok (update_operation_completion now op
            (if (unresolved =? 0)%Z then KS_COMPLETE else KS_UNRESOLVED) unresolved s)
  end.
(** The worker; what the broker holds when it reconciles is given. *)
Definition execute_manual_flatten_operation (now op : Z) (ws : FlattenSnapshot -> Weather) (rows : list BrokerPosition)
    (s : KillState) : KillState * list Placed * result unit :=
  match begin_flatten now op s with
  | (s, None) => (s, [], Ok tt)
  | (s, Some o) =>
      match List.filter is_manual (snapshots_of op s) with
      | [] => (disarm_manual_cache (op_account_id o) (update_operation_completion now op KS_COMPLETE 0 s), [], Ok tt)
      | l =>
          let '(b, sent) := flatten_manual_positions now (op_account_id o) (op_ibkr_account o) op ws l (ks_manual s) in
          let s := set_manual b s in
          match reconcile_and_finalize_manual now op (op_account_id o) rows s with
          | Ok s => (s, sent, Ok tt)
          | Raise e => (s, sent, Raise e)
          end
      end
  end.
End Flatten.

(** ** Facts *)
(** What a position is closed on: executions of orders of its trade that cover
    the quantity of the snapshot. *)
Definition snap_qty (x : FlattenSnapshot) : Q :=
  match sn_body x with SnapManual _ _ _ _ _ q _ => default 0 q | _ => 0 end.
Definition covered (account : Z) (x : FlattenSnapshot) (b : ManualBook) : Prop :=
  exists l, (forall o, o ∈ l -> o ∈ orders_of_trade account (sn_trade_id x) b)
            /\ dabs (snap_qty x) <= exec_qty (execs_of_orders l b).
Lemma by_broker_spec now any broker engine symbol signed avg execs p p' r :
  settle_by_broker now any broker engine symbol signed avg execs p = (p', r) ->
  (r = Flattened -> is_closed p' = true /\ dabs signed <= exec_qty execs)
  /\ (r <> Flattened -> is_closed p' = true -> is_closed p = true)
  /\ (forall a t, at_trade a t p' = at_trade a t p).
Proof.
  unfold settle_by_broker. destruct (_ && _); [|by intros [= <- <-]].
  destruct execs as [|e l]; [by intros [= <- <-]|]. destruct (_ <=? _) eqn:E; intros [= <- <-]; [|done].
  bool_to_prop. by split_and!.
Qed.
Lemma settle_position_spec now any broker engine account x b p p' r :
  settle_position now any broker engine account x b p = (p', r) ->
  (r = Flattened -> is_closed p' = true /\ covered account x b)
  /\ (r <> Flattened -> is_closed p' = true -> is_closed p = true)
  /\ (forall a t, at_trade a t p' = at_trade a t p).
Proof.
  unfold settle_position. fold (snap_qty x).
  destruct (match sn_body x with SnapManual _ s _ _ _ q a => _ | _ => _ end) as [[symbol signed] avg] eqn:Bd.
  assert (signed = snap_qty x) as -> by (unfold snap_qty; by destruct (sn_body x); injection Bd).
  cbv zeta. set (trade := orders_of_trade account (sn_trade_id x) b).
  set (closes := List.filter _ trade). set (filled := List.filter _ closes). set (partly := List.filter (fun o => bool_decide (mo_status o = MO_PARTIALLY_FILLED)) closes).
  assert (I : forall o, o ∈ filled -> o ∈ trade) by (intros o [[O _]%filter_elem _]%filter_elem; exact O).
  assert (BB : forall q q' r', (is_closed q = true -> is_closed p = true) ->
    (forall a t, at_trade a t q = at_trade a t p) ->
    settle_by_broker now any broker engine symbol (snap_qty x) avg (execs_of_orders trade b) q = (q', r') ->
    (r' = Flattened -> is_closed q' = true /\ covered account x b)
    /\ (r' <> Flattened -> is_closed q' = true -> is_closed p = true)
    /\ (forall a t, at_trade a t q' = at_trade a t p)).
  { intros q q' r' C A (S1 & S2 & S3)%by_broker_spec. split_and!.
    - intros ->. destruct (S1 eq_refl) as [K1 K2]. split; [done|]. by exists trade.
    - auto.
    - intros a t. by rewrite S3. }
  destruct filled as [|f fl'] eqn:Ef; [destruct partly as [|h hl] eqn:Eh|].
  - by apply BB.
  - match goal with |- context [if ?c then moved_position ?u ?a ?n ?st ?k p else p] =>
      set (q := if c then moved_position u a n st k p else p) end.
    assert (Cq : is_closed q = true -> is_closed p = true) by (unfold q; by destruct (_ && _)).
    assert (Aq : forall a t, at_trade a t q = at_trade a t p) by (unfold q; by destruct (_ && _)).
    clearbody q. destruct (0 <? _); [|by apply BB]. intros [= <- <-]. by split_and!.
  - destruct (execs_of_orders (f :: fl') b) as [|e l] eqn:Ee; [by intros [= <- <-]|].
    destruct (_ && _) eqn:E; [|by apply BB]. intros [= <- <-]. apply andb_true_iff in E as [E _]. bool_to_prop.
    split_and!; [|done|done]. intros _. split; [done|]. exists (f :: fl'). by rewrite Ee.
Qed.

Lemma reconcile_one_spec now any broker engine account x b b' n :
  reconcile_one now any broker engine account x b = Ok (b', n) ->
  (0 <= n)%Z
  /\ (forall t, t <> sn_trade_id x -> position_of account t b' = position_of account t b)
  /\ (n = 0%Z -> match position_of account (sn_trade_id x) b' with Some p => is_closed p = true | None => True end)
  /\ (position_of account (sn_trade_id x) b = None -> position_of account (sn_trade_id x) b' = None)
  /\ (forall p, position_of account (sn_trade_id x) b = Some p -> is_closed p = true -> b' = b)
  /\ (forall p p', position_of account (sn_trade_id x) b = Some p -> position_of account (sn_trade_id x) b' = Some p' ->
        is_closed p = false -> n = 0%Z -> covered account x b).
Proof.
  unfold reconcile_one. destruct (position_of account (sn_trade_id x) b) as [p|] eqn:P.
  2: { intros [= <- <-]. rewrite P. split_and!; try done; lia. }
  destruct (is_closed p) eqn:C.
  { intros [= <- <-]. rewrite P. split_and!; try done; try lia. intros q q' [= <-] _ D. congruence. }
  destruct (settle_position _ _ _ _ _ _ _ _) as [p' r] eqn:S. apply settle_position_spec in S as (S1 & S2 & S3).
  intros (st & St & H)%rbind_ok. injection H as <- <-.
  assert (At : at_trade account (sn_trade_id x) st = true).
  { rewrite (store_at _ _ _ _ St), S3. by apply position_of_at in P. }
  split_and!; try done.
  - by destruct r.
  - intros t T. by apply position_of_other.
  - intros E. rewrite (position_of_change _ _ _ _ _ P At). destruct r; [|lia|lia].
    eapply store_closed; [exact St|by apply S1].
  - intros q [= <-]. congruence.
  - intros q q' [= <-] _ _ E. destruct r; [by apply S1|lia|lia].
Qed.
(** Nothing is left: every position of the list is closed or gone. *)
Definition settled_in (account : Z) (b : ManualBook) (x : FlattenSnapshot) : Prop :=
  match position_of account (sn_trade_id x) b with Some p => is_closed p = true | None => True end.
Lemma settled_stays now any broker engine account x y b b' n :
  reconcile_one now any broker engine account x b = Ok (b', n) -> settled_in account b y -> settled_in account b' y.
Proof.
  intros (_ & O & _ & N & C & _)%reconcile_one_spec H. unfold settled_in in *.
  destruct (decide (sn_trade_id y = sn_trade_id x)) as [E|E]; [|by rewrite O].
  rewrite E in *. destruct (position_of account (sn_trade_id x) b) as [p|] eqn:P.
  - by rewrite (C p eq_refl H), P.
  - by rewrite N.
Qed.
Lemma reconcile_all_stays now any broker engine account y l b b' n :
  reconcile_all now any broker engine account l b = Ok (b', n) -> settled_in account b y -> settled_in account b' y.
Proof.
  revert b n. induction l as [|x l IH]; intros b n; simpl; [by intros [= <- <-]|].
  intros ([b1 n1] & R & ([b2 n2] & A & [= <- <-])%rbind_ok)%rbind_ok H.
  apply (IH b1 n2 A). by eapply settled_stays.
Qed.
Lemma reconcile_all_spec now any broker engine account l b b' n :
  reconcile_all now any broker engine account l b = Ok (b', n) ->
  (0 <= n)%Z /\ (n = 0%Z -> Forall (settled_in account b') l).
Proof.
  revert b n. induction l as [|x l IH]; intros b n; simpl; [intros [= <- <-]; split; [lia|constructor]|].
  intros ([b1 n1] & R & ([b2 n2] & A & [= <- <-])%rbind_ok)%rbind_ok.
  destruct (IH b1 n2 A) as [N2 F]. pose proof (reconcile_one_spec _ _ _ _ _ _ _ _ _ R) as (N1 & _ & Z1 & _).
  split; [lia|]. intros E. constructor; [|apply F; lia].
  eapply reconcile_all_stays; [exact A|]. apply Z1. lia.
Qed.
Lemma fifo_insert_elem x y l : x ∈ fifo_insert y l <-> x = y \/ x ∈ l.
Proof.
  induction l as [|z l IH]; simpl; [by rewrite elem_of_cons|].
  destruct (fifo_before y z); rewrite !elem_of_cons; [done|]. rewrite IH. tauto.
Qed.
Lemma fifo_elem l x : x ∈ fifo l <-> x ∈ l.
Proof.
  induction l as [|y l IH]; [done|]. simpl. rewrite fifo_insert_elem, IH, elem_of_cons. done.
Qed.

(** A manual flatten is complete only when it is done: when the
    reconciliation ends an operation as COMPLETE, and releases the block on
    manual orders, every position of its snapshot is closed with nothing left
    or gone from the ledger; otherwise the operation is UNRESOLVED and the
    block stays. *)
Theorem manual_flatten_complete (now op account : Z) (rows : list BrokerPosition) (s s' : KillState) (o : Operation) :
  ks_ops s !! op = Some o -> op_status o ∉ [KS_COMPLETE; KS_CLEARED] ->
  reconcile_and_finalize_manual now op account rows s = Ok s' ->
  exists o', ks_ops s' !! op = Some o' /\
  ((op_status o' = KS_COMPLETE /\ ks_manual_cache s' = ks_manual_cache s ∖ {[ account ]}
    /\ forall x, x ∈ ks_snapshots s -> sn_operation_id x = op -> is_manual x = true ->
         settled_in account (ks_manual s') x)
   \/ (op_status o' = KS_UNRESOLVED /\ ks_manual_cache s' = ks_manual_cache s)).
Proof.
  intros L St. unfold reconcile_and_finalize_manual.
  assert (U : forall t status n, ks_ops t = ks_ops s ->
    ks_ops (update_operation_completion now op status n t) !! op = Some (completed_row now status n o)
    /\ ks_manual (update_operation_completion now op status n t) = ks_manual t
    /\ ks_manual_cache (update_operation_completion now op status n t) = ks_manual_cache t).
  { intros t status n E. unfold update_operation_completion. rewrite E, L.
    rewrite (bool_decide_eq_false_2 (op_status o = KS_COMPLETE)) by (intros X; apply St; rewrite X; by left).
    rewrite (bool_decide_eq_false_2 (op_status o = KS_CLEARED)) by (intros X; apply St; rewrite X; by right; left).
    simpl. by rewrite lookup_insert_eq. }
  assert (I : forall x, x ∈ ks_snapshots s -> sn_operation_id x = op -> is_manual x = true ->
    x ∈ fifo (List.filter is_manual (snapshots_of op s))).
  { intros x X E M. apply fifo_elem, filter_elem. split; [|done]. apply filter_elem. by rewrite E, Z.eqb_refl. }
  destruct (fifo _) as [|y l] eqn:F.
  - intros H. injection H as <-. destruct (U s KS_COMPLETE 0%Z eq_refl) as (U1 & _ & U3).
    exists (completed_row now KS_COMPLETE 0 o). split; [done|]. left. split_and!; [done|cbn; by rewrite U3|].
    intros x X E M. by apply (I x X E), not_elem_of_nil in M.
  - intros ([b n] & R & H)%rbind_ok. injection H as <-. apply reconcile_all_spec in R as [_ Z].
    destruct (n =? 0)%Z eqn:En.
    + apply Z.eqb_eq in En. destruct (U (disarm_manual_cache account (set_manual b s)) KS_COMPLETE n eq_refl) as (U1 & U2 & U3).
      exists (completed_row now KS_COMPLETE n o). split; [done|]. left. split_and!; [done|exact U3|].
      intros x X E M. rewrite U2. specialize (Z En). rewrite Forall_forall in Z. by apply Z, I.
    + destruct (U (set_manual b s) KS_UNRESOLVED n eq_refl) as (U1 & _ & U3).
      exists (completed_row now KS_UNRESOLVED n o). split; [done|]. by right.
Qed.

(** ** Examples *)
Definition ex_row (status : ManualStatus) (qty : Q) : ManualPosition := {|
  mp_id := 1; mp_account_id := 7; mp_trade_id := "T1"; mp_symbol := "SPY"; mp_con_id := 11; mp_sec_type := "CFD";
  mp_currency := "USD"; mp_signed_qty := qty; mp_avg_cost := 100; mp_realized_pnl := -(1); mp_status := status;
  mp_opened_at := 5; mp_closed_at := None |}.
Definition ex_order (id : Z) (key source side : string) (status : ManualOrderStatus) : ManualOrder := {|
  mo_id := id; mo_account_id := 7; mo_ibkr_account := "DU7"; mo_idempotency_key := key;
  mo_internal_order_id := key; mo_trade_id := "T1"; mo_broker_order_id := None; mo_perm_id := None;
  mo_con_id := 11; mo_symbol := "SPY"; mo_sec_type := "CFD"; mo_exchange := "SMART"; mo_currency := "USD";
  mo_side := side; mo_quantity := 10; mo_order_type := "MARKET"; mo_limit_price := None; mo_tif := "DAY";
  mo_status := status; mo_source := source; mo_reject_reason := None; mo_submitted_at := None;
  mo_completed_at := None |}.
Definition ex_fill_of (order : Z) (id : string) (price : Q) : ManualExecution := {|
  me_order_id := order; me_exec_id := id; me_broker_order_id := None; me_quantity := 10; me_price := price;
  me_commission := Some 1; me_commission_currency := None; me_executed_at := 6 |}.
(** Ten bought at 100; the close at 90 is sent, its fill not reported yet. *)
Definition ex_manual_book (close : ManualOrderStatus) (execs : list ManualExecution) : ManualBook := {|
  mb_orders := [ex_order 1 "open" "manual" "BUY" MO_FILLED; ex_order 2 "close" "ks_manual" "SELL" close];
  mb_execs := execs; mb_positions := [ex_row MAN_OPEN 10]; mb_halts := ∅; mb_audit := []; mb_next := 3 |}.
Definition ex_manual_op : Operation := ex_op KS_FLATTENING SCOPE_MANUAL.
Definition ex_flat_state (b : ManualBook) : KillState := {|
  ks_accounts := {[ 7 := "DU7"%string ]}%Z; ks_ops := {[ 1 := ex_manual_op ]}%Z;
  ks_snapshots := [snapshot_manual 1 7 (ex_row MAN_OPEN 10)]; ks_positions := ∅; ks_manual := b;
  ks_cache := ∅; ks_manual_cache := {[ 7 ]}%Z |}.
Definition shown (r : result KillState) : list (ManualStatus * Q) :=
  match r with
  | Ok s => map (fun p => (mp_status p, Qred (mp_realized_pnl p))) (mb_positions (ks_manual s))
  | Raise _ => []
  end.
(** With the shares gone at the broker and the close's fill not there yet, the
    position is closed on the executions that opened it: at its own price, and
    the sale of 90 that follows is refused as a fill of a closed trade. *)
Example closed_at_entry :
  let s := ex_flat_state (ex_manual_book MO_SUBMITTED [ex_fill_of 1 "e1" 100]) in
  shown (reconcile_and_finalize_manual 30 1 7 [{| bp_symbol := "QQQ"; bp_signed_qty := 3 |}] s)
  = [(MAN_CLOSED, -(1))].
Proof. vm_compute. reflexivity. Qed.
(** Waiting for the fill gives the profit the sale made. *)
Example closed_at_exit :
  let s := ex_flat_state (ex_manual_book MO_FILLED [ex_fill_of 1 "e1" 100; ex_fill_of 2 "e2" 90]) in
  shown (reconcile_and_finalize_manual 30 1 7 [] s) = [(MAN_CLOSED, -(101))].
Proof. vm_compute. reflexivity. Qed.
(** An account that holds nothing at all is no evidence: its positions stay
    open and the operation unresolved. *)
Example all_flat_unresolved :
  let s := ex_flat_state (ex_manual_book MO_SUBMITTED [ex_fill_of 1 "e1" 100]) in
  shown (reconcile_and_finalize_manual 30 1 7 [] s) = [(MAN_OPEN, -(1))].
Proof. vm_compute. reflexivity. Qed.
(** An unresolved flatten keeps manual orders blocked, until a restart. *)
Example unresolved_blocks_until_restart :
  match reconcile_and_finalize_manual 30 1 7 [] (ex_flat_state (ex_manual_book MO_SUBMITTED [])) with
  | Ok s => is_manual_kill_switch_active s 7 = true
            /\ is_manual_kill_switch_active (hydrate_kill_switch_cache true s).1 7 = false
  | Raise _ => False
  end.
Proof. vm_compute. auto. Qed.
Lemma manual_flatten_complete_witness :
  exists s' o', reconcile_and_finalize_manual 30 1 7 []
      (ex_flat_state (ex_manual_book MO_FILLED [ex_fill_of 1 "e1" 100; ex_fill_of 2 "e2" 90])) = Ok s'
    /\ ks_ops s' !! 1%Z = Some o'.
Proof.
  destruct (reconcile_and_finalize_manual _ _ _ _ _) as [s'|e] eqn:R; [|by vm_compute in R].
  destruct (manual_flatten_complete 30 1 7 []
    (ex_flat_state (ex_manual_book MO_FILLED [ex_fill_of 1 "e1" 100; ex_fill_of 2 "e2" 90])) s' ex_manual_op) as (o' & L & _).
  - apply lookup_singleton_eq.
  - rewrite !elem_of_cons, elem_of_nil. intros [H|[H|[]]]; discriminate H.
  - exact R.
  - exists s', o'. split; [reflexivity|exact L].
Defined.
