(* ===== verification/ManualRuns.v ===== *)
(** * Runs of the manual desk

    Whatever the operators, the broker, restarts and the flatten worker do, in
    any order: no order is placed twice and no execution counted twice. *)

From S2P Require Import Prelude Rounding PyText PyTime Identifiers RmsModels Accounts TradeBook Positions TradeExecutions ManualLedger ManualCallbacks KillSwitch TradingPause ManualTrading ManualFlatten.

#[local] Open Scope Q_scope.
#[local] Open Scope py_scope.
#[local] Set Warnings "-clear-no-such-hyp".

(** ** What never changes of a row *)
Definition name_of (o : ManualOrder) : string * (Z * string) :=
  (mo_internal_order_id o, (mo_account_id o, mo_idempotency_key o)).
Definition names (b : ManualBook) : list (string * (Z * string)) := map name_of (mb_orders b).
Definition exec_ids (b : ManualBook) : list string := map me_exec_id (mb_execs b).
(** Neither the orders' names nor the executions change. *)
Definition quiet (b b' : ManualBook) : Prop := names b' = names b /\ exec_ids b' = exec_ids b.
Create HintDb desk.
Lemma quiet_refl b : quiet b b. Proof. done. Qed.
Lemma quiet_trans b1 b2 b3 : quiet b1 b2 -> quiet b2 b3 -> quiet b1 b3.
Proof. intros [N1 E1] [N2 E2]. split; congruence. Qed.
Lemma map_same {A B} (g : A -> B) (h : A -> A) l : (forall x, g (h x) = g x) -> map g (map h l) = map g l.
Proof. intros H. rewrite map_map. by apply map_ext. Qed.
Lemma quiet_change id f b : (forall o, name_of (f o) = name_of o) -> quiet b (change_order id f b).
Proof.
  intros H. split; [|done]. unfold names; cbn [change_order set_manual_orders mb_orders]. apply map_same.
  intros o. destruct (_ =? _)%Z; [apply H|done].
Qed.
Lemma quiet_update id u b : quiet b (fst (update_order_status id u b)).
Proof. by apply quiet_change. Qed.
Lemma update_quiet id u b b' r : update_order_status id u b = (b', r) -> quiet b b'.
Proof. intros H. pose proof (quiet_update id u b) as Q. by rewrite H in Q. Qed.
Lemma quiet_updated id u b : quiet b (change_order id (updated_order u) b).
Proof. by apply quiet_change. Qed.
Lemma quiet_desk_event a x r b : quiet b (record_event a x r b).
Proof. done. Qed.
Lemma quiet_position a t p b : quiet b (change_position a t p b).
Proof. done. Qed.
#[export] Hint Resolve quiet_refl quiet_update quiet_updated quiet_desk_event quiet_position : desk.
Lemma quiet_update_event id u a x r b : quiet b (record_event a x r (fst (update_order_status id u b))).
Proof. eapply quiet_trans; [apply quiet_update|apply quiet_desk_event]. Qed.
Lemma quiet_updated_event id u a x r b : quiet b (record_event a x r (change_order id (updated_order u) b)).
Proof. apply (quiet_update_event id u). Qed.
#[export] Hint Resolve quiet_update_event quiet_updated_event : desk.

(** One order may appear, of a new name and a new key, and only it may be sent. *)
Inductive creates (b b' : ManualBook) : list Placed -> Prop :=
  | CreatesNone : quiet b b' -> creates b b' []
  | CreatesOne n sent : names b' = names b ++ [n] -> exec_ids b' = exec_ids b ->
      (fst n ∉ map fst (names b)) -> (snd n ∉ map snd (names b)) ->
      (sent = [] \/ exists p, sent = [p] /\ pl_ref p = fst n) -> creates b b' sent.
Lemma creates_quiet b b1 b' sent : creates b b1 sent -> quiet b1 b' -> creates b b' sent.
Proof.
  intros [Q|n l N E F K S] [N' E'].
  - apply CreatesNone. by apply (quiet_trans b b1).
  - eapply (CreatesOne b b' n); [congruence|congruence|done..].
Qed.
(** The row is there, nothing is sent so far. *)
Lemma create_order_spec o b b' row :
  create_order o b = Ok (b', row) ->
  creates b b' [] /\ names b' = names b ++ [name_of row] /\ exec_ids b' = exec_ids b
  /\ (fst (name_of row) ∉ map fst (names b)) /\ (snd (name_of row) ∉ map snd (names b)).
Proof.
  unfold create_order. intros (q & _ & (p & _ & H)%rbind_ok)%rbind_ok.
  destruct (existsb _ _) eqn:E; [done|]. injection H as <- <-.
  assert (F : forall k, k ∈ mb_orders b -> has_key (mo_account_id o) (mo_idempotency_key o) k = false
            /\ has_internal (mo_internal_order_id o) k = false).
  { intros k I. apply orb_false_iff. destruct (_ || _) eqn:X; [|done].
    rewrite <- E. symmetry. apply existsb_exists. exists k. split; [by apply list_elem_of_In|done]. }
  assert (X1 : mo_internal_order_id o ∉ map fst (names b)).
  { unfold names. rewrite map_map, list_elem_of_fmap. intros (k & Ek & I). destruct (F k I) as [_ H].
    unfold has_internal in H. simpl in Ek. by rewrite Ek, String.eqb_refl in H. }
  assert (X2 : (mo_account_id o, mo_idempotency_key o) ∉ map snd (names b)).
  { unfold names. rewrite map_map, list_elem_of_fmap. intros (k & Ek & I). destruct (F k I) as [H _].
    unfold has_key in H. simpl in Ek. injection Ek as E1 E2.
    by rewrite <- E1, <- E2, Z.eqb_refl, String.eqb_refl in H. }
  assert (N : names (next_manual_id (set_manual_orders (mb_orders b ++ [order_row (mb_next b) q p o]) b))
              = names b ++ [name_of (order_row (mb_next b) q p o)]) by (unfold names; simpl; by rewrite map_app).
  split_and!; [|done..]. eapply CreatesOne; [exact N|done|done|done|by left].
Qed.

Definition sends (o : ManualOrder) (sent : list Placed) : Prop :=
  sent = [] \/ exists p, sent = [p] /\ pl_ref p = mo_internal_order_id o.
Lemma created_then o b b1 b' row sent :
  create_order o b = Ok (b1, row) -> quiet b1 b' -> sends row sent -> creates b b' sent.
Proof.
  intros (_ & N & E & F & K)%create_order_spec [N' E'] S.
  eapply (CreatesOne b b' (name_of row)); [congruence|congruence|done..].
Qed.

(** ** The operations *)
Lemma fail_order_quiet o reason code ok b b' e : fail_order o reason code ok b = (b', e) -> quiet b b'.
Proof. unfold fail_order. destruct ok; intros [<- <-]%pair_equal_spec; auto with desk. Qed.
Lemma flatten_error_quiet o reason ok b b' e : flatten_error o reason ok b = (b', e) -> quiet b b'.
Proof. unfold flatten_error. destruct ok; intros [<- <-]%pair_equal_spec; auto with desk. Qed.
Ltac failing :=
  match goal with
  | |- context [fail_order ?o ?r ?c ?k ?b] =>
      let E := fresh in destruct (fail_order o r c k b) eqn:E; apply fail_order_quiet in E
  | |- context [flatten_error ?o ?r ?k ?b] =>
      let E := fresh in destruct (flatten_error o r k b) eqn:E; apply flatten_error_quiet in E
  end.
Lemma transmit_spec now a w r o b b' sent e :
  transmit now a w r o b = (b', sent, e) -> quiet b b' /\ sends o sent.
Proof.
  unfold transmit. assert (N : sends o []) by (by left).
  assert (Q : forall id, quiet b (change_order (mo_id o)
    (updated_order (with_broker (Some (str_Z id)) (to_status MO_PENDING_SUBMIT))) b)) by (intros; by apply quiet_change).
  destruct (negb (wt_connected w)); [failing; by intros [[<- <-]%pair_equal_spec <-]%pair_equal_spec|].
  destruct (negb (wt_paced w)); [failing; by intros [[<- <-]%pair_equal_spec <-]%pair_equal_spec|].
  destruct (wt_order_id w) as [id|]; [|failing; by intros [[<- <-]%pair_equal_spec <-]%pair_equal_spec].
  destruct (negb _); [by intros [[<- <-]%pair_equal_spec <-]%pair_equal_spec|].
  destruct (negb (wt_placed w)).
  { failing. intros [[<- <-]%pair_equal_spec <-]%pair_equal_spec. split; [|done]. by eapply quiet_trans. }
  assert (P : sends o [placed_order a id o r]) by (right; eauto).
  destruct (negb _); [by intros [[<- <-]%pair_equal_spec <-]%pair_equal_spec|].
  destruct (update_order_status _ _ _) as [b2 row] eqn:U. apply update_quiet in U.
  intros [[<- <-]%pair_equal_spec <-]%pair_equal_spec. split; [|done].
  eapply quiet_trans; [apply (Q id)|]. eapply quiet_trans; [exact U|apply quiet_desk_event].
Qed.
Lemma submit_spec now d a w r seen b b' sent e :
  submit_manual_order now d a w r seen b = (b', sent, e) -> creates b b' sent.
Proof.
  unfold submit_manual_order. assert (N : creates b b []) by (by apply CreatesNone).
  destruct (validate_pretrade d a r seen); [|by intros [[<- <-]%pair_equal_spec <-]%pair_equal_spec].
  destruct (manual_by_idempotency_key _ _ seen); [by intros [[<- <-]%pair_equal_spec <-]%pair_equal_spec|].
  destruct (create_order _ b) as [[b1 o]|x] eqn:C.
  - destruct (1 <=? wt_commits w)%nat; [|by intros [[<- <-]%pair_equal_spec <-]%pair_equal_spec].
    intros [Q S]%transmit_spec. by eapply created_then.
  - intros H. repeat case_match; by apply pair_equal_spec in H as [[<- <-]%pair_equal_spec <-].
Qed.
Lemma cancel_spec now account id c p k b b' x e :
  cancel_order now account id c p k b = (b', x, e) -> quiet b b'.
Proof.
  unfold cancel_order. intros H. repeat case_match; apply pair_equal_spec in H as [[<- <-]%pair_equal_spec <-]; auto with desk.
Qed.
Section Uuid.
Variable uuid_text : Z -> string.

Lemma flatten_transmit_spec now account ibkr w o b b' sent e :
  flatten_transmit now account ibkr w o b = (b', sent, e) -> quiet b b' /\ sends o sent.
Proof.
  unfold flatten_transmit. assert (N : sends o []) by (by left).
  destruct (negb (wt_connected w)); [by intros [[<- <-]%pair_equal_spec <-]%pair_equal_spec|].
  destruct (negb (wt_paced w)); [failing; by intros [[<- <-]%pair_equal_spec <-]%pair_equal_spec|].
  destruct (wt_order_id w) as [id|]; [|failing; by intros [[<- <-]%pair_equal_spec <-]%pair_equal_spec].
  destruct (negb _); [by intros [[<- <-]%pair_equal_spec <-]%pair_equal_spec|].
  destruct (negb (wt_placed w)).
  { failing. intros [[<- <-]%pair_equal_spec <-]%pair_equal_spec. split; [|done]. eapply quiet_trans; [apply quiet_update|done]. }
  assert (P : sends o [flatten_placed id ibkr o]) by (right; eauto).
  destruct (negb _); intros [[<- <-]%pair_equal_spec <-]%pair_equal_spec; (split; [|done]); [auto with desk|].
  eapply quiet_trans; [apply quiet_update|]. auto with desk.
Qed.
Lemma flatten_spec now account ibkr op w x b b' sent e :
  flatten_single_manual_position uuid_text now account ibkr op w x b = (b', sent, e) -> creates b b' sent.
Proof.
  unfold flatten_single_manual_position. assert (N : creates b b []) by (by apply CreatesNone).
  destruct (position_of _ _ b) as [p|]; [|by intros [[<- <-]%pair_equal_spec <-]%pair_equal_spec].
  destruct (_ || _); [by intros [[<- <-]%pair_equal_spec <-]%pair_equal_spec|]. cbv zeta.
  assert (C : forall b' sent e,
    match create_order (flatten_order uuid_text account ibkr op x p) b with
    | Raise e => (b, [], Raise e)
    | Ok (b', o) => if (1 <=? wt_commits w)%nat
        then flatten_transmit now account ibkr w o (change_order (mo_id o) (with_source "ks_manual") b')
        else (b, [], Raise db_lost)
    end = (b', sent, e) -> creates b b' sent).
  { intros b2 s2 e2. destruct (create_order _ b) as [[b1 o]|y] eqn:K; [|by intros [[<- <-]%pair_equal_spec <-]%pair_equal_spec].
    destruct (1 <=? wt_commits w)%nat; [|by intros [[<- <-]%pair_equal_spec <-]%pair_equal_spec].
    intros [Q S]%flatten_transmit_spec. eapply created_then; [exact K| |done].
    eapply quiet_trans; [|exact Q]. by apply quiet_change. }
  destruct (manual_by_idempotency_key _ _ b) as [o|]; [|apply C].
  destruct (in_flight_order o); [by intros [[<- <-]%pair_equal_spec <-]%pair_equal_spec|apply C].
Qed.

(** ** The callbacks *)
Lemma status_quiet now id st perm b : quiet b (handle_order_status now id st perm b).
Proof. unfold handle_order_status. repeat case_match; auto with desk. Qed.
Lemma open_quiet id ref perm raw b : quiet b (handle_open_order id ref perm raw b).
Proof. unfold handle_open_order. repeat case_match; auto with desk. Qed.
Lemma error_quiet now req code m b : quiet b (handle_error now req code m b).
Proof. unfold handle_error. repeat case_match; auto with desk. Qed.
Lemma recovery_quiet b : quiet b (fst (run_manual_recovery b)).
Proof.
  unfold run_manual_recovery; cbn [fst]. generalize (get_unresolved_orders b) as l. intros l. revert b.
  induction l as [|o l IH]; intros b; [done|]. simpl. eapply quiet_trans; [|apply IH].
  unfold recover_order. case_bool_decide; auto with desk.
Qed.
Lemma capture_quiet perm o b : quiet b (capture_perm perm o b) /\ mb_positions (capture_perm perm o b) = mb_positions b.
Proof. unfold capture_perm. repeat case_match; auto with desk. Qed.
Lemma dedup_spec e b b' x new :
  record_execution_with_dedup e b = Ok (b', (x, new)) ->
  names b' = names b /\ mb_positions b' = mb_positions b
  /\ if new then exec_ids b' = exec_ids b ++ [me_exec_id e] /\ (me_exec_id e ∉ exec_ids b) else b' = b.
Proof.
  unfold record_execution_with_dedup. intros (q & _ & (p & _ & (c & _ & H)%rbind_ok)%rbind_ok)%rbind_ok.
  destruct (get_by_exec_id _ b) as [old|] eqn:G; injection H as <- <- <-; [done|].
  split_and!; [done|done|unfold exec_ids; simpl; by rewrite map_app|].
  unfold exec_ids. rewrite list_elem_of_fmap. intros (k & E & I%list_elem_of_In).
  apply (List.find_none _ _ G) in I. by rewrite <- E, String.eqb_refl in I.
Qed.
Lemma apply_quiet now f b b' r :
  apply_execution now f b = (b', r) ->
  quiet b b' /\ match r with Ok _ => True | Raise _ => mb_positions b' = mb_positions b end.
Proof.
  unfold apply_execution. intros H. repeat case_match; apply pair_equal_spec in H as [<- ?]; by simplify_eq.
Qed.
(** What an execution does: at most one new row, and the ledger of positions
    moves only with it. *)
Record exec_effect (id : string) (s s' : Listener) (applied : list string) : Prop := {
  ef_names : names (ls_book s') = names (ls_book s);
  ef_execs : (exec_ids (ls_book s') = exec_ids (ls_book s) /\ applied = [])
             \/ (exec_ids (ls_book s') = exec_ids (ls_book s) ++ [id] /\ (id ∉ exec_ids (ls_book s))
                 /\ (applied = [] \/ applied = [id]));
  ef_positions : applied = [] -> mb_positions (ls_book s') = mb_positions (ls_book s)
}.
Lemma effect_none id s s' :
  quiet (ls_book s) (ls_book s') -> mb_positions (ls_book s') = mb_positions (ls_book s) -> exec_effect id s s' [].
Proof. intros [N E] P. split; [done|by left|done]. Qed.
Definition applied_of (id : string) (r : option Z * bool) : list string := if snd r then [id] else [].
Lemma settle_spec now x id side buffered o s s' new :
  settle_execution now x id side buffered o s = Ok (s', new) ->
  quiet (ls_book s) (ls_book s')
  /\ (new = false -> mb_positions (ls_book s') = mb_positions (ls_book s)).
Proof.
  unfold settle_execution. destruct (apply_execution _ _ _) as [b r] eqn:A. apply apply_quiet in A as [Q P].
  destruct r as [[p delta]|e].
  - cbv zeta. intros (t & _ & [= <- <-])%rbind_ok. split; [|done].
    eapply quiet_trans; [exact Q|]. apply quiet_update_event.
  - destruct e; try done. intros H. injection H as <- <-. split; [exact Q|done].
Qed.
Lemma transaction_spec now x c id buffered s s' r :
  exec_transaction now x c id buffered s = Ok (s', r) -> exec_effect id s s' (applied_of id r).
Proof.
  unfold exec_transaction. destruct (correlate _ _ _ _ _) as [o|]; [|intros [= <- <-]; by apply effect_none].
  destruct (_ && _); [intros [= <- <-]; by apply effect_none|].
  destruct (capture_quiet (mx_permId x) o (ls_book s)) as [Qc Pc].
  set (b := capture_perm (mx_permId x) o (ls_book s)) in *. cbv zeta.
  destruct (match position_of _ _ b with Some p => is_closed p | None => false end).
  { intros [= <- <-]. by apply effect_none. }
  intros ([b1 [e new]] & D & H)%rbind_ok. apply dedup_spec in D as (N & P & E). simpl in E. destruct new.
  - apply rbind_ok in H as ([s1 v] & St & [= <- <-]). apply settle_spec in St as [[N1 E1] P1]. simpl in *.
    destruct E as [E F]. destruct Qc as [Nc Ec]. split.
    + congruence.
    + right. rewrite E1, E, Ec. rewrite Ec in F. split_and!; [done|done|]. unfold applied_of; simpl. destruct v; auto.
    + unfold applied_of; simpl. destruct v; [done|]. intros _. rewrite P1 by done. congruence.
  - injection H as <- <-. subst b1. by apply effect_none.
Qed.
Lemma exec_details_spec now x c s s' r :
  handle_exec_details now x c s = (s', r) ->
  exec_effect (str_strip (mx_execId x)) s s' (match r with Ok r => applied_of (str_strip (mx_execId x)) r | Raise _ => [] end).
Proof.
  unfold handle_exec_details. destruct (str_empty _); [intros [= <- <-]; by apply effect_none|]. cbv zeta.
  destruct (exec_transaction _ _ _ _ _ _) as [[s1 r1]|e] eqn:T; intros [= <- <-].
  - apply transaction_spec in T as [N E P]. by split.
  - by apply effect_none.
Qed.
Lemma charge_quiet account trade c b b' : charge_position account trade c b = Ok b' -> quiet b b'.
Proof.
  unfold charge_position. destruct (position_of _ _ b); [|by intros [= <-]].
  intros (p' & _ & H)%rbind_ok. injection H as <-. apply quiet_position.
Qed.
Lemma update_commission_quiet id c cur b b' r :
  update_commission id c cur b = Ok (b', r) -> quiet b b'.
Proof.
  unfold update_commission. destruct (get_by_exec_id id b) as [e|] eqn:G; [|by intros [= <- <-]].
  destruct (match me_commission e with Some _ => _ | None => _ end); [by intros [= <- <-]|].
  intros (q & _ & H)%rbind_ok. injection H as <- <-. split; [done|].
  apply List.find_some in G as [_ G%String.eqb_eq]. unfold exec_ids; simpl. apply map_same.
  intros k. destruct (String.eqb_spec (me_exec_id k) id) as [->|]; [done|done].
Qed.
Lemma commission_quiet id c cur s s' r :
  handle_commission_report id c cur s = (s', r) -> quiet (ls_book s) (ls_book s').
Proof.
  unfold handle_commission_report. destruct (str_empty _); [by intros [= <- <-]|].
  destruct (get_by_exec_id _ _); [|by intros [= <- <-]]. cbv zeta.
  destruct (rbind _ _) as [[b v]|e] eqn:H; [|by intros [= <- <-]]. intros [= <- <-].
  apply rbind_ok in H as ([b1 [row up]] & U & H). apply update_commission_quiet in U.
  destruct up; [|by injection H as <- <-]. destruct (get_by_id _ _ b1); [|by injection H as <- <-].
  apply rbind_ok in H as (b2 & C & [= <- <-]). apply charge_quiet in C.
  eapply quiet_trans; [exact U|exact C].
Qed.
Lemma reconcile_quiet now any broker engine account x b b' n :
  reconcile_one now any broker engine account x b = Ok (b', n) -> quiet b b'.
Proof.
  unfold reconcile_one. destruct (position_of _ _ b) as [p|]; [|by intros [= <- <-]].
  destruct (is_closed p); [by intros [= <- <-]|]. destruct (settle_position _ _ _ _ _ _ _ _) as [p' r].
  intros (st & _ & H)%rbind_ok. injection H as <- <-. apply quiet_position.
Qed.

(** ** Runs *)
Inductive DeskEvent : Type :=
  | EvSubmit (now : Z) (d : DeskGates) (a : AccountRow) (w : Weather) (r : ManualRequest) (seen : ManualBook)
  | EvCancel (now account id : Z) (connected paced sent_ok : bool)
  | EvFlatten (now account : Z) (ibkr : string) (op : Z) (w : Weather) (x : FlattenSnapshot)
  | EvReconcile (now : Z) (any_rows : bool) (broker engine : gmap string Q) (account : Z) (x : FlattenSnapshot)
  | EvStatus (now order_id : Z) (status : string) (perm : Z)
  | EvOpenOrder (order_id : Z) (ref : string) (perm : Z) (raw : string)
  | EvError (now req code : Z) (message : string)
  | EvExec (now : Z) (x : ManualExec) (c : option ExecContract)
  | EvCommission (id : string) (commission : Q) (currency : string)
  | EvRecovery.
(** What an event does: the desk, the orders sent, the executions counted. *)
Definition desk_step (e : DeskEvent) (s : Listener) : Listener * list Placed * list string :=
  let b := ls_book s in
  match e with
  | EvSubmit now d a w r seen =>
      let '(b, sent, _) := submit_manual_order now d a w r seen b in (set_book b s, sent, [])
  | EvCancel now account id c p k => let '(b, _, _) := cancel_order now account id c p k b in (set_book b s, [], [])
  | EvFlatten now account ibkr op w x =>
      let '(b, sent, _) := flatten_single_manual_position uuid_text now account ibkr op w x b in (set_book b s, sent, [])
  | EvReconcile now any broker engine account x =>
      match reconcile_one now any broker engine account x b with
      | Ok (b, _) => (set_book b s, [], [])
      | Raise _ => (s, [], [])
      end
  | EvStatus now id st perm => (set_book (handle_order_status now id st perm b) s, [], [])
  | EvOpenOrder id ref perm raw => (set_book (handle_open_order id ref perm raw b) s, [], [])
  | EvError now req code m => (set_book (handle_error now req code m b) s, [], [])
  | EvExec now x c =>
      match handle_exec_details now x c s with
      | (s, Ok r) => (s, [], applied_of (str_strip (mx_execId x)) r)
      | (s, Raise _) => (s, [], [])
      end
  | EvCommission id c cur => (fst (handle_commission_report id c cur s), [], [])
  | EvRecovery => (set_book (fst (run_manual_recovery b)) s, [], [])
  end.
Fixpoint desk_run (l : list DeskEvent) (s : Listener) : Listener * list Placed * list string :=
  match l with
  | [] => (s, [], [])
  | e :: l =>
      let '(s, sent, counted) := desk_step e s in
      let '(s, sent', counted') := desk_run l s in (s, sent ++ sent', counted ++ counted')
  end.

(** A step adds at most one name and one execution; what it sends or counts
    bears them. *)
Record step_effect (s s' : Listener) (sent : list Placed) (counted : list string) : Prop := {
  se_names : creates (ls_book s) (ls_book s') sent \/ (names (ls_book s') = names (ls_book s) /\ sent = []);
  se_execs : (exec_ids (ls_book s') = exec_ids (ls_book s) /\ counted = [])
             \/ (exists id, exec_ids (ls_book s') = exec_ids (ls_book s) ++ [id] /\ (id ∉ exec_ids (ls_book s))
                            /\ (counted = [] \/ counted = [id]))
}.
Lemma effect_quiet s s' : quiet (ls_book s) (ls_book s') -> step_effect s s' [] [].
Proof. intros [N E]. split; [by right|by left]. Qed.
Lemma effect_creates s b sent : creates (ls_book s) b sent -> step_effect s (set_book b s) sent [].
Proof. intros C. split; [by left|left; split; [by destruct C as [[_ E]|]|done]]. Qed.
Lemma desk_step_effect e s s' sent counted :
  desk_step e s = (s', sent, counted) -> step_effect s s' sent counted.
Proof.
  destruct e; cbn [desk_step]; intros H.
  - destruct (submit_manual_order _ _ _ _ _ _ _) as [[b p] z] eqn:E. injection H as <- <- <-.
    by apply effect_creates, (submit_spec _ _ _ _ _ _ _ _ _ _ E).
  - destruct (cancel_order _ _ _ _ _ _ _) as [[b p] z] eqn:E. injection H as <- <- <-.
    by apply effect_quiet, (cancel_spec _ _ _ _ _ _ _ _ _ _ E).
  - destruct (flatten_single_manual_position _ _ _ _ _ _ _ _) as [[b p] z] eqn:E. injection H as <- <- <-.
    by apply effect_creates, (flatten_spec _ _ _ _ _ _ _ _ _ _ E).
  - destruct (reconcile_one _ _ _ _ _ _ _) as [[b n]|z] eqn:E; injection H as <- <- <-; apply effect_quiet; [|done].
    by apply (reconcile_quiet _ _ _ _ _ _ _ _ _ E).
  - injection H as <- <- <-. apply effect_quiet, status_quiet.
  - injection H as <- <- <-. apply effect_quiet, open_quiet.
  - injection H as <- <- <-. apply effect_quiet, error_quiet.
  - destruct (handle_exec_details _ _ _ _) as [s1 [r|z]] eqn:E; injection H as <- <- <-;
      apply exec_details_spec in E as [N X _]; (split; [by right|]);
      (destruct X as [X|(X & F & A)]; [by left|right; eauto]).
  - injection H as <- <- <-. destruct (handle_commission_report _ _ _ _) as [s1 z] eqn:E.
    by apply effect_quiet, (commission_quiet _ _ _ _ _ _ E).
  - injection H as <- <- <-. apply effect_quiet, recovery_quiet.
Qed.
End Uuid.

(** Names and executions only grow, by distinct ones. *)
Lemma prefix_not_elem {A} (x : A) l k : l `prefix_of` k -> x ∉ k -> x ∉ l.
Proof. intros [r ->] H I. apply H, elem_of_app. by left. Qed.
Lemma creates_grow b b' sent :
  creates b b' sent ->
  names b `prefix_of` names b'
  /\ (NoDup (map snd (names b)) -> NoDup (map snd (names b')))
  /\ NoDup (map pl_ref sent)
  /\ (forall p, p ∈ sent -> (pl_ref p ∉ map fst (names b)) /\ pl_ref p ∈ map fst (names b')).
Proof.
  intros [[N _]|n k N _ F K S].
  - rewrite N. split_and!; [done|done|constructor|]. intros p I. by apply not_elem_of_nil in I.
  - rewrite N, !map_app. split_and!.
    + by exists [n].
    + intros D. apply NoDup_app. split_and!; [done| |apply NoDup_singleton].
      intros x I J. apply list_elem_of_singleton in J as ->. by apply K.
    + destruct S as [->|(p & -> & E)]; [constructor|apply NoDup_singleton].
    + intros p I. destruct S as [->|(p' & -> & E)]; [by apply not_elem_of_nil in I|].
      apply list_elem_of_singleton in I as ->. rewrite E. split; [done|]. apply elem_of_app. right. by left.
Qed.
Record run_effect (s s' : Listener) (sent : list Placed) (counted : list string) : Prop := {
  re_names : names (ls_book s) `prefix_of` names (ls_book s');
  re_keys : NoDup (map snd (names (ls_book s))) -> NoDup (map snd (names (ls_book s')));
  re_sent : NoDup (map pl_ref sent);
  re_fresh : forall p, p ∈ sent -> (pl_ref p ∉ map fst (names (ls_book s))) /\ pl_ref p ∈ map fst (names (ls_book s'));
  re_execs : exec_ids (ls_book s) `prefix_of` exec_ids (ls_book s');
  re_counted : NoDup counted;
  re_new : forall id, id ∈ counted -> (id ∉ exec_ids (ls_book s)) /\ id ∈ exec_ids (ls_book s')
}.
Lemma step_run s s' sent counted : step_effect s s' sent counted -> run_effect s s' sent counted.
Proof.
  intros [N E].
  assert (N' : creates (ls_book s) (ls_book s') sent \/ (names (ls_book s') = names (ls_book s) /\ sent = [])) by done.
  assert (X : exec_ids (ls_book s) `prefix_of` exec_ids (ls_book s') /\ NoDup counted
    /\ forall id, id ∈ counted -> (id ∉ exec_ids (ls_book s)) /\ id ∈ exec_ids (ls_book s')).
  { destruct E as [[-> ->]|(id & -> & F & C)].
    - split_and!; [done|constructor|]. intros id I. by apply not_elem_of_nil in I.
    - split_and!; [by exists [id]|destruct C as [->| ->]; [constructor|apply NoDup_singleton]|].
      intros x I. destruct C as [->| ->]; [by apply not_elem_of_nil in I|]. apply list_elem_of_singleton in I as ->.
      split; [done|]. apply elem_of_app. right. by left. }
  destruct X as (X1 & X2 & X3). destruct N' as [(Y1 & Y2 & Y3 & Y4)%creates_grow|[Y ->]]; split; try done.
  - by rewrite Y.
  - by rewrite Y.
  - constructor.
  - intros p I. by apply not_elem_of_nil in I.
Qed.
Lemma run_trans s1 s2 s3 sent1 sent2 c1 c2 :
  run_effect s1 s2 sent1 c1 -> run_effect s2 s3 sent2 c2 -> run_effect s1 s3 (sent1 ++ sent2) (c1 ++ c2).
Proof.
  assert (D : forall {A} (l k b c : list A), NoDup l -> NoDup k -> b `prefix_of` c ->
    (forall x, x ∈ l -> x ∈ b) -> (forall x, x ∈ k -> x ∉ b) -> NoDup (l ++ k)).
  { intros A l k b c L K _ H1 H2. apply NoDup_app. split_and!; [done| |done]. intros x I J. by apply (H2 x J), H1. }
  intros [N1 K1 S1 F1 E1 C1 W1] [N2 K2 S2 F2 E2 C2 W2].
  assert (P : map fst (names (ls_book s1)) `prefix_of` map fst (names (ls_book s2)))
    by (destruct N1 as [r ->]; rewrite map_app; by exists (map fst r)).
  assert (P2 : map fst (names (ls_book s2)) `prefix_of` map fst (names (ls_book s3)))
    by (destruct N2 as [r ->]; rewrite map_app; by exists (map fst r)).
  split.
  - by transitivity (names (ls_book s2)).
  - auto.
  - rewrite map_app. apply (D _ _ _ (map fst (names (ls_book s2))) _ S1 S2 P2).
    + intros x I. apply list_elem_of_fmap in I as (p & -> & I). by apply F1.
    + intros x I. apply list_elem_of_fmap in I as (p & -> & I). by apply F2.
  - intros p [I|I]%elem_of_app.
    + destruct (F1 p I) as [A B]. split; [done|]. destruct P2 as [r ->]. apply elem_of_app. by left.
    + destruct (F2 p I) as [A B]. split; [|done]. by apply (prefix_not_elem _ _ _ P).
  - by transitivity (exec_ids (ls_book s2)).
  - apply (D _ _ _ (exec_ids (ls_book s2)) _ C1 C2 E2); [intros x I; by apply W1|intros x I; by apply W2].
  - intros id [I|I]%elem_of_app.
    + destruct (W1 id I) as [A B]. split; [done|]. destruct E2 as [r ->]. apply elem_of_app. by left.
    + destruct (W2 id I) as [A B]. split; [|done]. by apply (prefix_not_elem _ _ _ E1).
Qed.
Lemma run_none s : run_effect s s [] [].
Proof. apply step_run, effect_quiet, quiet_refl. Qed.
Lemma desk_run_effect uuid_text l s s' sent counted :
  desk_run uuid_text l s = (s', sent, counted) -> run_effect s s' sent counted.
Proof.
  revert s s' sent counted. induction l as [|e l IH]; intros s s' sent counted; simpl.
  - intros [= <- <- <-]. apply run_none.
  - destruct (desk_step uuid_text e s) as [[s1 p1] c1] eqn:E1. destruct (desk_run uuid_text l s1) as [[s2 p2] c2] eqn:E2.
    intros [= <- <- <-]. apply desk_step_effect, step_run in E1. eapply run_trans; [exact E1|by apply IH].
Qed.

(** C12: No manual order is placed twice: over any run of submissions, replays and
    races, cancellations, callbacks, restarts and kill-switch flattens, with
    commits that fail at any point, the orders sent bear distinct references,
    each of them the name of a durable row that was new in the run, and one
    idempotency key of an account never gets two rows. *)
Theorem manual_order_placed_once (uuid_text : Z -> string) (l : list DeskEvent) (s s' : Listener)
    (sent : list Placed) (counted : list string) :
  desk_run uuid_text l s = (s', sent, counted) -> NoDup (map snd (names (ls_book s))) ->
  NoDup (map pl_ref sent)
  /\ NoDup (map snd (names (ls_book s')))
  /\ forall p, p ∈ sent ->
       (exists o, o ∈ mb_orders (ls_book s') /\ mo_internal_order_id o = pl_ref p)
       /\ forall o, o ∈ mb_orders (ls_book s) -> mo_internal_order_id o <> pl_ref p.
Proof.
  intros R U. apply desk_run_effect in R as [_ K S F _ _ _]. split_and!; [done|by apply K|].
  intros p I. destruct (F p I) as [A B]. unfold names in A, B. rewrite map_map in A, B. split.
  - apply list_elem_of_fmap in B as (o & E & O). by exists o.
  - intros o O E. apply A, list_elem_of_fmap. by exists o.
Qed.
(** C13: No execution is counted twice: over any run, each execution id moves a
    position at most once, and not when it was known before; an execution that
    is already known moves nothing, whatever it is redelivered with. *)
Theorem manual_execution_counted_once (uuid_text : Z -> string) (l : list DeskEvent) (s s' : Listener)
    (sent : list Placed) (counted : list string) :
  desk_run uuid_text l s = (s', sent, counted) ->
  NoDup counted
  /\ (forall id, id ∈ counted -> (id ∉ exec_ids (ls_book s)) /\ id ∈ exec_ids (ls_book s'))
  /\ forall now x c, str_strip (mx_execId x) ∈ exec_ids (ls_book s') ->
       let s'' := fst (handle_exec_details now x c s') in
       mb_positions (ls_book s'') = mb_positions (ls_book s') /\ exec_ids (ls_book s'') = exec_ids (ls_book s').
Proof.
  intros R. apply desk_run_effect in R as [_ _ _ _ _ C W]. split_and!; [done|done|]. intros now x c I s''.
  unfold s''. destruct (handle_exec_details now x c s') as [s2 r] eqn:E. apply exec_details_spec in E as [_ X P]. simpl.
  destruct X as [[X A]|(_ & F & _)]; [by split; [apply P|]|done].
Qed.

(** ** Examples *)
Definition ex_desk : DeskGates := {|
  dk_connected := true;
  dk_kill := {| ks_accounts := {[ 7 := "DU7"%string ]}; ks_ops := ∅; ks_snapshots := []; ks_positions := ∅;
                ks_manual := empty_book; ks_cache := ∅; ks_manual_cache := ∅ |}%Z;
  dk_pause := {| ps_rows := ∅; ps_cache := ∅ |} |}.
Definition ex_account : AccountRow :=
  {| ar_id := 7; ar_ibkr_account := "DU7"; ar_enabled := true; ar_total_margin := 0 |}.
Definition ex_request (side key : string) (qty : Q) (trade : option string) : ManualRequest := {|
  rq_idempotency_key := key; rq_symbol := "SPY"; rq_con_id := 11; rq_sec_type := "CFD"; rq_exchange := "SMART";
  rq_currency := "USD"; rq_side := side; rq_quantity := qty; rq_order_type := "MARKET"; rq_limit_price := None;
  rq_tif := "DAY"; rq_min_tick := None; rq_trade_id := trade |}.
Definition ex_weather (hex : string) (id : Z) (commits : nat) : Weather := {|
  wt_order_hex := hex; wt_trade_hex := hex; wt_commits := commits; wt_connected := true; wt_paced := true;
  wt_order_id := Some id; wt_placed := true |}.
Definition ex_listener : Listener := {|
  ls_book := empty_book; ls_trades := ∅; ls_accounts := {[ "DU7"%string := 7%Z ]}; ls_pending := ∅ |}.
Definition ex_exec (id : string) (order : Z) (side : string) (qty price : Q) : ManualExec := {|
  mx_execId := id; mx_orderId := Some order; mx_permId := None; mx_orderRef := EmptyString;
  mx_acctNumber := "DU7"; mx_shares := qty; mx_price := price; mx_side := Some side; mx_executed_at := 20 |}.
Definition ex_submit (side key hex : string) (id : Z) (qty : Q) (trade : option string) (d : DeskGates) : DeskEvent :=
  EvSubmit 10 d ex_account (ex_weather hex id 3) (ex_request side key qty trade) empty_book.
(** Submitted, lost after it was sent, submitted again: one order. *)
Definition ex_retry : list DeskEvent :=
  [EvSubmit 10 ex_desk ex_account (ex_weather "A" 1 2) (ex_request "BUY" "k1" 10 None) empty_book;
   ex_submit "BUY" "k1" "B" 2 10 None ex_desk; EvExec 20 (ex_exec "e1" 1 "BOT" 10 100) None;
   EvExec 21 (ex_exec "e1" 1 "BOT" 10 100) None].
Example retried :
  let '(s, sent, counted) := desk_run str_Z ex_retry ex_listener in
  map pl_ref sent = ["MAN_A"%string] /\ counted = ["e1"%string]
  /\ map (fun p => Qred (mp_signed_qty p)) (mb_positions (ls_book s)) = [10].
Proof. vm_compute. auto. Qed.
Lemma manual_order_placed_once_witness :
  let '(s', sent, _) := desk_run str_Z ex_retry ex_listener in
  NoDup (map pl_ref sent) /\ NoDup (map snd (names (ls_book s'))).
Proof.
  destruct (desk_run str_Z ex_retry ex_listener) as [[s' sent] c] eqn:R.
  destruct (manual_order_placed_once str_Z ex_retry ex_listener s' sent c R) as (A & B & _); [constructor|exact (conj A B)].
Defined.
Lemma manual_execution_counted_once_witness :
  let '(_, _, counted) := desk_run str_Z ex_retry ex_listener in NoDup counted.
Proof.
  destruct (desk_run str_Z ex_retry ex_listener) as [[s' sent] c] eqn:R.
  exact (proj1 (manual_execution_counted_once str_Z ex_retry ex_listener s' sent c R)).
Defined.

(** An order the broker reported as filled goes back to partially filled when
    the first of its two executions arrives, and can be cancelled again. *)
Example filled_regresses :
  let '(s, _, _) := desk_run str_Z
    [ex_submit "BUY" "k1" "A" 1 10 None ex_desk; EvStatus 15 1 "Filled" 0; EvExec 20 (ex_exec "e1" 1 "BOT" 4 100) None]
    ex_listener in
  map mo_status (mb_orders (ls_book s)) = [MO_PARTIALLY_FILLED]
  /\ snd (cancel_order 30 7 1 true true true (ls_book s)) = CancelRequested.
Proof. vm_compute. auto. Qed.
(** A paused account may reduce a position, but a request that names the
    position by its contract only opens a second one the other way. *)
Definition ex_paused : DeskGates := {|
  dk_connected := true; dk_kill := dk_kill ex_desk; dk_pause := {| ps_rows := ∅; ps_cache := {[ 7%Z ]} |} |}.
Example reducing_opens_another :
  let s := fst (fst (desk_run str_Z [ex_submit "BUY" "k1" "A" 1 10 None ex_desk;
                                     EvExec 20 (ex_exec "e1" 1 "BOT" 10 100) None] ex_listener)) in
  let r := ex_request "SELL" "k2" 10 None in
  let '(s, _, _) := desk_run str_Z [EvSubmit 30 ex_paused ex_account (ex_weather "B" 2 3) r (ls_book s);
                                    EvExec 40 (ex_exec "e2" 2 "SLD" 10 101) None] s in
  map (fun p => (mp_trade_id p, mp_status p, Qred (mp_signed_qty p))) (mb_positions (ls_book s))
  = [("TRD_A"%string, MAN_OPEN, 10); ("TRD_B"%string, MAN_OPEN, -(10))].
Proof. vm_compute. reflexivity. Qed.
(** What an opening order fills after its position was closed is lost: the row
    stays closed and empty while the broker holds the shares. *)
Example late_open_fill_lost :
  let '(s, _, counted) := desk_run str_Z
    [ex_submit "BUY" "k1" "A" 1 10 None ex_desk; EvExec 20 (ex_exec "e1" 1 "BOT" 6 100) None;
     ex_submit "SELL" "k2" "B" 2 6 (Some "TRD_A"%string) ex_desk; EvExec 30 (ex_exec "e2" 2 "SLD" 6 101) None;
     EvExec 40 (ex_exec "e3" 1 "BOT" 4 100) None] ex_listener in
  counted = ["e1"%string; "e2"%string] /\ map (fun p => (mp_status p, Qred (mp_signed_qty p))) (mb_positions (ls_book s))
  = [(MAN_CLOSED, 0)] /\ exec_ids (ls_book s) = ["e1"%string; "e2"%string].
Proof. vm_compute. auto. Qed.
