(* ===== verification/EngineFlatten.v ===== *)
(** * The flatten of engine positions: [services/flatten_inflight.py], the engine
    flatten of [services/kill_switch.py] and [services/position_close_service.py]

    A pair is closed by reversing its legs through the basket coordinator; the
    ledger follows when the fills match what was open.  What the coordinator
    answers, and what other sessions do to the ledger while the orders work, is
    given: [Baskets.v] says what an execution can leave behind. *)

From S2P Require Import Prelude Rounding PyText PyTime Identifiers RmsModels Parser Sizer Accounts TradeBook Strategy Oms JobQueue SignalInbox Positions OrderLedger Persistence TradeExecutions ManualLedger KillSwitch ManualFlatten.

#[local] Open Scope Q_scope.
#[local] Open Scope py_scope.
#[local] Set Warnings "-clear-no-such-hyp".

(** ** Who is flattening what *)
Inductive FlattenKey : Type := LedgerKey (account_id : Z) (trade_id : string) | BrokerKey (account : string) (con_id : Z).
#[global] Instance FlattenKey_eq_dec : EqDecision FlattenKey.
Proof. solve_decision. Defined.
#[global] Instance FlattenKey_countable : Countable FlattenKey.
Proof.
  refine (inj_countable' (fun k => match k with LedgerKey a t => inl (a, t) | BrokerKey a c => inr (a, c) end)
    (fun x => match x with inl (a, t) => LedgerKey a t | inr (a, c) => BrokerKey a c end) _). by intros [].
Defined.
Definition ledger_key (account_id : Z) (trade_id : string) : FlattenKey := LedgerKey account_id trade_id.
Definition broker_flatten_key (ibkr_account : string) (con_id : Z) : FlattenKey := BrokerKey (norm_text ibkr_account) con_id.
Abbreviation Held := (gset FlattenKey).
Definition acquire_flatten (k : FlattenKey) (h : Held) : Held * bool :=
  if bool_decide (k ∈ h) then (h, false) else ({[k]} ∪ h, true).
(** All of the keys, or none. *)
Definition acquire_flatten_many (l : list FlattenKey) (h : Held) : Held * bool :=
  let unique := list_to_set l : Held in
  if bool_decide (unique ∩ h = ∅) then (unique ∪ h, true) else (h, false).
Definition release_flatten (k : FlattenKey) (h : Held) : Held := h ∖ {[k]}.
Definition release_flatten_many (l : list FlattenKey) (h : Held) : Held := h ∖ list_to_set l.

(** ** The orders of a flatten *)
Definition reverse_leg (index : Z) (symbol : string) (signed : option Q) (type : string) : list OrderLeg :=
  match signed with
  | Some q =>
      if str_empty symbol || negb (0 <? dabs q) then []
      else [{| leg_symbol := symbol; leg_side := if 0 <? q then SELL else BUY; leg_quantity := NDec (dabs q);
               leg_price := 0; leg_contract_month := None; leg_con_id := None; leg_notional := None;
               leg_instrument_type := Some (str_or type "STK"); leg_weight := None; leg_leg_index := Some index;
               leg_metadata := None; leg_exchange := None; leg_currency := None; leg_resolved := None |}]
  | None => []
  end.
Definition reverse_legs (p : PositionModel) : list OrderLeg :=
  reverse_leg 0 (p_leg_a_symbol p) (Some (p_leg_a_signed_qty p)) (p_leg_a_instrument_type p)
  ++ reverse_leg 1 (opt_str (p_leg_b_symbol p)) (p_leg_b_signed_qty p) (opt_str (p_leg_b_instrument_type p)).
Definition flatten_intent (prefix : string) (now account : Z) (ibkr : string) (p : PositionModel) : OrderIntent := {|
  signal_id := prefix ++ p_trade_id p; strategy_id := p_strategy_id p; action := CLOSE; legs := reverse_legs p;
  account_id := Some account; ibkr_account := Some ibkr; market := None; timestamp := now;
  intent_mode := EMERGENCY_FLATTEN |}.

(** What the coordinator returns for an intent, what the other sessions did to
    the ledger until then, and whether the closing transaction commits. *)
Record Executed : Type := {
  xe_result : result (bool * list OMSOrder);
  xe_meanwhile : PositionTable -> PositionTable;
  xe_commits : bool
}.
Definition fill_orders (orders : list OMSOrder) : list OMSOrder :=
  List.filter (fun o => negb (is_compensation o)) orders.

(** ** [_persist_flatten_close_if_filled] *)
Definition add_mark (f : OMSOrder -> option Q) (marks : gmap string Q) (o : OMSOrder) : gmap string Q :=
  match marks !! o_symbol o, f o with
  | None, Some price => <[o_symbol o := price]> marks
  | _, _ => marks
  end.
Definition marks_complete (p : PositionModel) (marks : gmap string Q) : bool := marks_cover (Some marks) p.
Definition flatten_marks (p : PositionModel) (orders : list OMSOrder) : gmap string Q :=
  let marks := exit_marks_from_orders orders in
  let marks := if marks_complete p marks then marks
               else fold_left (add_mark (fun o => executions_weighted_average (o_executions o))) orders marks in
  if marks_complete p marks then marks else fold_left (add_mark last_fill_price) orders marks.
Definition persist_flatten_close_if_filled (now account : Z) (trade : string) (orders : list OMSOrder)
    (m : PositionTable) : result (PositionTable * bool) :=
  match fill_orders orders with
  | [] => Ok (m, false)
  | fills =>
      let! row := get_open_by_trade_id trade (Some account) m in
      match row with
      | None => Ok (m, false)
      | Some p =>
          if close_fills_match_open p fills then
            let marks := flatten_marks p fills in
            if marks_complete p marks then
              let! r := Positions.close_trade now trade (Some account) (Some marks) (commission_from_orders fills) None m in
              Ok (fst r, true)
            else Ok (m, false)
          else Ok (m, false)
      end
  end.

Section Flatten.
(** [OrderManager._resolve_instruments] and [BasketCoordinator.execute]. *)
Variable resolve_instruments : OrderIntent -> result OrderIntent.
Variable execute : OrderIntent -> Executed.

(** [_flatten_single_position_locked], with a basket coordinator: whether it
    succeeded, and the ledger. *)
Definition flatten_single_position_locked (now account : Z) (ibkr : string) (p : PositionModel) (m : PositionTable)
    : PositionTable * result bool :=
  match reverse_legs p with
  | [] => (m, Ok true)
  | _ =>
      match resolve_instruments (flatten_intent "KILLSWITCH-" now account ibkr p) with
      | Raise e => (m, Raise e)
      | Ok intent =>
          let x := execute intent in
          let m := xe_meanwhile x m in
          match xe_result x with
          | Raise _ => (m, Ok false)
          | Ok (success, []) => (m, Ok success)
          | Ok (success, orders) =>
              match persist_flatten_close_if_filled now account (p_trade_id p) orders m with
              | Ok (m', _) => if xe_commits x then (m', Ok success) else (m, Ok false)
              | Raise _ => (m, Ok false)
              end
          end
      end
  end.
(** A position that someone else is flattening counts as flattened. *)
Definition flatten_single_position (now account : Z) (ibkr : string) (held : Held) (p : PositionModel)
    (m : PositionTable) : PositionTable * result bool :=
  if (acquire_flatten (ledger_key account (p_trade_id p)) held).2
  then flatten_single_position_locked now account ibkr p m else (m, Ok true).
Definition flatten_positions (now account : Z) (ibkr : string) (held : Held) (l : list PositionModel)
    (m : PositionTable) : PositionTable :=
  fold_left (fun m p => fst (flatten_single_position now account ibkr held p m)) l m.

(** ** [_reconcile_and_finalize] *)
Definition kill_switch_order_trade_ids (trade : string) : list string :=
  if String.prefix "KILLSWITCH-" trade then [trade] else [trade; ("KILLSWITCH-" ++ trade)%string].
Definition is_kill_switch_close_order (o : OrderModel) : bool :=
  if om_is_compensation o || str_in ":UNWIND:" (om_internal_order_id o) then false
  else str_in "KILLSWITCH-" (om_internal_order_id o) || str_in ":CLOSE" (om_internal_order_id o).
Fixpoint by_id (o : OrderModel) (l : list OrderModel) : list OrderModel :=
  match l with
  | [] => [o]
  | x :: l' => if (om_id x <? om_id o)%Z then x :: by_id o l' else o :: l
  end.
Definition list_by_trade_id (trade : string) (orders : OrderTable) : list OrderModel :=
  fold_right by_id [] (List.filter (fun o => bool_decide (om_trade_id o = Some trade)) (map snd (map_to_list orders))).
Definition order_oid (o : OrderModel) : string := str_or (om_internal_order_id o) (str_Z (om_id o)).
Definition add_unseen (l : list OrderModel) (o : OrderModel) : list OrderModel :=
  if existsb (fun x => String.eqb (order_oid x) (order_oid o)) l then l else l ++ [o].
Definition pos_orders (trade : string) (orders : OrderTable) : list OrderModel :=
  fold_left add_unseen (flat_map (fun t => list_by_trade_id t orders) (kill_switch_order_trade_ids trade)) [].

(** [weighted_average_price] of rows of the execution table. *)
Definition weighted_average_price (rows : list BrokerExecution) : option Q := executions_weighted_average rows.
Definition list_by_internal_order_id (id : string) (execs : list BrokerExecution) : list BrokerExecution :=
  List.filter (fun e => String.eqb (be_internal_order_id e) id) execs.
(** Marks and quantities of one filled order. *)
Definition tally_order (execs : list BrokerExecution) (acc : gmap string Q * gmap string Q) (o : OrderModel)
    : gmap string Q * gmap string Q :=
  let '(marks, filled) := acc in
  let rows := list_by_internal_order_id (om_internal_order_id o) execs in
  let symbol := om_symbol o in
  let marks := match om_fill_price o with
               | Some price => if str_empty symbol then marks else <[symbol := price]> marks
               | None => marks
               end in
  let marks := if str_empty symbol then marks
               else match marks !! symbol, weighted_average_price rows with
                    | None, Some price => <[symbol := price]> marks
                    | _, _ => marks
                    end in
  let qty := default 0 (om_fill_qty o) in
  let qty := if qty <=? 0 then fold_left (fun a e => dadd a (be_quantity e)) rows 0 else qty in
  (marks, if str_empty symbol || (qty <=? 0) then filled
          else <[symbol := dadd (default 0 (filled !! symbol)) qty]> filled).
(** A mark that is still missing, from the executions of its orders. *)
Definition mark_from_executions (execs : list BrokerExecution) (filled : list OrderModel) (marks : gmap string Q)
    (symbol : string) : gmap string Q :=
  match marks !! symbol with
  | Some _ => marks
  | None =>
      match omap (fun o => if String.eqb (om_symbol o) symbol
                           then weighted_average_price (list_by_internal_order_id (om_internal_order_id o) execs)
                           else None) filled with
      | price :: _ => <[symbol := price]> marks
      | [] => marks
      end
  end.
Definition filled_closes (trade : string) (orders : OrderTable) : list OrderModel :=
  List.filter (fun o => bool_decide (om_status o = FILLED))
    (List.filter is_kill_switch_close_order (pos_orders trade orders)).
Definition close_evidence (orders : OrderTable) (execs : list BrokerExecution) (p : PositionModel)
    : gmap string Q * gmap string Q :=
  let filled := filled_closes (p_trade_id p) orders in
  let '(marks, qtys) := fold_left (tally_order execs) filled (∅, ∅) in
  (fold_left (mark_from_executions execs filled) (needed_symbols p) marks, qtys).
Definition repair_position (now account : Z) (orders : OrderTable) (execs : list BrokerExecution)
    (m : PositionTable) (p : PositionModel) : result PositionTable :=
  let req_legs := if str_empty (opt_str (p_leg_b_symbol p)) then 1%nat else 2%nat in
  if (req_legs <=? length (filled_closes (p_trade_id p) orders))%nat then
    let '(marks, qtys) := close_evidence orders execs p in
    if marks_complete p marks then
      match assert_close_qty_matches_open p qtys with
      | Ok _ => let! r := Positions.close_trade now (p_trade_id p) (Some account) (Some marks) None None m in
                Ok (fst r)
      | Raise (ModelBlueValidationError _) => Ok m
      | Raise e => Raise e
      end
    else Ok m
  else Ok m.
Fixpoint repair_positions (now account : Z) (orders : OrderTable) (execs : list BrokerExecution)
    (l : list PositionModel) (m : PositionTable) : result PositionTable :=
  match l with
  | [] => Ok m
  | p :: l => let! m := repair_position now account orders execs m p in repair_positions now account orders execs l m
  end.
Definition account_open (account : Z) (m : PositionTable) : list PositionModel :=
  List.filter (fun p => (p_account_id p =? account)%Z) (list_open m).
Definition set_ks_positions (m : PositionTable) (s : KillState) : KillState := {|
  ks_accounts := ks_accounts s; ks_ops := ks_ops s; ks_snapshots := ks_snapshots s; ks_positions := m;
  ks_manual := ks_manual s; ks_cache := ks_cache s; ks_manual_cache := ks_manual_cache s |}.
Definition reconcile_and_finalize (now op account : Z) (orders : OrderTable) (execs : list BrokerExecution)
    (s : KillState) : result KillState :=
  let! m := repair_positions now account orders execs (account_open account (ks_positions s)) (ks_positions s) in
  let unresolved := Z.of_nat (length (account_open account m)) in
  Ok (update_operation_completion now op (if (unresolved =? 0)%Z then KS_COMPLETE else KS_UNRESOLVED) unresolved
        (set_ks_positions m s)).

(** ** [_execute_flatten_operation] *)
Definition execute_flatten_operation (now op : Z) (held : Held) (orders : OrderTable) (execs : list BrokerExecution)
    (s : KillState) : result KillState :=
  match begin_flatten now op s with
  | (s, None) => Ok s
  | (s, Some o) =>
      match open_positions_of (op_account_id o) s with
      | [] => Ok (update_operation_completion now op KS_COMPLETE 0 s)
      | (p :: _) as l =>
          let m := flatten_positions now (op_account_id o) (op_ibkr_account o) held l (ks_positions s) in
          reconcile_and_finalize now op (p_account_id p) orders execs (set_ks_positions m s)
      end
  end.

(** ** [SinglePairCloseService]: one pair, without the kill switch *)
Inductive PairStatus : Type := PAIR_CLOSED | PAIR_PARTIAL | PAIR_FAILED.
Inductive PairClose : Type := PairRefused (status_code : Z) | PairRaises (e : exn) | PairResponse (status : PairStatus).
(** What other sessions do between the check of the fills and the closing
    transaction, and whether the RMS can be rebuilt afterwards. *)
Record PairWeather : Type := { pw_between : PositionTable -> PositionTable; pw_rebuild : result unit }.
Definition any_filled (orders : list OMSOrder) : bool :=
  negb (bool_decide (filled_qty_by_symbol (fill_orders orders) = ∅)).
(** The closing transaction: the row is read again. *)
Definition persist_pair_close (now account : Z) (trade : string) (reason : option string) (fills : list OMSOrder)
    (m : PositionTable) : result PositionTable :=
  let! row := get_open_by_trade_id trade (Some account) m in
  match row with
  | None => Ok m
  | Some p =>
      let! _ := assert_close_qty_matches_open p (filled_qty_by_symbol fills) in
      let! r := Positions.close_trade now trade (Some account) (Some (exit_marks_from_orders fills))
                  (commission_from_orders fills) reason m in
      Ok (fst r)
  end.
Definition settle_pair_close (now account : Z) (trade : string) (reason : option string) (w : PairWeather)
    (commits : bool) (fills : list OMSOrder) (m : PositionTable) : PositionTable * PairStatus :=
  match get_open_by_trade_id trade (Some account) m with
  | Raise _ => (m, PAIR_FAILED)
  | Ok row =>
      if match row with Some p => close_fills_match_open p fills | None => false end then
        let m := pw_between w m in
        match persist_pair_close now account trade reason fills m with
        | Ok m' => if commits then (m', match pw_rebuild w with Ok _ => PAIR_CLOSED | Raise _ => PAIR_FAILED end)
                   else (m, PAIR_FAILED)
        | Raise _ => (m, PAIR_FAILED)
        end
      else (m, if any_filled fills then PAIR_PARTIAL else PAIR_FAILED)
  end.
Definition submit_pair_close (now account : Z) (ibkr : string) (reason : option string) (w : PairWeather)
    (p : PositionModel) (m : PositionTable) : PositionTable * PairClose :=
  match resolve_instruments (flatten_intent "CLOSEPAIR-" now account ibkr p) with
  | Raise e => (m, PairRaises e)
  | Ok intent =>
      let x := execute intent in
      let m := xe_meanwhile x m in
      match xe_result x with
      | Raise _ => (m, PairResponse PAIR_FAILED)
      | Ok (_, orders) =>
          let r := settle_pair_close now account (p_trade_id p) reason w (xe_commits x) (fill_orders orders) m in
          (r.1, PairResponse r.2)
      end
  end.
Definition do_close_pair (now account : Z) (trade : string) (ibkr : option string) (reason : option string)
    (held : Held) (w : PairWeather) (m : PositionTable) : PositionTable * PairClose :=
  match ibkr with
  | None => (m, PairRefused 404)
  | Some ibkr =>
      match get_open_by_trade_id trade (Some account) m with
      | Raise e => (m, PairRaises e)
      | Ok None =>
          match get_by_trade_id trade (Some account) m with
          | Raise e => (m, PairRaises e)
          | Ok (Some _) => (m, PairRefused 400)
          | Ok None => (m, PairRefused 404)
          end
      | Ok (Some p) =>
          match reverse_legs p with
          | [] => (m, PairResponse PAIR_CLOSED)
          | _ => if (acquire_flatten (ledger_key account trade) held).2
                 then submit_pair_close now account ibkr reason w p m else (m, PairRefused 409)
          end
      end
  end.
End Flatten.

(** ** Facts *)
(** The row of a trade is closed on evidence: it was open, [filled] matches
    the open quantity of each leg, every leg has a mark, and the profit is the
    one between the entry marks and these. *)
Definition closed_on (now account : Z) (trade : string) (marks : PositionModel -> gmap string Q)
    (commission : option Q) (reason : option string) (filled : PositionModel -> gmap string Q)
    (m m' : PositionTable) : Prop :=
  exists p p', m !! (account, trade) = Some p /\ p_risk_state p = RISK_STATE_OPEN
    /\ assert_close_qty_matches_open p (filled p) = Ok tt /\ marks_cover (Some (marks p)) p = true
    /\ store (closed_row now (marks p) commission reason p) = Ok p' /\ m' = <[(account, trade) := p']> m.

Lemma get_open_some trade account m p :
  keyed m -> get_open_by_trade_id trade (Some account) m = Ok (Some p) ->
  m !! (account, trade) = Some p /\ p_risk_state p = RISK_STATE_OPEN.
Proof.
  intros K. rewrite (get_open_at m K). destruct (m !! _) as [q|]; [|done].
  destruct (in_state _ q) eqn:O; [|done]. intros [= <-]. unfold in_state in O. by apply bool_decide_eq_true_1 in O.
Qed.
Lemma close_matched now account trade marks c r filled m m' p q :
  keyed m -> m !! (account, trade) = Some p -> p_risk_state p = RISK_STATE_OPEN ->
  assert_close_qty_matches_open p (filled p) = Ok tt ->
  Positions.close_trade now trade (Some account) (Some (marks p)) c r m = Ok (m', q) ->
  closed_on now account trade marks c r filled m m'.
Proof.
  intros K L O A. rewrite (close_trade_at _ _ _ _ _ _ _ K), L. unfold in_state. rewrite O. simpl.
  destruct (forallb _ _) eqn:M; [|done].
  intros (m1 & (p' & S & ->)%save_ok & [= <- <-])%rbind_ok. exists p, p'. split_and!; try done.
  f_equal. rewrite closed_row_key. by apply (K (account, trade) p).
Qed.
Lemma closed_on_keyed now account trade marks c r filled m m' :
  keyed m -> closed_on now account trade marks c r filled m m' -> keyed m'.
Proof.
  intros K (p & p' & L & _ & _ & _ & S & ->) k q Q. apply lookup_insert_Some in Q as [[<- <-]|[_ Q]]; [|by apply K].
  rewrite (store_key _ _ S), closed_row_key. by apply (K (account, trade) p).
Qed.
Lemma matches_assert p fills :
  close_fills_match_open p fills = true -> assert_close_qty_matches_open p (filled_qty_by_symbol fills) = Ok tt.
Proof. unfold close_fills_match_open, assert_close_qty_matches_open. by destruct (forallb _ _). Qed.

Section FlattenFacts.
Variable resolve_instruments : OrderIntent -> result OrderIntent.
Variable execute : OrderIntent -> Executed.
Hypothesis meanwhile_keyed : forall i m, keyed m -> keyed (xe_meanwhile (execute i) m).
Variables (now account : Z) (ibkr : string) (orders : OrderTable) (execs : list BrokerExecution).

(** The steps of an engine flatten: another session, a close on the fills of
    the flatten's own orders, a close on rows of filled closing orders. *)
Inductive flatten_step : PositionTable -> PositionTable -> Prop :=
  | FlattenOthers i m : flatten_step m (xe_meanwhile (execute i) m)
  | FlattenFilled p i ok os m m' :
      resolve_instruments (flatten_intent "KILLSWITCH-" now account ibkr p) = Ok i ->
      xe_result (execute i) = Ok (ok, os) -> fill_orders os <> [] ->
      closed_on now account (p_trade_id p) (fun q => flatten_marks q (fill_orders os))
        (commission_from_orders (fill_orders os)) None (fun _ => filled_qty_by_symbol (fill_orders os)) m m' ->
      flatten_step m m'
  | FlattenRepaired trade m m' :
      filled_closes trade orders <> [] ->
      closed_on now account trade (fun q => fst (close_evidence orders execs q)) None None
        (fun q => snd (close_evidence orders execs q)) m m' ->
      flatten_step m m'.

Lemma persist_flatten_step p i ok os m m' b :
  keyed m -> resolve_instruments (flatten_intent "KILLSWITCH-" now account ibkr p) = Ok i ->
  xe_result (execute i) = Ok (ok, os) ->
  persist_flatten_close_if_filled now account (p_trade_id p) os m = Ok (m', b) -> rtc flatten_step m m'.
Proof.
  intros K R X. unfold persist_flatten_close_if_filled.
  destruct (fill_orders os) as [|f fs] eqn:F; [by intros [= <- _]|]. rewrite <- F in *.
  intros ([q|] & G & H)%rbind_ok; [|by injection H as <- _]. apply (get_open_some _ _ _ _ K) in G as [L O].
  destruct (close_fills_match_open q _) eqn:M; [|by injection H as <- _]. apply matches_assert in M. cbv zeta in H.
  destruct (marks_complete q _); [|by injection H as <- _].
  apply rbind_ok in H as ([m1 q'] & C & [= <- _]). apply rtc_once. eapply FlattenFilled; [done|done|by rewrite F|].
  by eapply (close_matched now account _ (fun q => flatten_marks q (fill_orders os)));
    [..|exact C].
Qed.
Lemma flatten_single_step held p m :
  keyed m -> rtc flatten_step m (fst (flatten_single_position resolve_instruments execute now account ibkr held p m)).
Proof.
  intros K. unfold flatten_single_position. destruct (snd (acquire_flatten _ _)); [|done].
  unfold flatten_single_position_locked. destruct (reverse_legs p) as [|? ?]; [done|].
  destruct (resolve_instruments _) as [i|e] eqn:R; [|done]. cbv zeta.
  eapply rtc_l; [apply (FlattenOthers i)|]. set (m1 := xe_meanwhile (execute i) m).
  assert (K1 : keyed m1) by (by apply meanwhile_keyed).
  destruct (xe_result (execute i)) as [[ok [|f os]]|e] eqn:X; [done| |done].
  destruct (persist_flatten_close_if_filled _ _ _ _ _) as [[m' b]|e] eqn:P; [|done].
  destruct (xe_commits _); [|done]. by eapply persist_flatten_step.
Qed.
Lemma flatten_step_keyed m m' : keyed m -> flatten_step m m' -> keyed m'.
Proof.
  intros K S. revert K. destruct S as [i m|p i ok os m m' _ _ _ C|trade m m' _ C]; intros K;
    [by apply meanwhile_keyed|by eapply closed_on_keyed..].
Qed.
Lemma flatten_steps_keyed m m' : keyed m -> rtc flatten_step m m' -> keyed m'.
Proof. intros K. induction 1 as [|m m1 m2 S _ IH]; [done|]. by eapply IH, flatten_step_keyed. Qed.
Lemma flatten_positions_steps held l m :
  keyed m -> rtc flatten_step m (flatten_positions resolve_instruments execute now account ibkr held l m).
Proof.
  revert m. induction l as [|p l IH]; intros m K; [done|]. unfold flatten_positions. cbn [fold_left].
  pose proof (flatten_single_step held p m K) as S. etrans; [exact S|]. by eapply IH, flatten_steps_keyed.
Qed.

(** Repairing a row leaves the others. *)
Lemma repair_position_step p m m' :
  keyed m -> m !! (account, p_trade_id p) = Some p -> p_risk_state p = RISK_STATE_OPEN ->
  repair_position now account orders execs m p = Ok m' ->
  rtc flatten_step m m' /\ forall k, k <> (account, p_trade_id p) -> m' !! k = m !! k.
Proof.
  intros K L O. unfold repair_position.
  destruct (_ <=? _)%nat eqn:N; [|by intros [= <-]].
  destruct (close_evidence orders execs p) as [marks qtys] eqn:E.
  destruct (marks_complete p marks); [|by intros [= <-]].
  destruct (assert_close_qty_matches_open p qtys) as [[]|[]] eqn:A; try done; [|by intros [= <-]].
  intros ([m1 q] & C & [= <-])%rbind_ok.
  assert (X : closed_on now account (p_trade_id p) (fun q => fst (close_evidence orders execs q)) None None
        (fun q => snd (close_evidence orders execs q)) m m1).
  { by eapply (close_matched now account _ (fun q => fst (close_evidence orders execs q)));
      [..|by rewrite E|rewrite E; exact C]. }
  split; [|intros k Nk; destruct X as (? & ? & _ & _ & _ & _ & _ & ->); by rewrite lookup_insert_ne].
  apply rtc_once. eapply FlattenRepaired; [|exact X]. intros Z. rewrite Z in N. by destruct (str_empty _).
Qed.
Lemma repair_positions_steps l m m' :
  keyed m -> NoDup (map p_trade_id l) ->
  (forall p, p ∈ l -> m !! (account, p_trade_id p) = Some p /\ p_risk_state p = RISK_STATE_OPEN) ->
  repair_positions now account orders execs l m = Ok m' -> rtc flatten_step m m'.
Proof.
  revert m. induction l as [|p l IH]; intros m K D A; simpl; [by intros [= <-]|].
  intros (m1 & R & H)%rbind_ok. apply NoDup_cons in D as [D1 D2]. destruct (A p) as [L O]; [by left|].
  destruct (repair_position_step _ _ _ K L O R) as [S U]. etrans; [exact S|].
  apply IH; [by eapply flatten_steps_keyed|done| |done]. intros q Q. destruct (A q) as [Lq Oq]; [by right|].
  split; [|done]. rewrite U; [done|]. intros [= E]. apply D1. rewrite <- E.
  by apply list_elem_of_In, in_map, list_elem_of_In.
Qed.

Lemma account_open_elem m p :
  keyed m -> p ∈ account_open account m ->
  m !! (account, p_trade_id p) = Some p /\ p_risk_state p = RISK_STATE_OPEN.
Proof.
  intros K I. unfold account_open, list_open, rows in I.
  apply filter_elem in I as [[I O]%filter_elem A]. apply list_elem_of_fmap in I as ([k q] & -> & I).
  apply elem_of_map_to_list in I. simpl in *. pose proof (K _ _ I) as E. unfold row_key in E.
  apply Z.eqb_eq in A. split; [by rewrite <- A, E|]. unfold in_state in O. by apply bool_decide_eq_true_1 in O.
Qed.
Lemma open_trades_nodup (l : list ((Z * string) * PositionModel)) :
  NoDup l.*1 -> (forall x, x ∈ l -> row_key (snd x) = fst x) ->
  NoDup (map p_trade_id (List.filter (fun p => (p_account_id p =? account)%Z)
                           (List.filter (in_state RISK_STATE_OPEN) (map snd l)))).
Proof.
  induction l as [|[k q] l IH]; intros D K; [apply NoDup_nil_2|]. cbn [map List.filter snd].
  apply NoDup_cons in D as [D1 D2]. assert (IH' := IH D2 (fun x I => K x (list_elem_of_further _ _ _ I))).
  destruct (in_state _ q); [|exact IH']. cbn [List.filter].
  destruct (p_account_id q =? account)%Z eqn:A; [|exact IH']. cbn [map]. apply NoDup_cons. split; [|exact IH'].
  intros (q' & E & I)%list_elem_of_fmap. apply filter_elem in I as [[I _]%filter_elem A'].
  apply list_elem_of_fmap in I as ([k' r] & -> & I). apply D1, list_elem_of_fmap. exists (k', r). split; [|done].
  pose proof (K (k', r) (list_elem_of_further _ _ _ I)) as E1. pose proof (K (k, q) (list_elem_of_here _ _)) as E2.
  simpl in *. unfold row_key in E1, E2. apply Z.eqb_eq in A, A'. congruence.
Qed.
Lemma repaired_steps m m' :
  keyed m -> repair_positions now account orders execs (account_open account m) m = Ok m' -> rtc flatten_step m m'.
Proof.
  intros K. apply repair_positions_steps; [done| |intros p; by apply account_open_elem].
  apply open_trades_nodup; [apply NoDup_fst_map_to_list|]. intros [k q] I%elem_of_map_to_list. by apply K.
Qed.
End FlattenFacts.

Lemma open_positions_account a s : open_positions_of a s = account_open a (ks_positions s).
Proof.
  unfold open_positions_of, account_open, list_open, rows. induction (map snd _) as [|p l IH]; [done|].
  cbn [List.filter]. rewrite IH. unfold in_state.
  destruct (bool_decide _); cbn [List.filter]; destruct (_ =? _)%Z; done.
Qed.
(** The end of an operation that is flattening. *)
Definition finalized (m : PositionTable) (o o' : Operation) : Prop :=
  let open := account_open (op_account_id o) m in
  op_unresolved_count o' = Z.of_nat (length open)
  /\ op_status o' = match open with [] => KS_COMPLETE | _ => KS_UNRESOLVED end.
Lemma completion_at now id status unresolved s o :
  ks_ops s !! id = Some o -> op_status o = KS_FLATTENING ->
  ks_ops (update_operation_completion now id status unresolved s) !! id = Some (completed_row now status unresolved o)
  /\ ks_positions (update_operation_completion now id status unresolved s) = ks_positions s.
Proof.
  intros L St. unfold update_operation_completion. rewrite L, St. simpl. by rewrite lookup_insert_eq.
Qed.
Lemma finalize_at now op account orders execs s s' o :
  ks_ops s !! op = Some o -> op_status o = KS_FLATTENING -> op_account_id o = account ->
  reconcile_and_finalize now op account orders execs s = Ok s' ->
  repair_positions now account orders execs (account_open account (ks_positions s)) (ks_positions s)
    = Ok (ks_positions s')
  /\ exists o', ks_ops s' !! op = Some o' /\ finalized (ks_positions s') o o'.
Proof.
  intros L St A. unfold reconcile_and_finalize. intros (m & R & H)%rbind_ok. injection H as <-.
  pose proof (completion_at now op (if Z.of_nat (length (account_open account m)) =? 0 then KS_COMPLETE
    else KS_UNRESOLVED)%Z (Z.of_nat (length (account_open account m))) (set_ks_positions m s) o) as [C1 C2]; [done..|].
  rewrite C2. simpl. split; [exact R|]. eexists. split; [exact C1|]. unfold finalized. simpl. rewrite A.
  split; [done|]. by destruct (account_open account m).
Qed.

(** C30: An engine flatten changes the ledger on evidence only, and tells what is
    left: but for what other sessions write while the orders work, an open
    row of the account is closed, with marks for its legs, when the fills of
    the orders that reverse it, or the rows of filled closing orders of its
    trade, match the open quantity of each leg; and the operation ends
    COMPLETE when no row of the account is open, UNRESOLVED with their number
    otherwise. *)
Theorem engine_flatten_ledger (resolve_instruments : OrderIntent -> result OrderIntent)
    (execute : OrderIntent -> Executed) (now op : Z) (held : Held) (orders : OrderTable)
    (execs : list BrokerExecution) (s s' : KillState) (o : Operation) :
  (forall i m, keyed m -> keyed (xe_meanwhile (execute i) m)) ->
  keyed (ks_positions s) -> ks_ops s !! op = Some o -> op_status o ∉ [KS_COMPLETE; KS_UNRESOLVED; KS_CLEARED] ->
  execute_flatten_operation resolve_instruments execute now op held orders execs s = Ok s' ->
  rtc (flatten_step resolve_instruments execute now (op_account_id o) (op_ibkr_account o) orders execs)
    (ks_positions s) (ks_positions s')
  /\ exists o', ks_ops s' !! op = Some o' /\ finalized (ks_positions s') o o'.
Proof.
  intros Mk K L St. unfold execute_flatten_operation, begin_flatten. rewrite L, bool_decide_eq_false_2 by done.
  cbv zeta. rewrite open_positions_account. cbn [op_account_id with_status op_ibkr_account ks_positions set_ops].
  destruct (account_open (op_account_id o) (ks_positions s)) as [|p l] eqn:Op.
  - intros [= <-]. set (s1 := set_ops _ s).
    destruct (completion_at now op KS_COMPLETE 0 s1 (with_status KS_FLATTENING o)) as [C1 C2];
      [apply lookup_insert_eq|done|]. rewrite C2, C1. split; [done|]. eexists. split; [done|].
    unfold finalized, s1. cbn [ks_positions set_ops]. by rewrite Op.
  - assert (Ap : p_account_id p = op_account_id o).
    { assert (I : p ∈ account_open (op_account_id o) (ks_positions s)) by (rewrite Op; by left).
      unfold account_open in I. apply filter_elem in I as [_ A%Z.eqb_eq]. exact A. }
    rewrite Ap. intros F. eapply finalize_at in F as (R & o' & L' & Z);
      [|apply lookup_insert_eq|done|done]. split; [|by exists o'].

    pose proof (flatten_positions_steps resolve_instruments execute Mk now (op_account_id o) (op_ibkr_account o) orders execs held (p :: l) _ K) as S.
    etrans; [exact S|]. eapply (repaired_steps resolve_instruments execute Mk); [|exact R].
    by eapply (flatten_steps_keyed resolve_instruments execute Mk now (op_account_id o) (op_ibkr_account o) orders execs).
Qed.

(** *** The pair close *)
Section PairFacts.
Variable resolve_instruments : OrderIntent -> result OrderIntent.
Variable execute : OrderIntent -> Executed.
Variable w : PairWeather.
Hypothesis meanwhile_keyed : forall i m, keyed m -> keyed (xe_meanwhile (execute i) m).
Hypothesis between_keyed : forall m, keyed m -> keyed (pw_between w m).
Variables (now account : Z) (trade : string) (reason : option string).

End PairFacts.


(** ** Examples *)
Definition ex_closers : list OMSOrder :=
  [Persistence.ex_fill "c1" "SPY" SELL 0 10 510 1 ex_open_intent; Persistence.ex_fill "c2" "QQQ" BUY 1 12 390 1 ex_open_intent].
Definition ex_executes (r : result (bool * list OMSOrder)) (f : PositionTable -> PositionTable) (_ : OrderIntent)
    : Executed := {| xe_result := r; xe_meanwhile := f; xe_commits := true |}.
Definition ex_calm : PairWeather := {| pw_between := id; pw_rebuild := Ok tt |}.
Definition ex_state_of (s : KillState) : option KsStatus * option RiskState :=
  (option_map op_status (ks_ops s !! 1%Z), option_map p_risk_state (ks_positions s !! (7%Z, "T1"%string))).
Definition ex_finish (r : result KillState) : option KsStatus * option RiskState :=
  match r with Ok s => ex_state_of s | Raise _ => (None, None) end.
Definition ex_close_row (id : Z) (oid symbol : string) (side : OrderSide) (qty price : Q) : OrderModel := {|
  om_id := id; om_signal_id := 1; om_trade_id := Some "KILLSWITCH-T1"%string; om_internal_order_id := oid;
  om_basket_id := None; om_is_compensation := false; om_compensation_of := None; om_account_id := 8;
  om_strategy_id := "model_blue"; om_leg := symbol; om_symbol := symbol; om_ibkr_contract := symbol;
  om_buy_sell := side; om_quantity := qty; om_limit_price := price; om_status := FILLED;
  om_broker_order_id := None; om_fill_price := Some price; om_fill_qty := Some qty; om_filled_at := None;
  om_margin_impact := None; om_updated_at := 25 |}.
Definition ex_other_orders : OrderTable :=
  {[ "KILLSWITCH-T1:8:0"%string := ex_close_row 1 "KILLSWITCH-T1:8:0" "SPY" SELL 10 510;
     "KILLSWITCH-T1:8:1"%string := ex_close_row 2 "KILLSWITCH-T1:8:1" "QQQ" BUY 12 390 ]}.

(** A flatten whose orders fill, and one whose orders fail. *)
Example flatten_outcomes :
  ex_finish (execute_flatten_operation Ok (ex_executes (Ok (true, ex_closers)) id) 30 1 ∅ ∅ [] ex_armed)
    = (Some KS_COMPLETE, Some RISK_STATE_CLOSED)
  /\ ex_finish (execute_flatten_operation Ok (ex_executes (Raise TimeoutError) id) 30 1 ∅ ∅ [] ex_armed)
    = (Some KS_UNRESOLVED, Some RISK_STATE_OPEN).
Proof. by vm_compute. Qed.
(** The orders of a trade are looked up for every account: when the flatten of
    account 8 has filled and the one of account 7 fails, account 7's row of
    the same trade is closed and its operation is COMPLETE. *)
Example repaired_by_other_account :
  Forall (fun o => om_account_id o = 8%Z) (map snd (map_to_list ex_other_orders))
  /\ ex_finish (execute_flatten_operation Ok (ex_executes (Raise TimeoutError) id) 30 1 ∅ ex_other_orders [] ex_armed)
    = (Some KS_COMPLETE, Some RISK_STATE_CLOSED).
Proof. split; [by vm_compute; repeat constructor|by vm_compute]. Qed.
(** The kill switch flattens the positions it read when it began: one that is
    closed by the time its turn comes is reversed all the same. *)
Example stale_position_flattened :
  let closed := {[ (7, "T1"%string) := with_state RISK_STATE_CLOSED (Some 25) None ex_ks_position ]}%Z : PositionTable in
  let x := ex_executes (Ok (true, ex_closers)) (fun m => delete (7, "T1"%string)%Z m) in
  fst (flatten_single_position Ok x 30 7 "DU7" ∅ ex_ks_position closed) = ∅.
Proof. by vm_compute. Qed.
(** A row that waits for its price is no longer open, and does not keep an
    operation from being COMPLETE. *)
Example pending_counts_as_flat :
  let pending := {[ (7, "T1"%string) := with_state RISK_STATE_FLATTENED_PENDING_PRICE None None ex_ks_position ]}%Z in
  ex_finish (execute_flatten_operation Ok (ex_executes (Raise TimeoutError) id) 30 1 ∅ ∅ []
    (set_ks_positions pending ex_armed)) = (Some KS_COMPLETE, Some RISK_STATE_FLATTENED_PENDING_PRICE).
Proof. by vm_compute. Qed.
Example pair_outcomes :
  let run r := snd (do_close_pair Ok (ex_executes r id) 30 7 "T1" (Some "DU7"%string) None ∅ ex_calm (ks_positions ex_kill)) in
  run (Ok (true, ex_closers)) = PairResponse PAIR_CLOSED
  /\ run (Ok (false, firstn 1 ex_closers)) = PairResponse PAIR_PARTIAL
  /\ run (Ok (false, [])) = PairResponse PAIR_FAILED.
Proof. by vm_compute. Qed.
(** A close whose RMS rebuild fails is reported FAILED with the row closed. *)
Example closed_but_failed :
  let r := do_close_pair Ok (ex_executes (Ok (true, ex_closers)) id) 30 7 "T1" (Some "DU7"%string) None ∅
    {| pw_between := id; pw_rebuild := Raise TimeoutError |} (ks_positions ex_kill) in
  snd r = PairResponse PAIR_FAILED
  /\ option_map p_risk_state (fst r !! (7%Z, "T1"%string)) = Some RISK_STATE_CLOSED.
Proof. by vm_compute. Qed.

Lemma ex_kill_keyed : keyed (ks_positions ex_kill).
Proof. intros k p L. simpl in L. by apply lookup_singleton_Some in L as [<- <-]. Qed.
Lemma engine_flatten_ledger_witness :
  exists s', execute_flatten_operation Ok (ex_executes (Ok (true, ex_closers)) id) 30 1 ∅ ∅ [] ex_armed = Ok s'
    /\ exists o', ks_ops s' !! 1%Z = Some o' /\ op_status o' = KS_COMPLETE.
Proof.
  assert (E : exists s', execute_flatten_operation Ok (ex_executes (Ok (true, ex_closers)) id) 30 1 ∅ ∅ [] ex_armed
    = Ok s' /\ account_open 7 (ks_positions s') = []) by (eexists; split; [vm_compute; reflexivity|vm_compute; reflexivity]).
  destruct E as (s' & E & Op). exists s'. split; [exact E|].
  assert (K0 : keyed (ks_positions ex_armed)) by exact ex_kill_keyed.
  assert (L0 : ks_ops ex_armed !! 1%Z = Some (new_operation 1 20 7 "DU7" SCOPE_ENGINE KS_ACTIVATING "operator" 1))
    by (vm_compute; reflexivity).
  assert (N : KS_ACTIVATING ∉ [KS_COMPLETE; KS_UNRESOLVED; KS_CLEARED]) by (by apply (bool_decide_unpack _)).
  destruct (engine_flatten_ledger Ok (ex_executes (Ok (true, ex_closers)) id) 30 1 ∅ ∅ [] ex_armed s' _
    (fun _ _ K => K) K0 L0 N E) as (_ & o' & L & _ & St).
  exists o'. split; [exact L|]. rewrite St. change (op_account_id _) with 7%Z. by rewrite Op.
Defined.
