(* ===== verification/Reconcile.v ===== *)
(** * Broker against ledger: [services/position_reconciler.py] over
    [db/repositories/broker_position_repository.py], and
    [parse_ibkr_contract] of [services/critical_recovery.py]

    What IBKR reports is compared with the open positions of the engine and of
    the manual desk, account by account and symbol by symbol; differences that
    last become alerts.  The sweep never changes a position. *)

From S2P Require Import Prelude Rounding PyText PyTime Identifiers RmsModels Accounts TradeBook Instruments Oms Coordinator JobQueue Positions OrderLedger ManualLedger.

#[local] Open Scope Q_scope.
#[local] Open Scope py_scope.
#[local] Set Warnings "-clear-no-such-hyp".

(** [QTY_EPSILON = 1e-6], a float. *)
Definition QTY_EPSILON : Q := fl (1 # 1000000).
Definition ROGUE_CONFIRM_SWEEPS : Z := 2.

Inductive Mismatch : Type :=
  | MISMATCH_MATCH | MISMATCH_LEDGER_GHOST | MISMATCH_BROKER_ORPHAN | MISMATCH_QTY_DRIFT
  | MISMATCH_UNMAPPED_ACCOUNT.
#[global] Instance Mismatch_eq_dec : EqDecision Mismatch.
Proof. solve_decision. Defined.
Definition mismatch_value (k : Mismatch) : string :=
  match k with
  | MISMATCH_MATCH => "MATCH" | MISMATCH_LEDGER_GHOST => "LEDGER_GHOST"
  | MISMATCH_BROKER_ORPHAN => "BROKER_ORPHAN" | MISMATCH_QTY_DRIFT => "QTY_DRIFT"
  | MISMATCH_UNMAPPED_ACCOUNT => "UNMAPPED_ACCOUNT"
  end.
#[global] Instance Mismatch_countable : Countable Mismatch.
Proof.
  refine (inj_countable mismatch_value (fun s =>
    List.find (fun k => String.eqb (mismatch_value k) s)
      [MISMATCH_MATCH; MISMATCH_LEDGER_GHOST; MISMATCH_BROKER_ORPHAN; MISMATCH_QTY_DRIFT; MISMATCH_UNMAPPED_ACCOUNT]) _).
  by intros [].
Defined.
Definition ROGUE_MISMATCH_KINDS : list Mismatch :=
  [MISMATCH_QTY_DRIFT; MISMATCH_BROKER_ORPHAN; MISMATCH_LEDGER_GHOST].

(** [BrokerPositionLine]; the quantities are floats. *)
Record BrokerPositionLine : Type := {
  bl_ibkr_account : string;
  bl_symbol : string;
  bl_sec_type : string;
  bl_con_id : Z;
  bl_currency : string;
  bl_exchange : string;
  bl_quantity : Q;
  bl_avg_cost : Q
}.
(** [PositionSnapshotCollector]: the callbacks of one request. *)
Record PositionCollector : Type := { pc_lines : list BrokerPositionLine; pc_done : bool }.
Definition positions_reset (c : PositionCollector) : PositionCollector := {| pc_lines := []; pc_done := false |}.
Definition on_position (l : BrokerPositionLine) (c : PositionCollector) : PositionCollector :=
  if Qabs (bl_quantity l) <=? fl (1 # 1000000000) then c
  else {| pc_lines := pc_lines c ++ [{|
            bl_ibkr_account := bl_ibkr_account l; bl_symbol := bl_symbol l; bl_sec_type := bl_sec_type l;
            bl_con_id := bl_con_id l; bl_currency := str_or (bl_currency l) "USD"; bl_exchange := bl_exchange l;
            bl_quantity := bl_quantity l; bl_avg_cost := bl_avg_cost l |}]; pc_done := pc_done c |}.
Definition on_position_end (c : PositionCollector) : PositionCollector := {| pc_lines := pc_lines c; pc_done := true |}.
Abbreviation NetKey := (Z * string * string)%type.
Record LedgerNetLine : Type := {
  ln_account_id : Z;
  ln_symbol : string;
  ln_sec_type : string;
  ln_signed_qty : Q;
  ln_con_ids : gset Z;
  ln_engine_qty : Q;
  ln_manual_qty : Q
}.
Record ReconcileDiff : Type := {
  rd_kind : Mismatch;
  rd_ibkr_account : option string;
  rd_account_id : option Z;
  rd_symbol : string;
  rd_sec_type : string;
  rd_con_id : option Z;
  rd_broker_qty : option Q;
  rd_ledger_qty : option Q;
  rd_in_flight : bool;
  rd_engine_qty : option Q;
  rd_manual_qty : option Q
}.

Definition qty_close (a b : Q) : bool := Qabs (fl (a - b)) <=? QTY_EPSILON.
Definition near_zero (q : Q) : bool := Qabs (fl q) <=? QTY_EPSILON.

(** ** The contract of an order *)
(** [base.rsplit(":", 1)]: what is before and after the last colon. *)
Fixpoint rsplit_colon (l : list Ascii.ascii) : option (list Ascii.ascii * list Ascii.ascii) :=
  match l with
  | [] => None
  | c :: l =>
      match rsplit_colon l with
      | Some (a, b) => Some (c :: a, b)
      | None => if Ascii.eqb c ":" then Some ([], l) else None
      end
  end.
Record OrderContract : Type := {
  ct_symbol : string; ct_sec_type : string; ct_exchange : string; ct_currency : string; ct_con_id : option Z
}.
Definition parse_ibkr_contract (ibkr_contract : string) : OrderContract :=
  let base := str_strip ibkr_contract in
  let '(base, con) := match rsplit_colon (chars base) with
                      | Some (a, b) => (of_chars a, match py_int (of_chars b) with Ok n => Some n | _ => None end)
                      | None => (base, None)
                      end in
  match str_split "-" base with
  | a :: b :: c :: d :: _ =>
      {| ct_symbol := a; ct_sec_type := b; ct_exchange := c; ct_currency := d; ct_con_id := con |}
  | l => {| ct_symbol := default base (head l); ct_sec_type := "STK"; ct_exchange := "SMART";
            ct_currency := "USD"; ct_con_id := con |}
  end.

(** ** The ledger's net quantities *)
Abbreviation ConIds := (gmap (string * string) (gset Z)).
Definition add_con_id (symbol sec_type : string) (con : Z) (m : ConIds) : ConIds :=
  let k := (norm_text symbol, norm_text sec_type) in <[k := {[con]} ∪ default ∅ (m !! k)]> m.
Definition con_ids_for_symbol (m : ConIds) (symbol sec_type : string) : gset Z :=
  let own := default ∅ (m !! (symbol, sec_type)) in
  if bool_decide (own <> ∅) then own
  else if String.eqb sec_type "STK" then default ∅ (m !! (symbol, "CFD"%string))
  else if String.eqb sec_type "CFD" then default ∅ (m !! (symbol, "STK"%string))
  else ∅.
(** Latest contract id per account, symbol and type; the orders come by id. *)
Definition build_order_con_id_map (orders : list OrderModel) : gmap NetKey Z :=
  fold_left (fun m o =>
    let c := parse_ibkr_contract (om_ibkr_contract o) in
    match ct_con_id c with
    | None => m
    | Some n => <[(om_account_id o, norm_text (ct_symbol c), norm_text (ct_sec_type c)) := n]> m
    end) orders ∅.

(** The legs of an open row that count. *)
Definition row_legs (p : PositionModel) : list (NetKey * Q) :=
  let leg symbol type (q : option Q) :=
    match q with
    | Some q => if str_empty symbol then []
                else [((p_account_id p, norm_text symbol, norm_text (str_or type "STK")), q)]
    | None => []
    end in
  leg (p_leg_a_symbol p) (p_leg_a_instrument_type p) (Some (p_leg_a_signed_qty p))
  ++ leg (opt_str (p_leg_b_symbol p)) (opt_str (p_leg_b_instrument_type p)) (p_leg_b_signed_qty p).
Definition manual_legs (m : ManualPosition) : list (NetKey * Q) :=
  if str_empty (mp_symbol m) then []
  else [((mp_account_id m, norm_text (mp_symbol m), norm_text (str_or (mp_sec_type m) "CFD")), mp_signed_qty m)].
Definition add_net (m : gmap NetKey Q) (x : NetKey * Q) : gmap NetKey Q :=
  <[x.1 := dadd (default 0 (m !! x.1)) x.2]> m.
Definition nets (legs : list (NetKey * Q)) : gmap NetKey Q := fold_left add_net legs ∅.
Definition catalog_con_ids (instruments : list InstrumentRecord) (manual : list ManualPosition) : ConIds :=
  let m := fold_left (fun m i => add_con_id (ir_symbol i) (ir_sec_type i) (ir_trade_conid i) m) instruments ∅ in
  fold_left (fun m p =>
    if str_empty (mp_symbol p) || (mp_con_id p <=? 0)%Z then m
    else add_con_id (mp_symbol p) (str_or (mp_sec_type p) "CFD") (mp_con_id p) m) manual m.

(** Tuples in order: accounts, then symbols, then types. *)
Definition text_lt (a b : string) : bool := match String.compare a b with Lt => true | _ => false end.
Definition text_first (a b : string) (rest : bool) : bool :=
  match String.compare a b with Lt => true | Eq => rest | Gt => false end.
Definition net_key_lt (x y : NetKey) : bool :=
  match (x.1.1 ?= y.1.1)%Z with
  | Lt => true
  | Gt => false
  | Eq => text_first x.1.2 y.1.2 (text_lt x.2 y.2)
  end.
Fixpoint insert_by {A} (lt : A -> A -> bool) (x : A) (l : list A) : list A :=
  match l with
  | [] => [x]
  | y :: l' => if lt y x then y :: insert_by lt x l' else x :: l
  end.
Definition sort_by {A} (lt : A -> A -> bool) (l : list A) : list A := fold_right (insert_by lt) [] l.

Definition net_line (con_ids : ConIds) (engine manual : gmap NetKey Q) (k : NetKey) : list LedgerNetLine :=
  let eq := default 0 (engine !! k) in
  let mq := default 0 (manual !! k) in
  let total := dadd eq mq in
  if near_zero total then []
  else [{| ln_account_id := k.1.1; ln_symbol := k.1.2; ln_sec_type := k.2; ln_signed_qty := total;
           ln_con_ids := con_ids_for_symbol con_ids k.1.2 k.2; ln_engine_qty := eq; ln_manual_qty := mq |}].
Definition build_ledger_net_lines (open_rows : list PositionModel) (instruments : list InstrumentRecord)
    (manual_open_rows : list ManualPosition) : list LedgerNetLine :=
  let engine := nets (flat_map row_legs open_rows) in
  let manual := nets (flat_map manual_legs manual_open_rows) in
  flat_map (net_line (catalog_con_ids instruments manual_open_rows) engine manual)
    (sort_by net_key_lt (elements (dom engine ∪ dom manual))).
Definition line_key (l : LedgerNetLine) : NetKey := (ln_account_id l, ln_symbol l, ln_sec_type l).
Definition ledger_net_qty_for_symbol (open_rows : list PositionModel) (instruments : list InstrumentRecord)
    (account_id : Z) (symbol sec_type : string) (manual_open_rows : list ManualPosition) : option Q :=
  match List.find (fun l => bool_decide (line_key l = (account_id, norm_text symbol, norm_text sec_type)))
          (build_ledger_net_lines open_rows instruments manual_open_rows) with
  | Some l => Some (fl (ln_signed_qty l))
  | None => None
  end.

(** ** The comparison *)
Section Classify.
(** The first element a [frozenset] is iterated to. *)
Variable next_iter : gset Z -> Z.

Definition broker_key (accounts : gmap string Z) (l : BrokerPositionLine) : option NetKey :=
  match accounts !! norm_text (bl_ibkr_account l) with
  | Some a => Some (a, norm_text (bl_symbol l), norm_text (bl_sec_type l))
  | None => None
  end.
Definition unmapped_diff (l : BrokerPositionLine) : ReconcileDiff := {|
  rd_kind := MISMATCH_UNMAPPED_ACCOUNT; rd_ibkr_account := Some (bl_ibkr_account l); rd_account_id := None;
  rd_symbol := norm_text (bl_symbol l); rd_sec_type := norm_text (bl_sec_type l);
  rd_con_id := Some (bl_con_id l); rd_broker_qty := Some (bl_quantity l); rd_ledger_qty := None;
  rd_in_flight := false; rd_engine_qty := None; rd_manual_qty := None |}.
Definition resolve_ibkr_account (account_id : Z) (group : list BrokerPositionLine)
    (account_to_ibkr : gmap Z string) : option string :=
  match group with
  | l :: _ => Some (bl_ibkr_account l)
  | [] => account_to_ibkr !! account_id
  end.
Definition resolve_diff_con_id (k : NetKey) (group : list BrokerPositionLine) (ledger : option LedgerNetLine)
    (orders : gmap NetKey Z) : option Z :=
  let of_orders :=
    match orders !! k with
    | Some c => Some c
    | None =>
        if String.eqb k.2 "STK" then orders !! (k.1, "CFD"%string)
        else if String.eqb k.2 "CFD" then orders !! (k.1, "STK"%string) else None
    end in
  match group, ledger with
  | l :: _, _ => Some (bl_con_id l)
  | [], Some l => if bool_decide (ln_con_ids l <> ∅) then Some (next_iter (ln_con_ids l)) else of_orders
  | [], None => of_orders
  end.
(** The difference at one key. *)
Definition key_diff (account_to_ibkr : gmap Z string) (orders : gmap NetKey Z) (timed_out : bool)
    (in_flight : gset Z) (k : NetKey) (group : list BrokerPositionLine) (ledger : option LedgerNetLine)
    : list ReconcileDiff :=
  let broker_qty := match group with [] => None | _ => Some (py_sum (map bl_quantity group)) end in
  let diff kind := [{|
    rd_kind := kind; rd_ibkr_account := resolve_ibkr_account k.1.1 group account_to_ibkr;
    rd_account_id := Some k.1.1; rd_symbol := k.1.2; rd_sec_type := k.2;
    rd_con_id := resolve_diff_con_id k group ledger orders; rd_broker_qty := broker_qty;
    rd_ledger_qty := option_map (fun l => fl (ln_signed_qty l)) ledger;
    rd_in_flight := bool_decide (k.1.1 ∈ in_flight);
    rd_engine_qty := option_map (fun l => fl (ln_engine_qty l)) ledger;
    rd_manual_qty := option_map (fun l => fl (ln_manual_qty l)) ledger |}] in
  match broker_qty, ledger with
  | Some b, Some l => diff (if qty_close b (fl (ln_signed_qty l)) then MISMATCH_MATCH else MISMATCH_QTY_DRIFT)
  | Some _, None => diff MISMATCH_BROKER_ORPHAN
  | None, Some _ => if timed_out then [] else diff MISMATCH_LEDGER_GHOST
  | None, None => []
  end.
Definition classify_reconcile_diffs (broker_lines : list BrokerPositionLine) (ledger_lines : list LedgerNetLine)
    (ibkr_to_account : gmap string Z) (account_to_ibkr : gmap Z string) (order_con_id_map : gmap NetKey Z)
    (timed_out : bool) (in_flight_accounts : gset Z) : list ReconcileDiff :=
  let broker_by_key := fold_left (fun m l =>
      match broker_key ibkr_to_account l with
      | Some k => <[k := default [] (m !! k) ++ [l]]> m
      | None => m
      end) broker_lines (∅ : gmap NetKey (list BrokerPositionLine)) in
  let ledger_by_key := fold_left (fun m l => <[line_key l := l]> m) ledger_lines (∅ : gmap NetKey LedgerNetLine) in
  map unmapped_diff (List.filter (fun l => negb (bool_decide (is_Some (broker_key ibkr_to_account l)))) broker_lines)
  ++ flat_map (fun k => key_diff account_to_ibkr order_con_id_map timed_out in_flight_accounts k
                          (default [] (broker_by_key !! k)) (ledger_by_key !! k))
       (sort_by net_key_lt (elements (dom broker_by_key ∪ dom ledger_by_key))).

End Classify.

(** ** Alerts: a mismatch is a rogue trade once it has lasted *)
Abbreviation RogueKey := (string * string * string * Mismatch)%type.
Definition rogue_account (d : ReconcileDiff) : string :=
  match rd_ibkr_account d, rd_account_id d with
  | Some (String _ _ as s), _ => s
  | _, Some a => if (a =? 0)%Z then EmptyString else str_Z a
  | _, None => EmptyString
  end.
Definition rogue_key (d : ReconcileDiff) : RogueKey :=
  (rogue_account d, rd_symbol d, rd_sec_type d, rd_kind d).
Definition is_rogue (d : ReconcileDiff) : bool := bool_decide (rd_kind d ∈ ROGUE_MISMATCH_KINDS).
Definition rogue_key_lt (x y : RogueKey) : bool :=
  text_first x.1.1.1 y.1.1.1 (text_first x.1.1.2 y.1.1.2 (text_first x.1.2 y.1.2
    (text_lt (mismatch_value x.2) (mismatch_value y.2)))).
Definition by_rogue_key (l : list ReconcileDiff) : gmap RogueKey ReconcileDiff :=
  fold_left (fun m d => <[rogue_key d := d]> m) l ∅.
Definition present_keys (diffs : list ReconcileDiff) : gset RogueKey :=
  list_to_set (map rogue_key (List.filter is_rogue diffs)).
Definition alertable_rogues (diffs : list ReconcileDiff) : gmap RogueKey ReconcileDiff :=
  by_rogue_key (List.filter (fun d => is_rogue d && negb (rd_in_flight d)) diffs).

Inductive Alert : Type := Detected (k : RogueKey) (d : ReconcileDiff) | Resolved (k : RogueKey) (d : ReconcileDiff).
Definition alert_key (a : Alert) : RogueKey := match a with Detected k _ | Resolved k _ => k end.

Record RogueMemory : Type := { rm_active : gmap RogueKey ReconcileDiff; rm_pending : gmap RogueKey Z }.
(** One sweep over the memory: the streaks that go on, those that are long
    enough, and the alerts whose mismatch is gone. *)
Definition track_rogues (confirm : Z) (diffs : list ReconcileDiff) (m : RogueMemory)
    : RogueMemory * list Alert :=
  let alertable := alertable_rogues diffs in
  let streaks := map_imap (fun k _ =>
      if bool_decide (is_Some (rm_active m !! k)) then rm_pending m !! k
      else Some (default 0 (rm_pending m !! k) + 1)%Z) alertable in
  let newly := filter (fun kn => rm_active m !! kn.1 = None /\ (confirm <= kn.2)%Z) streaks in
  let confirmed := filter (fun kd => is_Some (newly !! kd.1)) alertable in
  let gone := filter (fun kd => kd.1 ∉ present_keys diffs) (rm_active m) in
  ({| rm_active := filter (fun kd => gone !! kd.1 = None) (confirmed ∪ rm_active m);
      rm_pending := filter (fun kn => newly !! kn.1 = None) streaks |},
   flat_map (fun k => match confirmed !! k with Some d => [Detected k d] | None => [] end)
     (sort_by rogue_key_lt (elements (dom confirmed)))
   ++ flat_map (fun k => match gone !! k with Some d => [Resolved k d] | None => [] end)
     (sort_by rogue_key_lt (elements (dom gone)))).

(** ** A sweep *)
Record BrokerPositionRow : Type := {
  br_ibkr : string; br_con : Z; br_account : option Z; br_symbol : string; br_sec_type : string;
  br_currency : string; br_exchange : string; br_signed_qty : Q; br_avg_cost : Q; br_as_of : Z
}.
Record ReconcileRun : Type := {
  rr_id : Z; rr_started_at : Z; rr_finished_at : Z; rr_timed_out : bool; rr_error : option string;
  rr_broker_lines : Z; rr_match : Z; rr_ghost : Z; rr_orphan : Z; rr_drift : Z; rr_unmapped : Z;
  rr_mismatches : list ReconcileDiff
}.
Record ReconcileWorld : Type := {
  rw_accounts : list AccountRow; rw_instruments : list InstrumentRecord; rw_positions : PositionTable;
  rw_manual : ManualBook; rw_orders : OrderTable; rw_baskets : BasketTable; rw_jobs : list SignalJob;
  rw_snapshot : gmap (string * Z) BrokerPositionRow; rw_runs : list ReconcileRun; rw_events : list EventRow;
  rw_active : option (gmap RogueKey ReconcileDiff); rw_pending : gmap RogueKey Z
}.
Definition with_rows (snapshot : gmap (string * Z) BrokerPositionRow) (runs : list ReconcileRun)
    (events : list EventRow) (w : ReconcileWorld) : ReconcileWorld := {|
  rw_accounts := rw_accounts w; rw_instruments := rw_instruments w; rw_positions := rw_positions w;
  rw_manual := rw_manual w; rw_orders := rw_orders w; rw_baskets := rw_baskets w; rw_jobs := rw_jobs w;
  rw_snapshot := snapshot; rw_runs := runs; rw_events := events; rw_active := rw_active w;
  rw_pending := rw_pending w |}.
Definition with_memory (m : RogueMemory) (w : ReconcileWorld) : ReconcileWorld := {|
  rw_accounts := rw_accounts w; rw_instruments := rw_instruments w; rw_positions := rw_positions w;
  rw_manual := rw_manual w; rw_orders := rw_orders w; rw_baskets := rw_baskets w; rw_jobs := rw_jobs w;
  rw_snapshot := rw_snapshot w; rw_runs := rw_runs w; rw_events := rw_events w;
  rw_active := Some (rm_active m); rw_pending := rm_pending m |}.

Definition IntegrityError : exn := OtherError "IntegrityError: uq_broker_positions_account_conid".
Definition snapshot_row (as_of : Z) (accounts : gmap string Z) (l : BrokerPositionLine)
    (m : gmap (string * Z) BrokerPositionRow) : result (gmap (string * Z) BrokerPositionRow) :=
  let! qty := numeric 4 (bl_quantity l) in
  let! cost := numeric 8 (bl_avg_cost l) in
  let k := (bl_ibkr_account l, bl_con_id l) in
  match m !! k with
  | Some _ => Raise IntegrityError
  | None =>
      Ok (<[k := {| br_ibkr := bl_ibkr_account l; br_con := bl_con_id l;
                    br_account := accounts !! norm_text (bl_ibkr_account l);
                    br_symbol := norm_text (bl_symbol l); br_sec_type := norm_text (bl_sec_type l);
                    br_currency := bl_currency l; br_exchange := bl_exchange l; br_signed_qty := qty;
                    br_avg_cost := cost; br_as_of := as_of |}]> m)
  end.
(** Every row is deleted before the lines of the snapshot are inserted. *)
Fixpoint insert_snapshot (as_of : Z) (accounts : gmap string Z) (l : list BrokerPositionLine)
    (m : gmap (string * Z) BrokerPositionRow) : result (gmap (string * Z) BrokerPositionRow) :=
  match l with
  | [] => Ok m
  | x :: l => let! m := snapshot_row as_of accounts x m in insert_snapshot as_of accounts l m
  end.
Definition replace_snapshot (as_of : Z) (accounts : gmap string Z) (l : list BrokerPositionLine)
    : result (gmap (string * Z) BrokerPositionRow) := insert_snapshot as_of accounts l ∅.

Definition ibkr_to_account (l : list AccountRow) : gmap string Z :=
  fold_left (fun m a => <[norm_text (ar_ibkr_account a) := ar_id a]> m) l ∅.
Definition account_to_ibkr (l : list AccountRow) : gmap Z string :=
  fold_left (fun m a => <[ar_id a := ar_ibkr_account a]> m) l ∅.
Definition fetch_in_flight_accounts (w : ReconcileWorld) : gset Z :=
  list_to_set
    (map bm_account_id (List.filter (fun b => bool_decide (bm_state b ∈ [EXECUTING; UNWINDING]))
                          (basket_values (rw_baskets w)))
     ++ map mo_account_id (List.filter (fun o => bool_decide (mo_status o ∈ [MO_PENDING_SUBMIT; MO_SUBMITTED; MO_PARTIALLY_FILLED]))
                             (mb_orders (rw_manual w)))
     ++ omap (fun j => match j_account_scope j with
                       | Some s => match py_int s with Ok a => Some a | _ => None end
                       | None => None
                       end)
          (List.filter (fun j => bool_decide (j_status j = JOB_PROCESSING)) (rw_jobs w))).
Definition manual_open (w : ReconcileWorld) : list ManualPosition :=
  List.filter (fun p => bool_decide (mp_status p = MAN_OPEN)) (mb_positions (rw_manual w)).
Definition order_rows (accounts : list Z) (w : ReconcileWorld) : list OrderModel :=
  sort_by (fun a b => (om_id a <? om_id b)%Z)
    (List.filter (fun o => bool_decide (om_account_id o ∈ accounts)) (map snd (map_to_list (rw_orders w)))).
Section Sweep.
Variable next_iter : gset Z -> Z.

Definition diffs_of (lines : list BrokerPositionLine) (timed_out : bool) (w : ReconcileWorld) : list ReconcileDiff :=
  let rows := list_open (rw_positions w) in
  let manual := manual_open w in
  classify_reconcile_diffs next_iter lines (build_ledger_net_lines rows (rw_instruments w) manual)
    (ibkr_to_account (rw_accounts w)) (account_to_ibkr (rw_accounts w))
    (build_order_con_id_map (order_rows (map p_account_id rows ++ map mp_account_id manual) w))
    timed_out (fetch_in_flight_accounts w).

(** The alerts in force when the process starts: those of the latest run. *)
Definition rehydrated (runs : list ReconcileRun) : gmap RogueKey ReconcileDiff :=
  match last runs with
  | Some r => by_rogue_key (List.filter (fun d => is_rogue d && negb (rd_in_flight d)) (rr_mismatches r))
  | None => ∅
  end.
Definition memory_of (w : ReconcileWorld) : RogueMemory := {|
  rm_active := default (rehydrated (rw_runs w)) (rw_active w); rm_pending := rw_pending w |}.

Definition count_kind (k : Mismatch) (l : list ReconcileDiff) : Z :=
  Z.of_nat (length (List.filter (fun d => bool_decide (rd_kind d = k)) l)).
Definition run_of (id started finished : Z) (timed_out : bool) (error : option string) (lines : list BrokerPositionLine)
    (diffs : list ReconcileDiff) : ReconcileRun := {|
  rr_id := id; rr_started_at := started; rr_finished_at := finished; rr_timed_out := timed_out;
  rr_error := error; rr_broker_lines := Z.of_nat (length lines); rr_match := count_kind MISMATCH_MATCH diffs;
  rr_ghost := count_kind MISMATCH_LEDGER_GHOST diffs; rr_orphan := count_kind MISMATCH_BROKER_ORPHAN diffs;
  rr_drift := count_kind MISMATCH_QTY_DRIFT diffs; rr_unmapped := count_kind MISMATCH_UNMAPPED_ACCOUNT diffs;
  rr_mismatches := List.filter (fun d => negb (bool_decide (rd_kind d = MISMATCH_MATCH))) diffs |}.
Definition opt_int (o : option Z) : json := match o with Some n => JInt n | None => JNull end.
Definition opt_float (o : option Q) : json := match o with Some q => JFloat (FFin q) | None => JNull end.
Definition opt_text (o : option string) : json := match o with Some s => JStr s | None => JNull end.
(** [to_dict]. *)
Definition diff_dict (d : ReconcileDiff) : json := JObj [
  ("kind"%string, JStr (mismatch_value (rd_kind d))); ("ibkr_account"%string, opt_text (rd_ibkr_account d));
  ("account_id"%string, opt_int (rd_account_id d)); ("symbol"%string, JStr (rd_symbol d));
  ("sec_type"%string, JStr (rd_sec_type d)); ("con_id"%string, opt_int (rd_con_id d));
  ("broker_qty"%string, opt_float (rd_broker_qty d)); ("ledger_qty"%string, opt_float (rd_ledger_qty d));
  ("in_flight"%string, JBool (rd_in_flight d)); ("engine_qty"%string, opt_float (rd_engine_qty d));
  ("manual_qty"%string, opt_float (rd_manual_qty d))].
Definition reconcile_event (r : ReconcileRun) : EventRow := {|
  ev_process := "reconcile"; ev_kind := "POSITION_RECONCILE";
  ev_detail := JObj [
    ("run_id"%string, JInt (rr_id r)); ("timed_out"%string, JBool (rr_timed_out r));
    ("error"%string, opt_text (rr_error r)); ("broker_line_count"%string, JInt (rr_broker_lines r));
    ("match_count"%string, JInt (rr_match r)); ("ghost_count"%string, JInt (rr_ghost r));
    ("orphan_count"%string, JInt (rr_orphan r)); ("drift_count"%string, JInt (rr_drift r));
    ("unmapped_account_count"%string, JInt (rr_unmapped r));
    ("mismatches"%string, JList (map diff_dict (rr_mismatches r)))];
  ev_signal_id := None; ev_order_id := None; ev_basket_id := None;
  ev_key := Some ("reconcile:" ++ str_Z (rr_id r))%string |}.
(** The row of an alert; the message for the notification is left out. *)
Definition alert_event (run : Z) (a : Alert) : EventRow :=
  let text '((acc, sym, sec, kind) : RogueKey) (p : string) :=
    (p ++ ":" ++ str_Z run ++ ":" ++ acc ++ ":" ++ sym ++ ":" ++ sec ++ ":" ++ mismatch_value kind)%string in
  let common d := [
    ("rogue_type"%string, JStr (mismatch_value (rd_kind d))); ("symbol"%string, JStr (rd_symbol d));
    ("sec_type"%string, JStr (rd_sec_type d)); ("con_id"%string, opt_int (rd_con_id d));
    ("account_id"%string, opt_int (rd_account_id d)); ("ibkr_account"%string, opt_text (rd_ibkr_account d));
    ("run_id"%string, JInt run)] in
  let row kind detail key := {| ev_process := "reconcile"; ev_kind := kind; ev_detail := JObj detail;
    ev_signal_id := None; ev_order_id := None; ev_basket_id := None; ev_key := Some key |} in
  match a with
  | Detected k d => row "ROGUE_TRADE_DETECTED" (common d ++ [
      ("broker_qty"%string, opt_float (rd_broker_qty d)); ("ledger_qty"%string, opt_float (rd_ledger_qty d));
      ("in_flight"%string, JBool (rd_in_flight d))]) (text k "rogue_det")
  | Resolved k d => row "ROGUE_TRADE_RESOLVED" (common d) (text k "rogue_res")
  end.
Definition log_events (l : list EventRow) (log : list EventRow) : list EventRow :=
  fold_left (fun log e => fst (append_event e log)) l log.

Inductive Fetched : Type := FetchFailed (error : string) | FetchedLines (lines : list BrokerPositionLine) (timed_out : bool).
Definition fetched_lines (f : Fetched) : list BrokerPositionLine := match f with FetchedLines l _ => l | _ => [] end.
Definition fetch_timed_out (f : Fetched) : bool := match f with FetchedLines _ t => t | _ => false end.
Definition fetch_error (f : Fetched) : option string := match f with FetchFailed e => Some e | _ => None end.
(** One transaction; the memory has changed when it fails to commit. *)
Definition persist_and_diff (confirm started finished : Z) (commits : bool) (f : Fetched) (w : ReconcileWorld)
    : ReconcileWorld * result unit :=
  let lines := fetched_lines f in
  let snapshot := match f with
                  | FetchFailed _ => Ok (rw_snapshot w)
                  | FetchedLines l _ => replace_snapshot finished (ibkr_to_account (rw_accounts w)) l
                  end in
  match snapshot with
  | Raise e => (w, Raise e)
  | Ok snapshot =>
      let diffs := diffs_of lines (fetch_timed_out f) w in
      let id := (1 + fold_left Z.max (map rr_id (rw_runs w)) 0)%Z in
      let run := run_of id started finished (fetch_timed_out f) (fetch_error f) lines diffs in
      let '(memory, alerts) := track_rogues confirm diffs (memory_of w) in
      let events := log_events (reconcile_event run :: map (alert_event id) alerts) (rw_events w) in
      if commits then (with_rows snapshot (rw_runs w ++ [run]) events (with_memory memory w), Ok tt)
      else (with_memory memory w, Raise (OtherError "DatabaseError"))
  end.
Definition run_once (confirm started finished : Z) (connected commits : bool) (f : Fetched) (w : ReconcileWorld)
    : ReconcileWorld * result unit :=
  if connected then persist_and_diff confirm started finished commits f w else (w, Ok tt).
(** A new process: the memory is empty. *)
Definition restart_reconciler (w : ReconcileWorld) : ReconcileWorld := {|
  rw_accounts := rw_accounts w; rw_instruments := rw_instruments w; rw_positions := rw_positions w;
  rw_manual := rw_manual w; rw_orders := rw_orders w; rw_baskets := rw_baskets w; rw_jobs := rw_jobs w;
  rw_snapshot := rw_snapshot w; rw_runs := rw_runs w; rw_events := rw_events w;
  rw_active := None; rw_pending := ∅ |}.
End Sweep.
