(* ===== verification/ReconcileFacts.v ===== *)
(** * What a reconcile sweep reports, and when it raises an alert

    The differences of a sweep, key by key, and the alerts of a run of sweeps
    as a function of what the sweeps saw. *)

From S2P Require Import Prelude Rounding PyText PyTime Identifiers RmsModels Accounts TradeBook Instruments Oms Coordinator JobQueue Positions OrderLedger ManualLedger Reconcile.

#[local] Open Scope Q_scope.
#[local] Open Scope py_scope.
#[local] Set Warnings "-clear-no-such-hyp".

(** ** Lists *)
Lemma insert_by_perm {A} (lt : A -> A -> bool) (x : A) (l : list A) : insert_by lt x l ≡ₚ x :: l.
Proof. induction l as [|y l IH]; simpl; [done|]. destruct (lt y x); [|done]. rewrite IH. apply Permutation_swap. Qed.
Lemma sort_by_perm {A} (lt : A -> A -> bool) (l : list A) : sort_by lt l ≡ₚ l.
Proof. induction l as [|x l IH]; simpl; [done|]. by rewrite insert_by_perm, IH. Qed.

(** What a function gives at the one key that produces it. *)
Lemma flat_map_at {K B} `{EqDecision K} (f : K -> list B) (p : B -> bool) (k : K) (l : list K) :
  NoDup l -> (k ∉ l -> f k = []) ->
  (forall i, List.filter p (f i) = if bool_decide (i = k) then f i else []) ->
  List.filter p (flat_map f l) = f k.
Proof.
  intros ND E P. induction ND as [|i l N _ IH]; simpl.
  - symmetry. apply E. set_solver.
  - rewrite List.filter_app, P. case_bool_decide as D.
    + subst i. enough (List.filter p (flat_map f l) = []) as -> by apply app_nil_r.
      clear IH E. induction l as [|i l IH]; [done|]. simpl. rewrite List.filter_app, P, IH by set_solver.
      rewrite bool_decide_eq_false_2; [done|set_solver].
    + apply IH. intros N'. apply E. set_solver.
Qed.
Lemma flat_map_sorted {K B} `{Countable K} (f : K -> list B) (p : B -> bool) (lt : K -> K -> bool) (k : K) (X : gset K) :
  (k ∉ X -> f k = []) ->
  (forall i, List.filter p (f i) = if bool_decide (i = k) then f i else []) ->
  List.filter p (flat_map f (sort_by lt (elements X))) = f k.
Proof.
  intros E P. apply flat_map_at; [|rewrite sort_by_perm, elem_of_elements; done|done].
  rewrite sort_by_perm. apply NoDup_elements.
Qed.

(** ** Net quantities *)
Definition legs_at (k : NetKey) (legs : list (NetKey * Q)) : list Q :=
  map snd (List.filter (fun x => bool_decide (x.1 = k)) legs).
Lemma nets_from_at (legs : list (NetKey * Q)) (m : gmap NetKey Q) (k : NetKey) :
  fold_left add_net legs m !! k =
    match legs_at k legs with [] => m !! k | l => Some (fold_left dadd l (default 0 (m !! k))) end.
Proof.
  revert m. induction legs as [|[i q] legs IH]; intros m; [done|]. simpl. rewrite IH. unfold legs_at. simpl.
  unfold add_net. simpl. case_bool_decide as E; simpl.
  - subst i. rewrite lookup_insert_eq. simpl. by destruct (map _ _).
  - by rewrite lookup_insert_ne.
Qed.
Lemma nets_at (legs : list (NetKey * Q)) (k : NetKey) : default 0 (nets legs !! k) = dsum (legs_at k legs).
Proof.
  unfold nets. rewrite nets_from_at, lookup_empty. unfold dsum. by destruct (legs_at k legs).
Qed.
Lemma near_zero_0 : near_zero (dadd 0 0) = true.
Proof. vm_compute. reflexivity. Qed.

(** The line of the ledger at a key, from the legs alone. *)
Definition ledger_at (rows : list PositionModel) (instruments : list InstrumentRecord)
    (manual : list ManualPosition) (k : NetKey) : list LedgerNetLine :=
  net_line (catalog_con_ids instruments manual) (nets (flat_map row_legs rows))
    (nets (flat_map manual_legs manual)) k.
Lemma net_line_key (con : ConIds) (e m : gmap NetKey Q) (k : NetKey) (l : LedgerNetLine) : l ∈ net_line con e m k -> line_key l = k.
Proof.
  unfold net_line. destruct (near_zero _); [intros H; by apply not_elem_of_nil in H|].
  intros ->%list_elem_of_singleton. by destruct k as [[a s] t].
Qed.
Lemma net_line_at (con : ConIds) (e m : gmap NetKey Q) (k i : NetKey) :
  List.filter (fun l => bool_decide (line_key l = k)) (net_line con e m i) =
    if bool_decide (i = k) then net_line con e m i else [].
Proof.
  pose proof (fun l => net_line_key con e m i l) as K. revert K. unfold net_line.
  destruct (near_zero _); [by case_bool_decide|]. intros K. cbn [List.filter].
  rewrite (K _ (list_elem_of_here _ _)). by case_bool_decide.
Qed.
Lemma net_line_none (con : ConIds) (e m : gmap NetKey Q) (k : NetKey) : k ∉ dom e ∪ dom m -> net_line con e m k = [].
Proof.
  rewrite not_elem_of_union, !not_elem_of_dom. intros [E M]. unfold net_line. rewrite E, M.
  cbn [default]. by rewrite near_zero_0.
Qed.
Lemma build_at rows instruments manual k :
  List.filter (fun l => bool_decide (line_key l = k)) (build_ledger_net_lines rows instruments manual) =
    ledger_at rows instruments manual k.
Proof.
  unfold build_ledger_net_lines. apply flat_map_sorted; [apply net_line_none|apply net_line_at].
Qed.

(** ** The comparison, key by key *)
Definition group_at (accounts : gmap string Z) (k : NetKey) (lines : list BrokerPositionLine) : list BrokerPositionLine :=
  List.filter (fun l => bool_decide (broker_key accounts l = Some k)) lines.
Lemma broker_groups (accounts : gmap string Z) (lines : list BrokerPositionLine) (m : gmap NetKey (list BrokerPositionLine)) (k : NetKey) :
  default [] (fold_left (fun m l =>
      match broker_key accounts l with
      | Some k => <[k := default [] (m !! k) ++ [l]]> m
      | None => m
      end) lines m !! k) = default [] (m !! k) ++ group_at accounts k lines.
Proof.
  revert m. induction lines as [|l lines IH]; intros m; simpl; [by rewrite app_nil_r|]. rewrite IH. clear IH.
  destruct (broker_key accounts l) as [i|]; case_bool_decide as E; simplify_eq; simpl.
  - rewrite lookup_insert_eq. cbn. by rewrite <- app_assoc.
  - rewrite lookup_insert_ne; [done|congruence].
  - done.
Qed.
Lemma ledger_lines_at (lines : list LedgerNetLine) (m : gmap NetKey LedgerNetLine) (k : NetKey) :
  fold_left (fun m l => <[line_key l := l]> m) lines m !! k =
    match last (List.filter (fun l => bool_decide (line_key l = k)) lines) with Some l => Some l | None => m !! k end.
Proof.
  revert m. induction lines as [|l lines IH]; intros m; [done|]. simpl. rewrite IH. clear IH.
  case_bool_decide as E; [|by rewrite lookup_insert_ne].
  subst k. rewrite lookup_insert_eq, last_cons. by destruct (last _).
Qed.

Definition diff_key (d : ReconcileDiff) : option NetKey :=
  option_map (fun a => (a, rd_symbol d, rd_sec_type d)) (rd_account_id d).
Definition at_key (k : NetKey) (d : ReconcileDiff) : bool := bool_decide (diff_key d = Some k).
Definition broker_total (accounts : gmap string Z) (lines : list BrokerPositionLine) (k : NetKey) : option Q :=
  match group_at accounts k lines with [] => None | l => Some (py_sum (map bl_quantity l)) end.
Definition ledger_total (rows : list PositionModel) (manual : list ManualPosition) (k : NetKey) : option Q :=
  let q := dadd (dsum (legs_at k (flat_map row_legs rows))) (dsum (legs_at k (flat_map manual_legs manual))) in
  if near_zero q then None else Some (fl q).
Definition verdict (timed_out : bool) (broker ledger : option Q) : list Mismatch :=
  match broker, ledger with
  | Some b, Some l => if qty_close b l then [MISMATCH_MATCH] else [MISMATCH_QTY_DRIFT]
  | Some _, None => [MISMATCH_BROKER_ORPHAN]
  | None, Some _ => if timed_out then [] else [MISMATCH_LEDGER_GHOST]
  | None, None => []
  end.
Lemma ledger_at_total (rows : list PositionModel) (instruments : list InstrumentRecord) (manual : list ManualPosition) (k : NetKey) :
  option_map (fun l => fl (ln_signed_qty l)) (head (ledger_at rows instruments manual k)) = ledger_total rows manual k.
Proof.
  unfold ledger_at, net_line, ledger_total. rewrite !nets_at. by destruct (near_zero _).
Qed.
Lemma key_diff_at (next : gset Z -> Z) (names : gmap Z string) (orders : gmap NetKey Z) (t : bool) (flight : gset Z) (i k : NetKey) (g : list BrokerPositionLine) (l : option LedgerNetLine) :
  List.filter (at_key k) (key_diff next names orders t flight i g l) =
    if bool_decide (i = k) then key_diff next names orders t flight i g l else [].
Proof.
  destruct i as [[a s] y]. unfold key_diff, at_key, diff_key.
  assert (forall b, bool_decide (Some (a, s, y) = Some k) = b -> bool_decide ((a, s, y) = k) = b) as B.
  { intros b <-. apply bool_decide_ext. split; congruence. }
  destruct (bool_decide (Some _ = _)) eqn:E; rewrite (B _ eq_refl);
    destruct g, l; simpl; rewrite ?E; try done; by destruct t; simpl; rewrite ?E.
Qed.
Lemma key_diff_verdict (next : gset Z -> Z) (names : gmap Z string) (orders : gmap NetKey Z) (t : bool) (flight : gset Z) (k : NetKey) (g : list BrokerPositionLine) (l : option LedgerNetLine)
    (b q : option Q) :
  b = match g with [] => None | _ => Some (py_sum (map bl_quantity g)) end ->
  q = option_map (fun l => fl (ln_signed_qty l)) l ->
  map (fun d => (rd_kind d, rd_broker_qty d, rd_ledger_qty d)) (key_diff next names orders t flight k g l) =
    map (fun v => (v, b, q)) (verdict t b q).
Proof.
  intros -> ->. unfold key_diff, verdict. destruct g, l as [l|]; simpl; try done; [by destruct t|].
  by destruct (qty_close _ _).
Qed.

(** What is reported at one key. *)
Lemma diffs_at (next_iter : gset Z -> Z) (rows : list PositionModel) (instruments : list InstrumentRecord)
    (manual : list ManualPosition) (lines : list BrokerPositionLine) (accounts : gmap string Z)
    (names : gmap Z string) (orders : gmap NetKey Z) (timed_out : bool) (in_flight : gset Z) (k : NetKey) :
  let b := broker_total accounts lines k in let l := ledger_total rows manual k in
  map (fun d => (rd_kind d, rd_broker_qty d, rd_ledger_qty d))
    (List.filter (at_key k) (classify_reconcile_diffs next_iter lines (build_ledger_net_lines rows instruments manual)
       accounts names orders timed_out in_flight)) =
    map (fun v => (v, b, l)) (verdict timed_out b l).
Proof.
  unfold classify_reconcile_diffs. set (g := fold_left _ lines ∅). set (h := fold_left _ (build_ledger_net_lines _ _ _) ∅).
  cbn zeta. rewrite List.filter_app.
  assert (forall l, List.filter (at_key k) (map unmapped_diff l) = []) as -> by (intros l'; by induction l').
  simpl. rewrite (flat_map_sorted _ (at_key k) _ k).
  + apply key_diff_verdict.
    { unfold g, broker_total. rewrite broker_groups, lookup_empty. cbn. by destruct (group_at _ _ _). }
    unfold h. rewrite ledger_lines_at, build_at, lookup_empty, <- (ledger_at_total rows instruments).
    unfold ledger_at, net_line. by destruct (near_zero _).
  + rewrite not_elem_of_union, !not_elem_of_dom. intros [-> ->]. done.
  + intros i. apply key_diff_at.
Qed.

(** C20: A sweep compares broker and ledger exactly: for every account, symbol
    and security type it reports one difference, decided by the sum of the
    broker's lines and by the open legs of engine and manual desk alone - or
    none, when neither has anything or when only the ledger has and the request
    timed out; every line of an unknown account is reported on its own. *)
Theorem reconcile_exact (next_iter : gset Z -> Z) (rows : list PositionModel) (instruments : list InstrumentRecord)
    (manual : list ManualPosition) (lines : list BrokerPositionLine) (accounts : gmap string Z)
    (names : gmap Z string) (orders : gmap NetKey Z) (timed_out : bool) (in_flight : gset Z) :
  let diffs := classify_reconcile_diffs next_iter lines (build_ledger_net_lines rows instruments manual)
                 accounts names orders timed_out in_flight in
  (forall k, let b := broker_total accounts lines k in let l := ledger_total rows manual k in
     map (fun d => (rd_kind d, rd_broker_qty d, rd_ledger_qty d)) (List.filter (at_key k) diffs) =
       map (fun v => (v, b, l)) (verdict timed_out b l)) /\
  List.filter (fun d => negb (bool_decide (is_Some (rd_account_id d)))) diffs =
    map unmapped_diff (List.filter (fun l => negb (bool_decide (is_Some (broker_key accounts l)))) lines).
Proof.
  cbn zeta. split; [intros k; apply diffs_at|]. unfold classify_reconcile_diffs.
  set (g := fold_left _ lines ∅). set (h := fold_left _ (build_ledger_net_lines _ _ _) ∅). cbn zeta.
  rewrite List.filter_app.
  assert (forall l, List.filter (fun d => negb (bool_decide (is_Some (rd_account_id d)))) (map unmapped_diff l)
    = map unmapped_diff l) as ->.
  { intros l'. induction l' as [|x l' IH]; [done|]. simpl. by rewrite IH. }
  enough (forall l, List.filter (fun d => negb (bool_decide (is_Some (rd_account_id d))))
    (flat_map (fun k => key_diff next_iter names orders timed_out in_flight k (default [] (g !! k)) (h !! k)) l) = [])
    as -> by apply app_nil_r.
  intros l'. induction l' as [|k l' IH]; [done|]. simpl. rewrite List.filter_app, IH, app_nil_r. unfold key_diff.
  generalize (default [] (g !! k)) (h !! k). intros [|x r] [y|]; try done. by destruct timed_out.
Qed.






Section Process.
Context (next_iter : gset Z -> Z) (confirm : Z).



End Process.


(** ** On concrete sweeps *)
Definition ex_held : ManualPosition := {|
  mp_id := 1; mp_account_id := 7; mp_trade_id := "T1"; mp_symbol := "AAPL"; mp_con_id := 5; mp_sec_type := "CFD";
  mp_currency := "USD"; mp_signed_qty := 10; mp_avg_cost := 100; mp_realized_pnl := 0; mp_status := MAN_OPEN;
  mp_opened_at := 0; mp_closed_at := None |}.
Definition ex_reconcile : ReconcileWorld := {|
  rw_accounts := [{| ar_id := 7; ar_ibkr_account := "DU7"; ar_enabled := true; ar_total_margin := 0 |}];
  rw_instruments := []; rw_positions := ∅;
  rw_manual := {| mb_orders := []; mb_execs := []; mb_positions := [ex_held]; mb_halts := ∅; mb_audit := []; mb_next := 2 |};
  rw_orders := ∅; rw_baskets := ∅; rw_jobs := []; rw_snapshot := ∅; rw_runs := []; rw_events := [];
  rw_active := None; rw_pending := ∅ |}.
Definition ex_line (q : Q) : BrokerPositionLine := {|
  bl_ibkr_account := "du7 "; bl_symbol := "aapl"; bl_sec_type := "CFD"; bl_con_id := 5; bl_currency := "USD";
  bl_exchange := "SMART"; bl_quantity := q; bl_avg_cost := 100 |}.
Definition sweep_ok (f : Fetched) (w : ReconcileWorld) : ReconcileWorld :=
  (run_once (fun s => default 0%Z (head (elements s))) ROGUE_CONFIRM_SWEEPS 0 0 true true f w).1.
Definition alert_kinds (w : ReconcileWorld) : list string :=
  List.filter (fun k => negb (String.eqb k "POSITION_RECONCILE")) (map ev_kind (rw_events w)).
Definition ex_drift : Fetched := FetchedLines [ex_line 4] false.

(** A drift that lasts is detected in its second sweep, and resolved when the
    quantities agree. *)
Example drift_detected : alert_kinds (sweep_ok ex_drift (sweep_ok ex_drift ex_reconcile)) = ["ROGUE_TRADE_DETECTED"].
Proof. vm_compute. reflexivity. Qed.
Example drift_resolved :
  alert_kinds (sweep_ok (FetchedLines [ex_line 10] false) (sweep_ok ex_drift (sweep_ok ex_drift ex_reconcile)))
    = ["ROGUE_TRADE_DETECTED"; "ROGUE_TRADE_RESOLVED"].
Proof. vm_compute. reflexivity. Qed.
(** A restart after the first sweep takes the unconfirmed drift for an alert in
    force: it is never detected, only resolved. *)
Example drift_missed :
  alert_kinds (sweep_ok (FetchedLines [ex_line 10] false) (sweep_ok ex_drift (sweep_ok ex_drift
    (restart_reconciler (sweep_ok ex_drift ex_reconcile))))) = ["ROGUE_TRADE_RESOLVED"].
Proof. vm_compute. reflexivity. Qed.
(** Two failed requests make ghosts of all positions, although nothing was
    heard from the broker. *)
Example failure_ghosts :
  alert_kinds (sweep_ok (FetchFailed "timeout") (sweep_ok (FetchFailed "timeout") ex_reconcile))
    = ["ROGUE_TRADE_DETECTED"].
Proof. vm_compute. reflexivity. Qed.
(** A request that timed out lifts the alert of a ghost. *)
Example timeout_resolves :
  let none := FetchedLines [] false in
  alert_kinds (sweep_ok (FetchedLines [] true) (sweep_ok none (sweep_ok none ex_reconcile)))
    = ["ROGUE_TRADE_DETECTED"; "ROGUE_TRADE_RESOLVED"].
Proof. vm_compute. reflexivity. Qed.

