(* ===== verification/LivePnl.v ===== *)
(** * Live profits: [services/pnl.py]

    Ticks of the broker become marks, marks the profit of a pair, and the
    profit is written to the ledger at most once a second per pair by
    coroutines that overlap.  A run is a sequence of callbacks and of the steps
    of these coroutines.  The health report, the pacing of requests and the
    contract that a leg is priced by are left out or given. *)

From S2P Require Import Prelude Rounding PyText PyTime Identifiers RmsModels ManualLedger.

#[local] Open Scope Q_scope.
#[local] Open Scope py_scope.
#[local] Set Warnings "-clear-no-such-hyp".

Definition TradeKey : Type := Z * string.
Definition TickListener : Type := Z * string * string.
Definition ContractKey : Type := string * string * string * string * Z.
Definition trade_of_listener (l : TickListener) : TradeKey := fst l.

Definition unrealized_leg (signed_qty entry mark : Q) : Q := dmul signed_qty (dsub mark entry).
Record Quote : Type := { qt_last : option Q; qt_bid : option Q; qt_ask : option Q; qt_close : option Q }.
Definition no_quote : Quote := {| qt_last := None; qt_bid := None; qt_ask := None; qt_close := None |}.
Definition effective_mark (q : Quote) : option Q :=
  match qt_last q with
  | Some last => Some last
  | None => match qt_bid q, qt_ask q with
            | Some bid, Some ask => Some (ddiv (dadd bid ask) 2)
            | _, _ => qt_close q
            end
  end.
Definition LAST_TICKS : list Z := [4; 68; 37]%Z.
Definition BID_TICKS : list Z := [1; 66]%Z.
Definition ASK_TICKS : list Z := [2; 67]%Z.
Definition CLOSE_TICKS : list Z := [9; 75]%Z.
(** The quote after a tick, [None] for a type that is not used. *)
Definition with_tick (tick_type : Z) (price : Q) (q : Quote) : option Quote :=
  let on l := existsb (Z.eqb tick_type) l in
  if on LAST_TICKS then Some {| qt_last := Some price; qt_bid := qt_bid q; qt_ask := qt_ask q; qt_close := qt_close q |}
  else if on BID_TICKS then Some {| qt_last := qt_last q; qt_bid := Some price; qt_ask := qt_ask q; qt_close := qt_close q |}
  else if on ASK_TICKS then Some {| qt_last := qt_last q; qt_bid := qt_bid q; qt_ask := Some price; qt_close := qt_close q |}
  else if on CLOSE_TICKS then Some {| qt_last := qt_last q; qt_bid := qt_bid q; qt_ask := qt_ask q; qt_close := Some price |}
  else None.
Definition PERSIST_MIN_INTERVAL_SEC : Q := 1.

(** The legs of a trade, by symbol, in the order they were added. *)
Abbreviation Legs := (list (string * (Q * Q))).
Fixpoint set_leg (k : string) (v : Q * Q) (l : Legs) : Legs :=
  match l with
  | [] => [(k, v)]
  | (k', v') :: l => if String.eqb k k' then (k, v) :: l else (k', v') :: set_leg k v l
  end.
Record Live : Type := {
  lv_loop : bool;                                        (* an event loop is known *)
  lv_next_req : Z;
  lv_by_req : gmap Z TickListener;
  lv_listeners_by_req : gmap Z (gset TickListener);
  lv_marks : gmap TickListener Q;
  lv_quotes : gmap TickListener Quote;
  lv_legs : gmap TradeKey Legs;
  lv_contract_reqs : gmap ContractKey Z;
  lv_req_to_contract : gmap Z ContractKey;
  lv_cooldowns : gmap ContractKey Q;
  lv_pending : gmap TradeKey Q;
  lv_last_persisted : gmap TradeKey Q;
  lv_last_persist_at : gmap TradeKey Q;
  lv_updated_at : gmap TradeKey Q;
  lv_in_flight : gset TradeKey;
  lv_delayed : gset TradeKey;
  lv_running : list (TradeKey * Q)                       (* the writes that are under way *)
}.
Definition new_live : Live := {|
  lv_loop := false; lv_next_req := 50000; lv_by_req := ∅; lv_listeners_by_req := ∅; lv_marks := ∅; lv_quotes := ∅;
  lv_legs := ∅; lv_contract_reqs := ∅; lv_req_to_contract := ∅; lv_cooldowns := ∅; lv_pending := ∅;
  lv_last_persisted := ∅; lv_last_persist_at := ∅; lv_updated_at := ∅; lv_in_flight := ∅; lv_delayed := ∅;
  lv_running := [] |}.
(** Setters, by the parts of the state that change together. *)
Definition set_subscriptions (next : Z) (by_req : gmap Z TickListener) (listeners : gmap Z (gset TickListener))
    (reqs : gmap ContractKey Z) (contracts : gmap Z ContractKey) (s : Live) : Live := {|
  lv_loop := lv_loop s; lv_next_req := next; lv_by_req := by_req; lv_listeners_by_req := listeners;
  lv_marks := lv_marks s; lv_quotes := lv_quotes s; lv_legs := lv_legs s; lv_contract_reqs := reqs;
  lv_req_to_contract := contracts; lv_cooldowns := lv_cooldowns s; lv_pending := lv_pending s;
  lv_last_persisted := lv_last_persisted s; lv_last_persist_at := lv_last_persist_at s;
  lv_updated_at := lv_updated_at s; lv_in_flight := lv_in_flight s; lv_delayed := lv_delayed s;
  lv_running := lv_running s |}.
Definition set_marks (marks : gmap TickListener Q) (quotes : gmap TickListener Quote) (s : Live) : Live := {|
  lv_loop := lv_loop s; lv_next_req := lv_next_req s; lv_by_req := lv_by_req s;
  lv_listeners_by_req := lv_listeners_by_req s; lv_marks := marks; lv_quotes := quotes; lv_legs := lv_legs s;
  lv_contract_reqs := lv_contract_reqs s; lv_req_to_contract := lv_req_to_contract s; lv_cooldowns := lv_cooldowns s;
  lv_pending := lv_pending s; lv_last_persisted := lv_last_persisted s; lv_last_persist_at := lv_last_persist_at s;
  lv_updated_at := lv_updated_at s; lv_in_flight := lv_in_flight s; lv_delayed := lv_delayed s;
  lv_running := lv_running s |}.
Definition set_watch (loop : bool) (legs : gmap TradeKey Legs) (cooldowns : gmap ContractKey Q) (s : Live) : Live := {|
  lv_loop := loop; lv_next_req := lv_next_req s; lv_by_req := lv_by_req s;
  lv_listeners_by_req := lv_listeners_by_req s; lv_marks := lv_marks s; lv_quotes := lv_quotes s; lv_legs := legs;
  lv_contract_reqs := lv_contract_reqs s; lv_req_to_contract := lv_req_to_contract s; lv_cooldowns := cooldowns;
  lv_pending := lv_pending s; lv_last_persisted := lv_last_persisted s; lv_last_persist_at := lv_last_persist_at s;
  lv_updated_at := lv_updated_at s; lv_in_flight := lv_in_flight s; lv_delayed := lv_delayed s;
  lv_running := lv_running s |}.
Definition set_profit (pending last at_ updated : gmap TradeKey Q) (s : Live) : Live := {|
  lv_loop := lv_loop s; lv_next_req := lv_next_req s; lv_by_req := lv_by_req s;
  lv_listeners_by_req := lv_listeners_by_req s; lv_marks := lv_marks s; lv_quotes := lv_quotes s; lv_legs := lv_legs s;
  lv_contract_reqs := lv_contract_reqs s; lv_req_to_contract := lv_req_to_contract s; lv_cooldowns := lv_cooldowns s;
  lv_pending := pending; lv_last_persisted := last; lv_last_persist_at := at_; lv_updated_at := updated;
  lv_in_flight := lv_in_flight s; lv_delayed := lv_delayed s; lv_running := lv_running s |}.
Definition set_writes (in_flight delayed : gset TradeKey) (running : list (TradeKey * Q)) (s : Live) : Live := {|
  lv_loop := lv_loop s; lv_next_req := lv_next_req s; lv_by_req := lv_by_req s;
  lv_listeners_by_req := lv_listeners_by_req s; lv_marks := lv_marks s; lv_quotes := lv_quotes s; lv_legs := lv_legs s;
  lv_contract_reqs := lv_contract_reqs s; lv_req_to_contract := lv_req_to_contract s; lv_cooldowns := lv_cooldowns s;
  lv_pending := lv_pending s; lv_last_persisted := lv_last_persisted s; lv_last_persist_at := lv_last_persist_at s;
  lv_updated_at := lv_updated_at s; lv_in_flight := in_flight; lv_delayed := delayed; lv_running := running |}.

(** ** The profit of a trade *)
Definition mark_at (k : TradeKey) (symbol : string) (s : Live) : option Q := lv_marks s !! (k, symbol).
Definition all_marked (k : TradeKey) (legs : Legs) (s : Live) : bool :=
  forallb (fun x => bool_decide (is_Some (mark_at k (fst x) s))) legs.
(** The first two legs, at their marks. *)
Definition pair_value (k : TradeKey) (legs : Legs) (s : Live) : Q :=
  let leg x := unrealized_leg (fst (snd x)) (snd (snd x)) (default 0 (mark_at k (fst x) s)) in
  match legs with
  | [] => 0
  | [a] => leg a
  | a :: b :: _ => dadd (leg a) (leg b)
  end.
(** [_recompute]; the coroutine it schedules is a step of its own. *)
Definition recompute (now : Q) (k : TradeKey) (s : Live) : Live :=
  match lv_legs s !! k with
  | None | Some [] => s
  | Some legs =>
      if negb (all_marked k legs s) then s
      else if negb (lv_loop s) then s
      else set_profit (<[k := pair_value k legs s]> (lv_pending s)) (lv_last_persisted s) (lv_last_persist_at s)
             (<[k := now]> (lv_updated_at s)) s
  end.
Definition recompute_all (now : Q) (l : list TradeKey) (s : Live) : Live := fold_left (fun s k => recompute now k s) l s.
Record PairPnlSnapshot : Type := { ps_pnl : Q; ps_updated_at_mono : Q; ps_all_legs_marked : bool }.
Definition get_pair_pnl (k : TradeKey) (s : Live) : option PairPnlSnapshot :=
  match lv_legs s !! k with
  | None | Some [] => None
  | Some legs =>
      let pnl := match lv_pending s !! k with Some p => Some p | None => lv_last_persisted s !! k end in
      match pnl, lv_updated_at s !! k with
      | None, _ => Some {| ps_pnl := 0; ps_updated_at_mono := 0; ps_all_legs_marked := false |}
      | Some p, None => Some {| ps_pnl := p; ps_updated_at_mono := 0; ps_all_legs_marked := false |}
      | Some p, Some t => Some {| ps_pnl := p; ps_updated_at_mono := t; ps_all_legs_marked := all_marked k legs s |}
      end
  end.

(** ** Ticks *)
Definition tick_price_ok (price : Q) : bool := negb (price <=? 0).
Definition tick_listener (tick_type : Z) (price : Q) (acc : Live * list TradeKey) (l : TickListener) : Live * list TradeKey :=
  let '(s, updated) := acc in
  let quote := default no_quote (lv_quotes s !! l) in
  match with_tick tick_type price quote with
  | None => (set_marks (lv_marks s) (<[l := quote]> (lv_quotes s)) s, updated)
  | Some quote =>
      let quotes := <[l := quote]> (lv_quotes s) in
      match effective_mark quote with
      | Some mark => (set_marks (<[l := mark]> (lv_marks s)) quotes s, trade_of_listener l :: updated)
      | None => (set_marks (lv_marks s) quotes s, updated)
      end
  end.
Definition listeners_of (req : Z) (s : Live) : list TickListener :=
  let own := elements (default ∅ (lv_listeners_by_req s !! req)) in
  match own with
  | [] => match lv_by_req s !! req with Some l => [l] | None => [] end
  | _ => own
  end.
(** The price is a float. *)
Definition on_tick_price (now : Q) (req tick_type : Z) (price : Q) (s : Live) : Live :=
  if negb (tick_price_ok price) then s
  else
    let '(s, updated) := fold_left (tick_listener tick_type (repr_dec price)) (listeners_of req s) (s, []) in
    recompute_all now updated s.

(** ** Subscriptions *)
Section Service.
(** The first mark of a symbol, in the order the marks were added. *)
Variable peer_mark : gmap TickListener Q -> string -> option Q.

Definition copy_peer (acc : Live * list TradeKey) (l : TickListener) : Live * list TradeKey :=
  let '(s, trades) := acc in
  match lv_marks s !! l with
  | Some _ => acc
  | None =>
      match peer_mark (lv_marks s) (snd l) with
      | None => acc
      | Some mark => (set_marks (<[l := mark]> (lv_marks s)) (lv_quotes s) s, trade_of_listener l :: trades)
      end
  end.
Definition copy_peer_marks_and_recompute (now : Q) (l : list TickListener) (s : Live) : Live :=
  let '(s, trades) := fold_left copy_peer l (s, []) in recompute_all now trades s.
Definition attach_listeners (now : Q) (req : Z) (l : gset TickListener) (s : Live) : Live :=
  if bool_decide (l = ∅) then s
  else copy_peer_marks_and_recompute now (elements l)
         (set_subscriptions (lv_next_req s) (lv_by_req s)
            (<[req := default ∅ (lv_listeners_by_req s !! req) ∪ l]> (lv_listeners_by_req s))
            (lv_contract_reqs s) (lv_req_to_contract s) s).
(** What becomes of a request for ticks: the contract it is for, the clocks,
    and whether the request is sent, waits for the rate limiter or fails; or
    the contract is looked up first, and the request comes later. *)
Inductive Request : Type :=
  | QualifyFirst
  | RequestNow (contract : ContractKey) (time mono : Q) (fails : bool).
Definition allocate (c : ContractKey) (l : TickListener) (s : Live) : Live :=
  let req := lv_next_req s in
  set_subscriptions (req + 1)%Z (<[req := l]> (lv_by_req s))
    (<[req := {[l]} ∪ default ∅ (lv_listeners_by_req s !! req)]> (lv_listeners_by_req s))
    (<[c := req]> (lv_contract_reqs s)) (<[req := c]> (lv_req_to_contract s)) s.
(** A request that cannot be sent is forgotten, at once or when it is retried. *)
Definition forget_request (c : ContractKey) (req : Z) (s : Live) : Live :=
  set_subscriptions (lv_next_req s) (delete req (lv_by_req s)) (delete req (lv_listeners_by_req s))
    (delete c (lv_contract_reqs s)) (delete req (lv_req_to_contract s)) s.
Definition synthetic_symbol (symbol : string) : bool :=
  let clean := norm_text symbol in String.prefix "ZZZ" clean || str_in "ZZZCFD" clean.
Definition request_ticks (k : TradeKey) (symbol : string) (r : Request) (s : Live) : Live :=
  if synthetic_symbol symbol then s
  else
    match r with
    | QualifyFirst => s
    | RequestNow c time mono fails =>
        if match lv_cooldowns s !! c with Some until => time <? until | None => false end then s
        else
          match lv_contract_reqs s !! c with
          | Some req => attach_listeners mono req {[(k, symbol)]} s
          | None =>
              let req := lv_next_req s in
              let s := allocate c (k, symbol) s in
              if fails then forget_request c req s else s
          end
    end.
Definition signed_leg (l : OrderLeg) : Q :=
  match leg_side l with SELL => - dec_of_num (leg_quantity l) | BUY => dec_of_num (leg_quantity l) end.
Definition before_text (sub s : string) : string :=
  match String.index 0 sub s with Some n => String.substring 0 n s | None => s end.
Definition watched_trade (signal : string) : string := before_text ":UNWIND:" (before_text ":CLOSE" signal).
Definition watch_leg (k : TradeKey) (acc : Live * Legs) (x : OrderLeg * Request) : Live * Legs :=
  let '(s, legs) := acc in
  let '(l, r) := x in
  (request_ticks k (leg_symbol l) r s, set_leg (leg_symbol l) (signed_leg l, leg_price l) legs).
Definition watch_open (running_loop : bool) (account : option Z) (signal : string) (legs : list (OrderLeg * Request))
    (s : Live) : Live :=
  match account with
  | None => s
  | Some a =>
      let s := set_watch (lv_loop s || running_loop) (lv_legs s) (lv_cooldowns s) s in
      let k := (a, watched_trade signal) in
      match lv_legs s !! k with
      | Some _ => s
      | None =>
          let '(s, l) := fold_left (watch_leg k) legs (s, []) in
          set_watch (lv_loop s) (<[k := l]> (lv_legs s)) (lv_cooldowns s) s
      end
  end.
(** A row of the ledger: its trade is watched, its profit is the last written. *)
Definition hydrate_row (running_loop : bool) (account : Z) (trade : string) (legs : list (OrderLeg * Request)) (pnl : Q)
    (s : Live) : Live :=
  match legs with
  | [] => s
  | _ =>
      let s := watch_open running_loop (Some account) trade legs s in
      set_profit (lv_pending s) (<[(account, trade) := pnl]> (lv_last_persisted s)) (lv_last_persist_at s)
        (lv_updated_at s) s
  end.
(** One request of a trade that is no longer watched. *)
Definition unwatch_req (k : TradeKey) (s : Live) (x : Z * gset TickListener) : Live :=
  let '(req, listeners) := x in
  let gone := filter (fun l => trade_of_listener l = k) listeners in
  let rest := listeners ∖ gone in
  let s := set_marks (filter (fun p => fst p ∉ gone) (lv_marks s)) (filter (fun p => fst p ∉ gone) (lv_quotes s)) s in
  if bool_decide (rest = ∅) then
    set_subscriptions (lv_next_req s) (delete req (lv_by_req s)) (delete req (lv_listeners_by_req s))
      (match lv_req_to_contract s !! req with Some c => delete c (lv_contract_reqs s) | None => lv_contract_reqs s end)
      (delete req (lv_req_to_contract s)) s
  else
    set_subscriptions (lv_next_req s) (lv_by_req s) (<[req := rest]> (lv_listeners_by_req s)) (lv_contract_reqs s)
      (lv_req_to_contract s) s.
Definition unwatch (k : TradeKey) (s : Live) : Live :=
  let s := set_watch (lv_loop s) (delete k (lv_legs s)) (lv_cooldowns s) s in
  let s := set_profit (delete k (lv_pending s)) (delete k (lv_last_persisted s)) (delete k (lv_last_persist_at s))
             (delete k (lv_updated_at s)) s in
  let s := set_writes (lv_in_flight s ∖ {[k]}) (lv_delayed s ∖ {[k]}) (lv_running s) s in
  fold_left (unwatch_req k) (map_to_list (lv_listeners_by_req s)) s.
Definition on_reroute_mkt_data (now : Q) (req con_id : Z) (exchange : string) (s : Live) : Live :=
  match lv_req_to_contract s !! req with
  | None => s
  | Some c =>
      let '(_, symbol, _, _, _) := c in
      let new : ContractKey := ("STK"%string, symbol, str_or exchange "SMART", "USD"%string, con_id) in
      let listeners := default ∅ (lv_listeners_by_req s !! req) in
      match lv_contract_reqs s !! new with
      | Some existing => attach_listeners now existing listeners s
      | None =>
          let n := lv_next_req s in
          set_subscriptions (n + 1)%Z
            (match lv_by_req s !! req with Some l => <[n := l]> (lv_by_req s) | None => lv_by_req s end)
            (<[n := listeners]> (lv_listeners_by_req s)) (<[new := n]> (lv_contract_reqs s))
            (<[n := new]> (lv_req_to_contract s)) s
      end
  end.
(** Ten minutes without requests for a contract the broker refuses. *)
Definition on_error (time : Q) (req code : Z) (s : Live) : Live :=
  match lv_req_to_contract s !! req with
  | None => s
  | Some c =>
      if existsb (Z.eqb code) [354; 300; 321; 200]%Z
      then set_watch (lv_loop s) (lv_legs s) (<[c := fl (time + 600)]> (lv_cooldowns s)) s
      else if (code =? 1101)%Z then set_watch (lv_loop s) (lv_legs s) ∅ s
      else s
  end.

(** ** Writing the profit *)
(** [_schedule_persist] up to the write: what it does next. *)
Inductive Scheduled : Type := Nothing | Later (wait : Q) | Writes (pnl : Q).
Definition schedule_persist (now : Q) (k : TradeKey) (s : Live) : Live * Scheduled :=
  match lv_legs s !! k, lv_pending s !! k with
  | Some _, Some pending =>
      if match lv_last_persisted s !! k with Some p => Qeq_bool pending p | None => false end
      then (set_profit (delete k (lv_pending s)) (lv_last_persisted s) (lv_last_persist_at s) (lv_updated_at s) s, Nothing)
      else if bool_decide (k ∈ lv_in_flight s) then (s, Nothing)
      else
        let wait := match lv_last_persist_at s !! k with
                    | Some at_ => let past := fl (now - at_) in
                                  if past <? PERSIST_MIN_INTERVAL_SEC then Some (fl (PERSIST_MIN_INTERVAL_SEC - past)) else None
                    | None => None
                    end in
        match wait with
        | Some t =>
            if bool_decide (k ∈ lv_delayed s) then (s, Nothing)
            else (set_writes (lv_in_flight s) ({[k]} ∪ lv_delayed s) (lv_running s) s, Later t)
        | None => (set_writes ({[k]} ∪ lv_in_flight s) (lv_delayed s) (lv_running s ++ [(k, pending)]) s, Writes pending)
        end
  | _, _ => (s, Nothing)
  end.
(** The end of a write, with or without success. *)
Definition persist_done (now : Q) (i : nat) (ok : bool) (s : Live) : Live :=
  match lv_running s !! i with
  | None => s
  | Some (k, pnl) =>
      let s := if ok then
                 set_profit (match lv_pending s !! k with
                             | Some p => if Qeq_bool p pnl then delete k (lv_pending s) else lv_pending s
                             | None => lv_pending s
                             end) (<[k := pnl]> (lv_last_persisted s)) (<[k := now]> (lv_last_persist_at s))
                   (lv_updated_at s) s
               else s in
      set_writes (lv_in_flight s ∖ {[k]}) (lv_delayed s ∖ {[k]}) (delete i (lv_running s)) s
  end.

(** ** Runs *)
Inductive LiveEvent : Type :=
  | Watch (running_loop : bool) (account : option Z) (signal : string) (legs : list (OrderLeg * Request))
  | Hydrate (running_loop : bool) (account : Z) (trade : string) (legs : list (OrderLeg * Request)) (pnl : Q)
  | Qualified (k : TradeKey) (symbol : string) (r : Request)
  | RequestFailed (c : ContractKey) (req : Z)
  | TickPrice (now : Q) (req tick_type : Z) (price : Q)
  | Reroute (now : Q) (req con_id : Z) (exchange : string)
  | BrokerError (time : Q) (req code : Z)
  | Unwatch (k : TradeKey)
  | Schedule (now : Q) (k : TradeKey)
  | Persisted (now : Q) (write : nat) (ok : bool).
Definition live_step (s : Live) (e : LiveEvent) : Live :=
  match e with
  | Watch loop a signal legs => watch_open loop a signal legs s
  | Hydrate loop a t legs pnl => hydrate_row loop a t legs pnl s
  | Qualified k symbol r => request_ticks k symbol r s
  | RequestFailed c req => forget_request c req s
  | TickPrice now req ty price => on_tick_price now req ty price s
  | Reroute now req con ex => on_reroute_mkt_data now req con ex s
  | BrokerError time req code => on_error time req code s
  | Unwatch k => unwatch k s
  | Schedule now k => fst (schedule_persist now k s)
  | Persisted now i ok => persist_done now i ok s
  end.
Definition live_run (l : list LiveEvent) (s : Live) : Live := fold_left live_step l s.
End Service.

(** ** Facts *)
(** What is shown of a trade's profit. *)
Definition shown (k : TradeKey) (s : Live) : option Q :=
  match lv_pending s !! k with Some p => Some p | None => lv_last_persisted s !! k end.
Definition writing (k : TradeKey) (s : Live) : Prop := exists p, (k, p) ∈ lv_running s.
(** The profit of every trade but those of [T] is the one at the marks. *)
Record live_ok (T : list TradeKey) (s : Live) : Prop := {
  lo_loop : lv_loop s = false -> lv_updated_at s = ∅;
  lo_value : forall k t, lv_updated_at s !! k = Some t ->
    exists legs, lv_legs s !! k = Some legs /\ legs <> [] /\ all_marked k legs s = true
      /\ (k ∈ T \/ exists v, shown k s = Some v /\ v == pair_value k legs s);
  lo_pending : forall k, is_Some (lv_pending s !! k) -> is_Some (lv_updated_at s !! k);
  lo_running : forall k p, (k, p) ∈ lv_running s -> is_Some (lv_pending s !! k) /\ k ∈ lv_in_flight s;
  lo_once : NoDup (map fst (lv_running s))
}.
(** What the profits depend on. *)
Record same_profit (s s' : Live) : Prop := {
  sp_loop : lv_loop s' = lv_loop s; sp_marks : lv_marks s' = lv_marks s; sp_legs : lv_legs s' = lv_legs s;
  sp_pending : lv_pending s' = lv_pending s; sp_last : lv_last_persisted s' = lv_last_persisted s;
  sp_updated : lv_updated_at s' = lv_updated_at s; sp_in_flight : lv_in_flight s' = lv_in_flight s;
  sp_running : lv_running s' = lv_running s
}.
Lemma value_marks k legs s s' :
  (forall symbol, mark_at k symbol s' = mark_at k symbol s) ->
  all_marked k legs s' = all_marked k legs s /\ pair_value k legs s' = pair_value k legs s.
Proof.
  intros M. split.
  - unfold all_marked. induction legs as [|x l IH]; [done|]. simpl. by rewrite M, IH.
  - unfold pair_value. destruct legs as [|a [|b l]]; by rewrite ?M.
Qed.
Lemma same_ok T s s' : same_profit s s' -> live_ok T s -> live_ok T s'.
Proof.
  intros [E1 E2 E3 E4 E5 E6 E7 E8] [L V P R O]. split.
  - by rewrite E1, E6.
  - intros k t. rewrite E6. intros U. destruct (V k t U) as (legs & Lg & N & A & S). exists legs.
    destruct (value_marks k legs s s') as [Ea Ev]; [intros x; unfold mark_at; by rewrite E2|].
    rewrite E3, Ea, Ev. unfold shown in *. rewrite E4, E5. by split_and!.
  - intros k. rewrite E4, E6. apply P.
  - intros k p. rewrite E8, E4, E7. apply R.
  - by rewrite E8.
Qed.
Lemma ok_weaken T T' s : (forall k, k ∈ T -> k ∈ T') -> live_ok T s -> live_ok T' s.
Proof.
  intros I [L V P R O]. split; try done. intros k t U. destruct (V k t U) as (legs & Lg & N & A & S).
  exists legs. split_and!; try done. destruct S as [S|S]; [left; by apply I|by right].
Qed.

(** *** Marks and profits *)
Lemma recompute_ok now k T s : live_ok (k :: T) s -> live_ok T (recompute now k s).
Proof.
  intros H. assert (Skip : (forall t, lv_updated_at s !! k = Some t -> False) -> live_ok T s).
  { intros N. destruct H as [L V P R O]. split; try done. intros j t U. destruct (V j t U) as (legs & Lg & Ne & A & S).
    exists legs. split_and!; try done. destruct S as [[->|S]%elem_of_cons|S]; [by destruct (N t)|by left|by right]. }
  unfold recompute. destruct (lv_legs s !! k) as [[|x l]|] eqn:Lg.
  - apply Skip. intros t U. destruct H as [_ V _ _ _]. destruct (V k t U) as (legs & L' & N & _). congruence.
  - destruct (all_marked k (x :: l) s) eqn:A; cbn [negb]; cycle 1.
    { apply Skip. intros t U. destruct H as [_ V _ _ _]. destruct (V k t U) as (legs & L' & _ & A' & _). congruence. }
    destruct (lv_loop s) eqn:Lp; cbn [negb]; cycle 1.
    { apply Skip. intros t U. destruct H as [L _ _ _ _]. rewrite L in U by done. by rewrite lookup_empty in U. }
    destruct H as [L V P R O]. split; [simpl; congruence| | | |exact O].
    + intros j t. cbn [lv_updated_at set_profit]. destruct (decide (j = k)) as [->|Nj].
      * intros _. exists (x :: l). split; [exact Lg|]. split; [done|]. split; [exact A|]. right.
        exists (pair_value k (x :: l) s). unfold shown. simpl. by rewrite lookup_insert_eq.
      * rewrite lookup_insert_ne by done. intros U. destruct (V j t U) as (legs & Lj & N & Aj & S). exists legs.
        split_and!; try done. destruct S as [[->|S]%elem_of_cons|(v & S & E)]; [done|by left|right].
        exists v. split; [|exact E]. unfold shown in *. simpl. by rewrite lookup_insert_ne.
    + intros j. simpl. destruct (decide (j = k)) as [->|N]; [rewrite !lookup_insert_eq; by eexists|].
      rewrite !lookup_insert_ne by done. apply P.
    + intros j p I. destruct (R j p I) as [S F]. split; [|exact F]. simpl.
      destruct (decide (j = k)) as [->|N]; [by rewrite lookup_insert_eq|by rewrite lookup_insert_ne].
  - apply Skip. intros t U. destruct H as [_ V _ _ _]. destruct (V k t U) as (legs & L' & _). congruence.
Qed.
Lemma recompute_all_ok now l T s :
  (forall k, k ∈ T -> k ∈ l) -> live_ok T s -> live_ok [] (recompute_all now l s).
Proof.
  intros I H. apply (ok_weaken T l) in H; [|done]. clear I T. revert s H.
  induction l as [|k l IH]; intros s H; [done|]. cbn [recompute_all fold_left]. by apply IH, recompute_ok.
Qed.
Lemma recompute_all_legs now l s : lv_legs (recompute_all now l s) = lv_legs s.
Proof.
  revert s. induction l as [|k l IH]; intros s; [done|]. cbn [recompute_all fold_left].
  etrans; [apply IH|]. unfold recompute. by repeat case_match.
Qed.
(** A mark is set, and its trade is to be recomputed. *)
Lemma set_mark_ok T (l : TickListener) mark quotes s :
  live_ok T s -> live_ok (trade_of_listener l :: T) (set_marks (<[l := mark]> (lv_marks s)) quotes s).
Proof.
  intros [L V P R O]. split; try done. intros k t U. destruct (V k t U) as (legs & Lg & N & A & S).
  exists legs. split; [exact Lg|]. split; [exact N|].
  assert (M : forall symbol, is_Some (mark_at k symbol s) -> is_Some (<[l := mark]> (lv_marks s) !! (k, symbol))).
  { intros symbol [q Q]. unfold mark_at in Q. destruct (decide (l = (k, symbol))) as [->|Ne];
      [by rewrite lookup_insert_eq|rewrite lookup_insert_ne by done; by exists q]. }
  split.
  - apply forallb_forall. intros x Ix. apply (proj1 (forallb_forall _ _) A) in Ix.
    apply bool_decide_eq_true_1 in Ix. apply bool_decide_eq_true_2. by apply M.
  - destruct (decide (k = trade_of_listener l)) as [->|Nk]; [left; by left|].
    destruct S as [S|(v & S & E)]; [left; by right|right]. exists v. split; [exact S|]. rewrite E.
    destruct (value_marks k legs s (set_marks (<[l := mark]> (lv_marks s)) quotes s)) as [_ ->]; [|done].
    intros symbol. unfold mark_at. simpl. rewrite lookup_insert_ne; [done|]. intros ->. by destruct Nk.
Qed.
Lemma set_quotes_same quotes s : same_profit s (set_marks (lv_marks s) quotes s).
Proof. done. Qed.
Lemma tick_listener_ok ty price acc l :
  live_ok (snd acc) (fst acc) -> let acc' := tick_listener ty price acc l in live_ok (snd acc') (fst acc').
Proof.
  destruct acc as [s upd]. cbn [fst snd]. intros H. unfold tick_listener.
  destruct (with_tick _ _ _) as [q|]; [|by eapply same_ok; [apply set_quotes_same|]].
  destruct (effective_mark q) as [mark|]; cbn [fst snd]; [by apply set_mark_ok|].
  by eapply same_ok; [apply set_quotes_same|].
Qed.
Lemma tick_ok now req ty price s : live_ok [] s -> live_ok [] (on_tick_price now req ty price s).
Proof.
  intros H. unfold on_tick_price. destruct (negb _); [done|].
  assert (F : forall l acc, live_ok (snd acc) (fst acc) ->
    let acc' := fold_left (tick_listener ty (repr_dec price)) l acc in live_ok (snd acc') (fst acc')).
  { induction l as [|x l IH]; intros acc A; [exact A|]. cbn [fold_left]. by apply IH, tick_listener_ok. }
  specialize (F (listeners_of req s) (s, []) H). cbv zeta in F. destruct (fold_left _ _ _) as [s' upd].
  by apply (recompute_all_ok now upd upd).
Qed.

Section LiveFacts.
Variable peer_mark : gmap TickListener Q -> string -> option Q.
Lemma copy_peers_ok now l s : live_ok [] s -> live_ok [] (copy_peer_marks_and_recompute peer_mark now l s).
Proof.
  intros H. unfold copy_peer_marks_and_recompute.
  assert (F : forall l acc, live_ok (snd acc) (fst acc) ->
    let acc' := fold_left (copy_peer peer_mark) l acc in live_ok (snd acc') (fst acc')).
  { clear l H. induction l as [|x l IH]; intros [s' tr] A; [exact A|]. cbn [fold_left]. apply IH. unfold copy_peer.
    destruct (lv_marks s' !! x); [exact A|]. destruct (peer_mark _ _) as [mark|]; [|exact A]. by apply set_mark_ok. }
  specialize (F l (s, []) H). cbv zeta in F. destruct (fold_left _ _ _) as [s' upd].
  by apply (recompute_all_ok now upd upd).
Qed.
Lemma attach_ok now req l s : live_ok [] s -> live_ok [] (attach_listeners peer_mark now req l s).
Proof.
  intros H. unfold attach_listeners. case_bool_decide; [done|]. apply copy_peers_ok. by eapply same_ok; [|exact H].
Qed.
Lemma attach_legs now req l s : lv_legs (attach_listeners peer_mark now req l s) = lv_legs s.
Proof.
  unfold attach_listeners. case_bool_decide; [done|]. unfold copy_peer_marks_and_recompute.
  set (s1 := set_subscriptions _ _ _ _ _ s).
  assert (F : forall l acc, lv_legs (fst (fold_left (copy_peer peer_mark) l acc)) = lv_legs (fst acc)).
  { clear. induction l as [|x l IH]; intros [s tr]; [done|]. cbn [fold_left]. rewrite IH. unfold copy_peer.
    by repeat case_match. }
  specialize (F (elements l) (s1, [])). destruct (fold_left _ _ _) as [s' upd]. by rewrite recompute_all_legs.
Qed.
Lemma request_ok k symbol r s : live_ok [] s -> live_ok [] (request_ticks peer_mark k symbol r s).
Proof.
  intros H. unfold request_ticks. destruct (synthetic_symbol _); [done|]. destruct r as [|c time mono fails]; [done|].
  destruct (match lv_cooldowns s !! c with Some _ => _ | None => _ end); [done|].
  destruct (lv_contract_reqs s !! c); [by apply attach_ok|]. destruct fails; by eapply same_ok; [|exact H].
Qed.
Lemma request_legs k symbol r s : lv_legs (request_ticks peer_mark k symbol r s) = lv_legs s.
Proof.
  unfold request_ticks. destruct (synthetic_symbol _); [done|]. destruct r as [|c time mono fails]; [done|].
  destruct (match lv_cooldowns s !! c with Some _ => _ | None => _ end); [done|].
  destruct (lv_contract_reqs s !! c); [apply attach_legs|]. by destruct fails.
Qed.

(** *** Watching *)
Lemma new_legs_ok loop k legs cooldowns s :
  (lv_loop s = true -> loop = true) -> lv_legs s !! k = None -> live_ok [] s ->
  live_ok [] (set_watch loop (<[k := legs]> (lv_legs s)) cooldowns s).
Proof.
  intros Lp N [L V P R O]. split; try done.
  - simpl. intros E. apply L. destruct (lv_loop s); [by rewrite Lp in E|done].
  - intros j t U. destruct (V j t U) as (lg & Lg & Ne & A & S). exists lg. split; [|by split_and!].
    simpl. rewrite lookup_insert_ne; [done|]. intros ->. congruence.
Qed.
Lemma loop_ok loop cooldowns s :
  (lv_loop s = true -> loop = true) -> live_ok [] s -> live_ok [] (set_watch loop (lv_legs s) cooldowns s).
Proof.
  intros Lp [L V P R O]. split; try done. simpl. intros E. apply L. destruct (lv_loop s); [by rewrite Lp in E|done].
Qed.
Lemma watch_ok loop account signal legs s :
  live_ok [] s -> live_ok [] (watch_open peer_mark loop account signal legs s).
Proof.
  intros H. unfold watch_open. destruct account as [a|]; [|done]. cbv zeta.
  set (s1 := set_watch (lv_loop s || loop) _ _ s).
  assert (H1 : live_ok [] s1) by (apply loop_ok; [by intros ->|exact H]). clearbody s1. set (k := (a, watched_trade signal)).
  destruct (lv_legs s1 !! k) eqn:N; [done|].
  assert (F : forall l acc, live_ok [] (fst acc) -> lv_legs (fst acc) !! k = None ->
    let acc' := fold_left (watch_leg peer_mark k) l acc in live_ok [] (fst acc') /\ lv_legs (fst acc') !! k = None).
  { induction l as [|[x r] l IH]; intros [s' lg] A B; [done|]. cbn [fold_left watch_leg]. apply IH; cbn [fst] in *;
      [by apply request_ok|by rewrite request_legs]. }
  destruct (F legs (s1, []) H1 N) as [A B]. destruct (fold_left _ _ _) as [s' lg]. by apply new_legs_ok.
Qed.
Lemma watch_updated loop account signal legs s k :
  lv_legs s !! k = None -> live_ok [] s -> lv_updated_at (watch_open peer_mark loop account signal legs s) !! k = None.
Proof.
  intros N H. destruct (lv_updated_at _ !! k) as [t|] eqn:U; [exfalso|done].
  unfold watch_open in U. destruct account as [a|]; cycle 1.
  { destruct H as [_ V _ _ _]. destruct (V k t U) as (l & L & _). congruence. }
  cbv zeta in U. set (s1 := set_watch (lv_loop s || loop) _ _ s) in U.
  assert (H1 : live_ok [] s1) by (apply loop_ok; [by intros ->|exact H]).
  assert (N1 : lv_legs s1 !! k = None) by exact N. clearbody s1. set (k' := (a, watched_trade signal)) in U.
  assert (Ab : forall s', live_ok [] s' -> lv_legs s' !! k = None -> lv_updated_at s' !! k = Some t -> False).
  { intros s' [_ V _ _ _] N' U'. destruct (V k t U') as (l & L & _). congruence. }
  destruct (lv_legs s1 !! k'); [by apply (Ab s1)|].
  assert (F : forall l acc, live_ok [] (fst acc) -> lv_legs (fst acc) !! k = None ->
    let acc' := fold_left (watch_leg peer_mark k') l acc in live_ok [] (fst acc') /\ lv_legs (fst acc') !! k = None).
  { induction l as [|[x r] l IH]; intros [s' lg] A B; [done|]. cbn [fold_left watch_leg]. apply IH; cbn [fst] in *;
      [by apply request_ok|by rewrite request_legs]. }
  destruct (F legs (s1, []) H1 N1) as [A B]. destruct (fold_left _ _ _) as [s' lg]. by apply (Ab s').
Qed.
Lemma hydrate_ok loop a t legs pnl s :
  lv_legs s !! (a, t) = None -> live_ok [] s -> live_ok [] (hydrate_row peer_mark loop a t legs pnl s).
Proof.
  intros N H. unfold hydrate_row. destruct legs as [|x l]; [done|]. set (s1 := watch_open _ _ _ _ _ s).
  pose proof (watch_updated loop (Some a) t (x :: l) s (a, t) N H) as U. fold s1 in U.
  assert (H1 : live_ok [] s1) by (by apply watch_ok). clearbody s1. destruct H1 as [L V P R O]. split; try done.
  intros j u Uj. destruct (V j u Uj) as (lg & Lg & Ne & A & [S|(v & S & E)]); [by apply elem_of_nil in S|].
  exists lg. split_and!; try done. right. exists v. split; [|exact E]. unfold shown in *. cbn [lv_pending lv_last_persisted set_profit].
  destruct (lv_pending s1 !! j); [exact S|]. rewrite lookup_insert_ne; [exact S|]. intros <-. simpl in Uj. congruence.
Qed.
(** Only the marks of the trade itself are removed. *)
Lemma unwatch_req_same k s x :
  let s' := unwatch_req k s x in
  lv_loop s' = lv_loop s /\ lv_legs s' = lv_legs s /\ lv_pending s' = lv_pending s
  /\ lv_last_persisted s' = lv_last_persisted s /\ lv_updated_at s' = lv_updated_at s
  /\ lv_in_flight s' = lv_in_flight s /\ lv_running s' = lv_running s
  /\ forall j symbol, j <> k -> mark_at j symbol s' = mark_at j symbol s.
Proof.
  destruct x as [req ls]. unfold unwatch_req. set (gone := filter _ ls). cbv zeta.
  assert (M : forall j symbol, j <> k ->
    filter (fun p : TickListener * Q => fst p ∉ gone) (lv_marks s) !! (j, symbol) = lv_marks s !! (j, symbol)).
  { intros j symbol N. destruct (lv_marks s !! (j, symbol)) as [q|] eqn:E.
    - apply map_lookup_filter_Some. split; [exact E|]. simpl. subst gone. intros [T _]%elem_of_filter. by simpl in T.
    - apply map_lookup_filter_None. by left. }
  by case_bool_decide.
Qed.
Lemma unwatch_ok k s : ~ writing k s -> live_ok [] s -> live_ok [] (unwatch k s).
Proof.
  intros Wr H. unfold unwatch. set (s1 := set_writes _ _ _ _).
  assert (H1 : live_ok [] s1 /\ lv_updated_at s1 !! k = None).
  { split; [|apply lookup_delete_eq]. destruct H as [L V P R O]. subst s1. split.
    - simpl. intros E. by rewrite L, delete_empty.
    - intros j t. cbn [lv_updated_at set_writes set_profit set_watch]. intros [Nj U]%lookup_delete_Some.
      destruct (V j t U) as (lg & Lg & Ne & A & [S|(v & S & E)]); [by apply elem_of_nil in S|]. exists lg.
      split; [simpl; by rewrite lookup_delete_ne|]. split_and!; try done. right. exists v. split; [|exact E].
      unfold shown in *. simpl. by rewrite !lookup_delete_ne.
    - intros j. simpl. intros [q [Nj Q]%lookup_delete_Some]. rewrite lookup_delete_ne by done. apply P. by exists q.
    - intros j q I. destruct (R j q I) as [S F]. assert (Nj : j <> k) by (intros ->; destruct Wr; by exists q).
      simpl. rewrite lookup_delete_ne by done. split; [exact S|set_solver].
    - exact O. }
  clearbody s1. revert H1. generalize (map_to_list (lv_listeners_by_req s1)) as l. intros l. revert s1.
  induction l as [|x l IH]; intros s1 [H1 U1]; [done|]. cbn [fold_left]. apply IH.
  destruct (unwatch_req_same k s1 x) as (E1 & E2 & E3 & E4 & E5 & E6 & E7 & M).
  set (s2 := unwatch_req k s1 x) in *. rewrite E5. split; [|exact U1]. destruct H1 as [L V P R O]. split.
  - by rewrite E1, E5.
  - intros j t. rewrite E5. intros U. destruct (V j t U) as (lg & Lg & Ne & A & [S|(v & S & E)]);
      [by apply elem_of_nil in S|]. exists lg. rewrite E2.
    destruct (value_marks j lg s1 s2) as [Ea Ev]; [intros symbol; apply M; intros ->; congruence|].
    rewrite Ea, Ev. split_and!; try done. right. exists v. unfold shown in *. by rewrite E3, E4.
  - intros j. rewrite E3, E5. apply P.
  - intros j q. rewrite E3, E6, E7. apply R.
  - by rewrite E7.
Qed.

(** *** Writing *)
Lemma delete_nodup {A B} (f : A -> B) (l : list A) i a :
  l !! i = Some a -> NoDup (map f l) ->
  NoDup (map f (delete i l)) /\ forall x, x ∈ delete i l -> x ∈ l /\ f x <> f a.
Proof.
  intros Ri O. pose proof (delete_Permutation _ _ _ Ri) as Pm. pose proof (Permutation_map f Pm) as Pf.
  apply (NoDup_Permutation_proper _ _ Pf) in O. apply NoDup_cons in O as [N O]. split; [exact O|].
  intros x I. split.
  - apply (elem_of_Permutation_proper x _ _ Pm). by right.
  - intros E. apply N. rewrite <- E. apply list_elem_of_fmap. by exists x.
Qed.
Lemma schedule_ok now k s :
  (lv_pending (fst (schedule_persist now k s)) <> lv_pending s -> ~ writing k s) ->
  live_ok [] s -> live_ok [] (fst (schedule_persist now k s)).
Proof.
  unfold schedule_persist. destruct (lv_legs s !! k) as [legs|]; [|done]. destruct (lv_pending s !! k) as [p|] eqn:Pe; [|done].
  destruct (match lv_last_persisted s !! k with Some _ => _ | None => _ end) eqn:Sa.
  - cbn [fst]. intros C [L V P R O]. assert (W : ~ writing k s).
    { apply C. simpl. intros E. apply (f_equal (lookup k)) in E. rewrite lookup_delete_eq in E. congruence. }
    destruct (lv_last_persisted s !! k) as [q|] eqn:La; [|done]. apply Qeq_bool_eq in Sa. split; try done.
    + intros j t U. destruct (V j t U) as (lg & Lg & Ne & A & [S|(v & S & E)]); [by apply elem_of_nil in S|].
      exists lg. split_and!; try done. right. destruct (decide (j = k)) as [->|Nj].
      * unfold shown in *. rewrite Pe in S. injection S as ->. exists q. simpl. rewrite lookup_delete_eq, La.
        split; [done|]. by rewrite <- Sa, E.
      * exists v. split; [|exact E]. unfold shown in *. simpl. by rewrite lookup_delete_ne.
    + intros j [x Q]. simpl in Q. apply lookup_delete_Some in Q as [_ Q]. apply P. by exists x.
    + intros j x I. destruct (R j x I) as [Q F]. split; [|exact F]. simpl.
      rewrite lookup_delete_ne; [exact Q|]. intros <-. destruct W. by exists x.
  - intros _ H. case_bool_decide as Fl; [done|]. set (wait := match lv_last_persist_at s !! k with Some _ => _ | None => _ end).
    destruct wait as [t|]; [case_bool_decide; [done|]; by eapply same_ok; [|exact H]|].
    destruct H as [L V P R O]. split; try done.
    + intros j x I. simpl in I. apply elem_of_app in I as [I|I].
      * destruct (R j x I) as [Q F]. split; [exact Q|simpl; set_solver].
      * apply list_elem_of_singleton in I. injection I as -> ->. split; [by exists p|simpl; set_solver].
    + simpl. rewrite map_app. apply NoDup_app. split; [exact O|]. split; [|apply NoDup_singleton].
      intros j I J. simpl in J. apply list_elem_of_singleton in J as ->. apply list_elem_of_fmap in I as ([j x] & -> & I).
      by destruct (R j x I).
Qed.
Lemma done_ok now i ok s : live_ok [] s -> live_ok [] (persist_done now i ok s).
Proof.
  intros H. unfold persist_done. destruct (lv_running s !! i) as [[k p]|] eqn:Ri; [|done].
  destruct H as [L V P R O]. assert (I : (k, p) ∈ lv_running s) by (by eapply list_elem_of_lookup_2).
  destruct (R k p I) as [[q Q] F]. set (s1 := if ok then _ else s).
  assert (Sub : forall j x, (j, x) ∈ delete i (lv_running s) -> (j, x) ∈ lv_running s /\ j <> k).
  { intros j x J. destruct (proj2 (delete_nodup fst _ _ _ Ri O) (j, x) J) as [J' N]. by split. }
  assert (K : lv_loop s1 = lv_loop s /\ lv_marks s1 = lv_marks s /\ lv_legs s1 = lv_legs s
    /\ lv_updated_at s1 = lv_updated_at s /\ lv_in_flight s1 = lv_in_flight s /\ lv_running s1 = lv_running s
    /\ (forall j, j <> k -> lv_pending s1 !! j = lv_pending s !! j)
    /\ (is_Some (lv_pending s1 !! k) -> is_Some (lv_pending s !! k))
    /\ (forall j v, shown j s = Some v -> exists v', shown j s1 = Some v' /\ v' == v)).
  { subst s1. destruct ok; [|split_and!; try done; intros j v S; by exists v]. split_and!; try done.
    - intros j N. simpl. rewrite Q. destruct (Qeq_bool q p); [by rewrite lookup_delete_ne|done].
    - intros j v S. unfold shown in *. simpl. rewrite Q. destruct (decide (j = k)) as [->|N].
      + rewrite Q in S. injection S as ->. destruct (Qeq_bool v p) eqn:E.
        * rewrite lookup_delete_eq, lookup_insert_eq. exists p. split; [done|]. symmetry. by apply Qeq_bool_eq.
        * rewrite Q. by exists v.
      + destruct (Qeq_bool q p); rewrite ?lookup_delete_ne, lookup_insert_ne by done; by exists v. }
  destruct K as (K1 & K2 & K3 & K4 & K5 & K6 & Kp & Kk & Ks). split.
  - simpl. rewrite K1, K4. exact L.
  - intros j t. simpl. rewrite K4. intros U. destruct (V j t U) as (lg & Lg & Ne & A & [S|(v & S & E)]);
      [by apply elem_of_nil in S|]. exists lg. rewrite K3.
    destruct (value_marks j lg s (set_writes (lv_in_flight s1 ∖ {[k]}) (lv_delayed s1 ∖ {[k]}) (delete i (lv_running s1)) s1))
      as [Ea Ev]; [intros x; unfold mark_at; simpl; by rewrite K2|].
    rewrite Ea, Ev. split_and!; try done. right. destruct (Ks j v S) as (v' & S' & E'). exists v'.
    split; [exact S'|]. by rewrite E'.
  - intros j. simpl. rewrite K4. intros J. apply P. destruct (decide (j = k)) as [->|N]; [by apply Kk|by rewrite <- Kp].
  - intros j x. simpl. rewrite K5, K6. intros J. destruct (Sub j x J) as [J' N]. destruct (R j x J') as [Pj Fj].
    split; [by rewrite Kp|set_solver].
  - simpl. rewrite K6. by apply (delete_nodup fst _ _ _ Ri O).
Qed.

(** *** Runs *)
(** A profit that equals the last one written is dropped while another is
    being written; a trade is closed while its profit is being written; a row
    is read for a trade that is already watched: the steps after which a
    profit may be wrong. *)
Definition calm_step (s : Live) (e : LiveEvent) : Prop :=
  match e with
  | Schedule now k => lv_pending (fst (schedule_persist now k s)) <> lv_pending s -> ~ writing k s
  | Unwatch k => ~ writing k s
  | Hydrate _ a t _ _ => lv_legs s !! (a, t) = None
  | _ => True
  end.
Fixpoint calm (l : list LiveEvent) (s : Live) : Prop :=
  match l with [] => True | e :: l => calm_step s e /\ calm l (live_step peer_mark s e) end.
Lemma live_step_ok s e : calm_step s e -> live_ok [] s -> live_ok [] (live_step peer_mark s e).
Proof.
  intros C H. destruct e; cbn [live_step calm_step] in *.
  - by apply watch_ok.
  - by apply hydrate_ok.
  - by apply request_ok.
  - by eapply same_ok; [|exact H].
  - by apply tick_ok.
  - unfold on_reroute_mkt_data. destruct (lv_req_to_contract s !! req) as [[[[[a b] c] d] f]|]; [|done].
    destruct (lv_contract_reqs s !! _); [by apply attach_ok|by eapply same_ok; [|exact H]].
  - unfold on_error. destruct (lv_req_to_contract s !! req); [|done].
    destruct (existsb _ _); [by apply loop_ok|]. destruct (code =? 1101)%Z; [by apply loop_ok|done].
  - by apply unwatch_ok.
  - by apply schedule_ok.
  - by apply done_ok.
Qed.
Lemma live_run_ok l s : calm l s -> live_ok [] s -> live_ok [] (live_run peer_mark l s).
Proof.
  revert s. induction l as [|e l IH]; intros s; [done|]. intros [C1 C2] H. cbn [live_run fold_left].
  by apply IH, live_step_ok.
Qed.
Lemma new_ok : live_ok [] new_live.
Proof.
  split; try done.
  - intros k p I. by apply elem_of_nil in I.
  - apply NoDup_nil_2.
Qed.

(** C31: Whatever ticks, watches, reroutes, errors and overlapping writes come,
    a profit that is shown with all legs marked is the profit at the current
    marks, when no step of the run is one of the three that lose a profit. *)
Theorem live_pnl_exact l k snap :
  calm l new_live -> get_pair_pnl k (live_run peer_mark l new_live) = Some snap -> ps_all_legs_marked snap = true ->
  exists legs, lv_legs (live_run peer_mark l new_live) !! k = Some legs
    /\ all_marked k legs (live_run peer_mark l new_live) = true
    /\ ps_pnl snap == pair_value k legs (live_run peer_mark l new_live).
Proof.
  intros C. pose proof (live_run_ok l new_live C new_ok) as H. generalize dependent (live_run peer_mark l new_live).
  intros s [L V P R O] G M. unfold get_pair_pnl in G. destruct (lv_legs s !! k) as [[|x legs]|] eqn:Lg; try done.
  exists (x :: legs). split; [done|]. fold (shown k s) in G.
  destruct (shown k s) as [p|] eqn:S; [|by injection G as <-].
  destruct (lv_updated_at s !! k) as [t|] eqn:U; [|by injection G as <-]. injection G as <-. simpl in M.
  split; [exact M|]. destruct (V k t U) as (lg & Lg' & _ & _ & [X|(v & S' & E)]); [by apply elem_of_nil in X|].
  rewrite Lg in Lg'. injection Lg' as <-. rewrite S in S'. by injection S' as ->.
Qed.
(** The writes of one trade never overlap, in any run without these steps. *)
Theorem one_write_per_trade l : calm l new_live -> NoDup (map fst (lv_running (live_run peer_mark l new_live))).
Proof. intros C. apply (lo_once _ _ (live_run_ok l new_live C new_ok)). Qed.
End LiveFacts.

(** ** Examples *)
Definition pnl_key : TradeKey := (7%Z, "T1"%string).
Definition pnl_contract (symbol : string) : ContractKey := ("STK"%string, symbol, "SMART"%string, "USD"%string, 0%Z).
Definition pnl_leg (symbol : string) (side : OrderSide) (n : Z) (price : Q) : OrderLeg := {|
  leg_symbol := symbol; leg_side := side; leg_quantity := NDec (inject_Z n); leg_price := price; leg_contract_month := None;
  leg_con_id := None; leg_notional := None; leg_instrument_type := None; leg_weight := None; leg_leg_index := None;
  leg_metadata := None; leg_exchange := None; leg_currency := None; leg_resolved := None |}.
Definition pnl_watch : LiveEvent :=
  Watch true (Some 7%Z) "T1:UNWIND:1"
    [(pnl_leg "AA" BUY 10 100, RequestNow (pnl_contract "AA") 0 0 false);
     (pnl_leg "BB" SELL 5 50, RequestNow (pnl_contract "BB") 0 0 false)].
(** Both legs are marked, the profit 10 * 1 - 5 * (-2) is written, and the
    next tick is shown at once. *)
Definition pnl_day : list LiveEvent :=
  [pnl_watch; TickPrice 1 50000 4 101; TickPrice 1 50001 68 48; Schedule 1 pnl_key; Persisted 2 0 true;
   Schedule 2 pnl_key; TickPrice 5 50000 4 102].
Definition no_peer (m : gmap TickListener Q) (symbol : string) : option Q := None.
Lemma pnl_day_calm : calm no_peer pnl_day new_live.
Proof.
  unfold pnl_day, calm, calm_step. split_and!; try exact I; intros N; exfalso; apply N; vm_compute; reflexivity.
Qed.
Lemma live_pnl_exact_witness :
  exists snap legs, get_pair_pnl pnl_key (live_run no_peer pnl_day new_live) = Some snap /\ ps_all_legs_marked snap = true
    /\ ps_pnl snap == 30
    /\ lv_legs (live_run no_peer pnl_day new_live) !! pnl_key = Some legs
    /\ ps_pnl snap == pair_value pnl_key legs (live_run no_peer pnl_day new_live).
Proof.
  destruct (get_pair_pnl pnl_key (live_run no_peer pnl_day new_live)) as [snap|] eqn:G; [|by vm_compute in G].
  assert (M : ps_all_legs_marked snap = true) by (vm_compute in G; injection G as <-; reflexivity).
  destruct (live_pnl_exact no_peer pnl_day pnl_key snap pnl_day_calm G M) as (legs & L & _ & E).
  exists snap, legs. split; [reflexivity|]. split; [exact M|]. split; [|split; [exact L|exact E]].
  vm_compute in G. injection G as <-. reflexivity.
Defined.
(** The profit goes from 20 to 30 and back to 20.  Its return is dropped since
    20 is what was written last, while 30 is still being written; then 30 is
    what is stored and shown, with all legs marked, until the next tick. *)
Definition pnl_returns : list LiveEvent :=
  pnl_day ++ [Schedule 5 pnl_key; TickPrice 5 50000 4 101; Schedule 5 pnl_key; Persisted 6 0 true; Schedule 6 pnl_key].
Example stale_profit_shown :
  let s := live_run no_peer pnl_returns new_live in
  match get_pair_pnl pnl_key s, lv_legs s !! pnl_key with
  | Some snap, Some legs =>
      ps_all_legs_marked snap = true /\ Qred (ps_pnl snap) = 30 /\ Qred (pair_value pnl_key legs s) = 20
      /\ lv_pending s !! pnl_key = None /\ lv_running s = []
  | _, _ => False
  end.
Proof. vm_compute. by split_and!. Qed.
(** A write that fails is begun again at once, each time. *)
Example failed_write_is_repeated :
  let s := live_run no_peer (take 4 pnl_day) new_live in
  let s' := live_run no_peer [Persisted 2 0 false; Schedule 2 pnl_key] s in
  lv_running s' = lv_running s /\ length (lv_running s') = 1%nat /\ lv_last_persisted s' = ∅.
Proof. by vm_compute. Qed.
(** The contract of a leg is found after the trade was closed: its ticks are
    requested, and nothing will cancel them. *)
Example late_subscription :
  let s := live_run no_peer
    [Watch true (Some 7%Z) "T1" [(pnl_leg "AA" BUY 10 100, QualifyFirst)]; Unwatch pnl_key;
     Qualified pnl_key "AA" (RequestNow (pnl_contract "AA") 0 0 false); Unwatch (8%Z, "T2"%string)] new_live in
  lv_legs s = ∅ /\ lv_by_req s !! 50000%Z = Some (pnl_key, "AA"%string) /\ lv_contract_reqs s !! pnl_contract "AA" = Some 50000%Z.
Proof. by vm_compute. Qed.
