(* ===== verification/Settings.v ===== *)
(** * The configuration of accounts and strategies:
    [accounts/config_service.py] over [db/models/account.py],
    [strategy.py], [execution_settings.py] and [margin_settings.py]

    What operators set, and the rules it is held to.  Each operation is one
    transaction: one that is refused, or breaks a constraint of a table,
    changes nothing.  What a table stores is rounded to its columns. *)

From S2P Require Import Prelude Rounding PyText PyTime Identifiers RmsModels Accounts TradeBook RiskExit Oms Positions ManualLedger ManualLedgerFacts.

#[local] Open Scope Q_scope.
#[local] Open Scope py_scope.
#[local] Set Warnings "-clear-no-such-hyp".

Definition config_error (code : string) : exn := OtherError ("AllocationConfigError: " ++ code).
Definition constraint_error (name : string) : exn := OtherError ("IntegrityError: " ++ name).
Definition refuse_if (b : bool) (e : exn) : result unit := if b then Raise e else Ok tt.
Definition one_or_none {A} (l : list A) : result (option A) :=
  match l with [] => Ok None | [x] => Ok (Some x) | _ => Raise (OtherError "MultipleResultsFound") end.

(** ** Tables *)
Record AccountConfig : Type := {
  ac_name : string; ac_ibkr_account : string; ac_total_margin : Q; ac_enabled : bool;
  ac_default_symbol_limit : option Q; ac_daily_target : option Q; ac_daily_stop : option Q;
  ac_daily_target_unit : string; ac_daily_stop_unit : string; ac_account_risk_enabled : bool;
  ac_loss_threshold : option Q
}.
Record StrategyConfigRow : Type := { sr_strategy_id : string; sr_max_open_positions : Z; sr_enabled : bool }.
Record ExecutionSettings : Type := {
  es_enabled : bool; es_square_off_after_sec : Z; es_max_retries : Z; es_retry_interval_sec : Z; es_retry_window_sec : Z
}.
Record LossState : Type := { ls_is_below : bool; ls_last_threshold : option Q }.
(** [cd_traded]: the accounts of orders, executions and baskets; [cd_kill_ops]:
    those of kill-switch operations; [cd_referenced]: those other tables name. *)
Record ConfigDb : Type := {
  cd_accounts : gmap Z AccountConfig; cd_next_account : Z;
  cd_allocations : gmap Z AllocationRow; cd_next_allocation : Z;
  cd_strategies : list StrategyConfigRow;
  cd_limits : gmap (Z * string) Q;
  cd_execution : option ExecutionSettings;
  cd_margin : option MarginPolicy;
  cd_positions : PositionTable;
  cd_traded : gset Z; cd_kill_ops : gset Z; cd_referenced : gset Z;
  cd_loss : gmap Z LossState
}.
Definition set_accounts (m : gmap Z AccountConfig) (next : Z) (db : ConfigDb) : ConfigDb := {|
  cd_accounts := m; cd_next_account := next; cd_allocations := cd_allocations db;
  cd_next_allocation := cd_next_allocation db; cd_strategies := cd_strategies db; cd_limits := cd_limits db;
  cd_execution := cd_execution db; cd_margin := cd_margin db; cd_positions := cd_positions db;
  cd_traded := cd_traded db; cd_kill_ops := cd_kill_ops db; cd_referenced := cd_referenced db; cd_loss := cd_loss db |}.
Definition set_allocations (m : gmap Z AllocationRow) (next : Z) (positions : PositionTable) (db : ConfigDb) : ConfigDb := {|
  cd_accounts := cd_accounts db; cd_next_account := cd_next_account db; cd_allocations := m;
  cd_next_allocation := next; cd_strategies := cd_strategies db; cd_limits := cd_limits db;
  cd_execution := cd_execution db; cd_margin := cd_margin db; cd_positions := positions;
  cd_traded := cd_traded db; cd_kill_ops := cd_kill_ops db; cd_referenced := cd_referenced db; cd_loss := cd_loss db |}.
Definition set_limits (m : gmap (Z * string) Q) (kill_ops : gset Z) (db : ConfigDb) : ConfigDb := {|
  cd_accounts := cd_accounts db; cd_next_account := cd_next_account db; cd_allocations := cd_allocations db;
  cd_next_allocation := cd_next_allocation db; cd_strategies := cd_strategies db; cd_limits := m;
  cd_execution := cd_execution db; cd_margin := cd_margin db; cd_positions := cd_positions db;
  cd_traded := cd_traded db; cd_kill_ops := kill_ops; cd_referenced := cd_referenced db; cd_loss := cd_loss db |}.
Definition set_policies (e : option ExecutionSettings) (m : option MarginPolicy) (db : ConfigDb) : ConfigDb := {|
  cd_accounts := cd_accounts db; cd_next_account := cd_next_account db; cd_allocations := cd_allocations db;
  cd_next_allocation := cd_next_allocation db; cd_strategies := cd_strategies db; cd_limits := cd_limits db;
  cd_execution := e; cd_margin := m; cd_positions := cd_positions db; cd_traded := cd_traded db;
  cd_kill_ops := cd_kill_ops db; cd_referenced := cd_referenced db; cd_loss := cd_loss db |}.
Definition set_loss (m : gmap Z LossState) (db : ConfigDb) : ConfigDb := {|
  cd_accounts := cd_accounts db; cd_next_account := cd_next_account db; cd_allocations := cd_allocations db;
  cd_next_allocation := cd_next_allocation db; cd_strategies := cd_strategies db; cd_limits := cd_limits db;
  cd_execution := cd_execution db; cd_margin := cd_margin db; cd_positions := cd_positions db; cd_traded := cd_traded db;
  cd_kill_ops := cd_kill_ops db; cd_referenced := cd_referenced db; cd_loss := m |}.

(** A column of type [Numeric(9, 6)], an integer column, and the check
    constraints of the tables. *)
Definition fraction (q : Q) : result Q :=
  let! x := numeric 6 q in if Qabs x <? 1000 then Ok x else Raise (OtherError "numeric field overflow").
Definition integer (n : Z) : result Z :=
  if ((- 2 ^ 31 <=? n) && (n <? 2 ^ 31))%Z then Ok n else Raise (OtherError "integer out of range").
Definition valid_unit (u : string) : bool := existsb (String.eqb u) [EXIT_UNIT_ABSOLUTE; EXIT_UNIT_PERCENT].
Definition store_account (a : AccountConfig) : result AccountConfig :=
  let! margin := numeric 4 (ac_total_margin a) in
  let! limit := numeric_opt 4 (ac_default_symbol_limit a) in
  let! target := numeric_opt 4 (ac_daily_target a) in
  let! stop := numeric_opt 4 (ac_daily_stop a) in
  let! loss := numeric_opt 4 (ac_loss_threshold a) in
  if (0 <? margin) && valid_unit (ac_daily_target_unit a) && valid_unit (ac_daily_stop_unit a)
  then Ok {| ac_name := ac_name a; ac_ibkr_account := ac_ibkr_account a; ac_total_margin := margin;
             ac_enabled := ac_enabled a; ac_default_symbol_limit := limit; ac_daily_target := target;
             ac_daily_stop := stop; ac_daily_target_unit := ac_daily_target_unit a;
             ac_daily_stop_unit := ac_daily_stop_unit a; ac_account_risk_enabled := ac_account_risk_enabled a;
             ac_loss_threshold := loss |}
  else Raise (constraint_error "accounts").
Definition store_allocation (l : AllocationRow) : result AllocationRow :=
  let! pct := numeric 4 (al_alloc_pct l) in
  let! share := fraction (al_pair_max_allocation_pct l) in
  let! target := numeric 4 (al_target l) in
  let! stop := numeric 4 (al_stop l) in
  let! time := integer (al_time_limit l) in
  let! cap := integer (al_max_open_positions l) in
  if (0 <=? pct) && (pct <=? 1) && (0 <? share) && (share <=? 1) && valid_unit (al_target_unit l)
     && valid_unit (al_stop_unit l) && (0 <=? time)%Z
  then Ok {| al_account_id := al_account_id l; al_strategy_id := al_strategy_id l; al_enabled := al_enabled l;
             al_alloc_pct := pct; al_pair_max_allocation_pct := share; al_target := target; al_stop := stop;
             al_time_limit := time; al_max_open_positions := cap; al_target_unit := al_target_unit l;
             al_stop_unit := al_stop_unit l; al_exit_automation_enabled := al_exit_automation_enabled l |}
  else Raise (constraint_error "allocations").
Definition policy_of (e : ExecutionSettings) : ExecutionRetryPolicy := {|
  rp_enabled := es_enabled e; square_off_after_sec := inject_Z (es_square_off_after_sec e);
  max_retries := es_max_retries e; retry_interval_sec := inject_Z (es_retry_interval_sec e);
  retry_window_sec := inject_Z (es_retry_window_sec e) |}.
Definition store_execution (e : ExecutionSettings) : result ExecutionSettings :=
  let! _ := integer (es_square_off_after_sec e) in
  let! _ := integer (es_max_retries e) in
  let! _ := integer (es_retry_interval_sec e) in
  let! _ := integer (es_retry_window_sec e) in
  match validate_policy (policy_of e) with Ok _ => Ok e | Raise _ => Raise (constraint_error "execution_settings") end.
Definition margin_in_range (p : MarginPolicy) : bool :=
  existsb (String.eqb (gate_basis p)) ["available_funds"; "excess_liquidity"]%string
  && (0 <=? min_free_buffer p) && (0 <=? min_free_pct_of_netliq p) && (min_free_pct_of_netliq p <=? 1)
  && (0 <? comfort_ratio p) && (comfort_ratio p <=? 1) && (0 <? default_rate p) && (default_rate p <=? 1)
  && (1 <=? rate_safety_multiplier p) && (rate_safety_multiplier p <=? 2).
Definition store_margin (p : MarginPolicy) : result MarginPolicy :=
  let! buffer := numeric 4 (min_free_buffer p) in
  let! pct := fraction (min_free_pct_of_netliq p) in
  let! comfort := fraction (comfort_ratio p) in
  let! rate := fraction (default_rate p) in
  let! safety := fraction (rate_safety_multiplier p) in
  let stored := {| check_enabled := check_enabled p; gate_basis := gate_basis p; min_free_buffer := buffer;
    min_free_pct_of_netliq := pct; comfort_ratio := comfort; confirm_borderline := confirm_borderline p;
    enforce_look_ahead := enforce_look_ahead p; reject_on_stale_snapshot := reject_on_stale_snapshot p;
    default_rate := rate; rate_safety_multiplier := safety |} in
  if margin_in_range stored then Ok stored else Raise (constraint_error "margin_settings").

(** ** The rules *)
Definition validate_alloc_pct (q : Q) : result unit := refuse_if ((q <? 0) || (1 <? q)) (config_error "INVALID_ALLOC_PCT").
Definition validate_max_open_positions (n : Z) : result unit := refuse_if (n <? 0)%Z (config_error "INVALID_MAX_OPEN_POSITIONS").
Definition validate_pair_max_allocation_pct (q : Q) : result unit :=
  refuse_if ((q <=? 0) || (1 <? q)) (config_error "PAIR_MAX_ALLOCATION_PCT_INVALID").
Definition validate_exit_unit (u : string) : result string :=
  let normalized := norm_text u in
  let! _ := refuse_if (negb (valid_unit normalized)) (config_error "INVALID_EXIT_UNIT") in Ok normalized.
Definition validate_exit_threshold (value : Q) (u : string) : result unit :=
  refuse_if (String.eqb u EXIT_UNIT_PERCENT && (1 <? Qabs value)) (config_error "INVALID_EXIT_THRESHOLD").
Definition validate_time_limit (n : Z) : result unit := refuse_if (n <? 0)%Z (config_error "INVALID_TIME_LIMIT").
Definition validate_loss_threshold (q : option Q) : result unit :=
  refuse_if match q with Some q => 0 <=? q | None => false end (config_error "INVALID_LOSS_THRESHOLD").
Definition validate_account_margin (a : AccountConfig) : result unit :=
  refuse_if (ac_total_margin a <=? 0) (config_error "INVALID_TOTAL_MARGIN").
Definition qsum (l : list Q) : Q := fold_right Qplus 0 l.
Definition counts_for (account : Z) (exclude : option Z) (x : Z * AllocationRow) : bool :=
  (al_account_id (snd x) =? account)%Z && al_enabled (snd x) && negb (bool_decide (exclude = Some (fst x))).
Definition enabled_alloc_pct_sum (account : Z) (exclude : option Z) (db : ConfigDb) : Q :=
  qsum (map (fun x => al_alloc_pct (snd x)) (List.filter (counts_for account exclude) (map_to_list (cd_allocations db)))).
Definition validate_enabled_sum (account : Z) (pct : Q) (enabled : bool) (exclude : option Z) (db : ConfigDb) : result unit :=
  refuse_if (enabled && (1 <? dadd (enabled_alloc_pct_sum account exclude db) pct)) (config_error "ALLOC_PCT_SUM_EXCEEDED").

Section Service.
Variable min_order_notional : Q.

Definition check_pair_budget (a : AccountConfig) (pct share : Q) : result unit :=
  let pair_budget := dmul (dmul (ac_total_margin a) pct) share in
  refuse_if (ddiv pair_budget 2 <? min_order_notional) (config_error "PAIR_BUDGET_TOO_SMALL").

(** ** Accounts *)
Definition has_ibkr (ibkr : string) (exclude : option Z) (db : ConfigDb) : list Z :=
  map fst (List.filter (fun x => String.eqb (str_upper (ac_ibkr_account (snd x))) ibkr
                                 && negb (bool_decide (exclude = Some (fst x)))) (map_to_list (cd_accounts db))).
Definition create_account (name ibkr : string) (margin : Q) (enabled : bool) (limit : option Q) (db : ConfigDb)
    : result ConfigDb :=
  let name := str_strip name in
  let ibkr := norm_text ibkr in
  let! _ := refuse_if (str_empty name) (config_error "INVALID_NAME") in
  let! _ := refuse_if (str_empty ibkr) (config_error "INVALID_IBKR_ACCOUNT") in
  let! _ := refuse_if (margin <=? 0) (config_error "INVALID_TOTAL_MARGIN") in
  let! _ := refuse_if match limit with Some q => q <=? 0 | None => false end (config_error "INVALID_DEFAULT_SYMBOL_LIMIT") in
  let! existing := one_or_none (has_ibkr ibkr None db) in
  let! _ := refuse_if (bool_decide (is_Some existing)) (config_error "DUPLICATE_IBKR_ACCOUNT") in
  let! a := store_account {| ac_name := name; ac_ibkr_account := ibkr; ac_total_margin := margin; ac_enabled := enabled;
    ac_default_symbol_limit := limit; ac_daily_target := None; ac_daily_stop := None;
    ac_daily_target_unit := EXIT_UNIT_ABSOLUTE; ac_daily_stop_unit := EXIT_UNIT_ABSOLUTE;
    ac_account_risk_enabled := false; ac_loss_threshold := None |} in
  Ok (set_accounts (<[cd_next_account db := a]> (cd_accounts db)) (cd_next_account db + 1)%Z db).
Definition has_trading_history (account : Z) (db : ConfigDb) : bool :=
  bool_decide (account ∈ cd_traded db)
  || existsb (fun p => (p_account_id p =? account)%Z) (rows (cd_positions db)).
Definition check_account_deletable (account : Z) (db : ConfigDb) : bool :=
  bool_decide (is_Some (cd_accounts db !! account)) && negb (has_trading_history account db).
(** What names the account keeps it from being deleted; its allocations,
    limits and kill-switch operations go first. *)
Definition delete_account (account : Z) (db : ConfigDb) : result ConfigDb :=
  let! _ := refuse_if (negb (check_account_deletable account db)) (config_error "account cannot be deleted") in
  let! _ := refuse_if (bool_decide (account ∈ cd_referenced db) || bool_decide (is_Some (cd_loss db !! account)))
              (constraint_error "accounts_fkey") in
  let db := set_allocations (filter (fun x => al_account_id (snd x) <> account) (cd_allocations db))
              (cd_next_allocation db) (cd_positions db) db in
  let db := set_limits (filter (fun x => fst (fst x) <> account) (cd_limits db)) (cd_kill_ops db ∖ {[account]}) db in
  Ok (set_accounts (delete account (cd_accounts db)) (cd_next_account db) db).

(** A patch: the fields that are given; [None] for a loss threshold is a value. *)
Record AccountPatch : Type := {
  pa_name : option string; pa_ibkr_account : option string; pa_total_margin : option Q; pa_enabled : option bool;
  pa_default_symbol_limit : option Q; pa_daily_target : option Q; pa_daily_stop : option Q;
  pa_daily_target_unit : option string; pa_daily_stop_unit : option string; pa_account_risk_enabled : option bool;
  pa_loss_threshold : option (option Q)
}.
Definition patch_name (name : option string) (a : AccountConfig) : result AccountConfig :=
  match name with
  | None => Ok a
  | Some name =>
      let! _ := refuse_if (str_empty (str_strip name)) (config_error "INVALID_NAME") in
      Ok {| ac_name := str_strip name; ac_ibkr_account := ac_ibkr_account a; ac_total_margin := ac_total_margin a;
            ac_enabled := ac_enabled a; ac_default_symbol_limit := ac_default_symbol_limit a;
            ac_daily_target := ac_daily_target a; ac_daily_stop := ac_daily_stop a;
            ac_daily_target_unit := ac_daily_target_unit a; ac_daily_stop_unit := ac_daily_stop_unit a;
            ac_account_risk_enabled := ac_account_risk_enabled a; ac_loss_threshold := ac_loss_threshold a |}
  end.
Definition patch_ibkr (id : Z) (ibkr : option string) (db : ConfigDb) (a : AccountConfig) : result AccountConfig :=
  match ibkr with
  | None => Ok a
  | Some ibkr =>
      let ibkr := norm_text ibkr in
      let! _ := refuse_if (str_empty ibkr) (config_error "INVALID_IBKR_ACCOUNT") in
      if String.eqb ibkr (str_upper (ac_ibkr_account a)) then Ok a
      else
        let! _ := refuse_if (has_trading_history id db) (config_error "IBKR account identifier cannot be changed") in
        let! existing := one_or_none (has_ibkr ibkr (Some id) db) in
        let! _ := refuse_if (bool_decide (is_Some existing)) (config_error "DUPLICATE_IBKR_ACCOUNT") in
        Ok {| ac_name := ac_name a; ac_ibkr_account := ibkr; ac_total_margin := ac_total_margin a;
              ac_enabled := ac_enabled a; ac_default_symbol_limit := ac_default_symbol_limit a;
              ac_daily_target := ac_daily_target a; ac_daily_stop := ac_daily_stop a;
              ac_daily_target_unit := ac_daily_target_unit a; ac_daily_stop_unit := ac_daily_stop_unit a;
              ac_account_risk_enabled := ac_account_risk_enabled a; ac_loss_threshold := ac_loss_threshold a |}
  end.
(** A threshold that is given is judged in its unit; one that is kept is not. *)
Definition patch_threshold (value old : option Q) (u : string) : result (option Q) :=
  match value with
  | None => Ok old
  | Some v => let! _ := validate_exit_threshold v u in Ok (Some v)
  end.
Definition patch_unit (u : option string) (old : string) : result string :=
  match u with None => Ok old | Some u => validate_exit_unit u end.
Definition update_account (id : Z) (p : AccountPatch) (db : ConfigDb) : result ConfigDb :=
  match cd_accounts db !! id with
  | None => Raise (OtherError "404")
  | Some a =>
      let! a := patch_name (pa_name p) a in
      let! a := patch_ibkr id (pa_ibkr_account p) db a in
      let margin := default (ac_total_margin a) (pa_total_margin p) in
      let! _ := refuse_if (bool_decide (is_Some (pa_total_margin p)) && (margin <=? 0)) (config_error "INVALID_TOTAL_MARGIN") in
      let! _ := refuse_if match pa_default_symbol_limit p with Some q => q <=? 0 | None => false end
                  (config_error "INVALID_DEFAULT_SYMBOL_LIMIT") in
      let! target_unit := patch_unit (pa_daily_target_unit p) (ac_daily_target_unit a) in
      let! stop_unit := patch_unit (pa_daily_stop_unit p) (ac_daily_stop_unit a) in
      let! target := patch_threshold (pa_daily_target p) (ac_daily_target a) target_unit in
      let! stop := patch_threshold (pa_daily_stop p) (ac_daily_stop a) stop_unit in
      let loss := default (ac_loss_threshold a) (pa_loss_threshold p) in
      let! _ := match pa_loss_threshold p with Some q => validate_loss_threshold q | None => Ok tt end in
      let! a := store_account {| ac_name := ac_name a; ac_ibkr_account := ac_ibkr_account a; ac_total_margin := margin;
        ac_enabled := default (ac_enabled a) (pa_enabled p);
        ac_default_symbol_limit := match pa_default_symbol_limit p with Some q => Some q | None => ac_default_symbol_limit a end;
        ac_daily_target := target; ac_daily_stop := stop; ac_daily_target_unit := target_unit;
        ac_daily_stop_unit := stop_unit;
        ac_account_risk_enabled := default (ac_account_risk_enabled a) (pa_account_risk_enabled p);
        ac_loss_threshold := loss |} in
      Ok (set_accounts (<[id := a]> (cd_accounts db)) (cd_next_account db) db)
  end.

(** ** Allocations *)
Record AllocationArgs : Type := {
  aa_strategy_id : string; aa_alloc_pct : Q; aa_target : Q; aa_stop : Q; aa_time_limit : Z; aa_enabled : bool;
  aa_max_open_positions : option Z; aa_pair_max_allocation_pct : option Q; aa_target_unit : string;
  aa_stop_unit : string; aa_exit_automation_enabled : bool
}.
Definition find_strategy (id : string) (db : ConfigDb) : option StrategyConfigRow :=
  List.find (fun s => String.eqb (sr_strategy_id s) id) (cd_strategies db).
Definition subscriptions (account : Z) (strategy : string) (db : ConfigDb) : list (Z * AllocationRow) :=
  List.filter (fun x => (al_account_id (snd x) =? account)%Z && String.eqb (al_strategy_id (snd x)) strategy)
    (map_to_list (cd_allocations db)).
Definition create_allocation (account : Z) (x : AllocationArgs) (db : ConfigDb) : result ConfigDb :=
  match cd_accounts db !! account with
  | None => Raise (OtherError "404")
  | Some a =>
      let! _ := validate_account_margin a in
      let! _ := validate_alloc_pct (aa_alloc_pct x) in
      match find_strategy (aa_strategy_id x) db with
      | None => Raise (config_error "UNKNOWN_STRATEGY")
      | Some s =>
          let! existing := one_or_none (subscriptions account (aa_strategy_id x) db) in
          let! _ := refuse_if (bool_decide (is_Some existing)) (config_error "DUPLICATE_ALLOCATION") in
          let cap := default (sr_max_open_positions s) (aa_max_open_positions x) in
          let! _ := validate_max_open_positions cap in
          let share := default (1 # 10) (aa_pair_max_allocation_pct x) in
          let! _ := validate_pair_max_allocation_pct share in
          let! _ := check_pair_budget a (aa_alloc_pct x) share in
          let! _ := validate_enabled_sum account (aa_alloc_pct x) (aa_enabled x) None db in
          let! target_unit := validate_exit_unit (aa_target_unit x) in
          let! stop_unit := validate_exit_unit (aa_stop_unit x) in
          let! _ := validate_exit_threshold (aa_target x) target_unit in
          let! _ := validate_exit_threshold (aa_stop x) stop_unit in
          let! _ := validate_time_limit (aa_time_limit x) in
          let! l := store_allocation {| al_account_id := account; al_strategy_id := aa_strategy_id x;
            al_enabled := aa_enabled x; al_alloc_pct := aa_alloc_pct x; al_pair_max_allocation_pct := share;
            al_target := aa_target x; al_stop := aa_stop x; al_time_limit := aa_time_limit x;
            al_max_open_positions := cap; al_target_unit := target_unit; al_stop_unit := stop_unit;
            al_exit_automation_enabled := aa_exit_automation_enabled x |} in
          Ok (set_allocations (<[cd_next_allocation db := l]> (cd_allocations db)) (cd_next_allocation db + 1)%Z
                (cd_positions db) db)
      end
  end.
Record AllocationPatch : Type := {
  pl_alloc_pct : option Q; pl_enabled : option bool; pl_max_open_positions : option Z;
  pl_pair_max_allocation_pct : option Q; pl_target : option Q; pl_stop : option Q; pl_time_limit : option Z;
  pl_target_unit : option string; pl_stop_unit : option string; pl_exit_automation_enabled : option bool
}.
Definition when {A} (o : option A) (f : A -> result unit) : result unit := match o with Some x => f x | None => Ok tt end.
Definition set_automation (account : Z) (strategy : string) (b : bool) (m : PositionTable) : PositionTable :=
  (fun p => if (p_account_id p =? account)%Z && String.eqb (p_strategy_id p) strategy && in_state RISK_STATE_OPEN p
            then with_exits (p_target p) (p_stop p) (p_target_unit p) (p_stop_unit p) b p else p) <$> m.
Definition update_allocation (id : Z) (p : AllocationPatch) (db : ConfigDb) : result ConfigDb :=
  match cd_allocations db !! id with
  | None => Raise (OtherError "404")
  | Some l =>
      let pct := default (al_alloc_pct l) (pl_alloc_pct p) in
      let enabled := default (al_enabled l) (pl_enabled p) in
      let share := default (al_pair_max_allocation_pct l) (pl_pair_max_allocation_pct p) in
      let! _ := when (pl_alloc_pct p) validate_alloc_pct in
      let! _ := when (pl_max_open_positions p) validate_max_open_positions in
      let! _ := when (pl_pair_max_allocation_pct p) validate_pair_max_allocation_pct in
      let! target_unit := patch_unit (pl_target_unit p) (al_target_unit l) in
      let! stop_unit := patch_unit (pl_stop_unit p) (al_stop_unit l) in
      let! _ := when (pl_target p) (fun v => validate_exit_threshold v target_unit) in
      let! _ := when (pl_stop p) (fun v => validate_exit_threshold v stop_unit) in
      let! _ := when (pl_time_limit p) validate_time_limit in
      let! stored := store_allocation {| al_account_id := al_account_id l; al_strategy_id := al_strategy_id l;
        al_enabled := enabled; al_alloc_pct := pct; al_pair_max_allocation_pct := share;
        al_target := default (al_target l) (pl_target p); al_stop := default (al_stop l) (pl_stop p);
        al_time_limit := default (al_time_limit l) (pl_time_limit p);
        al_max_open_positions := default (al_max_open_positions l) (pl_max_open_positions p);
        al_target_unit := target_unit; al_stop_unit := stop_unit;
        al_exit_automation_enabled := default (al_exit_automation_enabled l) (pl_exit_automation_enabled p) |} in
      let positions := match pl_exit_automation_enabled p with
                       | Some b => set_automation (al_account_id l) (al_strategy_id l) b (cd_positions db)
                       | None => cd_positions db
                       end in
      let! _ := match cd_accounts db !! al_account_id l with
                | Some a => check_pair_budget a pct share
                | None => Ok tt
                end in
      let! _ := validate_enabled_sum (al_account_id l) pct enabled (Some id) db in
      Ok (set_allocations (<[id := stored]> (cd_allocations db)) (cd_next_allocation db) positions db)
  end.
End Service.

(** ** Limits and policies *)
Definition upsert_symbol_limit (account : Z) (symbol : string) (money : Q) (db : ConfigDb) : result ConfigDb :=
  let! _ := refuse_if (negb (bool_decide (is_Some (cd_accounts db !! account)))) (config_error "UNKNOWN_ACCOUNT") in
  let! _ := refuse_if (money <=? 0) (config_error "INVALID_MONEY_LIMIT") in
  let! stored := numeric 4 money in
  Ok (set_limits (<[(account, norm_text symbol) := stored]> (cd_limits db)) (cd_kill_ops db) db).
Definition delete_symbol_limit (account : Z) (symbol : string) (db : ConfigDb) : result ConfigDb :=
  Ok (set_limits (delete (account, norm_text symbol) (cd_limits db)) (cd_kill_ops db) db).
Definition default_execution : ExecutionSettings := {|
  es_enabled := true; es_square_off_after_sec := 30; es_max_retries := 3; es_retry_interval_sec := 5;
  es_retry_window_sec := 30 |}.
Record ExecutionPatch : Type := {
  pe_enabled : option bool; pe_square_off_after_sec : option Z; pe_max_retries : option Z;
  pe_retry_interval_sec : option Z; pe_retry_window_sec : option Z
}.
Definition update_execution_settings (p : ExecutionPatch) (db : ConfigDb) : result ConfigDb :=
  let row := default default_execution (cd_execution db) in
  let row := {|
    es_enabled := default (es_enabled row) (pe_enabled p);
    es_square_off_after_sec := default (es_square_off_after_sec row) (pe_square_off_after_sec p);
    es_max_retries := default (es_max_retries row) (pe_max_retries p);
    es_retry_interval_sec := default (es_retry_interval_sec row) (pe_retry_interval_sec p);
    es_retry_window_sec := default (es_retry_window_sec row) (pe_retry_window_sec p) |} in
  match validate_policy (policy_of row) with
  | Raise (ValueError m) => Raise (config_error m)
  | Raise e => Raise e
  | Ok _ => let! row := store_execution row in Ok (set_policies (Some row) (cd_margin db) db)
  end.
Definition default_margin : MarginPolicy := {|
  check_enabled := true; gate_basis := "available_funds"; min_free_buffer := 0; min_free_pct_of_netliq := 5 # 100;
  comfort_ratio := 80 # 100; confirm_borderline := true; enforce_look_ahead := true; reject_on_stale_snapshot := true;
  default_rate := 30 # 100; rate_safety_multiplier := 110 # 100 |}.
Record MarginPatch : Type := {
  pm_check_enabled : option bool; pm_gate_basis : option string; pm_min_free_buffer : option Q;
  pm_min_free_pct_of_netliq : option Q; pm_comfort_ratio : option Q; pm_confirm_borderline : option bool;
  pm_enforce_look_ahead : option bool; pm_reject_on_stale_snapshot : option bool; pm_default_rate : option Q;
  pm_rate_safety_multiplier : option Q
}.
Definition validate_margin_settings (p : MarginPolicy) : result unit :=
  refuse_if (negb (margin_in_range p)) (config_error "MARGIN").
Definition update_margin_settings (p : MarginPatch) (db : ConfigDb) : result ConfigDb :=
  let row := default default_margin (cd_margin db) in
  let row := {|
    check_enabled := default (check_enabled row) (pm_check_enabled p);
    gate_basis := default (gate_basis row) (pm_gate_basis p);
    min_free_buffer := default (min_free_buffer row) (pm_min_free_buffer p);
    min_free_pct_of_netliq := default (min_free_pct_of_netliq row) (pm_min_free_pct_of_netliq p);
    comfort_ratio := default (comfort_ratio row) (pm_comfort_ratio p);
    confirm_borderline := default (confirm_borderline row) (pm_confirm_borderline p);
    enforce_look_ahead := default (enforce_look_ahead row) (pm_enforce_look_ahead p);
    reject_on_stale_snapshot := default (reject_on_stale_snapshot row) (pm_reject_on_stale_snapshot p);
    default_rate := default (default_rate row) (pm_default_rate p);
    rate_safety_multiplier := default (rate_safety_multiplier row) (pm_rate_safety_multiplier p) |} in
  let! _ := validate_margin_settings row in
  let! row := store_margin row in
  Ok (set_policies (cd_execution db) (Some row) db).

(** ** Runs of transactions; between them orders and positions come and go. *)
Inductive SettingsOp : Type :=
  | CreateAccount (name ibkr : string) (margin : Q) (enabled : bool) (limit : option Q)
  | UpdateAccount (id : Z) (p : AccountPatch)
  | DeleteAccount (id : Z)
  | CreateAllocation (account : Z) (x : AllocationArgs)
  | UpdateAllocation (id : Z) (p : AllocationPatch)
  | PutSymbolLimit (account : Z) (symbol : string) (money : Q)
  | DeleteSymbolLimit (account : Z) (symbol : string)
  | PatchExecution (p : ExecutionPatch)
  | PatchMargin (p : MarginPatch)
  | Traded (positions : PositionTable) (traded kill_ops referenced : gset Z) (loss : gmap Z LossState).
Definition apply_settings (notional : Q) (op : SettingsOp) (db : ConfigDb) : result ConfigDb :=
  match op with
  | CreateAccount n i m e l => create_account n i m e l db
  | UpdateAccount id p => update_account id p db
  | DeleteAccount id => delete_account id db
  | CreateAllocation a x => create_allocation notional a x db
  | UpdateAllocation id p => update_allocation notional id p db
  | PutSymbolLimit a s m => upsert_symbol_limit a s m db
  | DeleteSymbolLimit a s => delete_symbol_limit a s db
  | PatchExecution p => update_execution_settings p db
  | PatchMargin p => update_margin_settings p db
  | Traded positions traded kill_ops referenced loss => Ok {|
      cd_accounts := cd_accounts db; cd_next_account := cd_next_account db; cd_allocations := cd_allocations db;
      cd_next_allocation := cd_next_allocation db; cd_strategies := cd_strategies db; cd_limits := cd_limits db;
      cd_execution := cd_execution db; cd_margin := cd_margin db; cd_positions := positions; cd_traded := traded;
      cd_kill_ops := kill_ops; cd_referenced := referenced; cd_loss := loss |}
  end.
Definition settings_step (notional : Q) (db : ConfigDb) (op : SettingsOp) : ConfigDb :=
  match apply_settings notional op db with Ok db' => db' | Raise _ => db end.
Definition settings_run (notional : Q) (ops : list SettingsOp) (db : ConfigDb) : ConfigDb :=
  fold_left (settings_step notional) ops db.
Definition new_settings (strategies : list StrategyConfigRow) : ConfigDb := {|
  cd_accounts := ∅; cd_next_account := 1; cd_allocations := ∅; cd_next_allocation := 1; cd_strategies := strategies;
  cd_limits := ∅; cd_execution := None; cd_margin := None; cd_positions := ∅; cd_traded := ∅; cd_kill_ops := ∅;
  cd_referenced := ∅; cd_loss := ∅ |}.
(** What the router reads. *)
Definition routing_rows (db : ConfigDb) : Database := {|
  accounts := map (fun x => {| ar_id := fst x; ar_ibkr_account := ac_ibkr_account (snd x);
                               ar_enabled := ac_enabled (snd x); ar_total_margin := ac_total_margin (snd x) |})
                (map_to_list (cd_accounts db));
  allocations := map snd (map_to_list (cd_allocations db));
  strategies := map (fun s => {| st_strategy_id := sr_strategy_id s; st_enabled := sr_enabled s |}) (cd_strategies db) |}.


Lemma refuse_ok (b : bool) e x : refuse_if b e = Ok x -> b = false.
Proof. by destruct b. Qed.
Ltac passes := repeat match goal with
  | H : rbind _ _ = Ok _ |- _ => apply rbind_ok in H as (? & ? & H)
  | H : refuse_if _ _ = Ok _ |- _ => apply refuse_ok in H
  | H : Ok _ = Ok _ |- _ => injection H as H
  end.
Lemma patch_unit_ok u old x : valid_unit old = true -> patch_unit u old = Ok x -> valid_unit x = true.
Proof.
  destruct u as [u|]; simpl; [|by intros V [= <-]]. unfold validate_exit_unit. intros _ H. passes. subst x.
  match goal with X : negb _ = false |- _ => by apply negb_false_iff in X end.
Qed.
Lemma find_strategy_set id db accounts next : find_strategy id (set_accounts accounts next db) = find_strategy id db.
Proof. done. Qed.



(** ** Examples *)
Definition ex_strategies : list StrategyConfigRow :=
  [{| sr_strategy_id := "model_blue"; sr_max_open_positions := 5; sr_enabled := true |}].
Definition ex_allocation (pct : Q) : AllocationArgs := {|
  aa_strategy_id := "model_blue"; aa_alloc_pct := pct; aa_target := 500; aa_stop := -(300); aa_time_limit := 0;
  aa_enabled := true; aa_max_open_positions := None; aa_pair_max_allocation_pct := None;
  aa_target_unit := " absolute"; aa_stop_unit := "ABSOLUTE"; aa_exit_automation_enabled := false |}.
Definition no_patch : AllocationPatch := {|
  pl_alloc_pct := None; pl_enabled := None; pl_max_open_positions := None; pl_pair_max_allocation_pct := None;
  pl_target := None; pl_stop := None; pl_time_limit := None; pl_target_unit := None; pl_stop_unit := None;
  pl_exit_automation_enabled := None |}.
Definition disable : AllocationPatch := {|
  pl_alloc_pct := None; pl_enabled := Some false; pl_max_open_positions := None; pl_pair_max_allocation_pct := None;
  pl_target := None; pl_stop := None; pl_time_limit := None; pl_target_unit := None; pl_stop_unit := None;
  pl_exit_automation_enabled := None |}.
Definition to_percent : AllocationPatch := {|
  pl_alloc_pct := None; pl_enabled := None; pl_max_open_positions := None; pl_pair_max_allocation_pct := None;
  pl_target := None; pl_stop := None; pl_time_limit := None; pl_target_unit := Some "percent"%string; pl_stop_unit := None;
  pl_exit_automation_enabled := None |}.
Definition lower_margin (q : Q) : AccountPatch := {|
  pa_name := None; pa_ibkr_account := None; pa_total_margin := Some q; pa_enabled := None;
  pa_default_symbol_limit := None; pa_daily_target := None; pa_daily_stop := None; pa_daily_target_unit := None;
  pa_daily_stop_unit := None; pa_account_risk_enabled := None; pa_loss_threshold := None |}.
Definition ex_settings : list SettingsOp :=
  [CreateAccount " Paper " "du7 " 100000 true (Some (1 # 100000)); CreateAllocation 1 (ex_allocation (1 # 2))].
Definition ex_config : ConfigDb := settings_run 100 ex_settings (new_settings ex_strategies).
Definition refusal (r : result ConfigDb) : option exn := match r with Ok _ => None | Raise e => Some e end.
(** A second allocation of the strategy, and shares above one, are refused. *)
Example allocations_refused :
  refusal (create_allocation 100 1 (ex_allocation (1 # 2)) ex_config) = Some (config_error "DUPLICATE_ALLOCATION")
  /\ refusal (create_allocation 100 1 (ex_allocation (11 # 10)) ex_config) = Some (config_error "INVALID_ALLOC_PCT").
Proof. by vm_compute. Qed.
(** Once the capital is lowered so that a pair's budget is too small, the
    allocation can no longer be switched off: every patch checks the budget. *)
Example disable_refused :
  let db := settings_run 100 [UpdateAccount 1 (lower_margin 1000)] ex_config in
  option_map ac_total_margin (cd_accounts db !! 1%Z) = Some 1000
  /\ refusal (update_allocation 100 1 disable db) = Some (config_error "PAIR_BUDGET_TOO_SMALL").
Proof. by vm_compute. Qed.
(** A unit is changed without its value: 500 dollars become 50,000 percent,
    which the rules refuse when it is given. *)
Example unit_changed_alone :
  match cd_allocations (settings_step 100 ex_config (UpdateAllocation 1 to_percent)) !! 1%Z with
  | Some l => al_target_unit l = "PERCENT"%string /\ al_target l = 500
      /\ validate_exit_threshold (al_target l) (al_target_unit l) = Raise (config_error "INVALID_EXIT_THRESHOLD")
  | None => False
  end.
Proof. by vm_compute. Qed.
(** A limit that is positive, but not in the column: no order passes it. *)
Example limit_rounds_to_zero :
  match cd_accounts ex_config !! 1%Z with Some a => ac_default_symbol_limit a = Some 0 | None => False end.
Proof. by vm_compute. Qed.
