(* ===== verification/LossThreshold.v ===== *)
(** * The loss monitor: [services/loss_threshold_monitor.py]

    Every half minute the realised profit of each enabled account is compared
    with its loss threshold; the first time it is at or below, an event tells.
    One evaluation is one transaction.  The text of an instant and of a decimal
    is given; the Telegram message is left out. *)

From S2P Require Import Prelude Rounding PyText PyTime Identifiers RmsModels Accounts TradeBook Positions OrderLedger Settings.

#[local] Open Scope Q_scope.
#[local] Open Scope py_scope.

Record LossWorld : Type := { lw_db : ConfigDb; lw_events : list EventRow }.
Section Monitor.
Variables (iso : Z -> string) (str_dec : Q -> string).

Definition sum_realised (account : Z) (db : ConfigDb) : Q :=
  qsum (map p_realised_pnl (List.filter (fun p => (p_account_id p =? account)%Z) (rows (cd_positions db)))).
Definition loss_detail (now account : Z) (a : AccountConfig) (realised threshold : Q) : json := JObj [
  ("account_id"%string, JInt account); ("ibkr_account"%string, JStr (ac_ibkr_account a));
  ("realized_pnl"%string, JStr (str_dec realised)); ("realized_pnl_str"%string, JStr (str_dec realised));
  ("loss_threshold"%string, JStr (str_dec threshold)); ("loss_threshold_str"%string, JStr (str_dec threshold));
  ("timestamp"%string, JStr (iso now))].
Definition loss_event (now account : Z) (threshold : Q) (detail : json) : EventRow := {|
  ev_process := "risk"; ev_kind := "LOSS_THRESHOLD_BREACHED"; ev_detail := detail; ev_signal_id := None;
  ev_order_id := None; ev_basket_id := None;
  ev_key := Some ("loss_breach:" ++ str_Z account ++ ":" ++ str_dec threshold ++ ":" ++ iso now)%string |}.
Definition put_loss (account : Z) (s : LossState) (w : LossWorld) : LossWorld := {|
  lw_db := set_loss (<[account := s]> (cd_loss (lw_db w))) (lw_db w); lw_events := lw_events w |}.
(** The row of an account that is gone cannot be written. *)
Definition evaluate_account (now account : Z) (w : LossWorld) : result (LossWorld * option json) :=
  let db := lw_db w in
  match cd_accounts db !! account with
  | None => Raise (constraint_error "account_loss_state_account_id_fkey")
  | Some a =>
      let state := default {| ls_is_below := false; ls_last_threshold := None |} (cd_loss db !! account) in
      match ac_loss_threshold a with
      | None =>
          Ok (put_loss account (if ls_is_below state then {| ls_is_below := false; ls_last_threshold := None |} else state) w, None)
      | Some threshold =>
          let realised := sum_realised account db in
          let breached := realised <=? threshold in
          if breached && negb (ls_is_below state) then
            let detail := loss_detail now account a realised threshold in
            let '(log, row) := append_event (loss_event now account threshold detail) (lw_events w) in
            let w := put_loss account {| ls_is_below := true; ls_last_threshold := Some threshold |} w in
            Ok ({| lw_db := lw_db w; lw_events := log |}, match row with Some _ => Some detail | None => None end)
          else if ls_is_below state
          then Ok (put_loss account {| ls_is_below := breached; ls_last_threshold := Some threshold |} w, None)
          else Ok (put_loss account state w, None)
      end
  end.
(** A pass over the accounts that are enabled; an exception ends it. *)
Fixpoint evaluate_accounts (now : Z) (l : list Z) (w : LossWorld) : LossWorld * result (list json) :=
  match l with
  | [] => (w, Ok [])
  | a :: l =>
      match evaluate_account now a w with
      | Raise e => (w, Raise e)
      | Ok (w, x) =>
          let '(w, r) := evaluate_accounts now l w in
          (w, let! details := r in Ok (match x with Some d => d :: details | None => details end))
      end
  end.
Definition evaluate_once (now : Z) (w : LossWorld) : LossWorld * result (list json) :=
  evaluate_accounts now (map fst (List.filter (fun x => ac_enabled (snd x)) (map_to_list (cd_accounts (lw_db w))))) w.

(** ** What it promises *)
(** What an evaluation meets: the account as it is configured and its
    positions. *)
Record Observation : Type := { ob_now : Z; ob_account : AccountConfig; ob_positions : PositionTable }.
Definition observed (account : Z) (o : Observation) (w : LossWorld) : LossWorld := {|
  lw_db := set_allocations (cd_allocations (lw_db w)) (cd_next_allocation (lw_db w)) (ob_positions o)
             (set_accounts (<[account := ob_account o]> (cd_accounts (lw_db w))) (cd_next_account (lw_db w)) (lw_db w));
  lw_events := lw_events w |}.
Definition loss_step (account : Z) (acc : LossWorld * list bool) (o : Observation) : LossWorld * list bool :=
  let '(w, told) := acc in
  match evaluate_account (ob_now o) account (observed account o w) with
  | Ok (w, x) => (w, told ++ [bool_decide (is_Some x)])
  | Raise _ => (w, told ++ [false])
  end.
Definition loss_run (account : Z) (l : list Observation) (w : LossWorld) : LossWorld * list bool :=
  fold_left (loss_step account) l (w, []).
(** The account is at or below its threshold. *)
Definition breached (account : Z) (o : Observation) : bool :=
  match ac_loss_threshold (ob_account o) with
  | Some t => qsum (map p_realised_pnl (List.filter (fun p => (p_account_id p =? account)%Z) (rows (ob_positions o)))) <=? t
  | None => false
  end.
(** The crossings: at or below now, and not the time before. *)
Fixpoint crossings (account : Z) (before : bool) (l : list Observation) : list bool :=
  match l with
  | [] => []
  | o :: l => (breached account o && negb before) :: crossings account (breached account o) l
  end.
Definition is_below (account : Z) (w : LossWorld) : bool :=
  match cd_loss (lw_db w) !! account with Some s => ls_is_below s | None => false end.
Lemma evaluate_exact account o w :
  exists w' x, evaluate_account (ob_now o) account (observed account o w) = Ok (w', x)
    /\ is_below account w' = breached account o
    /\ bool_decide (is_Some x) = breached account o && negb (is_below account w).
Proof.
  unfold evaluate_account, observed, breached, sum_realised, is_below.
  cbn [lw_db cd_accounts set_allocations set_accounts cd_loss cd_positions]. rewrite lookup_insert_eq.
  set (s := cd_loss (lw_db w) !! account).
  assert (B : ls_is_below (default {| ls_is_below := false; ls_last_threshold := None |} s)
    = match s with Some s => ls_is_below s | None => false end) by (by destruct s).
  destruct (ac_loss_threshold (ob_account o)) as [t|].
  - destruct (_ <=? t); cbn [andb]; rewrite B; destruct (match s with Some _ => _ | None => _ end) eqn:S; cbn [negb].
    + eexists _, _. split; [reflexivity|]. cbn [put_loss lw_db set_loss cd_loss]. by rewrite lookup_insert_eq.
    + destruct (append_event _ _) as [log row] eqn:A. assert (exists r, row = Some r) as [r ->].
      { unfold append_event in A. destruct (ev_key _) as [[|c k]|]; [by simplify_eq; eexists| |by simplify_eq; eexists].
        destruct (List.find _ _); simplify_eq; by eexists. }
      eexists _, _. split; [reflexivity|]. cbn [put_loss lw_db set_loss cd_loss]. by rewrite lookup_insert_eq.
    + eexists _, _. split; [reflexivity|]. cbn [put_loss lw_db set_loss cd_loss]. by rewrite lookup_insert_eq.
    + eexists _, _. split; [reflexivity|]. cbn [put_loss lw_db set_loss cd_loss]. rewrite lookup_insert_eq.
      by rewrite B.
  - eexists _, _. split; [reflexivity|]. cbn [put_loss lw_db set_loss cd_loss]. rewrite lookup_insert_eq. split; [|done].
    rewrite B. destruct (match s with Some _ => _ | None => _ end) eqn:S; [done|]. by rewrite B.
Qed.

(** An event tells of every crossing of the threshold, and of nothing else:
    at an evaluation the account is told of exactly when it is at or below its
    threshold and was not at the evaluation before, however the threshold and
    the positions change, and across restarts. *)
Theorem loss_told_at_crossings (account : Z) (l : list Observation) (w : LossWorld) :
  snd (loss_run account l w) = crossings account (is_below account w) l.
Proof.
  assert (G : forall l w told, snd (fold_left (loss_step account) l (w, told)) = told ++ crossings account (is_below account w) l).
  { clear. induction l as [|o l IH]; intros w told; [by rewrite app_nil_r|]. cbn [fold_left crossings]. unfold loss_step at 2.
    destruct (evaluate_exact account o w) as (w' & x & -> & B & X). rewrite IH, X, B, <- app_assoc. done. }
  apply (G l w []).
Qed.
End Monitor.

(** ** Examples *)
(** The monitor writes a row for every enabled account, and that row keeps the
    account from being deleted for good, whether it ever traded or not. *)
Example watched_account_stays :
  let w := fst (evaluate_once (fun _ => "now"%string) (fun _ => "0"%string) 5 {| lw_db := ex_config; lw_events := [] |}) in
  check_account_deletable 1 (lw_db w) = true
  /\ refusal (delete_account 1 (lw_db w)) = Some (constraint_error "accounts_fkey")
  /\ refusal (delete_account 1 ex_config) = None.
Proof. by vm_compute. Qed.
