(* ===== verification/RiskMonitor.v ===== *)
(** * The risk-exit monitor: [services/risk_exit_monitor.py]

    One tick judges the open pairs and the accounts by the rules of
    [RiskExit.v], arms the kill switch for an account that broke its daily
    limits and closes the pairs that are due.  Ticks do not overlap; what other
    sessions write is part of what a close leaves behind. *)

From S2P Require Import Prelude Rounding PyText PyTime Identifiers RmsModels LivePnl Sizer Accounts TradeBook RiskExit SessionClock JobQueue Positions OrderLedger Persistence TradingPause ManualLedger KillSwitch EngineFlatten Reconcile ReconcileFacts.

#[local] Open Scope Q_scope.
#[local] Open Scope py_scope.
#[local] Set Warnings "-clear-no-such-hyp".

(** What the monitor reads of an account, and of the live profit of a pair. *)
Record RiskAccount : Type := {
  ra_account_risk_enabled : bool;
  ra_daily_target : option Q;
  ra_daily_stop : option Q;
  ra_daily_target_unit : string;
  ra_daily_stop_unit : string;
  ra_total_margin : Q
}.
Record MonitorConfig : Type := {
  mc_enabled : bool; mc_shadow_mode : bool; mc_max_pnl_staleness_sec : Q; mc_max_retries : Z
}.
Abbreviation PairKey := (Z * string)%type.

(** The memory of the monitor. *)
Record Monitor : Type := {
  mn_inflight_pairs : gset PairKey;
  mn_inflight_accounts : gset Z;
  mn_pair_failures : gmap PairKey (Z * Q);        (* attempts, retry not before *)
  mn_pair_exhausted : gset PairKey;
  mn_shadow_pairs : gset (Z * string * string);
  mn_shadow_accounts : gset (Z * string)
}.
Definition new_monitor : Monitor := {|
  mn_inflight_pairs := ∅; mn_inflight_accounts := ∅; mn_pair_failures := ∅; mn_pair_exhausted := ∅;
  mn_shadow_pairs := ∅; mn_shadow_accounts := ∅ |}.
Definition set_inflight (pairs : gset PairKey) (accounts : gset Z) (m : Monitor) : Monitor := {|
  mn_inflight_pairs := pairs; mn_inflight_accounts := accounts; mn_pair_failures := mn_pair_failures m;
  mn_pair_exhausted := mn_pair_exhausted m; mn_shadow_pairs := mn_shadow_pairs m;
  mn_shadow_accounts := mn_shadow_accounts m |}.
Definition set_failures (failures : gmap PairKey (Z * Q)) (exhausted : gset PairKey) (m : Monitor) : Monitor := {|
  mn_inflight_pairs := mn_inflight_pairs m; mn_inflight_accounts := mn_inflight_accounts m;
  mn_pair_failures := failures; mn_pair_exhausted := exhausted; mn_shadow_pairs := mn_shadow_pairs m;
  mn_shadow_accounts := mn_shadow_accounts m |}.
Definition set_shadow (pairs : gset (Z * string * string)) (accounts : gset (Z * string)) (m : Monitor) : Monitor := {|
  mn_inflight_pairs := mn_inflight_pairs m; mn_inflight_accounts := mn_inflight_accounts m;
  mn_pair_failures := mn_pair_failures m; mn_pair_exhausted := mn_pair_exhausted m; mn_shadow_pairs := pairs;
  mn_shadow_accounts := accounts |}.

(** What it shares with the rest of the program. *)
Record RiskWorld : Type := {
  rw_kill : KillState;
  rw_pause : PauseState;
  rw_accounts : gmap Z RiskAccount;
  rw_events : list EventRow
}.
Definition set_rw_kill (s : KillState) (w : RiskWorld) : RiskWorld := {|
  rw_kill := s; rw_pause := rw_pause w; rw_accounts := rw_accounts w; rw_events := rw_events w |}.
Definition set_rw_events (l : list EventRow) (w : RiskWorld) : RiskWorld := {|
  rw_kill := rw_kill w; rw_pause := rw_pause w; rw_accounts := rw_accounts w; rw_events := l |}.
(** The calls it makes: a close and its answer, a square-off and the operation
    that is handed to the flatten worker. *)
Inductive Call : Type :=
  | CallClose (account_id : Z) (trade_id : string) (reason : ExitReason) (answer : PairClose)
  | CallSquareOff (account_id : Z) (reason : ExitReason) (flatten : option Z).
Record RiskRun : Type := { rs_monitor : Monitor; rs_world : RiskWorld; rs_calls : list Call }.
Definition on_monitor (f : Monitor -> Monitor) (s : RiskRun) : RiskRun := {|
  rs_monitor := f (rs_monitor s); rs_world := rs_world s; rs_calls := rs_calls s |}.
Definition on_risk_world (f : RiskWorld -> RiskWorld) (s : RiskRun) : RiskRun := {|
  rs_monitor := rs_monitor s; rs_world := f (rs_world s); rs_calls := rs_calls s |}.
Definition called (c : Call) (s : RiskRun) : RiskRun := {|
  rs_monitor := rs_monitor s; rs_world := rs_world s; rs_calls := rs_calls s ++ [c] |}.

(** What a tick meets: the clocks, the live profits, which events can be
    written, how the transactions of a square-off end, and what the close of a
    pair answers and leaves behind, with the clock then. *)
Record SquareOff : Type := { sq_id : Z; sq_reason_commits : bool; sq_commits : bool }.
Record Tick : Type := {
  tk_now : Z;
  tk_mono : Q;
  tk_connected : bool;
  tk_pair_pnl : Z -> string -> option PairPnlSnapshot;
  tk_event_written : EventRow -> bool;
  tk_square_off : Z -> SquareOff;
  tk_close_pair : Z -> string -> ExitReason -> RiskWorld -> RiskWorld * PairClose;
  tk_mono_after : Z -> string -> Q
}.

Definition reason_value (r : ExitReason) : string :=
  match r with
  | PAIR_TARGET => "PAIR_TARGET" | PAIR_STOP => "PAIR_STOP" | PAIR_TIME_LIMIT => "PAIR_TIME_LIMIT"
  | ACCOUNT_TARGET => "ACCOUNT_TARGET" | ACCOUNT_STOP => "ACCOUNT_STOP"
  end.
Definition iso_date (day : Z) : string :=
  let '(y, m, d) := civil_from_days day in
  (fmt_d 4 y ++ "-" ++ fmt_d 2 m ++ "-" ++ fmt_d 2 d)%string.

Section Monitor.
(** The session clock, the time zone of New York, and the text of a decimal. *)
Variables (rth_open rth_close : Z -> result (option Z)) (to_et to_utc : Z -> Z) (str_dec : Q -> string).
Variable cfg : MonitorConfig.

(** The open of the session, inside regular trading hours. *)
Definition in_rth (now : Z) : result (option Z) :=
  let et := to_et now in
  let day := (et / day_us)%Z in
  let! o := rth_open day in
  let! c := rth_close day in
  Ok (match o, c with
      | Some o, Some c => if (o <=? et)%Z && (et <? c)%Z then Some o else None
      | _, _ => None
      end).
Definition snapshot_fresh (snapshot : option PairPnlSnapshot) (now_mono : Q) : bool :=
  match snapshot with
  | None => false
  | Some x => ps_all_legs_marked x && (0 <? ps_updated_at_mono x)
              && (fl (now_mono - ps_updated_at_mono x) <=? mc_max_pnl_staleness_sec cfg)
  end.
Definition pair_ready (key : PairKey) (now_mono : Q) (m : Monitor) : bool :=
  negb (bool_decide (key ∈ mn_inflight_pairs m) || bool_decide (key ∈ mn_pair_exhausted m))
  && match mn_pair_failures m !! key with Some (_, until) => negb (now_mono <? until) | None => true end.

Definition risk_event (kind : string) (detail : list (string * json)) (key : string) : EventRow := {|
  ev_process := "risk_exit"; ev_kind := kind; ev_detail := JObj detail; ev_signal_id := None; ev_order_id := None;
  ev_basket_id := None; ev_key := Some key |}.
(** A failure to write an event is logged. *)
Definition append_risk_event (t : Tick) (e : EventRow) : RiskRun -> RiskRun :=
  on_risk_world (fun w => if tk_event_written t e then set_rw_events (fst (append_event e (rw_events w))) w else w).

(** ** Accounts *)
Definition session_pnl (t : Tick) (account : Z) (positions : list PositionModel) : Q :=
  fold_left (fun total p =>
    let snapshot := tk_pair_pnl t account (p_trade_id p) in
    match snapshot with
    | Some x => if snapshot_fresh snapshot (tk_mono t) then dadd total (ps_pnl x) else dadd total (p_live_pnl p)
    | None => dadd total (p_live_pnl p)
    end) positions 0.
Definition account_params (a : RiskAccount) : AccountRiskParams := {|
  rk_daily_target := ra_daily_target a; rk_daily_stop := ra_daily_stop a;
  rk_daily_target_unit := str_or (ra_daily_target_unit a) "ABSOLUTE";
  rk_daily_stop_unit := str_or (ra_daily_stop_unit a) "ABSOLUTE"; rk_total_margin := ra_total_margin a |}.
Definition breach_event (account day : Z) (d : ExitDecision) : EventRow :=
  risk_event "ACCOUNT_RISK_BREACH"
    [("account_id", JInt account); ("reason", JStr (reason_value (ed_reason d))); ("pnl", JStr (str_dec (ed_pnl d)));
     ("threshold", JStr (str_dec (ed_threshold d))); ("shadow", JBool (mc_shadow_mode cfg))]%string
    ("risk_exit:account:" ++ str_Z account ++ ":" ++ iso_date day ++ ":" ++ reason_value (ed_reason d)).
Definition set_reasons (account : Z) (r : ExitReason) (w : RiskWorld) : RiskWorld :=
  set_rw_kill (set_ks_positions (fst (set_exit_reason account (reason_value r) None (ks_positions (rw_kill w))))
                 (rw_kill w)) w.
Definition handle_account_breach (t : Tick) (account day : Z) (d : ExitDecision) (s : RiskRun) : RiskRun :=
  let s := append_risk_event t (breach_event account day d) s in
  if mc_shadow_mode cfg then
    on_monitor (fun m => set_shadow (mn_shadow_pairs m) ({[(account, iso_date day)]} ∪ mn_shadow_accounts m) m) s
  else
    let s := on_monitor (fun m => set_inflight (mn_inflight_pairs m) ({[account]} ∪ mn_inflight_accounts m) m) s in
    let x := tk_square_off t account in
    let s :=
      if sq_reason_commits x then
        let s := on_risk_world (set_reasons account (ed_reason d)) s in
        let (k, r) := initiate_square_off (sq_id x) (tk_now t) account "auto_risk" (sq_commits x) (rw_kill (rs_world s)) in
        called (CallSquareOff account (ed_reason d)
                  (match r with Ok (o, true) => Some (op_id o) | _ => None end)) (on_risk_world (set_rw_kill k) s)
      else s in
    on_monitor (fun m => set_inflight (mn_inflight_pairs m) (mn_inflight_accounts m ∖ {[account]}) m) s.
Definition account_decision (t : Tick) (open_utc : Z) (rows : list PositionModel) (account : Z) (a : RiskAccount)
    (w : RiskWorld) : option ExitDecision :=
  let positions := List.filter (fun p => (p_account_id p =? account)%Z) rows in
  evaluate_account_risk (account_params a)
    (dadd (session_pnl t account positions)
       (sum_realised_closed_since account open_utc (ks_positions (rw_kill w)))).
(** The accounts in order; those that are in breach. *)
Definition evaluate_account (t : Tick) (open_et : Z) (rows : list PositionModel) (acc : RiskRun * gset Z)
    (x : Z * RiskAccount) : RiskRun * gset Z :=
  let '(s, breached) := acc in
  let '(account, a) := x in
  if is_account_kill_switch_active (rw_kill (rs_world s)) account then acc
  else if is_account_trading_paused (rw_pause (rs_world s)) account then acc
  else if bool_decide (account ∈ mn_inflight_accounts (rs_monitor s)) then acc
  else if negb (ra_account_risk_enabled a) then acc
  else
    match account_decision t (to_utc open_et) rows account a (rs_world s) with
    | None => acc
    | Some d => (handle_account_breach t account (open_et / day_us)%Z d s, {[account]} ∪ breached)
    end.

(** ** Pairs *)
Definition pair_params (p : PositionModel) : PairExitParams := {|
  px_target := p_target p; px_stop := p_stop p; px_time_limit := p_time_limit p;
  px_target_unit := str_or (p_target_unit p) "ABSOLUTE"; px_stop_unit := str_or (p_stop_unit p) "ABSOLUTE";
  px_opened_at := {| mo_wall := p_opened_at p; mo_offset := Some 0%Z |};
  px_entry_gross_notional := pair_entry_gross_notional (p_leg_a_signed_qty p) (p_leg_a_entry_mark p)
                               (p_leg_b_signed_qty p) (p_leg_b_entry_mark p) |}.
(** Without a fresh profit only the time limit counts. *)
Definition pair_exit (t : Tick) (p : PositionModel) : result (option ExitDecision) :=
  let snapshot := tk_pair_pnl t (p_account_id p) (p_trade_id p) in
  let now := {| mo_wall := tk_now t; mo_offset := Some 0%Z |} in
  if snapshot_fresh snapshot (tk_mono t)
  then evaluate_pair_exit (pair_params p) (match snapshot with Some x => ps_pnl x | None => 0 end) now
  else
    let! d := evaluate_pair_exit (pair_params p) 0 now in
    Ok (match d with
        | Some d => match ed_reason d with PAIR_TIME_LIMIT => Some d | _ => None end
        | None => None
        end).
Definition pair_event (account : Z) (trade : string) (d : ExitDecision) : EventRow :=
  risk_event "PAIR_EXIT_TRIGGERED"
    [("account_id", JInt account); ("trade_id", JStr trade); ("reason", JStr (reason_value (ed_reason d)));
     ("pnl", JStr (str_dec (ed_pnl d))); ("threshold", JStr (str_dec (ed_threshold d)));
     ("shadow", JBool (mc_shadow_mode cfg))]%string
    ("risk_exit:pair:" ++ str_Z account ++ ":" ++ trade ++ ":" ++ reason_value (ed_reason d)).
Definition status_text (r : PairClose) : string :=
  match r with
  | PairResponse PAIR_CLOSED => "CLOSED" | PairResponse PAIR_PARTIAL => "PARTIAL" | PairResponse PAIR_FAILED => "FAILED"
  | PairRefused _ | PairRaises _ => "ERROR"
  end.
Definition pair_failed_event (account : Z) (trade : string) (d : ExitDecision) (status : string) (attempts : Z) : EventRow :=
  risk_event "PAIR_EXIT_FAILED"
    [("account_id", JInt account); ("trade_id", JStr trade); ("reason", JStr (reason_value (ed_reason d)));
     ("status", JStr status); ("attempts", JInt attempts)]%string
    ("risk_exit:pair_failed:" ++ str_Z account ++ ":" ++ trade).
Definition record_pair_failure (t : Tick) (account : Z) (trade : string) (d : ExitDecision) (status : string)
    (s : RiskRun) : RiskRun :=
  let key := (account, trade) in
  let m := rs_monitor s in
  let attempts := (match mn_pair_failures m !! key with Some (n, _) => n | None => 0 end + 1)%Z in
  if (mc_max_retries cfg <=? attempts)%Z then
    append_risk_event t (pair_failed_event account trade d status attempts)
      (on_monitor (fun m => set_failures (delete key (mn_pair_failures m)) ({[key]} ∪ mn_pair_exhausted m) m) s)
  else
    let backoff := Z.min (2 ^ attempts) 60 in
    on_monitor (fun m => set_failures (<[key := (attempts, fl (tk_mono_after t account trade + inject_Z backoff))]>
                                         (mn_pair_failures m)) (mn_pair_exhausted m) m) s.
Definition handle_pair_exit (t : Tick) (account : Z) (trade : string) (d : ExitDecision) (s : RiskRun) : RiskRun :=
  let key := (account, trade) in
  let s := append_risk_event t (pair_event account trade d) s in
  if mc_shadow_mode cfg then
    on_monitor (fun m => set_shadow ({[(account, trade, reason_value (ed_reason d))]} ∪ mn_shadow_pairs m)
                           (mn_shadow_accounts m) m) s
  else
    let s := on_monitor (fun m => set_inflight ({[key]} ∪ mn_inflight_pairs m) (mn_inflight_accounts m) m) s in
    let (w, answer) := tk_close_pair t account trade (ed_reason d) (rs_world s) in
    let s := called (CallClose account trade (ed_reason d) answer) (on_risk_world (fun _ => w) s) in
    let s :=
      match answer with
      | PairResponse PAIR_CLOSED =>
          on_monitor (fun m => set_failures (delete key (mn_pair_failures m)) (mn_pair_exhausted m ∖ {[key]}) m) s
      | _ => record_pair_failure t account trade d (status_text answer) s
      end in
    on_monitor (fun m => set_inflight (mn_inflight_pairs m ∖ {[key]}) (mn_inflight_accounts m) m) s.
Definition evaluate_row (t : Tick) (breached : gset Z) (p : PositionModel) (s : RiskRun) : result RiskRun :=
  if bool_decide (p_account_id p ∈ breached) then Ok s
  else if is_account_kill_switch_active (rw_kill (rs_world s)) (p_account_id p) then Ok s
  else if negb (p_exit_automation_enabled p) then Ok s
  else if negb (pair_ready (p_account_id p, p_trade_id p) (tk_mono t) (rs_monitor s)) then Ok s
  else
    let! d := pair_exit t p in
    Ok (match d with Some d => handle_pair_exit t (p_account_id p) (p_trade_id p) d s | None => s end).
(** The pairs in order; an exception ends the tick. *)
Fixpoint evaluate_rows (t : Tick) (breached : gset Z) (l : list PositionModel) (s : RiskRun) : RiskRun * result unit :=
  match l with
  | [] => (s, Ok tt)
  | p :: l =>
      match evaluate_row t breached p s with
      | Ok s => evaluate_rows t breached l s
      | Raise e => (s, Raise e)
      end
  end.

(** ** A tick *)
Definition by_account_id (m : gmap Z RiskAccount) : list (Z * RiskAccount) :=
  sort_by (fun x y => (fst x <? fst y)%Z) (map_to_list m).
Definition evaluate (t : Tick) (open_et : Z) (s : RiskRun) : RiskRun * result unit :=
  let rows := list_open (ks_positions (rw_kill (rs_world s))) in
  let '(s, breached) := fold_left (evaluate_account t open_et rows) (by_account_id (rw_accounts (rs_world s))) (s, ∅) in
  evaluate_rows t breached rows s.
Definition monitor_once (t : Tick) (s : RiskRun) : RiskRun * result unit :=
  if negb (mc_enabled cfg) then (s, Ok tt)
  else if negb (tk_connected t) then (s, Ok tt)
  else match in_rth (tk_now t) with
       | Raise e => (s, Raise e)
       | Ok None => (s, Ok tt)
       | Ok (Some open_et) => evaluate t open_et s
       end.
(** [_loop]: what a tick raises is logged. *)
Definition monitor_loop (ticks : list Tick) (s : RiskRun) : RiskRun :=
  fold_left (fun s t => fst (monitor_once t s)) ticks s.
End Monitor.

(** ** Facts *)
(** How often the close of a pair failed since it last worked. *)
Definition failed_answer (r : PairClose) : bool := match r with PairResponse PAIR_CLOSED => false | _ => true end.
Definition count_failure (key : PairKey) (n : Z) (c : Call) : Z :=
  match c with
  | CallClose a t _ r => if bool_decide ((a, t) = key) then if failed_answer r then n + 1 else 0 else n
  | CallSquareOff _ _ _ => n
  end%Z.
Definition failures_in_a_row (key : PairKey) (calls : list Call) : Z := fold_left (count_failure key) calls 0%Z.
Definition closes_of (key : PairKey) (calls : list Call) : list Call :=
  List.filter (fun c => match c with CallClose a t _ _ => bool_decide ((a, t) = key) | _ => false end) calls.
Lemma failures_app key l k : failures_in_a_row key (l ++ k) = fold_left (count_failure key) k (failures_in_a_row key l).
Proof. apply fold_left_app. Qed.
Lemma closes_app key l k : closes_of key (l ++ k) = closes_of key l ++ closes_of key k.
Proof. apply List.filter_app. Qed.

Section MonitorFacts.
Variables (rth_open rth_close : Z -> result (option Z)) (to_et to_utc : Z -> Z) (str_dec : Q -> string).
Variable cfg : MonitorConfig.
#[local] Abbreviation breach_step := (handle_account_breach str_dec cfg).
#[local] Abbreviation exit_step := (handle_pair_exit str_dec cfg).

(** What a step leaves alone of the memory of failures. *)
Record same_retries (s s' : RiskRun) : Prop := {
  sr_failures : mn_pair_failures (rs_monitor s') = mn_pair_failures (rs_monitor s);
  sr_exhausted : mn_pair_exhausted (rs_monitor s') = mn_pair_exhausted (rs_monitor s);
  sr_inflight : mn_inflight_pairs (rs_monitor s') = mn_inflight_pairs (rs_monitor s)
}.
Lemma breach_step_spec t a day d s :
  let s' := breach_step t a day d s in
  same_retries s s'
  /\ exists new, rs_calls s' = rs_calls s ++ new
       /\ (new = [] \/ mc_shadow_mode cfg = false /\ exists f, new = [CallSquareOff a (ed_reason d) f]).
Proof.
  intros s'. subst s'. unfold handle_account_breach. destruct (mc_shadow_mode cfg).
  - split; [done|]. exists []. rewrite app_nil_r. auto.
  - cbv zeta. destruct (sq_reason_commits _).
    + destruct (initiate_square_off _ _ _ _ _ _) as [k r]. split; [done|]. eexists. split; [done|]. right.
      split; [done|]. by eexists.
    + split; [done|]. exists []. rewrite app_nil_r. auto.
Qed.

(** *** One pair *)
Definition retry_bound : Z := Z.max 1 (mc_max_retries cfg).
Lemma record_failure_memory t a tr d status s key :
  let s' := record_pair_failure cfg t a tr d status s in
  let attempts := (match mn_pair_failures (rs_monitor s) !! (a, tr) with Some (n, _) => n | None => 0 end + 1)%Z in
  rs_calls s' = rs_calls s /\ mn_inflight_pairs (rs_monitor s') = mn_inflight_pairs (rs_monitor s)
  /\ (key <> (a, tr) ->
        mn_pair_failures (rs_monitor s') !! key = mn_pair_failures (rs_monitor s) !! key
        /\ (key ∈ mn_pair_exhausted (rs_monitor s') <-> key ∈ mn_pair_exhausted (rs_monitor s)))
  /\ if (mc_max_retries cfg <=? attempts)%Z then (a, tr) ∈ mn_pair_exhausted (rs_monitor s')
     else mn_pair_exhausted (rs_monitor s') = mn_pair_exhausted (rs_monitor s)
          /\ exists u, mn_pair_failures (rs_monitor s') !! (a, tr) = Some (attempts, u).
Proof.
  intros s' attempts. subst s'. unfold record_pair_failure. fold attempts.
  destruct (mc_max_retries cfg <=? attempts)%Z; simpl.
  - split; [done|]. split; [done|]. split; [|set_solver]. intros N. split; [by rewrite lookup_delete_ne|set_solver].
  - split; [done|]. split; [done|]. split; [intros N; by rewrite lookup_insert_ne|]. split; [done|].
    rewrite lookup_insert_eq. by eexists.
Qed.
(** What is remembered of a pair: how often it failed, and whether it is given up. *)
Definition remembered (s : RiskRun) (key : PairKey) : Z * bool :=
  (match mn_pair_failures (rs_monitor s) !! key with Some (n, _) => n | None => 0%Z end,
   bool_decide (key ∈ mn_pair_exhausted (rs_monitor s))).
Definition ready (s : RiskRun) (key : PairKey) (mono : Q) : bool := pair_ready key mono (rs_monitor s).
Record exit_done (a : Z) (tr : string) (d : ExitDecision) (answer : PairClose) (s s' : RiskRun) : Prop := {
  xd_calls : rs_calls s' = rs_calls s ++ [CallClose a tr (ed_reason d) answer];
  xd_others : forall key, key <> (a, tr) ->
    remembered s' key = remembered s key /\ forall mono, ready s' key mono = ready s key mono;
  xd_itself : let n := (fst (remembered s (a, tr)) + 1)%Z in
    if failed_answer answer then
      if (mc_max_retries cfg <=? n)%Z then snd (remembered s' (a, tr)) = true
      else remembered s' (a, tr) = (n, snd (remembered s (a, tr)))
    else remembered s' (a, tr) = (0%Z, false)
}.
Lemma remembered_eq s s' key :
  mn_pair_failures (rs_monitor s') !! key = mn_pair_failures (rs_monitor s) !! key ->
  (key ∈ mn_pair_exhausted (rs_monitor s') <-> key ∈ mn_pair_exhausted (rs_monitor s)) ->
  remembered s' key = remembered s key.
Proof. intros F X. unfold remembered. rewrite F. f_equal. by apply bool_decide_ext. Qed.
Lemma ready_eq s s' key mono :
  mn_pair_failures (rs_monitor s') !! key = mn_pair_failures (rs_monitor s) !! key ->
  (key ∈ mn_pair_exhausted (rs_monitor s') <-> key ∈ mn_pair_exhausted (rs_monitor s)) ->
  (key ∈ mn_inflight_pairs (rs_monitor s') <-> key ∈ mn_inflight_pairs (rs_monitor s)) ->
  ready s' key mono = ready s key mono.
Proof.
  intros F X I. unfold ready, pair_ready. rewrite F. f_equal. f_equal. f_equal; by apply bool_decide_ext.
Qed.
Lemma exit_step_done t a tr d s :
  mc_shadow_mode cfg = false -> exists answer, exit_done a tr d answer s (exit_step t a tr d s).
Proof.
  intros Sh. unfold handle_pair_exit. rewrite Sh. cbv zeta. set (s1 := on_monitor _ (append_risk_event _ _ _)).
  destruct (tk_close_pair t a tr (ed_reason d) (rs_world s1)) as [w answer]. exists answer.
  set (s2 := called _ _).
  destruct (failed_answer answer) eqn:Fa.
  - assert (E : forall s, (match answer with
       | PairResponse PAIR_CLOSED => on_monitor (fun m => set_failures (delete (a, tr) (mn_pair_failures m))
                                                            (mn_pair_exhausted m ∖ {[(a, tr)]}) m) s
       | _ => record_pair_failure cfg t a tr d (status_text answer) s end)
       = record_pair_failure cfg t a tr d (status_text answer) s) by (by destruct answer as [|?|[]]).
    rewrite E. split; rewrite ?Fa.
    + destruct (record_failure_memory t a tr d (status_text answer) s2 (a, tr)) as (C & _). exact C.
    + intros key N. destruct (record_failure_memory t a tr d (status_text answer) s2 key) as (_ & I & O & _).
      destruct (O N) as [F X]. split; [by apply remembered_eq|intros mono]. apply ready_eq; [done|done|]. simpl.
      rewrite I. simpl. set_solver.
    + destruct (record_failure_memory t a tr d (status_text answer) s2 (a, tr)) as (_ & _ & _ & M).
      cbv zeta. unfold remembered at 1. cbn [fst]. change (mn_pair_failures (rs_monitor s2))
        with (mn_pair_failures (rs_monitor s)) in M. destruct (_ <=? _)%Z.
      * by apply bool_decide_eq_true_2.
      * destruct M as (X & u & F). unfold remembered. simpl. rewrite X, F. done.
  - assert (answer = PairResponse PAIR_CLOSED) as -> by (by destruct answer as [|?|[]]). split; [done| |].
    + intros key N. assert (F : delete (a, tr) (mn_pair_failures (rs_monitor s)) !! key
        = mn_pair_failures (rs_monitor s) !! key) by (by rewrite lookup_delete_ne).
      split; [apply remembered_eq|intros mono; apply ready_eq]; simpl; [done|set_solver|done|set_solver|set_solver].
    + unfold remembered. simpl. rewrite lookup_delete_eq. f_equal. apply bool_decide_eq_false_2. set_solver.
Qed.
Lemma exit_step_shadow t a tr d s :
  mc_shadow_mode cfg = true -> same_retries s (exit_step t a tr d s) /\ rs_calls (exit_step t a tr d s) = rs_calls s.
Proof. intros Sh. unfold handle_pair_exit. by rewrite Sh. Qed.
Lemma same_remembered s s' key : same_retries s s' -> remembered s' key = remembered s key.
Proof. intros [F X _]. unfold remembered. by rewrite F, X. Qed.
Lemma same_ready s s' key mono : same_retries s s' -> ready s' key mono = ready s key mono.
Proof. intros [F X I]. unfold ready, pair_ready. by rewrite F, X, I. Qed.

(** The memory agrees with what happened. *)
Definition counts_right (s : RiskRun) : Prop := forall key,
  let n := failures_in_a_row key (rs_calls s) in
  if snd (remembered s key) then n = retry_bound
  else (0 <= n < retry_bound)%Z /\ n = fst (remembered s key).
Lemma failures_close key calls a tr r answer :
  failures_in_a_row key (calls ++ [CallClose a tr r answer])
  = if decide ((a, tr) = key) then if failed_answer answer then (failures_in_a_row key calls + 1)%Z else 0%Z
    else failures_in_a_row key calls.
Proof. rewrite failures_app. simpl. by case_bool_decide; destruct (decide _). Qed.
Lemma exit_counts t a tr d s mono :
  counts_right s -> ready s (a, tr) mono = true -> counts_right (exit_step t a tr d s).
Proof.
  intros C R. destruct (mc_shadow_mode cfg) eqn:Sh.
  - destruct (exit_step_shadow t a tr d s Sh) as [S E]. intros key. rewrite E, (same_remembered _ _ key S). apply C.
  - destruct (exit_step_done t a tr d s Sh) as [answer [Ec Eo Es]]. intros key. cbv zeta.
    rewrite Ec, failures_close. destruct (decide _) as [<-|N].
    + specialize (C (a, tr)). cbv zeta in C, Es.
      assert (Nx : snd (remembered s (a, tr)) = false).
      { unfold ready, pair_ready in R. bool_to_prop. unfold remembered. simpl. apply bool_decide_eq_false_2. tauto. }
      rewrite Nx in C, Es. destruct C as [B E]. rewrite E in *. unfold retry_bound in *.
      destruct (failed_answer answer); [|rewrite Es; cbn [fst snd]; lia].
      destruct (mc_max_retries cfg <=? _)%Z eqn:Le; [rewrite Es|rewrite Es; cbn [fst snd]]; lia.
    + destruct (Eo key) as [-> _]; [done|]. apply C.
Qed.
Lemma breach_counts t a day d s : counts_right s -> counts_right (breach_step t a day d s).
Proof.
  intros C key. destruct (breach_step_spec t a day d s) as [S (new & E & N)].
  rewrite E, failures_app, (same_remembered _ _ key S). destruct N as [->|(_ & f & ->)]; apply C.
Qed.

(** *** The steps of a tick *)
Lemma evaluate_row_spec t breached p s s' :
  evaluate_row str_dec cfg t breached p s = Ok s' ->
  s' = s \/ exists d, (p_account_id p ∉ breached) /\ p_exit_automation_enabled p = true
    /\ is_account_kill_switch_active (rw_kill (rs_world s)) (p_account_id p) = false
    /\ ready s (p_account_id p, p_trade_id p) (tk_mono t) = true
    /\ pair_exit cfg t p = Ok (Some d) /\ s' = exit_step t (p_account_id p) (p_trade_id p) d s.
Proof.
  unfold evaluate_row. case_bool_decide as B; [intros [= <-]; by left|].
  destruct (is_account_kill_switch_active _ _) eqn:K; [intros [= <-]; by left|].
  destruct (p_exit_automation_enabled p) eqn:A; [|intros [= <-]; by left].
  destruct (pair_ready _ _ _) eqn:R; [|intros [= <-]; by left]. simpl.
  intros ([d|] & D & [= <-])%rbind_ok; [|by left]. right. exists d. by split_and!.
Qed.
Lemma rows_invariant (P : RiskRun -> Prop) t breached l s :
  (forall p d s, P s -> ready s (p_account_id p, p_trade_id p) (tk_mono t) = true ->
     P (exit_step t (p_account_id p) (p_trade_id p) d s)) ->
  P s -> P (fst (evaluate_rows str_dec cfg t breached l s)).
Proof.
  intros St. revert s. induction l as [|p l IH]; intros s H; [done|]. simpl.
  destruct (evaluate_row _ _ _ _ _ _) as [s1|e] eqn:E; [|done].
  apply IH. apply evaluate_row_spec in E as [->|(d & _ & _ & _ & R & _ & ->)]; [done|by apply St].
Qed.
Lemma accounts_invariant (P : RiskRun -> Prop) t open_et rows l acc :
  (forall a day d s, P s -> P (breach_step t a day d s)) ->
  P (fst acc) -> P (fst (fold_left (evaluate_account to_utc str_dec cfg t open_et rows) l acc)).
Proof.
  intros St. revert acc. induction l as [|[a x] l IH]; intros [s b] H; [done|]. simpl. apply IH.
  destruct (is_account_kill_switch_active _ _); [done|]. destruct (is_account_trading_paused _ _); [done|].
  destruct (bool_decide _); [done|]. destruct (negb _); [done|].
  destruct (account_decision _ _ _ _ _ _ _); [by apply St|done].
Qed.
Lemma tick_invariant (P : RiskRun -> Prop) t s :
  (forall a day d s, P s -> P (breach_step t a day d s)) ->
  (forall p d s, P s -> ready s (p_account_id p, p_trade_id p) (tk_mono t) = true ->
     P (exit_step t (p_account_id p) (p_trade_id p) d s)) ->
  P s -> P (fst (monitor_once rth_open rth_close to_et to_utc str_dec cfg t s)).
Proof.
  intros B X H. unfold monitor_once. destruct (negb _); [done|]. destruct (negb _); [done|].
  destruct (in_rth _ _ _ _) as [[o|]|e]; [|done|done]. unfold evaluate.
  pose proof (accounts_invariant P t o (list_open (ks_positions (rw_kill (rs_world s))))
    (by_account_id (rw_accounts (rs_world s))) (s, ∅) B H) as H1.
  destruct (fold_left _ _ _) as [s1 b]. by apply rows_invariant.
Qed.
#[local] Abbreviation loop := (monitor_loop rth_open rth_close to_et to_utc str_dec cfg).
Lemma loop_invariant (P : RiskRun -> Prop) ticks s :
  (forall t a day d s, P s -> P (breach_step t a day d s)) ->
  (forall t p d s, P s -> ready s (p_account_id p, p_trade_id p) (tk_mono t) = true ->
     P (exit_step t (p_account_id p) (p_trade_id p) d s)) ->
  P s -> P (loop ticks s).
Proof.
  intros B X. revert s. induction ticks as [|t l IH]; intros s H; [done|]. apply IH.
  apply tick_invariant; [intros; by apply B|intros; by apply X|done].
Qed.
Lemma loop_counts ticks s : counts_right s -> counts_right (loop ticks s).
Proof.
  apply loop_invariant; [intros; by apply breach_counts|]. intros t p d s' C R. by eapply exit_counts.
Qed.
(** A pair that is given up is not tried again. *)
Definition given_up (key : PairKey) (l : list Call) (s : RiskRun) : Prop :=
  snd (remembered s key) = true /\ closes_of key (rs_calls s) = l.
Lemma given_up_stays key l ticks s : given_up key l s -> given_up key l (loop ticks s).
Proof.
  apply loop_invariant.
  - intros t a day d s' [G L]. destruct (breach_step_spec t a day d s') as [S (new & E & N)].
    split; [by rewrite (same_remembered _ _ key S)|]. rewrite E, closes_app, L.
    destruct N as [->|(_ & f & ->)]; by rewrite app_nil_r.
  - intros t p d s' [G L] R. destruct (mc_shadow_mode cfg) eqn:Sh.
    + destruct (exit_step_shadow t (p_account_id p) (p_trade_id p) d s' Sh) as [S E].
      split; [by rewrite (same_remembered _ _ key S)|by rewrite E].
    + destruct (exit_step_done t (p_account_id p) (p_trade_id p) d s' Sh) as [answer [Ec Eo _]].
      assert (N : key <> (p_account_id p, p_trade_id p)).
      { intros ->. unfold ready, pair_ready in R. unfold remembered in G. simpl in G. by rewrite G, orb_true_r in R. }
      split; [by rewrite (proj1 (Eo key N))|]. rewrite Ec, closes_app, L. simpl.
      rewrite bool_decide_eq_false_2 by congruence. apply app_nil_r.
Qed.

(** *** What a call rests on *)
Definition realised (s : RiskRun) (a since : Z) : Q :=
  sum_realised_closed_since a since (ks_positions (rw_kill (rs_world s))).
Lemma realised_map (f : PositionModel -> PositionModel) (q : PositionModel -> bool) (l : list PositionModel) :
  (forall p, q (f p) = q p /\ p_realised_pnl (f p) = p_realised_pnl p) ->
  fold_right (fun p a => p_realised_pnl p + a) 0 (List.filter q (map f l))
  = fold_right (fun p a => p_realised_pnl p + a) 0 (List.filter q l).
Proof.
  intros F. induction l as [|p l IH]; [done|]. cbn [map List.filter]. destruct (F p) as [-> E].
  destruct (q p); cbn [fold_right]; [|exact IH]. by rewrite E, IH.
Qed.
Lemma reason_keeps_realised a r m b since :
  sum_realised_closed_since b since (fst (set_exit_reason a r None m)) = sum_realised_closed_since b since m.
Proof.
  unfold sum_realised_closed_since, set_exit_reason, rows. cbn [fst]. set (f := fun p => if _ && _ then _ else p).
  replace (map snd (map_to_list (f <$> m))) with (map f (map snd (map_to_list m))).
  - apply realised_map. intros p. subst f. cbv beta. by case_match.
  - rewrite map_to_list_fmap. induction (map_to_list m) as [|[k p] l IH]; [done|]. simpl. by rewrite IH.
Qed.
Lemma square_off_positions id now a by_ ok k :
  ks_positions (fst (initiate_square_off id now a by_ ok k)) = ks_positions k.
Proof.
  unfold initiate_square_off, insert_operation, commit. repeat (case_match; simplify_eq/=; try done).
Qed.
Lemma breach_realised t a day d s b since : realised (breach_step t a day d s) b since = realised s b since.
Proof.
  unfold handle_account_breach, append_risk_event. destruct (mc_shadow_mode cfg), (tk_event_written t _); try done;
    cbv zeta; (destruct (sq_reason_commits _); [|done]).
  all: match goal with |- context [initiate_square_off ?i ?n ?a ?b ?o ?k] =>
         pose proof (square_off_positions i n a b o k) as E; destruct (initiate_square_off i n a b o k) as [k' r] end.
  all: unfold realised; simpl in *; rewrite E; apply reason_keeps_realised.
Qed.

(** What a square-off leaves alone: the pauses, and the armed accounts stay armed. *)
Lemma square_off_cache id now a by_ ok k : ks_cache k ⊆ ks_cache (fst (initiate_square_off id now a by_ ok k)).
Proof.
  unfold initiate_square_off, insert_operation, commit. repeat (case_match; simplify_eq/=; try done); set_solver.
Qed.
Lemma breach_guards t a day d s :
  let s' := breach_step t a day d s in
  rw_pause (rs_world s') = rw_pause (rs_world s)
  /\ ks_cache (rw_kill (rs_world s)) ⊆ ks_cache (rw_kill (rs_world s')).
Proof.
  unfold handle_account_breach, append_risk_event. destruct (mc_shadow_mode cfg), (tk_event_written t _); try done;
    cbv zeta; (destruct (sq_reason_commits _); [|done]).
  all: match goal with |- context [initiate_square_off ?i ?n ?a ?b ?o ?k] =>
         pose proof (square_off_cache i n a b o k) as E; destruct (initiate_square_off i n a b o k) as [k' r] end.
  all: split; [done|exact E].
Qed.

(** A profit the monitor trusts: every leg marked, and the marks recent. *)
Definition fresh_profit (t : Tick) (p : PositionModel) (q : Q) : Prop :=
  exists x, tk_pair_pnl t (p_account_id p) (p_trade_id p) = Some x /\ ps_pnl x = q
    /\ ps_all_legs_marked x = true /\ 0 < ps_updated_at_mono x
    /\ fl (tk_mono t - ps_updated_at_mono x) <= mc_max_pnl_staleness_sec cfg.
(** The profit that counts for the day: the fresh one, else the stored one. *)
Definition profit_seen (t : Tick) (p : PositionModel) (q : Q) : Prop :=
  fresh_profit t p q \/ (forall x, ~ fresh_profit t p x) /\ q = p_live_pnl p.
Lemma fresh_spec t p :
  let snapshot := tk_pair_pnl t (p_account_id p) (p_trade_id p) in
  if snapshot_fresh cfg snapshot (tk_mono t)
  then exists x, snapshot = Some x /\ fresh_profit t p (ps_pnl x) else forall q, ~ fresh_profit t p q.
Proof.
  unfold snapshot_fresh, fresh_profit. destruct (tk_pair_pnl _ _ _) as [x|]; [|by intros q (x & ? & _)].
  destruct (ps_all_legs_marked x) eqn:M; simpl; [|intros q (y & [= <-] & _ & F & _); congruence].
  destruct (Qltb_spec 0 (ps_updated_at_mono x)); simpl;
    [|intros q (y & [= <-] & _ & _ & F & _); lra].
  destruct (Qleb_spec (fl (tk_mono t - ps_updated_at_mono x)) (mc_max_pnl_staleness_sec cfg)); simpl.
  - exists x. split; [done|]. exists x. split_and!; done.
  - intros z (y & [= <-] & _ & _ & _ & F). lra.
Qed.

(** The daily rules of an account, on what its open pairs show and what it
    realised since the open. *)
Definition daily_rule (t : Tick) (since : Z) (rows : list PositionModel) (m : PositionTable) (a : Z) (x : RiskAccount)
    (reason : ExitReason) : Prop :=
  exists profits,
    Forall2 (profit_seen t) (List.filter (fun p => (p_account_id p =? a)%Z) rows) profits
    /\ let total := dadd (fold_left dadd profits 0) (sum_realised_closed_since a since m) in
       let k := account_params x in
       let stop := stop_hit (rk_daily_stop k) (rk_daily_stop_unit k) (rk_total_margin k) total in
       let target := target_hit (rk_daily_target k) (rk_daily_target_unit k) (rk_total_margin k) total in
       reason = ACCOUNT_STOP /\ (exists level, stop level)
       \/ reason = ACCOUNT_TARGET /\ (forall level, ~ stop level) /\ exists level, target level.
Definition seen_profit (t : Tick) (p : PositionModel) : Q :=
  match tk_pair_pnl t (p_account_id p) (p_trade_id p) with
  | Some x => if snapshot_fresh cfg (Some x) (tk_mono t) then ps_pnl x else p_live_pnl p
  | None => p_live_pnl p
  end.
Lemma seen_profit_spec t p : profit_seen t p (seen_profit t p).
Proof.
  pose proof (fresh_spec t p) as F. cbv zeta in F. unfold seen_profit.
  destruct (tk_pair_pnl _ _ _) as [x|]; [|by right].
  destruct (snapshot_fresh _ _ _); [|by right]. destruct F as (y & [= <-] & F). by left.
Qed.
Lemma session_pnl_seen t a l :
  Forall (fun p => p_account_id p = a) l ->
  session_pnl cfg t a l = fold_left dadd (map (seen_profit t) l) 0.
Proof.
  unfold session_pnl. generalize 0. intros z F. revert z. induction F as [|p l <- F IH]; intros z; [done|].
  cbn [fold_left map]. rewrite <- IH. f_equal. unfold seen_profit.
  destruct (tk_pair_pnl _ _ _) as [x|]; [|done]. by destruct (snapshot_fresh _ _ _).
Qed.
Lemma account_decision_rule t since rows a x w d :
  account_decision cfg t since rows a x w = Some d ->
  daily_rule t since rows (ks_positions (rw_kill w)) a x (ed_reason d).
Proof.
  unfold account_decision. cbv zeta. rewrite session_pnl_seen.
  2: { apply Forall_forall. intros p [_ E]%list_elem_of_In%filter_In. by apply Z.eqb_eq. }
  intros D. exists (map (seen_profit t) (List.filter (fun p => (p_account_id p =? a)%Z) rows)). split.
  { generalize (List.filter (fun p => (p_account_id p =? a)%Z) rows). intros l.
    induction l; constructor; [apply seen_profit_spec|done]. }
  revert D. generalize (dadd (fold_left dadd (map (seen_profit t)
    (List.filter (fun p => (p_account_id p =? a)%Z) rows)) 0) (sum_realised_closed_since a since (ks_positions (rw_kill w)))).
  intros total D. cbv zeta. destruct (evaluate_account_risk_exact (account_params x) total (ed_threshold d))
    as (St & Ta & _). unfold stop_hit, target_hit in *.
  assert (ed_pnl d = total /\ (ed_reason d = ACCOUNT_STOP \/ ed_reason d = ACCOUNT_TARGET)) as [Ep Er].
  { unfold evaluate_account_risk in D. repeat (case_match; simplify_eq/=; auto). }
  destruct d as [re th pn]. simpl in *. subst pn. destruct Er as [-> | ->]; [left|right].
  - split; [done|]. exists th. by apply St.
  - split; [done|]. destruct (proj1 Ta D) as [N T]. split; [exact N|by exists th].
Qed.

(** A square-off rests on the daily rules of an account that checks them, is not
    armed and not paused when the tick begins. *)
Definition squares_off (t : Tick) (open_et : Z) (rows : list PositionModel) (s : RiskRun) (c : Call) : Prop :=
  exists a x reason f, c = CallSquareOff a reason f /\ ra_account_risk_enabled x = true
    /\ rw_accounts (rs_world s) !! a = Some x
    /\ (a ∉ ks_cache (rw_kill (rs_world s))) /\ (a ∉ ps_cache (rw_pause (rs_world s)))
    /\ daily_rule t (to_utc open_et) rows (ks_positions (rw_kill (rs_world s))) a x reason.

(** A pair's own rules: on a fresh profit, or the time limit without one. *)
Definition pair_rule (t : Tick) (p : PositionModel) (d : ExitDecision) : Prop :=
  let now := {| mo_wall := tk_now t; mo_offset := Some 0%Z |} in
  (exists q, fresh_profit t p q /\ pair_decision (pair_params p) q now (Some d))
  \/ (forall q, ~ fresh_profit t p q) /\ ed_reason d = PAIR_TIME_LIMIT
     /\ pair_decision (pair_params p) 0 now (Some d).
Lemma pair_exit_rule t p d : pair_exit cfg t p = Ok (Some d) -> pair_rule t p d.
Proof.
  pose proof (fresh_spec t p) as F. cbv zeta in F. unfold pair_exit, pair_rule. cbv zeta.
  destruct (snapshot_fresh _ _ _).
  - destruct F as (x & -> & F). intros D. left. exists (ps_pnl x). split; [done|].
    pose proof (evaluate_pair_exit_exact (pair_params p) (ps_pnl x) {| mo_wall := tk_now t; mo_offset := Some 0%Z |}) as X.
    by rewrite D in X.
  - intros ([e|] & D & H)%rbind_ok; [|done]. right. split; [exact F|].
    pose proof (evaluate_pair_exit_exact (pair_params p) 0 {| mo_wall := tk_now t; mo_offset := Some 0%Z |}) as X.
    rewrite D in X. destruct (ed_reason e) eqn:R; try done. injection H as <-. done.
Qed.

(** No close of the pair is under way, it is not given up, and its back-off is
    over. *)
Record ready_to_close (s : RiskRun) (key : PairKey) (mono : Q) : Prop := {
  rc_inflight : key ∉ mn_inflight_pairs (rs_monitor s);
  rc_exhausted : key ∉ mn_pair_exhausted (rs_monitor s);
  rc_backoff : forall n until, mn_pair_failures (rs_monitor s) !! key = Some (n, until) -> until <= mono
}.
Lemma ready_spec s key mono : ready s key mono = true -> ready_to_close s key mono.
Proof.
  unfold ready, pair_ready. intros [N%negb_true_iff%orb_false_iff F]%andb_true_iff.
  destruct N as [N1%bool_decide_eq_false_1 N2%bool_decide_eq_false_1]. constructor; [done|done|]. intros n u E. rewrite E in F.
  apply negb_true_iff in F. destruct (Qltb_spec mono u); [done|lra].
Qed.

(** The run after the accounts were judged, and the accounts in breach. *)
Definition after_accounts (t : Tick) (open_et : Z) (rows : list PositionModel) (s : RiskRun) : RiskRun * gset Z :=
  fold_left (evaluate_account to_utc str_dec cfg t open_et rows) (by_account_id (rw_accounts (rs_world s))) (s, ∅).
(** A close rests on a pair's own rules: the pair was open and ready when the
    tick began, its account is not in breach, and when its turn came -- after
    the pairs before it -- the account was not armed. *)
Definition closes_pair (t : Tick) (breached : gset Z) (rows : list PositionModel) (s : RiskRun) (c : Call) : Prop :=
  exists earlier p later s1 d answer, rows = earlier ++ p :: later
    /\ c = CallClose (p_account_id p) (p_trade_id p) (ed_reason d) answer
    /\ p_exit_automation_enabled p = true
    /\ (p_account_id p ∉ breached)
    /\ evaluate_rows str_dec cfg t breached earlier s = (s1, Ok tt)
    /\ (p_account_id p ∉ ks_cache (rw_kill (rs_world s1)))
    /\ ready_to_close s (row_key p) (tk_mono t) /\ pair_rule t p d.
(** What judging accounts leaves alone. *)
Record same_guards (s s' : RiskRun) : Prop := {
  sg_retries : same_retries s s';
  sg_pause : rw_pause (rs_world s') = rw_pause (rs_world s);
  sg_cache : ks_cache (rw_kill (rs_world s)) ⊆ ks_cache (rw_kill (rs_world s'));
  sg_realised : forall a u, realised s' a u = realised s a u
}.
Lemma same_guards_refl s : same_guards s s.
Proof. by constructor. Qed.
Lemma same_guards_trans s1 s2 s3 : same_guards s1 s2 -> same_guards s2 s3 -> same_guards s1 s3.
Proof.
  intros [[] ? ? R1] [[] ? ? R2]. constructor; [constructor; congruence|congruence|by etrans|].
  intros a u. by rewrite R2, R1.
Qed.
Lemma breach_same_guards t a day d s : same_guards s (breach_step t a day d s).
Proof.
  destruct (breach_guards t a day d s) as [P C]. constructor; [apply breach_step_spec|done|done|].
  intros b u. apply breach_realised.
Qed.
Definition account_call (t : Tick) (open_et : Z) (rows : list PositionModel) (s : RiskRun) (a : Z) (x : RiskAccount)
    (c : Call) : Prop :=
  exists reason f, c = CallSquareOff a reason f /\ ra_account_risk_enabled x = true
    /\ (a ∉ ks_cache (rw_kill (rs_world s))) /\ (a ∉ ps_cache (rw_pause (rs_world s)))
    /\ daily_rule t (to_utc open_et) rows (ks_positions (rw_kill (rs_world s))) a x reason.
Lemma account_call_before t open_et rows s s' a x c :
  same_guards s s' -> account_call t open_et rows s' a x c -> account_call t open_et rows s a x c.
Proof.
  intros [_ P C R] (reason & f & -> & En & K & N & D). exists reason, f. rewrite P in N.
  split_and!; [done|done|set_solver|done|]. unfold daily_rule in *. specialize (R a (to_utc open_et)).
  unfold realised in R. by rewrite R in D.
Qed.
Lemma account_step t open_et rows s b a x :
  let s' := fst (evaluate_account to_utc str_dec cfg t open_et rows (s, b) (a, x)) in
  same_guards s s' /\ exists new, rs_calls s' = rs_calls s ++ new
    /\ forall c, c ∈ new -> mc_shadow_mode cfg = false /\ account_call t open_et rows s a x c.
Proof.
  intros s'. subst s'. unfold evaluate_account.
  assert (Nil : same_guards s s /\ exists new, rs_calls s = rs_calls s ++ new
      /\ forall c, c ∈ new -> mc_shadow_mode cfg = false /\ account_call t open_et rows s a x c).
  { split; [apply same_guards_refl|]. exists []. rewrite app_nil_r. split; [done|]. intros c I. by apply not_elem_of_nil in I. }
  destruct (is_account_kill_switch_active _ _) eqn:K; [done|]. destruct (is_account_trading_paused _ _) eqn:P; [done|].
  destruct (bool_decide _); [done|]. destruct (ra_account_risk_enabled x) eqn:En; [|done]. cbn [negb].
  destruct (account_decision _ _ _ _ _ _ _) as [d|] eqn:D; [|done]. cbn [fst].
  split; [apply breach_same_guards|].
  destruct (breach_step_spec t a (open_et / day_us)%Z d s) as [_ (new & E & N)]. exists new. split; [exact E|].
  intros c I. destruct N as [->|(Sh & f & ->)]; [by apply not_elem_of_nil in I|].
  apply list_elem_of_singleton in I as ->. split; [done|]. exists (ed_reason d), f.
  split_and!; [done|done|by apply bool_decide_eq_false_1 in K|by apply bool_decide_eq_false_1 in P|].
  by apply account_decision_rule.
Qed.
Lemma accounts_calls t open_et rows l acc :
  let acc' := fold_left (evaluate_account to_utc str_dec cfg t open_et rows) l acc in
  same_guards (fst acc) (fst acc')
  /\ exists new, rs_calls (fst acc') = rs_calls (fst acc) ++ new
       /\ forall c, c ∈ new -> mc_shadow_mode cfg = false
            /\ exists a x, (a, x) ∈ l /\ account_call t open_et rows (fst acc) a x c.
Proof.
  revert acc. induction l as [|[a x] l IH]; intros [s b]; cbn [fold_left].
  { split; [apply same_guards_refl|]. exists []. rewrite app_nil_r. split; [done|]. intros c I. by apply not_elem_of_nil in I. }
  destruct (account_step t open_et rows s b a x) as (G & new & E & J).
  destruct (evaluate_account _ _ _ _ _ _ _ _) as [s1 b1]. cbn [fst] in *.
  destruct (IH (s1, b1)) as (G' & new' & E' & J'). cbn [fst] in *.
  split; [by eapply same_guards_trans|]. exists (new ++ new'). rewrite E', E, app_assoc. split; [done|].
  intros c [I|I]%elem_of_app.
  - destruct (J c I) as [Sh C]. split; [done|]. exists a, x. split; [by left|done].
  - destruct (J' c I) as (Sh & a' & x' & Il & C). split; [done|]. exists a', x'. split; [by right|].
    by eapply account_call_before.
Qed.

Lemma ready_before s s1 key mono : ready s1 key mono = ready s key mono -> ready s1 key mono = true ->
  ready_to_close s key mono.
Proof. intros E R. apply ready_spec. congruence. Qed.
Lemma rows_calls t breached l s :
  NoDup (map row_key l) ->
  exists new, rs_calls (fst (evaluate_rows str_dec cfg t breached l s)) = rs_calls s ++ new
    /\ forall c, c ∈ new -> mc_shadow_mode cfg = false /\ closes_pair t breached l s c.
Proof.
  revert s. induction l as [|p l IH]; intros s D; cbn [evaluate_rows].
  { exists []. rewrite app_nil_r. split; [done|]. intros c I. by apply not_elem_of_nil in I. }
  apply NoDup_cons in D as [D1 D2].
  destruct (evaluate_row _ _ _ _ _ _) as [s1|e] eqn:E; cycle 1.
  { exists []. rewrite app_nil_r. split; [done|]. intros c I. by apply not_elem_of_nil in I. }
  destruct (IH s1 D2) as (new & En & J).
  assert (Weak : (forall q, q ∈ l -> ready s1 (row_key q) (tk_mono t) = ready s (row_key q) (tk_mono t)) ->
    forall c, closes_pair t breached l s1 c -> closes_pair t breached (p :: l) s c).
  { intros R c (e & q & f & s2 & d & r & -> & -> & A & B & Ev & K & [R1 R2 R3] & X).
    exists (p :: e), q, f, s2, d, r. split_and!; try done; [cbn [evaluate_rows]; by rewrite E|].
    apply (ready_before s s1); [apply R; set_solver|]. unfold ready, pair_ready.
    rewrite !bool_decide_eq_false_2 by done. simpl.
    destruct (mn_pair_failures (rs_monitor s1) !! row_key q) as [[n u]|] eqn:F; [|done].
    specialize (R3 n u eq_refl). destruct (Qltb_spec (tk_mono t) u); [lra|done]. }
  pose proof E as E0. apply evaluate_row_spec in E as [->|(d & Bn & A & Kn & R & X & ->)].
  { exists new. split; [exact En|]. intros c I. destruct (J c I) as [Sh C]. split; [exact Sh|]. by apply Weak. }
  destruct (mc_shadow_mode cfg) eqn:Sh.
  { exists new. rewrite En. destruct (exit_step_shadow t (p_account_id p) (p_trade_id p) d s Sh) as [_ ->].
    split; [done|]. intros c I. by destruct (J c I). }
  destruct (exit_step_done t (p_account_id p) (p_trade_id p) d s Sh) as [r [Ec Eo _]].
  eexists (_ :: new). rewrite En, Ec, <- app_assoc. split; [done|]. intros c I. split; [done|].
  apply elem_of_cons in I as [->|I].
  - exists [], p, l, s, d, r. split_and!; try done; [by apply bool_decide_eq_false_1 in Kn|by apply ready_spec|].
    by apply pair_exit_rule.
  - apply Weak; [|by apply J]. intros q Iq. apply Eo. intros N. apply D1.
    apply list_elem_of_In, in_map_iff. exists q. split; [exact N|by apply list_elem_of_In].
Qed.

Lemma by_account_elem m a x : (a, x) ∈ by_account_id m -> m !! a = Some x.
Proof. unfold by_account_id. rewrite sort_by_perm. apply elem_of_map_to_list. Qed.
Lemma rows_nodup (m : PositionTable) : keyed m -> NoDup (map row_key (list_open m)).
Proof.
  intros K. unfold list_open, rows. assert (D : NoDup (map_to_list m).*1) by apply NoDup_fst_map_to_list.
  assert (F : forall x, x ∈ map_to_list m -> row_key (snd x) = fst x)
    by (intros [k q] I%elem_of_map_to_list; by apply K).
  induction (map_to_list m) as [|[k q] l IH]; [apply NoDup_nil_2|]. apply NoDup_cons in D as [D1 D2].
  assert (IH' := IH D2 (fun x I => F x (list_elem_of_further _ _ _ I))). cbn [map List.filter snd].
  destruct (in_state _ q); [|exact IH']. cbn [map]. apply NoDup_cons. split; [|exact IH'].
  intros I%list_elem_of_In. apply in_map_iff in I as (q' & E & I). apply list_elem_of_In, filter_elem in I as [I _].
  apply list_elem_of_In, in_map_iff in I as ([k' r] & <- & I%list_elem_of_In). apply D1, list_elem_of_fmap.
  exists (k', r). split; [|done]. pose proof (F (k', r) (list_elem_of_further _ _ _ I)) as E1.
  pose proof (F (k, q) (list_elem_of_here _ _)) as E2. simpl in *. congruence.
Qed.
End MonitorFacts.

(** The session a tick falls into, told by its open. *)
Definition session_open (rth_open rth_close : Z -> result (option Z)) (to_et : Z -> Z) (t : Tick) (open_et : Z) : Prop :=
  exists close, rth_open (to_et (tk_now t) / day_us)%Z = Ok (Some open_et)
    /\ rth_close (to_et (tk_now t) / day_us)%Z = Ok (Some close)
    /\ (open_et <= to_et (tk_now t) < close)%Z.
Lemma in_rth_open rth_open rth_close to_et t o :
  in_rth rth_open rth_close to_et (tk_now t) = Ok (Some o) -> session_open rth_open rth_close to_et t o.
Proof.
  unfold in_rth. cbv zeta. intros (x & Ex & (y & Ey & H)%rbind_ok)%rbind_ok.
  destruct x as [x|], y as [y|]; try done. destruct (_ && _) eqn:B; [|done]. injection H as <-.
  exists y. bool_to_prop. split_and!; [done|done|lia|lia].
Qed.

(** C32: The monitor acts on its rules only.  Whatever a tick calls, it is
    enabled and not in shadow mode, the broker is connected and the tick falls
    into a session.  A square-off is of an account that checks its daily rules
    and is neither armed nor paused when the tick begins: the profits of its
    open pairs -- fresh ones where every leg has a mark that is not too old,
    else the stored ones -- and what it realised since the open have reached
    its daily stop, or its target and not its stop.  A close is of an open pair
    with automation, whose account is not squared off and, when its turn came,
    not armed; no close of it was under way, it is not given up and its
    back-off is over; and either it has a fresh profit, and this is the first
    of its stop, target and time limit that applies, or it has none, and its
    time limit is reached while a profit of zero reaches neither its stop nor
    its target. *)
Theorem monitor_exits_justified (rth_open rth_close : Z -> result (option Z)) (to_et to_utc : Z -> Z)
    (str_dec : Q -> string) (cfg : MonitorConfig) (t : Tick) (s : RiskRun) :
  keyed (ks_positions (rw_kill (rs_world s))) ->
  let rows := list_open (ks_positions (rw_kill (rs_world s))) in
  exists new, rs_calls (fst (monitor_once rth_open rth_close to_et to_utc str_dec cfg t s)) = rs_calls s ++ new
  /\ forall c, c ∈ new ->
       mc_enabled cfg = true /\ mc_shadow_mode cfg = false /\ tk_connected t = true
       /\ exists open_et, session_open rth_open rth_close to_et t open_et
            /\ let x := after_accounts to_utc str_dec cfg t open_et rows s in
               squares_off to_utc cfg t open_et rows s c \/ closes_pair str_dec cfg t x.2 rows x.1 c.
Proof.
  intros K rows. assert (Nil : exists new, rs_calls s = rs_calls s ++ new /\ forall c : Call, c ∈ new -> False).
  { exists []. rewrite app_nil_r. split; [done|]. intros c I. by apply not_elem_of_nil in I. }
  destruct Nil as (nil & En & Nil). unfold monitor_once.
  destruct (mc_enabled cfg); [|exists nil; split; [done|by intros c I%Nil]].
  destruct (tk_connected t); [|exists nil; split; [done|by intros c I%Nil]].
  destruct (in_rth _ _ _ _) as [[o|]|e] eqn:Rth; cbn [negb];
    [|exists nil; split; [done|by intros c I%Nil]|exists nil; split; [done|by intros c I%Nil]].
  apply in_rth_open in Rth. unfold evaluate. fold rows. cbv zeta.
  destruct (accounts_calls rth_open rth_close to_et to_utc str_dec cfg t o rows (by_account_id (rw_accounts (rs_world s))) (s, ∅))
    as (_ & n1 & E1 & J1).
  change (fold_left _ (by_account_id (rw_accounts (rs_world s))) (s, ∅))
    with (after_accounts to_utc str_dec cfg t o rows s) in *.
  destruct (after_accounts to_utc str_dec cfg t o rows s) as [s1 b] eqn:Aft. cbn [fst] in *.
  destruct (rows_calls rth_open rth_close to_et to_utc str_dec cfg t b rows s1) as (n2 & E2 & J2); [by apply rows_nodup|].
  exists (n1 ++ n2). rewrite E2, E1, app_assoc. split; [done|]. intros c [I|I]%elem_of_app.
  - destruct (J1 c I) as (Sh & a & x & Ia & reason & f & -> & Ra & Ks & P & D). split_and!; [done|done|done|].
    exists o. split; [done|]. left. exists a, x, reason, f. split_and!; try done. by apply by_account_elem.
  - destruct (J2 c I) as (Sh & C). split_and!; [done|done|done|]. exists o. split; [done|]. right. by rewrite Aft.
Qed.

(** C36: Failing closes end: over any run of the monitor, whatever the closes do,
    the closes of a pair never fail more often in a row than [max_retries], and
    a pair whose closes failed that often is never tried again -- no later tick
    of the process closes it, however its profit develops. *)
Theorem exit_attempts_bounded (rth_open rth_close : Z -> result (option Z)) (to_et to_utc : Z -> Z)
    (str_dec : Q -> string) (cfg : MonitorConfig) (w : RiskWorld) (ticks later : list Tick) (key : PairKey) :
  let run l := monitor_loop rth_open rth_close to_et to_utc str_dec cfg l
                 {| rs_monitor := new_monitor; rs_world := w; rs_calls := [] |} in
  let n := failures_in_a_row key (rs_calls (run ticks)) in
  (n <= retry_bound cfg)%Z
  /\ (n = retry_bound cfg -> closes_of key (rs_calls (run (ticks ++ later))) = closes_of key (rs_calls (run ticks))).
Proof.
  intros run n. assert (C : counts_right cfg (run ticks)).
  { apply loop_counts. intros k. unfold remembered, retry_bound. simpl. rewrite lookup_empty. 
    rewrite bool_decide_eq_false_2 by set_solver. change (failures_in_a_row k []) with 0%Z. split; [lia|done]. }
  specialize (C key). fold n in C. cbv zeta in C. destruct (snd _) eqn:G.
  - split; [lia|]. intros _. subst run. cbv beta in *. unfold monitor_loop. rewrite fold_left_app.
    by apply (given_up_stays _ _ _ _ _ _ key _ later).
  - split; lia.
Qed.

(** ** Examples *)
Definition ex_auto (stop : Q) : PositionModel := {|
  p_account_id := 7; p_trade_id := "T1"; p_strategy_id := "model_blue"; p_leg_a_symbol := "SPY";
  p_leg_a_signed_qty := 10; p_leg_a_entry_mark := 500; p_leg_b_symbol := Some "QQQ"%string;
  p_leg_b_signed_qty := Some (-12)%Q; p_leg_b_entry_mark := Some 400%Q; p_realised_pnl := 0;
  p_commission := 0; p_live_pnl := 0; p_target := 500; p_stop := stop; p_time_limit := 5;
  p_target_unit := "ABSOLUTE"; p_stop_unit := "ABSOLUTE"; p_exit_reason := None;
  p_exit_automation_enabled := true; p_leg_a_instrument_type := "STK";
  p_leg_b_instrument_type := Some "STK"%string; p_opened_at := 10; p_closed_at := None;
  p_risk_state := RISK_STATE_OPEN |}.
Definition ex_monitor_cfg (shadow : bool) : MonitorConfig := {|
  mc_enabled := true; mc_shadow_mode := shadow; mc_max_pnl_staleness_sec := 15; mc_max_retries := 3 |}.
Definition ex_account (stop : Q) : RiskAccount := {|
  ra_account_risk_enabled := true; ra_daily_target := None; ra_daily_stop := Some stop;
  ra_daily_target_unit := "ABSOLUTE"; ra_daily_stop_unit := "ABSOLUTE"; ra_total_margin := 100000 |}.
Definition ex_risk_world (stop daily : Q) : RiskWorld := {|
  rw_kill := set_ks_positions {[ (7, "T1"%string) := ex_auto stop ]}%Z ex_kill;
  rw_pause := {| ps_rows := ∅; ps_cache := ∅ |}; rw_accounts := {[ 7%Z := ex_account daily ]}; rw_events := [] |}.
Definition ex_tick (mono pnl : Q) (answer : PairClose) : Tick := {|
  tk_now := 40; tk_mono := mono; tk_connected := true;
  tk_pair_pnl := fun _ _ => Some {| ps_pnl := pnl; ps_updated_at_mono := mono; ps_all_legs_marked := true |};
  tk_event_written := fun _ => true;
  tk_square_off := fun _ => {| sq_id := 1; sq_reason_commits := true; sq_commits := true |};
  tk_close_pair := fun _ _ _ w => (w, answer); tk_mono_after := fun _ _ => mono |}.
Definition ex_stale_tick (mono : Q) : Tick := {|
  tk_now := 40 * second; tk_mono := mono; tk_connected := true; tk_pair_pnl := fun _ _ => None;
  tk_event_written := fun _ => true;
  tk_square_off := fun _ => {| sq_id := 1; sq_reason_commits := true; sq_commits := true |};
  tk_close_pair := fun _ _ _ w => (w, PairResponse PAIR_CLOSED); tk_mono_after := fun _ _ => mono |}.
Definition ex_monitor (shadow : bool) (stop daily : Q) (ticks : list Tick) : RiskRun :=
  monitor_loop (fun _ => Ok (Some 0%Z)) (fun _ => Ok (Some day_us)) id id (fun _ => "x"%string) (ex_monitor_cfg shadow)
    ticks {| rs_monitor := new_monitor; rs_world := ex_risk_world stop daily; rs_calls := [] |}.
(** Three refused closes, two of them after the back-off; the fourth tick, and
    every later one, leaves the pair to its losses.  A close that is refused
    because the pair is being flattened counts like any other. *)
Example pair_given_up :
  let refused mono := ex_tick mono (-400) (PairRefused 409) in
  let calls l := length (rs_calls (ex_monitor false (-300) (-100000) l)) in
  calls [refused 100; refused 101; refused 103; refused 108] = 3%nat
  /\ calls [refused 100; refused 101; refused 103; refused 108; ex_tick 200 (-9000) (PairResponse PAIR_CLOSED);
            ex_tick 300 (-9000) (PairResponse PAIR_CLOSED)] = 3%nat.
Proof. by vm_compute. Qed.
(** A broken daily stop arms the account and hands its flatten to the worker. *)
Example breach_squares_off :
  let s := ex_monitor false (-300) (-200) [ex_tick 100 (-250) (PairResponse PAIR_CLOSED)] in
  rs_calls s = [CallSquareOff 7 ACCOUNT_STOP (Some 1%Z)]
  /\ is_account_kill_switch_active (rw_kill (rs_world s)) 7 = true.
Proof. by vm_compute. Qed.
Example shadow_only_watches :
  let s := ex_monitor true (-300) (-200) [ex_tick 100 (-400) (PairResponse PAIR_CLOSED)] in
  rs_calls s = [] /\ length (rw_events (rs_world s)) = 1%nat.
Proof. by vm_compute. Qed.
(** Without a fresh profit the rules are asked with a profit of zero, and the
    first one that applies is taken: a stop at or above zero hides the time
    limit, which then closes nothing. *)
Example stop_hides_time_limit :
  let exit stop := pair_exit (ex_monitor_cfg false) (ex_stale_tick 100) (ex_auto stop) in
  (exists d, exit (-300) = Ok (Some d) /\ ed_reason d = PAIR_TIME_LIMIT) /\ exit 0 = Ok None.
Proof. split; [eexists; split; [vm_compute; reflexivity|done]|by vm_compute]. Qed.

Lemma monitor_exits_justified_witness :
  exists p d, p = ex_auto (-300) /\ ed_reason d = PAIR_STOP
    /\ pair_rule (ex_monitor_cfg false) (ex_tick 100 (-400) (PairResponse PAIR_CLOSED)) p d.
Proof.
  destruct (monitor_exits_justified (fun _ => Ok (Some 0%Z)) (fun _ => Ok (Some day_us)) id id (fun _ => "x"%string)
    (ex_monitor_cfg false) (ex_tick 100 (-400) (PairResponse PAIR_CLOSED))
    {| rs_monitor := new_monitor; rs_world := ex_risk_world (-300) (-1000); rs_calls := [] |}) as (new & E & J).
  - intros k p L. simpl in L. by apply lookup_singleton_Some in L as [<- <-].
  - assert (I : CallClose 7 "T1" PAIR_STOP (PairResponse PAIR_CLOSED) ∈ new).
    { assert (E' : new = [CallClose 7 "T1" PAIR_STOP (PairResponse PAIR_CLOSED)]) by (change new with ([] ++ new); etrans; [symmetry; exact E|by vm_compute]).
      rewrite E'. by left. }
    destruct (J _ I) as (_ & _ & _ & o & _ & [(a & x & d & f & F & _)|(e & p & l & s1 & d & r & Er & F & _ & _ & _ & _ & _ & X)]);
      [discriminate F|].
    exists p, d. injection F as _ _ Fd _. split_and!; [|symmetry; exact Fd|exact X].
    assert (El : list_open (ks_positions (rw_kill (ex_risk_world (-300) (-1000)))) = [ex_auto (-300)]) by (by vm_compute).
    change (list_open _) with (list_open (ks_positions (rw_kill (ex_risk_world (-300) (-1000))))) in Er.
    rewrite El in Er. clear - Er. destruct e as [|y [|z e]]; [by injection Er as <- _|by injection Er as _ Er|by injection Er as _ Er].
Defined.
