(* ===== verification/CriticalRecovery.v ===== *)
(** * Recovery from critical baskets: [services/critical_recovery.py] and
    [services/broker_flatten_service.py], with the latch of
    [oms/coordinator.py]

    A basket that could not be completed or unwound latches its account and
    strategy against opens.  The recovery flattens at the broker what the
    basket filled and drops the latch when a snapshot shows it flat.  The
    broker's answers, and what other sessions write while orders work, are
    given; dashes of messages are ASCII. *)

From S2P Require Import Prelude Rounding PyText PyTime Identifiers RmsModels Instruments Parser Sizer Accounts TradeBook Strategy Oms Coordinator JobQueue SignalInbox Positions OrderLedger Persistence ManualLedger KillSwitch EngineFlatten Reconcile ReconcileFacts.

#[local] Open Scope Q_scope.
#[local] Open Scope py_scope.
#[local] Set Warnings "-clear-no-such-hyp".

Definition MAX_RECOVERY_ATTEMPTS : Z := 2.
Record LeftoverLeg : Type := { lo_con_id : Z; lo_symbol : string; lo_sec_type : string }.
(** The tables, and the latch of the coordinator. *)
Record CriticalWorld : Type := { cw_rows : ReconcileWorld; cw_critical : gset (Z * string) }.
Definition set_cw_rows (r : ReconcileWorld) (w : CriticalWorld) : CriticalWorld := {|
  cw_rows := r; cw_critical := cw_critical w |}.
Definition with_baskets (baskets : BasketTable) (events : list EventRow) (w : ReconcileWorld) : ReconcileWorld := {|
  rw_accounts := rw_accounts w; rw_instruments := rw_instruments w; rw_positions := rw_positions w;
  rw_manual := rw_manual w; rw_orders := rw_orders w; rw_baskets := baskets; rw_jobs := rw_jobs w;
  rw_snapshot := rw_snapshot w; rw_runs := rw_runs w; rw_events := events; rw_active := rw_active w;
  rw_pending := rw_pending w |}.
Definition ibkr_of (account : Z) (w : CriticalWorld) : option string :=
  option_map ar_ibkr_account (List.find (fun a => (ar_id a =? account)%Z) (rw_accounts (cw_rows w))).
Definition get_snapshot_line (ibkr : string) (con : Z) (w : CriticalWorld) : option BrokerPositionRow :=
  rw_snapshot (cw_rows w) !! (ibkr, con).

(** ** [BrokerFlattenService] *)
Inductive FlattenStatus : Type := LINE_FLAT | LINE_PARTIAL | LINE_FAILED.
Definition flatten_status_text (s : FlattenStatus) : string :=
  match s with LINE_FLAT => "FLAT" | LINE_PARTIAL => "PARTIAL" | LINE_FAILED => "FAILED" end.
Inductive FlattenAnswer : Type :=
  | FlattenRefused (status_code : Z) (detail : string)
  | FlattenRaises (e : exn)
  | FlattenResponse (status : FlattenStatus) (message : string).
(** What the coordinator answers to an intent, and the tables and the latch
    then. *)
Record Sent : Type := { se_result : result (list OMSOrder); se_after : CriticalWorld -> CriticalWorld }.

Definition order_filled (o : OMSOrder) : bool := bool_decide (o_status o = FILLED).
Definition line_status (orders : list OMSOrder) : FlattenStatus * string :=
  let fills := fill_orders orders in
  if negb (bool_decide (fills = [])) && forallb order_filled fills
  then (LINE_FLAT, "Broker line flattened successfully."%string)
  else if existsb order_filled fills || existsb (fun o => 0 <? filled_quantity o) fills
  then (LINE_PARTIAL, "Broker flatten partially filled."%string)
  else (LINE_FAILED, "Broker flatten did not fill."%string).
Definition line_intent (now : Z) (ibkr : string) (account : option Z) (symbol sec_type : string) (con : Z) (side : OrderSide)
    (qty : Q) (exchange currency : string) : OrderIntent := {|
  signal_id := "RECON-FLAT-" ++ str_Z con; strategy_id := "reconcile_flatten"; action := CLOSE;
  legs := [{| leg_symbol := symbol; leg_side := side; leg_quantity := NFloat qty; leg_price := 0;
              leg_contract_month := None; leg_con_id := Some con; leg_notional := None;
              leg_instrument_type := Some sec_type; leg_weight := None; leg_leg_index := Some 0%Z;
              leg_metadata := None; leg_exchange := if str_empty exchange then None else Some exchange;
              leg_currency := if str_empty currency then None else Some currency; leg_resolved := None |}];
  account_id := account; ibkr_account := Some ibkr; market := None; timestamp := now;
  intent_mode := EMERGENCY_FLATTEN |}.
(** The positions of the account in the symbol, of the engine and of the desk. *)
Definition flatten_keys (ibkr : string) (con : Z) (account : option Z) (symbol : string)
    (open_rows : list PositionModel) (manual : list ManualPosition) : list FlattenKey :=
  broker_flatten_key ibkr con
  :: match account with
     | None => []
     | Some a =>
         map (fun p => ledger_key a (p_trade_id p))
           (List.filter (fun p => (p_account_id p =? a)%Z
              && existsb (String.eqb symbol) [norm_text (p_leg_a_symbol p); norm_text (opt_str (p_leg_b_symbol p))]) open_rows)
         ++ map (fun m => ledger_key a (mp_trade_id m))
              (List.filter (fun m => String.eqb (norm_text (mp_symbol m)) symbol) manual)
     end.

Section Recovery.
Variable resolve_instruments : OrderIntent -> result OrderIntent.
(** The text of a refusal or an exception, as an f-string shows it. *)
Variable error_text : FlattenAnswer -> string.

Section Line.
Variable execute : OrderIntent -> Sent.

Definition submit_flatten_line (now : Z) (ibkr : string) (account : option Z) (symbol sec_type : string) (con : Z)
    (side : OrderSide) (qty : Q) (exchange currency : string) (w : CriticalWorld) : CriticalWorld * FlattenAnswer :=
  match resolve_instruments (line_intent now ibkr account symbol sec_type con side qty exchange currency) with
  | Raise e => (w, FlattenRaises e)
  | Ok intent =>
      let x := execute intent in
      (se_after x w, match se_result x with
                     | Ok orders => let '(s, m) := line_status orders in FlattenResponse s m
                     | Raise e => FlattenResponse LINE_FAILED ("Execution error: " ++ error_text (FlattenRaises e))
                     end)
  end.
Definition do_flatten_line (now : Z) (held : Held) (ibkr symbol sec_type : string) (con : Z) (quantity : Q)
    (w : CriticalWorld) : CriticalWorld * FlattenAnswer :=
  let r := cw_rows w in
  match get_snapshot_line ibkr con w with
  | None => (w, FlattenRefused 404 "Broker snapshot line not found")
  | Some snapshot =>
      let symbol := norm_text symbol in
      let sec_type := norm_text sec_type in
      if negb (String.eqb (norm_text (br_symbol snapshot)) symbol) then (w, FlattenRefused 400 "Symbol mismatch")
      else if negb (String.eqb (norm_text (br_sec_type snapshot)) sec_type) then (w, FlattenRefused 400 "Sec type mismatch")
      else
        let signed := fl (br_signed_qty snapshot) in
        if Qabs signed <=? QTY_EPSILON then (w, FlattenRefused 400 "Broker snapshot quantity is zero; nothing to flatten.")
        else
          let max_qty := Qabs signed in
          if fl (max_qty + QTY_EPSILON) <? quantity then (w, FlattenRefused 400 "Requested quantity exceeds broker snapshot")
          else
            let account := match br_account snapshot with
                           | Some a => Some a
                           | None => option_map ar_id
                                       (List.find (fun a => String.eqb (ar_ibkr_account a) ibkr) (rw_accounts r))
                           end in
            let open_rows := match account with Some _ => list_open (rw_positions r) | None => [] end in
            let manual := match account with
                          | Some a => List.filter (fun m => (mp_account_id m =? a)%Z) (manual_open r)
                          | None => []
                          end in
            let min_qty := match account with
                           | Some a => match ledger_net_qty_for_symbol open_rows (rw_instruments r) a symbol sec_type manual with
                                       | Some q => Qabs q
                                       | None => 0
                                       end
                           | None => 0
                           end in
            if fl (max_qty + QTY_EPSILON) <? min_qty then (w, FlattenRefused 400 "Ledger quantity exceeds broker snapshot")
            else if (QTY_EPSILON <? min_qty) && (quantity <? fl (min_qty - QTY_EPSILON))
            then (w, FlattenRefused 400 "Requested quantity is below ledger net")
            else if negb (snd (acquire_flatten_many (flatten_keys ibkr con account symbol open_rows manual) held))
            then (w, FlattenRefused 409 "Flatten already in progress")
            else submit_flatten_line now ibkr account symbol sec_type con (if 0 <? signed then SELL else BUY) quantity
                   (br_exchange snapshot) (br_currency snapshot) w
  end.
End Line.

(** ** [CriticalRecoveryService] *)
(** What an attempt meets: two snapshots, and the flattens between them. *)
Record SnapshotFetch : Type := { sf_connected : bool; sf_fetched : Fetched; sf_commits : bool }.
Record Attempt : Type := {
  at_now : Z; at_before : SnapshotFetch; at_after : SnapshotFetch; at_held : Held; at_execute : OrderIntent -> Sent
}.

Definition RECOVERY_FILL_EPS : Q := fl (1 # 100000000).
Definition list_by_basket_id (basket : Z) (orders : OrderTable) : list OrderModel :=
  fold_right by_id [] (List.filter (fun o => bool_decide (om_basket_id o = Some basket)) (map snd (map_to_list orders))).
Definition leftover_step (acc : gset Z * list LeftoverLeg) (o : OrderModel) : gset Z * list LeftoverLeg :=
  let '(seen, legs) := acc in
  if om_is_compensation o then acc
  else if fl (default 0 (om_fill_qty o)) <=? RECOVERY_FILL_EPS then acc
  else
    let c := parse_ibkr_contract (om_ibkr_contract o) in
    match ct_con_id c with
    | None => acc
    | Some con =>
        if bool_decide (con ∈ seen) then acc
        else ({[con]} ∪ seen, legs ++ [{| lo_con_id := con; lo_symbol := norm_text (ct_symbol c);
                                          lo_sec_type := norm_text (ct_sec_type c) |}])
    end.
Definition collect_leftover_legs (basket : Z) (orders : OrderTable) : list LeftoverLeg :=
  snd (fold_left leftover_step (list_by_basket_id basket orders) (∅, [])).
Definition fetch_and_persist_snapshot (now : Z) (f : SnapshotFetch) (w : CriticalWorld) : result (CriticalWorld * bool) :=
  if negb (sf_connected f) then Ok (w, false)
  else
    match sf_fetched f with
    | FetchFailed _ => Ok (w, false)
    | FetchedLines _ true => Ok (w, false)
    | FetchedLines lines false =>
        let r := cw_rows w in
        let! snapshot := replace_snapshot now (ibkr_to_account (rw_accounts r)) lines in
        if sf_commits f then Ok (set_cw_rows (with_rows snapshot (rw_runs r) (rw_events r) r) w, true)
        else Raise (OtherError "DatabaseError")
    end.
Definition leg_message (leg : LeftoverLeg) (a : FlattenAnswer) : string :=
  let prefix := ("con_id=" ++ str_Z (lo_con_id leg) ++ ": ")%string in
  match a with
  | FlattenResponse s m => (prefix ++ flatten_status_text s ++ " - " ++ m)%string
  | _ => (prefix ++ "flatten error - " ++ error_text a)%string
  end.
(** One leg: nothing to do, or its whole line at the broker. *)
Definition flatten_leftover (t : Attempt) (ibkr : string) (acc : CriticalWorld * list string) (leg : LeftoverLeg)
    : CriticalWorld * list string :=
  let '(w, messages) := acc in
  let prefix := ("con_id=" ++ str_Z (lo_con_id leg))%string in
  match get_snapshot_line ibkr (lo_con_id leg) w with
  | None => (w, messages ++ [(prefix ++ ": no broker line (already flat).")%string])
  | Some snap =>
      if near_zero (br_signed_qty snap) then (w, messages ++ [(prefix ++ ": snapshot qty ~0.")%string])
      else
        let (w, a) := do_flatten_line (at_execute t) (at_now t) (at_held t) ibkr (lo_symbol leg) (lo_sec_type leg)
                        (lo_con_id leg) (Qabs (fl (br_signed_qty snap))) w in
        (w, messages ++ [leg_message leg a])
  end.
Definition flatten_leftovers (t : Attempt) (ibkr : string) (l : list LeftoverLeg) (w : CriticalWorld)
    : CriticalWorld * list string := fold_left (flatten_leftover t ibkr) l (w, []).
Definition leftover_flat (ibkr : string) (w : CriticalWorld) (leg : LeftoverLeg) : bool :=
  match get_snapshot_line ibkr (lo_con_id leg) w with Some snap => near_zero (br_signed_qty snap) | None => true end.
Definition broker_flat_for_conids (ibkr : string) (l : list LeftoverLeg) (w : CriticalWorld) : bool :=
  forallb (leftover_flat ibkr w) l.

Definition basket_event (kind : string) (detail : list (string * json)) (basket : option Z) (key : string) : EventRow := {|
  ev_process := "basket"; ev_kind := kind; ev_detail := JObj detail; ev_signal_id := None; ev_order_id := None;
  ev_basket_id := basket; ev_key := Some key |}.
Definition key_of (account : Z) (trade : string) (act : OrderAction) : string :=
  (str_Z account ++ ":" ++ trade ++ ":" ++ action_value act)%string.
(** [BasketCoordinator.clear_critical]: one transaction, then the latch, then the event. *)
Definition clear_critical_row (now account : Z) (strategy trade : string) (act : OrderAction) (detail : string)
    (w : CriticalWorld) : CriticalWorld :=
  let r := cw_rows w in
  let '(baskets, row) := update_recovery now account trade act (Some "CLEARED"%string)
        (Some (str_or detail "Broker flat; OPEN latch cleared.")) (Some now) (Some B_RECOVERED) (rw_baskets r) in
  match row with
  | None => w
  | Some row =>
      let e := basket_event "BASKET_CRITICAL_CLEARED"
        [("account_id", JInt account); ("trade_id", JStr trade); ("strategy_id", JStr strategy);
         ("action", JStr (action_value act))]%string (Some (bm_id row))
        ("basket_critical_cleared:" ++ key_of account trade act) in
      {| cw_rows := with_baskets baskets (fst (append_event e (rw_events r))) r;
         cw_critical := if has_critical account strategy baskets then cw_critical w
                        else cw_critical w ∖ {[(account, strategy)]} |}
  end.
Definition mark_failed (now account : Z) (strategy trade : string) (act : OrderAction) (detail : string) (attempt : Z)
    (w : CriticalWorld) : CriticalWorld :=
  let r := cw_rows w in
  let baskets := fst (update_recovery now account trade act (Some "FAILED"%string) (Some detail) None None (rw_baskets r)) in
  let e := basket_event "BASKET_CRITICAL_RECOVERY_FAILED"
    [("account_id", JInt account); ("trade_id", JStr trade); ("strategy_id", JStr strategy);
     ("action", JStr (action_value act)); ("attempt", JInt attempt); ("recovery_detail", JStr detail)]%string None
    ("basket_critical_recovery_failed:" ++ key_of account trade act ++ ":" ++ str_Z attempt) in
  set_cw_rows (with_baskets baskets (fst (append_event e (rw_events r))) r) w.
Definition start_recovering (now account : Z) (trade : string) (act : OrderAction) (attempt : Z) (w : CriticalWorld)
    : CriticalWorld :=
  let r := cw_rows w in
  set_cw_rows (with_baskets (fst (update_recovery now account trade act (Some "RECOVERING"%string)
    (Some ("Recovery attempt " ++ str_Z attempt ++ " started.")%string) None None (rw_baskets r))) (rw_events r) r) w.
Inductive RecoveryOutcome : Type := RecoveryDone | RecoveryRetry.
Definition again (attempt : Z) : RecoveryOutcome :=
  if (attempt <? MAX_RECOVERY_ATTEMPTS)%Z then RecoveryRetry else RecoveryDone.
Definition recover_once (t : Attempt) (account : Z) (trade : string) (act : OrderAction) (strategy : string) (attempt : Z)
    (w : CriticalWorld) : CriticalWorld * result RecoveryOutcome :=
  let fail detail w := (mark_failed (at_now t) account strategy trade act detail attempt w, Ok (again attempt)) in
  match basket_get account trade act (rw_baskets (cw_rows w)), ibkr_of account w with
  | Some row, Some ibkr =>
      if negb (bool_decide (bm_state row = CRITICAL)) then (w, Ok RecoveryDone)
      else
        let w := start_recovering (at_now t) account trade act attempt w in
        let leftovers := collect_leftover_legs (bm_id row) (rw_orders (cw_rows w)) in
        match leftovers with
        | [] => (clear_critical_row (at_now t) account strategy trade act
                   "No filled non-compensation legs; clearing latch." w, Ok RecoveryDone)
        | _ =>
            match fetch_and_persist_snapshot (at_now t) (at_before t) w with
            | Raise e => (w, Raise e)
            | Ok (w, false) => fail "Pre-flatten broker snapshot failed."%string w
            | Ok (w, true) =>
                let '(w, messages) := flatten_leftovers t ibkr leftovers w in
                match fetch_and_persist_snapshot (at_now t) (at_after t) w with
                | Raise e => (w, Raise e)
                | Ok (w, false) => fail "Post-flatten broker snapshot failed."%string w
                | Ok (w, true) =>
                    let detail := String.concat "; " messages in
                    if broker_flat_for_conids ibkr leftovers w
                    then (clear_critical_row (at_now t) account strategy trade act (str_or detail "Broker flat.") w,
                          Ok RecoveryDone)
                    else fail (str_or detail "Broker still has qty.") w
                end
            end
        end
  | _, _ => (w, Ok RecoveryDone)
  end.
(** [_run_recovery]: what an attempt raises is logged, and counts as a retry. *)
Fixpoint run_recovery (attempts : list Attempt) (account : Z) (trade : string) (act : OrderAction) (strategy : string)
    (attempt : Z) (w : CriticalWorld) : CriticalWorld :=
  match attempts with
  | [] => w
  | t :: l =>
      let '(w, r) := recover_once t account trade act strategy attempt w in
      match r with
      | Ok RecoveryDone => w
      | _ => if (MAX_RECOVERY_ATTEMPTS <=? attempt)%Z then w
             else run_recovery l account trade act strategy (attempt + 1) w
      end
  end.
(** At startup every critical basket is latched and its recovery scheduled. *)
Definition hydrate_critical (w : CriticalWorld) : CriticalWorld := {|
  cw_rows := cw_rows w;
  cw_critical := list_to_set (map (fun b => (bm_account_id b, bm_strategy_id b)) (list_critical (rw_baskets (cw_rows w))))
                 ∪ cw_critical w |}.
Definition reenqueue (now : Z) (r : ReconcileWorld) (b : BasketModel) : ReconcileWorld :=
  if bool_decide (bm_recovery_status b = Some "RECOVERING"%string)
  then with_baskets (fst (update_recovery now (bm_account_id b) (bm_trade_id b) (bm_action b) None
         (Some "Stale RECOVERING from prior process; re-enqueueing recovery."%string) None None (rw_baskets r))) (rw_events r) r
  else r.
Definition enqueue_all_critical (now : Z) (w : CriticalWorld) : CriticalWorld * list (Z * string * OrderAction * string) :=
  let l := list_critical (rw_baskets (cw_rows w)) in
  (set_cw_rows (fold_left (reenqueue now) l (cw_rows w)) w,
   map (fun b => (bm_account_id b, bm_trade_id b, bm_action b, bm_strategy_id b)) l).
End Recovery.

(** ** Facts *)
Section RecoveryFacts.
Variable resolve_instruments : OrderIntent -> result OrderIntent.
Variable error_text : FlattenAnswer -> string.
#[local] Abbreviation once := (recover_once resolve_instruments error_text).

(** While the orders of an attempt work, nobody else drops a latch. *)
Definition keeps_latches (t : Attempt) : Prop := forall i w, cw_critical w ⊆ cw_critical (se_after (at_execute t i) w).
Lemma line_latches t held ibkr symbol sec con q w :
  keeps_latches t ->
  cw_critical w ⊆ cw_critical (fst (do_flatten_line resolve_instruments error_text (at_execute t) (at_now t) held ibkr
                                      symbol sec con q w)).
Proof.
  intros K. unfold do_flatten_line. destruct (get_snapshot_line _ _ _); [|done]. cbv zeta.
  repeat first [destruct (negb _); [done|]|destruct (_ <=? _); [done|]|destruct (_ <? _); [done|]
               |destruct (_ && _); [done|]].
  unfold submit_flatten_line. destruct (resolve_instruments _); [apply K|done].
Qed.
Lemma leftovers_latches t ibkr l acc :
  keeps_latches t ->
  cw_critical (fst acc)
    ⊆ cw_critical (fst (fold_left (flatten_leftover resolve_instruments error_text t ibkr) l acc)).
Proof.
  intros K. revert acc. induction l as [|x l IH]; intros [w m]; [done|]. cbn [fold_left]. etrans; [|apply IH].
  unfold flatten_leftover. destruct (get_snapshot_line _ _ _) as [snap|]; [|done].
  destruct (near_zero _); [done|].
  pose proof (line_latches t (at_held t) ibkr (lo_symbol x) (lo_sec_type x) (lo_con_id x)
    (Qabs (fl (br_signed_qty snap))) w K) as H.
  by destruct (do_flatten_line _ _ _ _ _ _ _ _ _ _ _) as [w1 a].
Qed.
Lemma fetch_spec now f w w' b :
  fetch_and_persist_snapshot now f w = Ok (w', b) ->
  cw_critical w' = cw_critical w
  /\ (b = true -> exists lines, sf_connected f = true /\ sf_fetched f = FetchedLines lines false
        /\ replace_snapshot now (ibkr_to_account (rw_accounts (cw_rows w'))) lines = Ok (rw_snapshot (cw_rows w'))).
Proof.
  unfold fetch_and_persist_snapshot. destruct (sf_connected f); simpl; [|by intros [= <- <-]].
  destruct (sf_fetched f) as [e|lines []]; [by intros [= <- <-]|by intros [= <- <-]|].
  intros (snap & S & H)%rbind_ok. destruct (sf_commits f); [|done]. injection H as <- <-.
  split; [done|]. intros _. by exists lines.
Qed.
Lemma clear_spec now account strategy trade act detail w k :
  let w' := clear_critical_row now account strategy trade act detail w in
  rw_snapshot (cw_rows w') = rw_snapshot (cw_rows w) /\ rw_accounts (cw_rows w') = rw_accounts (cw_rows w)
  /\ (k ∈ cw_critical w -> k ∉ cw_critical w' ->
        k = (account, strategy) /\ has_critical account strategy (rw_baskets (cw_rows w')) = false).
Proof.
  intros w'. subst w'. unfold clear_critical_row.
  destruct (update_recovery _ _ _ _ _ _ _ _) as [baskets [row|]]; [|done]. split; [done|]. split; [done|].
  cbn [cw_critical cw_rows rw_baskets with_baskets]. destruct (has_critical account strategy baskets) eqn:H; [done|].
  intros I N. split; [|done]. destruct (decide (k = (account, strategy))); [done|]. set_solver.
Qed.

(** ** What an attempt looks for *)
Lemma by_id_elem (o x : OrderModel) (l : list OrderModel) : x ∈ by_id o l <-> x = o \/ x ∈ l.
Proof.
  induction l as [|y l IH]; simpl; [set_solver|]. case_match; rewrite ?elem_of_cons, ?IH; tauto.
Qed.
Lemma listed_order (basket : Z) (orders : OrderTable) (key : string) (o : OrderModel) :
  orders !! key = Some o -> om_basket_id o = Some basket -> o ∈ list_by_basket_id basket orders.
Proof.
  intros E B. unfold list_by_basket_id.
  assert (I : o ∈ List.filter (fun o => bool_decide (om_basket_id o = Some basket)) (map snd (map_to_list orders))).
  { apply list_elem_of_In, filter_In. split; [|by rewrite B, bool_decide_true].
    apply list_elem_of_In, list_elem_of_fmap. exists (key, o). split; [done|by apply elem_of_map_to_list]. }
  revert I. generalize (List.filter (fun o => bool_decide (om_basket_id o = Some basket)) (map snd (map_to_list orders))).
  intros l. induction l as [|y l IH]; intros I; [by apply not_elem_of_nil in I|]. simpl. apply by_id_elem.
  apply elem_of_cons in I as [->|I]; [by left|right; by apply IH].
Qed.

(** An order of the basket that filled, under its contract. *)
Definition filled_leg (basket con : Z) (w : CriticalWorld) : Prop :=
  exists key o, rw_orders (cw_rows w) !! key = Some o /\ om_basket_id o = Some basket
    /\ om_is_compensation o = false /\ RECOVERY_FILL_EPS < fl (default 0 (om_fill_qty o))
    /\ ct_con_id (parse_ibkr_contract (om_ibkr_contract o)) = Some con.
(** The contracts an order walk collects, whatever makes an order count. *)
Section Walk.
Context (counts : OrderModel -> bool) (con_of : OrderModel -> option Z) (leg_of : OrderModel -> Z -> LeftoverLeg).
Definition walk_step (acc : gset Z * list LeftoverLeg) (o : OrderModel) : gset Z * list LeftoverLeg :=
  if counts o then
    match con_of o with
    | None => acc
    | Some con => if bool_decide (con ∈ acc.1) then acc else ({[con]} ∪ acc.1, acc.2 ++ [leg_of o con])
    end
  else acc.
Definition all_seen (acc : gset Z * list LeftoverLeg) : Prop :=
  forall c, c ∈ acc.1 -> exists leg, leg ∈ acc.2 /\ lo_con_id leg = c.
Hypothesis leg_of_con : forall o c, lo_con_id (leg_of o c) = c.

Lemma walk_step_spec acc o :
  all_seen acc -> all_seen (walk_step acc o) /\ acc.2 ⊆ (walk_step acc o).2
    /\ (counts o = true -> forall con, con_of o = Some con -> con ∈ (walk_step acc o).1).
Proof.
  intros H. unfold walk_step. destruct (counts o); [|done]. destruct (con_of o) as [con|]; [|done].
  destruct (bool_decide (con ∈ acc.1)) eqn:D.
  - split_and!; [done|done|]. intros _ c [= <-]. by apply bool_decide_eq_true_1 in D.
  - split_and!; simpl.
    + intros c I. simpl in I |- *. apply elem_of_union in I as [->%elem_of_singleton|I].
      * exists (leg_of o con). split; [apply elem_of_app; right; by apply list_elem_of_singleton|done].
      * destruct (H c I) as (leg & Il & E). exists leg. split; [apply elem_of_app; by left|done].
    + intros y Iy. apply elem_of_app. by left.
    + intros _ c [= <-]. apply elem_of_union. left. by apply elem_of_singleton.
Qed.
Lemma walk_spec l acc :
  all_seen acc -> acc.2 ⊆ (fold_left walk_step l acc).2 /\
  forall o con, o ∈ l -> counts o = true -> con_of o = Some con ->
    exists leg, leg ∈ (fold_left walk_step l acc).2 /\ lo_con_id leg = con.
Proof.
  revert acc. induction l as [|x l IH]; intros acc H; cbn [fold_left].
  - split; [done|]. intros o con I. by apply not_elem_of_nil in I.
  - destruct (walk_step_spec acc x H) as (H' & Sub & X). destruct (IH _ H') as [Sub' Y].
    split; [by etrans|]. intros o con [->|I]%elem_of_cons C E; [|by eapply Y].
    destruct (H' con (X C con E)) as (leg & Il & El). exists leg. split; [by apply Sub'|done].
Qed.
End Walk.

Lemma leftover_walk (acc : gset Z * list LeftoverLeg) (o : OrderModel) :
  leftover_step acc o
  = walk_step (fun o => negb (om_is_compensation o) && negb (fl (default 0 (om_fill_qty o)) <=? RECOVERY_FILL_EPS))
      (fun o => ct_con_id (parse_ibkr_contract (om_ibkr_contract o)))
      (fun o con => let c := parse_ibkr_contract (om_ibkr_contract o) in
         {| lo_con_id := con; lo_symbol := norm_text (ct_symbol c); lo_sec_type := norm_text (ct_sec_type c) |})
      acc o.
Proof.
  destruct acc as [seen legs]. unfold leftover_step, walk_step. cbv zeta. simpl fst. simpl snd.
  destruct (om_is_compensation o); [reflexivity|]. simpl negb.
  destruct (_ <=? RECOVERY_FILL_EPS); reflexivity.
Qed.
Lemma fold_left_same {A B : Type} (f g : A -> B -> A) (l : list B) (a : A) :
  (forall a b, f a b = g a b) -> fold_left f l a = fold_left g l a.
Proof. intros H. revert a. induction l as [|b l IH]; intros a; simpl; [done|]. by rewrite H. Qed.
Lemma filled_leg_collected (basket con : Z) (w : CriticalWorld) :
  filled_leg basket con w ->
  exists leg, leg ∈ collect_leftover_legs basket (rw_orders (cw_rows w)) /\ lo_con_id leg = con.
Proof.
  intros (key & o & E & B & C & F & Ct). unfold collect_leftover_legs.
  rewrite (fold_left_same _ _ _ _ leftover_walk).
  eapply walk_spec; [reflexivity|intros c I; destruct (not_elem_of_empty _ I)|by eapply listed_order| |exact Ct].
  rewrite C. apply negb_true_iff, not_true_is_false. intros L%Qle_bool_iff. destruct (Qlt_not_le _ _ F L).
Qed.

(** The lines of a broker's answer, as the account writes its name, show the
    contract flat, to the four decimals the snapshot keeps. *)
Definition shown_flat (lines : list BrokerPositionLine) (ibkr : string) (con : Z) : Prop :=
  forall l, l ∈ lines -> bl_ibkr_account l = ibkr -> bl_con_id l = con ->
  exists q, numeric 4 (bl_quantity l) = Ok q /\ Qabs (fl q) <= QTY_EPSILON.
Lemma insert_snapshot_keeps as_of accounts l m m' k r :
  insert_snapshot as_of accounts l m = Ok m' -> m !! k = Some r -> m' !! k = Some r.
Proof.
  revert m. induction l as [|x l IH]; intros m; simpl; [by intros [= <-]|].
  intros (m1 & S & H)%rbind_ok E. apply (IH m1 H). unfold snapshot_row in S.
  apply rbind_ok in S as (q & _ & S). apply rbind_ok in S as (c & _ & S). cbv zeta in S.
  destruct (m !! (bl_ibkr_account x, bl_con_id x)) eqn:D; [done|]. injection S as <-.
  rewrite lookup_insert_ne; [done|congruence].
Qed.
Lemma insert_snapshot_line as_of accounts l m m' x :
  insert_snapshot as_of accounts l m = Ok m' -> x ∈ l ->
  exists r, m' !! (bl_ibkr_account x, bl_con_id x) = Some r /\ numeric 4 (bl_quantity x) = Ok (br_signed_qty r).
Proof.
  revert m. induction l as [|y l IH]; intros m; simpl; [intros _ I; by apply not_elem_of_nil in I|].
  intros (m1 & S & H)%rbind_ok [->|I]%elem_of_cons; [|by eapply IH]. unfold snapshot_row in S.
  apply rbind_ok in S as (q & Q & S). apply rbind_ok in S as (c & _ & S). cbv zeta in S.
  destruct (m !! _) eqn:D; [done|]. injection S as <-. eexists. split;
    [eapply insert_snapshot_keeps; [exact H|by rewrite lookup_insert_eq]|exact Q].
Qed.

(** Why an attempt dropped the latch [k]: the basket was critical, no basket of
    the account and strategy is any more, and every filled order of the basket
    with a contract is flat in a complete answer that the broker gave after the
    flattens. *)
Record unlatched (account : Z) (trade : string) (act : OrderAction) (strategy : string) (t : Attempt)
    (w w' : CriticalWorld) (k : Z * string) : Prop := {
  un_key : k = (account, strategy);
  un_others : forall b, b ∈ basket_values (rw_baskets (cw_rows w')) -> bm_account_id b = account ->
    bm_strategy_id b = strategy -> bm_state b <> CRITICAL;
  un_flat : exists row a,
    basket_get account trade act (rw_baskets (cw_rows w)) = Some row /\ bm_state row = CRITICAL
    /\ a ∈ rw_accounts (cw_rows w) /\ ar_id a = account
    /\ forall con, filled_leg (bm_id row) con w ->
       exists lines, sf_connected (at_after t) = true /\ sf_fetched (at_after t) = FetchedLines lines false
         /\ shown_flat lines (ar_ibkr_account a) con
}.
Lemma has_critical_none account strategy (m : BasketTable) b :
  has_critical account strategy m = false -> b ∈ basket_values m -> bm_account_id b = account ->
  bm_strategy_id b = strategy -> bm_state b <> CRITICAL.
Proof.
  unfold has_critical. intros H I <- <- C. enough (existsb (fun x => (bm_account_id x =? bm_account_id b)%Z
    && String.eqb (bm_strategy_id x) (bm_strategy_id b) && bool_decide (bm_state x = CRITICAL)) (basket_values m) = true)
    by congruence.
  apply existsb_exists. exists b. split; [by apply list_elem_of_In|].
  by rewrite Z.eqb_refl, String.eqb_refl, C.
Qed.
Lemma ibkr_of_account account ibkr w :
  ibkr_of account w = Some ibkr ->
  exists a, a ∈ rw_accounts (cw_rows w) /\ ar_id a = account /\ ar_ibkr_account a = ibkr.
Proof.
  unfold ibkr_of. destruct (List.find _ _) as [a|] eqn:E; [|done]. intros [= <-].
  apply find_some in E as [I E]. exists a. split_and!; [by apply list_elem_of_In|by apply Z.eqb_eq|done].
Qed.
(** A leg flat in the snapshot that was made of the lines. *)
Lemma leftover_shown now accounts lines ibkr w leg :
  replace_snapshot now accounts lines = Ok (rw_snapshot (cw_rows w)) -> leftover_flat ibkr w leg = true ->
  shown_flat lines ibkr (lo_con_id leg).
Proof.
  intros S F l I <- E. destruct (insert_snapshot_line _ _ _ _ _ _ S I) as (r & G & Q). rewrite E in G.
  unfold leftover_flat, get_snapshot_line in F. rewrite G in F. exists (br_signed_qty r).
  split; [exact Q|]. by apply Qle_bool_iff.
Qed.

Lemma recover_once_latches t account trade act strategy attempt w w' r k :
  keeps_latches t -> once t account trade act strategy attempt w = (w', r) ->
  k ∈ cw_critical w -> k ∉ cw_critical w' ->
  unlatched account trade act strategy t w w' k /\ r = Ok RecoveryDone.
Proof.
  intros K. unfold recover_once. destruct (basket_get _ _ _ _) as [row|] eqn:B; [|by intros [= <- <-]].
  destruct (ibkr_of account w) as [ibkr|] eqn:Ib; [|by intros [= <- <-]].
  destruct (negb _) eqn:Cr; [by intros [= <- <-]|]. apply negb_false_iff, bool_decide_eq_true_1 in Cr. cbv zeta.
  apply ibkr_of_account in Ib as (a & Ia & Ea & Eb).
  set (w1 := start_recovering _ _ _ _ _ w). change (rw_orders (cw_rows w1)) with (rw_orders (cw_rows w)).
  destruct (collect_leftover_legs _ _) as [|x l] eqn:L.
  { intros [= <- <-] I N. destruct (clear_spec (at_now t) account strategy trade act
      "No filled non-compensation legs; clearing latch." w1 k) as (_ & _ & C). destruct (C I N) as [-> H].
    split; [|done]. constructor; [done|intros b; by apply has_critical_none|]. exists row, a. split_and!; [done..|].
    intros con (leg & Il & _)%filled_leg_collected. rewrite L in Il. by apply not_elem_of_nil in Il. }
  destruct (fetch_and_persist_snapshot _ (at_before t) w1) as [[w2 []]|e] eqn:F1; [| |by intros [= <- <-]]; cycle 1.
  { apply fetch_spec in F1 as [E _]. intros [= <- _]. simpl. by rewrite E. }
  apply fetch_spec in F1 as [E1 _].
  pose proof (leftovers_latches t ibkr (x :: l) (w2, []) K) as E2. unfold flatten_leftovers.
  destruct (fold_left _ (x :: l) (w2, [])) as [w3 messages]. cbn [fst] in E2.
  assert (I3 : k ∈ cw_critical w -> k ∈ cw_critical w3) by (intros I; apply E2; rewrite E1; exact I).
  destruct (fetch_and_persist_snapshot _ (at_after t) w3) as [[w4 []]|e] eqn:F2;
    [| |intros [= <- <-] I N; by destruct N; apply I3]; cycle 1.
  { apply fetch_spec in F2 as [E _]. intros [= <- _] I N. simpl in N. rewrite E in N. by destruct N; apply I3. }
  apply fetch_spec in F2 as [E4 S4]. destruct (broker_flat_for_conids ibkr (x :: l) w4) eqn:Fl; intros [= <- <-] I N;
    [|simpl in N; rewrite E4 in N; by destruct N; apply I3].
  destruct (clear_spec (at_now t) account strategy trade act (str_or (String.concat "; " messages) "Broker flat.") w4 k)
    as (_ & _ & C). destruct C as [-> H]; [rewrite E4; by apply I3|exact N|]. split; [|done].
  constructor; [done|intros b; by apply has_critical_none|]. exists row, a. split_and!; [done..|].
  intros con (leg & Il & <-)%filled_leg_collected. destruct (S4 eq_refl) as (lines & Co & Fe & S).
  exists lines. split_and!; [done|done|]. rewrite Eb. eapply leftover_shown; [exact S|]. rewrite L in Il.
  apply (forallb_forall _ (x :: l)) with (x := leg) in Fl; [exact Fl|by apply list_elem_of_In].
Qed.

(** The world in which an attempt begins: the attempts before it ran. *)
Fixpoint after_attempts (before : list Attempt) (account : Z) (trade : string) (act : OrderAction)
    (strategy : string) (n : Z) (w : CriticalWorld) : CriticalWorld :=
  match before with
  | [] => w
  | t :: l => after_attempts l account trade act strategy (n + 1) (fst (once t account trade act strategy n w))
  end.
End RecoveryFacts.

(** C28: A recovery opens an account again only on evidence.  Whatever the
    broker, the snapshots and the flattens do, as long as nobody else drops the
    latch while its orders work: when a run of the recovery drops a latch, it is
    the one of its account and strategy, and no basket of these is critical at
    the end; it was dropped by one attempt, the last that ran, which found the
    basket critical when it began; and for every order the basket then had
    filled, compensations apart, under a contract with an id, the broker's
    complete answer to the request made after that attempt's flattens shows no
    position in the contract under the account's name.  An order whose contract
    names no id asks for no evidence, and lines of the account spelled otherwise
    are not looked at ([leg_without_contract], [flat_by_spelling]). *)
Theorem recovery_opens_flat (resolve_instruments : OrderIntent -> result OrderIntent)
    (error_text : FlattenAnswer -> string) (attempts : list Attempt) (account n : Z) (trade strategy : string)
    (act : OrderAction) (w : CriticalWorld) (k : Z * string) :
  Forall keeps_latches attempts ->
  let w' := run_recovery resolve_instruments error_text attempts account trade act strategy n w in
  k ∈ cw_critical w -> k ∉ cw_critical w' ->
  exists before t after, attempts = before ++ t :: after
    /\ let w0 := after_attempts resolve_instruments error_text before account trade act strategy n w in
       k ∈ cw_critical w0
       /\ w' = fst (recover_once resolve_instruments error_text t account trade act strategy
                      (n + Z.of_nat (length before)) w0)
       /\ unlatched account trade act strategy t w0 w' k.
Proof.
  intros K w' I. subst w'. revert n w I. induction K as [|t l Kt _ IH]; intros n w I N; [by destruct N|].
  cbn [run_recovery] in N |- *. destruct (recover_once _ _ _ _ _ _ _ _ _) as [w1 r] eqn:R.
  destruct (decide (k ∈ cw_critical w1)) as [I1|N1].
  - assert (H : exists r' : bool, (match r with
       | Ok RecoveryDone => w1
       | _ => if (MAX_RECOVERY_ATTEMPTS <=? n)%Z then w1
              else run_recovery resolve_instruments error_text l account trade act strategy (n + 1) w1 end)
       = if r' then w1 else run_recovery resolve_instruments error_text l account trade act strategy (n + 1) w1).
    { destruct r as [[]|]; [by exists true|..]; exists (MAX_RECOVERY_ATTEMPTS <=? n)%Z; done. }
    destruct H as ([] & H); rewrite H in N |- *; [done|].
    destruct (IH _ _ I1 N) as (before & t' & after & -> & I0 & E & U).
    exists (t :: before), t', after. split; [done|]. simpl. rewrite R. simpl fst.
    split_and!; [exact I0| |exact U]. rewrite E. do 2 f_equal. lia.
  - destruct (recover_once_latches _ _ _ _ _ _ _ _ _ _ _ k Kt R I N1) as [U ->].
    exists [], t, l. split; [done|]. simpl. rewrite Z.add_0_r, R. done.
Qed.

(** ** Examples *)
Definition ex_critical_basket : BasketModel := {|
  bm_id := 1; bm_account_id := 7; bm_trade_id := "T9"; bm_strategy_id := "model_blue"; bm_action := OPEN;
  bm_state := CRITICAL; bm_intended_leg_count := 2; bm_recovery_status := None; bm_recovery_detail := None;
  bm_recovered_at := None; bm_updated_at := 10 |}.
Definition ex_filled_leg (contract : string) : OrderModel := {|
  om_id := 1; om_signal_id := 1; om_trade_id := Some "T9"%string; om_internal_order_id := "T9:0";
  om_basket_id := Some 1%Z; om_is_compensation := false; om_compensation_of := None; om_account_id := 7;
  om_strategy_id := "model_blue"; om_leg := "AAPL"; om_symbol := "AAPL"; om_ibkr_contract := contract;
  om_buy_sell := BUY; om_quantity := 3; om_limit_price := 100; om_status := FILLED; om_broker_order_id := None;
  om_fill_price := Some 100; om_fill_qty := Some 3; om_filled_at := None; om_margin_impact := None;
  om_updated_at := 20 |}.
(** The desk holds ten of the symbol; three more are the basket's. *)
Definition ex_critical (contract : string) : CriticalWorld := {|
  cw_rows := {| rw_accounts := rw_accounts ex_reconcile; rw_instruments := []; rw_positions := ∅;
    rw_manual := rw_manual ex_reconcile; rw_orders := {[ "T9:0"%string := ex_filled_leg contract ]};
    rw_baskets := {[ 1%Z := ex_critical_basket ]}; rw_jobs := []; rw_snapshot := ∅; rw_runs := []; rw_events := [];
    rw_active := None; rw_pending := ∅ |};
  cw_critical := {[ (7, "model_blue"%string) ]}%Z |}.
Definition ex_broker_line (account : string) (q : Q) : BrokerPositionLine := {|
  bl_ibkr_account := account; bl_symbol := "AAPL"; bl_sec_type := "CFD"; bl_con_id := 5; bl_currency := "USD";
  bl_exchange := "SMART"; bl_quantity := q; bl_avg_cost := 100 |}.
Definition ex_fetch (l : list BrokerPositionLine) : SnapshotFetch := {|
  sf_connected := true; sf_fetched := FetchedLines l false; sf_commits := true |}.
(** A broker that fills whatever it is sent; the quantity sent is kept among the latches. *)
Definition ex_sent (i : OrderIntent) : Sent := {|
  se_result := Ok [Persistence.ex_fill "r1" "AAPL" SELL 0 13 100 1 i];
  se_after := fun w => {| cw_rows := cw_rows w;
    cw_critical := list_to_set (map (fun l => (Qfloor (num_val (leg_quantity l)), "sold"%string)) (legs i)) ∪ cw_critical w |} |}.
Definition ex_attempt (before after : list BrokerPositionLine) : Attempt := {|
  at_now := 30; at_before := ex_fetch before; at_after := ex_fetch after; at_held := ∅; at_execute := ex_sent |}.
Definition ex_recover (contract : string) (t : Attempt) : CriticalWorld :=
  run_recovery Ok (fun _ => "error"%string) [t; t] 7 "T9" OPEN "model_blue" 1 (ex_critical contract).
Definition ex_latched (w : CriticalWorld) : bool := bool_decide ((7, "model_blue"%string)%Z ∈ cw_critical w).
Definition ex_sold (w : CriticalWorld) (q : Z) : bool := bool_decide ((q, "sold"%string) ∈ cw_critical w).

(** The flatten takes the whole line: the ten of the desk are sold with the
    three of the basket, and the desk's position stays on the books. *)
Example recovery_sells_all :
  let w := ex_recover "AAPL-CFD-SMART-USD:5" (ex_attempt [ex_broker_line "DU7" 13] []) in
  ex_latched w = false /\ ex_sold w 13 = true /\ map mp_signed_qty (manual_open (cw_rows w)) = [10].
Proof. by vm_compute. Qed.
(** What stays at the broker keeps the latch. *)
Example recovery_keeps_latch :
  ex_latched (ex_recover "AAPL-CFD-SMART-USD:5" (ex_attempt [ex_broker_line "DU7" 13] [ex_broker_line "DU7" 3])) = true.
Proof. by vm_compute. Qed.
(** A filled leg whose contract carries no id counts as no leg: the latch is
    dropped without a look at the broker. *)
Example leg_without_contract :
  let w := ex_recover "AAPL-CFD-SMART-USD" (ex_attempt [ex_broker_line "DU7" 13] [ex_broker_line "DU7" 13]) in
  ex_latched w = false /\ ex_sold w 13 = false.
Proof. by vm_compute. Qed.
(** Lines are looked up under the account's text as it is written in the
    accounts table: spelled otherwise by the broker, they count as flat. *)
Example flat_by_spelling :
  let w := ex_recover "AAPL-CFD-SMART-USD:5" (ex_attempt [ex_broker_line "du7" 13] [ex_broker_line "du7" 13]) in
  ex_latched w = false /\ ex_sold w 13 = false.
Proof. by vm_compute. Qed.

Lemma ex_attempt_keeps before after : keeps_latches (ex_attempt before after).
Proof. intros i w. simpl. set_solver. Qed.
Definition ex_sells : list Attempt :=
  [ex_attempt [ex_broker_line "DU7" 13] [ex_broker_line "DU7" 3]; ex_attempt [ex_broker_line "DU7" 3] []].
Definition ex_sold_out : CriticalWorld :=
  run_recovery Ok (fun _ => "error"%string) ex_sells 7 "T9" OPEN "model_blue" 1 (ex_critical "AAPL-CFD-SMART-USD:5").
(** The first attempt leaves three shares; the second sells them. *)
Lemma recovery_opens_flat_witness :
  exists before t after, ex_sells = before ++ t :: after
    /\ let w0 := after_attempts Ok (fun _ => "error"%string) before 7 "T9" OPEN "model_blue" 1
                   (ex_critical "AAPL-CFD-SMART-USD:5") in
       ex_latched w0 = true /\ unlatched 7 "T9" OPEN "model_blue" t w0 ex_sold_out (7, "model_blue"%string)%Z.
Proof.
  destruct (recovery_opens_flat Ok (fun _ => "error"%string) ex_sells 7 1 "T9" "model_blue" OPEN
    (ex_critical "AAPL-CFD-SMART-USD:5") (7, "model_blue"%string)%Z) as (before & t & after & E & I & _ & U).
  - repeat (apply Forall_cons; split; [apply ex_attempt_keeps|]). apply Forall_nil_2.
  - apply (bool_decide_unpack _). by vm_compute.
  - eapply bool_decide_eq_false_1. vm_compute. reflexivity.
  - exists before, t, after. split; [exact E|]. split; [by apply bool_decide_eq_true_2|exact U].
Defined.
