(* ===== verification/BrokerAlign.v ===== *)
(** * Aligning a broker line with the ledger, and the reconcile screen:
    [services/broker_align_service.py] and [services/reconcile_service.py]

    An operator lets the program trade the difference between what the broker
    holds of a contract and what the open positions say; the screen compares
    the last snapshot with the ledger, of all accounts or of one.  The answers
    of the coordinator are given; texts of refusals are cut short. *)

From S2P Require Import Prelude Rounding PyText PyTime Identifiers RmsModels Accounts TradeBook Instruments Oms Coordinator JobQueue Positions OrderLedger ManualLedger EngineFlatten Reconcile ReconcileFacts CriticalRecovery.

#[local] Open Scope Q_scope.
#[local] Open Scope py_scope.
#[local] Set Warnings "-clear-no-such-hyp".

(** ** [BrokerAlignService] *)
Definition align_action (current target : Q) : OrderAction :=
  if Qabs current <=? QTY_EPSILON then OPEN
  else if Qabs target <=? QTY_EPSILON then CLOSE
  else if ((0 <? current) && (0 <? target)) || ((current <? 0) && (target <? 0))
  then if fl (Qabs current + QTY_EPSILON) <? Qabs target then OPEN else CLOSE
  else CLOSE.
Definition find_instrument (instruments : list InstrumentRecord) (symbol sec_type : string) (con : Z)
    : option InstrumentRecord :=
  let named i := String.eqb (norm_text (ir_symbol i)) (norm_text symbol)
                 && String.eqb (norm_text (ir_sec_type i)) (norm_text sec_type) in
  match List.find (fun i => named i && (ir_trade_conid i =? con)%Z) instruments with
  | Some i => Some i
  | None => List.find named instruments
  end.

Inductive AlignStatus : Type := ALIGNED | ALIGN_PARTIAL | ALIGN_FAILED.
Definition align_status_text (s : AlignStatus) : string :=
  match s with ALIGNED => "ALIGNED" | ALIGN_PARTIAL => "PARTIAL" | ALIGN_FAILED => "FAILED" end.
Inductive AlignAnswer : Type :=
  | AlignRefused (status_code : Z) (detail : string)
  | AlignRaises (e : exn)
  | AlignResponse (side : OrderSide) (quantity : Q) (status : AlignStatus) (message : string).
(** What is to be traded, under which keys. *)
Record AlignPlan : Type := {
  pl_account : Z; pl_con_id : Z; pl_side : OrderSide; pl_quantity : Q; pl_action : OrderAction;
  pl_exchange : option string; pl_currency : option string; pl_keys : list FlattenKey
}.
Definition text_or_none (s : string) : option string := if str_empty s then None else Some s.
Definition account_id_of (ibkr : string) (w : CriticalWorld) : option Z :=
  option_map ar_id (List.find (fun a => String.eqb (ar_ibkr_account a) ibkr) (rw_accounts (cw_rows w))).
Definition align_snapshot (ibkr : string) (con : Z) (w : CriticalWorld) : option BrokerPositionRow :=
  let raw := str_strip ibkr in
  match get_snapshot_line raw con w with
  | Some s => Some s
  | None => if String.eqb (str_upper raw) raw then None else get_snapshot_line (norm_text ibkr) con w
  end.
Definition align_account (ibkr : string) (snapshot : option BrokerPositionRow) (w : CriticalWorld) : option Z :=
  let by_name := match account_id_of (str_strip ibkr) w with
                 | Some a => Some a
                 | None => account_id_of (norm_text ibkr) w
                 end in
  match snapshot with
  | Some s => match br_account s with Some a => Some a | None => by_name end
  | None => by_name
  end.
Definition align_target (account : Z) (symbol sec_type : string) (w : CriticalWorld) : Q :=
  let r := cw_rows w in
  default 0 (ledger_net_qty_for_symbol (list_open (rw_positions r)) (rw_instruments r) account symbol sec_type
               (List.filter (fun m => (mp_account_id m =? account)%Z) (manual_open r))).
Definition align_current (snapshot : option BrokerPositionRow) : Q :=
  match snapshot with Some s => fl (br_signed_qty s) | None => 0 end.
(** The contract to trade, its exchange and currency. *)
Definition align_contract (symbol sec_type : string) (con : Z) (target : Q) (snapshot : option BrokerPositionRow)
    (instruments : list InstrumentRecord) : (Z * string) + (Z * option string * option string) :=
  match snapshot with
  | Some s => inr (br_con s, text_or_none (br_exchange s), text_or_none (br_currency s))
  | None =>
      if Qabs target <=? QTY_EPSILON then inl (400%Z, "No broker snapshot line and ledger net is zero."%string)
      else
        match find_instrument instruments symbol sec_type con with
        | None => inr (con, Some "SMART"%string, Some "USD"%string)
        | Some i =>
            if (ir_trade_conid i =? con)%Z
            then inr (con, text_or_none (ir_exchange i), text_or_none (ir_currency i))
            else inl (400%Z, "con_id mismatch"%string)
        end
  end.
Definition align_keys (ibkr : string) (con account : Z) (symbol : string) (rows : list PositionModel) : list FlattenKey :=
  broker_flatten_key ibkr con
  :: map (fun p => ledger_key account (p_trade_id p))
       (List.filter (fun p => (p_account_id p =? account)%Z
          && existsb (String.eqb symbol) [norm_text (p_leg_a_symbol p); norm_text (opt_str (p_leg_b_symbol p))]) rows).
(** [_do_align_line] up to the locks. *)
Definition plan_align (ibkr symbol sec_type : string) (con : Z) (w : CriticalWorld) : (Z * string) + AlignPlan :=
  let r := cw_rows w in
  let symbol := norm_text symbol in
  let sec_type := norm_text sec_type in
  let snapshot := align_snapshot ibkr con w in
  match align_account ibkr snapshot w with
  | None => inl (404%Z, "Account not found for IBKR account"%string)
  | Some account =>
      if bool_decide (account ∈ fetch_in_flight_accounts r)
      then inl (409%Z, "Account has in-flight execution; align is blocked."%string)
      else
        let target := align_target account symbol sec_type w in
        let current := align_current snapshot in
        if negb match snapshot with Some s => String.eqb (norm_text (br_symbol s)) symbol | None => true end
        then inl (400%Z, "Symbol mismatch"%string)
        else if negb match snapshot with Some s => String.eqb (norm_text (br_sec_type s)) sec_type | None => true end
        then inl (400%Z, "Sec type mismatch"%string)
        else
          let delta := fl (target - current) in
          if Qabs delta <=? QTY_EPSILON
          then inl (400%Z, "Broker quantity already matches ledger; nothing to align."%string)
          else
            match align_contract symbol sec_type con target snapshot (rw_instruments r) with
            | inl refusal => inl refusal
            | inr (con, exchange, currency) => inr {|
                pl_account := account; pl_con_id := con; pl_side := if 0 <? delta then BUY else SELL;
                pl_quantity := Qabs delta; pl_action := align_action current target;
                pl_exchange := exchange; pl_currency := currency;
                pl_keys := align_keys (norm_text ibkr) con account symbol (list_open (rw_positions r)) |}
            end
  end.
Definition align_intent (now : Z) (ibkr symbol sec_type : string) (p : AlignPlan) : OrderIntent := {|
  signal_id := "RECON-ALIGN-" ++ str_Z (pl_con_id p); strategy_id := "reconcile_align"; action := pl_action p;
  legs := [{| leg_symbol := symbol; leg_side := pl_side p; leg_quantity := NFloat (pl_quantity p); leg_price := 0;
              leg_contract_month := None; leg_con_id := Some (pl_con_id p); leg_notional := None;
              leg_instrument_type := Some sec_type; leg_weight := None; leg_leg_index := Some 0%Z;
              leg_metadata := None; leg_exchange := pl_exchange p; leg_currency := pl_currency p;
              leg_resolved := None |}];
  account_id := Some (pl_account p); ibkr_account := Some ibkr; market := None; timestamp := now;
  intent_mode := EMERGENCY_FLATTEN |}.
Definition align_status (orders : list OMSOrder) : AlignStatus * string :=
  match line_status orders with
  | (LINE_FLAT, _) => (ALIGNED, "Broker line aligned to ledger successfully."%string)
  | (LINE_PARTIAL, _) => (ALIGN_PARTIAL, "Broker align partially filled."%string)
  | (LINE_FAILED, _) => (ALIGN_FAILED, "Broker align did not fill."%string)
  end.
Definition trade_side_text (s : OrderSide) : string := match s with BUY => "BUY" | SELL => "SELL" end.
Definition align_event (ibkr symbol sec_type : string) (p : AlignPlan) (s : AlignStatus) (message : string) : EventRow := {|
  ev_process := "reconcile";
  ev_kind := match s with ALIGNED => "RECONCILE_ALIGN_COMPLETED" | _ => "RECONCILE_ALIGN_FAILED" end;
  ev_detail := JObj [
    ("account_id"%string, JInt (pl_account p)); ("ibkr_account"%string, JStr ibkr); ("symbol"%string, JStr symbol);
    ("sec_type"%string, JStr sec_type); ("con_id"%string, JInt (pl_con_id p));
    ("side"%string, JStr (trade_side_text (pl_side p))); ("quantity"%string, JFloat (FFin (pl_quantity p)));
    ("status"%string, JStr (align_status_text s)); ("message"%string, JStr message)];
  ev_signal_id := None; ev_order_id := None; ev_basket_id := None; ev_key := None |}.
Definition log_align (e : EventRow) (w : CriticalWorld) : CriticalWorld :=
  let r := cw_rows w in
  set_cw_rows (with_rows (rw_snapshot r) (rw_runs r) (fst (append_event e (rw_events r))) r) w.

Section Align.
Variable resolve_instruments : OrderIntent -> result OrderIntent.
Variable error_text : exn -> string.
Variable execute : OrderIntent -> Sent.

(** [event_commits]: whether the transaction of the event ends well. *)
Definition submit_align_line (now : Z) (event_commits : bool) (ibkr symbol sec_type : string) (p : AlignPlan)
    (w : CriticalWorld) : CriticalWorld * AlignAnswer :=
  let failed e := AlignResponse (pl_side p) (pl_quantity p) ALIGN_FAILED ("Execution error: " ++ error_text e) in
  match resolve_instruments (align_intent now ibkr symbol sec_type p) with
  | Raise e => (w, AlignRaises e)
  | Ok intent =>
      let x := execute intent in
      let w := se_after x w in
      match se_result x with
      | Raise e => (w, failed e)
      | Ok orders =>
          let '(s, m) := align_status orders in
          if event_commits then (log_align (align_event ibkr symbol sec_type p s m) w,
                                 AlignResponse (pl_side p) (pl_quantity p) s m)
          else (w, failed (OtherError "DatabaseError"))
      end
  end.
Definition do_align_line (now : Z) (held : Held) (event_commits : bool) (ibkr symbol sec_type : string) (con : Z)
    (w : CriticalWorld) : CriticalWorld * AlignAnswer :=
  match plan_align ibkr symbol sec_type con w with
  | inl (code, detail) => (w, AlignRefused code detail)
  | inr p =>
      if snd (acquire_flatten_many (pl_keys p) held)
      then submit_align_line now event_commits (norm_text ibkr) (norm_text symbol) (norm_text sec_type) p w
      else (w, AlignRefused 409 "Align already in progress")
  end.
End Align.

(** ** [collect_reconcile_positions] *)
(** The rows of the table by account, symbol and contract. *)
Definition broker_row_lt (a b : BrokerPositionRow) : bool :=
  text_first (br_ibkr a) (br_ibkr b) (text_first (br_symbol a) (br_symbol b) (br_con a <? br_con b)%Z).
Definition list_snapshot (ibkr : option string) (w : ReconcileWorld) : list BrokerPositionRow :=
  sort_by broker_row_lt
    (List.filter (fun r => match ibkr with Some i => String.eqb (br_ibkr r) i | None => true end)
       (map snd (map_to_list (rw_snapshot w)))).
Definition broker_line_from_row (r : BrokerPositionRow) : BrokerPositionLine := {|
  bl_ibkr_account := br_ibkr r; bl_symbol := br_symbol r; bl_sec_type := br_sec_type r; bl_con_id := br_con r;
  bl_currency := br_currency r; bl_exchange := br_exchange r; bl_quantity := fl (br_signed_qty r);
  bl_avg_cost := fl (br_avg_cost r) |}.
Definition get_latest_run (w : ReconcileWorld) : option ReconcileRun := last (rw_runs w).
Record ReconcileScreen : Type := {
  sc_run : option ReconcileRun; sc_broker : list BrokerPositionRow; sc_ledger : list PositionModel;
  sc_diffs : list ReconcileDiff
}.
Section Screen.
Variable next_iter : gset Z -> Z.
(** The rows of one account, or all of them. *)
Definition of_target {A} (account : A -> Z) (target : option Z) (l : list A) : list A :=
  List.filter (fun x => match target with Some t => (account x =? t)%Z | None => true end) l.
Definition screen_of (ibkr : option string) (target : option Z) (w : ReconcileWorld) : ReconcileScreen :=
  let broker := list_snapshot ibkr w in
  let rows := of_target p_account_id target (list_open (rw_positions w)) in
  let manual := of_target mp_account_id target (manual_open w) in
  {| sc_run := get_latest_run w; sc_broker := broker; sc_ledger := rows;
     sc_diffs := classify_reconcile_diffs next_iter (map broker_line_from_row broker)
       (build_ledger_net_lines rows (rw_instruments w) manual) (ibkr_to_account (rw_accounts w))
       (account_to_ibkr (rw_accounts w))
       (build_order_con_id_map (order_rows (map p_account_id rows ++ map mp_account_id manual) w))
       match get_latest_run w with Some r => rr_timed_out r | None => false end (fetch_in_flight_accounts w) |}.
Definition collect_reconcile_positions (ibkr : option string) (w : ReconcileWorld) : ReconcileScreen :=
  match ibkr with
  | None => screen_of None None w
  | Some i =>
      match ibkr_to_account (rw_accounts w) !! norm_text i with
      | Some t => screen_of (Some i) (Some t) w
      | None => {| sc_run := get_latest_run w; sc_broker := []; sc_ledger := []; sc_diffs := [] |}
      end
  end.
End Screen.


(** *** The legs of one account *)
Lemma legs_at_filter {A} (legs : A -> list (NetKey * Q)) (account : A -> Z) (k : NetKey) (l : list A) :
  (forall x i, i ∈ legs x -> i.1.1.1 = account x) ->
  legs_at k (flat_map legs (List.filter (fun x => (account x =? k.1.1)%Z) l)) = legs_at k (flat_map legs l).
Proof.
  intros O. induction l as [|x l IH]; [done|]. cbn [List.filter flat_map].
  assert (Ap : forall a b, legs_at k (a ++ b) = legs_at k a ++ legs_at k b).
  { intros a b. unfold legs_at. by rewrite List.filter_app, map_app. }
  destruct (account x =? k.1.1)%Z eqn:E; cbn [flat_map]; rewrite !Ap, IH; [done|].
  assert (legs_at k (legs x) = []) as ->; [|done]. apply Z.eqb_neq in E. specialize (O x). revert O.
  generalize (legs x). intros ls O. unfold legs_at. induction ls as [|i ls IHl]; [done|]. cbn [List.filter].
  rewrite bool_decide_eq_false_2; [apply IHl; intros j J; apply O; by right|].
  intros <-. apply E. symmetry. apply O. by left.
Qed.
Lemma row_legs_account (p : PositionModel) (i : NetKey * Q) : i ∈ row_legs p -> i.1.1.1 = p_account_id p.
Proof.
  unfold row_legs. intros [I|I]%elem_of_app.
  - destruct (str_empty _); [by apply elem_of_nil in I|]. by apply list_elem_of_singleton in I as ->.
  - destruct (p_leg_b_signed_qty p); [|by apply elem_of_nil in I].
    destruct (str_empty _); [by apply elem_of_nil in I|]. by apply list_elem_of_singleton in I as ->.
Qed.
Lemma manual_legs_account (m : ManualPosition) (i : NetKey * Q) : i ∈ manual_legs m -> i.1.1.1 = mp_account_id m.
Proof.
  unfold manual_legs. destruct (str_empty _); [intros I; by apply elem_of_nil in I|].
  by intros ->%list_elem_of_singleton.
Qed.
Lemma ledger_total_account rows manual (k : NetKey) :
  ledger_total (List.filter (fun p => (p_account_id p =? k.1.1)%Z) rows)
    (List.filter (fun m => (mp_account_id m =? k.1.1)%Z) manual) k = ledger_total rows manual k.
Proof.
  unfold ledger_total. rewrite (legs_at_filter row_legs p_account_id), (legs_at_filter manual_legs mp_account_id);
    auto using row_legs_account, manual_legs_account.
Qed.




(** ** The screen *)
Lemma group_perm accounts k (l l' : list BrokerPositionLine) : l ≡ₚ l' -> group_at accounts k l ≡ₚ group_at accounts k l'.
Proof. intros P. unfold group_at. by apply filter_perm. Qed.
Lemma small_perm {A} (l l' : list A) : l ≡ₚ l' -> (length l' <= 1)%nat -> l = l'.
Proof.
  intros P. destruct l' as [|x [|y l']]; [by intros _; apply Permutation_nil_r in P|by intros _; apply Permutation_singleton_r in P|].
  simpl. lia.
Qed.
Lemma snapshot_group accounts (k : NetKey) (ibkr : string) (rows : list BrokerPositionRow) :
  (forall r, r ∈ rows -> accounts !! norm_text (br_ibkr r) = Some k.1.1 -> br_ibkr r = ibkr) ->
  group_at accounts k (map broker_line_from_row (List.filter (fun r => String.eqb (br_ibkr r) ibkr) rows))
    = group_at accounts k (map broker_line_from_row rows).
Proof.
  intros S. unfold group_at. induction rows as [|r rows IH]; [done|]. cbn [List.filter map].
  specialize (IH (fun r I => S r (list_elem_of_further _ _ _ I))). destruct (String.eqb (br_ibkr r) ibkr) eqn:E; cbn [map List.filter]; rewrite IH; [done|].
  rewrite bool_decide_eq_false_2; [done|]. unfold broker_key. cbn [bl_ibkr_account broker_line_from_row].
  destruct (accounts !! norm_text (br_ibkr r)) as [a|] eqn:A; [|done]. intros [= <-]. cbn [fst] in S.
  rewrite (S r) in E; [|by left|done]. by rewrite String.eqb_refl in E.
Qed.
Definition verdicts_at (k : NetKey) (s : ReconcileScreen) : list (Mismatch * option Q * option Q) :=
  map (fun d => (rd_kind d, rd_broker_qty d, rd_ledger_qty d)) (List.filter (at_key k) (sc_diffs s)).
(** The screen of one account shows what the screen of all accounts shows of
    it, when the snapshot spells the account as it is asked for; elsewhere it
    shows nothing.  Lines of one symbol are summed in the order of the table,
    so that the keys have one line at most. *)
Theorem screen_of_one_account next_iter (w : ReconcileWorld) (ibkr : string) (t : Z) (k : NetKey) :
  ibkr_to_account (rw_accounts w) !! norm_text ibkr = Some t ->
  (forall r, r ∈ map snd (map_to_list (rw_snapshot w)) ->
     ibkr_to_account (rw_accounts w) !! norm_text (br_ibkr r) = Some t -> br_ibkr r = ibkr) ->
  (length (group_at (ibkr_to_account (rw_accounts w)) k (map broker_line_from_row (list_snapshot None w))) <= 1)%nat ->
  verdicts_at k (collect_reconcile_positions next_iter (Some ibkr) w) =
    if (k.1.1 =? t)%Z then verdicts_at k (collect_reconcile_positions next_iter None w) else [].
Proof.
  intros T S One. unfold verdicts_at, collect_reconcile_positions. rewrite T. unfold screen_of. cbn [sc_diffs].
  rewrite !diffs_at. set (accounts := ibkr_to_account _) in *. set (rows := map snd (map_to_list (rw_snapshot w))) in *.
  assert (All : forall A (f : A -> Z) l, of_target f None l = l).
  { intros A f l. unfold of_target. induction l as [|x l IH]; [done|]. simpl. by rewrite IH. }
  rewrite !(All _ p_account_id), !(All _ mp_account_id). destruct (Z.eqb_spec k.1.1 t) as [<-|N].
  - unfold of_target. rewrite ledger_total_account.
    assert (G : group_at accounts k (map broker_line_from_row (list_snapshot (Some ibkr) w))
      = group_at accounts k (map broker_line_from_row (list_snapshot None w))).
    { apply small_perm; [|exact One]. unfold list_snapshot. fold rows.
      rewrite (group_perm _ _ _ _ (Permutation_map broker_line_from_row (sort_by_perm _ _))).
      rewrite (group_perm _ _ (map broker_line_from_row (sort_by _ (List.filter (fun _ => true) rows))) _
                 (Permutation_map broker_line_from_row (sort_by_perm _ _))).
      rewrite snapshot_group by exact S. pose proof (All _ br_con rows) as E. unfold of_target in E. by rewrite E. }
    unfold broker_total. by rewrite G.
  - assert (broker_total accounts (map broker_line_from_row (list_snapshot (Some ibkr) w)) k = None) as ->.
    { unfold broker_total, group_at. destruct (List.filter _ _) as [|l ls] eqn:E; [done|exfalso].
      assert (I : l ∈ l :: ls) by (by left). rewrite <- E in I. apply filter_elem in I as [I B].
      apply bool_decide_eq_true_1 in B. apply list_elem_of_fmap in I as (r & -> & I). unfold list_snapshot in I.
      rewrite sort_by_perm in I. apply filter_elem in I as [_ Q]. apply String.eqb_eq in Q. unfold broker_key in B.
      cbn [bl_ibkr_account broker_line_from_row] in B. rewrite Q in B. subst accounts. rewrite T in B.
      injection B as <-. by destruct N. }
    assert (ledger_total (of_target p_account_id (Some t) (list_open (rw_positions w)))
      (of_target mp_account_id (Some t) (manual_open w)) k = None) as ->.
    { rewrite <- ledger_total_account. unfold of_target.
      assert (F : forall A (f : A -> Z) l, List.filter (fun x => (f x =? k.1.1)%Z) (List.filter (fun x => (f x =? t)%Z) l) = []).
      { intros A f l. induction l as [|x l IH]; [done|]. cbn [List.filter]. destruct (Z.eqb_spec (f x) t) as [E|]; [|done].
        cbn [List.filter]. destruct (Z.eqb_spec (f x) k.1.1); [congruence|done]. }
      rewrite !F. by vm_compute. }
    by vm_compute.
Qed.

(** ** Examples: the ledger holds ten, the broker four *)
Definition ex_snapshot_row (account : string) (q : Q) : BrokerPositionRow := {|
  br_ibkr := account; br_con := 5; br_account := Some 7%Z; br_symbol := "AAPL"; br_sec_type := "CFD";
  br_currency := "USD"; br_exchange := "SMART"; br_signed_qty := q; br_avg_cost := 100; br_as_of := 5 |}.
Definition ex_align_world (account : string) (q : Q) : CriticalWorld :=
  let w := ex_critical "AAPL-CFD-SMART-USD:5" in
  set_cw_rows (with_rows {[ (account, 5%Z) := ex_snapshot_row account q ]} [] [] (cw_rows w)) w.
(** What is sent is kept among the latches. *)
Definition ex_align_sent (i : OrderIntent) : Sent := {|
  se_result := Ok [Persistence.ex_fill "r1" "AAPL" BUY 0 6 100 1 i];
  se_after := fun w => {| cw_rows := cw_rows w;
    cw_critical := list_to_set (map (fun l => (Qfloor (num_val (leg_quantity l)), signal_id i)) (legs i)) ∪ cw_critical w |} |}.
Definition ex_align (account : string) (commits : bool) (w : CriticalWorld) : CriticalWorld * AlignAnswer :=
  do_align_line Ok (fun _ => "error"%string) ex_align_sent 30 ∅ commits account " aapl" "cfd" 5 w.
(** The snapshot is not taken again: until the next sweep a second request
    sends the same order once more. *)
Example aligned_twice :
  let w := fst (ex_align "DU7" true (ex_align_world "DU7" 4)) in
  match ex_align "DU7" true w with
  | (_, AlignResponse side q ALIGNED _) => side = BUY /\ q = fl (10 - 4)
  | _ => False
  end.
Proof. by vm_compute. Qed.
(** The orders are filled, the event cannot be written: the answer is FAILED. *)
Example aligned_but_failed :
  match ex_align "DU7" false (ex_align_world "DU7" 4) with
  | (w, AlignResponse _ _ s _) => s = ALIGN_FAILED /\ bool_decide ((6%Z, "RECON-ALIGN-5"%string) ∈ cw_critical w) = true
  | _ => False
  end.
Proof. by vm_compute. Qed.
(** A line the broker spells otherwise counts as nothing held: all of the
    ledger's ten are bought, although four are held. *)
Example aligned_by_spelling :
  match snd (ex_align "DU7" true (ex_align_world "du7" 4)) with
  | AlignResponse BUY q ALIGNED _ => Qred q = 10
  | _ => False
  end.
Proof. by vm_compute. Qed.
(** The screen of one account filters lines by its spelling, positions by its
    id: the line the broker spells otherwise is missing, and what it covers is
    shown as held by the ledger only. *)
Example ghost_by_spelling :
  let w := cw_rows (ex_align_world "du7" 10) in
  map rd_kind (sc_diffs (collect_reconcile_positions (fun _ => 0%Z) (Some "DU7"%string) w)) = [MISMATCH_LEDGER_GHOST]
  /\ map rd_kind (sc_diffs (collect_reconcile_positions (fun _ => 0%Z) None w)) = [MISMATCH_MATCH].
Proof. by vm_compute. Qed.
