(* ===== verification/AccountFlatten.v ===== *)
(** * Closing the ledger after an account flatten:
    [close_all_ledger_after_account_flatten] of [services/kill_switch.py]

    The orders were sent elsewhere; here the positions of the snapshot are
    settled from the broker's quantities and the executions since the
    operation began, first in first out. *)

From S2P Require Import Prelude Rounding PyText PyTime Identifiers RmsModels Accounts TradeBook Positions TradeExecutions ManualLedger ManualCallbacks KillSwitch TradingPause ManualTrading ManualFlatten.

#[local] Open Scope Q_scope.
#[local] Open Scope py_scope.
#[local] Set Warnings "-clear-no-such-hyp".

Definition ALLOC_EPS : Q := 1 # 10000.

(** The executions since the operation, by symbol. *)
Definition execs_since (account since : Z) (m : TradeBookTable) : list TradeExecution :=
  List.filter (fun e => (te_account_id e =? account)%Z && (since <=? te_executed_at e)%Z)
    (map snd (map_to_list m)).
Definition exec_quantities (l : list TradeExecution) : gmap string Q :=
  fold_left (fun m e => add_qty (te_symbol e) (dabs (te_quantity e)) m) l ∅.
Definition exec_notionals (l : list TradeExecution) : gmap string Q :=
  fold_left (fun m e => add_qty (te_symbol e) (dmul (dabs (te_quantity e)) (te_price e)) m) l ∅.
Definition average_prices (l : list TradeExecution) : gmap string Q :=
  map_imap (fun s q => if 0 <? q then Some (ddiv (qty_at (exec_notionals l) s) q) else None)
    (exec_quantities l).

(** The snapshot of an operation that has none: what is open now. *)
Definition fallback_snapshots (op account : Z) (s : KillState) : list FlattenSnapshot :=
  map (snapshot_engine op account) (open_positions_of account s)
  ++ map (snapshot_manual op account) (manual_positions_of account [MAN_OPEN] s).
Definition flatten_snapshots (op account : Z) (s : KillState) : list FlattenSnapshot :=
  match snapshots_of op s with [] => fallback_snapshots op account s | l => fifo l end.

(** What the sweep reads once, and what it moves. *)
Record Evidence : Type := { ev_broker : gmap string Q; ev_prices : gmap string Q }.
Record Sweep : Type := {
  sw_positions : PositionTable;
  sw_manual : ManualBook;
  sw_remaining : gmap string Q;      (* executed quantity not yet allocated *)
  sw_closed : Z;
  sw_pending : Z
}.
Definition with_engine (m : PositionTable) (remaining : gmap string Q) (closed pending : Z) (w : Sweep) : Sweep := {|
  sw_positions := m; sw_manual := sw_manual w; sw_remaining := remaining;
  sw_closed := (sw_closed w + closed)%Z; sw_pending := (sw_pending w + pending)%Z |}.
Definition with_desk (b : ManualBook) (remaining : gmap string Q) (closed pending : Z) (w : Sweep) : Sweep := {|
  sw_positions := sw_positions w; sw_manual := b; sw_remaining := remaining;
  sw_closed := (sw_closed w + closed)%Z; sw_pending := (sw_pending w + pending)%Z |}.
Definition take_qty (symbol : string) (q : Q) (m : gmap string Q) : gmap string Q :=
  <[norm_text symbol := dsub (qty_at m symbol) q]> m.
Definition enough (remaining : gmap string Q) (symbol : string) (q : Q) : bool :=
  q <=? dadd (qty_at remaining symbol) ALLOC_EPS.

(** The symbols of a pair, and what each of them needs; the second leg speaks
    for both when they are the same. *)
Definition needed_syms (a b : option string) : list string :=
  List.filter (fun s => negb (str_empty s)) [opt_str a; opt_str b].
Definition needed_qtys (a : option string) (qa : option Q) (b : option string) (qb : option Q) : gmap string Q :=
  let put s q m := match q with
                   | Some q => if str_empty (opt_str s) then m else <[norm_text (opt_str s) := dabs q]> m
                   | None => m
                   end in
  put b qb (put a qa ∅).
Definition missing_evidence (remaining prices needed : gmap string Q) (syms : list string) : bool :=
  existsb (fun s => match needed !! norm_text s with
                    | Some q => negb (enough remaining s q)
                    | None => false
                    end) syms
  || existsb (fun s => negb (bool_decide (is_Some (prices !! norm_text s)))) syms.
Definition flattened_row (p : PositionModel) : PositionModel :=
  with_state RISK_STATE_FLATTENED_PENDING_PRICE (p_closed_at p) (p_exit_reason p) p.
Definition settle_engine (now : Z) (ev : Evidence) (account : Z) (trade : string)
    (a : option string) (qa : option Q) (b : option string) (qb : option Q) (w : Sweep) : result Sweep :=
  let syms := needed_syms a b in
  if existsb (fun s => negb (Qeq_bool (qty_at (ev_broker ev) s) 0)) syms then Ok w
  else
    match sw_positions w !! (account, trade) with
    | None => Ok w
    | Some p =>
        if in_state RISK_STATE_CLOSED p then Ok w
        else
          let needed := needed_qtys a qa b qb in
          if missing_evidence (sw_remaining w) (ev_prices ev) needed syms then
            if in_state RISK_STATE_OPEN p
            then Ok (with_engine (<[(account, trade) := flattened_row p]> (sw_positions w)) (sw_remaining w) 0 1 w)
            else Ok w
          else
            let remaining := fold_left (fun m s => match needed !! norm_text s with
                                                   | Some q => if Qeq_bool q 0 then m else take_qty s q m
                                                   | None => m
                                                   end) syms (sw_remaining w) in
            let marks := list_to_map (map (fun s => (s, qty_at (ev_prices ev) s)) syms) in
            match Positions.close_trade now trade (Some account) (Some marks) None None (sw_positions w) with
            | Ok (m, _) => Ok (with_engine m remaining 1 0 w)
            | Raise (OtherError e) => Raise (OtherError e)     (* the transaction is lost *)
            | Raise _ => Ok (with_engine (sw_positions w) remaining 0 0 w)
            end
    end.
Definition settle_manual (now : Z) (ev : Evidence) (account : Z) (trade : string) (symbol : option string)
    (signed : option Q) (w : Sweep) : result Sweep :=
  let s := opt_str symbol in
  if str_empty (norm_text s) then Ok w
  else
    match position_of account trade (sw_manual w) with
    | None => Ok w
    | Some p =>
        if negb (bool_decide (mp_status p ∈ [MAN_OPEN; MAN_PENDING_PRICE])) then Ok w
        else if negb (Qeq_bool (qty_at (ev_broker ev) s) 0) then Ok w
        else
          let req := dabs (default 0 signed) in
          if negb (enough (sw_remaining w) s req) || negb (bool_decide (is_Some (ev_prices ev !! norm_text s))) then
            if bool_decide (mp_status p = MAN_OPEN)
            then Ok (with_desk (change_position account trade (with_manual_status MAN_PENDING_PRICE p) (sw_manual w))
                       (sw_remaining w) 0 1 w)
            else Ok w
          else
            let p' := moved_position 0 (mp_avg_cost p) (mp_realized_pnl p) MAN_CLOSED (Some now) p in
            Ok (with_desk (change_position account trade p' (sw_manual w)) (take_qty s req (sw_remaining w)) 1 0 w)
    end.
Definition settle_snapshot (now : Z) (ev : Evidence) (x : FlattenSnapshot) (w : Sweep) : result Sweep :=
  match sn_body x with
  | SnapEngine a qa _ b qb _ => settle_engine now ev (sn_account_id x) (sn_trade_id x) a qa b qb w
  | SnapManual _ symbol _ _ _ signed _ => settle_manual now ev (sn_account_id x) (sn_trade_id x) symbol signed w
  end.
Fixpoint settle_snapshots (now : Z) (ev : Evidence) (l : list FlattenSnapshot) (w : Sweep) : result Sweep :=
  match l with
  | [] => Ok w
  | x :: l => let! w := settle_snapshot now ev x w in settle_snapshots now ev l w
  end.
(** Whether a position of the snapshot is still there and not closed. *)
Definition unsettled (w : Sweep) (x : FlattenSnapshot) : bool :=
  match sn_body x with
  | SnapEngine _ _ _ _ _ _ =>
      match sw_positions w !! (sn_account_id x, sn_trade_id x) with
      | Some p => negb (in_state RISK_STATE_CLOSED p)
      | None => false
      end
  | SnapManual _ _ _ _ _ _ _ =>
      match position_of (sn_account_id x) (sn_trade_id x) (sw_manual w) with
      | Some p => negb (bool_decide (mp_status p = MAN_CLOSED))
      | None => false
      end
  end.
Definition final_status (pending remaining : Z) : KsStatus :=
  if (0 <? pending)%Z && (0 <? remaining)%Z then KS_RECONCILING
  else if (remaining =? 0)%Z then KS_COMPLETE else KS_UNRESOLVED.
Definition set_ledgers (m : PositionTable) (b : ManualBook) (s : KillState) : KillState := {|
  ks_accounts := ks_accounts s; ks_ops := ks_ops s; ks_snapshots := ks_snapshots s; ks_positions := m;
  ks_manual := b; ks_cache := ks_cache s; ks_manual_cache := ks_manual_cache s |}.
Definition TWO_HOURS : Z := 7200 * second.
Definition close_all_ledger_after_account_flatten (now op account : Z) (rows : list BrokerPosition)
    (trades : TradeBookTable) (s : KillState) : result (KillState * Z) :=
  let l := flatten_snapshots op account s in
  let since := match ks_ops s !! op with Some o => op_created_at o | None => (now - TWO_HOURS)%Z end in
  let execs := execs_since account since trades in
  let ev := {| ev_broker := broker_quantities rows; ev_prices := average_prices execs |} in
  let! w := settle_snapshots now ev l {| sw_positions := ks_positions s; sw_manual := ks_manual s;
                                         sw_remaining := exec_quantities execs; sw_closed := 0; sw_pending := 0 |} in
  let remaining := Z.of_nat (length (List.filter (unsettled w) l)) in
  let status := final_status (sw_pending w) remaining in
  Ok (update_operation_completion now op status remaining (set_ledgers (sw_positions w) (sw_manual w) s),
      sw_closed w).

(** ** Facts *)
Definition snapshot_marks (ev : Evidence) (a b : option string) : gmap string Q :=
  list_to_map (map (fun s => (s, qty_at (ev_prices ev) s)) (needed_syms a b)).
(** What settling a snapshot takes out of the executions, by symbol. *)
Definition demands (x : FlattenSnapshot) : list (string * Q) :=
  match sn_body x with
  | SnapEngine a qa _ b qb _ =>
      omap (fun s => match needed_qtys a qa b qb !! norm_text s with
                     | Some q => if Qeq_bool q 0 then None else Some (norm_text s, q)
                     | None => None
                     end) (needed_syms a b)
  | SnapManual _ symbol _ _ _ signed _ => [(norm_text (opt_str symbol), dabs (default 0 signed))]
  end.
Definition taken_of (symbol : string) (taken : list (string * Q)) : list Q :=
  omap (fun d => if decide (d.1 = norm_text symbol) then Some d.2 else None) taken.
(** What is left of the executions of a symbol, first in first out. *)
Definition left_for (executed : gmap string Q) (taken : list (string * Q)) (symbol : string) : Q :=
  fold_left dsub (taken_of symbol taken) (qty_at executed symbol).
(** Whether a position of the snapshot was open in [w] and is closed in [w']. *)
Definition engine_snapshot (x : FlattenSnapshot) : bool :=
  match sn_body x with SnapEngine _ _ _ _ _ _ => true | _ => false end.
Definition snap_key (x : FlattenSnapshot) : Z * string := (sn_account_id x, sn_trade_id x).
Definition snap_id (x : FlattenSnapshot) : bool * (Z * string) := (engine_snapshot x, snap_key x).
Abbreviation Ledgers := (PositionTable * ManualBook)%type.
Definition closed_in (x : FlattenSnapshot) (w : Ledgers) : option bool :=
  if engine_snapshot x then in_state RISK_STATE_CLOSED <$> w.1 !! snap_key x
  else (fun p => bool_decide (mp_status p = MAN_CLOSED)) <$> position_of (sn_account_id x) (sn_trade_id x) w.2.
Definition closed_between (w w' : Ledgers) (x : FlattenSnapshot) : bool :=
  bool_decide (closed_in x w = Some false) && bool_decide (closed_in x w' = Some true).
(** What the positions of [l] that were closed between [w] and [w'] took. *)
Definition taken_by (w w' : Ledgers) (l : list FlattenSnapshot) : list (string * Q) :=
  flat_map (fun x => if closed_between w w' x then demands x else []) l.

(** The evidence a pair is settled on: the broker holds none of its symbols;
    to be closed, each symbol has a price, and what the positions before it
    left of the executions covers it. *)
Definition broker_flat (ev : Evidence) (a b : option string) : Prop :=
  forall s, s ∈ needed_syms a b -> qty_at (ev_broker ev) s == 0.
Definition priced (ev : Evidence) (left : string -> Q) (a : option string) (qa : option Q)
    (b : option string) (qb : option Q) : Prop :=
  forall s, s ∈ needed_syms a b ->
    is_Some (ev_prices ev !! norm_text s)
    /\ forall q, needed_qtys a qa b qb !! norm_text s = Some q -> q <= dadd (left s) ALLOC_EPS.
Inductive settles (now : Z) (ev : Evidence) (left : string -> Q) (x : FlattenSnapshot)
    (p p' : PositionModel) : Prop :=
  | SettlesPending a qa ma b qb mb : sn_body x = SnapEngine a qa ma b qb mb -> broker_flat ev a b ->
      p_risk_state p = RISK_STATE_OPEN -> p' = flattened_row p -> settles now ev left x p p'
  | SettlesClosed a qa ma b qb mb : sn_body x = SnapEngine a qa ma b qb mb -> broker_flat ev a b ->
      priced ev left a qa b qb -> p_risk_state p <> RISK_STATE_CLOSED ->
      store (closed_row now (snapshot_marks ev a b) None None p) = Ok p' -> settles now ev left x p p'.

(** *** Allocation *)
Lemma qty_at_take symbol q m s :
  qty_at (take_qty symbol q m) s
  = if decide (norm_text symbol = norm_text s) then dsub (qty_at m s) q else qty_at m s.
Proof.
  unfold take_qty, qty_at. destruct (decide _) as [E|E]; [by rewrite E, lookup_insert_eq|by rewrite lookup_insert_ne].
Qed.
Lemma taken_of_app s t1 t2 : taken_of s (t1 ++ t2) = taken_of s t1 ++ taken_of s t2.
Proof. apply omap_app. Qed.
Lemma left_for_app executed t1 t2 s :
  left_for executed (t1 ++ t2) s = fold_left dsub (taken_of s t2) (left_for executed t1 s).
Proof. unfold left_for. by rewrite taken_of_app, fold_left_app. Qed.
Lemma dsub_mono x y q : x <= y -> dsub x q <= dsub y q.
Proof. intros H. apply (rounds_mono (f := ctx)). lra. Qed.
Lemma fold_dsub_mono l x y : x <= y -> fold_left dsub l x <= fold_left dsub l y.
Proof. revert x y. induction l as [|q l IH]; intros x y H; simpl; [done|]. by apply IH, dsub_mono. Qed.
Lemma fold_dsub_le l x : dec_repr x -> Forall (Qle 0) l -> dec_repr (fold_left dsub l x) /\ fold_left dsub l x <= x.
Proof.
  intros R H. revert x R. induction H as [|q l Hq _ IH]; intros x R; simpl; [split; [done|lra]|].
  destruct (IH (dsub x q)) as [R' L]; [apply (rounds_repr (f := ctx))|]. split; [done|].
  eapply Qle_trans; [exact L|]. apply (rounds_le (f := ctx)); [done|lra].
Qed.
(** The allocation of a pair takes its demands. *)
Lemma qty_at_fold (needed : gmap string Q) l m t :
  qty_at (fold_left (fun m s => match needed !! norm_text s with
                                | Some q => if Qeq_bool q 0 then m else take_qty s q m
                                | None => m
                                end) l m) t
  = fold_left dsub (taken_of t (omap (fun s => match needed !! norm_text s with
                     | Some q => if Qeq_bool q 0 then None else Some (norm_text s, q)
                     | None => None
                     end) l)) (qty_at m t).
Proof.
  revert m. induction l as [|s l IH]; intros m; [done|]. cbn [fold_left omap list_omap]. rewrite IH.
  destruct (needed !! norm_text s) as [q|]; [|done]. destruct (Qeq_bool q 0); [done|].
  rewrite qty_at_take. unfold taken_of at 2. cbn [omap list_omap fst snd].
  by destruct (decide (norm_text s = norm_text t)).
Qed.
Lemma needed_nonneg a qa b qb s q : needed_qtys a qa b qb !! s = Some q -> 0 <= q.
Proof.
  unfold needed_qtys. intros H.
  assert (P : forall (t : option string) (x : option Q) (m : gmap string Q),
    (forall s q, m !! s = Some q -> 0 <= q) ->
    forall s q, match x with
                | Some x => if str_empty (opt_str t) then m else <[norm_text (opt_str t) := dabs x]> m
                | None => m
                end !! s = Some q -> 0 <= q).
  { intros t x m M s' q' L. destruct x as [x|]; [|exact (M s' q' L)]. destruct (str_empty (opt_str t)); [exact (M s' q' L)|].
    apply lookup_insert_Some in L as [[_ <-]|[_ L]]; [apply dabs_nonneg|exact (M s' q' L)]. }
  revert H. apply P. apply P. intros s' q' L. by rewrite lookup_empty in L.
Qed.
Lemma demands_nonneg x s : Forall (Qle 0) (taken_of s (demands x)).
Proof.
  apply Forall_forall. intros q (d & Hd & Hq)%list_elem_of_omap. destruct (decide _); [|done].
  injection Hq as <-. unfold demands in Hd. destruct (sn_body x).
  - apply list_elem_of_omap in Hd as (t & _ & Ht). destruct (needed_qtys _ _ _ _ !! _) as [q|] eqn:L; [|done].
    destruct (Qeq_bool q 0); [done|]. injection Ht as <-. by eapply needed_nonneg.
  - apply list_elem_of_singleton in Hd as ->. apply dabs_nonneg.
Qed.
(** The quantities executed are sums of decimals. *)
Lemma executed_repr l s : dec_repr (qty_at (exec_quantities l) s).
Proof.
  unfold exec_quantities. assert (E : forall s, dec_repr (qty_at (∅ : gmap string Q) s))
    by (intros t; unfold qty_at; rewrite lookup_empty; apply zero_repr).
  revert E s. generalize (∅ : gmap string Q) as m. induction l as [|e l IH]; intros m E s; simpl; [apply E|].
  apply IH. intros t. unfold add_qty, qty_at. destruct (decide (norm_text (te_symbol e) = norm_text t)) as [N|N].
  - rewrite N, lookup_insert_eq. apply (rounds_repr (f := ctx)).
  - rewrite lookup_insert_ne by done. apply E.
Qed.

(** What remains to allocate is at most what the closed positions left. *)
Definition within (executed : gmap string Q) (taken : list (string * Q)) (remaining : gmap string Q) : Prop :=
  forall s, dec_repr (qty_at remaining s) /\ qty_at remaining s <= left_for executed taken s.
(** [m'] is [m] less the demands of [x]. *)
Definition less (x : FlattenSnapshot) (m m' : gmap string Q) : Prop :=
  forall s, qty_at m' s = fold_left dsub (taken_of s (demands x)) (qty_at m s).
Lemma within_taken executed taken x m m' :
  within executed taken m -> less x m m' -> within executed (taken ++ demands x) m'.
Proof.
  intros W L s. rewrite L, left_for_app. destruct (W s) as [R H]. split.
  - by apply fold_dsub_le, demands_nonneg.
  - by apply fold_dsub_mono.
Qed.
Lemma within_lost executed taken x m m' : within executed taken m -> less x m m' -> within executed taken m'.
Proof.
  intros W L s. rewrite L. destruct (W s) as [R H].
  destruct (fold_dsub_le _ _ R (demands_nonneg x s)) as [R' H']. split; [done|]. lra.
Qed.
Lemma enough_mono executed taken remaining s q :
  within executed taken remaining -> enough remaining s q = true ->
  q <= dadd (left_for executed taken s) ALLOC_EPS.
Proof.
  intros W E. unfold enough in E. bool_to_prop. destruct (W s) as [_ L]. eapply Qle_trans; [exact E|].
  apply (rounds_mono (f := ctx)). lra.
Qed.
Lemma missing_priced executed taken remaining ev a qa b qb :
  within executed taken remaining ->
  missing_evidence remaining (ev_prices ev) (needed_qtys a qa b qb) (needed_syms a b) = false ->
  priced ev (left_for executed taken) a qa b qb.
Proof.
  intros W [H1 H2]%orb_false_iff s I. apply list_elem_of_In in I. split.
  - destruct (bool_decide (is_Some (ev_prices ev !! norm_text s))) eqn:E; [by apply bool_decide_eq_true_1 in E|].
    exfalso. assert (X : existsb (fun s => negb (bool_decide (is_Some (ev_prices ev !! norm_text s)))) (needed_syms a b) = true)
      by (apply existsb_exists; exists s; by rewrite E). congruence.
  - intros q L. apply (enough_mono executed taken remaining); [done|].
    destruct (enough remaining s q) eqn:E; [done|]. exfalso.
    assert (X : existsb (fun s => match needed_qtys a qa b qb !! norm_text s with
                                  | Some q => negb (enough remaining s q) | None => false end) (needed_syms a b) = true)
      by (apply existsb_exists; exists s; by rewrite L, E). congruence.
Qed.
Lemma flat_spec ev a b :
  existsb (fun s => negb (Qeq_bool (qty_at (ev_broker ev) s) 0)) (needed_syms a b) = false -> broker_flat ev a b.
Proof.
  intros H s I%list_elem_of_In. destruct (Qeq_bool (qty_at (ev_broker ev) s) 0) eqn:E; [by apply Qeq_bool_eq|].
  exfalso. assert (X : existsb (fun s => negb (Qeq_bool (qty_at (ev_broker ev) s) 0)) (needed_syms a b) = true)
    by (apply existsb_exists; exists s; by rewrite E). congruence.
Qed.

(** *** One snapshot *)
Definition ledgers (w : Sweep) : Ledgers := (sw_positions w, sw_manual w).
(** The step of a snapshot moves its own row only, on its evidence, and takes
    what it needs when it closes it. *)
Record stepped (now : Z) (ev : Evidence) (executed : gmap string Q) (taken : list (string * Q))
    (x : FlattenSnapshot) (w w' : Sweep) : Prop := {
  st_keyed : keyed (sw_positions w');
  st_others : forall y, snap_id y <> snap_id x -> closed_in y (ledgers w') = closed_in y (ledgers w);
  st_rows : forall k, sw_positions w' !! k = sw_positions w !! k
    \/ engine_snapshot x = true /\ snap_key x = k /\ exists p p',
       sw_positions w !! k = Some p /\ sw_positions w' !! k = Some p'
       /\ settles now ev (left_for executed taken) x p p';
  st_within : within executed (taken ++ taken_by (ledgers w) (ledgers w') [x]) (sw_remaining w')
}.
Lemma taken_one w w' x : taken_by w w' [x] = if closed_between w w' x then demands x else [].
Proof. unfold taken_by. simpl. apply app_nil_r. Qed.
Lemma not_closed_same w w' x : closed_in x w' = closed_in x w -> closed_between w w' x = false.
Proof. unfold closed_between. intros ->. destruct (closed_in x w) as [[]|]; done. Qed.
Lemma not_closed_open w w' x : closed_in x w' = Some false -> closed_between w w' x = false.
Proof. unfold closed_between. intros ->. by rewrite andb_false_r. Qed.
Lemma closed_between_spec w w' x c c' :
  closed_in x w = Some c -> closed_in x w' = Some c' -> closed_between w w' x = negb c && c'.
Proof. unfold closed_between. intros -> ->. by destruct c, c'. Qed.
Lemma stepped_same now ev executed taken x w w' :
  within executed taken (sw_remaining w') -> keyed (sw_positions w) -> ledgers w' = ledgers w ->
  stepped now ev executed taken x w w'.
Proof.
  intros W K E. injection E as E1 E2. split.
  - by rewrite E1.
  - intros y _. unfold ledgers. by rewrite E1, E2.
  - intros k. left. by rewrite E1.
  - rewrite taken_one, not_closed_same, app_nil_r by (unfold ledgers; by rewrite E1, E2). done.
Qed.
Lemma stepped_row now ev executed taken x w w' p p' :
  engine_snapshot x = true -> keyed (sw_positions w) -> sw_positions w !! snap_key x = Some p ->
  row_key p' = snap_key x -> ledgers w' = (<[snap_key x := p']> (sw_positions w), sw_manual w) ->
  settles now ev (left_for executed taken) x p p' ->
  within executed (if in_state RISK_STATE_CLOSED p' then taken ++ demands x else taken) (sw_remaining w') ->
  in_state RISK_STATE_CLOSED p = false ->
  stepped now ev executed taken x w w'.
Proof.
  intros En K L R E S W C. injection E as E1 E2. split.
  - rewrite E1. intros k q Q. apply lookup_insert_Some in Q as [[<- <-]|[_ Q]]; [done|by apply K].
  - intros y N. unfold closed_in, ledgers. rewrite E1, E2. simpl. destruct (engine_snapshot y) eqn:Ey; [|done].
    rewrite lookup_insert_ne; [done|]. intros Ek. apply N. unfold snap_id. by rewrite Ey, En, Ek.
  - intros k. rewrite E1. destruct (decide (snap_key x = k)) as [<-|N].
    + right. split; [done|]. split; [done|]. exists p, p'. by rewrite lookup_insert_eq.
    + left. by rewrite lookup_insert_ne.
  - rewrite taken_one, (closed_between_spec _ _ _ false (in_state RISK_STATE_CLOSED p')).
    + destruct (in_state RISK_STATE_CLOSED p'); simpl; [done|]. by rewrite app_nil_r.
    + unfold closed_in, ledgers. rewrite En. simpl. by rewrite L, <- C.
    + unfold closed_in, ledgers. rewrite En, E1. simpl. by rewrite lookup_insert_eq.
Qed.
Lemma store_state p p' : store p = Ok p' -> p_risk_state p' = p_risk_state p.
Proof. unfold store. intros St. repeat (apply rbind_ok in St as (? & _ & St)). by injection St as <-. Qed.
Lemma settle_engine_step now ev executed taken x a qa ma b qb mb w w' :
  sn_body x = SnapEngine a qa ma b qb mb -> within executed taken (sw_remaining w) -> keyed (sw_positions w) ->
  settle_engine now ev (sn_account_id x) (sn_trade_id x) a qa b qb w = Ok w' ->
  stepped now ev executed taken x w w'.
Proof.
  intros Bd W K. assert (En : engine_snapshot x = true) by (unfold engine_snapshot; by rewrite Bd).
  unfold settle_engine. fold (snap_key x).
  destruct (existsb _ _) eqn:Fl; [intros [= <-]; by apply stepped_same|]. apply flat_spec in Fl.
  destruct (sw_positions w !! snap_key x) as [p|] eqn:L; [|intros [= <-]; by apply stepped_same].
  destruct (in_state RISK_STATE_CLOSED p) eqn:C; [intros [= <-]; by apply stepped_same|].
  assert (NC : p_risk_state p <> RISK_STATE_CLOSED) by (unfold in_state in C; by apply bool_decide_eq_false_1 in C).
  cbv zeta. destruct (missing_evidence _ _ _ _) eqn:M.
  - destruct (in_state RISK_STATE_OPEN p) eqn:O; intros [= <-]; [|by apply stepped_same].
    apply (stepped_row now ev executed taken x w _ p (flattened_row p)); try done; [by apply (K (snap_key x) p)|].
    eapply SettlesPending; [done|done| |done]. unfold in_state in O. by apply bool_decide_eq_true_1 in O.
  - apply (missing_priced executed taken) in M; [|done].
    set (rem := fold_left _ _ _).
    assert (Le : less x (sw_remaining w) rem).
    { intros s. unfold rem, demands. rewrite Bd. apply qty_at_fold. }
    assert (Lost : within executed taken rem) by (by eapply within_lost).
    rewrite (close_trade_at _ _ _ _ _ _ _ K). fold (snap_key x). rewrite L, C.
    fold (snapshot_marks ev a b). destruct (marks_cover _ p); [|intros [= <-]; by apply stepped_same].
    cbn [default]. destruct (rbind _ _) as [[m q]|e] eqn:Sv.
    + intros [= <-]. apply rbind_ok in Sv as (m' & (p' & St & ->)%save_ok & [= <- <-]).
      apply (stepped_row now ev executed taken x w _ p p'); try done.
      * rewrite (store_key _ _ St). by apply (K (snap_key x) p).
      * unfold ledgers. simpl. do 2 f_equal. transitivity (row_key p); [done|by apply (K (snap_key x) p)].
      * by eapply SettlesClosed.
      * assert (Cl : in_state RISK_STATE_CLOSED p' = true)
          by (unfold in_state; rewrite (store_state _ _ St); by apply bool_decide_eq_true_2).
        rewrite Cl. exact (within_taken _ _ _ _ _ W Le).
    + destruct e; intros [= <-]; by apply stepped_same.
Qed.
(** Other positions of the manual book are where they were. *)
Lemma position_of_ne account trade a t p b :
  (a, t) <> (account, trade) -> at_trade account trade p = true ->
  position_of a t (change_position account trade p b) = position_of a t b.
Proof.
  intros N P. unfold position_of, change_position; cbn [set_manual_positions mb_positions].
  assert (X : forall q, at_trade account trade q = true -> at_trade a t q = false).
  { intros q [E1%Z.eqb_eq E2%String.eqb_eq]%andb_true_iff. unfold at_trade. rewrite E1, E2.
    destruct (Z.eqb_spec account a) as [->|]; [|done]. destruct (String.eqb_spec trade t) as [->|]; done. }
  induction (mb_positions b) as [|x l IH]; [done|]. simpl. destruct (at_trade account trade x) eqn:E.
  - by rewrite (X p P), (X x E).
  - by destruct (at_trade a t x).
Qed.
Lemma stepped_desk now ev executed taken x w w' p p' :
  engine_snapshot x = false -> keyed (sw_positions w) ->
  position_of (sn_account_id x) (sn_trade_id x) (sw_manual w) = Some p -> mp_status p <> MAN_CLOSED ->
  at_trade (sn_account_id x) (sn_trade_id x) p' = true ->
  ledgers w' = (sw_positions w, change_position (sn_account_id x) (sn_trade_id x) p' (sw_manual w)) ->
  within executed (if bool_decide (mp_status p' = MAN_CLOSED) then taken ++ demands x else taken) (sw_remaining w') ->
  stepped now ev executed taken x w w'.
Proof.
  intros En K L C A E W. injection E as E1 E2. split.
  - by rewrite E1.
  - intros y N. unfold closed_in, ledgers. rewrite E1, E2. simpl. destruct (engine_snapshot y) eqn:Ey; [done|].
    rewrite position_of_ne; [done| |done]. intros Ek. apply N. unfold snap_id, snap_key. by rewrite Ey, En, Ek.
  - intros k. left. by rewrite E1.
  - rewrite taken_one, (closed_between_spec _ _ _ false (bool_decide (mp_status p' = MAN_CLOSED))).
    + destruct (bool_decide (mp_status p' = MAN_CLOSED)); simpl; [done|]. by rewrite app_nil_r.
    + unfold closed_in, ledgers. rewrite En. simpl. rewrite L. simpl. by rewrite bool_decide_eq_false_2.
    + unfold closed_in, ledgers. rewrite En, E2. simpl. by rewrite (position_of_change _ _ _ _ _ L A).
Qed.
Lemma settle_manual_step now ev executed taken x o symbol c ty sd signed avg w w' :
  sn_body x = SnapManual o symbol c ty sd signed avg -> within executed taken (sw_remaining w) ->
  keyed (sw_positions w) ->
  settle_manual now ev (sn_account_id x) (sn_trade_id x) symbol signed w = Ok w' ->
  stepped now ev executed taken x w w'.
Proof.
  intros Bd W K. assert (En : engine_snapshot x = false) by (unfold engine_snapshot; by rewrite Bd).
  unfold settle_manual. destruct (str_empty _); [intros [= <-]; by apply stepped_same|].
  destruct (position_of _ _ _) as [p|] eqn:L; [|intros [= <-]; by apply stepped_same].
  destruct (negb (bool_decide (mp_status p ∈ _))) eqn:St; [intros [= <-]; by apply stepped_same|].
  apply negb_false_iff, bool_decide_eq_true_1 in St.
  assert (C : mp_status p <> MAN_CLOSED) by (intros E; rewrite E in St; set_solver).
  pose proof (position_of_at _ _ _ _ L) as A.
  destruct (negb _); [intros [= <-]; by apply stepped_same|]. cbv zeta.
  destruct (_ || _).
  - destruct (bool_decide _); intros [= <-]; [|by apply stepped_same].
    by apply (stepped_desk now ev executed taken x w _ p (with_manual_status MAN_PENDING_PRICE p)).
  - intros [= <-].
    apply (stepped_desk now ev executed taken x w _ p
             (moved_position 0 (mp_avg_cost p) (mp_realized_pnl p) MAN_CLOSED (Some now) p)); try done.
    apply (within_taken _ _ _ _ _ W).
    change (less x (sw_remaining w) (take_qty (opt_str symbol) (dabs (default 0 signed)) (sw_remaining w))).
    intros s. unfold demands. rewrite Bd, qty_at_take. unfold taken_of. cbn [omap list_omap fst snd].
    by destruct (decide (norm_text (opt_str symbol) = norm_text s)).
Qed.

(** *** The sweep *)
Lemma settle_snapshot_step now ev executed taken x w w' :
  within executed taken (sw_remaining w) -> keyed (sw_positions w) -> settle_snapshot now ev x w = Ok w' ->
  stepped now ev executed taken x w w'.
Proof.
  intros W K. unfold settle_snapshot. destruct (sn_body x) as [a qa ma b qb mb|] eqn:Bd.
  - by eapply settle_engine_step.
  - by eapply settle_manual_step.
Qed.
Lemma closed_between_later w w1 w' y :
  closed_in y w1 = closed_in y w -> closed_between w1 w' y = closed_between w w' y.
Proof. unfold closed_between. by intros ->. Qed.
Lemma taken_by_later w w1 w' l :
  (forall y, y ∈ l -> closed_in y w1 = closed_in y w) -> taken_by w1 w' l = taken_by w w' l.
Proof.
  unfold taken_by. induction l as [|y l IH]; intros H; simpl; [done|].
  rewrite (closed_between_later w w1) by (apply H; left). f_equal. apply IH. intros z Z. apply H. by right.
Qed.
(** Each position of the snapshot is swept once: a row is untouched, or settled
    on what the closed positions before it left. *)
Record swept (now : Z) (ev : Evidence) (executed : gmap string Q) (taken : list (string * Q))
    (l : list FlattenSnapshot) (w w' : Sweep) : Prop := {
  sv_others : forall y, snap_id y ∉ map snap_id l -> closed_in y (ledgers w') = closed_in y (ledgers w);
  sv_rows : forall k, sw_positions w' !! k = sw_positions w !! k
    \/ exists l1 x l2 p p', l = l1 ++ x :: l2 /\ engine_snapshot x = true /\ snap_key x = k
       /\ sw_positions w !! k = Some p /\ sw_positions w' !! k = Some p'
       /\ settles now ev (left_for executed (taken ++ taken_by (ledgers w) (ledgers w') l1)) x p p'
}.
Lemma settle_snapshots_step now ev executed l taken w w' :
  NoDup (map snap_id l) -> within executed taken (sw_remaining w) -> keyed (sw_positions w) ->
  settle_snapshots now ev l w = Ok w' -> swept now ev executed taken l w w'.
Proof.
  revert taken w. induction l as [|x l IH]; intros taken w N W K; simpl.
  - intros [= <-]. split; [done|]. intros k. by left.
  - intros (w1 & S & H)%rbind_ok. apply NoDup_cons in N as [Nx N].
    destruct (settle_snapshot_step _ _ _ _ _ _ _ W K S) as [K1 O1 R1 W1].
    destruct (IH _ _ N W1 K1 H) as [O2 R2].
    assert (Nl : forall y, y ∈ l -> snap_id y <> snap_id x).
    { intros y Y E. apply Nx. rewrite <- E. by apply list_elem_of_fmap_2. }
    assert (Same : forall y, y ∈ l -> closed_in y (ledgers w1) = closed_in y (ledgers w)) by (intros; by apply O1, Nl).
    assert (Ox : taken_by (ledgers w) (ledgers w1) [x] = taken_by (ledgers w) (ledgers w') [x]).
    { rewrite !taken_one. unfold closed_between. by rewrite (O2 x Nx). }
    split.
    + intros y Y. rewrite O2 by (intros Z; apply Y; by right). apply O1. intros E. apply Y. rewrite E. by left.
    + intros k. destruct (R2 k) as [E2|(l1 & y & l2 & p & p' & -> & En & Ky & L & L' & St)].
      * destruct (R1 k) as [E1|(En & Ek & p & p' & L & L' & St)]; [left; congruence|right].
        exists [], x, l, p, p'. split_and!; [done|done|done|done|congruence|]. simpl. by rewrite app_nil_r.
      * right. exists (x :: l1), y, l2, p, p'. split_and!; [done|done|done| |done|].
        -- destruct (R1 k) as [<-|(Ex & Ek & _)]; [done|]. exfalso.
           apply (Nl y); [apply elem_of_app; right; left|]. unfold snap_id. by rewrite En, Ex, Ky, Ek.
        -- assert (El : taken_by (ledgers w1) (ledgers w') l1 = taken_by (ledgers w) (ledgers w') l1)
             by (apply taken_by_later; intros z Z; apply Same, elem_of_app; by left).
           rewrite <- app_assoc, Ox, El in St. unfold taken_by at 1 in St. simpl in St.
           rewrite app_nil_r in St. exact St.
Qed.
(** The evidence of a sweep, and the executions it starts from. *)
Definition sweep_execs (now op account : Z) (trades : TradeBookTable) (s : KillState) : list TradeExecution :=
  execs_since account (match ks_ops s !! op with Some o => op_created_at o | None => (now - TWO_HOURS)%Z end) trades.
Definition sweep_evidence (now op account : Z) (rows : list BrokerPosition) (trades : TradeBookTable)
    (s : KillState) : Evidence := {|
  ev_broker := broker_quantities rows; ev_prices := average_prices (sweep_execs now op account trades s) |}.
Lemma flatten_ledger now op account rows trades s s' n :
  close_all_ledger_after_account_flatten now op account rows trades s = Ok (s', n) ->
  exists w, settle_snapshots now (sweep_evidence now op account rows trades s) (flatten_snapshots op account s)
              {| sw_positions := ks_positions s; sw_manual := ks_manual s;
                 sw_remaining := exec_quantities (sweep_execs now op account trades s); sw_closed := 0; sw_pending := 0 |} = Ok w
    /\ ks_positions s' = sw_positions w /\ ks_manual s' = sw_manual w
    /\ ks_ops s' = ks_ops (let r := Z.of_nat (length (List.filter (unsettled w) (flatten_snapshots op account s))) in
         update_operation_completion now op (final_status (sw_pending w) r) r s).
Proof.
  unfold close_all_ledger_after_account_flatten. intros (w & W & H)%rbind_ok. injection H as <- _. exists w.
  split; [exact W|]. unfold update_operation_completion. simpl. repeat case_match; done.
Qed.

(** C19: An account flatten changes the ledger on evidence only, and allocates
    the executions first in first out: a pair's row is left alone unless a pair
    [x] of the snapshot names it and the broker holds none of that pair's
    symbols; an open row may then wait for its price, and a row is closed, with
    the profit at the average prices of the executions since the operation,
    only when each symbol has a price and what the positions before [x] that
    this sweep closed -- pairs and manual positions -- left of its executions
    covers the quantity of the snapshot.  (Each position is in the snapshot
    once, and the sweep is one transaction nothing disturbs.  The next sweep
    starts from all the executions again: [executions_used_twice].) *)
Theorem account_flatten_evidence (now op account n : Z) (rows : list BrokerPosition) (trades : TradeBookTable)
    (s s' : KillState) (k : Z * string) :
  keyed (ks_positions s) -> NoDup (map snap_id (flatten_snapshots op account s)) ->
  close_all_ledger_after_account_flatten now op account rows trades s = Ok (s', n) ->
  ks_positions s' !! k = ks_positions s !! k
  \/ exists before x after p p', flatten_snapshots op account s = before ++ x :: after /\ snap_key x = k
       /\ ks_positions s !! k = Some p /\ ks_positions s' !! k = Some p'
       /\ settles now (sweep_evidence now op account rows trades s)
            (left_for (exec_quantities (sweep_execs now op account trades s))
               (taken_by (ks_positions s, ks_manual s) (ks_positions s', ks_manual s') before)) x p p'.
Proof.
  intros K N (w & W & E & Em & _)%flatten_ledger.
  apply (settle_snapshots_step _ _ (exec_quantities (sweep_execs now op account trades s)) _ []) in W; [|done| |done].
  - destruct W as [_ R]. destruct (R k) as [Ek|(l1 & x & l2 & p & p' & El & _ & Kx & L & L' & St)];
      [left; by rewrite E|right].
    exists l1, x, l2, p, p'. split_and!; [done..|by rewrite E|]. by rewrite E, Em.
  - intros t. simpl. split; [apply executed_repr|]. unfold left_for. simpl. lra.
Qed.

(** An account flatten is complete exactly when nothing is left: its
    operation ends COMPLETE if every position of the snapshot is closed or
    gone, and otherwise RECONCILING or UNRESOLVED with the number that is
    left. *)
Theorem account_flatten_complete (now op account n : Z) (rows : list BrokerPosition) (trades : TradeBookTable)
    (s s' : KillState) (o : Operation) :
  close_all_ledger_after_account_flatten now op account rows trades s = Ok (s', n) ->
  ks_ops s !! op = Some o -> op_status o ∉ [KS_COMPLETE; KS_CLEARED] ->
  exists o', ks_ops s' !! op = Some o'
  /\ op_unresolved_count o' = Z.of_nat (length (List.filter
       (unsettled {| sw_positions := ks_positions s'; sw_manual := ks_manual s'; sw_remaining := ∅;
                     sw_closed := 0; sw_pending := 0 |}) (flatten_snapshots op account s)))
  /\ (op_status o' = KS_COMPLETE <-> op_unresolved_count o' = 0%Z)
  /\ (op_status o' <> KS_COMPLETE -> op_status o' ∈ [KS_RECONCILING; KS_UNRESOLVED]).
Proof.
  intros (w & _ & Ep & Em & Eo)%flatten_ledger L St. rewrite Eo. clear Eo. cbv zeta.
  set (r := Z.of_nat (length (List.filter (unsettled w) (flatten_snapshots op account s)))).
  assert (E : List.filter (unsettled {| sw_positions := ks_positions s'; sw_manual := ks_manual s'; sw_remaining := ∅;
      sw_closed := 0; sw_pending := 0 |}) (flatten_snapshots op account s) = List.filter (unsettled w) (flatten_snapshots op account s)).
  { apply List.filter_ext. intros x. unfold unsettled; simpl. by rewrite Ep, Em. }
  rewrite E. fold r. unfold update_operation_completion. rewrite L.
  rewrite (bool_decide_eq_false_2 (op_status o = KS_COMPLETE)) by (intros X; apply St; rewrite X; by left).
  rewrite (bool_decide_eq_false_2 (op_status o = KS_CLEARED)) by (intros X; apply St; rewrite X; by right; left).
  exists (completed_row now (final_status (sw_pending w) r) r o). cbn [andb set_ops ks_ops].
  split_and!; [by rewrite lookup_insert_eq|done| |]; cbn [completed_row op_status op_unresolved_count]; unfold final_status.
  - destruct (0 <? r)%Z eqn:P; [apply Z.ltb_lt in P|apply Z.ltb_ge in P]; assert (0 <= r)%Z by lia.
    + rewrite (proj2 (Z.eqb_neq r 0)) by lia. rewrite andb_true_r. split; [|lia]. by destruct (0 <? _)%Z.
    + rewrite (proj2 (Z.eqb_eq r 0)), andb_false_r by lia. split; [lia|done].
  - destruct (_ && _); [intros _; by left|]. destruct (_ =? _)%Z; [done|]. intros _. right. by left.
Qed.

(** ** Examples *)
Definition ex_pair (trade : string) : PositionModel := {|
  p_account_id := 7; p_trade_id := trade; p_strategy_id := "model_blue"; p_leg_a_symbol := "SPY";
  p_leg_a_signed_qty := 10; p_leg_a_entry_mark := 500; p_leg_b_symbol := Some "QQQ"%string;
  p_leg_b_signed_qty := Some (-12)%Q; p_leg_b_entry_mark := Some 400%Q; p_realised_pnl := 0;
  p_commission := 0; p_live_pnl := 0; p_target := 500; p_stop := 300; p_time_limit := 5;
  p_target_unit := "ABSOLUTE"; p_stop_unit := "ABSOLUTE"; p_exit_reason := None;
  p_exit_automation_enabled := false; p_leg_a_instrument_type := "STK";
  p_leg_b_instrument_type := Some "STK"%string; p_opened_at := 10; p_closed_at := None;
  p_risk_state := RISK_STATE_OPEN |}.
Definition ex_trade_exec (id symbol side : string) (qty price : Q) : TradeExecution := {|
  te_exec_id := id; te_account_id := 7; te_ibkr_account := "DU7"; te_order_id := None; te_symbol := symbol;
  te_sec_type := "STK"; te_exchange := "SMART"; te_currency := "USD"; te_con_id := 0; te_side := side;
  te_quantity := qty; te_price := price; te_cum_qty := qty; te_avg_price := price; te_broker_order_id := None;
  te_perm_id := None; te_client_id := None; te_commission := None; te_commission_currency := None;
  te_realized_pnl := None; te_executed_at := 25; te_correction_count := 0 |}.
(** Two pairs, and executions that cover one of them. *)
Definition ex_positions (l : list PositionModel) : PositionTable :=
  list_to_map (map (fun p => (row_key p, p)) l).
Definition ex_trades : TradeBookTable :=
  {[ "x1"%string := ex_trade_exec "x1" "SPY" "SELL" 10 510; "x2"%string := ex_trade_exec "x2" "QQQ" "BUY" 12 390 ]}.
Definition ex_flatten : KillState := {|
  ks_accounts := {[ 7 := "DU7"%string ]}%Z;
  ks_ops := {[ 1 := ex_op KS_ACTIVATING SCOPE_ACCOUNT ]}%Z;
  ks_snapshots := map (snapshot_engine 1 7) [ex_pair "T1"; ex_pair "T2"];
  ks_positions := ex_positions [ex_pair "T1"; ex_pair "T2"]; ks_manual := empty_book; ks_cache := {[ 7 ]}%Z;
  ks_manual_cache := ∅ |}.
Definition states (r : result (KillState * Z)) : list (string * RiskState * Q) * list KsStatus :=
  match r with
  | Ok (s, _) => (map (fun p => (p_trade_id p, p_risk_state p, Qred (p_realised_pnl p)))
                    (map snd (map_to_list (ks_positions s))),
                  map op_status (map snd (map_to_list (ks_ops s))))
  | Raise _ => ([], [])
  end.
(** The first sweep closes one pair and lets the other wait. *)
Example one_covered :
  states (close_all_ledger_after_account_flatten 30 1 7 [] ex_trades ex_flatten)
  = ([("T1"%string, RISK_STATE_CLOSED, 220); ("T2"%string, RISK_STATE_FLATTENED_PENDING_PRICE, 0)], [KS_RECONCILING]).
Proof. vm_compute. reflexivity. Qed.
(** The next sweep has forgotten what the first one allocated: the same
    executions close the other pair, and the operation is complete. *)
Example executions_used_twice :
  match close_all_ledger_after_account_flatten 30 1 7 [] ex_trades ex_flatten with
  | Ok (s, _) => states (close_all_ledger_after_account_flatten 60 1 7 [] ex_trades s)
                 = ([("T1"%string, RISK_STATE_CLOSED, 220); ("T2"%string, RISK_STATE_CLOSED, 220)], [KS_COMPLETE])
  | Raise _ => False
  end.
Proof. vm_compute. reflexivity. Qed.
(** A manual position that is being closed is never settled by this path, and
    one that is open is closed without its profit. *)
Definition ex_manual_flatten (status : ManualStatus) : KillState := {|
  ks_accounts := {[ 7 := "DU7"%string ]}%Z;
  ks_ops := {[ 1 := ex_op KS_ACTIVATING SCOPE_ACCOUNT ]}%Z;
  ks_snapshots := [snapshot_manual 1 7 (ex_row status 10)]; ks_positions := ∅;
  ks_manual := {| mb_orders := []; mb_execs := []; mb_positions := [ex_row status 10]; mb_halts := ∅;
                  mb_audit := []; mb_next := 2 |};
  ks_cache := {[ 7 ]}%Z; ks_manual_cache := ∅ |}.
Definition manual_states (r : result (KillState * Z)) : list (ManualStatus * Q) :=
  match r with
  | Ok (s, _) => map (fun p => (mp_status p, Qred (mp_realized_pnl p))) (mb_positions (ks_manual s))
  | Raise _ => []
  end.
Example manual_without_profit :
  manual_states (close_all_ledger_after_account_flatten 30 1 7 [] ex_trades (ex_manual_flatten MAN_OPEN))
  = [(MAN_CLOSED, -(1))]
  /\ manual_states (close_all_ledger_after_account_flatten 30 1 7 [] ex_trades (ex_manual_flatten MAN_CLOSING))
     = [(MAN_CLOSING, -(1))].
Proof. vm_compute. auto. Qed.
Lemma ex_flatten_keyed : keyed (ks_positions ex_flatten).
Proof.
  intros k p L. apply elem_of_list_to_map_2 in L. simpl in L.
  rewrite !elem_of_cons, elem_of_nil in L. destruct L as [L|[L|[]]]; by injection L as -> ->.
Qed.
Lemma account_flatten_evidence_witness :
  exists s' n, close_all_ledger_after_account_flatten 30 1 7 [] ex_trades ex_flatten = Ok (s', n)
  /\ (ks_positions s' !! (7%Z, "T1"%string) = ks_positions ex_flatten !! (7%Z, "T1"%string)
      \/ exists before x after p p', flatten_snapshots 1 7 ex_flatten = before ++ x :: after
           /\ snap_key x = (7%Z, "T1"%string)
           /\ ks_positions ex_flatten !! (7%Z, "T1"%string) = Some p /\ ks_positions s' !! (7%Z, "T1"%string) = Some p'
           /\ settles 30 (sweep_evidence 30 1 7 [] ex_trades ex_flatten)
                (left_for (exec_quantities (sweep_execs 30 1 7 ex_trades ex_flatten))
                  (taken_by (ks_positions ex_flatten, ks_manual ex_flatten) (ks_positions s', ks_manual s') before)) x p p').
Proof.
  destruct (close_all_ledger_after_account_flatten 30 1 7 [] ex_trades ex_flatten) as [[s' n]|e] eqn:R;
    [|by vm_compute in R].
  exists s', n. split; [reflexivity|]. refine (account_flatten_evidence _ _ _ _ _ _ _ _ _ ex_flatten_keyed _ R).
  apply (bool_decide_unpack _). vm_compute. exact I.
Defined.
Lemma account_flatten_complete_witness :
  exists s' n o', close_all_ledger_after_account_flatten 30 1 7 [] ex_trades ex_flatten = Ok (s', n)
  /\ ks_ops s' !! 1%Z = Some o'.
Proof.
  destruct (close_all_ledger_after_account_flatten 30 1 7 [] ex_trades ex_flatten) as [[s' n]|e] eqn:R;
    [|by vm_compute in R].
  destruct (account_flatten_complete 30 1 7 n [] ex_trades ex_flatten s' (ex_op KS_ACTIVATING SCOPE_ACCOUNT) R)
    as (o' & L & _).
  - apply lookup_singleton_eq.
  - rewrite !elem_of_cons, elem_of_nil. intros [H|[H|[]]]; discriminate H.
  - exists s', n, o'. split; [reflexivity|exact L].
Defined.
